(* ===== verification/_CoqProject ===== *)
-Q . S2P
Prelude.v
Config.v
Fc.v
Asset.v
PriceText.v
Records.v
ChainInterface.v
PendingState.v
ChainDatabase.v
DatabaseFacts.v
Apply.v
ApplyFacts.v
Undo.v
EvalState.v
AccountOps.v
AssetOps.v
BalanceOps.v
MarketOps.v
Evaluate.v
Ledger.v
Samples.v
Conservation.v
TransactionFacts.v
AuthorityFacts.v
SupplyFacts.v
AccountFacts.v
MarketFacts.v
Invariants.v
Blocks.v
Production.v
ProductionFacts.v
Forks.v
ForkFacts.v
Chain.v
ChainOps.v
Pool.v
ChainFacts.v
SwitchFacts.v
ChainWitnesses.v
Client.v
MainChain.v
SyncFacts.v
SyncWitnesses.v
OrderBook.v
BookFacts.v
Engine.v
EngineFacts.v
EngineLedger.v
EngineV7.v
EngineV7Facts.v
EngineAgree.v
Queries.v
QueryFacts.v
Genesis.v
GenesisFacts.v
MarketWitnesses.v
LevelMap.v
LevelFacts.v
Framing.v
FramingFacts.v
Eff.v
WalletDb.v
WalletFacts.v
WalletSafety.v
WalletReopen.v
Builder.v
BuilderFacts.v
WalletAccounts.v
WalletAccountFacts.v
Doubles.v
WalletTrx.v
WalletTrxFacts.v
WalletWitnesses.v
Addresses.v
AddressFacts.v
AddressWitnesses.v
NodeState.v
Node.v
NodeFacts.v
NodeWitnesses.v
