(* ===== verification/Prelude.v ===== *)
(** * A verification development of BitShares

    The program is a delegated-proof-of-stake ledger
    (src/libraries/blockchain).  Holders of the base asset vote for delegates;
    the 101 delegates with most votes take turns to sign a block every ten
    seconds; a block carries transactions, and a transaction is a list of
    operations on accounts, assets, balances and market orders.  Orders are
    matched once per block by a market engine.  A node keeps every block it has
    seen in a tree, follows the longest valid branch, and goes back from a branch
    by applying the undo states it saved.  Around it, a client
    (src/libraries/client) exchanges blocks with other nodes over encrypted
    connections (src/libraries/net), the stores are kept in LevelDB
    (src/libraries/db), and a wallet (src/libraries/wallet) keeps a user's keys and
    builds transactions.

    ** Parts and files

    - Prelude (this file): exceptions and the error monad, loops over maps, 64-bit
      and 128-bit words, congruence modulo 2^64, sums over maps, tactics.
    - Config, Fc: config.hpp, fork_blocks.hpp/.cpp; and what is used of the fc
      library's numbers, as the classes [FcNum] (decimal text, variants) and
      [FcReal] (real128), each with a concrete instance ([ref_num], [ref_real]).
    - Asset, PriceText: asset.hpp/.cpp, amounts and prices in 128-bit fixed point,
      and the textual form of a ratio.
    - Records: the records, withdraw conditions, operations and transactions
      (account_record, asset_record, balance_record, market_records,
      withdraw_types, operations, transaction), and the class [Crypto] of hashes
      and signatures with the instance [toy_crypto].
    - ChainInterface: chain_interface.hpp/.cpp and its v1: a view of the chain
      ([chain_view]: the const methods), the class [ChainStore] of update methods,
      and the non-virtual methods on top of them (names, symbols, fees, ids).
    - PendingState, Apply: pending_chain_state.hpp/.cpp, the overlay a block or a
      transaction collects its changes in, [apply_changes] and [get_undo_state].
    - ChainDatabase: chain_database.cpp, the record stores with their indices, the
      election of delegates, the median feed, the supply count.
      Both states are instances of [ChainStore].
    - EvalState, AccountOps, AssetOps, BalanceOps, MarketOps, Evaluate:
      transaction_evaluation_state.cpp and the operations of
      account_operations.cpp, feed_operations.cpp, asset_operations.cpp,
      balance_operations.cpp (with v1 to v3) and market_operations.cpp (with v1 to
      v4), over any [ChainStore].
    - Blocks, Production: block.hpp/.cpp, the slots of time.cpp, and what a block
      does besides its transactions (chain_database.cpp, its v1 and v2): header
      checks, production statistics, delegate pay, random seed, active delegates.
      Block hashes and signatures are the class [BlockHash].
    - Forks: the tree of known blocks (store_and_index, the marking loops).
    - Chain, ChainOps, Pool: chain_database_impl as one state [chain]: extend_chain,
      pop_block, get_fork_history, switch_to_fork, push_block; the pool of pending
      transactions and generate_block.  An exception does not roll the stores
      back, so an operation of the chain ([act]) returns the state it leaves
      whether or not it throws.
    - OrderBook, Engine: market_records.cpp and market_engine.hpp/.cpp, the order
      books of a market, the choice of the next bid and ask, the matches and their
      payments, [execute].  The chain calls an engine through the class
      [MarketEngine]; [with_current_engine] is this engine in that place.
    - EngineV7: market_engine_v7.hpp/.cpp, the engine of the blocks before
      BTS_V0_4_29, over the loop that all engines share ([loop_with]).
    - Addresses: address.cpp, pts_address.cpp, types.cpp, extended_address.cpp and
      key_conversion.cpp, the textual forms of addresses and keys and the derivation
      of extended keys, over the classes [TextCrypto] (base58 and hashes) and
      [CurveCrypto] (the curve).
    - Genesis: initialize_genesis and sanity_check of chain_database.cpp, the first
      records made from the genesis file.
    - Queries: the queries of chain_database.cpp for markets, orders, accounts and
      balances.
    - Client: client.cpp, what the client answers to the network and does with the
      blocks and transactions it receives, over the [chain] of Chain.v.
    - LevelMap: level_map.hpp and cached_level_map.hpp over the class [LevelDB].
    - Framing: message_oriented_connection.cpp, stcp_socket.cpp and message.hpp: key
      exchange, encrypted stream, messages, over the class [ChannelCrypto].
    - Eff: computations that change a state and may throw, leaving their changes.
    - WalletDb: wallet_db.cpp and wallet_records.cpp, the wallet's records on disk
      and in memory, its keys and accounts, over the class [WalletCrypto].
    - Builder: transaction.cpp, transaction_builder.cpp and the parts of wallet.cpp
      they call: building, paying for and signing a transaction.
    - WalletAccounts: the functions of wallet.cpp on accounts and keys.
    - Doubles, WalletTrx: amounts given as doubles, and the functions of wallet.cpp
      that make a transaction without the builder.
    - NodeState, Node: peer_database.cpp, peer_connection.cpp and node.cpp: the peers a
      node knows, the message cache, inventories, the synchronisation of blocks, blocks
      and transactions in normal operation, the closing of connections.  The node
      calls the client through the class [NodeDelegate]; [client_delegate] is the
      client of Client.v in that place, and [run_events] a history of the node.

    ** Theorems

    - DatabaseFacts: the vote index, the elected delegates, the median feed.
    - ApplyFacts, Undo: [apply_changes] refines the view of the pending state; the
      undo state gives the records back.
    - Ledger, Conservation, TransactionFacts: the shares the chain holds of an
      asset less its supply are the same before and after a transaction; the
      transaction's balance is what it withdrew less what it deposited.
    - AuthorityFacts, SupplyFacts, AccountFacts, MarketFacts: signatures, issue and yield,
      accounts, orders.
    - Invariants: a property every update method keeps is kept by every
      transaction.
    - ProductionFacts: pay, statistics, header checks, the round's delegates.
    - ForkFacts: the invariant of the block tree and that its operations keep it.
    - ChainFacts, SwitchFacts: popping undoes extending, a rejected block is
      harmless, the loops over the tree end, a switch reaches its target, a valid
      next block becomes the head.
    - BookFacts, EngineFacts: the engine meets the orders of a market in the order
      of price, its loop ends, and it changes the block's state by update methods
      only, which is what [MarketEngine] asks for.
    - EngineLedger: applying a pending state to the one below adds its ledger; a
      market without market issued shares leaves the ledger unchanged.
    - EngineV7Facts, EngineAgree: the loop of the older engine ends; on plain markets
      it does exactly what its successor does.
    - QueryFacts: the orders of a market are returned in order and complete, orders
      and balances are found exactly if they are stored.
    - GenesisFacts: the genesis state has the invariants the other theorems keep.
    - MainChain, SyncFacts: the main chain stays well formed through a switch; two
      nodes find where their chains fork; a received block becomes the head.
    - LevelFacts: a cached store is a map in memory and a map on disk.
    - FramingFacts: messages are delivered however the stream is cut, if the cipher
      decodes the stream.
    - WalletFacts, WalletSafety, WalletReopen: no private key is lost through the
      wallet's operations, reopening it and changing its password, the recursion of
      store_key and store_account ends, reopening gives every record back under what
      it is found by, new keys are fresh.
    - WalletAccountFacts: the operations on accounts lose no key, an imported key can
      be used.
    - BuilderFacts, WalletTrxFacts: a finished transaction brings in exactly its fee,
      with or without the builder; withdrawals are exact.
    - AddressFacts: what a text of an address is, round trips of addresses and keys,
      texts that are read beyond their end or as something else.
    - NodeFacts: no block is asked of two peers at a time, the next block is asked
      for, the backlog of blocks is worked off, a fetched block becomes the head of
      the chain, what nobody asked for is dropped, a block reported unavailable is
      lost; the message cache, the synopsis, the database of peers.
    - Samples, ChainWitnesses, SyncWitnesses, MarketWitnesses, WalletWitnesses,
      AddressWitnesses, NodeWitnesses: a small concrete chain, market, genesis file,
      wallet, set of addresses and node on which the theorems are applied.

    ** Conventions

    Exceptions are values ([result]); [assertion_abort], [arithmetic_fault],
    [stack_overflow] and [memory_fault] (a read out of bounds) are the process dying
    and are never caught; C's assert aborts, as it does unless NDEBUG is defined.
    Where a function compares or copies bytes beyond a vector (Addresses) what
    follows it in memory is an argument.  A w-bit integer is a Z with its wrap
    written out ([wrap64], [wrapu32], [wrapu128], ...).  Times are seconds and are
    not wrapped, which agrees with 32-bit arithmetic until 2106.  A level map or
    std::map is a gmap; where the order of iteration matters the keys are sorted,
    elsewhere a loop runs in the order of [map_to_list].

    Loops that are not structural carry fuel, with a lemma that it is enough: the
    length of the name for the loops over a name's parents, the number of slots for
    missed blocks ([missed_fuel_enough]), the length of the list for the shuffle
    ([shuffle_loop_fuel]), the number of known blocks for the loops over the tree
    ([reach_below], [fork_history_terminates]), the head's number for the pops
    ([pop_loop_terminates]), the orders in the books for the matching loop
    ([matching_terminates]), the height for the synopsis ([synopsis_heights]), the
    messages for the read loop ([messages_delivered]), the head's number for the
    order history ([history_fuel_enough]), the length of a name for the parent's key, the
    blocks on hand for the backlog ([backlog_ends]), the high block number for a peer's
    synopsis ([peer_synopsis_spec]); store_key and store_account call each other at most
    three deep ([store_recursion_ends]) and an approval calls itself at most twice
    ([safe_change_contact]).

    What is not under src/ is a parameter: fc's hashes, signatures, packing and
    numbers are the classes above, and no law is assumed of them but, in ForkFacts
    and SwitchFacts, that the id of a block is never that of an ancestor and, in
    EngineLedger, that conditions with one address are of one asset.  [LevelDB] has
    the laws of a map with atomic batches; [ChannelCrypto] that both ends agree on a
    secret and that a stream may be encoded and decoded in parts; [NoCollision] that the addresses of
    different keys differ; [TextCrypto] that base58 is read back and how long
    hashes are, [CurveCrypto] that a public key is derived with its private key; [DoubleCast] is the
    conversion of a double, which C++ leaves open out of range.  [NodeMessages] and
    [NodeDelegate] have no laws.

    ** Not modelled

    Opening, reindexing and closing the database files, reading the genesis file;
    observers; objects, edges, sites, auctions and sales, whose operations are
    disabled; the engines up to BTS_V0_4_21 (market_engine_v1 to v6), behind the
    interface [MarketEngine]; memo encryption; of node.cpp handshakes, the connect
    loop, the exchange of addresses, firewall checks, bandwidth and statistics, and
    that fibers may be switched while the client is called; the wallet's scan of
    blocks and its ledger, opening and locking it, and orders given as text; the
    client's configuration and delegate loop; JSON files, RPC, CLI and mail. *)
From stdpp Require Export base tactics gmap strings list fin_maps.
From Stdlib Require Export ZArith Lia.

#[global] Set Default Proof Using "Type".
#[global] Open Scope Z_scope.

(** ** Exceptions *)

(** One constructor per exception class the modelled code throws
    (exceptions.hpp), plus the fc exceptions raised by [FC_ASSERT], by
    a failed key lookup in a level map, by [variant::as<T>] and by the numeric
    conversions of fc.  [arithmetic_fault], [assertion_abort], [stack_overflow] and
    [memory_fault] stand for the process dying in integer arithmetic, in C's
    [assert] or in a recursion that does not end, and for a read or write outside
    an object, after which the language promises nothing. *)
Inductive error :=
| assert_exception
| key_not_found_exception
| bad_cast_exception
| fc_numeric_exception
| arithmetic_fault
| assertion_abort
| memory_fault
| addition_overflow
| subtraction_overflow
| asset_type_mismatch
| unsupported_chain_operation
| duplicate_transaction
| zero_amount
| zero_price
| asset_divide_by_self
| asset_divide_by_zero
| negative_deposit
| not_a_delegate
| unknown_balance_record
| insufficient_funds
| missing_signature
| invalid_claim_password
| invalid_withdraw_condition
| negative_withdraw
| expired_transaction
| invalid_transaction_expiration
| invalid_account_name
| unknown_account_id
| missing_parent_account_signature
| account_already_registered
| account_key_in_use
| account_retracted
| unknown_delegate_slate
| too_may_delegates_in_slate
| pay_balance_remaining
| invalid_precision
| invalid_asset_symbol
| unknown_asset_id
| asset_symbol_in_use
| invalid_asset_amount
| negative_issue
| over_issue
| unknown_asset_symbol
| asset_id_in_use
| not_user_issued
| invalid_asset_name
| insufficient_fee
| negative_fee
| unknown_market_order
| unknown_block
| block_numbers_not_sequential
| invalid_previous_block_id
| invalid_block_time
| time_in_past
| time_in_future
| invalid_block_digest
| invalid_delegate_signee
| failed_checkpoint_verification
| block_older_than_undo_history
| insufficient_relay_fee
| insufficient_feeds
| unlinkable_block
| fc_exception
| net_insufficient_relay_fee
| net_block_older_than_undo_history
| db_exception
| db_in_use_exception
| eof_exception
| stack_overflow
| invalid_pts_address
| wallet_closed
| wallet_locked
| unknown_receive_account
| unknown_account
| invalid_market
| unknown_transaction
| memo_too_long
| private_key_not_found
| double_cover
| invalid_cancel
| key_already_registered
| invalid_name
| duplicate_account_name
| duplicate_key
| not_contact_account
| invalid_price
| account_not_registered
| unauthorized_child_account
| invalid_slate
| invalid_fee
| invalid_expiration_time
| bad_collateral_amount.

#[global] Instance error_eq_dec : EqDecision error.
Proof. solve_decision. Defined.

(** ** The result of fallible code *)

Inductive result (A : Type) : Type :=
| Ok (a : A)
| Err (e : error).
Arguments Ok {A} a.
Arguments Err {A} e.

#[global] Instance result_eq_dec `{EqDecision A} : EqDecision (result A).
Proof. solve_decision. Defined.

#[global] Instance result_ret : MRet result := fun A a => Ok a.
#[global] Instance result_bind : MBind result := fun A B f m =>
  match m with Ok a => f a | Err e => Err e end.
#[global] Instance result_fmap : FMap result := fun A B f m =>
  match m with Ok a => Ok (f a) | Err e => Err e end.

(** [if( c ) FC_CAPTURE_AND_THROW( e )] *)
Definition throw_if (c : bool) (e : error) : result unit :=
  if c then Err e else Ok tt.

(** [FC_ASSERT( c )] *)
Definition fc_assert (c : bool) : result unit := throw_if (negb c) assert_exception.

(** [if( !o.valid() ) FC_CAPTURE_AND_THROW( e )], then [*o] *)
Definition require {A} (o : option A) (e : error) : result A :=
  match o with Some a => Ok a | None => Err e end.

Definition is_ok {A} (r : result A) : bool :=
  match r with Ok _ => true | Err _ => false end.

(** [for( x : l ) f( x )] over a state, stopping at the first exception. *)
Fixpoint fold_result {A S} (f : S -> A -> result S) (s : S) (l : list A) : result S :=
  match l with
  | [] => Ok s
  | x :: l => s' ← f s x; fold_result f s' l
  end.

Lemma bind_Ok {A B} (m : result A) (f : A -> result B) b :
  m ≫= f = Ok b <-> exists a, m = Ok a /\ f a = Ok b.
Proof.
  destruct m as [a|e]; cbn; split.
  - eauto.
  - intros (a' & [= ->] & ?); done.
  - done.
  - intros (a' & ? & _); done.
Qed.

Lemma throw_if_Ok c e u : throw_if c e = Ok u <-> c = false.
Proof. destruct c, u; cbn; split; done. Qed.

Lemma fc_assert_Ok c u : fc_assert c = Ok u <-> c = true.
Proof. destruct c, u; cbn; split; done. Qed.

Lemma require_Ok {A} (o : option A) e a : require o e = Ok a <-> o = Some a.
Proof. destruct o; cbn; split; congruence. Qed.

(** Guards in front of a computation. *)
Lemma bind_throw_if {A} c e (k : unit -> result A) a :
  throw_if c e ≫= k = Ok a <-> c = false /\ k tt = Ok a.
Proof. destruct c; cbn; split; intros; try done; [by destruct H|by destruct H]. Qed.

Lemma bind_fc_assert {A} c (k : unit -> result A) a :
  fc_assert c ≫= k = Ok a <-> c = true /\ k tt = Ok a.
Proof. unfold fc_assert. by rewrite bind_throw_if, negb_false_iff. Qed.

Lemma fold_result_app {A S} (f : S -> A -> result S) s l1 l2 :
  fold_result f s (l1 ++ l2) = s' ← fold_result f s l1; fold_result f s' l2.
Proof.
  revert s. induction l1 as [|x l1 IH]; intros s; cbn; [done|].
  destruct (f s x); cbn; auto.
Qed.

(** An invariant every step preserves is preserved by the loop. *)
Lemma fold_result_inv {A S} (P : S -> Prop) (f : S -> A -> result S) :
  (forall s x s', P s -> f s x = Ok s' -> P s') ->
  forall l s s', P s -> fold_result f s l = Ok s' -> P s'.
Proof.
  intros Hstep l. induction l as [|x l IH]; intros s s' HP; cbn.
  - intros [= <-]; done.
  - intros (s1 & H1 & H2)%bind_Ok. eauto.
Qed.

(** A loop whose body never throws is a left fold. *)
Lemma fold_result_total {A S} (f : S -> A -> result S) (g : S -> A -> S) l s :
  (forall s x, f s x = Ok (g s x)) -> fold_result f s l = Ok (foldl g s l).
Proof.
  intros Hf. revert s. induction l as [|x l IH]; intros s; cbn; [done|].
  rewrite Hf. cbn. apply IH.
Qed.

(** Inverts a successful monadic run into the facts its guards establish. *)
Ltac inv_ok_step :=
  match goal with
  | H : Ok _ = Ok _ |- _ => injection H as H; subst
  | H : Err _ = Ok _ |- _ => discriminate H
  | H : Ok _ = Err _ |- _ => discriminate H
  | H : mret _ = Ok _ |- _ => unfold mret, result_ret in H
  | H : _ ≫= _ = Ok _ |- _ => apply bind_Ok in H as (? & ? & H)
  | H : throw_if _ _ = Ok _ |- _ => apply throw_if_Ok in H
  | H : fc_assert _ = Ok _ |- _ => apply fc_assert_Ok in H
  | H : require _ _ = Ok _ |- _ => apply require_Ok in H
  | H : (if ?c then Err _ else _) = Ok _ |- _ => destruct c eqn:?; [discriminate H|]
  | H : (if ?c then _ else Err _) = Ok _ |- _ => destruct c eqn:?; [|discriminate H]
  | H : (let '(_, _) := ?x in _) = Ok _ |- _ => destruct x as [? ?]
  | H : _ = Ok _ |- _ => progress cbv zeta in H
  end.
Ltac inv_ok := repeat (inv_ok_step; cbn beta in *).

(** ** Machine integers *)

Definition INT64_MAX : Z := 2^63 - 1.
Definition INT64_MIN : Z := - 2^63.

(** Two's-complement reduction to a signed, and reduction to an unsigned,
    64-bit word. *)
Definition wrap64 (z : Z) : Z := (z + 2^63) mod 2^64 - 2^63.
Definition wrapu64 (z : Z) : Z := z mod 2^64.
Definition wrapu32 (z : Z) : Z := z mod 2^32.
Definition wrapu128 (z : Z) : Z := z mod 2^128.
Definition wrap32 (z : Z) : Z := (z + 2^31) mod 2^32 - 2^31.

Definition in_int64 (z : Z) : Prop := INT64_MIN <= z <= INT64_MAX.

#[global] Instance in_int64_dec z : Decision (in_int64 z).
Proof. unfold in_int64. apply _. Defined.

Lemma wrap64_range z : in_int64 (wrap64 z).
Proof.
  unfold wrap64, in_int64, INT64_MIN, INT64_MAX.
  pose proof (Z.mod_pos_bound (z + 2^63) (2^64)). lia.
Qed.

Lemma wrap64_id z : in_int64 z -> wrap64 z = z.
Proof.
  unfold wrap64, in_int64, INT64_MIN, INT64_MAX. intros H.
  rewrite Z.mod_small; lia.
Qed.

Lemma wrapu32_id z : 0 <= z < 2^32 -> wrapu32 z = z.
Proof. intros. by apply Z.mod_small. Qed.

Lemma wrapu128_id z : 0 <= z < 2^128 -> wrapu128 z = z.
Proof. intros. by apply Z.mod_small. Qed.

Lemma wrapu64_id z : 0 <= z < 2^64 -> wrapu64 z = z.
Proof. intros. by apply Z.mod_small. Qed.

(** Congruence modulo [2^64]: what 64-bit arithmetic preserves whether or not
    it overflows. *)
Definition eqm64 (a b : Z) : Prop := a mod 2^64 = b mod 2^64.
Infix "≡64" := eqm64 (at level 70).

#[global] Instance eqm64_equiv : Equivalence eqm64.
Proof. split; repeat intro; unfold eqm64 in *; congruence. Qed.

#[global] Instance eqm64_add : Proper (eqm64 ==> eqm64 ==> eqm64) Z.add.
Proof.
  intros a a' Ha b b' Hb. unfold eqm64 in *.
  rewrite (Z.add_mod a b), (Z.add_mod a' b') by lia. congruence.
Qed.

#[global] Instance eqm64_sub : Proper (eqm64 ==> eqm64 ==> eqm64) Z.sub.
Proof.
  intros a a' Ha b b' Hb. unfold eqm64 in *.
  rewrite (Zminus_mod a b), (Zminus_mod a' b'). congruence.
Qed.

#[global] Instance eqm64_opp : Proper (eqm64 ==> eqm64) Z.opp.
Proof.
  intros a a' Ha. rewrite <- !Z.sub_0_l. by rewrite Ha.
Qed.

Lemma wrap64_eqm z : wrap64 z ≡64 z.
Proof.
  unfold eqm64, wrap64. rewrite Zminus_mod_idemp_l.
  f_equal. lia.
Qed.

Lemma eqm64_int64 a b : in_int64 a -> in_int64 b -> a ≡64 b -> a = b.
Proof.
  intros Ha Hb H. rewrite <- (wrap64_id a Ha), <- (wrap64_id b Hb).
  unfold wrap64. f_equal. unfold eqm64 in H.
  rewrite (Z.add_mod a), (Z.add_mod b) by lia. congruence.
Qed.

Lemma eq_eqm64 a b : a = b -> a ≡64 b.
Proof. by intros ->. Qed.

Create HintDb ints.
#[export] Hint Resolve wrap64_range wrap64_eqm : ints.

(** ** Sums over finite maps *)

Section map_sum.
Context `{Countable K} {V : Type} (f : K -> V -> Z).

Definition map_ksum (m : gmap K V) : Z := map_fold (fun k v acc => f k v + acc) 0 m.

(** [f] of the value at a key, 0 where there is none. *)
Definition val_at (k : K) (o : option V) : Z := from_option (f k) 0 o.

Lemma map_ksum_empty : map_ksum ∅ = 0.
Proof. apply map_fold_empty. Qed.

Lemma map_ksum_insert_None m k v :
  m !! k = None -> map_ksum (<[k:=v]> m) = f k v + map_ksum m.
Proof.
  intros Hk. unfold map_ksum.
  rewrite (map_fold_insert_L (fun k v acc => f k v + acc) 0 k v m); [done| |done].
  intros. lia.
Qed.

Lemma map_ksum_delete m k v :
  m !! k = Some v -> map_ksum m = f k v + map_ksum (delete k m).
Proof.
  intros Hk. rewrite <- (insert_delete_id m k v Hk) at 1.
  apply map_ksum_insert_None, lookup_delete_eq.
Qed.

Lemma map_ksum_insert m k v :
  map_ksum (<[k:=v]> m) = map_ksum m + f k v - val_at k (m !! k).
Proof.
  destruct (m !! k) as [v0|] eqn:Hk; cbn.
  - rewrite <- insert_delete_eq, map_ksum_insert_None by apply lookup_delete_eq.
    rewrite (map_ksum_delete m k v0 Hk). lia.
  - rewrite map_ksum_insert_None by done. lia.
Qed.
End map_sum.

(** The sum over the values alone. *)
Definition map_sum `{Countable K} {V} (f : V -> Z) (m : gmap K V) : Z := map_ksum (fun _ => f) m.

(** ** Loops over a map *)

(** [for( const auto& item : m ) f( item.first, item.second )] *)
Definition each `{Countable K} {V St} (f : K -> V -> St -> result St) (m : gmap K V) (s : St)
    : result St :=
  fold_result (fun s kv => f kv.1 kv.2 s) s (map_to_list m).

Section each.
Context `{Countable K} {V St : Type}.
Implicit Types (f : K -> V -> St -> result St) (m : gmap K V) (s : St).

Lemma each_inv (P : St -> Prop) f m s s' :
  (forall k v s s', m !! k = Some v -> P s -> f k v s = Ok s' -> P s') ->
  P s -> each f m s = Ok s' -> P s'.
Proof.
  unfold each. intros Hf.
  assert (Hl : forall k v, (k, v) ∈ map_to_list m -> m !! k = Some v)
    by (intros k v; apply elem_of_map_to_list).
  revert s. induction (map_to_list m) as [|[k v] l IH]; intros s HP; cbn.
  - by intros [= <-].
  - intros (s1 & H1 & H2)%bind_Ok. apply (IH ltac:(set_solver) s1); [|done].
    eapply Hf; [apply Hl; left|exact HP|exact H1].
Qed.

(** A component the body leaves alone is left alone by the loop. *)
Lemma each_frame {A} (get : St -> A) f m s s' :
  (forall k v s s', f k v s = Ok s' -> get s' = get s) ->
  each f m s = Ok s' -> get s' = get s.
Proof.
  intros Hf He. apply (each_inv (fun x => get x = get s) f m s s'); [|done|done].
  intros k v s1 s2 _ <- Hs. by apply Hf in Hs.
Qed.

(** A loop that ends without throwing ran its body at every entry. *)
Lemma each_ran f m s s' k v :
  each f m s = Ok s' -> m !! k = Some v -> exists s1 s2, f k v s1 = Ok s2.
Proof.
  unfold each. rewrite <- elem_of_map_to_list. revert s.
  induction (map_to_list m) as [|[k0 v0] l IH]; intros s He Hin; [by apply elem_of_nil in Hin|].
  cbn in He. apply bind_Ok in He as (s1 & H1 & H2).
  apply elem_of_cons in Hin as [[= -> ->]|Hin]; eauto.
Qed.

(** What each turn adds to a set that only grows is, after the loop, what the
    entries add together. *)
Lemma each_grows {A} (X : St -> A -> Prop) (Y : K -> V -> A -> Prop) (P : St -> Prop) f m s s' :
  (forall k v s s', m !! k = Some v -> P s -> f k v s = Ok s' ->
     P s' /\ forall x, X s' x <-> X s x \/ Y k v x) ->
  P s -> each f m s = Ok s' ->
  forall x, X s' x <-> X s x \/ exists k v, m !! k = Some v /\ Y k v x.
Proof.
  unfold each. intros Hf HP He x.
  assert (Hl : forall k v, m !! k = Some v <-> (k, v) ∈ map_to_list m)
    by (intros k v; by rewrite elem_of_map_to_list).
  setoid_rewrite Hl. assert (Hf' := fun k v s s' Hin => Hf k v s s' (proj2 (Hl k v) Hin)).
  clear Hf Hl. revert s HP He. induction (map_to_list m) as [|[k0 v0] l IH]; intros s HP; cbn.
  - intros [= <-]. split; [by left|]. intros [?|(k & v & Hn & _)]; [done|]. by apply elem_of_nil in Hn.
  - intros (s1 & H1 & H2)%bind_Ok. destruct (Hf' k0 v0 s s1) as [HP1 H1x]; [left|done..|].
    rewrite (IH ltac:(intros; eapply Hf'; [by right|done..]) s1 HP1 H2), H1x.
    setoid_rewrite elem_of_cons. split.
    + intros [[?|?]|(k & v & ? & ?)]; [by left|right; exists k0, v0; auto|right; eauto 6].
    + intros [?|(k & v & [[= -> ->]|?] & ?)]; [auto|auto|]. right. eauto.
Qed.

(** A component the body sets at the entry's key is, after the loop, the old
    component overlaid with the buffer. [norm] is what is kept of an entry. *)
Lemma each_update {W} (get : St -> gmap K W) (norm : K -> V -> option W) (P : St -> Prop) f m s s' :
  (forall k v s s', m !! k = Some v -> P s -> f k v s = Ok s' ->
     P s' /\ get s' = partial_alter (fun _ => norm k v) k (get s)) ->
  P s -> each f m s = Ok s' ->
  forall k, get s' !! k = match m !! k with Some v => norm k v | None => get s !! k end.
Proof.
  unfold each. intros Hf HP He k.
  assert (Hl : forall k v, (k, v) ∈ map_to_list m -> m !! k = Some v)
    by (intros k0 v0; apply elem_of_map_to_list).
  rewrite <- (list_to_map_to_list m) at 1. pose proof (NoDup_fst_map_to_list m) as Hnd.
  revert s HP He. induction (map_to_list m) as [|[k0 v0] l IH]; intros s HP; cbn.
  - by intros [= <-].
  - intros (s1 & H1 & H2)%bind_Ok. apply NoDup_cons in Hnd as [Hk0 Hnd].
    destruct (Hf k0 v0 s s1) as [HP1 Hg]; [apply Hl; left|done..|].
    rewrite (IH ltac:(set_solver) Hnd s1 HP1 H2), Hg.
    destruct (decide (k = k0)) as [->|Hne].
    + rewrite lookup_insert_eq, not_elem_of_list_to_map_1 by done.
      by rewrite lookup_partial_alter_eq.
    + rewrite lookup_insert_ne, lookup_partial_alter_ne by done. done.
Qed.

(** A family of values of which the body changes only the one at the entry's
    key, as [R] says. *)
Lemma each_pointwise {A} (get : St -> K -> A) (R : K -> V -> A -> A -> Prop) (P : St -> Prop) f m s s' :
  (forall j v s s', m !! j = Some v -> P s -> f j v s = Ok s' ->
     P s' /\ R j v (get s j) (get s' j) /\ forall k, k <> j -> get s' k = get s k) ->
  P s -> each f m s = Ok s' ->
  P s' /\ forall k, match m !! k with
                   | Some v => R k v (get s k) (get s' k)
                   | None => get s' k = get s k
                   end.
Proof.
  unfold each. intros Hf HP He.
  assert (Hl : forall k v, (k, v) ∈ map_to_list m -> m !! k = Some v)
    by (intros k0 v0; apply elem_of_map_to_list).
  rewrite <- (list_to_map_to_list m). pose proof (NoDup_fst_map_to_list m) as Hnd.
  revert s HP He. induction (map_to_list m) as [|[k0 v0] l IH]; intros s HP; cbn.
  - intros [= <-]. split; [done|]. intros k. by rewrite lookup_empty.
  - intros (s1 & H1 & H2)%bind_Ok. apply NoDup_cons in Hnd as [Hk0 Hnd].
    destruct (Hf k0 v0 s s1) as (HP1 & HR & Hne); [apply Hl; left|done..|].
    destruct (IH ltac:(set_solver) Hnd s1 HP1 H2) as [HP' Hs']. split; [done|].
    intros k. specialize (Hs' k). destruct (decide (k = k0)) as [->|Hk].
    + rewrite lookup_insert_eq. rewrite not_elem_of_list_to_map_1 in Hs' by done. by rewrite Hs'.
    + rewrite lookup_insert_ne by done. by rewrite <- (Hne k Hk).
Qed.

(** A quantity the body changes only at the entry of [k], by [g]. *)
Lemma each_sum (get : St -> Z) (g : K -> V -> Z) (P : St -> Prop) k f m s s' :
  (forall j v s s', m !! j = Some v -> P s -> f j v s = Ok s' ->
     P s' /\ get s' ≡64 get s + (if decide (j = k) then g j v else 0)) ->
  P s -> each f m s = Ok s' -> P s' /\ get s' ≡64 get s + val_at g k (m !! k).
Proof.
  unfold each. intros Hf HP He.
  assert (Hl : forall k v, (k, v) ∈ map_to_list m -> m !! k = Some v)
    by (intros k0 v0; apply elem_of_map_to_list).
  rewrite <- (list_to_map_to_list m) at 1. pose proof (NoDup_fst_map_to_list m) as Hnd.
  revert s HP He. induction (map_to_list m) as [|[k0 v0] l IH]; intros s HP; cbn.
  - intros [= <-]. split; [done|]. apply eq_eqm64. rewrite lookup_empty. cbn. lia.
  - intros (s1 & H1 & H2)%bind_Ok. apply NoDup_cons in Hnd as [Hk0 Hnd].
    destruct (Hf k0 v0 s s1) as [HP1 Hg]; [apply Hl; left|done..|].
    destruct (IH ltac:(set_solver) Hnd s1 HP1 H2) as [HP' Hs']. split; [done|].
    rewrite Hs', Hg. apply eq_eqm64. case_decide as Hk.
    + subst k0. rewrite lookup_insert_eq, not_elem_of_list_to_map_1 by done. cbn. lia.
    + rewrite lookup_insert_ne by done. lia.
Qed.
End each.

(** ** [std::map] ordered by an integer key: the entry [rbegin] points to. *)

Definition last_entry {V} (m : gmap Z V) : option (Z * V) :=
  map_fold (fun k v acc =>
    match acc with
    | Some (k', _) => if k' <? k then Some (k, v) else acc
    | None => Some (k, v)
    end) None m.

Section last_entry.
Context {V : Type}.

Lemma last_entry_spec (m : gmap Z V) :
  match last_entry m with
  | None => m = ∅
  | Some (k, v) => m !! k = Some v /\ forall k', is_Some (m !! k') -> k' <= k
  end.
Proof.
  unfold last_entry.
  apply (map_fold_weak_ind (fun acc m => match acc with
    | None => m = ∅
    | Some (k, v) => m !! k = Some v /\ forall k', is_Some (m !! k') -> k' <= k
    end)); [done|].
  intros k v m0 [[k0 v0]|] Hk.
  - intros [H0 Hmax]. destruct (Z.ltb_spec k0 k).
    + split; [by rewrite lookup_insert_eq|].
      intros k' Hk'. destruct (decide (k = k')) as [->|]; [lia|].
      rewrite lookup_insert_ne in Hk' by done. specialize (Hmax _ Hk'). lia.
    + split; [rewrite lookup_insert_ne; [done|congruence]|].
      intros k' Hk'. destruct (decide (k = k')) as [->|]; [lia|].
      rewrite lookup_insert_ne in Hk' by done. auto.
  - intros ->. split; [by rewrite lookup_insert_eq|].
    intros k' Hk'. destruct (decide (k = k')) as [->|]; [lia|].
    rewrite lookup_insert_ne in Hk' by done. rewrite lookup_empty in Hk'.
    by destruct Hk'.
Qed.

(** Appending at a key no smaller than the present ones makes it the last. *)
Lemma last_entry_insert (m : gmap Z V) k v :
  (forall k', is_Some (m !! k') -> k' <= k) ->
  last_entry (<[k:=v]> m) = Some (k, v).
Proof.
  intros Hmax. pose proof (last_entry_spec (<[k:=v]> m)) as Hs.
  destruct (last_entry (<[k:=v]> m)) as [[k0 v0]|].
  - destruct Hs as [H0 Hle].
    assert (k <= k0) by (apply Hle; rewrite lookup_insert_eq; eauto).
    destruct (decide (k = k0)) as [->|Hne].
    + rewrite lookup_insert_eq in H0. congruence.
    + rewrite lookup_insert_ne in H0 by done.
      assert (k0 <= k) by eauto. lia.
  - exfalso. assert (Hk : (∅ : gmap Z V) !! k = Some v)
      by (rewrite <- Hs; apply lookup_insert_eq).
    by rewrite lookup_empty in Hk.
Qed.
End last_entry.
