(* ===== verification/Config.v ===== *)
(** * Config: the consensus constants

    The [#define]s of config.hpp and the hard-fork block numbers of
    fork_blocks.hpp that the modelled code reads (main-network values), and
    fork_blocks.cpp's lookup of the last fork a build knows. *)
From S2P Require Import Prelude.

Definition BTS_BLOCKCHAIN_PRECISION : Z := 100000.
Definition BTS_BLOCKCHAIN_MAX_TRANSACTION_EXPIRATION_SEC : Z := 60*60*24*2.
Definition BTS_BLOCKCHAIN_MIN_YIELD_PERIOD_SEC : Z := 60*60*24.
Definition BTS_BLOCKCHAIN_MIN_BURN_FEE : Z := BTS_BLOCKCHAIN_PRECISION * 1.
Definition BTS_BLOCKCHAIN_MAX_SHORT_PERIOD_SEC : Z := 30*24*60*60.
Definition BTS_BLOCKCHAIN_VOTE_UPDATE_PERIOD_SEC : Z := 60*60.
Definition BTS_BLOCKCHAIN_NUM_DELEGATES : Z := 101.
Definition BTS_BLOCKCHAIN_MAX_SLATE_SIZE : Z :=
  BTS_BLOCKCHAIN_NUM_DELEGATES + BTS_BLOCKCHAIN_NUM_DELEGATES / 10.
Definition BTS_BLOCKCHAIN_MIN_FEEDS : Z := BTS_BLOCKCHAIN_NUM_DELEGATES / 2 + 1.
Definition BTS_BLOCKCHAIN_MAX_UNDO_HISTORY : Z := BTS_BLOCKCHAIN_NUM_DELEGATES * 16.
Definition BTS_BLOCKCHAIN_MAX_PENDING_QUEUE_SIZE : Z := 10.
Definition BTS_BLOCKCHAIN_ENABLE_NEGATIVE_VOTES : bool := false.
Definition BTS_MAX_DELEGATE_PAY_PER_BLOCK : Z := 50 * BTS_BLOCKCHAIN_PRECISION.
Definition BTS_BLOCKCHAIN_BLOCK_INTERVAL_SEC : Z := 10.
Definition BTS_BLOCKCHAIN_MIN_NAME_SIZE : Z := 1.
Definition BTS_BLOCKCHAIN_MAX_NAME_SIZE : Z := 63.
Definition BTS_ADDRESS_PREFIX : string := "BTS".
Definition BTS_BLOCKCHAIN_SYMBOL : string := "BTS".
Definition BTS_BLOCKCHAIN_MAX_SYMBOL_SIZE : Z := 8.
Definition BTS_BLOCKCHAIN_MIN_SYMBOL_SIZE : Z := 3.
Definition BTS_BLOCKCHAIN_MAX_SHARES : Z := 1000*1000*1000*1000*1000.
Definition BTS_BLOCKCHAIN_BLOCKS_PER_HOUR : Z := (60*60) / BTS_BLOCKCHAIN_BLOCK_INTERVAL_SEC.
Definition BTS_BLOCKCHAIN_BLOCKS_PER_DAY : Z := BTS_BLOCKCHAIN_BLOCKS_PER_HOUR * 24.
Definition BTS_BLOCKCHAIN_BLOCKS_PER_YEAR : Z := BTS_BLOCKCHAIN_BLOCKS_PER_DAY * 365.
Definition BTS_BLOCKCHAIN_DELEGATE_REGISTRATION_FEE : Z := BTS_BLOCKCHAIN_BLOCKS_PER_DAY / 12.
Definition BTS_BLOCKCHAIN_ASSET_REGISTRATION_FEE : Z := BTS_BLOCKCHAIN_BLOCKS_PER_DAY * 14.
Definition BTS_BLOCKCHAIN_MINIMUM_SHORT_ORDER_SIZE : Z := BTS_BLOCKCHAIN_PRECISION * 100.
Definition MAX_RECENT_OPERATIONS : Z := 20.

Definition BTS_V0_4_0_FORK_BLOCK_NUM : Z := 274000.
Definition BTS_V0_4_9_FORK_BLOCK_NUM : Z := 316001.
Definition BTS_V0_4_9_FORK_2_BLOCK_NUM : Z := 340000.
Definition BTS_V0_4_10_FORK_BLOCK_NUM : Z := 357000.
Definition BTS_V0_4_12_FORK_BLOCK_NUM : Z := 408750.
Definition BTS_V0_4_13_FORK_BLOCK_NUM : Z := 451500.
Definition BTS_V0_4_15_FORK_BLOCK_NUM : Z := 494000.
Definition BTS_V0_4_16_FORK_BLOCK_NUM : Z := 554800.
Definition BTS_V0_4_17_FORK_BLOCK_NUM : Z := 578900.
Definition BTS_V0_4_18_FORK_BLOCK_NUM : Z := 613200.
Definition BTS_V0_4_19_FORK_BLOCK_NUM : Z := 640000.
Definition BTS_V0_4_21_FORK_BLOCK_NUM : Z := 820200.
Definition BTS_V0_4_23_FORK_BLOCK_NUM : Z := 871000.
Definition BTS_V0_4_24_FORK_BLOCK_NUM : Z := 991700.
Definition BTS_V0_4_26_FORK_BLOCK_NUM : Z := 1246900.
Definition BTS_V0_4_28_FORK_BLOCK_NUM : Z := 9999999.
Definition BTS_V0_4_29_FORK_BLOCK_NUM : Z := 9999999.

(** [BTS_FORK_TO_UNIX_TIME_LIST]: revision time of each release and the block
    its fork takes effect at. *)
Definition BTS_FORK_TO_UNIX_TIME_LIST : list (Z * Z) :=
  [ (1408064036, BTS_V0_4_0_FORK_BLOCK_NUM);
    (1409193626, BTS_V0_4_9_FORK_2_BLOCK_NUM);
    (1409437355, BTS_V0_4_10_FORK_BLOCK_NUM);
    (1409846462, BTS_V0_4_12_FORK_BLOCK_NUM);
    (1410294635, BTS_V0_4_13_FORK_BLOCK_NUM);
    (1410657316, BTS_V0_4_15_FORK_BLOCK_NUM);
    (1411258737, BTS_V0_4_16_FORK_BLOCK_NUM);
    (1411599233, BTS_V0_4_17_FORK_BLOCK_NUM);
    (1411765631, BTS_V0_4_18_FORK_BLOCK_NUM);
    (1412203442, BTS_V0_4_19_FORK_BLOCK_NUM);
    (1414019090, BTS_V0_4_21_FORK_BLOCK_NUM) ].

(** The walk [lower_bound] performs over the ordered map, remembering the
    entry before the one it stops at ([--iter]). *)
Fixpoint fork_lower_bound (revision_time : Z) (before : option Z) (l : list (Z * Z)) : Z :=
  match l with
  | [] => default 0 before
  | (t, b) :: l =>
      if t <? revision_time then fork_lower_bound revision_time (Some b) l
      else if t =? revision_time then b
      else default 0 before
  end.

Definition estimate_last_known_fork_from_git_revision_timestamp (revision_time : Z) : Z :=
  fork_lower_bound revision_time None BTS_FORK_TO_UNIX_TIME_LIST.

Definition get_list_of_fork_block_numbers : list Z :=
  map snd BTS_FORK_TO_UNIX_TIME_LIST.
