(* ===== verification/Fc.v ===== *)
(** * Fc: the third-party code the chain calls

    The fc library (big integers, 128-bit integers, hashes, signatures) is a
    git submodule that is not part of the repository, so what the chain calls
    of it is a parameter of the model. [FcNum] has the numeric conversions with
    the behaviour the code relies on as laws; [ref_num] is a concrete instance
    at which the witnesses evaluate.  The hash and signature functions, which
    are functions of the chain's own records, are the class [Crypto] of
    Records.v. *)
From S2P Require Import Prelude.
From Stdlib Require Import QArith Qround.
#[local] Open Scope Z_scope.

(** [fc::bigint] is an arbitrary-precision integer and [fc::uint128] an
    unsigned 128-bit one, so their values are modelled by [Z]; the conversions
    between widths, whose treatment of values out of range is fc's business,
    are parameters that only have to be right on values in range. *)
Class FcNum := {
  bigint_log2 : Z -> Z;                      (** [bigint::log2] *)
  bigint_div_by_zero : Z -> result Z;        (** [bigint::operator /] at divisor 0 *)
  uint128_div_by_zero : Z -> result Z;       (** [uint128::operator /] at divisor 0 *)
  bigint_to_int64 : Z -> result Z;           (** [bigint::to_int64] *)
  uint128_of_bigint : Z -> result Z;         (** [uint128::uint128( bigint )] *)
  uint128_to_uint64 : Z -> result Z;         (** [uint128::to_uint64] *)
  uint128_to_integer : Z -> result Z;        (** [uint128::to_integer], 32 bits *)

  bigint_log2_small : forall v, 0 <= v < 2^127 -> bigint_log2 v < 128;
  bigint_to_int64_id : forall v, 0 <= v < 2^63 -> bigint_to_int64 v = Ok v;
  uint128_of_bigint_id : forall v, 0 <= v < 2^128 -> uint128_of_bigint v = Ok v;
  uint128_to_uint64_id : forall v, 0 <= v < 2^64 -> uint128_to_uint64 v = Ok v;
  uint128_to_integer_id : forall v, 0 <= v < 2^32 -> uint128_to_integer v = Ok v
}.

(** [bigint::operator /]: truncated division. *)
Definition bigint_div `{FcNum} (a b : Z) : result Z :=
  if b =? 0 then bigint_div_by_zero a else Ok (Z.quot a b).

(** [uint128::operator /] *)
Definition uint128_div `{FcNum} (a b : Z) : result Z :=
  if b =? 0 then uint128_div_by_zero a else Ok (a / b).

Definition in_range (lo hi v : Z) : result Z :=
  if (lo <=? v) && (v <? hi) then Ok v else Err fc_numeric_exception.

Lemma in_range_id lo hi v : lo <= v < hi -> in_range lo hi v = Ok v.
Proof.
  intros [H1 H2]. unfold in_range.
  by rewrite (proj2 (Z.leb_le _ _) H1), (proj2 (Z.ltb_lt _ _) H2).
Qed.

Lemma log2_small v : 0 <= v < 2^127 -> Z.log2 v < 128.
Proof.
  intros [H0 H]. destruct (decide (v = 0)) as [->|]; [done|].
  assert (Z.log2 v < 127) by (apply Z.log2_lt_pow2; lia). lia.
Qed.

Definition ref_num : FcNum := {|
  bigint_log2 := Z.log2;
  bigint_div_by_zero _ := Err fc_numeric_exception;
  uint128_div_by_zero _ := Err fc_numeric_exception;
  bigint_to_int64 := in_range (-2^63) (2^63);
  uint128_of_bigint := in_range 0 (2^128);
  uint128_to_uint64 := in_range 0 (2^64);
  uint128_to_integer := in_range 0 (2^32);
  bigint_log2_small := log2_small;
  bigint_to_int64_id v H := in_range_id (-2^63) (2^63) v ltac:(lia);
  uint128_of_bigint_id := in_range_id 0 (2^128);
  uint128_to_uint64_id := in_range_id 0 (2^64);
  uint128_to_integer_id := in_range_id 0 (2^32)
|}.

(** [fc::real128], the fixed-point type interest is computed with: its values and
    operations are fc's. *)
Class FcReal := {
  real128 : Type;
  real_of_uint64 : Z -> real128;
  real_add : real128 -> real128 -> real128;
  real_sub : real128 -> real128 -> real128;
  real_mul : real128 -> real128 -> real128;
  real_div : real128 -> real128 -> real128;
  real_to_uint64 : real128 -> Z
}.

(** Exact rationals, rounded down at the end. *)
Definition ref_real : FcReal := {|
  real128 := Q;
  real_of_uint64 := inject_Z;
  real_add := Qplus;
  real_sub := Qminus;
  real_mul := Qmult;
  real_div := Qdiv;
  real_to_uint64 q := wrapu64 (Qfloor q)
|}.
