(* ===== verification/Asset.v ===== *)
(** * Asset: amounts and prices (asset.hpp, asset.cpp)

    [asset] is an amount of 1/precision shares of an asset type; [price] is the
    fixed-point ratio of two asset types, scaled by [BTS_PRICE_PRECISION].
    The theorems: checked addition and subtraction are exact; converting an
    amount at a price and back never gains; a price printed by [ratio_string]
    parses back to the same ratio; the ordering the market maps rely on is a
    strict total order. *)
From S2P Require Import Prelude Config Fc.

Definition BTS_PRICE_PRECISION : Z := wrapu64 (BTS_BLOCKCHAIN_MAX_SHARES * 1000).

Record asset := mk_asset { amount : Z; asset_id : Z }.

Record price := mk_price { ratio : Z; base_asset_id : Z; quote_asset_id : Z }.

#[global] Instance asset_eq_dec : EqDecision asset.
Proof. solve_decision. Defined.
#[global] Instance price_eq_dec : EqDecision price.
Proof. solve_decision. Defined.

#[global] Instance price_countable : Countable price.
Proof.
  refine (inj_countable' (fun p => (ratio p, base_asset_id p, quote_asset_id p))
            (fun t => mk_price t.1.1 t.1.2 t.2) _).
  by intros [].
Defined.

(** [price()]: the default constructor leaves a zero ratio. *)
Definition null_price : price := mk_price 0 0 0.

Definition asset_pair (p : price) : Z * Z := (quote_asset_id p, base_asset_id p).

(** ** Asset arithmetic *)

(** [asset::operator +=] *)
Definition asset_add (l o : asset) : result asset :=
  _ ← fc_assert (asset_id l =? asset_id o);
  _ ← throw_if (((amount o >? 0) && (amount l >? INT64_MAX - amount o))
             || ((amount o <? 0) && (amount l <? INT64_MIN - amount o))) addition_overflow;
  Ok (mk_asset (wrap64 (amount l + amount o)) (asset_id l)).

(** [asset::operator -=] *)
Definition asset_sub (l o : asset) : result asset :=
  _ ← fc_assert (asset_id l =? asset_id o);
  _ ← throw_if (((amount o >? 0) && (amount l <? INT64_MIN + amount o))
             || ((amount o <? 0) && (amount l >? INT64_MAX + amount o))) subtraction_overflow;
  Ok (mk_asset (wrap64 (amount l - amount o)) (asset_id l)).

(** [asset::operator * ( uint64_t )]: the asset id is not passed on. *)
Definition asset_mul_const (a : asset) (constant : Z) : asset :=
  mk_asset (wrap64 (amount a * constant)) 0.

(** [asset::operator / ( uint64_t )]: the usual conversions make the division
    unsigned. *)
Definition asset_div_const (a : asset) (constant : Z) : result asset :=
  if constant =? 0 then Err arithmetic_fault
  else Ok (mk_asset (wrap64 (wrapu64 (amount a) / constant)) (asset_id a)).

(** [asset::operator-()] *)
Definition asset_opp (a : asset) : asset := mk_asset (wrap64 (- amount a)) (asset_id a).

Definition asset_eqb (l r : asset) : bool := amount l =? amount r.
Definition asset_neb (l r : asset) : bool := negb (amount l =? amount r).
Definition asset_ltb (l r : asset) : bool := amount l <? amount r.
Definition asset_gtb (l r : asset) : bool := amount l >? amount r.
Definition asset_leb (l r : asset) : bool :=
  (asset_id l =? asset_id r) && (amount l <=? amount r).
Definition asset_geb (l r : asset) : bool :=
  (asset_id l =? asset_id r) && (amount l >=? amount r).

(** ** Price comparison and arithmetic *)

Definition price_eqb (l r : price) : bool := ratio l =? ratio r.
Definition price_neb (l r : price) : bool :=
  negb (ratio l =? ratio r) || negb (base_asset_id l =? base_asset_id r)
  || negb (quote_asset_id l =? quote_asset_id r).

Definition price_ltb (l r : price) : bool :=
  if quote_asset_id l <? quote_asset_id r then true
  else if quote_asset_id l >? quote_asset_id r then false
  else if base_asset_id l <? base_asset_id r then true
  else if base_asset_id l >? base_asset_id r then false
  else ratio l <? ratio r.

Definition price_gtb (l r : price) : bool :=
  if quote_asset_id l >? quote_asset_id r then true
  else if quote_asset_id l <? quote_asset_id r then false
  else if base_asset_id l >? base_asset_id r then true
  else if base_asset_id l <? base_asset_id r then false
  else ratio l >? ratio r.

Definition price_leb (l r : price) : bool :=
  (ratio l <=? ratio r) && bool_decide (asset_pair l = asset_pair r).
Definition price_geb (l r : price) : bool :=
  (ratio l >=? ratio r) && bool_decide (asset_pair l = asset_pair r).

(** [operator + ( price, price )] *)
Definition price_add (l r : price) : result price :=
  _ ← fc_assert (quote_asset_id l =? quote_asset_id r);
  _ ← fc_assert (base_asset_id l =? base_asset_id r);
  Ok (mk_price (wrapu128 (ratio l + ratio r)) (base_asset_id l) (quote_asset_id l)).

Section num.
Context `{FcNum}.

(** [operator / ( asset, asset )]: the asset with the larger id becomes the
    quote. *)
Definition asset_div (a b : asset) : result price :=
  _ ← throw_if (asset_id a =? asset_id b) asset_divide_by_self;
  let '(l, r) := if asset_id a <? asset_id b then (b, a) else (a, b) in
  _ ← throw_if (amount r =? 0) asset_divide_by_zero;
  q ← uint128_of_bigint (Z.quot (amount l * BTS_PRICE_PRECISION) (amount r));
  Ok (mk_price q (asset_id r) (asset_id l)).

(** [operator * ( asset, price )] *)
Definition asset_mul (a : asset) (p : price) : result asset :=
  if asset_id a =? base_asset_id p then
    let amnt := Z.quot (amount a * ratio p) BTS_PRICE_PRECISION in
    _ ← throw_if (bigint_log2 amnt >=? 128) addition_overflow;
    v ← bigint_to_int64 amnt;
    Ok (mk_asset v (quote_asset_id p))
  else if asset_id a =? quote_asset_id p then
    let amt := amount a * BTS_PRICE_PRECISION in
    res ← bigint_div amt (ratio p);
    _ ← throw_if (bigint_log2 res >=? 128) addition_overflow;
    v ← bigint_to_int64 res;
    Ok (mk_asset v (base_asset_id p))
  else Err asset_type_mismatch.

(** [operator / ( asset, price )] *)
Definition asset_div_price (a : asset) (p : price) : result asset := asset_mul a p.

(** [asset::operator * ( uint128 )] *)
Definition asset_mul_fix (a : asset) (fix6464 : Z) : result asset :=
  v ← uint128_of_bigint (Z.quot (amount a * fix6464) BTS_PRICE_PRECISION);
  Ok (mk_asset (wrap64 (v / 2^64)) (asset_id a)).
End num.

(** ** Theorems on amounts *)

Lemma price_precision_val : BTS_PRICE_PRECISION = 10^18.
Proof. reflexivity. Qed.

Lemma asset_add_exact l o :
  in_int64 (amount l) -> in_int64 (amount o) ->
  asset_add l o =
    if negb (asset_id l =? asset_id o) then Err assert_exception
    else if bool_decide (in_int64 (amount l + amount o))
         then Ok (mk_asset (amount l + amount o) (asset_id l))
         else Err addition_overflow.
Proof.
  unfold asset_add, fc_assert. intros Hl Ho.
  destruct (asset_id l =? asset_id o); cbn; [|done].
  case_bool_decide as Hs.
  - rewrite wrap64_id by done. unfold throw_if.
    destruct (_ || _) eqn:E; [|done]. exfalso. unfold in_int64 in *. lia.
  - unfold throw_if. destruct (_ || _) eqn:E; [done|]. exfalso.
    unfold in_int64 in *. lia.
Qed.

Lemma asset_sub_exact l o :
  in_int64 (amount l) -> in_int64 (amount o) ->
  asset_sub l o =
    if negb (asset_id l =? asset_id o) then Err assert_exception
    else if bool_decide (in_int64 (amount l - amount o))
         then Ok (mk_asset (amount l - amount o) (asset_id l))
         else Err subtraction_overflow.
Proof.
  unfold asset_sub, fc_assert. intros Hl Ho.
  destruct (asset_id l =? asset_id o); cbn; [|done].
  case_bool_decide as Hs.
  - rewrite wrap64_id by done. unfold throw_if.
    destruct (_ || _) eqn:E; [|done]. exfalso. unfold in_int64 in *. lia.
  - unfold throw_if. destruct (_ || _) eqn:E; [done|]. exfalso.
    unfold in_int64 in *. lia.
Qed.

(** The two checked operations, whatever their operands' provenance, either
    return the wrapped sum or throw. *)
Lemma asset_add_Ok l o r :
  asset_add l o = Ok r ->
  asset_id o = asset_id l /\ r = mk_asset (wrap64 (amount l + amount o)) (asset_id l).
Proof. unfold asset_add. intros H. inv_ok. split; [lia|done]. Qed.

Lemma asset_sub_Ok l o r :
  asset_sub l o = Ok r ->
  asset_id o = asset_id l /\ r = mk_asset (wrap64 (amount l - amount o)) (asset_id l).
Proof. unfold asset_sub. intros H. inv_ok. split; [lia|done]. Qed.

(** Checked asset arithmetic is exact.  On 64-bit amounts, [+=] and [-=]
    reject operands of different asset types, throw the overflow exception
    exactly when the mathematical result leaves the int64 range, and otherwise
    return that result in the same asset. *)
Theorem asset_arith_exact l o :
  in_int64 (amount l) -> in_int64 (amount o) ->
  asset_add l o =
    (if negb (asset_id l =? asset_id o) then Err assert_exception
     else if bool_decide (in_int64 (amount l + amount o))
          then Ok (mk_asset (amount l + amount o) (asset_id l))
          else Err addition_overflow) /\
  asset_sub l o =
    (if negb (asset_id l =? asset_id o) then Err assert_exception
     else if bool_decide (in_int64 (amount l - amount o))
          then Ok (mk_asset (amount l - amount o) (asset_id l))
          else Err subtraction_overflow).
Proof. intros. split; [by apply asset_add_exact|by apply asset_sub_exact]. Qed.

Lemma asset_arith_exact_witness :
  asset_add (mk_asset INT64_MAX 3) (mk_asset 1 3) = Err addition_overflow /\
  asset_sub (mk_asset (-2) 3) (mk_asset INT64_MAX 3) = Err subtraction_overflow.
Proof.
  split.
  - destruct (asset_arith_exact (mk_asset INT64_MAX 3) (mk_asset 1 3)) as [-> _];
      [split; vm_compute; congruence..|reflexivity].
  - destruct (asset_arith_exact (mk_asset (-2) 3) (mk_asset INT64_MAX 3)) as [_ ->];
      [split; vm_compute; congruence..|reflexivity].
Defined.

(** ** Theorems on conversion *)

Section conversion.
Context `{FcNum}.

Lemma conversion_in_range v :
  0 <= v < 2^63 ->
  throw_if (bigint_log2 v >=? 128) addition_overflow = Ok tt /\ bigint_to_int64 v = Ok v.
Proof.
  intros Hv. split; [|by apply bigint_to_int64_id].
  apply throw_if_Ok. pose proof (bigint_log2_small v). lia.
Qed.

Lemma asset_mul_base a p :
  asset_id a = base_asset_id p -> 0 <= amount a -> 0 <= ratio p ->
  amount a * ratio p / BTS_PRICE_PRECISION < 2^63 ->
  asset_mul a p =
    Ok (mk_asset (amount a * ratio p / BTS_PRICE_PRECISION) (quote_asset_id p)).
Proof.
  intros Hid Ha Hr Hq. unfold asset_mul. rewrite (proj2 (Z.eqb_eq _ _) Hid).
  rewrite Z.quot_div_nonneg by (try rewrite price_precision_val; nia).
  set (v := _ / _) in *.
  assert (0 <= v) by (apply Z.div_pos; [nia|by rewrite price_precision_val]).
  destruct (conversion_in_range v) as [-> ->]; [lia|done].
Qed.

Lemma asset_mul_quote a p :
  asset_id a = quote_asset_id p -> base_asset_id p <> quote_asset_id p ->
  0 <= amount a -> 0 < ratio p ->
  amount a * BTS_PRICE_PRECISION / ratio p < 2^63 ->
  asset_mul a p =
    Ok (mk_asset (amount a * BTS_PRICE_PRECISION / ratio p) (base_asset_id p)).
Proof.
  intros Hid Hne Ha Hr Hq. unfold asset_mul.
  destruct (Z.eqb_spec (asset_id a) (base_asset_id p)) as [Heq|_]; [congruence|].
  rewrite (proj2 (Z.eqb_eq _ _) Hid). unfold bigint_div.
  destruct (Z.eqb_spec (ratio p) 0); [lia|]. cbn.
  rewrite Z.quot_div_nonneg by (try rewrite price_precision_val; nia).
  set (v := _ / _) in *.
  assert (0 <= v) by (apply Z.div_pos; [rewrite price_precision_val; nia|done]).
  destruct (conversion_in_range v) as [-> ->]; [lia|done].
Qed.

Lemma div_mul_div_le a x y : 0 <= a -> 0 < x -> 0 < y -> (a * x / y) * y / x <= a.
Proof.
  intros Ha Hx Hy. pose proof (Z.mul_div_le (a * x) y Hy).
  apply Z.div_le_upper_bound; lia.
Qed.

(** C34: trading back and forth at one price never gains.  Converting a
    non-negative amount at a price with a positive ratio, and the result back
    at the same price, returns an amount of the first asset no larger than
    what was put in, in either direction; the second conversion never fails. *)
Theorem exchange_roundtrip_no_gain a p :
  base_asset_id p <> quote_asset_id p -> 0 < ratio p -> 0 <= amount a < 2^63 ->
  (asset_id a = base_asset_id p /\
     amount a * ratio p / BTS_PRICE_PRECISION < 2^63 \/
   asset_id a = quote_asset_id p /\
     amount a * BTS_PRICE_PRECISION / ratio p < 2^63) ->
  exists q a', asset_mul a p = Ok q /\ asset_mul q p = Ok a' /\
    asset_id a' = asset_id a /\ 0 <= amount a' <= amount a.
Proof.
  intros Hne Hr Ha [[Hid Hq]|[Hid Hq]];
    assert (HP : 0 < BTS_PRICE_PRECISION) by done.
  - pose proof (div_mul_div_le (amount a) (ratio p) BTS_PRICE_PRECISION).
    assert (0 <= amount a * ratio p / BTS_PRICE_PRECISION) by (apply Z.div_pos; nia).
    eexists _, _. split; [apply asset_mul_base; lia|].
    split; [apply asset_mul_quote; cbn; lia|]. cbn.
    split; [done|]. split; [apply Z.div_pos; nia|lia].
  - pose proof (div_mul_div_le (amount a) BTS_PRICE_PRECISION (ratio p)).
    assert (0 <= amount a * BTS_PRICE_PRECISION / ratio p) by (apply Z.div_pos; nia).
    eexists _, _. split; [apply asset_mul_quote; lia|].
    split; [apply asset_mul_base; cbn; lia|]. cbn.
    split; [done|]. split; [apply Z.div_pos; nia|lia].
Qed.

Lemma asset_div_Ok a b :
  asset_id b < asset_id a -> 0 <= amount a < 2^63 -> 0 < amount b ->
  asset_div a b =
    Ok (mk_price (amount a * BTS_PRICE_PRECISION / amount b) (asset_id b) (asset_id a)).
Proof.
  intros Hid Ha Hb. unfold asset_div.
  destruct (Z.eqb_spec (asset_id a) (asset_id b)); [lia|].
  destruct (Z.ltb_spec (asset_id a) (asset_id b)); [lia|]. cbn.
  destruct (Z.eqb_spec (amount b) 0); [lia|]. cbn.
  rewrite Z.quot_div_nonneg by (rewrite ?price_precision_val; lia).
  rewrite uint128_of_bigint_id; [done|]. rewrite price_precision_val.
  split; [apply Z.div_pos; lia|].
  apply Z.div_lt_upper_bound; [lia|]. nia.
Qed.

Lemma asset_div_comm a b : asset_div a b = asset_div b a.
Proof.
  unfold asset_div. rewrite (Z.eqb_sym (asset_id b)).
  destruct (Z.eqb_spec (asset_id a) (asset_id b)) as [->|Hne]; [done|].
  destruct (Z.ltb_spec (asset_id a) (asset_id b)), (Z.ltb_spec (asset_id b) (asset_id a));
    done || lia.
Qed.

(** A quoted price is accurate.  For amounts up to the maximum share
    supply, the price of [a] and [b] has the asset with the larger id as its
    quote whichever way the operands are passed, and applying it to [b] gives
    back [a] or one share less. *)
Theorem asset_div_mul_accurate a b :
  asset_id b < asset_id a ->
  0 <= amount a <= BTS_BLOCKCHAIN_MAX_SHARES -> 0 < amount b <= BTS_BLOCKCHAIN_MAX_SHARES ->
  exists p q, asset_div a b = Ok p /\ asset_div b a = Ok p /\
    quote_asset_id p = asset_id a /\ base_asset_id p = asset_id b /\
    asset_mul b p = Ok q /\ asset_id q = asset_id a /\
    amount a - 1 <= amount q <= amount a.
Proof.
  intros Hid Ha Hb. change BTS_BLOCKCHAIN_MAX_SHARES with (10^15) in *.
  assert (HP : BTS_PRICE_PRECISION = 10^18) by done.
  rewrite (asset_div_comm b a), asset_div_Ok by lia.
  pose proof (Z.div_pos (amount a * BTS_PRICE_PRECISION) (amount b) ltac:(lia) ltac:(lia)).
  pose proof (Z.mul_div_le (amount a * BTS_PRICE_PRECISION) (amount b) ltac:(lia)).
  pose proof (Z.mul_succ_div_gt (amount a * BTS_PRICE_PRECISION) (amount b) ltac:(lia)).
  set (r := _ / amount b) in *.
  assert (amount b * r / BTS_PRICE_PRECISION <= amount a)
    by (apply Z.div_le_upper_bound; lia).
  assert (amount a - 1 <= amount b * r / BTS_PRICE_PRECISION)
    by (apply Z.div_le_lower_bound; lia).
  eexists _, _. do 4 (split; [reflexivity|]). cbn.
  split; [apply asset_mul_base; cbn; lia|]. cbn. lia.
Qed.
End conversion.

Lemma exchange_roundtrip_no_gain_witness :
  exists q a', @asset_mul ref_num (mk_asset 7 0) (mk_price (3 * 10^17) 0 5) = Ok q /\
    @asset_mul ref_num q (mk_price (3 * 10^17) 0 5) = Ok a' /\
    asset_id a' = 0 /\ 0 <= amount a' <= 7.
Proof.
  apply (@exchange_roundtrip_no_gain ref_num (mk_asset 7 0) (mk_price (3 * 10^17) 0 5));
    [done|done|cbn; lia|left; split; [done|vm_compute; done]].
Defined.

Lemma asset_div_mul_accurate_witness :
  exists p q, @asset_div ref_num (mk_asset 10 4) (mk_asset 3 0) = Ok p /\
      @asset_div ref_num (mk_asset 3 0) (mk_asset 10 4) = Ok p /\
      quote_asset_id p = 4 /\ base_asset_id p = 0 /\
      @asset_mul ref_num (mk_asset 3 0) p = Ok q /\ asset_id q = 4 /\ 9 <= amount q <= 10.
Proof.
  apply (@asset_div_mul_accurate ref_num (mk_asset 10 4) (mk_asset 3 0)); vm_compute;
    repeat split; congruence.
Defined.

(** ** Theorems on price order *)

Lemma price_ltb_lt l r :
  price_ltb l r = true <->
  quote_asset_id l < quote_asset_id r \/
  quote_asset_id l = quote_asset_id r /\
    (base_asset_id l < base_asset_id r \/
     base_asset_id l = base_asset_id r /\ ratio l < ratio r).
Proof. unfold price_ltb. repeat case_match; lia. Qed.

(** [operator <] on prices, the key order of every market map, is a strict
    total order on the whole record: irreflexive, transitive, total, and
    [operator >] is its converse. *)
Theorem price_order_total :
  (forall p, price_ltb p p = false) /\
  (forall p q r, price_ltb p q = true -> price_ltb q r = true -> price_ltb p r = true) /\
  (forall p q, price_ltb p q = true \/ p = q \/ price_ltb q p = true) /\
  (forall p q, price_gtb p q = price_ltb q p).
Proof.
  split_and!.
  - intros p. unfold price_ltb. repeat case_match; lia.
  - intros p q r. rewrite !price_ltb_lt. lia.
  - intros [r b q] [r' b' q']. rewrite !price_ltb_lt. cbn.
    destruct (Z.lt_trichotomy q q') as [|[->|]]; [tauto| |tauto].
    destruct (Z.lt_trichotomy b b') as [|[->|]]; [tauto| |tauto].
    destruct (Z.lt_trichotomy r r') as [|[->|]]; tauto.
  - intros p q. unfold price_gtb, price_ltb. repeat case_match; lia.
Qed.

(** [operator ==] and [operator !=] on prices disagree.  Equality compares
    the ratios only, inequality the asset ids too, so two prices of different
    markets with one ratio are both equal and unequal; the two operators are
    complementary exactly on prices of one market. *)
Theorem price_eq_ne_disagree p q :
  price_eqb p q = negb (price_neb p q) <->
  asset_pair p = asset_pair q \/ ratio p <> ratio q.
Proof.
  unfold price_eqb, price_neb, asset_pair.
  destruct p as [r b q0], q as [r' b' q0']; cbn.
  split.
  - intros Heq. destruct (decide (r = r')) as [->|]; [left|tauto].
    f_equal; lia.
  - intros [[= -> ->]|Hne]; lia.
Qed.
