(* ===== verification/PriceText.v ===== *)
(** * PriceText: the decimal form of a price

    [price::set_ratio_from_string] and [price::ratio_string] (asset.cpp), the
    textual form prices have in JSON.  The theorem is the round trip: the parser
    reads back every ratio the printer writes whose integer part fits the
    parser's 64-bit accumulator. *)
From S2P Require Import Prelude Config Fc Asset.
From Stdlib Require Import Ascii String.

Definition digit_of (c : ascii) : Z := Z.of_N (N_of_ascii c) - 48.
Definition is_digit (c : ascii) : bool := (digit_of c >=? 0) && (digit_of c <=? 9).
Definition digit_char (d : Z) : ascii := ascii_of_N (Z.to_N (d + 48)).

(** [int_part = int_part * 10 + digit] while digits last. *)
Fixpoint read_int (int_part : Z) (s : string) : Z * string :=
  match s with
  | String c s' =>
      if is_digit c then read_int (wrapu64 (int_part * 10 + digit_of c)) s' else (int_part, s)
  | EmptyString => (int_part, s)
  end.

(** The same loop for the fraction, with its magnitude. *)
Fixpoint read_frac (frac_part frac_magnitude : Z) (s : string) : Z * Z * string :=
  match s with
  | String c s' =>
      if is_digit c
      then read_frac (wrap64 (frac_part * 10 + digit_of c)) (wrap64 (frac_magnitude * 10)) s'
      else (frac_part, frac_magnitude, s)
  | EmptyString => (frac_part, frac_magnitude, s)
  end.

(** [price::set_ratio_from_string]: the ratio, and the characters consumed. *)
Definition set_ratio_from_string (s : string) : result (Z * Z) :=
  '(r, rest) ←
    (match s with
     | String c s' =>
         if is_digit c then
           let '(int_part, rest) := read_int (digit_of c) s' in
           Ok (wrapu128 (int_part * BTS_PRICE_PRECISION), rest)
         else if Ascii.eqb c "." then Ok (0, s) else Err assertion_abort
     | EmptyString => Err assertion_abort
     end);
  '(r, rest) ←
    (match rest with
     | String c rest' =>
         if Ascii.eqb c "." then
           match rest' with
           | String d rest'' =>
               if is_digit d then
                 let '(frac_part, frac_magnitude, rest3) := read_frac (digit_of d) 10 rest'' in
                 if frac_magnitude =? 0 then Err arithmetic_fault
                 else Ok (wrapu128 (r + wrapu128 (wrapu128 frac_part *
                            (BTS_PRICE_PRECISION / wrapu64 frac_magnitude))), rest3)
               else Ok (r, rest')
           | EmptyString => Ok (r, rest')
           end
         else Ok (r, rest)
     | EmptyString => Ok (r, rest)
     end);
  Ok (r, Z.of_nat (String.length s) - Z.of_nat (String.length rest)).

(** [uint128::operator std::string]: decimal digits, most significant first. *)
Fixpoint dec_digits (fuel : nat) (n : Z) (acc : string) : string :=
  match fuel with
  | O => acc
  | S fuel =>
      let acc' := String (digit_char (n mod 10)) acc in
      if n <? 10 then acc' else dec_digits fuel (n / 10) acc'
  end.

Definition uint128_string (n : Z) : string := dec_digits 40 n "".

(** [while( number.back() == '0' ) number.pop_back();] *)
Fixpoint strip_zeros (s : string) : string :=
  match s with
  | EmptyString => EmptyString
  | String c s' =>
      match strip_zeros s' with
      | EmptyString => if Ascii.eqb c "0" then EmptyString else String c EmptyString
      | t => String c t
      end
  end.

Definition tail_string (s : string) : string :=
  match s with String _ s' => s' | EmptyString => EmptyString end.

(** [price::ratio_string] *)
Definition ratio_string (r : Z) : string :=
  strip_zeros (uint128_string (r / BTS_PRICE_PRECISION) +:+ "." +:+
    tail_string (uint128_string (wrapu128 (r mod BTS_PRICE_PRECISION + BTS_PRICE_PRECISION)))).

(** ** The round trip *)

Lemma digit_char_digit d : 0 <= d <= 9 -> is_digit (digit_char d) = true.
Proof.
  intros H. assert (d = 0 \/ d = 1 \/ d = 2 \/ d = 3 \/ d = 4 \/ d = 5 \/ d = 6 \/ d = 7
    \/ d = 8 \/ d = 9) as Hd by lia.
  by repeat destruct Hd as [->|Hd]; subst.
Qed.

Lemma digit_of_char d : 0 <= d <= 9 -> digit_of (digit_char d) = d.
Proof.
  intros H. assert (d = 0 \/ d = 1 \/ d = 2 \/ d = 3 \/ d = 4 \/ d = 5 \/ d = 6 \/ d = 7
    \/ d = 8 \/ d = 9) as Hd by lia.
  by repeat destruct Hd as [->|Hd]; subst.
Qed.

Lemma mod10_digit n : 0 <= n mod 10 <= 9.
Proof. pose proof (Z.mod_pos_bound n 10). lia. Qed.

Lemma read_int_digit a d s :
  0 <= d <= 9 -> read_int a (String (digit_char d) s) = read_int (wrapu64 (a * 10 + d)) s.
Proof. intros H. cbn [read_int]. by rewrite digit_char_digit, digit_of_char. Qed.

Lemma read_frac_digit a m d s :
  0 <= d <= 9 ->
  read_frac a m (String (digit_char d) s) =
  read_frac (wrap64 (a * 10 + d)) (wrap64 (m * 10)) s.
Proof. intros H. cbn [read_frac]. by rewrite digit_char_digit, digit_of_char. Qed.

Lemma wrapu64_mul10_add a d : wrapu64 (wrapu64 a * 10 + d) = wrapu64 (a * 10 + d).
Proof. unfold wrapu64. by rewrite Zplus_mod, Zmult_mod_idemp_l, <- Zplus_mod. Qed.

(** Reading the digits of [n] appends them to the accumulator. *)
Lemma read_int_dec_digits fuel n acc :
  0 <= n < 10 ^ Z.of_nat fuel -> (0 < fuel)%nat ->
  exists k, forall a,
    read_int a (dec_digits fuel n acc) = read_int (wrapu64 (a * 10 ^ k + n)) acc.
Proof.
  revert n acc. induction fuel as [|fuel IH]; intros n acc Hn Hf; [lia|].
  cbn [dec_digits]. destruct (Z.ltb_spec n 10).
  - exists 1. intros a. rewrite read_int_digit by apply mod10_digit.
    rewrite Z.mod_small by lia. done.
  - rewrite Nat2Z.inj_succ, Z.pow_succ_r in Hn by lia.
    assert (0 < fuel)%nat by (destruct fuel; [cbn in Hn; lia|lia]).
    destruct (IH (n / 10) (String (digit_char (n mod 10)) acc)) as [k Hk]; [|done|].
    { split; [apply Z.div_pos; lia|apply Z.div_lt_upper_bound; lia]. }
    assert (Hneg : k < 0 \/ 0 <= k) by lia. destruct Hneg as [Hneg|Hpos].
    + exists k. intros a. rewrite Hk, read_int_digit by apply mod10_digit.
      rewrite wrapu64_mul10_add, Z.pow_neg_r by done.
      f_equal. f_equal. pose proof (Z.div_mod n 10). lia.
    + exists (Z.succ k). intros a. rewrite Hk, read_int_digit by apply mod10_digit.
      rewrite wrapu64_mul10_add, Z.pow_succ_r by done.
      f_equal. f_equal. pose proof (Z.div_mod n 10). lia.
Qed.

Lemma dec_digits_head fuel n acc :
  (0 < fuel)%nat -> exists d s, 0 <= d <= 9 /\ dec_digits fuel n acc = String (digit_char d) s.
Proof.
  revert n acc. induction fuel as [|fuel IH]; intros n acc Hf; [lia|].
  cbn [dec_digits]. pose proof (mod10_digit n). destruct (n <? 10); [eauto|].
  destruct fuel as [|fuel]; [cbn; eauto|]. apply IH. lia.
Qed.

(** The digits of [f], padded with zeros to width [k]. *)
Fixpoint pad (k : nat) (f : Z) (acc : string) : string :=
  match k with O => acc | S k => pad k (f / 10) (String (digit_char (f mod 10)) acc) end.

Lemma dec_digits_pad k fuel f acc :
  (k < fuel)%nat -> 0 <= f < 10 ^ Z.of_nat k ->
  dec_digits fuel (f + 10 ^ Z.of_nat k) acc = String "1" (pad k f acc).
Proof.
  revert fuel f acc. induction k as [|k IH]; intros fuel f acc Hf Hb;
    (destruct fuel as [|fuel]; [lia|]); cbn [dec_digits pad].
  - assert (f = 0) as -> by (cbn in Hb; lia). reflexivity.
  - rewrite Nat2Z.inj_succ, Z.pow_succ_r in * by lia.
    assert (0 < 10 ^ Z.of_nat k) by (apply Z.pow_pos_nonneg; lia).
    destruct (Z.ltb_spec (f + 10 * 10 ^ Z.of_nat k) 10); [lia|].
    replace ((f + 10 * 10 ^ Z.of_nat k) / 10) with (f / 10 + 10 ^ Z.of_nat k)
      by (rewrite (Z.mul_comm 10), Z.div_add; lia).
    replace ((f + 10 * 10 ^ Z.of_nat k) mod 10) with (f mod 10)
      by (rewrite (Z.mul_comm 10), Z_mod_plus_full; done).
    apply IH; [lia|].
    split; [apply Z.div_pos; lia|apply Z.div_lt_upper_bound; lia].
Qed.

Lemma append_cons c (s t : string) : String c s +:+ t = String c (s +:+ t).
Proof. reflexivity. Qed.

Lemma append_assoc (s t u : string) : (s +:+ t) +:+ u = s +:+ (t +:+ u).
Proof. induction s as [|c s IH]; [done|]. by rewrite !append_cons, IH. Qed.

Lemma pad_app k f acc : pad k f acc = pad k f "" +:+ acc.
Proof.
  revert f acc. induction k as [|k IH]; intros f acc; cbn; [done|].
  rewrite (IH _ (String _ acc)), (IH _ (String _ "")). by rewrite append_assoc.
Qed.

Lemma strip_zeros_snoc s d :
  0 <= d <= 9 ->
  strip_zeros (s +:+ String (digit_char d) "") =
  if d =? 0 then strip_zeros s else s +:+ String (digit_char d) "".
Proof.
  intros Hd. destruct (Z.eqb_spec d 0) as [->|Hne].
  - induction s as [|c s IH]; [done|]. rewrite append_cons. cbn [strip_zeros]. by rewrite IH.
  - assert (Hz : Ascii.eqb (digit_char d) "0" = false).
    { apply Ascii.eqb_neq. intros Heq. apply (f_equal digit_of) in Heq.
      rewrite digit_of_char in Heq by done. assert (digit_of "0"%char = 0) by reflexivity. lia. }
    induction s as [|c s IH].
    { change (strip_zeros (String (digit_char d) "") = String (digit_char d) "").
      cbn [strip_zeros]. by rewrite Hz. }
    rewrite append_cons. cbn [strip_zeros]. rewrite IH. by destruct s.
Qed.

(** Dropping the trailing zeros of a padded numeral shortens the numeral. *)
Lemma strip_zeros_pad k f :
  0 <= f < 10 ^ Z.of_nat k ->
  exists j g, (j <= k)%nat /\ strip_zeros (pad k f "") = pad j g "" /\
    0 <= g < 10 ^ Z.of_nat j /\ f = g * 10 ^ Z.of_nat (k - j).
Proof.
  revert f. induction k as [|k IH]; intros f Hf.
  - exists O, 0. cbn in *. split_and!; lia || done.
  - rewrite Nat2Z.inj_succ, Z.pow_succ_r in Hf by lia. pose proof (mod10_digit f).
    cbn [pad]. rewrite pad_app, strip_zeros_snoc by done.
    destruct (Z.eqb_spec (f mod 10) 0) as [H0|Hne].
    + destruct (IH (f / 10)) as (j & g & Hj & -> & Hg & Hfg).
      { split; [apply Z.div_pos; lia|apply Z.div_lt_upper_bound; lia]. }
      exists j, g. split_and!; [lia|done|lia|lia|].
      replace (S k - j)%nat with (S (k - j)) by lia.
      rewrite Nat2Z.inj_succ, Z.pow_succ_r by lia.
      pose proof (Z.div_mod f 10). lia.
    + exists (S k), f. rewrite Nat.sub_diag, Nat2Z.inj_succ, Z.pow_succ_r by lia. cbn [pad].
      rewrite (pad_app k _ (String _ "")). split_and!; lia || done.
Qed.

Lemma strip_zeros_dot s t : strip_zeros (s +:+ "." +:+ t) = s +:+ "." +:+ strip_zeros t.
Proof.
  induction s as [|c s IH].
  - change (strip_zeros (String "." t) = String "." (strip_zeros t)). cbn.
    by destruct (strip_zeros t).
  - rewrite (append_cons c s). cbn [strip_zeros]. rewrite IH. by destruct s.
Qed.

(** Reading a padded numeral as a fraction appends it, with its magnitude. *)
Lemma read_frac_pad j g a m :
  0 <= g < 10 ^ Z.of_nat j -> 0 <= a < m -> 0 < m -> m * 10 ^ Z.of_nat j <= 10 ^ 18 ->
  forall acc,
  read_frac a m (pad j g acc) =
  read_frac (a * 10 ^ Z.of_nat j + g) (m * 10 ^ Z.of_nat j) acc.
Proof.
  revert g a m. induction j as [|j IH]; intros g a m Hg Ha Hm Hb acc.
  - cbn in *. f_equal; lia.
  - rewrite Nat2Z.inj_succ, Z.pow_succ_r in * by lia. cbn [pad].
    assert (0 < 10 ^ Z.of_nat j) by (apply Z.pow_pos_nonneg; lia).
    rewrite IH; [|split; [apply Z.div_pos; lia|apply Z.div_lt_upper_bound; lia]|lia|lia|lia].
    pose proof (mod10_digit g). pose proof (Z.div_mod g 10).
    rewrite read_frac_digit by done.
    rewrite !wrap64_id by (unfold in_int64, INT64_MIN, INT64_MAX; nia).
    f_equal; lia.
Qed.

Lemma digit_char_dot d : 0 <= d <= 9 -> Ascii.eqb (digit_char d) "." = false.
Proof.
  intros Hd. apply Ascii.eqb_neq. intros Heq. apply (f_equal digit_of) in Heq.
  rewrite digit_of_char in Heq by done. assert (digit_of "."%char = -2) by reflexivity. lia.
Qed.

(** The integer part: the first digit and the loop together read the number. *)
Lemma read_int_uint128_string n d s rest :
  0 <= n < 2^64 -> 0 <= d <= 9 -> uint128_string n = String (digit_char d) s ->
  read_int d (s +:+ String "." rest) = (n, String "." rest).
Proof.
  intros Hn Hd Hs.
  assert (Happ : forall fuel n acc, dec_digits fuel n acc = dec_digits fuel n "" +:+ acc).
  { intros fuel. induction fuel as [|fuel IH]; intros m acc; cbn [dec_digits]; [done|].
    destruct (m <? 10); [done|].
    rewrite (IH _ (String _ acc)), (IH _ (String _ "")). by rewrite append_assoc. }
  destruct (read_int_dec_digits 40 n (String "." rest)) as [k Hk]; [lia|lia|].
  specialize (Hk 0). unfold uint128_string in Hs.
  rewrite Happ, Hs, append_cons, read_int_digit in Hk by done.
  rewrite !Z.mul_0_l, !Z.add_0_l, !wrapu64_id in Hk by lia. exact Hk.
Qed.

(** The fraction: likewise. *)
Lemma pad_frac j g :
  (0 < j)%nat -> (j <= 18)%nat -> 0 <= g < 10 ^ Z.of_nat j ->
  exists d s, 0 <= d <= 9 /\ pad j g "" = String (digit_char d) s /\
    read_frac d 10 s = (g, 10 ^ Z.of_nat j, EmptyString).
Proof.
  intros H0 Hj Hg.
  assert (Hhead : exists d s, 0 <= d <= 9 /\ pad j g "" = String (digit_char d) s).
  { clear Hg Hj. revert g. generalize "". induction j as [|j IH]; intros acc g; [lia|].
    cbn [pad]. destruct j as [|j]; [cbn; eauto using mod10_digit|]. apply IH. lia. }
  destruct Hhead as (d & s & Hd & Hs). exists d, s. split_and!; [lia|lia|done|].
  assert (10 ^ Z.of_nat j <= 10 ^ 18) by (apply Z.pow_le_mono_r; lia).
  pose proof (read_frac_pad j g 0 1 Hg ltac:(lia) ltac:(lia) ltac:(lia) "") as Hr.
  rewrite Hs, read_frac_digit, !wrap64_id in Hr by (done || unfold in_int64, INT64_MIN, INT64_MAX; lia).
  rewrite Z.mul_0_l, Z.add_0_l, Z.mul_1_l in Hr. rewrite Hr. cbn. f_equal. f_equal; lia.
Qed.

(** The textual form of a price is faithful.  [set_ratio_from_string]
    consumes the whole of what [ratio_string] prints and recovers the ratio,
    for every ratio whose integer part fits the parser's 64-bit accumulator. *)
Theorem ratio_string_roundtrip r :
  0 <= r < 2^64 * BTS_PRICE_PRECISION ->
  set_ratio_from_string (ratio_string r) =
    Ok (r, Z.of_nat (String.length (ratio_string r))).
Proof.
  intros Hr. pose proof price_precision_val as HP.
  pose proof (Z.mod_pos_bound r BTS_PRICE_PRECISION ltac:(lia)) as Hf.
  pose proof (Z.div_mod r BTS_PRICE_PRECISION ltac:(lia)) as Hdm.
  assert (Hn : 0 <= r / BTS_PRICE_PRECISION < 2^64)
    by (split; [apply Z.div_pos|apply Z.div_lt_upper_bound]; lia).
  unfold ratio_string. rewrite wrapu128_id by lia. rewrite strip_zeros_dot.
  set (n := r / BTS_PRICE_PRECISION) in *. set (f := r mod BTS_PRICE_PRECISION) in *.
  replace (uint128_string (f + BTS_PRICE_PRECISION)) with (String "1" (pad 18 f ""))
    by (symmetry; rewrite HP; apply (dec_digits_pad 18); [lia|change (Z.of_nat 18) with 18; lia]).
  cbn [tail_string].
  destruct (strip_zeros_pad 18 f) as (j & g & Hj & -> & Hg & Hfg);
    [change (Z.of_nat 18) with 18; lia|].
  destruct (dec_digits_head 40 n "") as (d & s & Hd & Hs); [lia|].
  change (dec_digits 40 n "") with (uint128_string n) in Hs. rewrite Hs.
  unfold set_ratio_from_string at 1. rewrite append_cons, digit_char_digit, digit_of_char by done.
  change ("." +:+ pad j g "") with (String "." (pad j g "")).
  rewrite (read_int_uint128_string n d s) by done. cbn [mbind result_bind].
  rewrite wrapu128_id by nia. cbn [Ascii.eqb Bool.eqb].
  set (len := Z.of_nat (String.length _)). clearbody len.
  destruct j as [|j].
  - assert (g = 0) as -> by (cbn in Hg; lia). cbn. do 2 f_equal; lia.
  - destruct (pad_frac (S j) g) as (d' & s' & Hd' & -> & Hread); [lia|lia|done|].
    rewrite digit_char_digit, digit_of_char, Hread by done.
    assert (0 < 10 ^ Z.of_nat (S j)) by (apply Z.pow_pos_nonneg; lia).
    assert (10 ^ Z.of_nat (S j) <= 10 ^ 18) by (apply Z.pow_le_mono_r; lia).
    destruct (Z.eqb_spec (10 ^ Z.of_nat (S j)) 0); [lia|].
    rewrite wrapu64_id by lia. rewrite HP.
    replace (10 ^ 18 / 10 ^ Z.of_nat (S j)) with (10 ^ Z.of_nat (18 - S j)).
    2: { rewrite Nat2Z.inj_sub by lia. apply Z.pow_sub_r; lia. }
    rewrite (wrapu128_id g), <- Hfg, (wrapu128_id f) by lia.
    cbn [mbind result_bind String.length]. rewrite wrapu128_id by lia.
    do 2 f_equal; lia.
Qed.

Lemma ratio_string_roundtrip_witness :
  set_ratio_from_string (ratio_string (12 * 10^18 + 34500000000000000)) =
    Ok (12 * 10^18 + 34500000000000000, Z.of_nat (String.length "12.0345")).
Proof. apply (ratio_string_roundtrip (12 * 10^18 + 34500000000000000)). vm_compute. done. Defined.
