(* ===== verification/Records.v ===== *)
(** * Records: the data of the chain

    The structs the chain database stores and the operations of transactions,
    with the member functions that only read or update one record:
    account_record, asset_record, balance_record, withdraw_types, market_records,
    delegate_slate, feed_record, block_record (slot, transaction record) and the
    operation structs.  A field keeps its C++ name behind a two- or three-letter
    prefix of its struct.

    Keys, addresses, hashes and signatures are the integers their bytes spell;
    0 is the default-constructed (all zero) value.  An [fc::variant] is one of the
    shapes the chain stores in it.  A [withdraw_condition]'s type tag and packed
    payload are one inductive value; [wd_malformed] is a tag whose payload does
    not unpack. *)
From S2P Require Import Prelude Config Fc Asset.

(** ** fc::variant *)

Inductive variant :=
| v_null
| v_int (z : Z)
| v_string (s : string)
| v_ids (l : list Z)
| v_pairs (l : list (Z * Z))
| v_price (p : price)
| v_other (tag : Z).

#[global] Instance variant_eq_dec : EqDecision variant.
Proof. solve_decision. Defined.

Definition variant_is_null (v : variant) : bool := match v with v_null => true | _ => false end.
Definition variant_as_int (v : variant) : result Z :=
  match v with v_int z => Ok z | _ => Err bad_cast_exception end.
Definition variant_as_ids (v : variant) : result (list Z) :=
  match v with v_ids l => Ok l | _ => Err bad_cast_exception end.
Definition variant_as_pairs (v : variant) : result (list (Z * Z)) :=
  match v with v_pairs l => Ok l | _ => Err bad_cast_exception end.
Definition variant_as_price (v : variant) : result price :=
  match v with v_price p => Ok p | _ => Err bad_cast_exception end.

(** ** Accounts (account_record.hpp, account_record.cpp) *)

Record multisig_meta_info := mk_multisig {
  ms_required : Z;
  ms_owners : gset Z
}.

Record delegate_stats := mk_delegate_stats {
  ds_votes_for : Z;
  ds_pay_rate : Z;
  ds_signing_key_history : gmap Z Z;
  ds_last_block_num_produced : Z;
  ds_next_secret_hash : option Z;
  ds_pay_balance : Z;
  ds_total_paid : Z;
  ds_total_burned : Z;
  ds_blocks_produced : Z;
  ds_blocks_missed : Z
}.

Definition set_ds_votes_for (v : Z) (r : delegate_stats) : delegate_stats :=
  {| ds_votes_for := v; ds_pay_rate := ds_pay_rate r;
     ds_signing_key_history := ds_signing_key_history r;
     ds_last_block_num_produced := ds_last_block_num_produced r;
     ds_next_secret_hash := ds_next_secret_hash r; ds_pay_balance := ds_pay_balance r;
     ds_total_paid := ds_total_paid r; ds_total_burned := ds_total_burned r;
     ds_blocks_produced := ds_blocks_produced r; ds_blocks_missed := ds_blocks_missed r |}.

Definition set_ds_pay_rate (v : Z) (r : delegate_stats) : delegate_stats :=
  {| ds_votes_for := ds_votes_for r; ds_pay_rate := v;
     ds_signing_key_history := ds_signing_key_history r;
     ds_last_block_num_produced := ds_last_block_num_produced r;
     ds_next_secret_hash := ds_next_secret_hash r; ds_pay_balance := ds_pay_balance r;
     ds_total_paid := ds_total_paid r; ds_total_burned := ds_total_burned r;
     ds_blocks_produced := ds_blocks_produced r; ds_blocks_missed := ds_blocks_missed r |}.

Definition set_ds_signing_key_history (v : gmap Z Z) (r : delegate_stats) : delegate_stats :=
  {| ds_votes_for := ds_votes_for r; ds_pay_rate := ds_pay_rate r;
     ds_signing_key_history := v;
     ds_last_block_num_produced := ds_last_block_num_produced r;
     ds_next_secret_hash := ds_next_secret_hash r; ds_pay_balance := ds_pay_balance r;
     ds_total_paid := ds_total_paid r; ds_total_burned := ds_total_burned r;
     ds_blocks_produced := ds_blocks_produced r; ds_blocks_missed := ds_blocks_missed r |}.

Definition set_ds_pay_balance (v : Z) (r : delegate_stats) : delegate_stats :=
  {| ds_votes_for := ds_votes_for r; ds_pay_rate := ds_pay_rate r;
     ds_signing_key_history := ds_signing_key_history r;
     ds_last_block_num_produced := ds_last_block_num_produced r;
     ds_next_secret_hash := ds_next_secret_hash r; ds_pay_balance := v;
     ds_total_paid := ds_total_paid r; ds_total_burned := ds_total_burned r;
     ds_blocks_produced := ds_blocks_produced r; ds_blocks_missed := ds_blocks_missed r |}.

(** [delegate_stats()]: the member initialisers. *)
Definition default_delegate_stats : delegate_stats :=
  mk_delegate_stats 0 0 ∅ 0 None 0 0 0 0 0.

Record account_record := mk_account {
  ac_id : Z;
  ac_name : string;
  ac_public_data : variant;
  ac_owner_key : Z;
  ac_active_key_history : gmap Z Z;
  ac_registration_date : Z;
  ac_last_update : Z;
  ac_delegate_info : option delegate_stats;
  ac_meta_data : option (Z * list Z)
}.

Definition set_ac_public_data (v : variant) (r : account_record) : account_record :=
  {| ac_id := ac_id r; ac_name := ac_name r; ac_public_data := v;
     ac_owner_key := ac_owner_key r; ac_active_key_history := ac_active_key_history r;
     ac_registration_date := ac_registration_date r; ac_last_update := ac_last_update r;
     ac_delegate_info := ac_delegate_info r; ac_meta_data := ac_meta_data r |}.

Definition set_ac_owner_key (v : Z) (r : account_record) : account_record :=
  {| ac_id := ac_id r; ac_name := ac_name r; ac_public_data := ac_public_data r;
     ac_owner_key := v; ac_active_key_history := ac_active_key_history r;
     ac_registration_date := ac_registration_date r; ac_last_update := ac_last_update r;
     ac_delegate_info := ac_delegate_info r; ac_meta_data := ac_meta_data r |}.

Definition set_ac_active_key_history (v : gmap Z Z) (r : account_record) : account_record :=
  {| ac_id := ac_id r; ac_name := ac_name r; ac_public_data := ac_public_data r;
     ac_owner_key := ac_owner_key r; ac_active_key_history := v;
     ac_registration_date := ac_registration_date r; ac_last_update := ac_last_update r;
     ac_delegate_info := ac_delegate_info r; ac_meta_data := ac_meta_data r |}.

Definition set_ac_last_update (v : Z) (r : account_record) : account_record :=
  {| ac_id := ac_id r; ac_name := ac_name r; ac_public_data := ac_public_data r;
     ac_owner_key := ac_owner_key r; ac_active_key_history := ac_active_key_history r;
     ac_registration_date := ac_registration_date r; ac_last_update := v;
     ac_delegate_info := ac_delegate_info r; ac_meta_data := ac_meta_data r |}.

Definition set_ac_delegate_info (v : option delegate_stats) (r : account_record) : account_record :=
  {| ac_id := ac_id r; ac_name := ac_name r; ac_public_data := ac_public_data r;
     ac_owner_key := ac_owner_key r; ac_active_key_history := ac_active_key_history r;
     ac_registration_date := ac_registration_date r; ac_last_update := ac_last_update r;
     ac_delegate_info := v; ac_meta_data := ac_meta_data r |}.

Definition null_key : Z := 0.
Definition null_address : Z := 0.

Definition account_is_null (r : account_record) : bool := ac_owner_key r =? null_key.
Definition account_make_null (r : account_record) : account_record := set_ac_owner_key null_key r.

Definition account_is_delegate (r : account_record) : bool :=
  match ac_delegate_info r with Some _ => true | None => false end.

(** [account_record::delegate_pay_balance] *)
Definition account_delegate_pay_balance (r : account_record) : result Z :=
  d ← require (ac_delegate_info r) assert_exception; Ok (ds_pay_balance d).

(** [account_record::net_votes] *)
Definition account_net_votes (r : account_record) : result Z :=
  d ← require (ac_delegate_info r) assert_exception; Ok (ds_votes_for d).

(** [account_record::adjust_votes_for] *)
Definition account_adjust_votes_for (delta : Z) (r : account_record) : result account_record :=
  d ← require (ac_delegate_info r) assert_exception;
  Ok (set_ac_delegate_info (Some (set_ds_votes_for (wrap64 (ds_votes_for d + delta)) d)) r).

(** [account_record::active_key]: the most recent entry of the history. *)
Definition account_active_key (r : account_record) : Z :=
  match last_entry (ac_active_key_history r) with Some (_, k) => k | None => null_key end.

Definition account_is_retracted (r : account_record) : bool := account_active_key r =? null_key.

(** [account_record::set_active_key] *)
Definition account_set_active_key (now new_key : Z) (r : account_record) : result account_record :=
  _ ← fc_assert (negb (now =? 0));
  Ok (set_ac_active_key_history (<[now := new_key]> (ac_active_key_history r)) r).

(** [account_record::delegate_pay_rate]: [uint8_t( -1 )] for other accounts. *)
Definition account_delegate_pay_rate (r : account_record) : Z :=
  match ac_delegate_info r with Some d => ds_pay_rate d | None => 255 end.

(** [account_record::set_signing_key] *)
Definition account_set_signing_key (block_num key : Z) (r : account_record) : result account_record :=
  d ← require (ac_delegate_info r) assert_exception;
  Ok (set_ac_delegate_info
        (Some (set_ds_signing_key_history (<[block_num := key]> (ds_signing_key_history d)) d)) r).

(** [account_record::signing_key] *)
Definition account_signing_key (r : account_record) : result Z :=
  d ← require (ac_delegate_info r) assert_exception;
  '(_, k) ← require (last_entry (ds_signing_key_history d)) assert_exception;
  Ok k.

Definition account_is_public (r : account_record) : bool :=
  match ac_meta_data r with Some (ty, _) => ty =? 1 | None => false end.

(** ** Burn records *)

Record burn_record_value := mk_burn_value {
  bv_amount : asset;
  bv_message : string;
  bv_signer : option Z
}.

(** A [burn_record_key]: account id and transaction id. *)
Definition burn_key : Type := Z * Z.
Definition burn_is_null (v : burn_record_value) : bool := amount (bv_amount v) =? 0.
Definition null_burn_value : burn_record_value := mk_burn_value (mk_asset 0 0) EmptyString None.

(** ** Assets (asset_record.hpp, asset_record.cpp) *)

Definition retractable : Z := Z.shiftl 1 0.
Definition restricted : Z := Z.shiftl 1 1.
Definition market_halt : Z := Z.shiftl 1 2.
Definition balance_halt : Z := Z.shiftl 1 3.
Definition supply_unlimit : Z := Z.shiftl 1 4.

Definition god_issuer_id : Z := 0.
Definition null_issuer_id : Z := -1.
Definition market_issuer_id : Z := -2.

Record asset_record := mk_asset_record {
  as_id : Z;
  as_symbol : string;
  as_name : string;
  as_description : string;
  as_public_data : variant;
  as_issuer_account_id : Z;
  as_precision : Z;
  as_registration_date : Z;
  as_last_update : Z;
  as_current_share_supply : Z;
  as_maximum_share_supply : Z;
  as_collected_fees : Z;
  as_flags : Z;
  as_issuer_permissions : Z;
  as_transaction_fee : Z;
  as_authority : multisig_meta_info;
  as_last_proposal_id : Z
}.

Definition set_as_issuer_account_id (v : Z) (r : asset_record) : asset_record :=
  {| as_id := as_id r; as_symbol := as_symbol r; as_name := as_name r;
     as_description := as_description r; as_public_data := as_public_data r;
     as_issuer_account_id := v; as_precision := as_precision r;
     as_registration_date := as_registration_date r; as_last_update := as_last_update r;
     as_current_share_supply := as_current_share_supply r;
     as_maximum_share_supply := as_maximum_share_supply r;
     as_collected_fees := as_collected_fees r; as_flags := as_flags r;
     as_issuer_permissions := as_issuer_permissions r;
     as_transaction_fee := as_transaction_fee r; as_authority := as_authority r;
     as_last_proposal_id := as_last_proposal_id r |}.

Definition set_as_last_update (v : Z) (r : asset_record) : asset_record :=
  {| as_id := as_id r; as_symbol := as_symbol r; as_name := as_name r;
     as_description := as_description r; as_public_data := as_public_data r;
     as_issuer_account_id := as_issuer_account_id r; as_precision := as_precision r;
     as_registration_date := as_registration_date r; as_last_update := v;
     as_current_share_supply := as_current_share_supply r;
     as_maximum_share_supply := as_maximum_share_supply r;
     as_collected_fees := as_collected_fees r; as_flags := as_flags r;
     as_issuer_permissions := as_issuer_permissions r;
     as_transaction_fee := as_transaction_fee r; as_authority := as_authority r;
     as_last_proposal_id := as_last_proposal_id r |}.

Definition set_as_current_share_supply (v : Z) (r : asset_record) : asset_record :=
  {| as_id := as_id r; as_symbol := as_symbol r; as_name := as_name r;
     as_description := as_description r; as_public_data := as_public_data r;
     as_issuer_account_id := as_issuer_account_id r; as_precision := as_precision r;
     as_registration_date := as_registration_date r; as_last_update := as_last_update r;
     as_current_share_supply := v; as_maximum_share_supply := as_maximum_share_supply r;
     as_collected_fees := as_collected_fees r; as_flags := as_flags r;
     as_issuer_permissions := as_issuer_permissions r;
     as_transaction_fee := as_transaction_fee r; as_authority := as_authority r;
     as_last_proposal_id := as_last_proposal_id r |}.

Definition set_as_collected_fees (v : Z) (r : asset_record) : asset_record :=
  {| as_id := as_id r; as_symbol := as_symbol r; as_name := as_name r;
     as_description := as_description r; as_public_data := as_public_data r;
     as_issuer_account_id := as_issuer_account_id r; as_precision := as_precision r;
     as_registration_date := as_registration_date r; as_last_update := as_last_update r;
     as_current_share_supply := as_current_share_supply r;
     as_maximum_share_supply := as_maximum_share_supply r; as_collected_fees := v;
     as_flags := as_flags r; as_issuer_permissions := as_issuer_permissions r;
     as_transaction_fee := as_transaction_fee r; as_authority := as_authority r;
     as_last_proposal_id := as_last_proposal_id r |}.

Definition asset_is_null (r : asset_record) : bool := as_issuer_account_id r =? null_issuer_id.
Definition asset_make_null (r : asset_record) : asset_record := set_as_issuer_account_id (-1) r.
Definition is_market_issued (r : asset_record) : bool := as_issuer_account_id r =? market_issuer_id.
Definition is_user_issued (r : asset_record) : bool := as_issuer_account_id r >? god_issuer_id.

Definition has_flag (flags f : Z) : bool := negb (Z.land flags f =? 0).
Definition is_retractable (r : asset_record) : bool := is_user_issued r && has_flag (as_flags r) retractable.
Definition is_restricted (r : asset_record) : bool := is_user_issued r && has_flag (as_flags r) restricted.
Definition is_market_frozen (r : asset_record) : bool := is_user_issued r && has_flag (as_flags r) market_halt.
Definition is_balance_frozen (r : asset_record) : bool := is_user_issued r && has_flag (as_flags r) balance_halt.
Definition is_supply_unlimited (r : asset_record) : bool := is_user_issued r && has_flag (as_flags r) supply_unlimit.

Definition available_shares (r : asset_record) : Z :=
  wrap64 (as_maximum_share_supply r - as_current_share_supply r).

(** [asset_record::can_issue( share_type )] *)
Definition can_issue_shares (r : asset_record) (amt : Z) : bool :=
  if amt <=? 0 then false
  else
    let new_share_supply := wrap64 (as_current_share_supply r + amt) in
    (new_share_supply >? as_current_share_supply r)
    && (new_share_supply <=? as_maximum_share_supply r).

(** [asset_record::can_issue( asset )] *)
Definition can_issue (r : asset_record) (a : asset) : bool :=
  if negb (as_id r =? asset_id a) then false else can_issue_shares r (amount a).

Record proposal_record := mk_proposal {
  pr_asset_id : Z;
  pr_proposal_id : Z;
  pr_info : Z;
  pr_votes_for : Z;
  pr_votes_against : Z
}.

Definition set_pr_info (v : Z) (r : proposal_record) : proposal_record :=
  {| pr_asset_id := pr_asset_id r; pr_proposal_id := pr_proposal_id r; pr_info := v;
     pr_votes_for := pr_votes_for r; pr_votes_against := pr_votes_against r |}.

(** [object_id_type( -1 )] *)
Definition null_object_id : Z := 2^64 - 1.
Definition proposal_make_null (r : proposal_record) : proposal_record := set_pr_info null_object_id r.

(** ** Withdraw conditions (withdraw_types.hpp) *)

(** The payload of a condition; a titan memo is opaque to the chain. *)
Inductive withdraw_data :=
| wd_null
| wd_signature (owner : Z) (memo : option Z)
| wd_vesting (owner start_time duration original_balance : Z)
| wd_multisig (required : Z) (owners : gset Z) (memo : option Z)
| wd_password (payee payor timeout password_hash : Z) (memo : option Z)
| wd_reserved
| wd_escrow (sender receiver escrow agreement_digest : Z) (memo : option Z)
| wd_malformed (type : Z).

Record withdraw_condition := mk_condition {
  wc_asset_id : Z;
  wc_slate_id : Z;
  wc_data : withdraw_data
}.

(** The [withdraw_condition_types] tag. *)
Definition wc_type (c : withdraw_condition) : Z :=
  match wc_data c with
  | wd_null => 0 | wd_signature _ _ => 1 | wd_vesting _ _ _ _ => 2 | wd_multisig _ _ _ => 3
  | wd_password _ _ _ _ _ => 4 | wd_reserved => 5 | wd_escrow _ _ _ _ _ => 6
  | wd_malformed t => t
  end.

(** ** Balances (balance_record.hpp, balance_record.cpp) *)

Record balance_record := mk_balance {
  br_condition : withdraw_condition;
  br_balance : Z;
  br_restricted_owner : option Z;
  br_snapshot_info : option (string * Z);
  br_deposit_date : Z;
  br_last_update : Z
}.

Definition set_br_condition (v : withdraw_condition) (r : balance_record) : balance_record :=
  {| br_condition := v; br_balance := br_balance r;
     br_restricted_owner := br_restricted_owner r;
     br_snapshot_info := br_snapshot_info r; br_deposit_date := br_deposit_date r;
     br_last_update := br_last_update r |}.

Definition set_br_balance (v : Z) (r : balance_record) : balance_record :=
  {| br_condition := br_condition r; br_balance := v;
     br_restricted_owner := br_restricted_owner r;
     br_snapshot_info := br_snapshot_info r; br_deposit_date := br_deposit_date r;
     br_last_update := br_last_update r |}.

Definition set_br_restricted_owner (v : option Z) (r : balance_record) : balance_record :=
  {| br_condition := br_condition r; br_balance := br_balance r;
     br_restricted_owner := v; br_snapshot_info := br_snapshot_info r;
     br_deposit_date := br_deposit_date r; br_last_update := br_last_update r |}.

Definition set_br_deposit_date (v : Z) (r : balance_record) : balance_record :=
  {| br_condition := br_condition r; br_balance := br_balance r;
     br_restricted_owner := br_restricted_owner r;
     br_snapshot_info := br_snapshot_info r; br_deposit_date := v;
     br_last_update := br_last_update r |}.

Definition set_br_last_update (v : Z) (r : balance_record) : balance_record :=
  {| br_condition := br_condition r; br_balance := br_balance r;
     br_restricted_owner := br_restricted_owner r;
     br_snapshot_info := br_snapshot_info r; br_deposit_date := br_deposit_date r;
     br_last_update := v |}.

(** [balance_record( withdraw_condition )] *)
Definition balance_of_condition (c : withdraw_condition) : balance_record :=
  mk_balance c 0 None None 0 0.

(** [balance_record( owner, asset, slate_id )] *)
Definition balance_of_owner (owner : Z) (a : asset) (slate_id : Z) : balance_record :=
  mk_balance (mk_condition (asset_id a) slate_id (wd_signature owner None)) (amount a) None None 0 0.

Definition balance_is_null (r : balance_record) : bool := br_balance r =? 0.
Definition balance_make_null (r : balance_record) : balance_record := set_br_balance 0 r.

(** [balance_record::owners] *)
Definition balance_owners (r : balance_record) : result (gset Z) :=
  match wc_data (br_condition r) with
  | wd_signature o _ => Ok {[ o ]}
  | wd_vesting o _ _ _ => Ok {[ o ]}
  | wd_multisig _ os _ => Ok os
  | wd_malformed t =>
      if (t =? 1) || (t =? 2) || (t =? 3) then Err bad_cast_exception else Err assert_exception
  | _ => Err assert_exception
  end.

(** [balance_record::is_owner( address )] *)
Definition balance_is_owner (addr : Z) (r : balance_record) : result bool :=
  os ← balance_owners r; Ok (bool_decide (addr ∈ os)).

(** The most that could be claimed of a vesting balance assuming no prior
    withdrawals.  The product of the vested fraction is a 64-bit one. *)
Definition max_claimable (at_time start_time duration original_balance : Z) : result Z :=
  if at_time >=? wrapu32 (start_time + duration) then Ok original_balance
  else if at_time >? start_time then
    let elapsed_time := at_time - start_time in
    _ ← fc_assert ((elapsed_time >? 0) && (elapsed_time <? duration));
    let m := Z.quot (wrap64 (original_balance * elapsed_time)) duration in
    _ ← fc_assert ((m >=? 0) && (m <? original_balance));
    Ok m
  else Ok 0.

(** The vesting branch of [get_spendable_balance]. *)
Definition vesting_spendable (balance at_time start_time duration original_balance : Z) : result Z :=
  m ← max_claimable at_time start_time duration original_balance;
  let claimed_so_far := wrap64 (original_balance - balance) in
  _ ← fc_assert ((claimed_so_far >=? 0) && (claimed_so_far <=? original_balance));
  let spendable_balance := wrap64 (m - claimed_so_far) in
  _ ← fc_assert ((spendable_balance >=? 0) && (spendable_balance <=? original_balance));
  Ok spendable_balance.

(** [balance_record::get_spendable_balance] *)
Definition get_spendable_balance (r : balance_record) (at_time : Z) : result asset :=
  let c := br_condition r in
  match wc_data c with
  | wd_signature _ _ | wd_escrow _ _ _ _ _ | wd_multisig _ _ _ =>
      Ok (mk_asset (br_balance r) (wc_asset_id c))
  | wd_vesting _ start_time duration original_balance =>
      s ← vesting_spendable (br_balance r) at_time start_time duration original_balance;
      Ok (mk_asset s (wc_asset_id c))
  | wd_malformed t =>
      if (t =? 1) || (t =? 6) || (t =? 3) then Ok (mk_asset (br_balance r) (wc_asset_id c))
      else if t =? 2 then Err bad_cast_exception
      else Ok (mk_asset 0 0)
  | _ => Ok (mk_asset 0 0)
  end.

(** ** Market records (market_records.hpp) *)

Record market_index_key := mk_market_key {
  mk_order_price : price;
  mk_owner : Z
}.

#[global] Instance market_index_key_eq_dec : EqDecision market_index_key.
Proof. solve_decision. Defined.
#[global] Instance market_index_key_countable : Countable market_index_key.
Proof.
  refine (inj_countable' (fun k => (mk_order_price k, mk_owner k))
            (fun t => mk_market_key t.1 t.2) _).
  by intros [].
Defined.

Record order_record := mk_order {
  or_balance : Z;
  or_limit_price : option price;
  or_last_update : Z
}.

Definition set_or_balance (v : Z) (r : order_record) : order_record :=
  {| or_balance := v; or_limit_price := or_limit_price r;
     or_last_update := or_last_update r |}.

Definition set_or_limit_price (v : option price) (r : order_record) : order_record :=
  {| or_balance := or_balance r; or_limit_price := v; or_last_update := or_last_update r |}.

Definition set_or_last_update (v : Z) (r : order_record) : order_record :=
  {| or_balance := or_balance r; or_limit_price := or_limit_price r; or_last_update := v |}.

Definition null_order_record : order_record := mk_order 0 None 0.
Definition order_is_null (r : order_record) : bool := or_balance r =? 0.

Record collateral_record := mk_collateral {
  cr_collateral_balance : Z;
  cr_payoff_balance : Z;
  cr_interest_rate : price;
  cr_expiration : Z
}.

Definition set_cr_collateral_balance (v : Z) (r : collateral_record) : collateral_record :=
  {| cr_collateral_balance := v; cr_payoff_balance := cr_payoff_balance r;
     cr_interest_rate := cr_interest_rate r; cr_expiration := cr_expiration r |}.

Definition set_cr_payoff_balance (v : Z) (r : collateral_record) : collateral_record :=
  {| cr_collateral_balance := cr_collateral_balance r; cr_payoff_balance := v;
     cr_interest_rate := cr_interest_rate r; cr_expiration := cr_expiration r |}.

Definition null_collateral_record : collateral_record := mk_collateral 0 0 null_price 0.
Definition collateral_is_null (r : collateral_record) : bool :=
  (0 =? cr_payoff_balance r) && (0 =? cr_collateral_balance r).

Record market_status := mk_market_status {
  mst_quote_id : Z;
  mst_base_id : Z;
  mst_current_feed_price : option price;
  mst_last_valid_feed_price : option price;
  mst_last_error : option error;
  mst_ask_depth : Z;
  mst_bid_depth : Z;
  mst_center_price : price
}.

(** [market_status()] *)
Definition null_market_status : market_status := mk_market_status 0 0 None None None 0 0 null_price.

(** [market_status( quote, base )] *)
Definition market_status_of (quote base : Z) : result market_status :=
  _ ← fc_assert (quote >? base);
  Ok (mk_market_status quote base None None None 0 0 null_price).

Definition set_mst_depths (ask bid : Z) (s : market_status) : market_status :=
  mk_market_status (mst_quote_id s) (mst_base_id s) (mst_current_feed_price s)
    (mst_last_valid_feed_price s) (mst_last_error s) ask bid (mst_center_price s).

(** [market_status::maximum_bid]: ten ninths of the center price, in 128 bits. *)
Definition maximum_bid (s : market_status) : price :=
  let c := mst_center_price s in
  mk_price (wrapu128 (ratio c * 10) / 9) (base_asset_id c) (quote_asset_id c).

Definition market_status_is_null (s : market_status) : bool := mst_quote_id s =? mst_base_id s.

(** [market_status::update_feed_price] *)
Definition update_feed_price (feed : option price) (s : market_status) : market_status :=
  mk_market_status (mst_quote_id s) (mst_base_id s) feed
    (match feed with Some _ => feed | None => mst_last_valid_feed_price s end)
    (mst_last_error s) (mst_ask_depth s) (mst_bid_depth s) (mst_center_price s).

Record market_history_key := mk_history_key {
  hk_quote_id : Z;
  hk_base_id : Z;
  hk_granularity : Z;
  hk_timestamp : Z
}.

#[global] Instance market_history_key_eq_dec : EqDecision market_history_key.
Proof. solve_decision. Defined.
#[global] Instance market_history_key_countable : Countable market_history_key.
Proof.
  refine (inj_countable' (fun k => (hk_quote_id k, hk_base_id k, hk_granularity k, hk_timestamp k))
            (fun t => mk_history_key t.1.1.1 t.1.1.2 t.1.2 t.2) _).
  by intros [].
Defined.

Record market_history_record := mk_history {
  hr_highest_bid : price;
  hr_lowest_ask : price;
  hr_opening_price : price;
  hr_closing_price : price;
  hr_volume : Z
}.

Record market_transaction := mk_market_trx {
  mt_bid_owner : Z;
  mt_ask_owner : Z;
  mt_bid_price : price;
  mt_ask_price : price;
  mt_bid_paid : asset;
  mt_bid_received : asset;
  mt_short_collateral : option asset;
  mt_ask_paid : asset;
  mt_ask_received : asset;
  mt_returned_collateral : option asset;
  mt_bid_type : Z;
  mt_ask_type : Z;
  mt_fees_collected : asset
}.

(** ** Slates, feeds, slots *)

Record delegate_slate := mk_slate {
  sl_supported_delegates : list Z
}.

Definition null_slate : delegate_slate := mk_slate [].

Record feed_index := mk_feed_index {
  fi_feed_id : Z;
  fi_delegate_id : Z
}.

#[global] Instance feed_index_eq_dec : EqDecision feed_index.
Proof. solve_decision. Defined.
#[global] Instance feed_index_countable : Countable feed_index.
Proof.
  refine (inj_countable' (fun k => (fi_feed_id k, fi_delegate_id k))
            (fun t => mk_feed_index t.1 t.2) _).
  by intros [].
Defined.

Record feed_record := mk_feed {
  fr_feed : feed_index;
  fr_value : variant;
  fr_last_update : Z
}.

Definition feed_is_null (r : feed_record) : bool := variant_is_null (fr_value r).

Record slot_record := mk_slot {
  so_start_time : Z;
  so_block_producer_id : Z;
  so_block_id : option Z
}.

Definition null_slot : slot_record := mk_slot 0 0 None.
Definition slot_is_null (r : slot_record) : bool := so_start_time r =? 0.

(** ** Operations *)

Record withdraw_operation := mk_withdraw {
  wo_balance_id : Z;
  wo_amount : Z;
  wo_claim_input_data : list Z
}.

Record deposit_operation := mk_deposit {
  do_amount : Z;
  do_condition : withdraw_condition
}.

Record register_account_operation := mk_register_account {
  ra_name : string;
  ra_public_data : variant;
  ra_owner_key : Z;
  ra_active_key : Z;
  ra_delegate_pay_rate : Z;
  ra_meta_data : option (Z * list Z)
}.

Record update_account_operation := mk_update_account {
  ua_account_id : Z;
  ua_public_data : option variant;
  ua_active_key : option Z;
  ua_delegate_pay_rate : Z
}.

Record withdraw_pay_operation := mk_withdraw_pay {
  wp_amount : Z;
  wp_account_id : Z
}.

Record create_asset_operation := mk_create_asset {
  ca_symbol : string;
  ca_name : string;
  ca_description : string;
  ca_public_data : variant;
  ca_issuer_account_id : Z;
  ca_maximum_share_supply : Z;
  ca_precision : Z
}.

Record issue_asset_operation := mk_issue_asset {
  ia_amount : asset
}.

Record bid_operation := mk_bid {
  bo_amount : Z;
  bo_bid_index : market_index_key
}.

Record ask_operation := mk_ask {
  ao_amount : Z;
  ao_ask_index : market_index_key
}.

Record short_operation := mk_short {
  sh_amount : Z;
  sh_short_index : market_index_key;
  sh_limit_price : option price
}.

Record short_operation_v1 := mk_short_v1 {
  s1_amount : Z;
  s1_short_index : market_index_key
}.

Record cover_operation := mk_cover {
  co_amount : Z;
  co_cover_index : market_index_key;
  co_new_cover_price : option price
}.

Record add_collateral_operation := mk_add_collateral {
  ad_amount : Z;
  ad_cover_index : market_index_key
}.

Record define_delegate_slate_operation := mk_define_slate {
  dd_slate : delegate_slate
}.

Record update_feed_operation := mk_update_feed {
  uf_feed : feed_index;
  uf_value : variant
}.

Record burn_operation := mk_burn {
  bu_amount : asset;
  bu_account_id : Z;
  bu_message : string;
  bu_message_signature : option Z
}.

Record update_block_signing_key := mk_update_signing_key {
  us_account_id : Z;
  us_block_signing_key : Z
}.

(** A transaction's operation: a type tag and the unpacked struct it selects.
    [Op_disabled] is an operation whose evaluation starts with
    [FC_ASSERT( !"This operation is not enabled yet!" )] (update_asset,
    update_asset_ext, authorize, create_asset_proposal, release_escrow,
    relative_bid, relative_ask, update_balance_vote, set_object, set_edge),
    [Op_other] a type tag no operation is registered under. *)
Inductive operation :=
| Op_withdraw (o : withdraw_operation)
| Op_deposit (o : deposit_operation)
| Op_register_account (o : register_account_operation)
| Op_update_account (o : update_account_operation)
| Op_withdraw_pay (o : withdraw_pay_operation)
| Op_create_asset (o : create_asset_operation)
| Op_issue_asset (o : issue_asset_operation)
| Op_bid (o : bid_operation)
| Op_ask (o : ask_operation)
| Op_short (o : short_operation)
| Op_short_v1 (o : short_operation_v1)
| Op_cover (o : cover_operation)
| Op_add_collateral (o : add_collateral_operation)
| Op_define_slate (o : define_delegate_slate_operation)
| Op_update_feed (o : update_feed_operation)
| Op_burn (o : burn_operation)
| Op_update_signing_key (o : update_block_signing_key)
| Op_disabled (type : Z)
| Op_other (type : Z).

(** [operation_type_enum] *)
Definition op_type (o : operation) : Z :=
  match o with
  | Op_withdraw _ => 1 | Op_deposit _ => 2 | Op_register_account _ => 3
  | Op_update_account _ => 4 | Op_withdraw_pay _ => 5 | Op_create_asset _ => 6
  | Op_issue_asset _ => 8 | Op_bid _ => 12 | Op_ask _ => 13 | Op_short _ => 34
  | Op_short_v1 _ => 14
  | Op_cover _ => 15 | Op_add_collateral _ => 16 | Op_define_slate _ => 18
  | Op_update_feed _ => 19 | Op_burn _ => 20 | Op_update_signing_key _ => 24
  | Op_disabled t => t | Op_other t => t
  end.

(** ** Transactions *)

Record signed_transaction := mk_trx {
  tx_expiration : Z;
  tx_delegate_slate_id : option Z;
  tx_operations : list operation;
  tx_signatures : list Z
}.

(** [signed_transaction()] *)
Definition null_trx : signed_transaction := mk_trx 0 None [] [].

(** The serialised members of [transaction_evaluation_state]. *)
Record eval_data := mk_eval_data {
  ev_trx : signed_transaction;
  ev_current_op_index : Z;
  ev_signed_keys : gset Z;
  ev_provided_deposits : gmap Z asset;
  ev_deposits : gmap Z asset;
  ev_withdraws : gmap Z asset;
  ev_yield : gmap Z Z;
  ev_deltas : gmap Z asset;
  ev_required_fees : asset;
  ev_alt_fees_paid : asset;
  ev_balance : gmap Z Z;
  ev_net_delegate_votes : gmap Z Z
}.

Definition set_ev_trx (v : signed_transaction) (r : eval_data) : eval_data :=
  {| ev_trx := v; ev_current_op_index := ev_current_op_index r;
     ev_signed_keys := ev_signed_keys r; ev_provided_deposits := ev_provided_deposits r;
     ev_deposits := ev_deposits r; ev_withdraws := ev_withdraws r;
     ev_yield := ev_yield r; ev_deltas := ev_deltas r;
     ev_required_fees := ev_required_fees r; ev_alt_fees_paid := ev_alt_fees_paid r;
     ev_balance := ev_balance r; ev_net_delegate_votes := ev_net_delegate_votes r |}.

Definition set_ev_current_op_index (v : Z) (r : eval_data) : eval_data :=
  {| ev_trx := ev_trx r; ev_current_op_index := v; ev_signed_keys := ev_signed_keys r;
     ev_provided_deposits := ev_provided_deposits r; ev_deposits := ev_deposits r;
     ev_withdraws := ev_withdraws r; ev_yield := ev_yield r; ev_deltas := ev_deltas r;
     ev_required_fees := ev_required_fees r; ev_alt_fees_paid := ev_alt_fees_paid r;
     ev_balance := ev_balance r; ev_net_delegate_votes := ev_net_delegate_votes r |}.

Definition set_ev_signed_keys (v : gset Z) (r : eval_data) : eval_data :=
  {| ev_trx := ev_trx r; ev_current_op_index := ev_current_op_index r;
     ev_signed_keys := v; ev_provided_deposits := ev_provided_deposits r;
     ev_deposits := ev_deposits r; ev_withdraws := ev_withdraws r;
     ev_yield := ev_yield r; ev_deltas := ev_deltas r;
     ev_required_fees := ev_required_fees r; ev_alt_fees_paid := ev_alt_fees_paid r;
     ev_balance := ev_balance r; ev_net_delegate_votes := ev_net_delegate_votes r |}.

Definition set_ev_provided_deposits (v : gmap Z asset) (r : eval_data) : eval_data :=
  {| ev_trx := ev_trx r; ev_current_op_index := ev_current_op_index r;
     ev_signed_keys := ev_signed_keys r; ev_provided_deposits := v;
     ev_deposits := ev_deposits r; ev_withdraws := ev_withdraws r;
     ev_yield := ev_yield r; ev_deltas := ev_deltas r;
     ev_required_fees := ev_required_fees r; ev_alt_fees_paid := ev_alt_fees_paid r;
     ev_balance := ev_balance r; ev_net_delegate_votes := ev_net_delegate_votes r |}.

Definition set_ev_deposits (v : gmap Z asset) (r : eval_data) : eval_data :=
  {| ev_trx := ev_trx r; ev_current_op_index := ev_current_op_index r;
     ev_signed_keys := ev_signed_keys r; ev_provided_deposits := ev_provided_deposits r;
     ev_deposits := v; ev_withdraws := ev_withdraws r; ev_yield := ev_yield r;
     ev_deltas := ev_deltas r; ev_required_fees := ev_required_fees r;
     ev_alt_fees_paid := ev_alt_fees_paid r; ev_balance := ev_balance r;
     ev_net_delegate_votes := ev_net_delegate_votes r |}.

Definition set_ev_withdraws (v : gmap Z asset) (r : eval_data) : eval_data :=
  {| ev_trx := ev_trx r; ev_current_op_index := ev_current_op_index r;
     ev_signed_keys := ev_signed_keys r; ev_provided_deposits := ev_provided_deposits r;
     ev_deposits := ev_deposits r; ev_withdraws := v; ev_yield := ev_yield r;
     ev_deltas := ev_deltas r; ev_required_fees := ev_required_fees r;
     ev_alt_fees_paid := ev_alt_fees_paid r; ev_balance := ev_balance r;
     ev_net_delegate_votes := ev_net_delegate_votes r |}.

Definition set_ev_yield (v : gmap Z Z) (r : eval_data) : eval_data :=
  {| ev_trx := ev_trx r; ev_current_op_index := ev_current_op_index r;
     ev_signed_keys := ev_signed_keys r; ev_provided_deposits := ev_provided_deposits r;
     ev_deposits := ev_deposits r; ev_withdraws := ev_withdraws r; ev_yield := v;
     ev_deltas := ev_deltas r; ev_required_fees := ev_required_fees r;
     ev_alt_fees_paid := ev_alt_fees_paid r; ev_balance := ev_balance r;
     ev_net_delegate_votes := ev_net_delegate_votes r |}.

Definition set_ev_deltas (v : gmap Z asset) (r : eval_data) : eval_data :=
  {| ev_trx := ev_trx r; ev_current_op_index := ev_current_op_index r;
     ev_signed_keys := ev_signed_keys r; ev_provided_deposits := ev_provided_deposits r;
     ev_deposits := ev_deposits r; ev_withdraws := ev_withdraws r;
     ev_yield := ev_yield r; ev_deltas := v; ev_required_fees := ev_required_fees r;
     ev_alt_fees_paid := ev_alt_fees_paid r; ev_balance := ev_balance r;
     ev_net_delegate_votes := ev_net_delegate_votes r |}.

Definition set_ev_required_fees (v : asset) (r : eval_data) : eval_data :=
  {| ev_trx := ev_trx r; ev_current_op_index := ev_current_op_index r;
     ev_signed_keys := ev_signed_keys r; ev_provided_deposits := ev_provided_deposits r;
     ev_deposits := ev_deposits r; ev_withdraws := ev_withdraws r;
     ev_yield := ev_yield r; ev_deltas := ev_deltas r; ev_required_fees := v;
     ev_alt_fees_paid := ev_alt_fees_paid r; ev_balance := ev_balance r;
     ev_net_delegate_votes := ev_net_delegate_votes r |}.

Definition set_ev_alt_fees_paid (v : asset) (r : eval_data) : eval_data :=
  {| ev_trx := ev_trx r; ev_current_op_index := ev_current_op_index r;
     ev_signed_keys := ev_signed_keys r; ev_provided_deposits := ev_provided_deposits r;
     ev_deposits := ev_deposits r; ev_withdraws := ev_withdraws r;
     ev_yield := ev_yield r; ev_deltas := ev_deltas r;
     ev_required_fees := ev_required_fees r; ev_alt_fees_paid := v;
     ev_balance := ev_balance r; ev_net_delegate_votes := ev_net_delegate_votes r |}.

Definition set_ev_balance (v : gmap Z Z) (r : eval_data) : eval_data :=
  {| ev_trx := ev_trx r; ev_current_op_index := ev_current_op_index r;
     ev_signed_keys := ev_signed_keys r; ev_provided_deposits := ev_provided_deposits r;
     ev_deposits := ev_deposits r; ev_withdraws := ev_withdraws r;
     ev_yield := ev_yield r; ev_deltas := ev_deltas r;
     ev_required_fees := ev_required_fees r; ev_alt_fees_paid := ev_alt_fees_paid r;
     ev_balance := v; ev_net_delegate_votes := ev_net_delegate_votes r |}.

Definition set_ev_net_delegate_votes (v : gmap Z Z) (r : eval_data) : eval_data :=
  {| ev_trx := ev_trx r; ev_current_op_index := ev_current_op_index r;
     ev_signed_keys := ev_signed_keys r; ev_provided_deposits := ev_provided_deposits r;
     ev_deposits := ev_deposits r; ev_withdraws := ev_withdraws r;
     ev_yield := ev_yield r; ev_deltas := ev_deltas r;
     ev_required_fees := ev_required_fees r; ev_alt_fees_paid := ev_alt_fees_paid r;
     ev_balance := ev_balance r; ev_net_delegate_votes := v |}.

Definition default_eval_data : eval_data :=
  mk_eval_data null_trx 0 ∅ ∅ ∅ ∅ ∅ ∅ (mk_asset 0 0) (mk_asset 0 0) ∅ ∅.

Record transaction_record := mk_trx_record {
  tr_state : eval_data;
  tr_chain_location : Z * Z
}.

Definition tr_trx (r : transaction_record) : signed_transaction := ev_trx (tr_state r).

(** [transaction_record()] *)
Definition null_trx_record : transaction_record := mk_trx_record default_eval_data (0, 0).

(** ** Hashes and signatures

    What the chain computes with fc's hash and elliptic-curve code: the address
    of a key (directly and through the four pts_address forms), of a withdraw
    condition, the identifiers of slates and transactions, the key recovered
    from a signature, and a password's hash. *)
Class Crypto := {
  address_of_key : Z -> Z;
  pts_address_of_key : Z -> bool -> Z -> Z;
  condition_address : withdraw_condition -> Z;
  slate_hash : list Z -> Z;
  trx_id : signed_transaction -> Z;
  trx_digest : signed_transaction -> Z -> Z;
  recover_key : Z -> Z -> bool -> result Z;
  ripemd160_hash : list Z -> Z
}.

Section crypto.
Context `{Crypto}.

(** [balance_record::id] *)
Definition balance_id (r : balance_record) : Z := condition_address (br_condition r).

Definition account_owner_address (r : account_record) : Z := address_of_key (ac_owner_key r).
Definition account_active_address (r : account_record) : Z :=
  address_of_key (account_active_key r).

(** [account_record::signing_address] *)
Definition account_signing_address (r : account_record) : result Z :=
  k ← account_signing_key r; Ok (address_of_key k).

(** [delegate_slate::id] *)
Definition slate_id (s : delegate_slate) : Z :=
  if Z.of_nat (length (sl_supported_delegates s)) =? 0 then 0
  else slate_hash (sl_supported_delegates s).

(** [balance_record::is_owner( public_key )]: the key's address in any of the
    five forms a balance may be owned under. *)
Definition key_addresses (key : Z) : list Z :=
  [ address_of_key key; pts_address_of_key key false 56; pts_address_of_key key true 56;
    pts_address_of_key key false 0; pts_address_of_key key true 0 ].

Definition balance_is_owner_key (key : Z) (r : balance_record) : result bool :=
  os ← balance_owners r;
  Ok (existsb (fun a => bool_decide (a ∈ os)) (key_addresses key)).
End crypto.

(** A concrete [Crypto] for evaluating the model: addresses are tagged copies of
    what they hash. *)
Definition toy_crypto : Crypto := {|
  address_of_key k := 10 * k + 1;
  pts_address_of_key k c v := 1000 * k + 2 * v + (if c then 1 else 0) + 500;
  condition_address c :=
    match wc_data c with
    | wd_signature o _ => 10^6 + 10^4 * wc_asset_id c + 10^2 * wc_slate_id c + o
    | _ => 10^9 + 10 * wc_asset_id c + wc_type c
    end;
  slate_hash l := foldr (fun d h => d + 7 * h) 5 l;
  trx_id t := tx_expiration t;
  trx_digest t c := tx_expiration t + c;
  recover_key s _ _ := Ok s;
  ripemd160_hash l := foldr Z.add 0 l
|}.
