(* ===== verification/ChainInterface.v ===== *)
(** * ChainInterface: what every chain state offers (chain_interface.hpp/.cpp)

    [chain_interface] abstracts the difference between the chain database and a
    pending state.  Its query methods are the record of functions [chain_view]
    (virtual dispatch); its update methods are the class [ChainStore], with an
    instance per implementation.  The non-virtual methods, which only use the
    interface, are functions of a [chain_view]: name validation, registration
    fees, active delegates.  The theorems: account names are exactly the
    dot-separated DNS-like labels, symbols the upper-case words with one inner
    dot, and the delegate pay schedule halves every four years. *)
From S2P Require Import Prelude Config Fc Asset Records.
From Stdlib Require Import Ascii String.

(** ** The interface *)

(** The query methods.  The methods that may throw return a [result]. *)
Record chain_view := mk_view {
  cv_now : Z;
  cv_head_block_num : Z;
  cv_property : Z -> result variant;
  cv_asset : Z -> option asset_record;
  cv_asset_by_symbol : string -> option asset_record;
  cv_account : Z -> option account_record;
  cv_account_by_name : string -> option account_record;
  cv_account_by_address : Z -> option account_record;
  cv_balance : Z -> option balance_record;
  cv_slate : Z -> option delegate_slate;
  cv_transaction : Z -> result (option transaction_record);
  cv_is_known_transaction : Z -> Z -> bool;
  cv_bid : market_index_key -> option order_record;
  cv_ask : market_index_key -> option order_record;
  cv_relative_bid : market_index_key -> option order_record;
  cv_relative_ask : market_index_key -> option order_record;
  cv_short : market_index_key -> option order_record;
  cv_collateral : market_index_key -> option collateral_record;
  cv_slot : Z -> result (option slot_record);
  cv_market_status : Z * Z -> option market_status;
  cv_market_history : market_history_key -> result (option market_history_record);
  cv_feed : feed_index -> option feed_record;
  cv_burn : burn_key -> result (option burn_record_value);
  cv_authorization : Z * Z -> option Z;
  cv_proposal : Z * Z -> option proposal_record;
  cv_median_price : Z -> Z -> result (option price)
}.

(** The update methods, and the view they update. *)
Class ChainStore (S : Type) := {
  cs_view : S -> chain_view;
  cs_set_property : Z -> variant -> S -> S;
  cs_store_asset : asset_record -> S -> S;
  cs_store_account : account_record -> S -> result S;
  cs_store_balance : balance_record -> S -> S;
  cs_authorize : Z * Z -> Z -> S -> S;
  cs_store_bid : market_index_key -> order_record -> S -> S;
  cs_store_relative_bid : market_index_key -> order_record -> S -> S;
  cs_store_ask : market_index_key -> order_record -> S -> S;
  cs_store_relative_ask : market_index_key -> order_record -> S -> S;
  cs_store_short : market_index_key -> order_record -> S -> S;
  cs_store_collateral : market_index_key -> collateral_record -> S -> S;
  cs_store_transaction : Z -> transaction_record -> S -> result S;
  cs_store_slate : Z -> delegate_slate -> S -> S;
  cs_store_slot : slot_record -> S -> S;
  cs_store_market_history : market_history_key -> market_history_record -> S -> S;
  cs_store_market_status : market_status -> S -> S;
  cs_store_proposal : proposal_record -> S -> S;
  cs_set_feed : feed_record -> S -> S;
  cs_set_market_dirty : Z -> Z -> S -> result S;
  cs_store_recent_operation : operation -> S -> S;
  cs_store_burn : burn_key -> burn_record_value -> S -> S;
  cs_set_market_transactions : list market_transaction -> S -> result S;
  cs_set_dirty_markets : list (Z * Z) -> S -> S
}.

(** [chain_property_enum] *)
Definition last_asset_id_prop : Z := 0.
Definition last_account_id_prop : Z := 1.
Definition last_random_seed_prop : Z := 2.
Definition active_delegate_list_prop : Z := 3.
Definition chain_id_prop : Z := 4.
Definition confirmation_requirement_prop : Z := 5.
Definition dirty_markets_prop : Z := 7.

(** ** Names *)

(** The classification functions of <cctype> in the "C" locale. *)
Definition code (c : ascii) : Z := Z.of_N (N_of_ascii c).
Definition isupper (c : ascii) : bool := (65 <=? code c) && (code c <=? 90).
Definition islower (c : ascii) : bool := (97 <=? code c) && (code c <=? 122).
Definition isalpha (c : ascii) : bool := isupper c || islower c.
Definition isdigit (c : ascii) : bool := (48 <=? code c) && (code c <=? 57).
Definition isalnum (c : ascii) : bool := isalpha c || isdigit c.

(** [s.substr( 0, s.find( '.' ) )] and, if there is a dot, what follows it. *)
Fixpoint split_dot (s : string) : string * option string :=
  match s with
  | EmptyString => (EmptyString, None)
  | String c s' =>
      if Ascii.eqb c "." then (EmptyString, Some s')
      else let '(l, r) := split_dot s' in (String c l, r)
  end.

Fixpoint last_char (s : string) : option ascii :=
  match s with
  | EmptyString => None
  | String c EmptyString => Some c
  | String _ s' => last_char s'
  end.

Fixpoint string_forall (f : ascii -> bool) (s : string) : bool :=
  match s with EmptyString => true | String c s' => f c && string_forall f s' end.

(** [chain_interface::get_parent_account_name] *)
Definition get_parent_account_name (account_name : string) : option string :=
  (split_dot account_name).2.

(** [isalnum( c ) && !isupper( c )], for the last character of a name. *)
Definition ends_lower_alnum (s : string) : bool :=
  match last_char s with Some c => isalnum c && negb (isupper c) | None => false end.

(** The body of [is_valid_account_name]; the recursion is on the name after the
    first dot, so the name's length bounds its depth. *)
Fixpoint valid_account_name (fuel : nat) (name : string) : bool :=
  match fuel with
  | O => false
  | S fuel =>
      if Z.of_nat (String.length name) <? BTS_BLOCKCHAIN_MIN_NAME_SIZE then false
      else if Z.of_nat (String.length name) >? BTS_BLOCKCHAIN_MAX_NAME_SIZE then false
      else if negb (match name with String c _ => isalpha c | EmptyString => false end) then false
      else if negb (ends_lower_alnum name) then false
      else
        let '(subname, supername) := split_dot name in
        if negb (ends_lower_alnum subname) then false
        else if negb (string_forall
                        (fun c => (isalnum c && negb (isupper c)) || Ascii.eqb c "-") subname)
        then false
        else match supername with
             | None => true
             | Some EmptyString => true
             | Some supername => valid_account_name fuel supername
             end
  end.

(** [chain_interface::is_valid_account_name] *)
Definition is_valid_account_name (name : string) : bool :=
  valid_account_name (S (String.length name)) name.

(** The scan of [is_valid_symbol_name]: the number of dots so far. *)
Fixpoint valid_symbol_chars (dots : Z) (s : string) : bool :=
  match s with
  | EmptyString => true
  | String c s' =>
      if Ascii.eqb c "." then
        if dots + 1 >? 1 then false else valid_symbol_chars (dots + 1) s'
      else if negb (isalnum c) || negb (isupper c) then false
      else valid_symbol_chars dots s'
  end.

(** [chain_interface::is_valid_symbol_name] *)
Definition is_valid_symbol_name (cv : chain_view) (symbol : string) : result bool :=
  _ ← fc_assert (negb (String.eqb symbol "BTSX"));
  Ok (if (Z.of_nat (String.length symbol) <? BTS_BLOCKCHAIN_MIN_SYMBOL_SIZE)
         || (Z.of_nat (String.length symbol) >? BTS_BLOCKCHAIN_MAX_SYMBOL_SIZE) then false
      else if negb (valid_symbol_chars 0 symbol) then false
      else if match last_char symbol with Some c => Ascii.eqb c "." | None => false end then false
      else if match symbol with String c _ => Ascii.eqb c "." | EmptyString => false end then false
      else if (cv_head_block_num cv >=? BTS_V0_4_28_FORK_BLOCK_NUM)
              && (3 <=? Z.of_nat (String.length symbol)) && String.prefix "BIT" symbol then false
      else true).

(** ** Fees and pay *)

Definition pay_start_timestamp : Z := 1415188800.
Definition pay_seconds_per_period : Z := 4 * 365 * 24 * 60 * 60.

(** [chain_interface::get_max_delegate_pay_issued_per_block]; the loop halves the
    pay once per full period. *)
Definition get_max_delegate_pay_issued_per_block (cv : chain_view) : Z :=
  if cv_now cv >=? pay_start_timestamp then
    let elapsed_time := cv_now cv - pay_start_timestamp in
    let num_full_periods := elapsed_time / pay_seconds_per_period in
    Nat.iter (Z.to_nat num_full_periods) (fun pay => Z.quot pay 2) BTS_MAX_DELEGATE_PAY_PER_BLOCK
  else BTS_MAX_DELEGATE_PAY_PER_BLOCK.

(** [chain_interface::get_delegate_pay_rate_v1] *)
Definition get_delegate_pay_rate_v1 (cv : chain_view) : result Z :=
  base_record ← require (cv_asset cv 0) assert_exception;
  Ok (Z.quot (as_collected_fees base_record) (BTS_BLOCKCHAIN_BLOCKS_PER_DAY * 14)).

(** [chain_interface::get_delegate_registration_fee_v1].  [NUM_DELEGATES] is a
    uint32, so the first division is a signed 64-bit one. *)
Definition get_delegate_registration_fee_v1 (cv : chain_view) (pay_rate : Z) : result Z :=
  r ← get_delegate_pay_rate_v1 cv;
  let unscaled_fee := Z.quot (wrap64 (r * BTS_BLOCKCHAIN_DELEGATE_REGISTRATION_FEE))
                             BTS_BLOCKCHAIN_NUM_DELEGATES in
  Ok (Z.quot (wrap64 (unscaled_fee * pay_rate)) 100).

(** [chain_interface::get_asset_registration_fee_v1] *)
Definition get_asset_registration_fee_v1 (cv : chain_view) : result Z :=
  r ← get_delegate_pay_rate_v1 cv;
  Ok (wrap64 (r * BTS_BLOCKCHAIN_ASSET_REGISTRATION_FEE)).

(** [chain_interface::get_delegate_registration_fee] *)
Definition get_delegate_registration_fee (cv : chain_view) (pay_rate : Z) : result Z :=
  if cv_head_block_num cv <? BTS_V0_4_24_FORK_BLOCK_NUM
  then get_delegate_registration_fee_v1 cv pay_rate
  else
    let blocks_per_two_weeks := 14 * BTS_BLOCKCHAIN_BLOCKS_PER_DAY in
    let max_total_pay_per_two_weeks :=
      wrap64 (blocks_per_two_weeks * get_max_delegate_pay_issued_per_block cv) in
    let max_pay_per_two_weeks :=
      Z.quot max_total_pay_per_two_weeks BTS_BLOCKCHAIN_NUM_DELEGATES in
    let registration_fee := Z.quot (wrap64 (max_pay_per_two_weeks * pay_rate)) 100 in
    _ ← fc_assert (registration_fee >? 0);
    Ok registration_fee.

(** [chain_interface::get_asset_registration_fee] *)
Definition get_asset_registration_fee (cv : chain_view) (symbol_length : Z) : result Z :=
  if cv_head_block_num cv <? BTS_V0_4_24_FORK_BLOCK_NUM
  then get_asset_registration_fee_v1 cv
  else
    let long_symbol_price := 500 * BTS_BLOCKCHAIN_PRECISION in
    let short_symbol_price := 1000 * long_symbol_price in
    _ ← fc_assert (long_symbol_price >? 0);
    _ ← fc_assert (short_symbol_price >? long_symbol_price);
    Ok (if symbol_length <=? 5 then short_symbol_price else long_symbol_price).

(** ** Properties of the chain *)

(** [chain_interface::last_asset_id], [last_account_id] *)
Definition last_asset_id (cv : chain_view) : result Z :=
  v ← cv_property cv last_asset_id_prop; variant_as_int v.
Definition last_account_id (cv : chain_view) : result Z :=
  v ← cv_property cv last_account_id_prop; variant_as_int v.

(** [chain_interface::get_active_delegates], [is_active_delegate] *)
Definition get_active_delegates (cv : chain_view) : result (list Z) :=
  v ← cv_property cv active_delegate_list_prop; variant_as_ids v.
Definition is_active_delegate (cv : chain_view) (id : Z) : result bool :=
  active ← get_active_delegates cv; Ok (existsb (Z.eqb id) active).

(** [chain_interface::get_required_confirmations] *)
Definition get_required_confirmations (cv : chain_view) : result Z :=
  v ← cv_property cv confirmation_requirement_prop; variant_as_int v.

(** [chain_interface::get_dirty_markets]: any failure reads as the empty set. *)
Definition get_dirty_markets (cv : chain_view) : list (Z * Z) :=
  match (v ← cv_property cv dirty_markets_prop; variant_as_pairs v) with
  | Ok l => l
  | Err _ => []
  end.

Section stores.
Context {St : Type} `{ChainStore St}.

(** [chain_interface::new_asset_id] *)
Definition new_asset_id (s : St) : result (Z * St) :=
  l ← last_asset_id (cs_view s);
  let next_id := wrap32 (l + 1) in
  Ok (next_id, cs_set_property last_asset_id_prop (v_int next_id) s).

(** [chain_interface::new_account_id] *)
Definition new_account_id (s : St) : result (Z * St) :=
  l ← last_account_id (cs_view s);
  let next_id := wrap32 (l + 1) in
  Ok (next_id, cs_set_property last_account_id_prop (v_int next_id) s).

(** [chain_interface::set_active_delegates] *)
Definition set_active_delegates (ids : list Z) (s : St) : St :=
  cs_set_property active_delegate_list_prop (v_ids ids) s.
End stores.

(** ** Account names: the grammar *)

Definition label_char (c : ascii) : bool := (isalnum c && negb (isupper c)) || Ascii.eqb c "-".

(** One label: a lower-case letter, then lower-case letters, digits and dashes,
    not ending in a dash. *)
Definition valid_label (l : string) : bool :=
  match l with
  | String c _ => islower c && string_forall label_char l && ends_lower_alnum l
  | EmptyString => false
  end.

(** The labels of a dotted name. *)
Fixpoint labels (s : string) : list string :=
  match s with
  | EmptyString => [EmptyString]
  | String c s' =>
      if Ascii.eqb c "." then EmptyString :: labels s'
      else match labels s' with
           | l :: ls => String c l :: ls
           | [] => [String c EmptyString]
           end
  end.

Lemma labels_split s :
  labels s = (split_dot s).1 :: match (split_dot s).2 with None => [] | Some s' => labels s' end.
Proof.
  induction s as [|c s IH]; [done|]. cbn. destruct (Ascii.eqb c "."); [done|].
  rewrite IH. by destruct (split_dot s).
Qed.

Lemma split_dot_None s l : split_dot s = (l, None) -> l = s.
Proof.
  revert l. induction s as [|c s IH]; cbn; intros l; [by intros [= <-]|].
  destruct (Ascii.eqb c "."); [done|].
  destruct (split_dot s) as [l' r']. intros [= <- ->]. f_equal. by apply IH.
Qed.

Lemma split_dot_Some s l r :
  split_dot s = (l, Some r) ->
  (String.length r < String.length s)%nat /\
  (r = EmptyString -> last_char s = Some "."%char) /\
  (r <> EmptyString -> last_char s = last_char r).
Proof.
  revert l. induction s as [|c s IH]; cbn [split_dot]; intros l; [done|].
  destruct (Ascii.eqb_spec c ".") as [->|Hc].
  - intros [= <- ->]. cbn. destruct r; split_and!; done || (cbn; lia).
  - destruct (split_dot s) as [l' r'] eqn:E. intros [= <- ->].
    destruct (IH l' eq_refl) as (Hlen & H1 & H2). split_and!; [cbn; lia| |].
    + intros Hr. specialize (H1 Hr). cbn. destruct s; [done|]. exact H1.
    + intros Hr. specialize (H2 Hr). cbn. destruct s; [cbn in Hlen; lia|]. exact H2.
Qed.

Lemma split_dot_head c s l r :
  isalpha c = true -> split_dot (String c s) = (l, r) -> exists l', l = String c l'.
Proof.
  cbn. destruct (Ascii.eqb_spec c ".") as [->|Hc]; [done|].
  intros _. destruct (split_dot s). intros [= <- <-]. eauto.
Qed.

Lemma label_char_lower c : isalpha c = true -> label_char c = true -> islower c = true.
Proof.
  unfold label_char, isalnum, isalpha. intros Ha Hl.
  destruct (Ascii.eqb_spec c "-") as [->|_]; [done|].
  destruct (isupper c), (islower c); cbn in *; done.
Qed.

Lemma islower_alpha c : islower c = true -> isalpha c = true.
Proof. unfold isalpha. intros ->. apply orb_true_r. Qed.

(** A name whose labels are valid ends like its last label. *)
Lemma labels_ends s :
  Forall (fun l => valid_label l = true) (labels s) -> ends_lower_alnum s = true.
Proof.
  induction (well_founded_ltof _ String.length s) as [s _ IH].
  rewrite labels_split. destruct (split_dot s) as [l r] eqn:Hs. cbn [fst snd].
  intros [Hl HF]%Forall_cons. destruct r as [r|].
  - destruct (split_dot_Some s l r Hs) as (Hlen & _ & Hne).
    unfold ends_lower_alnum. rewrite Hne; [by apply IH|].
    intros ->. by inversion HF.
  - rewrite (split_dot_None s l Hs) in Hl. destruct s as [|c s]; [done|].
    cbn [valid_label] in Hl. by apply andb_true_iff in Hl as [_ ?].
Qed.

(** One level of the recursion, with the grammar of the rest. *)
Lemma valid_account_name_labels fuel name :
  (String.length name < fuel)%nat ->
  valid_account_name fuel name = true <->
  Z.of_nat (String.length name) <= 63 /\ Forall (fun l => valid_label l = true) (labels name).
Proof.
  revert name. induction fuel as [|fuel IH]; intros name Hf; [lia|].
  cbn [valid_account_name]. rewrite labels_split.
  destruct (split_dot name) as [l r] eqn:Hs. cbn [fst snd].
  destruct name as [|c name]; [injection Hs as <- <-; cbn; split; [done|]|].
  { intros [_ HF]. by inversion HF. }
  unfold BTS_BLOCKCHAIN_MIN_NAME_SIZE, BTS_BLOCKCHAIN_MAX_NAME_SIZE.
  set (n := String c name) in *. assert (Hn : (1 <= String.length n)%nat) by (cbn; lia).
  destruct (Z.ltb_spec (Z.of_nat (String.length n)) 1); [lia|].
  destruct (Z.gtb_spec (Z.of_nat (String.length n)) 63); [split; [done|lia]|].
  cut ((if negb (isalpha c) then false else if negb (ends_lower_alnum n) then false
        else if negb (ends_lower_alnum l) then false
        else if negb (string_forall label_char l) then false
        else match r with None => true | Some EmptyString => true
             | Some s => valid_account_name fuel s end) = true <->
       Forall (fun l => valid_label l = true)
         (l :: match r with None => [] | Some s' => labels s' end)); [intros ->; tauto|].
  rewrite Forall_cons. destruct (isalpha c) eqn:Hc; cbn [negb].
  2: { split; [done|]. intros [Hl _]. unfold n in Hs. cbn in Hs.
       destruct (Ascii.eqb c "."); [by injection Hs as <- <-|].
       destruct (split_dot name) as [l0 r0]. injection Hs as <- <-. cbn in Hl.
       destruct (islower c) eqn:Hlow; [|done]. by rewrite (islower_alpha c Hlow) in Hc. }
  destruct (split_dot_head c name l r Hc Hs) as [l' Hl'].
  assert (Hlab : valid_label l = string_forall label_char l && ends_lower_alnum l).
  { subst l. unfold valid_label. cbn [string_forall]. destruct (label_char c) eqn:Hlc.
    - by rewrite (label_char_lower c Hc Hlc).
    - by destruct (islower c). }
  rewrite Hlab. destruct r as [r|].
  - destruct (split_dot_Some n l r Hs) as (Hlen & He & Hne).
    destruct r as [|c' r'].
    + unfold ends_lower_alnum at 1. rewrite (He eq_refl). cbn. split; [done|].
      intros [_ HF]. inversion HF; done.
    + pose proof (IH (String c' r') ltac:(lia)) as IHr.
      pose proof (labels_ends (String c' r')) as Hends. clear IH.
      unfold ends_lower_alnum at 1. rewrite Hne by done. fold (ends_lower_alnum (String c' r')).
      assert (Z.of_nat (String.length (String c' r')) <= 63) by lia.
      destruct (valid_account_name fuel (String c' r')), (ends_lower_alnum (String c' r')),
        (ends_lower_alnum l), (string_forall label_char l); cbn [negb andb]; naive_solver.
  - rewrite (split_dot_None n l Hs). pose proof (Forall_nil_2 (fun l => valid_label l = true)).
    destruct (ends_lower_alnum n), (string_forall label_char n); cbn [negb andb]; naive_solver.
Qed.

(** An account name is valid exactly when it has at most 63 characters and
    each of its dot-separated labels starts with a lower-case letter, consists of
    lower-case letters, digits and dashes, and does not end in a dash; the
    validator's recursion never runs out of name. *)
Theorem is_valid_account_name_spec name :
  is_valid_account_name name = true <->
  Z.of_nat (String.length name) <= BTS_BLOCKCHAIN_MAX_NAME_SIZE /\
  Forall (fun l => valid_label l = true) (labels name).
Proof. apply valid_account_name_labels. lia. Qed.

(** ** Symbols *)

Fixpoint count_dots (s : string) : Z :=
  match s with
  | EmptyString => 0
  | String c s' => (if Ascii.eqb c "." then 1 else 0) + count_dots s'
  end.

Lemma count_dots_nonneg s : 0 <= count_dots s.
Proof. induction s as [|c s IH]; cbn; [lia|]. destruct (Ascii.eqb c "."); lia. Qed.

Lemma valid_symbol_chars_spec dots s :
  0 <= dots <= 1 ->
  valid_symbol_chars dots s = true <->
  string_forall (fun c => isupper c || Ascii.eqb c ".") s = true /\ dots + count_dots s <= 1.
Proof.
  revert dots. induction s as [|c s IH]; intros dots Hd; cbn; [split; [lia|done]|].
  pose proof (count_dots_nonneg s). destruct (Ascii.eqb_spec c ".") as [->|Hc].
  - destruct (Z.gtb_spec (dots + 1) 1); [split; [done|lia]|].
    rewrite IH by lia. cbn. intuition lia.
  - assert (negb (isalnum c) || negb (isupper c) = negb (isupper c)) as ->
      by (unfold isalnum, isalpha; by destruct (isupper c), (islower c), (isdigit c)).
    destruct (isupper c); cbn [negb orb andb]; [|by split; [|intros [? ?]]].
    rewrite IH by lia. rewrite Z.add_0_l. tauto.
Qed.

(** An asset symbol is accepted exactly when it is not the reserved "BTSX"
    (which is an error), has 3 to 8 characters, all of them upper-case letters
    but for at most one dot that is neither first nor last, and, from hard fork
    0.4.28 on, does not start with "BIT".  In particular digits are rejected. *)
Theorem is_valid_symbol_name_spec cv symbol :
  is_valid_symbol_name cv symbol = Ok true <->
  symbol <> "BTSX"%string /\
  BTS_BLOCKCHAIN_MIN_SYMBOL_SIZE <= Z.of_nat (String.length symbol)
    <= BTS_BLOCKCHAIN_MAX_SYMBOL_SIZE /\
  string_forall (fun c => isupper c || Ascii.eqb c ".") symbol = true /\
  count_dots symbol <= 1 /\
  last_char symbol <> Some "."%char /\ String.get 0 symbol <> Some "."%char /\
  (BTS_V0_4_28_FORK_BLOCK_NUM <= cv_head_block_num cv -> String.prefix "BIT" symbol = false).
Proof.
  unfold is_valid_symbol_name.
  destruct (String.eqb_spec symbol "BTSX") as [->|Hne]; cbn [negb fc_assert throw_if mbind result_bind];
    [by split; [|intros [? ?]]|].
  assert (HOk : forall b, Ok b = Ok true <-> b = true) by (split; congruence). rewrite HOk.
  pose proof (valid_symbol_chars_spec 0 symbol ltac:(lia)) as Hspec. rewrite Z.add_0_l in Hspec.
  destruct (_ || _) eqn:Hlen; [split; [done|unfold BTS_BLOCKCHAIN_MIN_SYMBOL_SIZE, BTS_BLOCKCHAIN_MAX_SYMBOL_SIZE in *; lia]|].
  apply orb_false_iff in Hlen as [Hl1 Hl2].
  assert (Hlen : BTS_BLOCKCHAIN_MIN_SYMBOL_SIZE <= Z.of_nat (String.length symbol)
    <= BTS_BLOCKCHAIN_MAX_SYMBOL_SIZE) by lia.
  destruct (valid_symbol_chars 0 symbol); cbn [negb]; [|split; [done|tauto]].
  assert (Hlast : (match last_char symbol with Some c => Ascii.eqb c "." | None => false end = true)
    <-> last_char symbol = Some "."%char).
  { destruct (last_char symbol) as [c|]; [|done]. destruct (Ascii.eqb_spec c "."); split; congruence. }
  assert (Hfirst : (match symbol with String c _ => Ascii.eqb c "." | EmptyString => false end = true)
    <-> String.get 0 symbol = Some "."%char).
  { destruct symbol as [|c s]; cbn; [done|]. destruct (Ascii.eqb_spec c "."); split; congruence. }
  destruct (match last_char symbol with Some c => _ | None => _ end); [split; [done|tauto]|].
  destruct (match symbol with EmptyString => _ | String _ _ => _ end); [split; [done|tauto]|].
  assert (last_char symbol <> Some "."%char /\ String.get 0 symbol <> Some "."%char)
    by (split; [intros ?%Hlast|intros ?%Hfirst]; done).
  unfold BTS_BLOCKCHAIN_MIN_SYMBOL_SIZE in *.
  assert (3 <=? Z.of_nat (String.length symbol) = true) as -> by lia.
  destruct (Z.geb_spec (cv_head_block_num cv) BTS_V0_4_28_FORK_BLOCK_NUM), (String.prefix "BIT" symbol);
    cbn [andb]; (split; [intros|intros]); try done; intuition (try done; try lia).
Qed.

(** ** Delegate pay *)

Lemma iter_halve n x : 0 <= x -> Nat.iter n (fun p => Z.quot p 2) x = x / 2 ^ Z.of_nat n.
Proof.
  intros Hx. induction n as [|n IH]; [cbn; by rewrite Z.div_1_r|].
  rewrite Nat2Z.inj_succ, Z.pow_succ_r, Z.mul_comm, <- Z.div_div by lia.
  change (Nat.iter (S n) (fun p => Z.quot p 2) x)
    with (Z.quot (Nat.iter n (fun p => Z.quot p 2) x) 2).
  rewrite IH, Z.quot_div_nonneg; [done| |lia].
  apply Z.div_pos; lia.
Qed.

(** The delegate pay per block is 50 shares, halved (rounding down) once per
    full four-year period since the start of the schedule, so it never increases
    over time and reaches zero after 23 halvings. *)
Theorem delegate_pay_schedule cv :
  get_max_delegate_pay_issued_per_block cv =
    (if cv_now cv <? pay_start_timestamp then BTS_MAX_DELEGATE_PAY_PER_BLOCK
     else BTS_MAX_DELEGATE_PAY_PER_BLOCK /
            2 ^ ((cv_now cv - pay_start_timestamp) / pay_seconds_per_period)) /\
  (forall cv', cv_now cv <= cv_now cv' ->
     0 <= get_max_delegate_pay_issued_per_block cv' <= get_max_delegate_pay_issued_per_block cv) /\
  (pay_start_timestamp + 23 * pay_seconds_per_period <= cv_now cv ->
     get_max_delegate_pay_issued_per_block cv = 0).
Proof.
  assert (Hclosed : forall cv, get_max_delegate_pay_issued_per_block cv =
    BTS_MAX_DELEGATE_PAY_PER_BLOCK /
      2 ^ (Z.max 0 ((cv_now cv - pay_start_timestamp) / pay_seconds_per_period))).
  { intros c. unfold get_max_delegate_pay_issued_per_block.
    destruct (Z.geb_spec (cv_now c) pay_start_timestamp).
    - assert (0 <= (cv_now c - pay_start_timestamp) / pay_seconds_per_period)
        by (apply Z.div_pos; [lia|done]).
      rewrite iter_halve by done. by rewrite Z2Nat.id, Z.max_r by lia.
    - assert ((cv_now c - pay_start_timestamp) / pay_seconds_per_period < 0)
        by (apply Z.div_lt_upper_bound; [done|lia]).
      rewrite Z.max_l by lia. by rewrite Z.div_1_r. }
  split_and!.
  - rewrite Hclosed. destruct (Z.ltb_spec (cv_now cv) pay_start_timestamp).
    + assert ((cv_now cv - pay_start_timestamp) / pay_seconds_per_period < 0)
        by (apply Z.div_lt_upper_bound; [done|lia]).
      rewrite Z.max_l by lia. by rewrite Z.div_1_r.
    + rewrite Z.max_r; [done|]. apply Z.div_pos; [lia|done].
  - intros cv' Hle. rewrite !Hclosed. split.
    + apply Z.div_pos; [done|]. apply Z.pow_pos_nonneg; lia.
    + apply Z.div_le_compat_l; [done|]. split; [apply Z.pow_pos_nonneg; lia|].
      apply Z.pow_le_mono_r; [lia|]. apply Z.max_le_compat_l.
      apply Z.div_le_mono; [done|lia].
  - intros Hlate. rewrite Hclosed. apply Z.div_small. split; [done|].
    apply (Z.lt_le_trans _ (2 ^ 23)); [done|].
    apply Z.pow_le_mono_r; [lia|]. apply Z.max_le_iff. right.
    apply Z.div_le_lower_bound; [done|lia].
Qed.
