(* ===== verification/PendingState.v ===== *)
(** * PendingState: the write buffer over a chain state (pending_chain_state.hpp/.cpp)

    A pending state collects the changes of a transaction or a block in one map
    per kind of record; reads it cannot answer go to the previous state.
    [apply_changes] writes the buffer into the previous state and
    [get_undo_state] builds the buffer that reverts it.  Apply.v and Undo.v have
    the theorems about these two. The edge, site and object indices are not
    modelled.

    [ps_prev] is [_prev_state.lock()]: [None] is the null pointer an undo state
    is created with.  The methods that dereference it without a test, or assert
    it, are never called on such a state; on it they read as finding nothing. *)
From S2P Require Import Prelude Config Fc Asset Records ChainInterface.
From Stdlib Require Import String.

Record pending_chain_state := mk_pending {
  ps_prev : option chain_view;
  ps_assets : gmap Z asset_record;
  ps_slates : gmap Z delegate_slate;
  ps_accounts : gmap Z account_record;
  ps_balances : gmap Z balance_record;
  ps_account_id_index : gmap string Z;
  ps_symbol_id_index : gmap string Z;
  ps_transactions : gmap Z transaction_record;
  ps_unique_transactions : gset Z;
  ps_properties : gmap Z variant;
  ps_key_to_account : gmap Z Z;
  ps_bids : gmap market_index_key order_record;
  ps_asks : gmap market_index_key order_record;
  ps_shorts : gmap market_index_key order_record;
  ps_collateral : gmap market_index_key collateral_record;
  ps_slots : gmap Z slot_record;
  ps_market_history : gmap market_history_key market_history_record;
  ps_market_statuses : gmap (Z * Z) market_status;
  ps_recent_operations : gmap Z (list operation);
  ps_feeds : gmap feed_index feed_record;
  ps_burns : gmap burn_key burn_record_value;
  ps_relative_bids : gmap market_index_key order_record;
  ps_relative_asks : gmap market_index_key order_record;
  ps_authorizations : gmap (Z * Z) Z;
  ps_asset_proposals : gmap (Z * Z) proposal_record;
  ps_dirty_markets : gset (Z * Z);
  ps_market_transactions : list market_transaction
}.

Definition set_ps_prev (v : option chain_view) (r : pending_chain_state) : pending_chain_state :=
  {| ps_prev := v; ps_assets := ps_assets r; ps_slates := ps_slates r;
     ps_accounts := ps_accounts r; ps_balances := ps_balances r;
     ps_account_id_index := ps_account_id_index r;
     ps_symbol_id_index := ps_symbol_id_index r; ps_transactions := ps_transactions r;
     ps_unique_transactions := ps_unique_transactions r;
     ps_properties := ps_properties r; ps_key_to_account := ps_key_to_account r;
     ps_bids := ps_bids r; ps_asks := ps_asks r; ps_shorts := ps_shorts r;
     ps_collateral := ps_collateral r; ps_slots := ps_slots r;
     ps_market_history := ps_market_history r;
     ps_market_statuses := ps_market_statuses r;
     ps_recent_operations := ps_recent_operations r; ps_feeds := ps_feeds r;
     ps_burns := ps_burns r; ps_relative_bids := ps_relative_bids r;
     ps_relative_asks := ps_relative_asks r; ps_authorizations := ps_authorizations r;
     ps_asset_proposals := ps_asset_proposals r; ps_dirty_markets := ps_dirty_markets r;
     ps_market_transactions := ps_market_transactions r |}.

Definition set_ps_assets (v : gmap Z asset_record) (r : pending_chain_state) : pending_chain_state :=
  {| ps_prev := ps_prev r; ps_assets := v; ps_slates := ps_slates r;
     ps_accounts := ps_accounts r; ps_balances := ps_balances r;
     ps_account_id_index := ps_account_id_index r;
     ps_symbol_id_index := ps_symbol_id_index r; ps_transactions := ps_transactions r;
     ps_unique_transactions := ps_unique_transactions r;
     ps_properties := ps_properties r; ps_key_to_account := ps_key_to_account r;
     ps_bids := ps_bids r; ps_asks := ps_asks r; ps_shorts := ps_shorts r;
     ps_collateral := ps_collateral r; ps_slots := ps_slots r;
     ps_market_history := ps_market_history r;
     ps_market_statuses := ps_market_statuses r;
     ps_recent_operations := ps_recent_operations r; ps_feeds := ps_feeds r;
     ps_burns := ps_burns r; ps_relative_bids := ps_relative_bids r;
     ps_relative_asks := ps_relative_asks r; ps_authorizations := ps_authorizations r;
     ps_asset_proposals := ps_asset_proposals r; ps_dirty_markets := ps_dirty_markets r;
     ps_market_transactions := ps_market_transactions r |}.

Definition set_ps_slates (v : gmap Z delegate_slate) (r : pending_chain_state) : pending_chain_state :=
  {| ps_prev := ps_prev r; ps_assets := ps_assets r; ps_slates := v;
     ps_accounts := ps_accounts r; ps_balances := ps_balances r;
     ps_account_id_index := ps_account_id_index r;
     ps_symbol_id_index := ps_symbol_id_index r; ps_transactions := ps_transactions r;
     ps_unique_transactions := ps_unique_transactions r;
     ps_properties := ps_properties r; ps_key_to_account := ps_key_to_account r;
     ps_bids := ps_bids r; ps_asks := ps_asks r; ps_shorts := ps_shorts r;
     ps_collateral := ps_collateral r; ps_slots := ps_slots r;
     ps_market_history := ps_market_history r;
     ps_market_statuses := ps_market_statuses r;
     ps_recent_operations := ps_recent_operations r; ps_feeds := ps_feeds r;
     ps_burns := ps_burns r; ps_relative_bids := ps_relative_bids r;
     ps_relative_asks := ps_relative_asks r; ps_authorizations := ps_authorizations r;
     ps_asset_proposals := ps_asset_proposals r; ps_dirty_markets := ps_dirty_markets r;
     ps_market_transactions := ps_market_transactions r |}.

Definition set_ps_accounts (v : gmap Z account_record) (r : pending_chain_state) : pending_chain_state :=
  {| ps_prev := ps_prev r; ps_assets := ps_assets r; ps_slates := ps_slates r;
     ps_accounts := v; ps_balances := ps_balances r;
     ps_account_id_index := ps_account_id_index r;
     ps_symbol_id_index := ps_symbol_id_index r; ps_transactions := ps_transactions r;
     ps_unique_transactions := ps_unique_transactions r;
     ps_properties := ps_properties r; ps_key_to_account := ps_key_to_account r;
     ps_bids := ps_bids r; ps_asks := ps_asks r; ps_shorts := ps_shorts r;
     ps_collateral := ps_collateral r; ps_slots := ps_slots r;
     ps_market_history := ps_market_history r;
     ps_market_statuses := ps_market_statuses r;
     ps_recent_operations := ps_recent_operations r; ps_feeds := ps_feeds r;
     ps_burns := ps_burns r; ps_relative_bids := ps_relative_bids r;
     ps_relative_asks := ps_relative_asks r; ps_authorizations := ps_authorizations r;
     ps_asset_proposals := ps_asset_proposals r; ps_dirty_markets := ps_dirty_markets r;
     ps_market_transactions := ps_market_transactions r |}.

Definition set_ps_balances (v : gmap Z balance_record) (r : pending_chain_state) : pending_chain_state :=
  {| ps_prev := ps_prev r; ps_assets := ps_assets r; ps_slates := ps_slates r;
     ps_accounts := ps_accounts r; ps_balances := v;
     ps_account_id_index := ps_account_id_index r;
     ps_symbol_id_index := ps_symbol_id_index r; ps_transactions := ps_transactions r;
     ps_unique_transactions := ps_unique_transactions r;
     ps_properties := ps_properties r; ps_key_to_account := ps_key_to_account r;
     ps_bids := ps_bids r; ps_asks := ps_asks r; ps_shorts := ps_shorts r;
     ps_collateral := ps_collateral r; ps_slots := ps_slots r;
     ps_market_history := ps_market_history r;
     ps_market_statuses := ps_market_statuses r;
     ps_recent_operations := ps_recent_operations r; ps_feeds := ps_feeds r;
     ps_burns := ps_burns r; ps_relative_bids := ps_relative_bids r;
     ps_relative_asks := ps_relative_asks r; ps_authorizations := ps_authorizations r;
     ps_asset_proposals := ps_asset_proposals r; ps_dirty_markets := ps_dirty_markets r;
     ps_market_transactions := ps_market_transactions r |}.

Definition set_ps_account_id_index (v : gmap string Z) (r : pending_chain_state) : pending_chain_state :=
  {| ps_prev := ps_prev r; ps_assets := ps_assets r; ps_slates := ps_slates r;
     ps_accounts := ps_accounts r; ps_balances := ps_balances r;
     ps_account_id_index := v; ps_symbol_id_index := ps_symbol_id_index r;
     ps_transactions := ps_transactions r;
     ps_unique_transactions := ps_unique_transactions r;
     ps_properties := ps_properties r; ps_key_to_account := ps_key_to_account r;
     ps_bids := ps_bids r; ps_asks := ps_asks r; ps_shorts := ps_shorts r;
     ps_collateral := ps_collateral r; ps_slots := ps_slots r;
     ps_market_history := ps_market_history r;
     ps_market_statuses := ps_market_statuses r;
     ps_recent_operations := ps_recent_operations r; ps_feeds := ps_feeds r;
     ps_burns := ps_burns r; ps_relative_bids := ps_relative_bids r;
     ps_relative_asks := ps_relative_asks r; ps_authorizations := ps_authorizations r;
     ps_asset_proposals := ps_asset_proposals r; ps_dirty_markets := ps_dirty_markets r;
     ps_market_transactions := ps_market_transactions r |}.

Definition set_ps_transactions (v : gmap Z transaction_record) (r : pending_chain_state) : pending_chain_state :=
  {| ps_prev := ps_prev r; ps_assets := ps_assets r; ps_slates := ps_slates r;
     ps_accounts := ps_accounts r; ps_balances := ps_balances r;
     ps_account_id_index := ps_account_id_index r;
     ps_symbol_id_index := ps_symbol_id_index r; ps_transactions := v;
     ps_unique_transactions := ps_unique_transactions r;
     ps_properties := ps_properties r; ps_key_to_account := ps_key_to_account r;
     ps_bids := ps_bids r; ps_asks := ps_asks r; ps_shorts := ps_shorts r;
     ps_collateral := ps_collateral r; ps_slots := ps_slots r;
     ps_market_history := ps_market_history r;
     ps_market_statuses := ps_market_statuses r;
     ps_recent_operations := ps_recent_operations r; ps_feeds := ps_feeds r;
     ps_burns := ps_burns r; ps_relative_bids := ps_relative_bids r;
     ps_relative_asks := ps_relative_asks r; ps_authorizations := ps_authorizations r;
     ps_asset_proposals := ps_asset_proposals r; ps_dirty_markets := ps_dirty_markets r;
     ps_market_transactions := ps_market_transactions r |}.

Definition set_ps_unique_transactions (v : gset Z) (r : pending_chain_state) : pending_chain_state :=
  {| ps_prev := ps_prev r; ps_assets := ps_assets r; ps_slates := ps_slates r;
     ps_accounts := ps_accounts r; ps_balances := ps_balances r;
     ps_account_id_index := ps_account_id_index r;
     ps_symbol_id_index := ps_symbol_id_index r; ps_transactions := ps_transactions r;
     ps_unique_transactions := v; ps_properties := ps_properties r;
     ps_key_to_account := ps_key_to_account r; ps_bids := ps_bids r;
     ps_asks := ps_asks r; ps_shorts := ps_shorts r; ps_collateral := ps_collateral r;
     ps_slots := ps_slots r; ps_market_history := ps_market_history r;
     ps_market_statuses := ps_market_statuses r;
     ps_recent_operations := ps_recent_operations r; ps_feeds := ps_feeds r;
     ps_burns := ps_burns r; ps_relative_bids := ps_relative_bids r;
     ps_relative_asks := ps_relative_asks r; ps_authorizations := ps_authorizations r;
     ps_asset_proposals := ps_asset_proposals r; ps_dirty_markets := ps_dirty_markets r;
     ps_market_transactions := ps_market_transactions r |}.

Definition set_ps_properties (v : gmap Z variant) (r : pending_chain_state) : pending_chain_state :=
  {| ps_prev := ps_prev r; ps_assets := ps_assets r; ps_slates := ps_slates r;
     ps_accounts := ps_accounts r; ps_balances := ps_balances r;
     ps_account_id_index := ps_account_id_index r;
     ps_symbol_id_index := ps_symbol_id_index r; ps_transactions := ps_transactions r;
     ps_unique_transactions := ps_unique_transactions r; ps_properties := v;
     ps_key_to_account := ps_key_to_account r; ps_bids := ps_bids r;
     ps_asks := ps_asks r; ps_shorts := ps_shorts r; ps_collateral := ps_collateral r;
     ps_slots := ps_slots r; ps_market_history := ps_market_history r;
     ps_market_statuses := ps_market_statuses r;
     ps_recent_operations := ps_recent_operations r; ps_feeds := ps_feeds r;
     ps_burns := ps_burns r; ps_relative_bids := ps_relative_bids r;
     ps_relative_asks := ps_relative_asks r; ps_authorizations := ps_authorizations r;
     ps_asset_proposals := ps_asset_proposals r; ps_dirty_markets := ps_dirty_markets r;
     ps_market_transactions := ps_market_transactions r |}.

Definition set_ps_key_to_account (v : gmap Z Z) (r : pending_chain_state) : pending_chain_state :=
  {| ps_prev := ps_prev r; ps_assets := ps_assets r; ps_slates := ps_slates r;
     ps_accounts := ps_accounts r; ps_balances := ps_balances r;
     ps_account_id_index := ps_account_id_index r;
     ps_symbol_id_index := ps_symbol_id_index r; ps_transactions := ps_transactions r;
     ps_unique_transactions := ps_unique_transactions r;
     ps_properties := ps_properties r; ps_key_to_account := v; ps_bids := ps_bids r;
     ps_asks := ps_asks r; ps_shorts := ps_shorts r; ps_collateral := ps_collateral r;
     ps_slots := ps_slots r; ps_market_history := ps_market_history r;
     ps_market_statuses := ps_market_statuses r;
     ps_recent_operations := ps_recent_operations r; ps_feeds := ps_feeds r;
     ps_burns := ps_burns r; ps_relative_bids := ps_relative_bids r;
     ps_relative_asks := ps_relative_asks r; ps_authorizations := ps_authorizations r;
     ps_asset_proposals := ps_asset_proposals r; ps_dirty_markets := ps_dirty_markets r;
     ps_market_transactions := ps_market_transactions r |}.

Definition set_ps_bids (v : gmap market_index_key order_record) (r : pending_chain_state) : pending_chain_state :=
  {| ps_prev := ps_prev r; ps_assets := ps_assets r; ps_slates := ps_slates r;
     ps_accounts := ps_accounts r; ps_balances := ps_balances r;
     ps_account_id_index := ps_account_id_index r;
     ps_symbol_id_index := ps_symbol_id_index r; ps_transactions := ps_transactions r;
     ps_unique_transactions := ps_unique_transactions r;
     ps_properties := ps_properties r; ps_key_to_account := ps_key_to_account r;
     ps_bids := v; ps_asks := ps_asks r; ps_shorts := ps_shorts r;
     ps_collateral := ps_collateral r; ps_slots := ps_slots r;
     ps_market_history := ps_market_history r;
     ps_market_statuses := ps_market_statuses r;
     ps_recent_operations := ps_recent_operations r; ps_feeds := ps_feeds r;
     ps_burns := ps_burns r; ps_relative_bids := ps_relative_bids r;
     ps_relative_asks := ps_relative_asks r; ps_authorizations := ps_authorizations r;
     ps_asset_proposals := ps_asset_proposals r; ps_dirty_markets := ps_dirty_markets r;
     ps_market_transactions := ps_market_transactions r |}.

Definition set_ps_asks (v : gmap market_index_key order_record) (r : pending_chain_state) : pending_chain_state :=
  {| ps_prev := ps_prev r; ps_assets := ps_assets r; ps_slates := ps_slates r;
     ps_accounts := ps_accounts r; ps_balances := ps_balances r;
     ps_account_id_index := ps_account_id_index r;
     ps_symbol_id_index := ps_symbol_id_index r; ps_transactions := ps_transactions r;
     ps_unique_transactions := ps_unique_transactions r;
     ps_properties := ps_properties r; ps_key_to_account := ps_key_to_account r;
     ps_bids := ps_bids r; ps_asks := v; ps_shorts := ps_shorts r;
     ps_collateral := ps_collateral r; ps_slots := ps_slots r;
     ps_market_history := ps_market_history r;
     ps_market_statuses := ps_market_statuses r;
     ps_recent_operations := ps_recent_operations r; ps_feeds := ps_feeds r;
     ps_burns := ps_burns r; ps_relative_bids := ps_relative_bids r;
     ps_relative_asks := ps_relative_asks r; ps_authorizations := ps_authorizations r;
     ps_asset_proposals := ps_asset_proposals r; ps_dirty_markets := ps_dirty_markets r;
     ps_market_transactions := ps_market_transactions r |}.

Definition set_ps_shorts (v : gmap market_index_key order_record) (r : pending_chain_state) : pending_chain_state :=
  {| ps_prev := ps_prev r; ps_assets := ps_assets r; ps_slates := ps_slates r;
     ps_accounts := ps_accounts r; ps_balances := ps_balances r;
     ps_account_id_index := ps_account_id_index r;
     ps_symbol_id_index := ps_symbol_id_index r; ps_transactions := ps_transactions r;
     ps_unique_transactions := ps_unique_transactions r;
     ps_properties := ps_properties r; ps_key_to_account := ps_key_to_account r;
     ps_bids := ps_bids r; ps_asks := ps_asks r; ps_shorts := v;
     ps_collateral := ps_collateral r; ps_slots := ps_slots r;
     ps_market_history := ps_market_history r;
     ps_market_statuses := ps_market_statuses r;
     ps_recent_operations := ps_recent_operations r; ps_feeds := ps_feeds r;
     ps_burns := ps_burns r; ps_relative_bids := ps_relative_bids r;
     ps_relative_asks := ps_relative_asks r; ps_authorizations := ps_authorizations r;
     ps_asset_proposals := ps_asset_proposals r; ps_dirty_markets := ps_dirty_markets r;
     ps_market_transactions := ps_market_transactions r |}.

Definition set_ps_collateral (v : gmap market_index_key collateral_record) (r : pending_chain_state) : pending_chain_state :=
  {| ps_prev := ps_prev r; ps_assets := ps_assets r; ps_slates := ps_slates r;
     ps_accounts := ps_accounts r; ps_balances := ps_balances r;
     ps_account_id_index := ps_account_id_index r;
     ps_symbol_id_index := ps_symbol_id_index r; ps_transactions := ps_transactions r;
     ps_unique_transactions := ps_unique_transactions r;
     ps_properties := ps_properties r; ps_key_to_account := ps_key_to_account r;
     ps_bids := ps_bids r; ps_asks := ps_asks r; ps_shorts := ps_shorts r;
     ps_collateral := v; ps_slots := ps_slots r;
     ps_market_history := ps_market_history r;
     ps_market_statuses := ps_market_statuses r;
     ps_recent_operations := ps_recent_operations r; ps_feeds := ps_feeds r;
     ps_burns := ps_burns r; ps_relative_bids := ps_relative_bids r;
     ps_relative_asks := ps_relative_asks r; ps_authorizations := ps_authorizations r;
     ps_asset_proposals := ps_asset_proposals r; ps_dirty_markets := ps_dirty_markets r;
     ps_market_transactions := ps_market_transactions r |}.

Definition set_ps_slots (v : gmap Z slot_record) (r : pending_chain_state) : pending_chain_state :=
  {| ps_prev := ps_prev r; ps_assets := ps_assets r; ps_slates := ps_slates r;
     ps_accounts := ps_accounts r; ps_balances := ps_balances r;
     ps_account_id_index := ps_account_id_index r;
     ps_symbol_id_index := ps_symbol_id_index r; ps_transactions := ps_transactions r;
     ps_unique_transactions := ps_unique_transactions r;
     ps_properties := ps_properties r; ps_key_to_account := ps_key_to_account r;
     ps_bids := ps_bids r; ps_asks := ps_asks r; ps_shorts := ps_shorts r;
     ps_collateral := ps_collateral r; ps_slots := v;
     ps_market_history := ps_market_history r;
     ps_market_statuses := ps_market_statuses r;
     ps_recent_operations := ps_recent_operations r; ps_feeds := ps_feeds r;
     ps_burns := ps_burns r; ps_relative_bids := ps_relative_bids r;
     ps_relative_asks := ps_relative_asks r; ps_authorizations := ps_authorizations r;
     ps_asset_proposals := ps_asset_proposals r; ps_dirty_markets := ps_dirty_markets r;
     ps_market_transactions := ps_market_transactions r |}.

Definition set_ps_market_history (v : gmap market_history_key market_history_record) (r : pending_chain_state) : pending_chain_state :=
  {| ps_prev := ps_prev r; ps_assets := ps_assets r; ps_slates := ps_slates r;
     ps_accounts := ps_accounts r; ps_balances := ps_balances r;
     ps_account_id_index := ps_account_id_index r;
     ps_symbol_id_index := ps_symbol_id_index r; ps_transactions := ps_transactions r;
     ps_unique_transactions := ps_unique_transactions r;
     ps_properties := ps_properties r; ps_key_to_account := ps_key_to_account r;
     ps_bids := ps_bids r; ps_asks := ps_asks r; ps_shorts := ps_shorts r;
     ps_collateral := ps_collateral r; ps_slots := ps_slots r; ps_market_history := v;
     ps_market_statuses := ps_market_statuses r;
     ps_recent_operations := ps_recent_operations r; ps_feeds := ps_feeds r;
     ps_burns := ps_burns r; ps_relative_bids := ps_relative_bids r;
     ps_relative_asks := ps_relative_asks r; ps_authorizations := ps_authorizations r;
     ps_asset_proposals := ps_asset_proposals r; ps_dirty_markets := ps_dirty_markets r;
     ps_market_transactions := ps_market_transactions r |}.

Definition set_ps_market_statuses (v : gmap (Z * Z) market_status) (r : pending_chain_state) : pending_chain_state :=
  {| ps_prev := ps_prev r; ps_assets := ps_assets r; ps_slates := ps_slates r;
     ps_accounts := ps_accounts r; ps_balances := ps_balances r;
     ps_account_id_index := ps_account_id_index r;
     ps_symbol_id_index := ps_symbol_id_index r; ps_transactions := ps_transactions r;
     ps_unique_transactions := ps_unique_transactions r;
     ps_properties := ps_properties r; ps_key_to_account := ps_key_to_account r;
     ps_bids := ps_bids r; ps_asks := ps_asks r; ps_shorts := ps_shorts r;
     ps_collateral := ps_collateral r; ps_slots := ps_slots r;
     ps_market_history := ps_market_history r; ps_market_statuses := v;
     ps_recent_operations := ps_recent_operations r; ps_feeds := ps_feeds r;
     ps_burns := ps_burns r; ps_relative_bids := ps_relative_bids r;
     ps_relative_asks := ps_relative_asks r; ps_authorizations := ps_authorizations r;
     ps_asset_proposals := ps_asset_proposals r; ps_dirty_markets := ps_dirty_markets r;
     ps_market_transactions := ps_market_transactions r |}.

Definition set_ps_recent_operations (v : gmap Z (list operation)) (r : pending_chain_state) : pending_chain_state :=
  {| ps_prev := ps_prev r; ps_assets := ps_assets r; ps_slates := ps_slates r;
     ps_accounts := ps_accounts r; ps_balances := ps_balances r;
     ps_account_id_index := ps_account_id_index r;
     ps_symbol_id_index := ps_symbol_id_index r; ps_transactions := ps_transactions r;
     ps_unique_transactions := ps_unique_transactions r;
     ps_properties := ps_properties r; ps_key_to_account := ps_key_to_account r;
     ps_bids := ps_bids r; ps_asks := ps_asks r; ps_shorts := ps_shorts r;
     ps_collateral := ps_collateral r; ps_slots := ps_slots r;
     ps_market_history := ps_market_history r;
     ps_market_statuses := ps_market_statuses r; ps_recent_operations := v;
     ps_feeds := ps_feeds r; ps_burns := ps_burns r;
     ps_relative_bids := ps_relative_bids r; ps_relative_asks := ps_relative_asks r;
     ps_authorizations := ps_authorizations r;
     ps_asset_proposals := ps_asset_proposals r; ps_dirty_markets := ps_dirty_markets r;
     ps_market_transactions := ps_market_transactions r |}.

Definition set_ps_feeds (v : gmap feed_index feed_record) (r : pending_chain_state) : pending_chain_state :=
  {| ps_prev := ps_prev r; ps_assets := ps_assets r; ps_slates := ps_slates r;
     ps_accounts := ps_accounts r; ps_balances := ps_balances r;
     ps_account_id_index := ps_account_id_index r;
     ps_symbol_id_index := ps_symbol_id_index r; ps_transactions := ps_transactions r;
     ps_unique_transactions := ps_unique_transactions r;
     ps_properties := ps_properties r; ps_key_to_account := ps_key_to_account r;
     ps_bids := ps_bids r; ps_asks := ps_asks r; ps_shorts := ps_shorts r;
     ps_collateral := ps_collateral r; ps_slots := ps_slots r;
     ps_market_history := ps_market_history r;
     ps_market_statuses := ps_market_statuses r;
     ps_recent_operations := ps_recent_operations r; ps_feeds := v;
     ps_burns := ps_burns r; ps_relative_bids := ps_relative_bids r;
     ps_relative_asks := ps_relative_asks r; ps_authorizations := ps_authorizations r;
     ps_asset_proposals := ps_asset_proposals r; ps_dirty_markets := ps_dirty_markets r;
     ps_market_transactions := ps_market_transactions r |}.

Definition set_ps_burns (v : gmap burn_key burn_record_value) (r : pending_chain_state) : pending_chain_state :=
  {| ps_prev := ps_prev r; ps_assets := ps_assets r; ps_slates := ps_slates r;
     ps_accounts := ps_accounts r; ps_balances := ps_balances r;
     ps_account_id_index := ps_account_id_index r;
     ps_symbol_id_index := ps_symbol_id_index r; ps_transactions := ps_transactions r;
     ps_unique_transactions := ps_unique_transactions r;
     ps_properties := ps_properties r; ps_key_to_account := ps_key_to_account r;
     ps_bids := ps_bids r; ps_asks := ps_asks r; ps_shorts := ps_shorts r;
     ps_collateral := ps_collateral r; ps_slots := ps_slots r;
     ps_market_history := ps_market_history r;
     ps_market_statuses := ps_market_statuses r;
     ps_recent_operations := ps_recent_operations r; ps_feeds := ps_feeds r;
     ps_burns := v; ps_relative_bids := ps_relative_bids r;
     ps_relative_asks := ps_relative_asks r; ps_authorizations := ps_authorizations r;
     ps_asset_proposals := ps_asset_proposals r; ps_dirty_markets := ps_dirty_markets r;
     ps_market_transactions := ps_market_transactions r |}.

Definition set_ps_relative_bids (v : gmap market_index_key order_record) (r : pending_chain_state) : pending_chain_state :=
  {| ps_prev := ps_prev r; ps_assets := ps_assets r; ps_slates := ps_slates r;
     ps_accounts := ps_accounts r; ps_balances := ps_balances r;
     ps_account_id_index := ps_account_id_index r;
     ps_symbol_id_index := ps_symbol_id_index r; ps_transactions := ps_transactions r;
     ps_unique_transactions := ps_unique_transactions r;
     ps_properties := ps_properties r; ps_key_to_account := ps_key_to_account r;
     ps_bids := ps_bids r; ps_asks := ps_asks r; ps_shorts := ps_shorts r;
     ps_collateral := ps_collateral r; ps_slots := ps_slots r;
     ps_market_history := ps_market_history r;
     ps_market_statuses := ps_market_statuses r;
     ps_recent_operations := ps_recent_operations r; ps_feeds := ps_feeds r;
     ps_burns := ps_burns r; ps_relative_bids := v;
     ps_relative_asks := ps_relative_asks r; ps_authorizations := ps_authorizations r;
     ps_asset_proposals := ps_asset_proposals r; ps_dirty_markets := ps_dirty_markets r;
     ps_market_transactions := ps_market_transactions r |}.

Definition set_ps_relative_asks (v : gmap market_index_key order_record) (r : pending_chain_state) : pending_chain_state :=
  {| ps_prev := ps_prev r; ps_assets := ps_assets r; ps_slates := ps_slates r;
     ps_accounts := ps_accounts r; ps_balances := ps_balances r;
     ps_account_id_index := ps_account_id_index r;
     ps_symbol_id_index := ps_symbol_id_index r; ps_transactions := ps_transactions r;
     ps_unique_transactions := ps_unique_transactions r;
     ps_properties := ps_properties r; ps_key_to_account := ps_key_to_account r;
     ps_bids := ps_bids r; ps_asks := ps_asks r; ps_shorts := ps_shorts r;
     ps_collateral := ps_collateral r; ps_slots := ps_slots r;
     ps_market_history := ps_market_history r;
     ps_market_statuses := ps_market_statuses r;
     ps_recent_operations := ps_recent_operations r; ps_feeds := ps_feeds r;
     ps_burns := ps_burns r; ps_relative_bids := ps_relative_bids r;
     ps_relative_asks := v; ps_authorizations := ps_authorizations r;
     ps_asset_proposals := ps_asset_proposals r; ps_dirty_markets := ps_dirty_markets r;
     ps_market_transactions := ps_market_transactions r |}.

Definition set_ps_authorizations (v : gmap (Z * Z) Z) (r : pending_chain_state) : pending_chain_state :=
  {| ps_prev := ps_prev r; ps_assets := ps_assets r; ps_slates := ps_slates r;
     ps_accounts := ps_accounts r; ps_balances := ps_balances r;
     ps_account_id_index := ps_account_id_index r;
     ps_symbol_id_index := ps_symbol_id_index r; ps_transactions := ps_transactions r;
     ps_unique_transactions := ps_unique_transactions r;
     ps_properties := ps_properties r; ps_key_to_account := ps_key_to_account r;
     ps_bids := ps_bids r; ps_asks := ps_asks r; ps_shorts := ps_shorts r;
     ps_collateral := ps_collateral r; ps_slots := ps_slots r;
     ps_market_history := ps_market_history r;
     ps_market_statuses := ps_market_statuses r;
     ps_recent_operations := ps_recent_operations r; ps_feeds := ps_feeds r;
     ps_burns := ps_burns r; ps_relative_bids := ps_relative_bids r;
     ps_relative_asks := ps_relative_asks r; ps_authorizations := v;
     ps_asset_proposals := ps_asset_proposals r; ps_dirty_markets := ps_dirty_markets r;
     ps_market_transactions := ps_market_transactions r |}.

Definition set_ps_asset_proposals (v : gmap (Z * Z) proposal_record) (r : pending_chain_state) : pending_chain_state :=
  {| ps_prev := ps_prev r; ps_assets := ps_assets r; ps_slates := ps_slates r;
     ps_accounts := ps_accounts r; ps_balances := ps_balances r;
     ps_account_id_index := ps_account_id_index r;
     ps_symbol_id_index := ps_symbol_id_index r; ps_transactions := ps_transactions r;
     ps_unique_transactions := ps_unique_transactions r;
     ps_properties := ps_properties r; ps_key_to_account := ps_key_to_account r;
     ps_bids := ps_bids r; ps_asks := ps_asks r; ps_shorts := ps_shorts r;
     ps_collateral := ps_collateral r; ps_slots := ps_slots r;
     ps_market_history := ps_market_history r;
     ps_market_statuses := ps_market_statuses r;
     ps_recent_operations := ps_recent_operations r; ps_feeds := ps_feeds r;
     ps_burns := ps_burns r; ps_relative_bids := ps_relative_bids r;
     ps_relative_asks := ps_relative_asks r; ps_authorizations := ps_authorizations r;
     ps_asset_proposals := v; ps_dirty_markets := ps_dirty_markets r;
     ps_market_transactions := ps_market_transactions r |}.

Definition set_ps_dirty_markets (v : gset (Z * Z)) (r : pending_chain_state) : pending_chain_state :=
  {| ps_prev := ps_prev r; ps_assets := ps_assets r; ps_slates := ps_slates r;
     ps_accounts := ps_accounts r; ps_balances := ps_balances r;
     ps_account_id_index := ps_account_id_index r;
     ps_symbol_id_index := ps_symbol_id_index r; ps_transactions := ps_transactions r;
     ps_unique_transactions := ps_unique_transactions r;
     ps_properties := ps_properties r; ps_key_to_account := ps_key_to_account r;
     ps_bids := ps_bids r; ps_asks := ps_asks r; ps_shorts := ps_shorts r;
     ps_collateral := ps_collateral r; ps_slots := ps_slots r;
     ps_market_history := ps_market_history r;
     ps_market_statuses := ps_market_statuses r;
     ps_recent_operations := ps_recent_operations r; ps_feeds := ps_feeds r;
     ps_burns := ps_burns r; ps_relative_bids := ps_relative_bids r;
     ps_relative_asks := ps_relative_asks r; ps_authorizations := ps_authorizations r;
     ps_asset_proposals := ps_asset_proposals r; ps_dirty_markets := v;
     ps_market_transactions := ps_market_transactions r |}.

Definition set_ps_market_transactions (v : list market_transaction) (r : pending_chain_state) : pending_chain_state :=
  {| ps_prev := ps_prev r; ps_assets := ps_assets r; ps_slates := ps_slates r;
     ps_accounts := ps_accounts r; ps_balances := ps_balances r;
     ps_account_id_index := ps_account_id_index r;
     ps_symbol_id_index := ps_symbol_id_index r; ps_transactions := ps_transactions r;
     ps_unique_transactions := ps_unique_transactions r;
     ps_properties := ps_properties r; ps_key_to_account := ps_key_to_account r;
     ps_bids := ps_bids r; ps_asks := ps_asks r; ps_shorts := ps_shorts r;
     ps_collateral := ps_collateral r; ps_slots := ps_slots r;
     ps_market_history := ps_market_history r;
     ps_market_statuses := ps_market_statuses r;
     ps_recent_operations := ps_recent_operations r; ps_feeds := ps_feeds r;
     ps_burns := ps_burns r; ps_relative_bids := ps_relative_bids r;
     ps_relative_asks := ps_relative_asks r; ps_authorizations := ps_authorizations r;
     ps_asset_proposals := ps_asset_proposals r; ps_dirty_markets := ps_dirty_markets r;
     ps_market_transactions := v |}.

(** [pending_chain_state( prev_state )] *)
Definition new_pending (prev : option chain_view) : pending_chain_state :=
  mk_pending prev ∅ ∅ ∅ ∅ ∅ ∅ ∅ ∅ ∅ ∅ ∅ ∅ ∅ ∅ ∅ ∅ ∅ ∅ ∅ ∅ ∅ ∅ ∅ ∅ ∅ [].

(** A lookup the buffer answers, or else the previous state. *)
Definition overlay {A} (own : option A) (prev : option chain_view)
    (f : chain_view -> option A) : option A :=
  match own with Some a => Some a | None => prev ≫= f end.

(** The same where the previous state may throw. *)
Definition overlay_r {A} (own : option A) (prev : option chain_view)
    (f : chain_view -> result (option A)) : result (option A) :=
  match own with
  | Some a => Ok (Some a)
  | None => match prev with Some v => f v | None => Ok None end
  end.

Section getters.
Implicit Types p : pending_chain_state.

Definition pending_get_head_block_num p : Z := from_option cv_head_block_num 0 (ps_prev p).
Definition pending_now p : Z := from_option cv_now 0 (ps_prev p).

Definition pending_get_property p (id : Z) : result variant :=
  match ps_properties p !! id with
  | Some v => Ok v
  | None => match ps_prev p with Some v => cv_property v id | None => Ok v_null end
  end.

Definition pending_get_asset_record p (id : Z) : option asset_record :=
  overlay (ps_assets p !! id) (ps_prev p) (fun v => cv_asset v id).

(** By symbol; "BTSX" reads as "BTS". *)
Definition pending_get_asset_record_by_symbol p (symbol : string) : option asset_record :=
  match ps_symbol_id_index p !! (if String.eqb symbol "BTSX" then "BTS"%string else symbol) with
  | Some id => pending_get_asset_record p id
  | None => ps_prev p ≫= fun v => cv_asset_by_symbol v symbol
  end.

Definition pending_get_balance_record p (id : Z) : option balance_record :=
  overlay (ps_balances p !! id) (ps_prev p) (fun v => cv_balance v id).

Definition pending_get_delegate_slate p (id : Z) : option delegate_slate :=
  overlay (ps_slates p !! id) (ps_prev p) (fun v => cv_slate v id).

Definition pending_get_account_record p (id : Z) : option account_record :=
  overlay (ps_accounts p !! id) (ps_prev p) (fun v => cv_account v id).

Definition pending_get_account_record_by_address p (owner : Z) : option account_record :=
  match ps_key_to_account p !! owner with
  | Some id => pending_get_account_record p id
  | None => ps_prev p ≫= fun v => cv_account_by_address v owner
  end.

Definition pending_get_account_record_by_name p (name : string) : option account_record :=
  match ps_account_id_index p !! name with
  | Some id => pending_get_account_record p id
  | None => ps_prev p ≫= fun v => cv_account_by_name v name
  end.

Definition pending_get_transaction p (id : Z) : result (option transaction_record) :=
  overlay_r (ps_transactions p !! id) (ps_prev p) (fun v => cv_transaction v id).

Definition pending_is_known_transaction p (exp id : Z) : bool :=
  if bool_decide (id ∈ ps_unique_transactions p) then true
  else from_option (fun v => cv_is_known_transaction v exp id) false (ps_prev p).

Definition pending_get_bid_record p (k : market_index_key) : option order_record :=
  overlay (ps_bids p !! k) (ps_prev p) (fun v => cv_bid v k).
Definition pending_get_ask_record p (k : market_index_key) : option order_record :=
  overlay (ps_asks p !! k) (ps_prev p) (fun v => cv_ask v k).
Definition pending_get_relative_bid_record p (k : market_index_key) : option order_record :=
  overlay (ps_relative_bids p !! k) (ps_prev p) (fun v => cv_relative_bid v k).
Definition pending_get_relative_ask_record p (k : market_index_key) : option order_record :=
  overlay (ps_relative_asks p !! k) (ps_prev p) (fun v => cv_relative_ask v k).
Definition pending_get_short_record p (k : market_index_key) : option order_record :=
  overlay (ps_shorts p !! k) (ps_prev p) (fun v => cv_short v k).
Definition pending_get_collateral_record p (k : market_index_key) : option collateral_record :=
  overlay (ps_collateral p !! k) (ps_prev p) (fun v => cv_collateral v k).

Definition pending_get_slot_record p (t : Z) : result (option slot_record) :=
  overlay_r (ps_slots p !! t) (ps_prev p) (fun v => cv_slot v t).

(** History is looked up in the buffer only. *)
Definition pending_get_market_history_record p (k : market_history_key)
    : result (option market_history_record) :=
  Ok (ps_market_history p !! k).

Definition pending_get_market_status p (m : Z * Z) : option market_status :=
  overlay (ps_market_statuses p !! m) (ps_prev p) (fun v => cv_market_status v m).

Definition pending_get_feed p (i : feed_index) : option feed_record :=
  overlay (ps_feeds p !! i) (ps_prev p) (fun v => cv_feed v i).

Definition pending_get_median_delegate_price p (quote_id base_id : Z) : result (option price) :=
  match ps_prev p with Some v => cv_median_price v quote_id base_id | None => Ok None end.

Definition pending_fetch_burn_record p (k : burn_key) : result (option burn_record_value) :=
  overlay_r (ps_burns p !! k) (ps_prev p) (fun v => cv_burn v k).

(** An entry of -1 hides the previous state's authorization. *)
Definition pending_get_authorization p (k : Z * Z) : option Z :=
  match ps_authorizations p !! k with
  | Some oid => if oid =? null_object_id then None else Some oid
  | None => ps_prev p ≫= fun v => cv_authorization v k
  end.

Definition pending_fetch_asset_proposal p (k : Z * Z) : option proposal_record :=
  overlay (ps_asset_proposals p !! k) (ps_prev p) (fun v => cv_proposal v k).
End getters.

(** A pending state as the [chain_interface] of the states above it. *)
Definition pending_view (p : pending_chain_state) : chain_view := {|
  cv_now := pending_now p;
  cv_head_block_num := pending_get_head_block_num p;
  cv_property := pending_get_property p;
  cv_asset := pending_get_asset_record p;
  cv_asset_by_symbol := pending_get_asset_record_by_symbol p;
  cv_account := pending_get_account_record p;
  cv_account_by_name := pending_get_account_record_by_name p;
  cv_account_by_address := pending_get_account_record_by_address p;
  cv_balance := pending_get_balance_record p;
  cv_slate := pending_get_delegate_slate p;
  cv_transaction := pending_get_transaction p;
  cv_is_known_transaction := pending_is_known_transaction p;
  cv_bid := pending_get_bid_record p;
  cv_ask := pending_get_ask_record p;
  cv_relative_bid := pending_get_relative_bid_record p;
  cv_relative_ask := pending_get_relative_ask_record p;
  cv_short := pending_get_short_record p;
  cv_collateral := pending_get_collateral_record p;
  cv_slot := pending_get_slot_record p;
  cv_market_status := pending_get_market_status p;
  cv_market_history := pending_get_market_history_record p;
  cv_feed := pending_get_feed p;
  cv_burn := pending_fetch_burn_record p;
  cv_authorization := pending_get_authorization p;
  cv_proposal := pending_fetch_asset_proposal p;
  cv_median_price := pending_get_median_delegate_price p
|}.

(** ** The update methods *)

Section stores.
Context `{Crypto}.
Implicit Types p : pending_chain_state.

Definition pending_set_property (id : Z) (v : variant) p : pending_chain_state :=
  set_ps_properties (<[id := v]> (ps_properties p)) p.

Definition pending_store_asset_record (r : asset_record) p : pending_chain_state :=
  set_ps_assets (<[as_id r := r]> (ps_assets p)) p.

Definition pending_store_balance_record (r : balance_record) p : pending_chain_state :=
  set_ps_balances (<[balance_id r := r]> (ps_balances p)) p.

(** The record and its name, owner, active and signing key indices. *)
Definition pending_store_account_record (r : account_record) p : result pending_chain_state :=
  let idx1 := <[account_owner_address r := ac_id r]> (ps_key_to_account p) in
  let idx2 := if account_is_retracted r then idx1
              else <[account_active_address r := ac_id r]> idx1 in
  idx3 ← (if account_is_delegate r
          then a ← account_signing_address r; Ok (<[a := ac_id r]> idx2)
          else Ok idx2);
  Ok (set_ps_key_to_account idx3
        (set_ps_account_id_index (<[ac_name r := ac_id r]> (ps_account_id_index p))
           (set_ps_accounts (<[ac_id r := r]> (ps_accounts p)) p))).

(** A queue of the last [MAX_RECENT_OPERATIONS] operations of each type. *)
Definition push_recent (o : operation) (q : list operation) : list operation :=
  let q' := q ++ [o] in
  if Z.of_nat (List.length q') >? MAX_RECENT_OPERATIONS then tail q' else q'.

Definition pending_store_recent_operation (o : operation) p : pending_chain_state :=
  let q := default [] (ps_recent_operations p !! op_type o) in
  set_ps_recent_operations (<[op_type o := push_recent o q]> (ps_recent_operations p)) p.

Definition pending_get_recent_operations (t : Z) p : list operation :=
  default [] (ps_recent_operations p !! t).

Definition pending_store_transaction (id : Z) (rec : transaction_record) p
    : result pending_chain_state :=
  let p1 := set_ps_transactions (<[id := rec]> (ps_transactions p)) p in
  p2 ← (match ps_prev p with
        | None => Ok p1
        | Some prev =>
            prop ← cv_property prev chain_id_prop;
            chain ← variant_as_int prop;
            let d := trx_digest (tr_trx rec) chain in
            _ ← (if cv_head_block_num prev >=? BTS_V0_4_26_FORK_BLOCK_NUM
                 then fc_assert (negb (bool_decide (d ∈ ps_unique_transactions p)))
                 else Ok tt);
            Ok (set_ps_unique_transactions ({[ d ]} ∪ ps_unique_transactions p1) p1)
        end);
  Ok (foldl (fun p o => pending_store_recent_operation o p) p2 (tx_operations (tr_trx rec))).

Definition pending_store_delegate_slate (id : Z) (s : delegate_slate) p : pending_chain_state :=
  set_ps_slates (<[id := s]> (ps_slates p)) p.

(** Every order store marks its market dirty. *)
Definition pending_set_market_dirty (quote_id base_id : Z) p : pending_chain_state :=
  set_ps_dirty_markets ({[ (quote_id, base_id) ]} ∪ ps_dirty_markets p) p.
Definition mark_order_market (k : market_index_key) p : pending_chain_state :=
  set_ps_dirty_markets ({[ asset_pair (mk_order_price k) ]} ∪ ps_dirty_markets p) p.

Definition pending_store_bid_record (k : market_index_key) (r : order_record) p :=
  mark_order_market k (set_ps_bids (<[k := r]> (ps_bids p)) p).
Definition pending_store_ask_record (k : market_index_key) (r : order_record) p :=
  mark_order_market k (set_ps_asks (<[k := r]> (ps_asks p)) p).
Definition pending_store_relative_bid_record (k : market_index_key) (r : order_record) p :=
  mark_order_market k (set_ps_relative_bids (<[k := r]> (ps_relative_bids p)) p).
Definition pending_store_relative_ask_record (k : market_index_key) (r : order_record) p :=
  mark_order_market k (set_ps_relative_asks (<[k := r]> (ps_relative_asks p)) p).
Definition pending_store_short_record (k : market_index_key) (r : order_record) p :=
  mark_order_market k (set_ps_shorts (<[k := r]> (ps_shorts p)) p).
Definition pending_store_collateral_record (k : market_index_key) (r : collateral_record) p :=
  mark_order_market k (set_ps_collateral (<[k := r]> (ps_collateral p)) p).

Definition pending_store_slot_record (r : slot_record) p : pending_chain_state :=
  set_ps_slots (<[so_start_time r := r]> (ps_slots p)) p.
Definition pending_store_market_history_record (k : market_history_key)
    (r : market_history_record) p : pending_chain_state :=
  set_ps_market_history (<[k := r]> (ps_market_history p)) p.
Definition pending_store_market_status (s : market_status) p : pending_chain_state :=
  set_ps_market_statuses (<[(mst_quote_id s, mst_base_id s) := s]> (ps_market_statuses p)) p.
Definition pending_set_feed (r : feed_record) p : pending_chain_state :=
  set_ps_feeds (<[fr_feed r := r]> (ps_feeds p)) p.
Definition pending_store_burn_record (k : burn_key) (v : burn_record_value) p
    : pending_chain_state :=
  set_ps_burns (<[k := v]> (ps_burns p)) p.
Definition pending_authorize (k : Z * Z) (oid : Z) p : pending_chain_state :=
  set_ps_authorizations (<[k := oid]> (ps_authorizations p)) p.
Definition pending_deauthorize (k : Z * Z) p : pending_chain_state :=
  pending_authorize k null_object_id p.
Definition pending_store_asset_proposal (r : proposal_record) p : pending_chain_state :=
  set_ps_asset_proposals (<[(pr_asset_id r, pr_proposal_id r) := r]> (ps_asset_proposals p)) p.

(** [chain_interface::set_dirty_markets]: a property of the chain. *)
Definition pending_set_dirty_markets (d : list (Z * Z)) p : pending_chain_state :=
  pending_set_property dirty_markets_prop (v_pairs d) p.

Definition pending_set_market_transactions (trxs : list market_transaction) p
    : pending_chain_state :=
  set_ps_market_transactions trxs p.

#[global] Instance pending_chain_store : ChainStore pending_chain_state := {|
  cs_view := pending_view;
  cs_set_property := pending_set_property;
  cs_store_asset := pending_store_asset_record;
  cs_store_account := pending_store_account_record;
  cs_store_balance := pending_store_balance_record;
  cs_authorize := pending_authorize;
  cs_store_bid := pending_store_bid_record;
  cs_store_relative_bid := pending_store_relative_bid_record;
  cs_store_ask := pending_store_ask_record;
  cs_store_relative_ask := pending_store_relative_ask_record;
  cs_store_short := pending_store_short_record;
  cs_store_collateral := pending_store_collateral_record;
  cs_store_transaction := pending_store_transaction;
  cs_store_slate := pending_store_delegate_slate;
  cs_store_slot := pending_store_slot_record;
  cs_store_market_history := pending_store_market_history_record;
  cs_store_market_status := pending_store_market_status;
  cs_store_proposal := pending_store_asset_proposal;
  cs_set_feed := pending_set_feed;
  cs_set_market_dirty q b p := Ok (pending_set_market_dirty q b p);
  cs_store_recent_operation := pending_store_recent_operation;
  cs_store_burn := pending_store_burn_record;
  cs_set_market_transactions l p := Ok (pending_set_market_transactions l p);
  cs_set_dirty_markets := pending_set_dirty_markets
|}.
End stores.
