(* ===== verification/ChainDatabase.v ===== *)
(** * ChainDatabase: the record stores of chain_database.cpp

    The level maps of [chain_database_impl] and the query and update methods
    over them: what the database keeps of each kind of record, when a store is a
    removal, and the secondary indices (symbol, account name, key address,
    delegate votes, collateral expiration).  A [db::level_map] or
    [cached_level_map] is a finite map; [_track_stats], the head block and the
    chain id are fields. *)
From S2P Require Import Prelude Config Fc Asset Records ChainInterface.
From stdpp Require Import sorting.
From Stdlib Require Import String.
#[local] Open Scope Z_scope.

Record chain_database := mk_db {
  db_head_block_num : Z;
  db_now : Z;
  db_chain_id : Z;
  db_track_stats : bool;
  db_properties : gmap Z variant;
  db_assets : gmap Z asset_record;
  db_symbol_index : gmap string Z;
  db_accounts : gmap Z account_record;
  db_account_index : gmap string Z;
  db_address_to_account : gmap Z Z;
  db_delegate_votes : gset (Z * Z);
  db_balances : gmap Z balance_record;
  db_slates : gmap Z delegate_slate;
  db_transactions : gmap Z transaction_record;
  db_unique_transactions : gmap Z (gset Z);
  db_bids : gmap market_index_key order_record;
  db_asks : gmap market_index_key order_record;
  db_relative_bids : gmap market_index_key order_record;
  db_relative_asks : gmap market_index_key order_record;
  db_shorts : gmap market_index_key order_record;
  db_collateral : gmap market_index_key collateral_record;
  db_collateral_expiration : gset (Z * Z * market_index_key);
  db_slots : gmap Z slot_record;
  db_market_history : gmap market_history_key market_history_record;
  db_market_statuses : gmap (Z * Z) market_status;
  db_market_transactions : gmap Z (list market_transaction);
  db_feeds : gmap feed_index feed_record;
  db_burns : gmap burn_key burn_record_value;
  db_authorizations : gmap (Z * Z) Z;
  db_asset_proposals : gmap (Z * Z) proposal_record;
  db_recent_operations : gmap Z (list operation)
}.

Definition set_db_head_block_num (v : Z) (r : chain_database) : chain_database :=
  {| db_head_block_num := v; db_now := db_now r;
     db_chain_id := db_chain_id r; db_track_stats := db_track_stats r;
     db_properties := db_properties r; db_assets := db_assets r; db_symbol_index := db_symbol_index r;
     db_accounts := db_accounts r; db_account_index := db_account_index r;
     db_address_to_account := db_address_to_account r;
     db_delegate_votes := db_delegate_votes r; db_balances := db_balances r;
     db_slates := db_slates r; db_transactions := db_transactions r;
     db_unique_transactions := db_unique_transactions r; db_bids := db_bids r;
     db_asks := db_asks r; db_relative_bids := db_relative_bids r;
     db_relative_asks := db_relative_asks r; db_shorts := db_shorts r;
     db_collateral := db_collateral r;
     db_collateral_expiration := db_collateral_expiration r; db_slots := db_slots r;
     db_market_history := db_market_history r;
     db_market_statuses := db_market_statuses r;
     db_market_transactions := db_market_transactions r; db_feeds := db_feeds r;
     db_burns := db_burns r; db_authorizations := db_authorizations r;
     db_asset_proposals := db_asset_proposals r;
     db_recent_operations := db_recent_operations r |}.

Definition set_db_chain_id (v : Z) (r : chain_database) : chain_database :=
  {| db_head_block_num := db_head_block_num r; db_now := db_now r;
     db_chain_id := v; db_track_stats := db_track_stats r;
     db_properties := db_properties r; db_assets := db_assets r; db_symbol_index := db_symbol_index r;
     db_accounts := db_accounts r; db_account_index := db_account_index r;
     db_address_to_account := db_address_to_account r;
     db_delegate_votes := db_delegate_votes r; db_balances := db_balances r;
     db_slates := db_slates r; db_transactions := db_transactions r;
     db_unique_transactions := db_unique_transactions r; db_bids := db_bids r;
     db_asks := db_asks r; db_relative_bids := db_relative_bids r;
     db_relative_asks := db_relative_asks r; db_shorts := db_shorts r;
     db_collateral := db_collateral r;
     db_collateral_expiration := db_collateral_expiration r; db_slots := db_slots r;
     db_market_history := db_market_history r;
     db_market_statuses := db_market_statuses r;
     db_market_transactions := db_market_transactions r; db_feeds := db_feeds r;
     db_burns := db_burns r; db_authorizations := db_authorizations r;
     db_asset_proposals := db_asset_proposals r;
     db_recent_operations := db_recent_operations r |}.

Definition set_db_now (v : Z) (r : chain_database) : chain_database :=
  {| db_head_block_num := db_head_block_num r; db_now := v;
     db_chain_id := db_chain_id r; db_track_stats := db_track_stats r;
     db_properties := db_properties r; db_assets := db_assets r; db_symbol_index := db_symbol_index r;
     db_accounts := db_accounts r; db_account_index := db_account_index r;
     db_address_to_account := db_address_to_account r;
     db_delegate_votes := db_delegate_votes r; db_balances := db_balances r;
     db_slates := db_slates r; db_transactions := db_transactions r;
     db_unique_transactions := db_unique_transactions r; db_bids := db_bids r;
     db_asks := db_asks r; db_relative_bids := db_relative_bids r;
     db_relative_asks := db_relative_asks r; db_shorts := db_shorts r;
     db_collateral := db_collateral r;
     db_collateral_expiration := db_collateral_expiration r; db_slots := db_slots r;
     db_market_history := db_market_history r;
     db_market_statuses := db_market_statuses r;
     db_market_transactions := db_market_transactions r; db_feeds := db_feeds r;
     db_burns := db_burns r; db_authorizations := db_authorizations r;
     db_asset_proposals := db_asset_proposals r;
     db_recent_operations := db_recent_operations r |}.

Definition set_db_properties (v : gmap Z variant) (r : chain_database) : chain_database :=
  {| db_head_block_num := db_head_block_num r; db_now := db_now r;
     db_chain_id := db_chain_id r; db_track_stats := db_track_stats r;
     db_properties := v; db_assets := db_assets r; db_symbol_index := db_symbol_index r;
     db_accounts := db_accounts r; db_account_index := db_account_index r;
     db_address_to_account := db_address_to_account r;
     db_delegate_votes := db_delegate_votes r; db_balances := db_balances r;
     db_slates := db_slates r; db_transactions := db_transactions r;
     db_unique_transactions := db_unique_transactions r; db_bids := db_bids r;
     db_asks := db_asks r; db_relative_bids := db_relative_bids r;
     db_relative_asks := db_relative_asks r; db_shorts := db_shorts r;
     db_collateral := db_collateral r;
     db_collateral_expiration := db_collateral_expiration r; db_slots := db_slots r;
     db_market_history := db_market_history r;
     db_market_statuses := db_market_statuses r;
     db_market_transactions := db_market_transactions r; db_feeds := db_feeds r;
     db_burns := db_burns r; db_authorizations := db_authorizations r;
     db_asset_proposals := db_asset_proposals r;
     db_recent_operations := db_recent_operations r |}.

Definition set_db_assets (v : gmap Z asset_record) (r : chain_database) : chain_database :=
  {| db_head_block_num := db_head_block_num r; db_now := db_now r;
     db_chain_id := db_chain_id r; db_track_stats := db_track_stats r;
     db_properties := db_properties r; db_assets := v;
     db_symbol_index := db_symbol_index r; db_accounts := db_accounts r;
     db_account_index := db_account_index r;
     db_address_to_account := db_address_to_account r;
     db_delegate_votes := db_delegate_votes r; db_balances := db_balances r;
     db_slates := db_slates r; db_transactions := db_transactions r;
     db_unique_transactions := db_unique_transactions r; db_bids := db_bids r;
     db_asks := db_asks r; db_relative_bids := db_relative_bids r;
     db_relative_asks := db_relative_asks r; db_shorts := db_shorts r;
     db_collateral := db_collateral r;
     db_collateral_expiration := db_collateral_expiration r; db_slots := db_slots r;
     db_market_history := db_market_history r;
     db_market_statuses := db_market_statuses r;
     db_market_transactions := db_market_transactions r; db_feeds := db_feeds r;
     db_burns := db_burns r; db_authorizations := db_authorizations r;
     db_asset_proposals := db_asset_proposals r;
     db_recent_operations := db_recent_operations r |}.

Definition set_db_symbol_index (v : gmap string Z) (r : chain_database) : chain_database :=
  {| db_head_block_num := db_head_block_num r; db_now := db_now r;
     db_chain_id := db_chain_id r; db_track_stats := db_track_stats r;
     db_properties := db_properties r; db_assets := db_assets r; db_symbol_index := v;
     db_accounts := db_accounts r; db_account_index := db_account_index r;
     db_address_to_account := db_address_to_account r;
     db_delegate_votes := db_delegate_votes r; db_balances := db_balances r;
     db_slates := db_slates r; db_transactions := db_transactions r;
     db_unique_transactions := db_unique_transactions r; db_bids := db_bids r;
     db_asks := db_asks r; db_relative_bids := db_relative_bids r;
     db_relative_asks := db_relative_asks r; db_shorts := db_shorts r;
     db_collateral := db_collateral r;
     db_collateral_expiration := db_collateral_expiration r; db_slots := db_slots r;
     db_market_history := db_market_history r;
     db_market_statuses := db_market_statuses r;
     db_market_transactions := db_market_transactions r; db_feeds := db_feeds r;
     db_burns := db_burns r; db_authorizations := db_authorizations r;
     db_asset_proposals := db_asset_proposals r;
     db_recent_operations := db_recent_operations r |}.

Definition set_db_accounts (v : gmap Z account_record) (r : chain_database) : chain_database :=
  {| db_head_block_num := db_head_block_num r; db_now := db_now r;
     db_chain_id := db_chain_id r; db_track_stats := db_track_stats r;
     db_properties := db_properties r; db_assets := db_assets r;
     db_symbol_index := db_symbol_index r; db_accounts := v;
     db_account_index := db_account_index r;
     db_address_to_account := db_address_to_account r;
     db_delegate_votes := db_delegate_votes r; db_balances := db_balances r;
     db_slates := db_slates r; db_transactions := db_transactions r;
     db_unique_transactions := db_unique_transactions r; db_bids := db_bids r;
     db_asks := db_asks r; db_relative_bids := db_relative_bids r;
     db_relative_asks := db_relative_asks r; db_shorts := db_shorts r;
     db_collateral := db_collateral r;
     db_collateral_expiration := db_collateral_expiration r; db_slots := db_slots r;
     db_market_history := db_market_history r;
     db_market_statuses := db_market_statuses r;
     db_market_transactions := db_market_transactions r; db_feeds := db_feeds r;
     db_burns := db_burns r; db_authorizations := db_authorizations r;
     db_asset_proposals := db_asset_proposals r;
     db_recent_operations := db_recent_operations r |}.

Definition set_db_account_index (v : gmap string Z) (r : chain_database) : chain_database :=
  {| db_head_block_num := db_head_block_num r; db_now := db_now r;
     db_chain_id := db_chain_id r; db_track_stats := db_track_stats r;
     db_properties := db_properties r; db_assets := db_assets r;
     db_symbol_index := db_symbol_index r; db_accounts := db_accounts r;
     db_account_index := v; db_address_to_account := db_address_to_account r;
     db_delegate_votes := db_delegate_votes r; db_balances := db_balances r;
     db_slates := db_slates r; db_transactions := db_transactions r;
     db_unique_transactions := db_unique_transactions r; db_bids := db_bids r;
     db_asks := db_asks r; db_relative_bids := db_relative_bids r;
     db_relative_asks := db_relative_asks r; db_shorts := db_shorts r;
     db_collateral := db_collateral r;
     db_collateral_expiration := db_collateral_expiration r; db_slots := db_slots r;
     db_market_history := db_market_history r;
     db_market_statuses := db_market_statuses r;
     db_market_transactions := db_market_transactions r; db_feeds := db_feeds r;
     db_burns := db_burns r; db_authorizations := db_authorizations r;
     db_asset_proposals := db_asset_proposals r;
     db_recent_operations := db_recent_operations r |}.

Definition set_db_address_to_account (v : gmap Z Z) (r : chain_database) : chain_database :=
  {| db_head_block_num := db_head_block_num r; db_now := db_now r;
     db_chain_id := db_chain_id r; db_track_stats := db_track_stats r;
     db_properties := db_properties r; db_assets := db_assets r;
     db_symbol_index := db_symbol_index r; db_accounts := db_accounts r;
     db_account_index := db_account_index r; db_address_to_account := v;
     db_delegate_votes := db_delegate_votes r; db_balances := db_balances r;
     db_slates := db_slates r; db_transactions := db_transactions r;
     db_unique_transactions := db_unique_transactions r; db_bids := db_bids r;
     db_asks := db_asks r; db_relative_bids := db_relative_bids r;
     db_relative_asks := db_relative_asks r; db_shorts := db_shorts r;
     db_collateral := db_collateral r;
     db_collateral_expiration := db_collateral_expiration r; db_slots := db_slots r;
     db_market_history := db_market_history r;
     db_market_statuses := db_market_statuses r;
     db_market_transactions := db_market_transactions r; db_feeds := db_feeds r;
     db_burns := db_burns r; db_authorizations := db_authorizations r;
     db_asset_proposals := db_asset_proposals r;
     db_recent_operations := db_recent_operations r |}.

Definition set_db_delegate_votes (v : gset (Z * Z)) (r : chain_database) : chain_database :=
  {| db_head_block_num := db_head_block_num r; db_now := db_now r;
     db_chain_id := db_chain_id r; db_track_stats := db_track_stats r;
     db_properties := db_properties r; db_assets := db_assets r;
     db_symbol_index := db_symbol_index r; db_accounts := db_accounts r;
     db_account_index := db_account_index r;
     db_address_to_account := db_address_to_account r; db_delegate_votes := v;
     db_balances := db_balances r; db_slates := db_slates r;
     db_transactions := db_transactions r;
     db_unique_transactions := db_unique_transactions r; db_bids := db_bids r;
     db_asks := db_asks r; db_relative_bids := db_relative_bids r;
     db_relative_asks := db_relative_asks r; db_shorts := db_shorts r;
     db_collateral := db_collateral r;
     db_collateral_expiration := db_collateral_expiration r; db_slots := db_slots r;
     db_market_history := db_market_history r;
     db_market_statuses := db_market_statuses r;
     db_market_transactions := db_market_transactions r; db_feeds := db_feeds r;
     db_burns := db_burns r; db_authorizations := db_authorizations r;
     db_asset_proposals := db_asset_proposals r;
     db_recent_operations := db_recent_operations r |}.

Definition set_db_balances (v : gmap Z balance_record) (r : chain_database) : chain_database :=
  {| db_head_block_num := db_head_block_num r; db_now := db_now r;
     db_chain_id := db_chain_id r; db_track_stats := db_track_stats r;
     db_properties := db_properties r; db_assets := db_assets r;
     db_symbol_index := db_symbol_index r; db_accounts := db_accounts r;
     db_account_index := db_account_index r;
     db_address_to_account := db_address_to_account r;
     db_delegate_votes := db_delegate_votes r; db_balances := v;
     db_slates := db_slates r; db_transactions := db_transactions r;
     db_unique_transactions := db_unique_transactions r; db_bids := db_bids r;
     db_asks := db_asks r; db_relative_bids := db_relative_bids r;
     db_relative_asks := db_relative_asks r; db_shorts := db_shorts r;
     db_collateral := db_collateral r;
     db_collateral_expiration := db_collateral_expiration r; db_slots := db_slots r;
     db_market_history := db_market_history r;
     db_market_statuses := db_market_statuses r;
     db_market_transactions := db_market_transactions r; db_feeds := db_feeds r;
     db_burns := db_burns r; db_authorizations := db_authorizations r;
     db_asset_proposals := db_asset_proposals r;
     db_recent_operations := db_recent_operations r |}.

Definition set_db_slates (v : gmap Z delegate_slate) (r : chain_database) : chain_database :=
  {| db_head_block_num := db_head_block_num r; db_now := db_now r;
     db_chain_id := db_chain_id r; db_track_stats := db_track_stats r;
     db_properties := db_properties r; db_assets := db_assets r;
     db_symbol_index := db_symbol_index r; db_accounts := db_accounts r;
     db_account_index := db_account_index r;
     db_address_to_account := db_address_to_account r;
     db_delegate_votes := db_delegate_votes r; db_balances := db_balances r;
     db_slates := v; db_transactions := db_transactions r;
     db_unique_transactions := db_unique_transactions r; db_bids := db_bids r;
     db_asks := db_asks r; db_relative_bids := db_relative_bids r;
     db_relative_asks := db_relative_asks r; db_shorts := db_shorts r;
     db_collateral := db_collateral r;
     db_collateral_expiration := db_collateral_expiration r; db_slots := db_slots r;
     db_market_history := db_market_history r;
     db_market_statuses := db_market_statuses r;
     db_market_transactions := db_market_transactions r; db_feeds := db_feeds r;
     db_burns := db_burns r; db_authorizations := db_authorizations r;
     db_asset_proposals := db_asset_proposals r;
     db_recent_operations := db_recent_operations r |}.

Definition set_db_transactions (v : gmap Z transaction_record) (r : chain_database) : chain_database :=
  {| db_head_block_num := db_head_block_num r; db_now := db_now r;
     db_chain_id := db_chain_id r; db_track_stats := db_track_stats r;
     db_properties := db_properties r; db_assets := db_assets r;
     db_symbol_index := db_symbol_index r; db_accounts := db_accounts r;
     db_account_index := db_account_index r;
     db_address_to_account := db_address_to_account r;
     db_delegate_votes := db_delegate_votes r; db_balances := db_balances r;
     db_slates := db_slates r; db_transactions := v;
     db_unique_transactions := db_unique_transactions r; db_bids := db_bids r;
     db_asks := db_asks r; db_relative_bids := db_relative_bids r;
     db_relative_asks := db_relative_asks r; db_shorts := db_shorts r;
     db_collateral := db_collateral r;
     db_collateral_expiration := db_collateral_expiration r; db_slots := db_slots r;
     db_market_history := db_market_history r;
     db_market_statuses := db_market_statuses r;
     db_market_transactions := db_market_transactions r; db_feeds := db_feeds r;
     db_burns := db_burns r; db_authorizations := db_authorizations r;
     db_asset_proposals := db_asset_proposals r;
     db_recent_operations := db_recent_operations r |}.

Definition set_db_unique_transactions (v : gmap Z (gset Z)) (r : chain_database) : chain_database :=
  {| db_head_block_num := db_head_block_num r; db_now := db_now r;
     db_chain_id := db_chain_id r; db_track_stats := db_track_stats r;
     db_properties := db_properties r; db_assets := db_assets r;
     db_symbol_index := db_symbol_index r; db_accounts := db_accounts r;
     db_account_index := db_account_index r;
     db_address_to_account := db_address_to_account r;
     db_delegate_votes := db_delegate_votes r; db_balances := db_balances r;
     db_slates := db_slates r; db_transactions := db_transactions r;
     db_unique_transactions := v; db_bids := db_bids r; db_asks := db_asks r;
     db_relative_bids := db_relative_bids r; db_relative_asks := db_relative_asks r;
     db_shorts := db_shorts r; db_collateral := db_collateral r;
     db_collateral_expiration := db_collateral_expiration r; db_slots := db_slots r;
     db_market_history := db_market_history r;
     db_market_statuses := db_market_statuses r;
     db_market_transactions := db_market_transactions r; db_feeds := db_feeds r;
     db_burns := db_burns r; db_authorizations := db_authorizations r;
     db_asset_proposals := db_asset_proposals r;
     db_recent_operations := db_recent_operations r |}.

Definition set_db_bids (v : gmap market_index_key order_record) (r : chain_database) : chain_database :=
  {| db_head_block_num := db_head_block_num r; db_now := db_now r;
     db_chain_id := db_chain_id r; db_track_stats := db_track_stats r;
     db_properties := db_properties r; db_assets := db_assets r;
     db_symbol_index := db_symbol_index r; db_accounts := db_accounts r;
     db_account_index := db_account_index r;
     db_address_to_account := db_address_to_account r;
     db_delegate_votes := db_delegate_votes r; db_balances := db_balances r;
     db_slates := db_slates r; db_transactions := db_transactions r;
     db_unique_transactions := db_unique_transactions r; db_bids := v;
     db_asks := db_asks r; db_relative_bids := db_relative_bids r;
     db_relative_asks := db_relative_asks r; db_shorts := db_shorts r;
     db_collateral := db_collateral r;
     db_collateral_expiration := db_collateral_expiration r; db_slots := db_slots r;
     db_market_history := db_market_history r;
     db_market_statuses := db_market_statuses r;
     db_market_transactions := db_market_transactions r; db_feeds := db_feeds r;
     db_burns := db_burns r; db_authorizations := db_authorizations r;
     db_asset_proposals := db_asset_proposals r;
     db_recent_operations := db_recent_operations r |}.

Definition set_db_asks (v : gmap market_index_key order_record) (r : chain_database) : chain_database :=
  {| db_head_block_num := db_head_block_num r; db_now := db_now r;
     db_chain_id := db_chain_id r; db_track_stats := db_track_stats r;
     db_properties := db_properties r; db_assets := db_assets r;
     db_symbol_index := db_symbol_index r; db_accounts := db_accounts r;
     db_account_index := db_account_index r;
     db_address_to_account := db_address_to_account r;
     db_delegate_votes := db_delegate_votes r; db_balances := db_balances r;
     db_slates := db_slates r; db_transactions := db_transactions r;
     db_unique_transactions := db_unique_transactions r; db_bids := db_bids r;
     db_asks := v; db_relative_bids := db_relative_bids r;
     db_relative_asks := db_relative_asks r; db_shorts := db_shorts r;
     db_collateral := db_collateral r;
     db_collateral_expiration := db_collateral_expiration r; db_slots := db_slots r;
     db_market_history := db_market_history r;
     db_market_statuses := db_market_statuses r;
     db_market_transactions := db_market_transactions r; db_feeds := db_feeds r;
     db_burns := db_burns r; db_authorizations := db_authorizations r;
     db_asset_proposals := db_asset_proposals r;
     db_recent_operations := db_recent_operations r |}.

Definition set_db_relative_bids (v : gmap market_index_key order_record) (r : chain_database) : chain_database :=
  {| db_head_block_num := db_head_block_num r; db_now := db_now r;
     db_chain_id := db_chain_id r; db_track_stats := db_track_stats r;
     db_properties := db_properties r; db_assets := db_assets r;
     db_symbol_index := db_symbol_index r; db_accounts := db_accounts r;
     db_account_index := db_account_index r;
     db_address_to_account := db_address_to_account r;
     db_delegate_votes := db_delegate_votes r; db_balances := db_balances r;
     db_slates := db_slates r; db_transactions := db_transactions r;
     db_unique_transactions := db_unique_transactions r; db_bids := db_bids r;
     db_asks := db_asks r; db_relative_bids := v;
     db_relative_asks := db_relative_asks r; db_shorts := db_shorts r;
     db_collateral := db_collateral r;
     db_collateral_expiration := db_collateral_expiration r; db_slots := db_slots r;
     db_market_history := db_market_history r;
     db_market_statuses := db_market_statuses r;
     db_market_transactions := db_market_transactions r; db_feeds := db_feeds r;
     db_burns := db_burns r; db_authorizations := db_authorizations r;
     db_asset_proposals := db_asset_proposals r;
     db_recent_operations := db_recent_operations r |}.

Definition set_db_relative_asks (v : gmap market_index_key order_record) (r : chain_database) : chain_database :=
  {| db_head_block_num := db_head_block_num r; db_now := db_now r;
     db_chain_id := db_chain_id r; db_track_stats := db_track_stats r;
     db_properties := db_properties r; db_assets := db_assets r;
     db_symbol_index := db_symbol_index r; db_accounts := db_accounts r;
     db_account_index := db_account_index r;
     db_address_to_account := db_address_to_account r;
     db_delegate_votes := db_delegate_votes r; db_balances := db_balances r;
     db_slates := db_slates r; db_transactions := db_transactions r;
     db_unique_transactions := db_unique_transactions r; db_bids := db_bids r;
     db_asks := db_asks r; db_relative_bids := db_relative_bids r;
     db_relative_asks := v; db_shorts := db_shorts r; db_collateral := db_collateral r;
     db_collateral_expiration := db_collateral_expiration r; db_slots := db_slots r;
     db_market_history := db_market_history r;
     db_market_statuses := db_market_statuses r;
     db_market_transactions := db_market_transactions r; db_feeds := db_feeds r;
     db_burns := db_burns r; db_authorizations := db_authorizations r;
     db_asset_proposals := db_asset_proposals r;
     db_recent_operations := db_recent_operations r |}.

Definition set_db_shorts (v : gmap market_index_key order_record) (r : chain_database) : chain_database :=
  {| db_head_block_num := db_head_block_num r; db_now := db_now r;
     db_chain_id := db_chain_id r; db_track_stats := db_track_stats r;
     db_properties := db_properties r; db_assets := db_assets r;
     db_symbol_index := db_symbol_index r; db_accounts := db_accounts r;
     db_account_index := db_account_index r;
     db_address_to_account := db_address_to_account r;
     db_delegate_votes := db_delegate_votes r; db_balances := db_balances r;
     db_slates := db_slates r; db_transactions := db_transactions r;
     db_unique_transactions := db_unique_transactions r; db_bids := db_bids r;
     db_asks := db_asks r; db_relative_bids := db_relative_bids r;
     db_relative_asks := db_relative_asks r; db_shorts := v;
     db_collateral := db_collateral r;
     db_collateral_expiration := db_collateral_expiration r; db_slots := db_slots r;
     db_market_history := db_market_history r;
     db_market_statuses := db_market_statuses r;
     db_market_transactions := db_market_transactions r; db_feeds := db_feeds r;
     db_burns := db_burns r; db_authorizations := db_authorizations r;
     db_asset_proposals := db_asset_proposals r;
     db_recent_operations := db_recent_operations r |}.

Definition set_db_collateral (v : gmap market_index_key collateral_record) (r : chain_database) : chain_database :=
  {| db_head_block_num := db_head_block_num r; db_now := db_now r;
     db_chain_id := db_chain_id r; db_track_stats := db_track_stats r;
     db_properties := db_properties r; db_assets := db_assets r;
     db_symbol_index := db_symbol_index r; db_accounts := db_accounts r;
     db_account_index := db_account_index r;
     db_address_to_account := db_address_to_account r;
     db_delegate_votes := db_delegate_votes r; db_balances := db_balances r;
     db_slates := db_slates r; db_transactions := db_transactions r;
     db_unique_transactions := db_unique_transactions r; db_bids := db_bids r;
     db_asks := db_asks r; db_relative_bids := db_relative_bids r;
     db_relative_asks := db_relative_asks r; db_shorts := db_shorts r;
     db_collateral := v; db_collateral_expiration := db_collateral_expiration r;
     db_slots := db_slots r; db_market_history := db_market_history r;
     db_market_statuses := db_market_statuses r;
     db_market_transactions := db_market_transactions r; db_feeds := db_feeds r;
     db_burns := db_burns r; db_authorizations := db_authorizations r;
     db_asset_proposals := db_asset_proposals r;
     db_recent_operations := db_recent_operations r |}.

Definition set_db_collateral_expiration (v : gset (Z * Z * market_index_key)) (r : chain_database) : chain_database :=
  {| db_head_block_num := db_head_block_num r; db_now := db_now r;
     db_chain_id := db_chain_id r; db_track_stats := db_track_stats r;
     db_properties := db_properties r; db_assets := db_assets r;
     db_symbol_index := db_symbol_index r; db_accounts := db_accounts r;
     db_account_index := db_account_index r;
     db_address_to_account := db_address_to_account r;
     db_delegate_votes := db_delegate_votes r; db_balances := db_balances r;
     db_slates := db_slates r; db_transactions := db_transactions r;
     db_unique_transactions := db_unique_transactions r; db_bids := db_bids r;
     db_asks := db_asks r; db_relative_bids := db_relative_bids r;
     db_relative_asks := db_relative_asks r; db_shorts := db_shorts r;
     db_collateral := db_collateral r; db_collateral_expiration := v;
     db_slots := db_slots r; db_market_history := db_market_history r;
     db_market_statuses := db_market_statuses r;
     db_market_transactions := db_market_transactions r; db_feeds := db_feeds r;
     db_burns := db_burns r; db_authorizations := db_authorizations r;
     db_asset_proposals := db_asset_proposals r;
     db_recent_operations := db_recent_operations r |}.

Definition set_db_slots (v : gmap Z slot_record) (r : chain_database) : chain_database :=
  {| db_head_block_num := db_head_block_num r; db_now := db_now r;
     db_chain_id := db_chain_id r; db_track_stats := db_track_stats r;
     db_properties := db_properties r; db_assets := db_assets r;
     db_symbol_index := db_symbol_index r; db_accounts := db_accounts r;
     db_account_index := db_account_index r;
     db_address_to_account := db_address_to_account r;
     db_delegate_votes := db_delegate_votes r; db_balances := db_balances r;
     db_slates := db_slates r; db_transactions := db_transactions r;
     db_unique_transactions := db_unique_transactions r; db_bids := db_bids r;
     db_asks := db_asks r; db_relative_bids := db_relative_bids r;
     db_relative_asks := db_relative_asks r; db_shorts := db_shorts r;
     db_collateral := db_collateral r;
     db_collateral_expiration := db_collateral_expiration r; db_slots := v;
     db_market_history := db_market_history r;
     db_market_statuses := db_market_statuses r;
     db_market_transactions := db_market_transactions r; db_feeds := db_feeds r;
     db_burns := db_burns r; db_authorizations := db_authorizations r;
     db_asset_proposals := db_asset_proposals r;
     db_recent_operations := db_recent_operations r |}.

Definition set_db_market_history (v : gmap market_history_key market_history_record) (r : chain_database) : chain_database :=
  {| db_head_block_num := db_head_block_num r; db_now := db_now r;
     db_chain_id := db_chain_id r; db_track_stats := db_track_stats r;
     db_properties := db_properties r; db_assets := db_assets r;
     db_symbol_index := db_symbol_index r; db_accounts := db_accounts r;
     db_account_index := db_account_index r;
     db_address_to_account := db_address_to_account r;
     db_delegate_votes := db_delegate_votes r; db_balances := db_balances r;
     db_slates := db_slates r; db_transactions := db_transactions r;
     db_unique_transactions := db_unique_transactions r; db_bids := db_bids r;
     db_asks := db_asks r; db_relative_bids := db_relative_bids r;
     db_relative_asks := db_relative_asks r; db_shorts := db_shorts r;
     db_collateral := db_collateral r;
     db_collateral_expiration := db_collateral_expiration r; db_slots := db_slots r;
     db_market_history := v; db_market_statuses := db_market_statuses r;
     db_market_transactions := db_market_transactions r; db_feeds := db_feeds r;
     db_burns := db_burns r; db_authorizations := db_authorizations r;
     db_asset_proposals := db_asset_proposals r;
     db_recent_operations := db_recent_operations r |}.

Definition set_db_market_statuses (v : gmap (Z * Z) market_status) (r : chain_database) : chain_database :=
  {| db_head_block_num := db_head_block_num r; db_now := db_now r;
     db_chain_id := db_chain_id r; db_track_stats := db_track_stats r;
     db_properties := db_properties r; db_assets := db_assets r;
     db_symbol_index := db_symbol_index r; db_accounts := db_accounts r;
     db_account_index := db_account_index r;
     db_address_to_account := db_address_to_account r;
     db_delegate_votes := db_delegate_votes r; db_balances := db_balances r;
     db_slates := db_slates r; db_transactions := db_transactions r;
     db_unique_transactions := db_unique_transactions r; db_bids := db_bids r;
     db_asks := db_asks r; db_relative_bids := db_relative_bids r;
     db_relative_asks := db_relative_asks r; db_shorts := db_shorts r;
     db_collateral := db_collateral r;
     db_collateral_expiration := db_collateral_expiration r; db_slots := db_slots r;
     db_market_history := db_market_history r; db_market_statuses := v;
     db_market_transactions := db_market_transactions r; db_feeds := db_feeds r;
     db_burns := db_burns r; db_authorizations := db_authorizations r;
     db_asset_proposals := db_asset_proposals r;
     db_recent_operations := db_recent_operations r |}.

Definition set_db_market_transactions (v : gmap Z (list market_transaction)) (r : chain_database) : chain_database :=
  {| db_head_block_num := db_head_block_num r; db_now := db_now r;
     db_chain_id := db_chain_id r; db_track_stats := db_track_stats r;
     db_properties := db_properties r; db_assets := db_assets r;
     db_symbol_index := db_symbol_index r; db_accounts := db_accounts r;
     db_account_index := db_account_index r;
     db_address_to_account := db_address_to_account r;
     db_delegate_votes := db_delegate_votes r; db_balances := db_balances r;
     db_slates := db_slates r; db_transactions := db_transactions r;
     db_unique_transactions := db_unique_transactions r; db_bids := db_bids r;
     db_asks := db_asks r; db_relative_bids := db_relative_bids r;
     db_relative_asks := db_relative_asks r; db_shorts := db_shorts r;
     db_collateral := db_collateral r;
     db_collateral_expiration := db_collateral_expiration r; db_slots := db_slots r;
     db_market_history := db_market_history r;
     db_market_statuses := db_market_statuses r; db_market_transactions := v;
     db_feeds := db_feeds r; db_burns := db_burns r;
     db_authorizations := db_authorizations r;
     db_asset_proposals := db_asset_proposals r;
     db_recent_operations := db_recent_operations r |}.

Definition set_db_feeds (v : gmap feed_index feed_record) (r : chain_database) : chain_database :=
  {| db_head_block_num := db_head_block_num r; db_now := db_now r;
     db_chain_id := db_chain_id r; db_track_stats := db_track_stats r;
     db_properties := db_properties r; db_assets := db_assets r;
     db_symbol_index := db_symbol_index r; db_accounts := db_accounts r;
     db_account_index := db_account_index r;
     db_address_to_account := db_address_to_account r;
     db_delegate_votes := db_delegate_votes r; db_balances := db_balances r;
     db_slates := db_slates r; db_transactions := db_transactions r;
     db_unique_transactions := db_unique_transactions r; db_bids := db_bids r;
     db_asks := db_asks r; db_relative_bids := db_relative_bids r;
     db_relative_asks := db_relative_asks r; db_shorts := db_shorts r;
     db_collateral := db_collateral r;
     db_collateral_expiration := db_collateral_expiration r; db_slots := db_slots r;
     db_market_history := db_market_history r;
     db_market_statuses := db_market_statuses r;
     db_market_transactions := db_market_transactions r; db_feeds := v;
     db_burns := db_burns r; db_authorizations := db_authorizations r;
     db_asset_proposals := db_asset_proposals r;
     db_recent_operations := db_recent_operations r |}.

Definition set_db_burns (v : gmap burn_key burn_record_value) (r : chain_database) : chain_database :=
  {| db_head_block_num := db_head_block_num r; db_now := db_now r;
     db_chain_id := db_chain_id r; db_track_stats := db_track_stats r;
     db_properties := db_properties r; db_assets := db_assets r;
     db_symbol_index := db_symbol_index r; db_accounts := db_accounts r;
     db_account_index := db_account_index r;
     db_address_to_account := db_address_to_account r;
     db_delegate_votes := db_delegate_votes r; db_balances := db_balances r;
     db_slates := db_slates r; db_transactions := db_transactions r;
     db_unique_transactions := db_unique_transactions r; db_bids := db_bids r;
     db_asks := db_asks r; db_relative_bids := db_relative_bids r;
     db_relative_asks := db_relative_asks r; db_shorts := db_shorts r;
     db_collateral := db_collateral r;
     db_collateral_expiration := db_collateral_expiration r; db_slots := db_slots r;
     db_market_history := db_market_history r;
     db_market_statuses := db_market_statuses r;
     db_market_transactions := db_market_transactions r; db_feeds := db_feeds r;
     db_burns := v; db_authorizations := db_authorizations r;
     db_asset_proposals := db_asset_proposals r;
     db_recent_operations := db_recent_operations r |}.

Definition set_db_authorizations (v : gmap (Z * Z) Z) (r : chain_database) : chain_database :=
  {| db_head_block_num := db_head_block_num r; db_now := db_now r;
     db_chain_id := db_chain_id r; db_track_stats := db_track_stats r;
     db_properties := db_properties r; db_assets := db_assets r;
     db_symbol_index := db_symbol_index r; db_accounts := db_accounts r;
     db_account_index := db_account_index r;
     db_address_to_account := db_address_to_account r;
     db_delegate_votes := db_delegate_votes r; db_balances := db_balances r;
     db_slates := db_slates r; db_transactions := db_transactions r;
     db_unique_transactions := db_unique_transactions r; db_bids := db_bids r;
     db_asks := db_asks r; db_relative_bids := db_relative_bids r;
     db_relative_asks := db_relative_asks r; db_shorts := db_shorts r;
     db_collateral := db_collateral r;
     db_collateral_expiration := db_collateral_expiration r; db_slots := db_slots r;
     db_market_history := db_market_history r;
     db_market_statuses := db_market_statuses r;
     db_market_transactions := db_market_transactions r; db_feeds := db_feeds r;
     db_burns := db_burns r; db_authorizations := v;
     db_asset_proposals := db_asset_proposals r;
     db_recent_operations := db_recent_operations r |}.

Definition set_db_asset_proposals (v : gmap (Z * Z) proposal_record) (r : chain_database) : chain_database :=
  {| db_head_block_num := db_head_block_num r; db_now := db_now r;
     db_chain_id := db_chain_id r; db_track_stats := db_track_stats r;
     db_properties := db_properties r; db_assets := db_assets r;
     db_symbol_index := db_symbol_index r; db_accounts := db_accounts r;
     db_account_index := db_account_index r;
     db_address_to_account := db_address_to_account r;
     db_delegate_votes := db_delegate_votes r; db_balances := db_balances r;
     db_slates := db_slates r; db_transactions := db_transactions r;
     db_unique_transactions := db_unique_transactions r; db_bids := db_bids r;
     db_asks := db_asks r; db_relative_bids := db_relative_bids r;
     db_relative_asks := db_relative_asks r; db_shorts := db_shorts r;
     db_collateral := db_collateral r;
     db_collateral_expiration := db_collateral_expiration r; db_slots := db_slots r;
     db_market_history := db_market_history r;
     db_market_statuses := db_market_statuses r;
     db_market_transactions := db_market_transactions r; db_feeds := db_feeds r;
     db_burns := db_burns r; db_authorizations := db_authorizations r;
     db_asset_proposals := v; db_recent_operations := db_recent_operations r |}.

Definition set_db_recent_operations (v : gmap Z (list operation)) (r : chain_database) : chain_database :=
  {| db_head_block_num := db_head_block_num r; db_now := db_now r;
     db_chain_id := db_chain_id r; db_track_stats := db_track_stats r;
     db_properties := db_properties r; db_assets := db_assets r;
     db_symbol_index := db_symbol_index r; db_accounts := db_accounts r;
     db_account_index := db_account_index r;
     db_address_to_account := db_address_to_account r;
     db_delegate_votes := db_delegate_votes r; db_balances := db_balances r;
     db_slates := db_slates r; db_transactions := db_transactions r;
     db_unique_transactions := db_unique_transactions r; db_bids := db_bids r;
     db_asks := db_asks r; db_relative_bids := db_relative_bids r;
     db_relative_asks := db_relative_asks r; db_shorts := db_shorts r;
     db_collateral := db_collateral r;
     db_collateral_expiration := db_collateral_expiration r; db_slots := db_slots r;
     db_market_history := db_market_history r;
     db_market_statuses := db_market_statuses r;
     db_market_transactions := db_market_transactions r; db_feeds := db_feeds r;
     db_burns := db_burns r; db_authorizations := db_authorizations r;
     db_asset_proposals := db_asset_proposals r; db_recent_operations := v |}.

(** An empty database at a given head. *)
Definition empty_db (head now chain : Z) : chain_database :=
  mk_db head now chain true ∅ ∅ ∅ ∅ ∅ ∅ ∅ ∅ ∅ ∅ ∅ ∅ ∅ ∅ ∅ ∅ ∅ ∅ ∅ ∅ ∅ ∅ ∅ ∅ ∅ ∅ ∅.

(** [store( k, v )] of a record that may be null: a removal if it is. *)
Definition store_or_remove `{Countable K} {V} (null : bool) (k : K) (v : V) (m : gmap K V) : gmap K V :=
  if null then delete k m else <[k := v]> m.

(** ** Queries *)

Section getters.
Implicit Types db : chain_database.

Definition db_get_property db (id : Z) : result variant :=
  require (db_properties db !! id) key_not_found_exception.
Definition db_get_asset_record db (id : Z) : option asset_record := db_assets db !! id.
Definition db_get_asset_record_by_symbol db (symbol : string) : option asset_record :=
  db_symbol_index db !! (if String.eqb symbol "BTSX" then "BTS"%string else symbol)
    ≫= db_get_asset_record db.
Definition db_get_account_record db (id : Z) : option account_record := db_accounts db !! id.
Definition db_get_account_record_by_name db (name : string) : option account_record :=
  db_account_index db !! name ≫= db_get_account_record db.
Definition db_get_account_record_by_address db (a : Z) : option account_record :=
  db_address_to_account db !! a ≫= db_get_account_record db.
Definition db_get_slot_record db (t : Z) : result (option slot_record) :=
  _ ← fc_assert (db_track_stats db); Ok (db_slots db !! t).
Definition db_get_market_history_record db (k : market_history_key)
    : result (option market_history_record) :=
  _ ← fc_assert (db_track_stats db); Ok (db_market_history db !! k).
Definition db_fetch_burn_record db (k : burn_key) : result (option burn_record_value) :=
  _ ← fc_assert (db_track_stats db); Ok (db_burns db !! k).
Definition db_is_known_transaction db (exp id : Z) : bool :=
  match db_unique_transactions db !! exp with
  | Some s => bool_decide (id ∈ s)
  | None => false
  end.

(** Feeds of [quote_id] published within a day by an active delegate, read as
    prices of the market; a value that is no price is skipped. *)
Definition feed_price_of db (active : list Z) (quote_id base_id : Z) (r : feed_record)
    : option price :=
  if (fi_feed_id (fr_feed r) =? quote_id) && existsb (Z.eqb (fi_delegate_id (fr_feed r))) active
  then
    if fr_last_update r + 86400 >? db_now db then
      match variant_as_price (fr_value r) with
      | Ok p => if (quote_asset_id p =? quote_id) && (base_asset_id p =? base_id)
                then Some p else None
      | Err _ => None
      end
    else None
  else None.

(** The order [std::nth_element] sorts by. *)
Definition price_le (p q : price) : Prop := price_ltb q p = false.
#[global] Instance price_le_dec p q : Decision (price_le p q).
Proof. unfold price_le. apply _. Defined.

(** The prices [get_median_delegate_price] collects. *)
Definition delegate_feed_prices db (quote_id base_id : Z) : result (list price) :=
  v ← db_get_property db active_delegate_list_prop;
  active ← variant_as_ids v;
  Ok (omap (feed_price_of db active quote_id base_id) ((map_to_list (db_feeds db)).*2)).

(** [chain_database::get_median_delegate_price] *)
Definition db_get_median_delegate_price db (quote_id base_id : Z) : result (option price) :=
  prices ← delegate_feed_prices db quote_id base_id;
  if Z.of_nat (List.length prices) >=? BTS_BLOCKCHAIN_MIN_FEEDS
  then Ok (merge_sort price_le prices !! Nat.div (List.length prices) 2)
  else Ok None.
End getters.

Section with_crypto.
Context `{Crypto}.
Implicit Types db : chain_database.

(** [chain_database::get_transaction] with [exact]. *)
Definition db_get_transaction db (id : Z) : result (option transaction_record) :=
  _ ← fc_assert (db_track_stats db);
  match db_transactions db !! id with
  | Some r => _ ← fc_assert (trx_id (tr_trx r) =? id); Ok (Some r)
  | None => Ok None
  end.

Definition db_view (db : chain_database) : chain_view := {|
  cv_now := db_now db;
  cv_head_block_num := db_head_block_num db;
  cv_property := db_get_property db;
  cv_asset := db_get_asset_record db;
  cv_asset_by_symbol := db_get_asset_record_by_symbol db;
  cv_account := db_get_account_record db;
  cv_account_by_name := db_get_account_record_by_name db;
  cv_account_by_address := db_get_account_record_by_address db;
  cv_balance id := db_balances db !! id;
  cv_slate id := db_slates db !! id;
  cv_transaction := db_get_transaction db;
  cv_is_known_transaction := db_is_known_transaction db;
  cv_bid k := db_bids db !! k;
  cv_ask k := db_asks db !! k;
  cv_relative_bid k := db_relative_bids db !! k;
  cv_relative_ask k := db_relative_asks db !! k;
  cv_short k := db_shorts db !! k;
  cv_collateral k := db_collateral db !! k;
  cv_slot := db_get_slot_record db;
  cv_market_status m := db_market_statuses db !! m;
  cv_market_history := db_get_market_history_record db;
  cv_feed i := db_feeds db !! i;
  cv_burn := db_fetch_burn_record db;
  cv_authorization k := db_authorizations db !! k;
  cv_proposal k := db_asset_proposals db !! k;
  cv_median_price := db_get_median_delegate_price db
|}.

(** ** Updates *)

Definition db_set_property (id : Z) (v : variant) db : chain_database :=
  set_db_properties (store_or_remove (variant_is_null v) id v (db_properties db)) db.

Definition db_store_asset_record (r : asset_record) db : chain_database :=
  if asset_is_null r
  then set_db_symbol_index (delete (as_symbol r) (db_symbol_index db))
         (set_db_assets (delete (as_id r) (db_assets db)) db)
  else set_db_symbol_index (<[as_symbol r := as_id r]> (db_symbol_index db))
         (set_db_assets (<[as_id r := r]> (db_assets db)) db).

(** Balance records are kept when they become empty. *)
Definition db_store_balance_record (r : balance_record) db : chain_database :=
  set_db_balances (<[balance_id r := r]> (db_balances db)) db.

(** [remove_record]: the record and everything that indexes it. *)
Definition db_remove_account (r : account_record) db : result chain_database :=
  let addr1 := delete (account_owner_address r) (db_address_to_account db) in
  let addr2 := if account_is_retracted r then addr1
               else delete (account_active_address r) addr1 in
  '(addr3, votes) ←
    (if account_is_delegate r then
       a ← account_signing_address r;
       n ← account_net_votes r;
       Ok (delete a addr2,
           if account_is_retracted r then db_delegate_votes db
           else db_delegate_votes db ∖ {[ (n, ac_id r) ]})
     else Ok (addr2, db_delegate_votes db));
  Ok (set_db_delegate_votes votes
        (set_db_address_to_account addr3
           (set_db_account_index (delete (ac_name r) (db_account_index db))
              (set_db_accounts (delete (ac_id r) (db_accounts db)) db)))).

(** [store_record]: a record that was not there before. *)
Definition db_insert_account (r : account_record) db : result chain_database :=
  let addr1 := <[account_owner_address r := ac_id r]> (db_address_to_account db) in
  let addr2 := if account_is_retracted r then addr1
               else <[account_active_address r := ac_id r]> addr1 in
  '(addr3, votes) ←
    (if account_is_delegate r then
       a ← account_signing_address r;
       n ← account_net_votes r;
       Ok (<[a := ac_id r]> addr2,
           if account_is_retracted r then db_delegate_votes db
           else {[ (n, ac_id r) ]} ∪ db_delegate_votes db)
     else Ok (addr2, db_delegate_votes db));
  Ok (set_db_delegate_votes votes
        (set_db_address_to_account addr3
           (set_db_account_index (<[ac_name r := ac_id r]> (db_account_index db))
              (set_db_accounts (<[ac_id r := r]> (db_accounts db)) db)))).

(** [index_active_keys] *)
Definition index_active_keys (prev new : account_record) (idx : gmap Z Z) : gmap Z Z :=
  if account_is_retracted prev && account_is_retracted new then idx
  else if negb (account_is_retracted prev) && account_is_retracted new
  then delete (account_active_address prev) idx
  else if account_is_retracted prev && negb (account_is_retracted new)
  then <[account_active_address new := ac_id new]> idx
  else if negb (account_active_address prev =? account_active_address new)
  then <[account_active_address new := ac_id new]> (delete (account_active_address prev) idx)
  else idx.

(** [index_signing_keys] *)
Definition index_signing_keys (prev new : account_record) (idx : gmap Z Z) : result (gmap Z Z) :=
  if negb (account_is_delegate prev) && negb (account_is_delegate new) then Ok idx
  else if account_is_delegate prev && negb (account_is_delegate new)
  then a ← account_signing_address prev; Ok (delete a idx)
  else if negb (account_is_delegate prev) && account_is_delegate new
  then a ← account_signing_address new; Ok (<[a := ac_id new]> idx)
  else
    a ← account_signing_address prev;
    b ← account_signing_address new;
    Ok (if negb (a =? b) then <[b := ac_id new]> (delete a idx) else idx).

(** [index_votes] *)
Definition index_votes (prev new : account_record) (votes : gset (Z * Z))
    : result (gset (Z * Z)) :=
  if negb (account_is_delegate prev) && negb (account_is_delegate new) then Ok votes
  else if account_is_delegate prev && negb (account_is_delegate new)
  then
    if account_is_retracted prev then Ok votes
    else n ← account_net_votes prev; Ok (votes ∖ {[ (n, ac_id prev) ]})
  else if negb (account_is_delegate prev) && account_is_delegate new
  then
    if account_is_retracted new then Ok votes
    else n ← account_net_votes new; Ok ({[ (n, ac_id new) ]} ∪ votes)
  else
    prev_votes ← account_net_votes prev;
    new_votes ← account_net_votes new;
    Ok (if negb (prev_votes =? new_votes) then
          let v1 := if account_is_retracted prev then votes
                    else votes ∖ {[ (prev_votes, ac_id prev) ]} in
          if account_is_retracted new then v1 else {[ (new_votes, ac_id new) ]} ∪ v1
        else votes).

(** The common case of [store_account_record]: a record is replaced. *)
Definition db_update_account (prev r : account_record) db : result chain_database :=
  let names := if String.eqb (ac_name prev) (ac_name r) then db_account_index db
               else <[ac_name r := ac_id r]> (delete (ac_name prev) (db_account_index db)) in
  let addr1 := if ac_owner_key prev =? ac_owner_key r then db_address_to_account db
               else <[account_owner_address r := ac_id r]>
                      (delete (account_owner_address prev) (db_address_to_account db)) in
  let addr2 := index_active_keys prev r addr1 in
  addr3 ← index_signing_keys prev r addr2;
  votes ← index_votes prev r (db_delegate_votes db);
  Ok (set_db_delegate_votes votes
        (set_db_address_to_account addr3
           (set_db_account_index names
              (set_db_accounts (<[ac_id r := r]> (db_accounts db)) db)))).

(** [chain_database::store_account_record] *)
Definition db_store_account_record (r : account_record) db : result chain_database :=
  match db_get_account_record db (ac_id r), account_is_null r with
  | None, true => Ok db
  | Some prev, true => db_remove_account prev db
  | None, false => db_insert_account r db
  | Some prev, false => db_update_account prev r db
  end.

Definition db_store_delegate_slate (id : Z) (s : delegate_slate) db : chain_database :=
  set_db_slates (store_or_remove (Z.of_nat (List.length (sl_supported_delegates s)) =? 0)
                   id s (db_slates db)) db.

(** A record without operations is a removal; the duplicate check of the
    [_unique_transactions] index covers unexpired transactions. *)
Definition db_store_transaction (id : Z) (r : transaction_record) db : result chain_database :=
  let trx := tr_trx r in
  if Z.of_nat (List.length (tx_operations trx)) =? 0 then
    Ok (if db_track_stats db then set_db_transactions (delete id (db_transactions db)) db else db)
  else
    _ ← fc_assert (id =? trx_id trx);
    db1 ←
      (if tx_expiration trx >? db_now db then
         let d := trx_digest trx (db_chain_id db) in
         let set := default ∅ (db_unique_transactions db !! tx_expiration trx) in
         _ ← (if (db_head_block_num db >=? BTS_V0_4_26_FORK_BLOCK_NUM) && bool_decide (d ∈ set)
              then match db_transactions db !! id with
                   | Some _ => Err duplicate_transaction
                   | None => Ok tt
                   end
              else Ok tt);
         Ok (set_db_unique_transactions
               (<[tx_expiration trx := {[ d ]} ∪ set]> (db_unique_transactions db)) db)
       else Ok db);
    Ok (if db_track_stats db then set_db_transactions (<[id := r]> (db_transactions db1)) db1 else db1).

Definition db_store_bid_record (k : market_index_key) (r : order_record) db : chain_database :=
  set_db_bids (store_or_remove (order_is_null r) k r (db_bids db)) db.
Definition db_store_relative_bid_record (k : market_index_key) (r : order_record) db : chain_database :=
  set_db_relative_bids (store_or_remove (order_is_null r) k r (db_relative_bids db)) db.
Definition db_store_ask_record (k : market_index_key) (r : order_record) db : chain_database :=
  set_db_asks (store_or_remove (order_is_null r) k r (db_asks db)) db.
Definition db_store_relative_ask_record (k : market_index_key) (r : order_record) db : chain_database :=
  set_db_relative_asks (store_or_remove (order_is_null r) k r (db_relative_asks db)) db.
Definition db_store_short_record (k : market_index_key) (r : order_record) db : chain_database :=
  set_db_shorts (store_or_remove (order_is_null r) k r (db_shorts db)) db.

(** [chain_database::store_collateral_record], with the expiration index. *)
Definition expiration_entry (k : market_index_key) (r : collateral_record) : Z * Z * market_index_key :=
  (quote_asset_id (mk_order_price k), cr_expiration r, k).

Definition db_store_collateral_record (k : market_index_key) (r : collateral_record) db : chain_database :=
  let index' :=
    match db_collateral db !! k with
    | Some old =>
        if negb (cr_expiration old =? cr_expiration r) then
          if collateral_is_null r
          then db_collateral_expiration db ∖ {[ expiration_entry k old ]}
          else {[ expiration_entry k r ]} ∪ (db_collateral_expiration db ∖ {[ expiration_entry k old ]})
        else db_collateral_expiration db
    | None => db_collateral_expiration db
    end in
  set_db_collateral_expiration index'
    (set_db_collateral (store_or_remove (collateral_is_null r) k r (db_collateral db)) db).

Definition db_store_slot_record (r : slot_record) db : chain_database :=
  if negb (db_track_stats db) then db
  else set_db_slots (store_or_remove (slot_is_null r) (so_start_time r) r (db_slots db)) db.
Definition db_store_market_history_record (k : market_history_key) (r : market_history_record) db
    : chain_database :=
  if negb (db_track_stats db) then db
  else set_db_market_history (store_or_remove (hr_volume r =? 0) k r (db_market_history db)) db.
Definition db_store_market_status (s : market_status) db : chain_database :=
  set_db_market_statuses (store_or_remove (market_status_is_null s)
    (mst_quote_id s, mst_base_id s) s (db_market_statuses db)) db.
Definition db_set_feed (r : feed_record) db : chain_database :=
  set_db_feeds (store_or_remove (feed_is_null r) (fr_feed r) r (db_feeds db)) db.
Definition db_store_burn_record (k : burn_key) (v : burn_record_value) db : chain_database :=
  if negb (db_track_stats db) then db
  else set_db_burns (store_or_remove (burn_is_null v) k v (db_burns db)) db.
Definition db_authorize (k : Z * Z) (oid : Z) db : chain_database :=
  set_db_authorizations (store_or_remove (oid =? null_object_id) k oid (db_authorizations db)) db.
Definition db_store_asset_proposal (r : proposal_record) db : chain_database :=
  set_db_asset_proposals (store_or_remove (pr_info r =? null_object_id)
    (pr_asset_id r, pr_proposal_id r) r (db_asset_proposals db)) db.

Definition db_store_recent_operation (o : operation) db : chain_database :=
  let q := default [] (db_recent_operations db !! op_type o) in
  let q' := q ++ [o] in
  set_db_recent_operations
    (<[op_type o := if Z.of_nat (List.length q') >? MAX_RECENT_OPERATIONS then tail q' else q']>
       (db_recent_operations db)) db.

Definition db_set_market_transactions (trxs : list market_transaction) db : result chain_database :=
  _ ← fc_assert (db_track_stats db);
  Ok (set_db_market_transactions
        (store_or_remove (Z.of_nat (List.length trxs) =? 0) (db_head_block_num db + 1) trxs
           (db_market_transactions db)) db).

Definition db_set_dirty_markets (d : list (Z * Z)) db : chain_database :=
  db_set_property dirty_markets_prop (v_pairs d) db.

#[global] Instance db_chain_store : ChainStore chain_database := {|
  cs_view := db_view;
  cs_set_property := db_set_property;
  cs_store_asset := db_store_asset_record;
  cs_store_account := db_store_account_record;
  cs_store_balance := db_store_balance_record;
  cs_authorize := db_authorize;
  cs_store_bid := db_store_bid_record;
  cs_store_relative_bid := db_store_relative_bid_record;
  cs_store_ask := db_store_ask_record;
  cs_store_relative_ask := db_store_relative_ask_record;
  cs_store_short := db_store_short_record;
  cs_store_collateral := db_store_collateral_record;
  cs_store_transaction := db_store_transaction;
  cs_store_slate := db_store_delegate_slate;
  cs_store_slot := db_store_slot_record;
  cs_store_market_history := db_store_market_history_record;
  cs_store_market_status := db_store_market_status;
  cs_store_proposal := db_store_asset_proposal;
  cs_set_feed := db_set_feed;
  cs_set_market_dirty _ _ _ := Err assert_exception;
  cs_store_recent_operation := db_store_recent_operation;
  cs_store_burn := db_store_burn_record;
  cs_set_market_transactions := db_set_market_transactions;
  cs_set_dirty_markets := db_set_dirty_markets
|}.
End with_crypto.

(** ** Votes and supply *)

(** The order of [vote_del]: most votes first, the lowest id in ties. *)
Definition vote_le (a b : Z * Z) : Prop :=
  a.1 > b.1 \/ a.1 = b.1 /\ a.2 <= b.2.
#[global] Instance vote_le_dec a b : Decision (vote_le a b).
Proof. unfold vote_le. apply _. Defined.

(** [chain_database::get_delegates_by_vote] *)
Definition get_delegates_by_vote (db : chain_database) (first count : nat) : list Z :=
  take count (drop first ((merge_sort vote_le (elements (db_delegate_votes db))).*2)).

Definition next_round_active_delegates (db : chain_database) : list Z :=
  get_delegates_by_vote db 0 (Z.to_nat BTS_BLOCKCHAIN_NUM_DELEGATES).

(** The terms of [calculate_supply]. *)
Definition balance_shares (id : Z) (r : balance_record) : Z :=
  if wc_asset_id (br_condition r) =? id then br_balance r else 0.
Definition pay_shares (r : account_record) : Z :=
  match ac_delegate_info r with Some d => ds_pay_balance d | None => 0 end.

(** The sum of the order balances of the markets a test selects. *)
Definition order_shares (sel : price -> bool) (m : gmap market_index_key order_record) : Z :=
  map_ksum (fun k r => if sel (mk_order_price k) then or_balance r else 0) m.

(** [chain_database::calculate_supply]: the running total wraps at 64 bits, which
    commutes with summing. *)
Definition calculate_supply (db : chain_database) (id : Z) : result asset :=
  record ← require (db_get_asset_record db id) assert_exception;
  let base := as_collected_fees record
    + map_sum (balance_shares id) (db_balances db)
    + order_shares (fun p => base_asset_id p =? id) (db_asks db)
    + order_shares (fun p => base_asset_id p =? id) (db_relative_asks db) in
  let rest :=
    if id =? 0
    then map_sum or_balance (db_shorts db)
         + map_sum cr_collateral_balance (db_collateral db)
         + map_sum pay_shares (db_accounts db)
    else order_shares (fun p => quote_asset_id p =? id) (db_bids db)
         + order_shares (fun p => quote_asset_id p =? id) (db_relative_bids db) in
  Ok (mk_asset (wrap64 (base + rest)) id).
