(* ===== verification/DatabaseFacts.v ===== *)
(** * DatabaseFacts: the secondary indices and the price feed

    What the database's indices promise.  The delegate vote index lists exactly
    the registered, unretracted delegates with their current votes, as long as no
    store changes a delegate's retraction and not its votes; that case leaves a
    stale entry ([retracted_delegate_stays_indexed]).  The collateral expiration
    index misses every newly opened position.  The median feed is a published
    price, and a majority of delegates bounds it. *)
From S2P Require Import Prelude Config Fc Asset Records ChainInterface ChainDatabase.
From stdpp Require Import sorting.
#[local] Open Scope Z_scope.

(** ** The vote index *)

Definition active_delegate_votes (r : account_record) : option Z :=
  if account_is_retracted r then None else ds_votes_for <$> ac_delegate_info r.

Definition ids_ok (db : chain_database) : Prop :=
  forall id r, db_accounts db !! id = Some r -> ac_id r = id.

Definition votes_ok (db : chain_database) : Prop :=
  forall v id, (v, id) ∈ db_delegate_votes db <->
    db_accounts db !! id ≫= active_delegate_votes = Some v.

(** The case [index_votes] does not handle. *)
Definition silent_retraction (prev r : account_record) : bool :=
  match ac_delegate_info prev, ac_delegate_info r with
  | Some d, Some d' =>
      (ds_votes_for d =? ds_votes_for d')
      && negb (Bool.eqb (account_is_retracted prev) (account_is_retracted r))
  | _, _ => false
  end.

Lemma not_delegate_votes r : account_is_delegate r = false -> active_delegate_votes r = None.
Proof.
  unfold account_is_delegate, active_delegate_votes. destruct (ac_delegate_info r); [done|].
  by destruct (account_is_retracted r).
Qed.

Lemma delegate_votes r n :
  account_net_votes r = Ok n ->
  active_delegate_votes r = if account_is_retracted r then None else Some n.
Proof.
  unfold account_net_votes, active_delegate_votes. intros Hn. inv_ok.
  by rewrite H.
Qed.

Lemma silent_votes prev r n :
  account_net_votes prev = Ok n -> account_net_votes r = Ok n ->
  silent_retraction prev r = false -> account_is_retracted prev = account_is_retracted r.
Proof.
  unfold account_net_votes, silent_retraction. intros Hp Hr.
  destruct (ac_delegate_info prev) as [d|], (ac_delegate_info r) as [d'|]; try done.
  cbn in Hp, Hr. injection Hp as ->. injection Hr as ->. rewrite Z.eqb_refl.
  by destruct (account_is_retracted prev), (account_is_retracted r).
Qed.

(** Membership after adding or removing single entries. *)
Ltac votes_solver :=
  rewrite ?elem_of_union, ?elem_of_difference, ?elem_of_singleton; intuition congruence.

(** Replacing one account and its entry keeps the index right. *)
Lemma votes_replace (db : chain_database) (id : Z) (new : option account_record) (votes' : gset (Z * Z)) :
  votes_ok db ->
  (forall v (id' : Z), (v, id') ∈ votes' <->
     if decide (id' = id) then new ≫= active_delegate_votes = Some v
     else (v, id') ∈ db_delegate_votes db) ->
  forall v (id' : Z), (v, id') ∈ votes' <->
    partial_alter (fun _ => new) id (db_accounts db) !! id' ≫= active_delegate_votes = Some v.
Proof.
  intros Hv Hv' v id'. rewrite Hv'. case_decide as Hid.
  - subst id'. by rewrite lookup_partial_alter_eq.
  - rewrite lookup_partial_alter_ne by done. apply Hv.
Qed.

Section votes.
Context `{Crypto}.

(** What [index_votes] does to the index, entry by entry. *)
Lemma index_votes_spec (prev r : account_record) (votes votes' : gset (Z * Z)) (id : Z) :
  ac_id prev = id -> ac_id r = id -> silent_retraction prev r = false ->
  (forall v, (v, id) ∈ votes <-> active_delegate_votes prev = Some v) ->
  index_votes prev r votes = Ok votes' ->
  forall v (id' : Z), (v, id') ∈ votes' <->
    if decide (id' = id) then active_delegate_votes r = Some v else (v, id') ∈ votes.
Proof.
  intros Hp Hr Hs Hv. unfold index_votes.
  destruct (account_is_delegate prev) eqn:Dp, (account_is_delegate r) eqn:Dr; cbn [negb andb].
  - intros (np & Hnp & (nr & Hnr & [= <-])%bind_Ok)%bind_Ok.
    pose proof (delegate_votes _ _ Hnp) as Ep. pose proof (delegate_votes _ _ Hnr) as Er.
    assert (Hsil : np = nr -> account_is_retracted prev = account_is_retracted r).
    { intros ->. by apply (silent_votes _ _ nr Hnp Hnr). }
    rewrite Er. rewrite Ep in Hv. intros v id'. specialize (Hv v).
    destruct (Z.eqb_spec np nr) as [->|Hne]; cbn [negb].
    + rewrite (Hsil eq_refl) in Hv. case_decide; [by subst|done].
    + rewrite Hp, Hr. destruct (account_is_retracted prev), (account_is_retracted r);
        case_decide; subst; votes_solver.
  - intros Hi v id'. specialize (Hv v). rewrite (not_delegate_votes r Dr).
    destruct (account_is_retracted prev) eqn:Rp.
    + injection Hi as <-. unfold active_delegate_votes in Hv. rewrite Rp in Hv.
      case_decide; [by subst|done].
    + apply bind_Ok in Hi as (np & Hnp & [= <-]).
      pose proof (delegate_votes _ _ Hnp) as Ep. rewrite Rp in Ep. rewrite Ep in Hv.
      case_decide; subst; votes_solver.
  - intros Hi v id'. specialize (Hv v). rewrite (not_delegate_votes prev Dp) in Hv.
    destruct (account_is_retracted r) eqn:Rr.
    + injection Hi as <-. unfold active_delegate_votes. rewrite Rr. case_decide; [by subst|done].
    + apply bind_Ok in Hi as (nr & Hnr & [= <-]).
      pose proof (delegate_votes _ _ Hnr) as Er. rewrite Rr in Er. rewrite Er.
      case_decide; subst; votes_solver.
  - intros [= <-] v id'. specialize (Hv v).
    rewrite (not_delegate_votes prev Dp) in Hv. rewrite (not_delegate_votes r Dr).
    case_decide; [by subst|done].
Qed.

(** The store of one record, on every path of [store_account_record]. *)
Lemma store_account_accounts r db db' :
  db_store_account_record r db = Ok db' ->
  db_accounts db' =
    if account_is_null r then
      match db_accounts db !! ac_id r with
      | Some prev => delete (ac_id prev) (db_accounts db)
      | None => db_accounts db
      end
    else <[ac_id r := r]> (db_accounts db).
Proof.
  unfold db_store_account_record, db_get_account_record.
  destruct (db_accounts db !! ac_id r) as [prev|], (account_is_null r); intros Hs.
  - apply bind_Ok in Hs as ([addr votes] & _ & [= <-]). done.
  - apply bind_Ok in Hs as (? & _ & (? & _ & [= <-])%bind_Ok). done.
  - by injection Hs as <-.
  - apply bind_Ok in Hs as ([addr votes] & _ & [= <-]). done.
Qed.

Lemma remove_account_votes prev db db' v id' :
  db_remove_account prev db = Ok db' ->
  (forall v, (v, ac_id prev) ∈ db_delegate_votes db <-> active_delegate_votes prev = Some v) ->
  (v, id') ∈ db_delegate_votes db' <->
    if decide (id' = ac_id prev) then None = Some v else (v, id') ∈ db_delegate_votes db.
Proof.
  intros ([addr votes] & Hc & [= <-])%bind_Ok Hv. cbn [db_delegate_votes set_db_delegate_votes].
  specialize (Hv v). destruct (account_is_delegate prev) eqn:Dp.
  - apply bind_Ok in Hc as (a & _ & (n & Hn & [= <- <-])%bind_Ok).
    pose proof (delegate_votes _ _ Hn) as Ep. rewrite Ep in Hv.
    destruct (account_is_retracted prev); case_decide; subst; votes_solver.
  - injection Hc as <- <-. rewrite (not_delegate_votes prev Dp) in Hv.
    case_decide; subst; done.
Qed.

Lemma insert_account_votes r db db' v id' :
  db_insert_account r db = Ok db' ->
  (forall v, (v, ac_id r) ∉ db_delegate_votes db) ->
  (v, id') ∈ db_delegate_votes db' <->
    if decide (id' = ac_id r) then active_delegate_votes r = Some v
    else (v, id') ∈ db_delegate_votes db.
Proof.
  intros ([addr votes] & Hc & [= <-])%bind_Ok Hv. cbn [db_delegate_votes set_db_delegate_votes].
  specialize (Hv v). destruct (account_is_delegate r) eqn:Dr.
  - apply bind_Ok in Hc as (a & _ & (n & Hn & [= <- <-])%bind_Ok).
    rewrite (delegate_votes _ _ Hn).
    destruct (account_is_retracted r); case_decide; subst; votes_solver.
  - injection Hc as <- <-. rewrite (not_delegate_votes r Dr).
    case_decide; subst; votes_solver.
Qed.

Lemma store_account_ids r db db' :
  ids_ok db -> db_store_account_record r db = Ok db' -> ids_ok db'.
Proof.
  intros Hids Hs id r'. rewrite (store_account_accounts _ _ _ Hs).
  destruct (account_is_null r); [destruct (db_accounts db !! ac_id r)|].
  - rewrite lookup_delete_Some. intros [_ ?]. auto.
  - auto.
  - rewrite lookup_insert_Some. intros [[<- <-]|[_ ?]]; auto.
Qed.

Lemma store_account_votes r db db' :
  ids_ok db -> votes_ok db ->
  (forall prev, db_accounts db !! ac_id r = Some prev -> account_is_null r = false ->
     silent_retraction prev r = false) ->
  db_store_account_record r db = Ok db' -> votes_ok db'.
Proof.
  intros Hids Hv Hsil Hs. pose proof (store_account_accounts _ _ _ Hs) as Ha.
  unfold votes_ok. rewrite Ha. clear Ha.
  unfold db_store_account_record, db_get_account_record in Hs.
  destruct (db_accounts db !! ac_id r) as [prev|] eqn:Hp.
  - pose proof (Hids _ _ Hp) as Hid.
    assert (Hpv : forall v, (v, ac_id r) ∈ db_delegate_votes db <-> active_delegate_votes prev = Some v)
      by (intros v; pose proof (Hv v (ac_id r)) as Hx; by rewrite Hp in Hx).
    destruct (account_is_null r) eqn:Hnull.
    + rewrite Hid. apply (votes_replace db (ac_id r) None); [done|]. intros v id'.
      rewrite (remove_account_votes _ _ _ _ _ Hs); rewrite Hid; done.
    + apply (votes_replace db (ac_id r) (Some r)); [done|]. intros v id'.
      apply bind_Ok in Hs as (? & _ & (votes & Hi & [= <-])%bind_Ok).
      cbn [db_delegate_votes set_db_delegate_votes].
      exact (index_votes_spec _ _ _ _ _ Hid eq_refl (Hsil _ eq_refl eq_refl) Hpv Hi v id').
  - destruct (account_is_null r) eqn:Hnull; [by injection Hs as <-|].
    apply (votes_replace db (ac_id r) (Some r)); [done|]. intros v id'.
    rewrite (insert_account_votes _ _ _ _ _ Hs); [done|].
    intros v' Hin. apply Hv in Hin. by rewrite Hp in Hin.
Qed.
End votes.

(** ** Elections *)

#[global] Instance vote_le_total : Total vote_le.
Proof. intros [] []. unfold vote_le. cbn. lia. Qed.
#[global] Instance vote_le_trans : Transitive vote_le.
Proof. intros [] [] []. unfold vote_le. cbn. lia. Qed.


Definition elected (db : chain_database) (n : nat) (v id : Z) : Prop :=
  (v, id) ∈ take n (merge_sort vote_le (elements (db_delegate_votes db))).

Lemma elem_of_delegates_by_vote db n id :
  id ∈ get_delegates_by_vote db 0 n <-> exists v, elected db n v id.
Proof.
  unfold get_delegates_by_vote, elected. rewrite drop_0, <- fmap_take, list_elem_of_fmap.
  split; [intros ([v id'] & -> & ?); eauto|intros (v & ?); exists (v, id); eauto].
Qed.


(** ** The median of a list of prices *)

#[global] Instance price_le_total : Total price_le.
Proof. intros p q. unfold price_le, price_ltb. repeat case_match; lia. Qed.
#[global] Instance price_le_trans : Transitive price_le.
Proof. intros p q r. unfold price_le, price_ltb. repeat case_match; lia. Qed.

(** A segment no element of which satisfies [P] bounds the count of [P]. *)
Lemma filter_outside {A} (P : A -> Prop) `{!forall x, Decision (P x)} (l l1 l2 : list A) :
  l ≡ₚ l1 ++ l2 -> (forall x, x ∈ l1 -> ~ P x) ->
  (List.length (filter P l) <= List.length l2)%nat.
Proof.
  intros -> Hl1. rewrite filter_app.
  assert (filter P l1 = []) as ->.
  { induction l1 as [|x l1 IH]; [done|]. rewrite filter_cons_False by (apply Hl1; set_solver).
    apply IH. intros. apply Hl1. set_solver. }
  apply length_filter.
Qed.

Section median.
Context (l : list price) (m : price).
Hypothesis Hm : merge_sort price_le l !! Nat.div (List.length l) 2 = Some m.

Let s := merge_sort price_le l.
Let h := Nat.div (List.length l) 2.

Lemma median_elem : m ∈ l.
Proof using Hm. rewrite <- (merge_sort_Permutation price_le). by eapply list_elem_of_lookup_2. Qed.

Lemma median_split : l ≡ₚ take h s ++ m :: drop (S h) s.
Proof using Hm. rewrite (take_drop_middle s h m Hm). symmetry. apply merge_sort_Permutation. Qed.

Lemma median_low p : p ∈ take h s -> price_le p m.
Proof using Hm.
  intros Hp. pose proof (StronglySorted_merge_sort price_le l) as Hs. fold s in Hs.
  rewrite <- (take_drop_middle s h m Hm) in Hs.
  apply (StronglySorted_app_1_elem_of _ _ _ _ _ Hs); set_solver.
Qed.

Lemma median_high p : p ∈ drop (S h) s -> price_le m p.
Proof using Hm.
  intros Hp. pose proof (StronglySorted_merge_sort price_le l) as Hs. fold s in Hs.
  rewrite <- (take_drop_middle s h m Hm) in Hs. apply StronglySorted_app_1_r in Hs.
  apply StronglySorted_inv in Hs as [_ Hs]. rewrite Forall_forall in Hs. auto.
Qed.

Lemma median_half : (List.length (drop (S h) s) = List.length l - S h)%nat /\
                    List.length (take h s) = h.
Proof using Hm.
  assert (List.length s = List.length l) as Hlen
    by (apply Permutation_length, merge_sort_Permutation).
  rewrite length_drop, length_take, Hlen. split; [done|].
  apply Nat.min_l. unfold h. apply Nat.Div0.div_le_upper_bound. lia.
Qed.

(** A strict majority bounds the median. *)
Lemma median_majority (P : price -> Prop) `{!forall x, Decision (P x)} :
  (List.length l < 2 * List.length (filter P l))%nat ->
  (forall p q r, P p -> P r -> price_le p q -> price_le q r -> P q) ->
  P m.
Proof using Hm.
  intros Hmaj Hconv. destruct median_half as [Hd Ht].
  pose proof (Nat.Div0.div_mod (List.length l) 2) as Hdm.
  pose proof (Nat.mod_upper_bound (List.length l) 2 ltac:(lia)) as Hmod. fold h in Hdm.
  destruct (decide (P m)) as [|Hno]; [done|exfalso].
  destruct (decide (Exists P (take h s))) as [Hlow|Hlow]; rewrite Exists_exists in Hlow.
  - assert (Hout : forall x, x ∈ m :: drop (S h) s -> ~ P x).
    { intros x Hx HPx. destruct Hlow as (p & Hp & HPp). apply Hno, (Hconv p m x); [done..| |].
      - by apply median_low.
      - inversion Hx; subst; [done|by apply median_high]. }
    pose proof (filter_outside P l _ (take h s)
      (transitivity median_split (Permutation_app_comm _ _)) Hout). lia.
  - assert (Hout : forall x, x ∈ take h s ++ [m] -> ~ P x).
    { intros x [Hx|Hx]%elem_of_app HPx; [by apply Hlow; eauto|].
      apply list_elem_of_singleton in Hx as ->. done. }
    pose proof median_split as Hsp. rewrite cons_middle, app_assoc in Hsp.
    pose proof (filter_outside P l _ _ Hsp Hout). lia.
Qed.
End median.

(** ** Theorems *)

(** Storing an account record, on every path (new, replaced, removed, nothing
    to do), keeps the accounts filed under their ids and the delegate vote index
    equal to the registered, unretracted delegates with their votes, unless the
    store changes the retraction of a delegate and not its votes. *)
Theorem store_account_keeps_vote_index `{Crypto} (r : account_record) (db db' : chain_database) :
  ids_ok db -> votes_ok db ->
  (forall prev, db_accounts db !! ac_id r = Some prev -> account_is_null r = false ->
     silent_retraction prev r = false) ->
  db_store_account_record r db = Ok db' -> ids_ok db' /\ votes_ok db'.
Proof. eauto using store_account_ids, store_account_votes. Qed.

(** A delegate, the same account retracted, and a database that holds it. *)
Definition sample_delegate (key votes : Z) : account_record :=
  mk_account 7 "init0" v_null 1 {[ 5 := key ]} 5 5
    (Some (mk_delegate_stats votes 3 {[ 5 := 9 ]} 0 None 0 0 0 0 0)) None.

Definition sample_db (r : account_record) (votes : gset (Z * Z)) : chain_database :=
  set_db_delegate_votes votes
    (set_db_accounts {[ ac_id r := r ]} (empty_db 0 100 0)).

Lemma sample_ids r votes : ids_ok (sample_db r votes).
Proof. intros id r'. cbn. rewrite lookup_singleton_Some. by intros [<- <-]. Qed.

Lemma sample_votes r v :
  active_delegate_votes r = Some v -> votes_ok (sample_db r {[ (v, ac_id r) ]}).
Proof.
  intros Hr v' id'. cbn. rewrite elem_of_singleton. split.
  - intros [= -> ->]. by rewrite lookup_singleton_eq.
  - destruct (decide (id' = ac_id r)) as [->|].
    + rewrite lookup_singleton_eq. cbn. congruence.
    + by rewrite lookup_singleton_ne by done.
Qed.

Lemma store_account_keeps_vote_index_witness :
  exists db', db_store_account_record (H := toy_crypto) (sample_delegate 4 800)
                (sample_db (sample_delegate 4 500) {[ (500, 7) ]}) = Ok db' /\
    ids_ok db' /\ votes_ok db'.
Proof.
  eexists. split; [vm_compute; reflexivity|].
  apply (store_account_keeps_vote_index (H := toy_crypto) (sample_delegate 4 800)
           (sample_db (sample_delegate 4 500) {[ (500, 7) ]})).
  - apply sample_ids.
  - by apply (sample_votes (sample_delegate 4 500) 500).
  - intros prev [= <-] _. vm_compute. reflexivity.
  - vm_compute. reflexivity.
Defined.



(** Retracting a delegate in a block that does not change its votes leaves
    its entry in the vote index: the stored account is retracted, yet it is still
    listed among the delegates by vote. *)
Theorem retracted_delegate_stays_indexed `{Crypto} (prev r : account_record) v db db' :
  votes_ok db -> db_accounts db !! ac_id r = Some prev ->
  account_is_null r = false -> active_delegate_votes prev = Some v ->
  account_net_votes r = Ok v -> account_is_retracted r = true ->
  db_store_account_record r db = Ok db' ->
  db_accounts db' !! ac_id r = Some r /\ active_delegate_votes r = None /\
  (v, ac_id r) ∈ db_delegate_votes db'.
Proof.
  intros Hv Hp Hnull Hpv Hnr Hret Hs.
  rewrite (store_account_accounts _ _ _ Hs), Hnull, lookup_insert_eq. split_and!; [done| |].
  - unfold active_delegate_votes. by rewrite Hret.
  - assert (Hin : (v, ac_id r) ∈ db_delegate_votes db) by (apply Hv; by rewrite Hp).
    unfold db_store_account_record, db_get_account_record in Hs. rewrite Hp, Hnull in Hs.
    apply bind_Ok in Hs as (? & _ & (votes & Hi & [= <-])%bind_Ok).
    cbn [db_delegate_votes set_db_delegate_votes].
    unfold index_votes, account_is_delegate, account_net_votes, active_delegate_votes in *.
    destruct (account_is_retracted prev); [done|].
    destruct (ac_delegate_info prev) as [d|], (ac_delegate_info r) as [d'|]; try done.
    cbn in Hi, Hpv, Hnr. injection Hpv as Hd. injection Hnr as Hd'. rewrite Hd, Hd' in Hi.
    rewrite Z.eqb_refl in Hi. cbn in Hi. by injection Hi as <-.
Qed.

Lemma retracted_delegate_stays_indexed_witness :
  exists db', db_store_account_record (H := toy_crypto) (sample_delegate 0 500)
                (sample_db (sample_delegate 4 500) {[ (500, 7) ]}) = Ok db' /\
    active_delegate_votes (sample_delegate 0 500) = None /\
    (500, 7) ∈ db_delegate_votes db' /\ next_round_active_delegates db' = [7].
Proof.
  destruct (db_store_account_record (H := toy_crypto) (sample_delegate 0 500)
              (sample_db (sample_delegate 4 500) {[ (500, 7) ]})) as [db'|] eqn:Hs;
    [|vm_compute in Hs; discriminate Hs].
  exists db'. split; [done|].
  destruct (retracted_delegate_stays_indexed (H := toy_crypto) (sample_delegate 4 500)
    (sample_delegate 0 500) 500 (sample_db (sample_delegate 4 500) {[ (500, 7) ]}) db')
    as (_ & Ha & Hb); try (vm_compute; reflexivity); [|exact Hs|].
  - by apply (sample_votes (sample_delegate 4 500) 500).
  - split_and!; [exact Ha|exact Hb|].
    vm_compute in Hs. injection Hs as <-. vm_compute. reflexivity.
Defined.

(** The expiration index lists each collateral position under its expiration. *)
Definition expiration_index_ok (db : chain_database) : Prop :=
  forall k r, db_collateral db !! k = Some r ->
    expiration_entry k r ∈ db_collateral_expiration db.

(** [store_collateral_record] files a position that was not there before in
    the collateral map and not in the expiration index, so that from a database
    without entries for the position's market the index is no longer complete;
    a later change of its expiration does index it. *)
Theorem new_collateral_not_indexed k r db :
  collateral_is_null r = false -> db_collateral db !! k = None ->
  (forall e, (quote_asset_id (mk_order_price k), e, k) ∉ db_collateral_expiration db) ->
  let db' := db_store_collateral_record k r db in
  db_collateral db' !! k = Some r /\ ~ expiration_index_ok db' /\
  forall r', collateral_is_null r' = false -> cr_expiration r' <> cr_expiration r ->
    expiration_entry k r' ∈ db_collateral_expiration (db_store_collateral_record k r' db').
Proof.
  intros Hnull Hk Hidx. cbn zeta.
  assert (Hst : db_collateral (db_store_collateral_record k r db) !! k = Some r)
    by (cbn; unfold store_or_remove; rewrite Hnull; apply lookup_insert_eq).
  split_and!; [done| |].
  - intros Hok. apply Hok in Hst. cbn in Hst. rewrite Hk in Hst. by apply Hidx in Hst.
  - intros r' Hnull' Hne. unfold db_store_collateral_record at 1. rewrite Hst, Hnull'.
    rewrite (proj2 (Z.eqb_neq _ _)) by auto. cbn. set_solver.
Qed.

Lemma new_collateral_not_indexed_witness :
  let k := mk_market_key (mk_price 1000 0 5) 33 in
  let db' := db_store_collateral_record k (mk_collateral 90 60 null_price 777)
               (empty_db 0 100 0) in
  ~ expiration_index_ok db'.
Proof.
  cbn zeta.
  apply (new_collateral_not_indexed (mk_market_key (mk_price 1000 0 5) 33)
           (mk_collateral 90 60 null_price 777) (empty_db 0 100 0));
    [reflexivity|reflexivity|].
  intros e He. inversion He.
Defined.

Definition price_within (lo hi p : price) : Prop := price_le lo p /\ price_le p hi.
#[global] Instance price_within_dec lo hi p : Decision (price_within lo hi p).
Proof. unfold price_within. apply _. Defined.

(** A price an active delegate published for the market less than a day ago. *)
Definition current_feed (db : chain_database) (quote_id base_id : Z) (p : price) : Prop :=
  exists active i r, db_get_property db active_delegate_list_prop = Ok (v_ids active) /\
    db_feeds db !! i = Some r /\ fi_feed_id (fr_feed r) = quote_id /\ fi_delegate_id (fr_feed r) ∈ active /\
    db_now db < fr_last_update r + 86400 /\ variant_as_price (fr_value r) = Ok p /\
    quote_asset_id p = quote_id /\ base_asset_id p = base_id.

Lemma feed_price_of_Some db active quote_id base_id r p :
  feed_price_of db active quote_id base_id r = Some p <->
  fi_feed_id (fr_feed r) = quote_id /\ fi_delegate_id (fr_feed r) ∈ active /\
  db_now db < fr_last_update r + 86400 /\ variant_as_price (fr_value r) = Ok p /\
  quote_asset_id p = quote_id /\ base_asset_id p = base_id.
Proof.
  unfold feed_price_of.
  assert (He : existsb (Z.eqb (fi_delegate_id (fr_feed r))) active = true <-> fi_delegate_id (fr_feed r) ∈ active).
  { rewrite existsb_exists, list_elem_of_In. split; [by intros (x & Hx & ->%Z.eqb_eq)|].
    intros Hin. exists (fi_delegate_id (fr_feed r)). split; [done|apply Z.eqb_refl]. }
  destruct (Z.eqb_spec (fi_feed_id (fr_feed r)) quote_id) as [Hq|Hq]; cbn; [|naive_solver].
  destruct (existsb _ active); [|split; [done|]; intros (_ & Hin & _); by apply He in Hin].
  destruct (Z.gtb_spec (fr_last_update r + 86400) (db_now db)) as [Hn|Hn]; [|split; [done|]; intros; lia].
  destruct (variant_as_price (fr_value r)) as [q|e]; [|naive_solver].
  destruct (Z.eqb_spec (quote_asset_id q) quote_id) as [H1|H1]; cbn; [|naive_solver].
  destruct (Z.eqb_spec (base_asset_id q) base_id) as [H2|H2]; [|naive_solver].
  split; [|naive_solver]. intros [= ->]. split_and!; first [done|by apply He|lia].
Qed.

Lemma variant_as_ids_Ok v l : variant_as_ids v = Ok l -> v = v_ids l.
Proof. destruct v; cbn; try done. by intros [= ->]. Qed.

(** The prices collected are the current feeds of the market, one for each record. *)
Lemma delegate_feed_prices_spec db quote_id base_id prices :
  delegate_feed_prices db quote_id base_id = Ok prices ->
  forall p, p ∈ prices <-> current_feed db quote_id base_id p.
Proof.
  intros (v & Hv & (active & ->%variant_as_ids_Ok & [= <-])%bind_Ok)%bind_Ok p.
  rewrite list_elem_of_omap. split.
  - intros (r & Hr & Hp%feed_price_of_Some). apply list_elem_of_fmap in Hr as ([i r'] & -> & Hi).
    apply elem_of_map_to_list in Hi. exists active, i, r'. done.
  - intros (active' & i & r & Ha & Hi & Hf). rewrite Hv in Ha. injection Ha as <-.
    exists r. split; [|by apply feed_price_of_Some]. apply list_elem_of_fmap.
    exists (i, r). split; [done|]. by apply elem_of_map_to_list.
Qed.

(** C39: The prices the median is taken of are exactly those active delegates published
    for the market less than a day ago.  The median is one of them, exists only with
    more than half as many prices as there are delegates in a round, and lies in every
    interval a strict majority of the prices lies in: a minority of delegates cannot
    move it outside. *)
Theorem median_feed_majority (db : chain_database) quote_id base_id m :
  db_get_median_delegate_price db quote_id base_id = Ok (Some m) ->
  exists prices, delegate_feed_prices db quote_id base_id = Ok prices /\
  (forall p, p ∈ prices <-> current_feed db quote_id base_id p) /\
  m ∈ prices /\ BTS_BLOCKCHAIN_NUM_DELEGATES < 2 * Z.of_nat (List.length prices) /\
  forall lo hi,
    (List.length prices < 2 * List.length (filter (price_within lo hi) prices))%nat ->
    price_within lo hi m.
Proof.
  intros (prices & Hp & Hm)%bind_Ok. exists prices.
  destruct (_ >=? _) eqn:Hcount in Hm; [|done]. injection Hm as Hm.
  split_and!; [done|by apply delegate_feed_prices_spec|..].
  - by eapply median_elem.
  - change BTS_BLOCKCHAIN_MIN_FEEDS with 51 in Hcount. change BTS_BLOCKCHAIN_NUM_DELEGATES with 101. lia.
  - intros lo hi Hmaj. eapply (median_majority _ _ Hm); [done|].
    intros p q r [] [] ??. split; [by transitivity p|by transitivity r].
Qed.

(** Sixty delegates publish; eight of them publish nonsense. *)
Definition feed_db : chain_database :=
  let ids := seqZ 1 60 in
  let feed (d : Z) := mk_feed (mk_feed_index 5 d)
    (v_price (mk_price (if d <? 9 then 10^6 * d else 1000 + d) 0 5)) 90000 in
  set_db_feeds (list_to_map ((fun d => (mk_feed_index 5 d, feed d)) <$> ids))
    (set_db_properties {[ active_delegate_list_prop := v_ids ids ]} (empty_db 0 100000 0)).

Lemma median_feed_majority_witness :
  exists prices m, delegate_feed_prices feed_db 5 0 = Ok prices /\
    db_get_median_delegate_price feed_db 5 0 = Ok (Some m) /\
    price_within (mk_price 1000 0 5) (mk_price 2000 0 5) m /\ current_feed feed_db 5 0 m.
Proof.
  assert (Hm : exists m, db_get_median_delegate_price feed_db 5 0 = Ok (Some m))
    by (eexists; vm_compute; reflexivity).
  destruct Hm as [m Hm]. destruct (median_feed_majority feed_db 5 0 m Hm) as (prices & Hp & Hc & Hin & _ & Hmaj).
  exists prices, m. split_and!; [exact Hp|exact Hm| |apply Hc; exact Hin].
  apply Hmaj. clear - Hp. vm_compute in Hp. injection Hp as <-. vm_compute. lia.
Defined.
