(* ===== verification/Apply.v ===== *)
(** * Apply: writing a pending state into the state below it (pending_chain_state.cpp)

    [apply_changes] and [get_undo_state] of pending_chain_state, over any
    [ChainStore]: the block's pending state, or the database.  The loops run over
    the buffer's maps; [each_update] (Prelude.v) shows that what a loop leaves behind does not
    depend on the order it visits the entries in. *)
From S2P Require Import Prelude Config Fc Asset Records ChainInterface PendingState ChainDatabase DatabaseFacts.
From Stdlib Require Import String.

(** ** [apply_changes] *)

Section apply_changes.
Context {St : Type} `{!ChainStore St}.

(** A total update method as a loop body; a record stored under its own key. *)
Definition put {K V} (f : K -> V -> St -> St) : K -> V -> St -> result St :=
  fun k v s => Ok (f k v s).
Definition put_record {K V} (f : V -> St -> St) : K -> V -> St -> result St :=
  fun _ v s => Ok (f v s).

Definition apply_changes (p : pending_chain_state) (prev_state : St) : result St :=
  match ps_prev p with
  | None => Ok prev_state
  | Some _ =>
    s ← each (put cs_set_property) (ps_properties p) prev_state;
    s ← each (put_record cs_store_asset) (ps_assets p) s;
    s ← each (fun _ r s => cs_store_account r s) (ps_accounts p) s;
    s ← each (put_record cs_store_balance) (ps_balances p) s;
    s ← each (put cs_authorize) (ps_authorizations p) s;
    s ← each (put cs_store_bid) (ps_bids p) s;
    s ← each (put cs_store_relative_bid) (ps_relative_bids p) s;
    s ← each (put cs_store_ask) (ps_asks p) s;
    s ← each (put cs_store_relative_ask) (ps_relative_asks p) s;
    s ← each (put cs_store_short) (ps_shorts p) s;
    s ← each (put cs_store_collateral) (ps_collateral p) s;
    s ← each cs_store_transaction (ps_transactions p) s;
    s ← each (put cs_store_slate) (ps_slates p) s;
    s ← each (put_record cs_store_slot) (ps_slots p) s;
    s ← each (put cs_store_market_history) (ps_market_history p) s;
    s ← each (put_record cs_store_market_status) (ps_market_statuses p) s;
    s ← each (put_record cs_store_proposal) (ps_asset_proposals p) s;
    s ← each (put_record cs_set_feed) (ps_feeds p) s;
    s ← each (fun _ q s => Ok (foldl (fun s o => cs_store_recent_operation o s) s q))
          (ps_recent_operations p) s;
    s ← each (put cs_store_burn) (ps_burns p) s;
    s ← cs_set_market_transactions (ps_market_transactions p) s;
    Ok (cs_set_dirty_markets (elements (ps_dirty_markets p)) s)
  end.
End apply_changes.

(** ** [get_undo_state] *)

Section get_undo_state.
Context `{Crypto}.
Variable prev_state : chain_view.

(** [prev_value ? f( *prev_value ) : f( null )] *)
Definition undo_with {V} (prev : option V) (null : V)
    (f : V -> pending_chain_state -> pending_chain_state) (u : pending_chain_state)
    : result pending_chain_state :=
  Ok (f (default null prev) u).

(** The loops write into [u], a pending state without a previous state.  The
    [objects] loop is left out with the object index. *)
Definition get_undo_state (p : pending_chain_state) (u : pending_chain_state)
    : result pending_chain_state :=
  u ← each (fun id _ u => v ← cv_property prev_state id; Ok (pending_set_property id v u))
        (ps_properties p) u;
  u ← each (fun id r => undo_with (cv_asset prev_state id) (asset_make_null r)
                          pending_store_asset_record) (ps_assets p) u;
  u ← each (fun id _ => undo_with (cv_slate prev_state id) null_slate
                          (pending_store_delegate_slate id)) (ps_slates p) u;
  u ← each (fun id r u => pending_store_account_record
               (default (account_make_null r) (cv_account prev_state id)) u) (ps_accounts p) u;
  u ← each (fun k r => undo_with (cv_proposal prev_state k) (proposal_make_null r)
                         pending_store_asset_proposal) (ps_asset_proposals p) u;
  u ← each (fun id r => undo_with (cv_balance prev_state id) (balance_make_null r)
                          pending_store_balance_record) (ps_balances p) u;
  u ← each (fun k _ u => Ok match cv_authorization prev_state k with
                            | Some oid => pending_authorize k oid u
                            | None => pending_deauthorize k u
                            end) (ps_authorizations p) u;
  u ← each (fun id _ u => v ← cv_transaction prev_state id;
               pending_store_transaction id (default null_trx_record v) u) (ps_transactions p) u;
  u ← each (fun k _ => undo_with (cv_bid prev_state k) null_order_record
                         (pending_store_bid_record k)) (ps_bids p) u;
  u ← each (fun k _ => undo_with (cv_relative_bid prev_state k) null_order_record
                         (pending_store_relative_bid_record k)) (ps_relative_bids p) u;
  u ← each (fun k _ => undo_with (cv_ask prev_state k) null_order_record
                         (pending_store_ask_record k)) (ps_asks p) u;
  u ← each (fun k _ => undo_with (cv_relative_ask prev_state k) null_order_record
                         (pending_store_relative_ask_record k)) (ps_relative_asks p) u;
  u ← each (fun k _ => undo_with (cv_short prev_state k) null_order_record
                         (pending_store_short_record k)) (ps_shorts p) u;
  u ← each (fun k _ => undo_with (cv_collateral prev_state k) null_collateral_record
                         (pending_store_collateral_record k)) (ps_collateral p) u;
  u ← each (fun t _ u => v ← cv_slot prev_state t;
               undo_with v null_slot pending_store_slot_record u) (ps_slots p) u;
  u ← each (fun m _ => undo_with (cv_market_status prev_state m) null_market_status
                         pending_store_market_status) (ps_market_statuses p) u;
  u ← each (fun i _ => undo_with (cv_feed prev_state i) (mk_feed i v_null 0)
                         pending_set_feed) (ps_feeds p) u;
  u ← each (fun k _ u => Ok (pending_store_burn_record k (mk_burn_value (mk_asset 0 0) "" None) u))
        (ps_burns p) u;
  Ok (pending_set_dirty_markets (get_dirty_markets prev_state) u).
End get_undo_state.

(** ** Records are filed under their own keys *)

Definition keyed `{Countable K} {V} (key : V -> K) (m : gmap K V) : Prop :=
  forall k v, m !! k = Some v -> key v = k.

Lemma keyed_empty `{Countable K} {V} (key : V -> K) : keyed key ∅.
Proof. intros k v. by rewrite lookup_empty. Qed.

Lemma keyed_insert `{Countable K} {V} (key : V -> K) v (m : gmap K V) :
  keyed key m -> keyed key (<[key v := v]> m).
Proof. intros Hm k v'. rewrite lookup_insert_Some. intros [[<- <-]|[_ ?]]; auto. Qed.

Lemma keyed_delete `{Countable K} {V} (key : V -> K) k (m : gmap K V) :
  keyed key m -> keyed key (delete k m).
Proof. intros Hm k' v'. rewrite lookup_delete_Some. intros [_ ?]; auto. Qed.

Definition market_status_key (s : market_status) : Z * Z := (mst_quote_id s, mst_base_id s).
Definition proposal_key (r : proposal_record) : Z * Z := (pr_asset_id r, pr_proposal_id r).

Create HintDb keyed.
#[export] Hint Resolve keyed_empty keyed_insert keyed_delete : keyed.

Section pending_ok.
Context `{Crypto}.

Record pending_ok (p : pending_chain_state) : Prop := mk_pending_ok {
  po_assets : keyed as_id (ps_assets p);
  po_accounts : keyed ac_id (ps_accounts p);
  po_balances : keyed balance_id (ps_balances p);
  po_slots : keyed so_start_time (ps_slots p);
  po_statuses : keyed market_status_key (ps_market_statuses p);
  po_proposals : keyed proposal_key (ps_asset_proposals p);
  po_feeds : keyed fr_feed (ps_feeds p);
  po_recent t q : ps_recent_operations p !! t = Some q -> Forall (fun o => op_type o = t) q
}.

Lemma new_pending_ok prev : pending_ok (new_pending prev).
Proof. split; first [apply keyed_empty|intros t q; cbn; by rewrite lookup_empty]. Qed.

(** One update method of the pending state. *)
Inductive pending_step (p : pending_chain_state) : pending_chain_state -> Prop :=
| step_property id v : pending_step p (pending_set_property id v p)
| step_asset r : pending_step p (pending_store_asset_record r p)
| step_account r p' : pending_store_account_record r p = Ok p' -> pending_step p p'
| step_balance r : pending_step p (pending_store_balance_record r p)
| step_slate id s : pending_step p (pending_store_delegate_slate id s p)
| step_transaction id r p' : pending_store_transaction id r p = Ok p' -> pending_step p p'
| step_recent o : pending_step p (pending_store_recent_operation o p)
| step_bid k r : pending_step p (pending_store_bid_record k r p)
| step_ask k r : pending_step p (pending_store_ask_record k r p)
| step_relative_bid k r : pending_step p (pending_store_relative_bid_record k r p)
| step_relative_ask k r : pending_step p (pending_store_relative_ask_record k r p)
| step_short k r : pending_step p (pending_store_short_record k r p)
| step_collateral k r : pending_step p (pending_store_collateral_record k r p)
| step_slot r : pending_step p (pending_store_slot_record r p)
| step_history k r : pending_step p (pending_store_market_history_record k r p)
| step_status s : pending_step p (pending_store_market_status s p)
| step_feed r : pending_step p (pending_set_feed r p)
| step_burn k v : pending_step p (pending_store_burn_record k v p)
| step_authorize k oid : pending_step p (pending_authorize k oid p)
| step_proposal r : pending_step p (pending_store_asset_proposal r p)
| step_market_trxs l : pending_step p (pending_set_market_transactions l p)
| step_dirty q b : pending_step p (pending_set_market_dirty q b p)
| step_prev v : pending_step p (set_ps_prev v p).

(** The pending states a program of update methods can produce. *)
Definition pending_reachable (p : pending_chain_state) : Prop :=
  exists prev, rtc pending_step (new_pending prev) p.

Lemma push_recent_type t o q :
  op_type o = t -> Forall (fun o => op_type o = t) q -> Forall (fun o => op_type o = t) (push_recent o q).
Proof.
  intros Ho Hq. assert (Ha : Forall (fun o => op_type o = t) (q ++ [o])).
  { apply Forall_app. split; [done|]. by constructor. }
  unfold push_recent. case_match; [|done]. by destruct (q ++ [o]); inversion Ha.
Qed.

Lemma store_recent_ok o p : pending_ok p -> pending_ok (pending_store_recent_operation o p).
Proof.
  intros Hp. pose proof (po_recent p Hp) as Hq. destruct Hp. split; try done.
  intros t q. cbn. rewrite lookup_insert_Some. intros [[<- <-]|[_ Hl]]; [|eauto].
  apply push_recent_type; [done|]. destruct (ps_recent_operations p !! op_type o) as [q|] eqn:E; cbn; [eauto|done].
Qed.

Lemma foldl_recent_ok ops p :
  pending_ok p -> pending_ok (foldl (fun p o => pending_store_recent_operation o p) p ops).
Proof.
  revert p. induction ops as [|o ops IH]; intros p Hp; cbn; [done|]. by apply IH, store_recent_ok.
Qed.

Lemma store_transaction_ok id r p p' :
  pending_ok p -> pending_store_transaction id r p = Ok p' -> pending_ok p'.
Proof.
  intros Hp (p2 & H2 & [= <-])%bind_Ok. apply foldl_recent_ok.
  destruct (ps_prev p).
  - inv_ok. destruct Hp. by split.
  - injection H2 as <-. destruct Hp. by split.
Qed.

Lemma pending_step_ok p p' : pending_ok p -> pending_step p p' -> pending_ok p'.
Proof.
  intros Hp Hs. destruct Hs; try (by apply store_recent_ok); try (destruct Hp; split; cbn; eauto with keyed; fail).
  - apply bind_Ok in H0 as (idx & _ & [= <-]). destruct Hp. split; cbn; eauto with keyed.
  - eauto using store_transaction_ok.
  - destruct Hp. split; cbn; eauto. change (mst_quote_id s, mst_base_id s) with (market_status_key s).
    eauto with keyed.
  - destruct Hp. split; cbn; eauto. change (pr_asset_id r, pr_proposal_id r) with (proposal_key r).
    eauto with keyed.
Qed.

Lemma pending_reachable_ok p : pending_reachable p -> pending_ok p.
Proof.
  intros [prev Hr]. pose proof (new_pending_ok prev) as Hok. revert Hok.
  induction Hr; eauto using pending_step_ok.
Qed.
End pending_ok.
