(* ===== verification/ApplyFacts.v ===== *)
(** * ApplyFacts: applying a block's changes to the database

    What the database holds after [apply_changes]: for every kind of record the
    view through the pending state, less the records a null value removes.  The
    database's own invariant, no null record and each under its key, is kept. *)
From S2P Require Import Prelude Config Fc Asset Records ChainInterface PendingState ChainDatabase DatabaseFacts.
From S2P Require Import Apply.
From Stdlib Require Import String.

(** What remains of a lookup once null records are removed. *)
Definition keep {V} (null : V -> bool) (o : option V) : option V :=
  o ≫= fun v => if null v then None else Some v.

(** An entry of the buffer, or else the record there was. *)
Definition written {V} (null : V -> bool) (own old : option V) : option V :=
  match own with Some v => keep null (Some v) | None => old end.

Definition no_null `{Countable K} {V} (null : V -> bool) (m : gmap K V) : Prop :=
  forall k v, m !! k = Some v -> null v = false.

Lemma keep_id `{Countable K} {V} (null : V -> bool) (m : gmap K V) k :
  no_null null m -> keep null (m !! k) = m !! k.
Proof. intros Hm. destruct (m !! k) as [v|] eqn:E; cbn; [by rewrite (Hm k v E)|done]. Qed.

Definition slate_is_null (s : delegate_slate) : bool :=
  Z.of_nat (List.length (sl_supported_delegates s)) =? 0.
Definition proposal_is_null (r : proposal_record) : bool := pr_info r =? null_object_id.
Definition history_is_null (r : market_history_record) : bool := hr_volume r =? 0.
Definition trx_is_null (r : transaction_record) : bool := Z.of_nat (List.length (tx_operations (tr_trx r))) =? 0.
Definition authorization_is_null (oid : Z) : bool := oid =? null_object_id.

Lemma store_or_remove_alter `{Countable K} {V} (null : V -> bool) k v (m : gmap K V) :
  store_or_remove (null v) k v m = partial_alter (fun _ => keep null (Some v)) k m.
Proof. unfold store_or_remove. cbn. by destruct (null v). Qed.

(** ** What a store leaves alone *)

Section frames.
Context `{Crypto} {A : Type} (get : chain_database -> A).

Lemma store_account_frame r db db' :
  (forall a b c d db, get (set_db_delegate_votes a (set_db_address_to_account b
     (set_db_account_index c (set_db_accounts d db)))) = get db) ->
  db_store_account_record r db = Ok db' -> get db' = get db.
Proof.
  intros Hg. unfold db_store_account_record.
  destruct (db_get_account_record db (ac_id r)) as [prev|], (account_is_null r).
  - intros ([] & _ & [= <-])%bind_Ok. apply Hg.
  - intros (? & _ & (? & _ & [= <-])%bind_Ok)%bind_Ok. apply Hg.
  - by intros [= <-].
  - intros ([] & _ & [= <-])%bind_Ok. apply Hg.
Qed.

Lemma store_transaction_frame id r db db' :
  (forall a db, get (set_db_transactions a db) = get db) ->
  (forall a db, get (set_db_unique_transactions a db) = get db) ->
  db_store_transaction id r db = Ok db' -> get db' = get db.
Proof.
  intros Ht Hu. unfold db_store_transaction. case_match.
  - intros [= <-]. case_match; [apply Ht|done].
  - intros (_ & _ & (db1 & H1 & [= <-])%bind_Ok)%bind_Ok.
    assert (get db1 = get db) as <-.
    { case_match; [|by injection H1 as <-]. apply bind_Ok in H1 as (_ & _ & [= <-]). apply Hu. }
    destruct (db_track_stats db); [apply Ht|done].
Qed.

Lemma recent_operations_frame q db :
  (forall a db, get (set_db_recent_operations a db) = get db) ->
  get (foldl (fun s o => db_store_recent_operation o s) db q) = get db.
Proof.
  intros Hg. revert db. induction q as [|o q IH]; intros db; cbn; [done|]. rewrite IH. apply Hg.
Qed.

Lemma market_transactions_frame l db db' :
  (forall a db, get (set_db_market_transactions a db) = get db) ->
  db_set_market_transactions l db = Ok db' -> get db' = get db.
Proof. intros Hg (_ & _ & [= <-])%bind_Ok. apply Hg. Qed.
End frames.

(** Shows that a loop body does not touch the component in question. *)
Ltac body_frame get :=
  let Hs := fresh in
  intros ?k ?v ?s ?s' Hs;
  first
    [ apply (store_account_frame get _ _ _ (fun _ _ _ _ _ => eq_refl) Hs)
    | apply (store_transaction_frame get _ _ _ _ (fun _ _ => eq_refl) (fun _ _ => eq_refl) Hs)
    | injection Hs as <-;
      first [ reflexivity
            | apply (recent_operations_frame get); intros; reflexivity
            | cbn; unfold db_store_asset_record, db_store_slot_record,
                db_store_market_history_record, db_store_burn_record;
              case_match; reflexivity ] ].

(** Rewrites a component back through the loops that leave it alone. *)
Ltac skip_frames :=
  repeat match goal with
    | Hs : each ?f ?m ?s = Ok ?s' |- context [ ?get ?s' ] =>
        rewrite (each_frame get f m s s'); [|body_frame get|exact Hs]; clear Hs
    | Hs : cs_set_market_transactions ?l ?s = Ok ?s' |- context [ ?get ?s' ] =>
        rewrite (market_transactions_frame get l s s' (fun _ _ => eq_refl) Hs); clear Hs
    | |- context [ ?get (db_set_dirty_markets ?d ?s) ] =>
        change (get (db_set_dirty_markets d s)) with (get s)
    end.

Ltac apply_steps H :=
  repeat match type of H with
    | _ ≫= _ = Ok _ => let s := fresh "s" in let Hs := fresh "Hs" in
                       apply bind_Ok in H as (s & Hs & H)
    end;
  injection H as <-.

(** What [store_transaction] does when statistics are tracked. *)
Lemma store_transaction_spec `{Crypto} id r db db' :
  db_store_transaction id r db = Ok db' -> db_track_stats db = true ->
  db_track_stats db' = true /\
  db_transactions db' = partial_alter (fun _ => keep trx_is_null (Some r)) id (db_transactions db) /\
  db_now db' = db_now db /\ db_chain_id db' = db_chain_id db /\
  forall exp d, db_is_known_transaction db' exp d = true <->
    db_is_known_transaction db exp d = true \/
    trx_is_null r = false /\ tx_expiration (tr_trx r) = exp /\ db_now db < exp /\
      trx_digest (tr_trx r) (db_chain_id db) = d.
Proof.
  intros Hst Ht. unfold db_store_transaction in Hst. fold (trx_is_null r) in Hst. rewrite Ht in Hst. unfold keep.
  cbn [mbind option_bind]. destruct (trx_is_null r) eqn:Hnull.
  - injection Hst as <-. split_and!; try done. intros exp d. split; [by left|]. by intros [?|[? _]].
  - apply bind_Ok in Hst as (_ & _ & (db1 & H1 & [= <-])%bind_Ok).
    destruct (Z.gtb_spec (tx_expiration (tr_trx r)) (db_now db)) as [He|He].
    + apply bind_Ok in H1 as (_ & _ & [= <-]). split_and!; try done. intros exp d.
      unfold db_is_known_transaction. cbn. destruct (decide (tx_expiration (tr_trx r) = exp)) as [<-|Hne].
      * rewrite lookup_insert_eq, bool_decide_eq_true, elem_of_union, elem_of_singleton.
        destruct (db_unique_transactions db !! _) as [set|] eqn:E; cbn; rewrite ?bool_decide_eq_true; set_solver by lia.
      * rewrite lookup_insert_ne by done. split; [by left|]. by intros [?|(_ & ? & _)].
    + injection H1 as <-. split_and!; try done. intros exp d. split; [by left|].
      intros [?|(_ & <- & ? & _)]; [done|lia].
Qed.

(** ** The database after a block *)

Section apply_db.
Context `{Crypto}.

(** No null record is stored, and each is under its own key. *)
Record db_ok (db : chain_database) : Prop := mk_db_ok {
  dk_assets : no_null asset_is_null (db_assets db);
  dk_asset_keys : keyed as_id (db_assets db);
  dk_accounts : no_null account_is_null (db_accounts db);
  dk_account_keys : ids_ok db;
  dk_balance_keys : keyed balance_id (db_balances db);
  dk_slates : no_null slate_is_null (db_slates db);
  dk_bids : no_null order_is_null (db_bids db);
  dk_asks : no_null order_is_null (db_asks db);
  dk_relative_bids : no_null order_is_null (db_relative_bids db);
  dk_relative_asks : no_null order_is_null (db_relative_asks db);
  dk_shorts : no_null order_is_null (db_shorts db);
  dk_collateral : no_null collateral_is_null (db_collateral db);
  dk_feeds : no_null feed_is_null (db_feeds db);
  dk_feed_keys : keyed fr_feed (db_feeds db);
  dk_authorizations : no_null authorization_is_null (db_authorizations db);
  dk_proposals : no_null proposal_is_null (db_asset_proposals db);
  dk_proposal_keys : keyed proposal_key (db_asset_proposals db)
}.

Section lookups.
Context (p : pending_chain_state) (db db' : chain_database).
Hypothesis Hprev : ps_prev p = Some (db_view db).
Hypothesis Hp : pending_ok p.
Hypothesis Hdb : db_ok db.
Hypothesis Happly : apply_changes p db = Ok db'.

(** A lookup through the pending state, without the overlay. *)
Lemma keep_overlay `{Countable K} {V} (null : V -> bool) (m own : gmap K V) (k : K)
    (f : chain_view -> option V) :
  no_null null m -> f (db_view db) = m !! k ->
  keep null (overlay (own !! k) (ps_prev p) f) =
    match own !! k with Some v => keep null (Some v) | None => m !! k end.
Proof using Hprev.
  intros Hm Hf. rewrite Hprev. destruct (own !! k); [done|]. cbn. rewrite Hf. by apply keep_id.
Qed.

(** One kind of record, through all the loops. [key] shows that the entry is
    filed under its key and [body] what the store does. *)
Ltac kind null nn body :=
  etransitivity; [|symmetry; eapply (keep_overlay null); [apply nn, Hdb|reflexivity]];
  unfold apply_changes in Happly; rewrite Hprev in Happly; apply_steps Happly; skip_frames;
  match goal with Hs : each ?f ?m ?s = Ok ?s' |- context [ ?get ?s' !! _ ] =>
    rewrite (each_update get (fun _ v => keep null (Some v)) (fun _ => True) f m s s');
    [ clear Hs; skip_frames; reflexivity
    | let Hk := fresh in intros ?k ?v ? ? Hk _ [= <-]; split; [done|]; body Hk;
      try exact (store_or_remove_alter null _ _ _)
    | done | exact Hs ] end.
Ltac by_key key Hk := rewrite <- (key _ Hp _ _ Hk).
Ltac plain Hk := idtac.

Lemma apply_bids k : db_bids db' !! k = keep order_is_null (pending_get_bid_record p k).
Proof using All. kind order_is_null dk_bids plain. Qed.
Lemma apply_asks k : db_asks db' !! k = keep order_is_null (pending_get_ask_record p k).
Proof using All. kind order_is_null dk_asks plain. Qed.
Lemma apply_relative_bids k :
  db_relative_bids db' !! k = keep order_is_null (pending_get_relative_bid_record p k).
Proof using All. kind order_is_null dk_relative_bids plain. Qed.
Lemma apply_relative_asks k :
  db_relative_asks db' !! k = keep order_is_null (pending_get_relative_ask_record p k).
Proof using All. kind order_is_null dk_relative_asks plain. Qed.
Lemma apply_shorts k : db_shorts db' !! k = keep order_is_null (pending_get_short_record p k).
Proof using All. kind order_is_null dk_shorts plain. Qed.
Lemma apply_collateral k :
  db_collateral db' !! k = keep collateral_is_null (pending_get_collateral_record p k).
Proof using All. kind collateral_is_null dk_collateral plain. Qed.
Lemma apply_slates k : db_slates db' !! k = keep slate_is_null (pending_get_delegate_slate p k).
Proof using All. kind slate_is_null dk_slates plain. Qed.
Lemma apply_feeds k : db_feeds db' !! k = keep feed_is_null (pending_get_feed p k).
Proof using All.
  kind feed_is_null dk_feeds ltac:(by_key po_feeds).
Qed.
Lemma apply_proposals k :
  db_asset_proposals db' !! k = keep proposal_is_null (pending_fetch_asset_proposal p k).
Proof using All.
  kind proposal_is_null dk_proposals ltac:(by_key po_proposals).
Qed.
Lemma apply_assets k : db_assets db' !! k = keep asset_is_null (pending_get_asset_record p k).
Proof using All.
  kind asset_is_null dk_assets ltac:(fun Hk => by_key po_assets Hk;
    cbn; unfold db_store_asset_record; case_match; done).
Qed.
Lemma apply_balances k : db_balances db' !! k = pending_get_balance_record p k.
Proof using All.
  transitivity (keep (fun _ => false) (pending_get_balance_record p k));
    [|by destruct (pending_get_balance_record p k)].
  etransitivity; [|symmetry; eapply (keep_overlay (fun _ => false)); [done|reflexivity]].
  unfold apply_changes in Happly. rewrite Hprev in Happly. apply_steps Happly. skip_frames.
  rewrite (fun A B => each_update db_balances (fun _ => Some) (fun _ => True) _ _ _ _ A B Hs2);
    [by skip_frames| |done].
  intros k0 v s20 s' Hk _ [= <-]. by rewrite <- (po_balances _ Hp _ _ Hk).
Qed.

Lemma apply_authorizations k : db_authorizations db' !! k = pending_get_authorization p k.
Proof using All.
  unfold apply_changes in Happly. rewrite Hprev in Happly. apply_steps Happly. skip_frames.
  rewrite (fun A B => each_update db_authorizations
             (fun _ v => keep authorization_is_null (Some v)) (fun _ => True) _ _ _ _ A B Hs3);
    [skip_frames| |done].
  - unfold pending_get_authorization. rewrite Hprev. by destruct (ps_authorizations p !! k).
  - intros k0 v s20 s' Hk _ [= <-]. split; [done|].
    exact (store_or_remove_alter authorization_is_null _ _ _).
Qed.

Lemma apply_accounts k :
  db_accounts db' !! k = keep account_is_null (pending_get_account_record p k).
Proof using All.
  etransitivity; [|symmetry; eapply (keep_overlay account_is_null); [apply dk_accounts, Hdb|done]].
  unfold apply_changes in Happly. rewrite Hprev in Happly. apply_steps Happly. skip_frames.
  rewrite (fun A B => each_update db_accounts (fun _ v => keep account_is_null (Some v)) ids_ok
             _ _ _ _ A B Hs1); [by skip_frames| |].
  - intros k0 r s20 s' Hk Hids Hst. split; [exact (store_account_ids r s20 s' Hids Hst)|].
    rewrite (store_account_accounts r s20 s' Hst), (po_accounts _ Hp _ _ Hk). cbn.
    destruct (account_is_null r); [|done].
    destruct (db_accounts s20 !! k0) as [r0|] eqn:Er.
    + rewrite (Hids _ _ Er). reflexivity.
    + symmetry. exact (delete_id _ _ Er).
  - unfold ids_ok. skip_frames. apply (dk_account_keys _ Hdb).
Qed.

(** The properties, but for the dirty markets, which are set last. *)
Lemma apply_properties id :
  db_properties db' !! id =
    if decide (id = dirty_markets_prop) then Some (v_pairs (elements (ps_dirty_markets p)))
    else written variant_is_null (ps_properties p !! id) (db_properties db !! id).
Proof using All.
  unfold apply_changes in Happly. rewrite Hprev in Happly. apply_steps Happly.
  cbn [db_properties db_set_dirty_markets db_set_property set_db_properties].
  unfold store_or_remove. cbn [variant_is_null]. case_decide as Hid.
  - subst. by rewrite lookup_insert_eq.
  - rewrite lookup_insert_ne by done. skip_frames.
    apply (fun A B => each_update db_properties (fun _ v => keep variant_is_null (Some v))
             (fun _ => True) _ _ _ _ A B Hs); [|done].
    intros k0 v s20 s' Hk _ [= <-]. split; [done|].
    exact (store_or_remove_alter variant_is_null _ _ _).
Qed.

Lemma apply_track_stats : db_track_stats db' = db_track_stats db.
Proof using Hprev Happly.
  unfold apply_changes in Happly. rewrite Hprev in Happly. apply_steps Happly. by skip_frames.
Qed.

(** Slots are recorded only when statistics are tracked. *)
Lemma apply_slots t :
  db_track_stats db = true ->
  db_slots db' !! t = written slot_is_null (ps_slots p !! t) (db_slots db !! t).
Proof using All.
  intros Htrack. unfold apply_changes in Happly. rewrite Hprev in Happly. apply_steps Happly.
  skip_frames.
  rewrite (fun A B => each_update db_slots (fun _ v => keep slot_is_null (Some v))
             (fun s => db_track_stats s = true) _ _ _ _ A B Hs12); [by skip_frames| |].
  - intros t0 r s20 s' Hk Ht [= <-]. cbn. unfold db_store_slot_record. rewrite Ht. cbn.
    split; [done|]. rewrite <- (po_slots _ Hp _ _ Hk).
    exact (store_or_remove_alter slot_is_null _ _ _).
  - by skip_frames.
Qed.

Lemma apply_market_statuses k :
  db_market_statuses db' !! k = written market_status_is_null (ps_market_statuses p !! k) (db_market_statuses db !! k).
Proof using All.
  unfold apply_changes in Happly. rewrite Hprev in Happly. apply_steps Happly. skip_frames.
  rewrite (fun A B => each_update db_market_statuses (fun _ v => keep market_status_is_null (Some v))
             (fun _ => True) _ _ _ _ A B Hs14); [by skip_frames| |done].
  intros k0 v s20 s' Hk _ [= <-]. split; [done|]. rewrite <- (po_statuses _ Hp _ _ Hk).
  exact (store_or_remove_alter market_status_is_null _ _ _).
Qed.

(** [set_market_transactions] asserts that statistics are tracked. *)
Lemma apply_tracks : db_track_stats db = true.
Proof using Hprev Happly.
  rewrite <- apply_track_stats. unfold apply_changes in Happly. rewrite Hprev in Happly. apply_steps Happly.
  apply bind_Ok in Hs19 as ([] & Ht%fc_assert_Ok & [= <-]). exact Ht.
Qed.

Lemma apply_market_history k :
  db_market_history db' !! k = written history_is_null (ps_market_history p !! k) (db_market_history db !! k).
Proof using All.
  pose proof apply_tracks as Htrack. unfold apply_changes in Happly. rewrite Hprev in Happly. apply_steps Happly.
  skip_frames.
  rewrite (fun A B => each_update db_market_history (fun _ v => keep history_is_null (Some v))
             (fun s => db_track_stats s = true) _ _ _ _ A B Hs13); [by skip_frames| |by skip_frames].
  intros k0 r s20 s' Hk Ht [= <-]. cbn. unfold db_store_market_history_record. rewrite Ht.
  split; [done|]. exact (store_or_remove_alter history_is_null _ _ _).
Qed.

Lemma apply_burns k : db_burns db' !! k = written burn_is_null (ps_burns p !! k) (db_burns db !! k).
Proof using All.
  pose proof apply_tracks as Htrack. unfold apply_changes in Happly. rewrite Hprev in Happly. apply_steps Happly.
  skip_frames.
  rewrite (fun A B => each_update db_burns (fun _ v => keep burn_is_null (Some v))
             (fun s => db_track_stats s = true) _ _ _ _ A B Hs18); [by skip_frames| |by skip_frames].
  intros k0 r s20 s' Hk Ht [= <-]. cbn. unfold db_store_burn_record. rewrite Ht.
  split; [done|]. exact (store_or_remove_alter burn_is_null _ _ _).
Qed.

Lemma apply_transactions id :
  db_transactions db' !! id = written trx_is_null (ps_transactions p !! id) (db_transactions db !! id).
Proof using All.
  pose proof apply_tracks as Htrack. unfold apply_changes in Happly. rewrite Hprev in Happly. apply_steps Happly.
  skip_frames.
  rewrite (fun A B => each_update db_transactions (fun _ v => keep trx_is_null (Some v))
             (fun s => db_track_stats s = true) _ _ _ _ A B Hs10); [by skip_frames| |by skip_frames].
  intros k0 r s20 s' Hk Ht Hst. by apply store_transaction_spec in Hst as (-> & -> & _).
Qed.

(** A transaction that was stored and has not expired is known from then on. *)
Lemma apply_known exp d :
  db_is_known_transaction db' exp d = true <->
  db_is_known_transaction db exp d = true \/
  exists id r, ps_transactions p !! id = Some r /\ trx_is_null r = false /\ tx_expiration (tr_trx r) = exp /\
    db_now db < exp /\ trx_digest (tr_trx r) (db_chain_id db) = d.
Proof using All.
  pose proof apply_tracks as Htrack.
  unfold apply_changes in Happly. rewrite Hprev in Happly. apply_steps Happly.
  set (X := fun s (x : Z * Z) => db_is_known_transaction s x.1 x.2 = true).
  set (Y := fun (_ : Z) r (x : Z * Z) => trx_is_null r = false /\ tx_expiration (tr_trx r) = x.1 /\
    db_now db < x.1 /\ trx_digest (tr_trx r) (db_chain_id db) = x.2).
  assert (Hx : forall sx, db_unique_transactions sx = db_unique_transactions s10 ->
            X sx (exp, d) <-> X s10 (exp, d)).
  { intros sx E. unfold X, db_is_known_transaction. by rewrite E. }
  transitivity (X s10 (exp, d)); [apply Hx; by skip_frames|].
  assert (Ht : db_track_stats s9 = true /\ db_now s9 = db_now db /\ db_chain_id s9 = db_chain_id db).
  { split_and!; by skip_frames. }
  etransitivity.
  { refine (each_grows X Y (fun s => db_track_stats s = true /\ db_now s = db_now db /\ db_chain_id s = db_chain_id db)
      _ _ _ _ _ Ht Hs10 (exp, d)).
    intros id r s20 s' _ (Ht' & Hn & Hc) Hst.
    apply store_transaction_spec in Hst as (Ht2 & _ & Hn' & Hc' & Hk); [|done].
    split; [by rewrite Hn', Hc'|]. intros [e d']. unfold X, Y. cbn [fst snd]. by rewrite Hk, Hn, Hc. }
  apply or_iff_compat_r. unfold X, db_is_known_transaction. cbn [fst snd].
  assert (E : db_unique_transactions s9 = db_unique_transactions db) by (by skip_frames). by rewrite E.
Qed.

Lemma apply_market_transactions :
  db_market_transactions db' =
    store_or_remove (Z.of_nat (List.length (ps_market_transactions p)) =? 0) (db_head_block_num db + 1)
      (ps_market_transactions p) (db_market_transactions db).
Proof using Hprev Happly.
  unfold apply_changes in Happly. rewrite Hprev in Happly. apply_steps Happly.
  apply bind_Ok in Hs19 as ([] & _ & [= <-]). cbn [db_market_transactions].
  change (db_market_transactions (db_set_dirty_markets ?d ?s)) with (db_market_transactions s).
  cbn [set_db_market_transactions db_market_transactions db_set_dirty_markets db_set_property set_db_properties].
  f_equal; [f_equal|]; by skip_frames.
Qed.

(** The operations of the buffer join the queues, in order. *)
Definition queued (q : list operation) (old : option (list operation)) : option (list operation) :=
  match q with [] => old | _ => Some (foldl (fun q o => push_recent o q) (default [] old) q) end.

Lemma recent_operations_queued t q s : Forall (fun o => op_type o = t) q ->
  db_recent_operations (foldl (fun s o => db_store_recent_operation o s) s q) !! t = queued q (db_recent_operations s !! t) /\
  forall k, k <> t -> db_recent_operations (foldl (fun s o => db_store_recent_operation o s) s q) !! k = db_recent_operations s !! k.
Proof using Type.
  revert s. induction q as [|o q IH]; intros s Hq; cbn [foldl]; [done|].
  apply Forall_cons in Hq as [Ho Hq]. destruct (IH (db_store_recent_operation o s) Hq) as [E1 E2]. split.
  - rewrite E1. cbn. rewrite <- Ho, lookup_insert_eq. by destruct q.
  - intros k Hk. rewrite E2 by done. cbn. rewrite lookup_insert_ne; [done|congruence].
Qed.

Lemma apply_recent_operations t :
  db_recent_operations db' !! t = queued (default [] (ps_recent_operations p !! t)) (db_recent_operations db !! t).
Proof using All.
  unfold apply_changes in Happly. rewrite Hprev in Happly. apply_steps Happly. skip_frames.
  assert (Hturn : forall k q (s20 s' : chain_database), ps_recent_operations p !! k = Some q -> True ->
    Ok (foldl (fun s o => cs_store_recent_operation o s) s20 q) = Ok s' ->
    True /\ db_recent_operations s' !! k = queued q (db_recent_operations s20 !! k) /\
    forall j, j <> k -> db_recent_operations s' !! j = db_recent_operations s20 !! j).
  { intros k q s20 s' Hk _ [= <-]. split; [done|].
    exact (recent_operations_queued k q s20 (po_recent p Hp k q Hk)). }
  assert (E : db_recent_operations s16 = db_recent_operations db) by (by skip_frames).
  destruct (each_pointwise (fun s k => db_recent_operations s !! k) (fun _ q old new => new = queued q old)
    (fun _ => True) _ _ _ _ Hturn I Hs17) as [_ Hq].
  specialize (Hq t).
  rewrite E in Hq. by destruct (ps_recent_operations p !! t).
Qed.
End lookups.

Lemma keep_no_null `{Countable K} {V} (null : V -> bool) (m : gmap K V) (g : K -> option V) :
  (forall k, m !! k = keep null (g k)) -> no_null null m.
Proof.
  intros Hm k v. rewrite Hm. unfold keep. destruct (g k) as [v'|]; cbn; [|done].
  destruct (null v') eqn:E; [done|]. by intros [= <-].
Qed.

Lemma keep_keyed `{Countable K} {V} (null : V -> bool) (key : V -> K)
    (m m0 own : gmap K V) (prev : option chain_view) f :
  (forall k, m !! k = keep null (overlay (own !! k) prev (fun v => f v k))) ->
  (forall k, prev ≫= (fun v => f v k) = m0 !! k) ->
  keyed key own -> keyed key m0 -> keyed key m.
Proof.
  intros Hm Hf Ho Hm0 k v. rewrite Hm. unfold keep, overlay.
  destruct (own !! k) as [v'|] eqn:E.
  - cbn. destruct (null v'); [done|]. intros [= <-]. by apply Ho.
  - rewrite Hf. destruct (m0 !! k) as [v'|] eqn:E0; cbn; [|done].
    destruct (null v'); [done|]. intros [= <-]. by apply Hm0.
Qed.

(** [spec] as the database shows it: null records read as absent. *)
Record view_matches (spec impl : chain_view) : Prop := mk_view_matches {
  vm_asset id : cv_asset impl id = keep asset_is_null (cv_asset spec id);
  vm_account id : cv_account impl id = keep account_is_null (cv_account spec id);
  vm_balance id : cv_balance impl id = cv_balance spec id;
  vm_slate id : cv_slate impl id = keep slate_is_null (cv_slate spec id);
  vm_bid k : cv_bid impl k = keep order_is_null (cv_bid spec k);
  vm_ask k : cv_ask impl k = keep order_is_null (cv_ask spec k);
  vm_relative_bid k : cv_relative_bid impl k = keep order_is_null (cv_relative_bid spec k);
  vm_relative_ask k : cv_relative_ask impl k = keep order_is_null (cv_relative_ask spec k);
  vm_short k : cv_short impl k = keep order_is_null (cv_short spec k);
  vm_collateral k : cv_collateral impl k = keep collateral_is_null (cv_collateral spec k);
  vm_feed i : cv_feed impl i = keep feed_is_null (cv_feed spec i);
  vm_authorization k : cv_authorization impl k = cv_authorization spec k;
  vm_proposal k : cv_proposal impl k = keep proposal_is_null (cv_proposal spec k)
}.

Lemma apply_view p db db' :
  ps_prev p = Some (db_view db) -> pending_ok p -> db_ok db ->
  apply_changes p db = Ok db' -> view_matches (pending_view p) (db_view db').
Proof.
  intros Hprev Hp Hdb Ha. split; intros; cbn.
  - by apply (apply_assets p db).
  - by apply (apply_accounts p db).
  - by apply (apply_balances p db).
  - by apply (apply_slates p db).
  - by apply (apply_bids p db).
  - by apply (apply_asks p db).
  - by apply (apply_relative_bids p db).
  - by apply (apply_relative_asks p db).
  - by apply (apply_shorts p db).
  - by apply (apply_collateral p db).
  - by apply (apply_feeds p db).
  - by apply (apply_authorizations p db).
  - by apply (apply_proposals p db).
Qed.

Lemma apply_db_ok p db db' :
  ps_prev p = Some (db_view db) -> pending_ok p -> db_ok db ->
  apply_changes p db = Ok db' -> db_ok db'.
Proof.
  intros Hprev Hp Hdb Ha. pose proof (apply_view _ _ _ Hprev Hp Hdb Ha) as [].
  split; try (eapply keep_no_null; eassumption).
  - apply (keep_keyed asset_is_null as_id _ (db_assets db) (ps_assets p) (ps_prev p) cv_asset);
      [apply vm_asset0|by rewrite Hprev|apply Hp|apply Hdb].
  - apply (keep_keyed account_is_null ac_id _ (db_accounts db) (ps_accounts p) (ps_prev p) cv_account);
      [apply vm_account0|by rewrite Hprev|apply Hp|apply Hdb].
  - apply (keep_keyed (fun _ => false) balance_id _ (db_balances db) (ps_balances p) (ps_prev p) cv_balance);
      [|by rewrite Hprev|apply Hp|apply Hdb].
    intros k. etransitivity; [apply vm_balance0|]. cbn. unfold pending_get_balance_record.
    by destruct (overlay _ _ _).
  - apply (keep_keyed feed_is_null fr_feed _ (db_feeds db) (ps_feeds p) (ps_prev p) cv_feed);
      [apply vm_feed0|by rewrite Hprev|apply Hp|apply Hdb].
  - intros k v. pose proof (vm_authorization0 k) as Ek. cbn in Ek. rewrite Ek. unfold pending_get_authorization. rewrite Hprev.
    unfold authorization_is_null. destruct (ps_authorizations p !! k) as [oid|].
    + destruct (oid =? null_object_id) eqn:E; [done|]. by intros [= <-].
    + cbn. apply (dk_authorizations _ Hdb).
  - apply (keep_keyed proposal_is_null proposal_key _ (db_asset_proposals db) (ps_asset_proposals p) (ps_prev p) cv_proposal);
      [apply vm_proposal0|by rewrite Hprev|apply Hp|apply Hdb].
Qed.
End apply_db.

(** ** Theorem *)

(** The kinds of record the pending state does not show, or shows in part, as the
    database has them afterwards: the buffer's entry, or else the record there was. *)
Record buffer_written `{Crypto} (p : pending_chain_state) (db db' : chain_database) : Prop := mk_buffer_written {
  bw_properties id : db_properties db' !! id =
    if decide (id = dirty_markets_prop) then Some (v_pairs (elements (ps_dirty_markets p)))
    else written variant_is_null (ps_properties p !! id) (db_properties db !! id);
  bw_transactions id : db_transactions db' !! id =
    written trx_is_null (ps_transactions p !! id) (db_transactions db !! id);
  bw_known exp d : db_is_known_transaction db' exp d = true <->
    db_is_known_transaction db exp d = true \/
    exists id r, ps_transactions p !! id = Some r /\ trx_is_null r = false /\ tx_expiration (tr_trx r) = exp /\
      db_now db < exp /\ trx_digest (tr_trx r) (db_chain_id db) = d;
  bw_slots t : db_slots db' !! t = written slot_is_null (ps_slots p !! t) (db_slots db !! t);
  bw_market_statuses k : db_market_statuses db' !! k =
    written market_status_is_null (ps_market_statuses p !! k) (db_market_statuses db !! k);
  bw_market_history k : db_market_history db' !! k =
    written history_is_null (ps_market_history p !! k) (db_market_history db !! k);
  bw_burns k : db_burns db' !! k = written burn_is_null (ps_burns p !! k) (db_burns db !! k);
  bw_recent_operations t : db_recent_operations db' !! t =
    queued (default [] (ps_recent_operations p !! t)) (db_recent_operations db !! t);
  bw_market_transactions : db_market_transactions db' =
    store_or_remove (Z.of_nat (List.length (ps_market_transactions p)) =? 0) (db_head_block_num db + 1)
      (ps_market_transactions p) (db_market_transactions db)
}.

Lemma apply_buffer_written `{Crypto} p db db' :
  ps_prev p = Some (db_view db) -> pending_ok p -> db_ok db ->
  apply_changes p db = Ok db' -> buffer_written p db db'.
Proof.
  intros Hprev Hp Hdb Ha. pose proof (apply_tracks p db db' Hprev Ha) as Ht.
  split; eauto using apply_properties, apply_transactions, apply_known, apply_slots, apply_market_statuses,
    apply_market_history, apply_burns, apply_recent_operations, apply_market_transactions.
Qed.

(** C2: After a block's pending state, however it was built from the update methods,
    is applied, the database reads for every asset, account, balance, slate, order,
    short, collateral, feed, authorization and proposal, by its key, exactly as the
    pending state did, a null record reading as absent.  A property, transaction,
    slot, market status, history or burn record is the buffer's entry, a null one
    being absent, or else the record there was; the dirty markets are those of the
    block; the unexpired transactions stored are known from then on; the recent
    operations have joined the queues of their types and the market transactions are
    filed under the next block number.  No null record is stored and every record is
    under its own key, as before. *)
Theorem apply_changes_refines `{Crypto} p db db' :
  pending_reachable p -> ps_prev p = Some (db_view db) -> db_ok db ->
  apply_changes p db = Ok db' ->
  view_matches (pending_view p) (db_view db') /\ buffer_written p db db' /\ db_ok db'.
Proof.
  intros Hr Hprev Hdb Ha. apply pending_reachable_ok in Hr.
  split_and!; [by eapply apply_view|by apply apply_buffer_written|by eapply apply_db_ok].
Qed.

(** A block that opens an order and registers an account. *)
Section sample.
#[local] Existing Instance toy_crypto.

Definition sample_key : market_index_key := mk_market_key (mk_price 1000 0 5) 33.

Definition sample_block (db : chain_database) : pending_chain_state :=
  pending_store_market_status (mk_market_status 5 0 None None None 0 0 null_price)
    (pending_store_slot_record (mk_slot 110 7 None)
      (pending_set_property last_account_id_prop (v_int 8)
        (pending_store_bid_record sample_key (mk_order 500 None 0)
          (new_pending (Some (db_view db)))))).

Definition genesis_db : chain_database :=
  set_db_properties {[ last_account_id_prop := v_int 7 ]} (empty_db 0 100 0).

Lemma sample_block_reachable db : pending_reachable (sample_block db).
Proof.
  exists (Some (db_view db)). unfold sample_block.
  do 4 (eapply rtc_r; [|constructor]). constructor.
Qed.

Lemma genesis_db_ok : db_ok genesis_db.
Proof. split; intros k v; cbn; rewrite lookup_empty; done. Qed.

Lemma apply_changes_refines_witness :
  exists db', apply_changes (sample_block genesis_db) genesis_db = Ok db' /\
    view_matches (pending_view (sample_block genesis_db)) (db_view db') /\
    buffer_written (sample_block genesis_db) genesis_db db' /\ db_ok db'.
Proof.
  eexists. split; [vm_compute; reflexivity|].
  apply (apply_changes_refines (sample_block genesis_db) genesis_db).
  - apply sample_block_reachable.
  - reflexivity.
  - apply genesis_db_ok.
  - vm_compute. reflexivity.
Defined.
End sample.
