(* ===== verification/Undo.v ===== *)
(** * Undo: reverting a block (pending_chain_state.cpp, chain_database.cpp)

    [get_undo_state] is taken from the state before the block; [apply_undo_state]
    applies it to the state after.  [undo_restores] shows what comes back;
    [undo_leaves] what does not. *)
From S2P Require Import Prelude Config Fc Asset Records ChainInterface PendingState ChainDatabase DatabaseFacts.
From S2P Require Import Apply ApplyFacts.
From Stdlib Require Import String.

(** The head the database reports; and, once a block has been applied, the
    transactions it still remembers. *)
Definition set_head (num now : Z) (db : chain_database) : chain_database :=
  set_db_now now (set_db_head_block_num num db).
Definition settle (num now : Z) (uniq : gmap Z (gset Z)) (db : chain_database) : chain_database :=
  set_db_unique_transactions uniq (set_head num now db).

Section undo.
Context `{Crypto}.

(** What of a pending state is kept when it is stored: the members [FC_REFLECT] lists. *)
Definition reflected (p : pending_chain_state) : pending_chain_state :=
  set_ps_unique_transactions ∅ (set_ps_key_to_account ∅ (set_ps_market_history ∅
    (set_ps_recent_operations ∅ (set_ps_market_transactions [] p)))).

(** The body of [save_undo_state]: the undo state is built on a null previous state
    and stored. *)
Definition undo_state_of (db : chain_database) (p : pending_chain_state)
    : result pending_chain_state :=
  u ← get_undo_state (db_view db) p (new_pending None);
  Ok (reflected u).

(** The undo part of [pop_block]: the undo state is applied and the previous head restored. *)
Definition apply_undo_state (undo : pending_chain_state) (prev_num prev_now : Z) (db : chain_database)
    : result chain_database :=
  db' ← apply_changes (set_ps_prev (Some (db_view db)) undo) db;
  Ok (set_head prev_num prev_now db').

(** ** The entries of an undo state *)

(** The loops an undo state is built by. *)
Ltac undo_steps H :=
  unfold undo_state_of in H; apply bind_Ok in H as (?u0 & H & [= <-]);
  unfold get_undo_state in H; apply_steps H.

(** One update method of a loop body as a [pending_step]. *)
Ltac undo_step :=
  let Hx := fresh in
  intros ? ? ? ? _ ? Hx; unfold undo_with in Hx; inv_ok;
  eapply pending_step_ok; [eassumption|];
  first [ by econstructor | eapply step_account; eassumption
        | eapply step_transaction; eassumption | case_match; econstructor ].

Lemma undo_pending_ok db p u : undo_state_of db p = Ok u -> pending_ok u.
Proof.
  unfold undo_state_of. intros (u1 & Hu & [= <-])%bind_Ok. unfold get_undo_state in Hu.
  pose proof (new_pending_ok None) as Hok. revert Hok Hu.
  generalize (new_pending None) as u0. intros u0 Hok Hu.
  repeat match type of Hu with
    | each ?f ?m ?s ≫= _ = Ok _ =>
        let u1 := fresh "u" in let Hs := fresh "Hs" in let H1 := fresh "Hok" in
        apply bind_Ok in Hu as (u1 & Hs & Hu);
        assert (H1 : pending_ok u1)
          by (eapply (each_inv pending_ok f m s u1); [clear; undo_step|assumption|exact Hs]);
        clear Hs
    end.
  injection Hu as <-.
  match goal with |- pending_ok (reflected (pending_set_dirty_markets ?d ?u)) =>
    assert (Hd : pending_ok (pending_set_dirty_markets d u)) by (by eapply pending_step_ok; [|apply step_property]) end.
  destruct Hd. by split.
Qed.

Section frames.
Context {A : Type} (get : pending_chain_state -> A).

Lemma pending_account_frame r p p' :
  (forall a b c p, get (set_ps_key_to_account a (set_ps_account_id_index b
     (set_ps_accounts c p))) = get p) ->
  pending_store_account_record r p = Ok p' -> get p' = get p.
Proof. intros Hg (idx & _ & [= <-])%bind_Ok. apply Hg. Qed.

Lemma pending_transaction_frame id r p p' :
  (forall a p, get (set_ps_transactions a p) = get p) ->
  (forall a p, get (set_ps_unique_transactions a p) = get p) ->
  (forall a p, get (set_ps_recent_operations a p) = get p) ->
  pending_store_transaction id r p = Ok p' -> get p' = get p.
Proof.
  intros Ht Hu Hr (p2 & Hp2 & [= <-])%bind_Ok.
  assert (Hf : forall ops p, get (foldl (fun p o => pending_store_recent_operation o p) p ops) = get p).
  { induction ops as [|o ops IH]; intros q; cbn; [done|]. rewrite IH. apply Hr. }
  rewrite Hf. destruct (ps_prev p); [|injection Hp2 as <-; apply Ht].
  inv_ok. by rewrite Hu, Ht.
Qed.
End frames.

Ltac undo_frame get :=
  let Hs := fresh in
  intros ?k ?v ?s ?s' Hs;
  first
    [ apply (pending_account_frame get _ _ _ (fun _ _ _ _ => eq_refl) Hs)
    | apply bind_Ok in Hs as (? & _ & Hs);
      apply (pending_transaction_frame get _ _ _ _ (fun _ _ => eq_refl) (fun _ _ => eq_refl)
               (fun _ _ => eq_refl) Hs)
    | unfold undo_with in Hs; inv_ok; first [reflexivity | case_match; reflexivity] ].

Ltac undo_frames :=
  repeat match goal with
    | Hs : each ?f ?m ?s = Ok ?s' |- context [ ?get ?s' ] =>
        rewrite (each_frame get f m s s'); [|undo_frame get|exact Hs]; clear Hs
    | |- context [ ?get (reflected ?s) ] => change (get (reflected s)) with (get s)
    | |- context [ ?get (pending_set_dirty_markets ?d ?s) ] =>
        change (get (pending_set_dirty_markets d s)) with (get s)
    end.

Section entries.
Context (db : chain_database) (p u : pending_chain_state).
Hypothesis Hp : pending_ok p.
Hypothesis Hdb : db_ok db.
Hypothesis Hundo : undo_state_of db p = Ok u.

(** One kind of record: the undo state has the buffer's keys, with the
    database's record or a null one. *)
Ltac entry norm body :=
  undo_steps Hundo; undo_frames;
  match goal with Hs : each ?f ?m ?s = Ok ?s' |- context [ ?get ?s' !! _ ] =>
    rewrite (fun A B => each_update get norm (fun _ => True) f m s s' A B Hs);
    [ clear Hs; undo_frames; reflexivity
    | let Hk := fresh in let Hst := fresh in intros ?k ?r ? ? Hk _ Hst; split; [done|]; body Hk Hst
    | done ] end.
Ltac set_entry Hk Hst := injection Hst as <-; reflexivity.

(** What the undo state has at a key: nothing where the buffer has nothing, or
    else the database's record, a null one if there is none. *)
Definition undo_entry {V W} (own : option V) (null : V -> W) (prev : option W) : option W :=
  own ≫= fun r => Some (default (null r) prev).

Lemma undo_bids k :
  ps_bids u !! k = undo_entry (ps_bids p !! k) (fun _ => null_order_record) (db_bids db !! k).
Proof using All.
  entry (fun k (_ : order_record) => Some (default null_order_record (db_bids db !! k))) set_entry.
Qed.
Lemma undo_asks k :
  ps_asks u !! k = undo_entry (ps_asks p !! k) (fun _ => null_order_record) (db_asks db !! k).
Proof using All.
  entry (fun k (_ : order_record) => Some (default null_order_record (db_asks db !! k))) set_entry.
Qed.
Lemma undo_relative_bids k :
  ps_relative_bids u !! k = undo_entry (ps_relative_bids p !! k) (fun _ => null_order_record) (db_relative_bids db !! k).
Proof using All.
  entry (fun k (_ : order_record) => Some (default null_order_record (db_relative_bids db !! k))) set_entry.
Qed.
Lemma undo_relative_asks k :
  ps_relative_asks u !! k = undo_entry (ps_relative_asks p !! k) (fun _ => null_order_record) (db_relative_asks db !! k).
Proof using All.
  entry (fun k (_ : order_record) => Some (default null_order_record (db_relative_asks db !! k))) set_entry.
Qed.
Lemma undo_shorts k :
  ps_shorts u !! k = undo_entry (ps_shorts p !! k) (fun _ => null_order_record) (db_shorts db !! k).
Proof using All.
  entry (fun k (_ : order_record) => Some (default null_order_record (db_shorts db !! k))) set_entry.
Qed.
Lemma undo_collateral k :
  ps_collateral u !! k = undo_entry (ps_collateral p !! k) (fun _ => null_collateral_record) (db_collateral db !! k).
Proof using All.
  entry (fun k (_ : collateral_record) => Some (default null_collateral_record (db_collateral db !! k))) set_entry.
Qed.
Lemma undo_slates k :
  ps_slates u !! k = undo_entry (ps_slates p !! k) (fun _ => null_slate) (db_slates db !! k).
Proof using All.
  entry (fun k (_ : delegate_slate) => Some (default null_slate (db_slates db !! k))) set_entry.
Qed.

(** A record stored under its own key is stored at the entry's key. *)
Lemma default_key `{Countable K} {V} (key : V -> K) (null : V -> V) (own prev : gmap K V) k r :
  keyed key own -> keyed key prev -> (forall r, key (null r) = key r) ->
  own !! k = Some r -> key (default (null r) (prev !! k)) = k.
Proof.
  intros Ho Hprev Hn Hk. destruct (prev !! k) as [r'|] eqn:E; cbn.
  - by apply Hprev.
  - rewrite Hn. by apply Ho.
Qed.
Lemma insert_own_key `{Countable K} {V} (key : V -> K) v k (m : gmap K V) :
  key v = k -> <[key v := v]> m = partial_alter (fun _ => Some v) k m.
Proof. by intros <-. Qed.
Ltac by_key key null po dk Hk Hst :=
  injection Hst as <-; apply (insert_own_key key);
  exact (default_key key null _ _ _ _ (po p Hp) (dk db Hdb) (fun _ => eq_refl) Hk).

Lemma undo_assets k :
  ps_assets u !! k = undo_entry (ps_assets p !! k) asset_make_null (db_assets db !! k).
Proof using All.
  entry (fun k r => Some (default (asset_make_null r) (db_assets db !! k)))
    ltac:(fun Hk Hst => by_key as_id asset_make_null po_assets dk_asset_keys Hk Hst).
Qed.
Lemma undo_balances k :
  ps_balances u !! k = undo_entry (ps_balances p !! k) balance_make_null (db_balances db !! k).
Proof using All.
  entry (fun k r => Some (default (balance_make_null r) (db_balances db !! k)))
    ltac:(fun Hk Hst => by_key balance_id balance_make_null po_balances dk_balance_keys Hk Hst).
Qed.
Lemma undo_asset_proposals k :
  ps_asset_proposals u !! k = undo_entry (ps_asset_proposals p !! k) proposal_make_null (db_asset_proposals db !! k).
Proof using All.
  entry (fun k r => Some (default (proposal_make_null r) (db_asset_proposals db !! k)))
    ltac:(fun Hk Hst => by_key proposal_key proposal_make_null po_proposals dk_proposal_keys Hk Hst).
Qed.
Lemma undo_feeds k :
  ps_feeds u !! k = undo_entry (ps_feeds p !! k) (fun _ => mk_feed k v_null 0) (db_feeds db !! k).
Proof using All.
  entry (fun k (_ : feed_record) => Some (default (mk_feed k v_null 0) (db_feeds db !! k)))
    ltac:(fun Hk Hst => injection Hst as <-; apply (insert_own_key fr_feed)).
  destruct (db_feeds db !! k0) as [r'|] eqn:E; [by apply (dk_feed_keys _ Hdb)|done].
Qed.

Lemma undo_accounts k :
  ps_accounts u !! k = undo_entry (ps_accounts p !! k) account_make_null (db_accounts db !! k).
Proof using All.
  entry (fun k r => Some (default (account_make_null r) (db_accounts db !! k)))
    ltac:(fun Hk Hst => apply bind_Ok in Hst as (? & _ & Hst); by_key ac_id account_make_null
            po_accounts dk_account_keys Hk Hst).
Qed.

Lemma undo_authorizations k :
  ps_authorizations u !! k =
    undo_entry (ps_authorizations p !! k) (fun _ => null_object_id) (db_authorizations db !! k).
Proof using All.
  entry (fun k (_ : Z) => Some (default null_object_id (db_authorizations db !! k)))
    ltac:(fun Hk Hst => injection Hst as <-; cbn; destruct (db_authorizations db !! _); reflexivity).
Qed.

Lemma undo_properties id :
  id <> dirty_markets_prop ->
  ps_properties u !! id = ps_properties p !! id ≫= (fun _ => db_properties db !! id).
Proof using All.
  intros Hid. undo_steps Hundo.
  change (ps_properties (reflected ?s)) with (ps_properties s).
  cbn [ps_properties pending_set_dirty_markets pending_set_property set_ps_properties].
  rewrite lookup_insert_ne by done. undo_frames.
  rewrite (fun A B => each_update ps_properties (fun id (_ : variant) => db_properties db !! id)
             (fun _ => True) _ _ _ _ A B Hs); [by destruct (ps_properties p !! id)| |done].
  intros k v s20 s' Hk _ Hst. split; [done|]. cbn in Hst.
  apply bind_Ok in Hst as (v' & Hv & [= <-]). unfold db_get_property in Hv.
  apply require_Ok in Hv. rewrite Hv. reflexivity.
Qed.

Lemma undo_properties_found id :
  is_Some (ps_properties p !! id) -> is_Some (db_properties db !! id).
Proof using Hundo.
  intros [v Hv]. undo_steps Hundo.
  destruct (each_ran _ _ _ _ _ _ Hs Hv) as (s20 & s21 & Hst). cbn in Hst.
  apply bind_Ok in Hst as (v' & Hv' & _). unfold db_get_property in Hv'. apply require_Ok in Hv'.
  eauto.
Qed.

Lemma undo_transactions id :
  ps_transactions u !! id = undo_entry (ps_transactions p !! id) (fun _ => null_trx_record) (db_transactions db !! id).
Proof using All.
  undo_steps Hundo. undo_frames.
  rewrite (fun A B => each_update ps_transactions
    (fun id (_ : transaction_record) => Some (default null_trx_record (db_transactions db !! id)))
    (fun s => ps_prev s = None) _ _ _ _ A B Hs6); [undo_frames|..].
  - by destruct (ps_transactions p !! id).
  - intros id0 r s20 s' Hk Hnone Hst. apply bind_Ok in Hst as (v & Hv & Hst).
    assert (v = db_transactions db !! id0) as ->.
    { cbn in Hv. unfold db_get_transaction in Hv. apply bind_Ok in Hv as (_ & _ & Hv).
      destruct (db_transactions db !! id0); [by apply bind_Ok in Hv as (_ & _ & [= <-])|by injection Hv as <-]. }
    unfold pending_store_transaction in Hst. rewrite Hnone in Hst. cbn [mbind result_bind] in Hst. injection Hst as <-.
    assert (Hf : forall ops q, ps_prev (foldl (fun p o => pending_store_recent_operation o p) q ops) = ps_prev q /\
      ps_transactions (foldl (fun p o => pending_store_recent_operation o p) q ops) = ps_transactions q).
    { induction ops as [|o ops IH]; intros q; cbn; [done|]. by destruct (IH (pending_store_recent_operation o q)) as [-> ->]. }
    match goal with |- context [ foldl ?f ?q ?ops ] => destruct (Hf ops q) as [-> ->] end. done.
  - by undo_frames.
Qed.

(** A record stored under its own key where there was one before, and a null one,
    whose key is [k0], where there was none: only the former are at their keys. *)
Lemma each_own_key `{Countable K} {V W : Type} (get : pending_chain_state -> gmap K W) (key : W -> K) (k0 : K)
    (null : W) (prev : K -> option W) f (m : gmap K V) s s' k :
  key null = k0 -> (forall k v, prev k = Some v -> key v = k) ->
  (forall k v s s', f k v s = Ok s' ->
     get s' = <[key (default null (prev k)) := default null (prev k)]> (get s)) ->
  each f m s = Ok s' -> k <> k0 -> get s !! k = None ->
  get s' !! k = m !! k ≫= fun _ => prev k.
Proof using Type.
  intros Hnull Hkey Hf He Hk Hnone.
  destruct (each_pointwise (fun s k => if decide (k = k0) then None else get s !! k)
    (fun k _ old new => new = if decide (k = k0) then None else match prev k with Some v => Some v | None => old end)
    (fun _ => True) f m s s') as [_ Hat]; [|done|done|].
  - intros j v s1 s2 _ _ Hs%Hf. split; [done|]. rewrite Hs.
    destruct (prev j) as [w|] eqn:Hj; cbn.
    + rewrite (Hkey _ _ Hj). split; [case_decide; [done|by rewrite lookup_insert_eq]|].
      intros k1 Hk1. by rewrite lookup_insert_ne.
    + rewrite Hnull. split; [|intros k1 _]; (case_decide; [done|by rewrite lookup_insert_ne]).
  - specialize (Hat k). rewrite !decide_False in Hat by done. rewrite Hnone in Hat.
    destruct (m !! k); rewrite Hat; cbn; [by destruct (prev k)|done].
Qed.

(** A slot record or market status is in the undo state only where there was one. *)
Lemma undo_slots t :
  keyed so_start_time (db_slots db) -> t <> 0 ->
  ps_slots u !! t = ps_slots p !! t ≫= fun _ => db_slots db !! t.
Proof using Hundo.
  intros Hkeys Ht. undo_steps Hundo. undo_frames.
  eapply (each_own_key ps_slots so_start_time 0 null_slot (fun t => db_slots db !! t)); [done|done| |exact Hs13|done|by undo_frames].
  intros k r s20 s' Hst. apply bind_Ok in Hst as (v & Hv & [= <-]). cbn in Hv. unfold db_get_slot_record in Hv.
  by apply bind_Ok in Hv as (_ & _ & [= <-]).
Qed.

Lemma undo_statuses k :
  keyed market_status_key (db_market_statuses db) -> k <> (0, 0) ->
  ps_market_statuses u !! k = ps_market_statuses p !! k ≫= fun _ => db_market_statuses db !! k.
Proof using Hundo.
  intros Hkeys Hk. undo_steps Hundo. undo_frames.
  eapply (each_own_key ps_market_statuses market_status_key (0, 0) null_market_status (fun k => db_market_statuses db !! k));
    [done|done| |exact Hs14|done|by undo_frames].
  by intros k0 r s20 s' [= <-].
Qed.

Lemma undo_burns k :
  ps_burns u !! k = ps_burns p !! k ≫= fun _ => Some (mk_burn_value (mk_asset 0 0) "" None).
Proof using Hundo.
  undo_steps Hundo. undo_frames.
  rewrite (fun A B => each_update ps_burns (fun _ _ => Some (mk_burn_value (mk_asset 0 0) "" None))
    (fun _ => True) _ _ _ _ A B Hs16); [|by intros ? ? ? ? _ _ [= <-]|done].
  undo_frames. by destruct (ps_burns p !! k).
Qed.

(** What [FC_REFLECT] leaves out of an undo state. *)
Lemma undo_not_kept :
  ps_market_history u = ∅ /\ ps_recent_operations u = ∅ /\ ps_market_transactions u = [].
Proof using Hundo. by undo_steps Hundo. Qed.

End entries.

(** ** Applying the undo state *)

(** Undo after do, at one key. *)
Lemma restore_entry {V} (null : V -> bool) (mk : V -> V) (own prev : option V) (v1 v0 : chain_view)
    (f : chain_view -> option V) :
  (forall r, null (mk r) = true) -> keep null prev = prev ->
  f v1 = keep null (overlay own (Some v0) f) -> f v0 = prev ->
  keep null (overlay (undo_entry own mk prev) (Some v1) f) = prev.
Proof.
  intros Hmk Hprev Hf1 Hf0. destruct own as [r|].
  - destruct prev as [r0|]; cbn in *; [done|]. by rewrite Hmk.
  - change (keep null (f v1) = prev). rewrite Hf1. change (overlay None (Some v0) f) with (f v0).
    by rewrite Hf0, !Hprev.
Qed.

Lemma settle_ok num now uniq db : db_ok db -> db_ok (settle num now uniq db).
Proof. intros []. by split. Qed.

Lemma set_prev_ok v p : pending_ok p -> pending_ok (set_ps_prev v p).
Proof. intros []. by split. Qed.

Section restore.
Context (db db' db'' : chain_database) (p u : pending_chain_state) (num now num0 now0 : Z) (uniq : gmap Z (gset Z)).
Hypothesis Hprev : ps_prev p = Some (db_view db).
Hypothesis Hp : pending_ok p.
Hypothesis Hdb : db_ok db.
Hypothesis Hundo : undo_state_of db p = Ok u.
Hypothesis Happly : apply_changes p db = Ok db'.
Hypothesis Hpop : apply_undo_state u num0 now0 (settle num now uniq db') = Ok db''.

Let db1 := settle num now uniq db'.
Let u1 := set_ps_prev (Some (db_view db1)) u.

Lemma restored : exists db2, apply_changes u1 db1 = Ok db2 /\ db'' = set_head num0 now0 db2.
Proof using Hpop. apply bind_Ok in Hpop as (db2 & H2 & [= <-]). eauto. Qed.

Lemma db1_ok : db_ok db1.
Proof using Happly Hdb Hp Hprev. apply settle_ok. by eapply apply_db_ok. Qed.
Lemma u1_ok : pending_ok u1.
Proof using Hundo. by eapply set_prev_ok, undo_pending_ok. Qed.

(** One kind of record. *)
Ltac kind_at db2 H2 k null mk second entry first dk :=
  etransitivity; [exact (second u1 db1 db2 eq_refl u1_ok db1_ok H2 k)|];
  etransitivity; [|eapply (restore_entry null mk _ _ (db_view db1) (db_view db))];
  [ cbv beta delta [pending_get_bid_record pending_get_ask_record pending_get_relative_bid_record
      pending_get_relative_ask_record pending_get_short_record pending_get_collateral_record
      pending_get_delegate_slate pending_get_asset_record pending_get_account_record
      pending_fetch_asset_proposal pending_get_feed];
    f_equal; f_equal; exact (entry db p u Hp Hdb Hundo k)
  | done | apply keep_id, dk, Hdb
  | rewrite <- Hprev; exact (first p db db' Hprev Hp Hdb Happly k) | done ].
Ltac kind null mk second entry first dk :=
  let db2 := fresh "db" in let H2 := fresh in let k := fresh "k" in
  destruct restored as (db2 & H2 & ->); apply map_eq; intros k;
  kind_at db2 H2 k null mk second entry first dk.

Lemma restored_bids : db_bids db'' = db_bids db.
Proof using All. kind order_is_null (fun _ : order_record => null_order_record) apply_bids undo_bids apply_bids dk_bids. Qed.
Lemma restored_asks : db_asks db'' = db_asks db.
Proof using All. kind order_is_null (fun _ : order_record => null_order_record) apply_asks undo_asks apply_asks dk_asks. Qed.
Lemma restored_relative_bids : db_relative_bids db'' = db_relative_bids db.
Proof using All. kind order_is_null (fun _ : order_record => null_order_record) apply_relative_bids undo_relative_bids apply_relative_bids dk_relative_bids. Qed.
Lemma restored_relative_asks : db_relative_asks db'' = db_relative_asks db.
Proof using All. kind order_is_null (fun _ : order_record => null_order_record) apply_relative_asks undo_relative_asks apply_relative_asks dk_relative_asks. Qed.
Lemma restored_shorts : db_shorts db'' = db_shorts db.
Proof using All. kind order_is_null (fun _ : order_record => null_order_record) apply_shorts undo_shorts apply_shorts dk_shorts. Qed.
Lemma restored_collateral : db_collateral db'' = db_collateral db.
Proof using All. kind collateral_is_null (fun _ : collateral_record => null_collateral_record) apply_collateral undo_collateral apply_collateral dk_collateral. Qed.
Lemma restored_slates : db_slates db'' = db_slates db.
Proof using All. kind slate_is_null (fun _ : delegate_slate => null_slate) apply_slates undo_slates apply_slates dk_slates. Qed.
Lemma restored_assets : db_assets db'' = db_assets db.
Proof using All. kind asset_is_null asset_make_null apply_assets undo_assets apply_assets dk_assets. Qed.
Lemma restored_accounts : db_accounts db'' = db_accounts db.
Proof using All. kind account_is_null account_make_null apply_accounts undo_accounts apply_accounts dk_accounts. Qed.
Lemma restored_asset_proposals : db_asset_proposals db'' = db_asset_proposals db.
Proof using All. kind proposal_is_null proposal_make_null apply_proposals undo_asset_proposals apply_proposals dk_proposals. Qed.
Lemma restored_feeds : db_feeds db'' = db_feeds db.
Proof using All.
  destruct restored as (db2 & H2 & ->). apply map_eq. intros k.
  kind_at db2 H2 k feed_is_null (fun _ : feed_record => mk_feed k v_null 0)
    apply_feeds undo_feeds apply_feeds dk_feeds.
Qed.

Lemma restored_authorizations : db_authorizations db'' = db_authorizations db.
Proof using All.
  destruct restored as (db2 & H2 & ->). apply map_eq. intros k.
  etransitivity; [exact (apply_authorizations u1 db1 db2 eq_refl u1_ok db1_ok H2 k)|].
  unfold pending_get_authorization.
  change (ps_authorizations u1 !! k) with (ps_authorizations u !! k).
  rewrite (undo_authorizations db p u Hp Hdb Hundo k).
  pose proof (apply_authorizations p db db' Hprev Hp Hdb Happly k) as H1.
  unfold pending_get_authorization in H1. rewrite Hprev in H1.
  destruct (ps_authorizations p !! k) as [oid|]; cbn in *.
  - destruct (db_authorizations db !! k) as [o|] eqn:E; [|done]. cbn.
    by rewrite (dk_authorizations _ Hdb _ _ E : (o =? null_object_id) = false).
  - exact H1.
Qed.

Lemma restored_properties id :
  id <> dirty_markets_prop -> no_null variant_is_null (db_properties db) ->
  db_properties db'' !! id = db_properties db !! id.
Proof using All.
  intros Hid Hnn. destruct restored as (db2 & H2 & ->).
  etransitivity; [exact (apply_properties u1 db1 db2 eq_refl u1_ok db1_ok H2 id)|].
  rewrite decide_False by done.
  change (ps_properties u1 !! id) with (ps_properties u !! id).
  rewrite (undo_properties db p u Hp Hdb Hundo id Hid).
  pose proof (apply_properties p db db' Hprev Hp Hdb Happly id) as H1. rewrite decide_False in H1 by done.
  destruct (ps_properties p !! id) as [v|] eqn:Ev; [|exact H1].
  destruct (undo_properties_found db p u Hundo id) as [v0 Hv0]; [by rewrite Ev|].
  cbn. rewrite Hv0. cbn. by rewrite (Hnn _ _ Hv0).
Qed.

Lemma restored_transactions :
  no_null trx_is_null (db_transactions db) -> db_transactions db'' = db_transactions db.
Proof using All.
  intros Hnn. destruct restored as (db2 & H2 & ->). apply map_eq. intros k.
  etransitivity; [exact (apply_transactions u1 db1 db2 eq_refl u1_ok db1_ok H2 k)|].
  change (ps_transactions u1 !! k) with (ps_transactions u !! k).
  rewrite (undo_transactions db p u Hp Hdb Hundo k).
  pose proof (apply_transactions p db db' Hprev Hp Hdb Happly k) as H1.
  destruct (ps_transactions p !! k) as [r|]; cbn in *; [|exact H1].
  destruct (db_transactions db !! k) as [r0|] eqn:E; [|done]. cbn. by rewrite (Hnn _ _ E).
Qed.

(** A record there was before is there again; one that is new in the block stays. *)
Lemma restored_slots t :
  keyed so_start_time (db_slots db) -> t <> 0 ->
  db_slots db'' !! t = db_slots db !! t \/ db_slots db !! t = None /\ db_slots db'' !! t = db_slots db' !! t.
Proof using All.
  intros Hkeys Ht. destruct restored as (db2 & H2 & ->).
  pose proof (apply_tracks p db db' Hprev Happly) as Htr.
  assert (Htr1 : db_track_stats db1 = true).
  { change (db_track_stats db' = true). by rewrite (apply_track_stats _ _ _ Hprev Happly). }
  change (db_slots (set_head num0 now0 db2)) with (db_slots db2).
  rewrite (apply_slots u1 db1 db2 eq_refl u1_ok db1_ok H2 t Htr1).
  change (ps_slots u1 !! t) with (ps_slots u !! t). change (db_slots db1 !! t) with (db_slots db' !! t).
  rewrite (undo_slots db p u Hundo t Hkeys Ht).
  pose proof (apply_slots p db db' Hprev Hp Hdb Happly t Htr) as H1.
  destruct (ps_slots p !! t) as [r|]; cbn in *; [|by left].
  destruct (db_slots db !! t) as [r0|] eqn:E; [|by right]. left. cbn. unfold slot_is_null.
  rewrite (Hkeys _ _ E). by rewrite (proj2 (Z.eqb_neq t 0) Ht).
Qed.

Lemma restored_statuses k :
  keyed market_status_key (db_market_statuses db) -> k.1 <> k.2 ->
  db_market_statuses db'' !! k = db_market_statuses db !! k \/
  db_market_statuses db !! k = None /\ db_market_statuses db'' !! k = db_market_statuses db' !! k.
Proof using All.
  intros Hkeys Hk. destruct restored as (db2 & H2 & ->).
  change (db_market_statuses (set_head num0 now0 db2)) with (db_market_statuses db2).
  rewrite (apply_market_statuses u1 db1 db2 eq_refl u1_ok db1_ok H2 k).
  change (ps_market_statuses u1 !! k) with (ps_market_statuses u !! k).
  change (db_market_statuses db1 !! k) with (db_market_statuses db' !! k).
  rewrite (undo_statuses db p u Hundo k Hkeys) by (intros ->; by apply Hk).
  pose proof (apply_market_statuses p db db' Hprev Hp Hdb Happly k) as H1.
  destruct (ps_market_statuses p !! k) as [r|]; cbn in *; [|by left].
  destruct (db_market_statuses db !! k) as [r0|] eqn:E; [|by right]. left. cbn. unfold market_status_is_null.
  pose proof (Hkeys _ _ E) as <-. cbn in Hk. by rewrite (proj2 (Z.eqb_neq _ _) Hk).
Qed.

(** A burn record the block wrote is removed, whether or not there was one before. *)
Lemma restored_burns k :
  db_burns db'' !! k = db_burns db !! k \/ db_burns db'' !! k = None.
Proof using All.
  destruct restored as (db2 & H2 & ->). change (db_burns (set_head num0 now0 db2)) with (db_burns db2).
  rewrite (apply_burns u1 db1 db2 eq_refl u1_ok db1_ok H2 k).
  change (ps_burns u1 !! k) with (ps_burns u !! k). change (db_burns db1 !! k) with (db_burns db' !! k).
  rewrite (undo_burns db p u Hundo k). pose proof (apply_burns p db db' Hprev Hp Hdb Happly k) as H1.
  destruct (ps_burns p !! k) as [r|]; cbn in *; [by right|by left].
Qed.

(** History and recent operations are not undone. *)
Lemma unrestored_history :
  db_market_history db'' = db_market_history db' /\ db_recent_operations db'' = db_recent_operations db'.
Proof using All.
  destruct restored as (db2 & H2 & ->). destruct (undo_not_kept db p u Hundo) as (Hh & Hq & _).
  split; apply map_eq; intros k.
  - etransitivity; [exact (apply_market_history u1 db1 db2 eq_refl u1_ok db1_ok H2 k)|].
    change (ps_market_history u1) with (ps_market_history u). by rewrite Hh.
  - etransitivity; [exact (apply_recent_operations u1 db1 db2 eq_refl u1_ok db1_ok H2 k)|].
    change (ps_recent_operations u1) with (ps_recent_operations u). by rewrite Hq.
Qed.

(** An address that held nothing before keeps an empty record. *)
Lemma restored_balances k :
  db_balances db'' !! k = db_balances db !! k \/
  db_balances db !! k = None /\ exists r, db_balances db'' !! k = Some r /\ br_balance r = 0.
Proof using All.
  destruct restored as (db2 & H2 & ->).
  pose proof (apply_balances u1 db1 db2 eq_refl u1_ok db1_ok H2 k) as E2.
  change (db_balances (set_head num0 now0 db2)) with (db_balances db2). rewrite E2.
  unfold pending_get_balance_record. change (ps_balances u1 !! k) with (ps_balances u !! k).
  rewrite (undo_balances db p u Hp Hdb Hundo k).
  pose proof (apply_balances p db db' Hprev Hp Hdb Happly k) as E1.
  unfold pending_get_balance_record in E1. rewrite Hprev in E1.
  destruct (ps_balances p !! k) as [r|]; cbn in *.
  - destruct (db_balances db !! k) as [r0|]; cbn; [by left|right; eauto].
  - left. exact E1.
Qed.
End restore.
End undo.

(** ** Theorems *)

(** Slot records and market statuses are under their keys, and no null property or
    transaction is stored. *)
Record db_filed (db : chain_database) : Prop := mk_filed {
  df_properties : no_null variant_is_null (db_properties db);
  df_transactions : no_null trx_is_null (db_transactions db);
  df_slots : keyed so_start_time (db_slots db);
  df_statuses : keyed market_status_key (db_market_statuses db)
}.

(** The records a popped block gives back: [db] is before the block, [db'] after it
    and [db''] after the pop. *)
Record records_restored (db db' db'' : chain_database) : Prop := mk_restored {
  rr_assets : db_assets db'' = db_assets db;
  rr_accounts : db_accounts db'' = db_accounts db;
  rr_slates : db_slates db'' = db_slates db;
  rr_bids : db_bids db'' = db_bids db;
  rr_asks : db_asks db'' = db_asks db;
  rr_relative_bids : db_relative_bids db'' = db_relative_bids db;
  rr_relative_asks : db_relative_asks db'' = db_relative_asks db;
  rr_shorts : db_shorts db'' = db_shorts db;
  rr_collateral : db_collateral db'' = db_collateral db;
  rr_feeds : db_feeds db'' = db_feeds db;
  rr_authorizations : db_authorizations db'' = db_authorizations db;
  rr_proposals : db_asset_proposals db'' = db_asset_proposals db;
  rr_transactions : db_transactions db'' = db_transactions db;
  rr_balances k : db_balances db'' !! k = db_balances db !! k \/
    db_balances db !! k = None /\ exists r, db_balances db'' !! k = Some r /\ br_balance r = 0;
  rr_properties id : id <> dirty_markets_prop -> db_properties db'' !! id = db_properties db !! id;
  rr_slots t : t <> 0 -> db_slots db'' !! t = db_slots db !! t \/
    db_slots db !! t = None /\ db_slots db'' !! t = db_slots db' !! t;
  rr_statuses k : k.1 <> k.2 -> db_market_statuses db'' !! k = db_market_statuses db !! k \/
    db_market_statuses db !! k = None /\ db_market_statuses db'' !! k = db_market_statuses db' !! k;
  rr_burns k : db_burns db'' !! k = db_burns db !! k \/ db_burns db'' !! k = None;
  rr_history : db_market_history db'' = db_market_history db';
  rr_recent : db_recent_operations db'' = db_recent_operations db'
}.

(** Popping a block, that is applying the undo state saved before it, gives
    back every asset, account, slate, order, short, collateral, feed,
    authorization, proposal and transaction as it was, every property but the dirty
    markets, every balance, an address that was new in the block keeping an empty
    record, and every slot record and market status there was; those that are new in
    the block stay, its burn records are removed, and the history of the markets and
    the recent operations stay as the block left them. *)
Theorem undo_restores `{Crypto} db db' db'' p u num now num0 now0 uniq :
  pending_reachable p -> ps_prev p = Some (db_view db) -> db_ok db -> db_filed db ->
  undo_state_of db p = Ok u -> apply_changes p db = Ok db' ->
  apply_undo_state u num0 now0 (settle num now uniq db') = Ok db'' ->
  records_restored db db' db''.
Proof.
  intros Hr Hprev Hdb [] Hu Ha Hpop. apply pending_reachable_ok in Hr as Hp.
  split; eauto using restored_assets, restored_accounts, restored_slates, restored_bids,
    restored_asks, restored_relative_bids, restored_relative_asks, restored_shorts,
    restored_collateral, restored_feeds, restored_authorizations, restored_asset_proposals,
    restored_balances, restored_properties, restored_transactions, restored_slots, restored_statuses,
    restored_burns.
  - by eapply unrestored_history.
  - by eapply unrestored_history.
Qed.

(** A slot record or market status a block creates survives the pop of the
    block: the undo state has a default record without its key in its place. *)
Theorem undo_leaves `{Crypto} db db' db'' p u num now num0 now0 uniq t slot k status :
  pending_reachable p -> ps_prev p = Some (db_view db) -> db_ok db -> db_track_stats db = true ->
  keyed so_start_time (db_slots db) -> keyed market_status_key (db_market_statuses db) ->
  undo_state_of db p = Ok u -> apply_changes p db = Ok db' ->
  apply_undo_state u num0 now0 (settle num now uniq db') = Ok db'' ->
  (db_slots db !! t = None -> ps_slots p !! t = Some slot -> slot_is_null slot = false ->
     db_slots db'' !! t = Some slot) /\
  (db_market_statuses db !! k = None -> ps_market_statuses p !! k = Some status ->
     market_status_is_null status = false -> db_market_statuses db'' !! k = Some status).
Proof.
  intros Hr Hprev Hdb Htrack Hks Hkm Hu Ha Hpop. apply pending_reachable_ok in Hr as Hp.
  destruct (restored _ _ _ _ _ _ _ _ Hpop) as (db2 & H2 & ->).
  pose proof (db1_ok _ _ _ num now uniq Hprev Hp Hdb Ha) as Hdb1.
  pose proof (u1_ok _ db' _ _ num now uniq Hu) as Hu1.
  set (db1 := settle num now uniq db') in *.
  set (u1 := set_ps_prev (Some (db_view db1)) u) in *.
  assert (Hprev1 : ps_prev u1 = Some (db_view db1)) by done.
  split; intros Hnone Hk Hnull; cbn.
  - assert (so_start_time slot = t) as <- by exact (po_slots _ Hp _ _ Hk).
    rewrite (apply_slots _ _ _ Hprev1 Hu1 Hdb1 H2) by (change (db_track_stats db' = true); by rewrite (apply_track_stats _ _ _ Hprev Ha)).
    cbn. rewrite (undo_slots _ _ _ Hu _ Hks) by (unfold slot_is_null in Hnull; lia). rewrite Hnone, Hk. cbn.
    rewrite (apply_slots _ _ _ Hprev Hp Hdb Ha) by done. rewrite Hk. cbn. by rewrite Hnull.
  - assert (market_status_key status = k) as <- by exact (po_statuses _ Hp _ _ Hk).
    rewrite (apply_market_statuses _ _ _ Hprev1 Hu1 Hdb1 H2). cbn.
    rewrite (undo_statuses _ _ _ Hu _ Hkm), Hnone, Hk; cbn.
    2: { unfold market_status_is_null, market_status_key in *. intros [= E1 E2].
         rewrite E1, E2 in Hnull. done. }
    rewrite (apply_market_statuses _ _ _ Hprev Hp Hdb Ha), Hk. cbn. by rewrite Hnull.
Qed.

Section sample.
#[local] Existing Instance toy_crypto.

Lemma sample_pop :
  exists u db' db'', undo_state_of genesis_db (sample_block genesis_db) = Ok u /\
    apply_changes (sample_block genesis_db) genesis_db = Ok db' /\
    apply_undo_state u 0 100 (settle 1 110 ∅ db') = Ok db''.
Proof.
  destruct (undo_state_of genesis_db (sample_block genesis_db)) as [u|] eqn:Hu;
    [|vm_compute in Hu; discriminate Hu].
  destruct (apply_changes (sample_block genesis_db) genesis_db) as [db'|] eqn:Ha;
    [|vm_compute in Ha; discriminate Ha].
  destruct (apply_undo_state u 0 100 (settle 1 110 ∅ db')) as [db''|] eqn:Hpop;
    [exists u, db', db''; exact (conj eq_refl (conj eq_refl Hpop))|].
  exfalso. assert (Hok : is_ok (u ← undo_state_of genesis_db (sample_block genesis_db);
    db' ← apply_changes (sample_block genesis_db) genesis_db;
    apply_undo_state u 0 100 (settle 1 110 ∅ db')) = true) by (vm_compute; reflexivity).
  rewrite Hu, Ha in Hok. cbn -[apply_undo_state] in Hok. rewrite Hpop in Hok. discriminate Hok.
Defined.
End sample.

Lemma undo_restores_witness :
  exists db' db'', records_restored genesis_db db' db''.
Proof.
  destruct sample_pop as (u & db' & db'' & Hu & Ha & Hpop). exists db', db''.
  apply (undo_restores (H := toy_crypto) genesis_db db' db'' (sample_block genesis_db) u
             1 110 0 100 ∅);
      [apply sample_block_reachable|reflexivity|apply genesis_db_ok| |exact Hu|exact Ha|exact Hpop].
  split; first [apply map_Forall_singleton; reflexivity | intros k v; cbn; by rewrite lookup_empty].
Defined.

Lemma undo_leaves_witness :
  exists db'', db_slots genesis_db !! 110 = None /\ db_slots db'' !! 110 = Some (mk_slot 110 7 None) /\
    db_market_statuses db'' !! (5, 0) = Some (mk_market_status 5 0 None None None 0 0 null_price).
Proof.
  destruct sample_pop as (u & db' & db'' & Hu & Ha & Hpop). exists db''. split; [reflexivity|].
  destruct (undo_leaves (H := toy_crypto) genesis_db db' db'' (sample_block genesis_db) u
    1 110 0 100 ∅ 110 (mk_slot 110 7 None) (5, 0) (mk_market_status 5 0 None None None 0 0 null_price)) as [H1 H2];
    [apply sample_block_reachable|reflexivity|apply genesis_db_ok|reflexivity| | 
     |exact Hu|exact Ha|exact Hpop|].
  - intros k v. cbn. by rewrite lookup_empty.
  - intros k v. cbn. by rewrite lookup_empty.
  - split; [apply H1|apply H2]; vm_compute; reflexivity.
Defined.
