(* ===== verification/EvalState.v ===== *)
(** * EvalState: evaluating a transaction (transaction_evaluation_state.hpp/.cpp)

    The running state of a transaction's evaluation and the methods operations
    call on it: signature checks, the transient balance, votes and fees.  The
    evaluation is explicit state passing; an exception drops the state, as the
    callers drop the evaluation's pending state.  [Evaluate.v] has the loop over
    the operations. *)
From S2P Require Import Prelude Config Fc Asset Records ChainInterface.
From Stdlib Require Import String.

(** The serialised members, the chain state evaluated on, the chain id and
    [_skip_signature_check]. *)
Record eval_state (St : Type) := mk_eval {
  es_data : eval_data;
  es_chain : St;
  es_chain_id : Z;
  es_skip : bool
}.
Arguments mk_eval {St}.
Arguments es_data {St}.
Arguments es_chain {St}.
Arguments es_chain_id {St}.
Arguments es_skip {St}.

Definition upd_data {St} (f : eval_data -> eval_data) (s : eval_state St) : eval_state St :=
  mk_eval (f (es_data s)) (es_chain s) (es_chain_id s) (es_skip s).
Definition upd_chain {St} (f : St -> St) (s : eval_state St) : eval_state St :=
  mk_eval (es_data s) (f (es_chain s)) (es_chain_id s) (es_skip s).
(** The same for an update that may throw. *)
Definition upd_chain_r {St} (f : St -> result St) (s : eval_state St) : result (eval_state St) :=
  c ← f (es_chain s); Ok (mk_eval (es_data s) c (es_chain_id s) (es_skip s)).

(** [transaction_evaluation_state( current_state, chain_id )] *)
Definition new_eval {St} (c : St) (chain_id : Z) : eval_state St :=
  mk_eval default_eval_data c chain_id false.

Section eval.
Context {St : Type} `{ChainStore St} `{Crypto} `{FcNum}.
Implicit Types s : eval_state St.

(** The chain state as the operations read it. *)
Definition view s : chain_view := cs_view (es_chain s).

(** ** Authority *)

Definition check_signature (a : Z) s : bool :=
  es_skip s || bool_decide (a ∈ ev_signed_keys (es_data s)).

Definition count_signatures (owners : gset Z) s : Z :=
  Z.of_nat (List.length (filter (fun a => check_signature a s = true) (elements owners))).

Definition verify_authority (siginfo : multisig_meta_info) s : bool :=
  count_signatures (ms_owners siginfo) s >=? ms_required siginfo.

Definition check_multisig (required : Z) (owners : gset Z) s : bool :=
  count_signatures owners s >=? required.

(** Whether an unretracted account's active or owner key signed. *)
Definition account_has_signed (r : account_record) s : bool :=
  negb (account_is_retracted r)
  && (check_signature (account_active_address r) s || check_signature (account_owner_address r) s).

(** The loop over the names of the parents; the name gets shorter. *)
Fixpoint any_parent_loop (fuel : nat) (parent_name : option string) s : bool :=
  match fuel, parent_name with
  | S fuel, Some name =>
      let rest := any_parent_loop fuel (get_parent_account_name name) s in
      match cv_account_by_name (view s) name with
      | None => rest
      | Some r => if account_has_signed r s then true else rest
      end
  | _, _ => false
  end.

Definition any_parent_has_signed (account_name : string) s : bool :=
  any_parent_loop (String.length account_name) (get_parent_account_name account_name) s.

Definition account_or_any_parent_has_signed (r : account_record) s : bool :=
  if account_has_signed r s then true else any_parent_has_signed (ac_name r) s.

Definition verify_delegate_id (id : Z) s : result unit :=
  r ← require (cv_account (view s) id) unknown_account_id;
  throw_if (negb (account_is_delegate r)) not_a_delegate.

Definition validate_asset (a : asset) s : result unit :=
  _ ← require (cv_asset (view s) (asset_id a)) unknown_asset_id; Ok tt.

(** ** The transient balance *)

Definition get_fees (id : Z) s : Z := default 0 (ev_balance (es_data s) !! id).

(** [m[ k ] = a], or [m[ k ] += a] where there is an entry. *)
Definition accumulate (k : Z) (a : asset) (m : gmap Z asset) : result (gmap Z asset) :=
  match m !! k with
  | None => Ok (<[k := a]> m)
  | Some b => c ← asset_add b a; Ok (<[k := c]> m)
  end.

Definition sub_balance (balance_id : Z) (a : asset) s : result (eval_state St) :=
  let d := es_data s in
  provided ← (if negb (balance_id =? null_address)
              then accumulate balance_id a (ev_provided_deposits d)
              else Ok (ev_provided_deposits d));
  deposits ← accumulate (asset_id a) a (ev_deposits d);
  let bal := match ev_balance d !! asset_id a with
             | Some b => wrap64 (b - amount a)
             | None => wrap64 (- amount a)
             end in
  Ok (upd_data (fun _ =>
        set_ev_deltas (<[ev_current_op_index d := a]> (ev_deltas d))
          (set_ev_balance (<[asset_id a := bal]> (ev_balance d))
             (set_ev_deposits deposits (set_ev_provided_deposits provided d)))) s).

Definition add_balance (a : asset) s : result (eval_state St) :=
  let d := es_data s in
  withdraws ← accumulate (asset_id a) a (ev_withdraws d);
  let bal := match ev_balance d !! asset_id a with
             | Some b => wrap64 (b + amount a)
             | None => amount a
             end in
  Ok (upd_data (fun _ =>
        set_ev_deltas (<[ev_current_op_index d := asset_opp a]> (ev_deltas d))
          (set_ev_balance (<[asset_id a := bal]> (ev_balance d))
             (set_ev_withdraws withdraws d))) s).

(** [required_fees += a] *)
Definition require_fee (a : asset) s : result (eval_state St) :=
  f ← asset_add (ev_required_fees (es_data s)) a;
  Ok (upd_data (set_ev_required_fees f) s).

(** ** Votes *)

(** Negative votes are disabled ([BTS_BLOCKCHAIN_ENABLE_NEGATIVE_VOTES]), so a
    negative delegate id counts for the delegate. *)
Definition vote_for (amt : Z) (votes : gmap Z Z) (delegate_id : Z) : gmap Z Z :=
  let old := default 0 (votes !! Z.abs delegate_id) in
  <[Z.abs delegate_id :=
      if BTS_BLOCKCHAIN_ENABLE_NEGATIVE_VOTES && (delegate_id <? 0)
      then wrap64 (old - amt) else wrap64 (old + amt)]> votes.

Definition adjust_vote (slate_id amt : Z) s : result (eval_state St) :=
  if negb (slate_id =? 0) then
    slate ← require (cv_slate (view s) slate_id) unknown_delegate_slate;
    Ok (upd_data (fun d => set_ev_net_delegate_votes
          (foldl (vote_for amt) (ev_net_delegate_votes d) (sl_supported_delegates slate)) d) s)
  else Ok s.

Definition update_delegate_votes s : result (eval_state St) :=
  each (fun id votes s =>
          r ← require (cv_account (view s) id) assert_exception;
          r' ← account_adjust_votes_for votes r;
          upd_chain_r (cs_store_account r') s)
    (ev_net_delegate_votes (es_data s)) s.

(** ** Fees *)

Definition validate_required_fee s : result unit :=
  let d := es_data s in
  xts ← (match ev_balance d !! 0 with
         | Some f => asset_add (mk_asset 0 0) (mk_asset f 0)
         | None => Ok (mk_asset 0 0)
         end);
  xts ← asset_add xts (ev_alt_fees_paid d);
  throw_if (asset_gtb (ev_required_fees d) xts) insufficient_fee.

(** The transaction fee of a market-issued asset that was withdrawn. *)
Definition charge_transaction_fee (id : Z) (_ : asset) s : result (eval_state St) :=
  r ← require (cv_asset (view s) id) unknown_asset_id;
  if (as_id r >? 0) && is_market_issued r && (as_transaction_fee r >? 0)
  then sub_balance null_address (mk_asset (as_transaction_fee r) (as_id r)) s
  else Ok s.

(** A market-issued asset left over pays two thirds of its value as fees. *)
Definition alt_fee (id fee : Z) s : result (eval_state St) :=
  _ ← throw_if (fee <? 0) negative_fee;
  if (id =? 0) || (fee =? 0) then Ok s
  else
    r ← require (cv_asset (view s) id) unknown_asset_id;
    if negb (is_market_issued r) then Ok s
    else
      median ← cv_median_price (view s) id 0;
      match median with
      | None => Ok s
      | Some p =>
          v ← asset_mul (mk_asset (Z.quot (wrap64 (fee * 2)) 3) id) p;
          a ← asset_add (ev_alt_fees_paid (es_data s)) v;
          Ok (upd_data (set_ev_alt_fees_paid a) s)
      end.

Definition collect_fee (id fee : Z) s : result (eval_state St) :=
  _ ← throw_if (fee <? 0) negative_fee;
  if fee >? 0 then
    r ← require (cv_asset (view s) id) unknown_asset_id;
    Ok (upd_chain (cs_store_asset (set_as_collected_fees (wrap64 (as_collected_fees r + fee)) r)) s)
  else Ok s.

Definition post_evaluate s : result (eval_state St) :=
  s ← each charge_transaction_fee (ev_withdraws (es_data s)) s;
  let s := upd_data (fun d => set_ev_balance
             (<[0 := default 0 (ev_balance d !! 0)]> (ev_balance d)) d) s in
  s ← each alt_fee (ev_balance (es_data s)) s;
  each collect_fee (ev_balance (es_data s)) s.
End eval.
