(* ===== verification/AccountOps.v ===== *)
(** * AccountOps: account operations (account_operations.cpp) and the feed
      operation (feed_operations.cpp)

    Registration and update of accounts, withdrawal of delegate pay, the block
    signing key, and the publication of a price feed. *)
From S2P Require Import Prelude Config Fc Asset Records ChainInterface EvalState.
From Stdlib Require Import String.

(** [is_delegate] of the register and update operations. *)
Definition pay_rate_is_delegate (pay_rate : Z) : bool := pay_rate <=? 100.

(** [account_record()] with the members registration sets. *)
Definition new_account (id : Z) (o : register_account_operation) (now : Z) : account_record :=
  mk_account id (ra_name o) (ra_public_data o) (ra_owner_key o) ∅ now now None (ra_meta_data o).

(** [delegate_info = delegate_stats()] with the given pay rate. *)
Definition make_delegate (pay_rate : Z) (r : account_record) : account_record :=
  set_ac_delegate_info (Some (set_ds_pay_rate pay_rate default_delegate_stats)) r.

Section ops.
Context {St : Type} `{ChainStore St} `{Crypto} `{FcNum}.
Implicit Types s : eval_state St.

Definition account_of_key (key : Z) s : option account_record :=
  cv_account_by_address (view s) (address_of_key key).

Definition is_some {A} (o : option A) : bool := match o with Some _ => true | None => false end.

Definition register_account_evaluate (o : register_account_operation) s : result (eval_state St) :=
  _ ← throw_if (negb (is_valid_account_name (ra_name o))) invalid_account_name;
  _ ← throw_if (is_some (cv_account_by_name (view s) (ra_name o))) account_already_registered;
  _ ← throw_if (is_some (account_of_key (ra_owner_key o) s)) account_key_in_use;
  _ ← throw_if (is_some (account_of_key (ra_active_key o) s)) account_key_in_use;
  _ ← (if is_some (get_parent_account_name (ra_name o))
       then throw_if (negb (any_parent_has_signed (ra_name o) s)) missing_parent_account_signature
       else Ok tt);
  let now := cv_now (view s) in
  '(id, c) ← new_account_id (es_chain s);
  let s := upd_chain (fun _ => c) s in
  r ← account_set_active_key now (ra_active_key o) (new_account id o now);
  '(r, s) ← (if pay_rate_is_delegate (ra_delegate_pay_rate o) then
               r ← account_set_signing_key (cv_head_block_num (view s)) (ra_active_key o)
                     (make_delegate (ra_delegate_pay_rate o) r);
               fee ← get_delegate_registration_fee (view s) (ra_delegate_pay_rate o);
               s ← require_fee (mk_asset fee 0) s;
               Ok (r, s)
             else Ok (r, s));
  upd_chain_r (cs_store_account r) s.

(** The branch of [update_account_operation::evaluate] that changes the key. *)
Definition update_active_key (key : Z) (r : account_record) s : result account_record :=
  _ ← throw_if (is_some (account_of_key key s)) account_key_in_use;
  _ ← throw_if (negb (check_signature (account_owner_address r) s)
             && negb (any_parent_has_signed (ac_name r) s)) missing_signature;
  r ← account_set_active_key (cv_now (view s)) key r;
  _ ← (if account_is_retracted r && account_is_delegate r then
         _ ← fc_assert (cv_head_block_num (view s) >=? BTS_V0_4_28_FORK_BLOCK_NUM);
         pay ← account_delegate_pay_balance r;
         throw_if (pay >? 0) pay_balance_remaining
       else Ok tt);
  if (cv_head_block_num (view s) <? BTS_V0_4_28_FORK_BLOCK_NUM) && account_is_delegate r
  then account_set_signing_key (cv_head_block_num (view s)) (account_active_key r) r
  else Ok r.

(** Becoming a delegate, or lowering a delegate's pay rate. *)
Definition update_pay_rate (pay_rate : Z) (r : account_record) s
    : result (account_record * eval_state St) :=
  _ ← (if account_is_delegate r then fc_assert (pay_rate_is_delegate pay_rate) else Ok tt);
  if pay_rate_is_delegate pay_rate then
    match ac_delegate_info r with
    | Some d =>
        _ ← fc_assert (pay_rate <=? ds_pay_rate d);
        Ok (set_ac_delegate_info (Some (set_ds_pay_rate pay_rate d)) r, s)
    | None =>
        let r := make_delegate pay_rate r in
        r ← account_set_signing_key (cv_head_block_num (view s)) (account_active_key r) r;
        fee ← get_delegate_registration_fee (view s) pay_rate;
        s ← require_fee (mk_asset fee 0) s;
        Ok (r, s)
    end
  else Ok (r, s).

Definition update_account_evaluate (o : update_account_operation) s : result (eval_state St) :=
  r ← require (cv_account (view s) (ua_account_id o)) unknown_account_id;
  _ ← throw_if (account_is_retracted r) account_retracted;
  r ← (match ua_active_key o with
       | Some key =>
           if negb (key =? account_active_key r) then update_active_key key r s
           else _ ← throw_if (negb (account_or_any_parent_has_signed r s)) missing_signature; Ok r
       | None => _ ← throw_if (negb (account_or_any_parent_has_signed r s)) missing_signature; Ok r
       end);
  let r := match ua_public_data o with Some d => set_ac_public_data d r | None => r end in
  '(r, s) ← update_pay_rate (ua_delegate_pay_rate o) r s;
  upd_chain_r (cs_store_account (set_ac_last_update (cv_now (view s)) r)) s.

Definition withdraw_pay_evaluate (o : withdraw_pay_operation) s : result (eval_state St) :=
  _ ← throw_if (wp_amount o <=? 0) negative_withdraw;
  let account_id := Z.abs (wp_account_id o) in
  r ← require (cv_account (view s) account_id) unknown_account_id;
  d ← require (ac_delegate_info r) not_a_delegate;
  _ ← throw_if (ds_pay_balance d <? wp_amount o) insufficient_funds;
  _ ← throw_if (negb (account_or_any_parent_has_signed r s)) missing_signature;
  let r := set_ac_delegate_info
             (Some (set_ds_pay_balance (wrap64 (ds_pay_balance d - wp_amount o)) d)) r in
  let s := upd_data (fun e =>
             let votes := default 0 (ev_net_delegate_votes e !! account_id) in
             set_ev_net_delegate_votes
               (<[account_id := wrap64 (votes - wp_amount o)]> (ev_net_delegate_votes e)) e) s in
  s ← add_balance (mk_asset (wp_amount o) 0) s;
  upd_chain_r (cs_store_account r) s.

Definition update_signing_key_evaluate (o : update_block_signing_key) s : result (eval_state St) :=
  _ ← fc_assert (cv_head_block_num (view s) >=? BTS_V0_4_28_FORK_BLOCK_NUM);
  r ← require (cv_account (view s) (us_account_id o)) unknown_account_id;
  _ ← throw_if (account_is_retracted r) account_retracted;
  _ ← throw_if (negb (account_is_delegate r)) not_a_delegate;
  _ ← throw_if (is_some (account_of_key (us_block_signing_key o) s)) account_key_in_use;
  a ← account_signing_address r;
  _ ← throw_if (negb (check_signature a s) && negb (account_or_any_parent_has_signed r s))
        missing_signature;
  r ← account_set_signing_key (cv_head_block_num (view s)) (us_block_signing_key o) r;
  upd_chain_r (cs_store_account (set_ac_last_update (cv_now (view s)) r)) s.

(** [update_feed_operation::evaluate] *)
Definition update_feed_evaluate (o : update_feed_operation) s : result (eval_state St) :=
  r ← require (cv_account (view s) (fi_delegate_id (uf_feed o))) unknown_account_id;
  _ ← throw_if (account_is_retracted r) account_retracted;
  _ ← throw_if (negb (account_is_delegate r)) not_a_delegate;
  a ← account_signing_address r;
  _ ← throw_if (negb (check_signature a s) && negb (account_or_any_parent_has_signed r s))
        missing_signature;
  let s := upd_chain (cs_set_feed (mk_feed (uf_feed o) (uf_value o) (cv_now (view s)))) s in
  upd_chain_r (cs_set_market_dirty (fi_feed_id (uf_feed o)) 0) s.
End ops.
