(* ===== verification/AssetOps.v ===== *)
(** * AssetOps: asset operations (asset_operations.cpp)

    Creation of an asset and issue of its shares.  The other asset operations
    begin with an assertion that always fails ([Op_disabled]). *)
From S2P Require Import Prelude Config Fc Asset Records ChainInterface EvalState AccountOps.
From Stdlib Require Import String.

(** The [switch] of [is_power_of_ten]. *)
Definition is_power_of_ten (n : Z) : bool :=
  existsb (Z.eqb n)
    [1; 10; 100; 1000; 10000; 100000; 1000000; 10000000; 100000000; 1000000000; 10000000000;
     100000000000; 1000000000000; 10000000000000; 100000000000000; 1000000000000000].

(** What is before the first dot of a symbol that has one. *)
Definition parent_symbol (symbol : string) : option string :=
  match split_dot symbol with (p, Some _) => Some p | (_, None) => None end.

Section ops.
Context {St : Type} `{ChainStore St} `{Crypto} `{FcNum}.
Implicit Types s : eval_state St.

Definition issuer_permissions_mask : Z :=
  Z.lor (Z.lor (Z.lor retractable market_halt) balance_halt) supply_unlimit.

Definition create_asset_evaluate (o : create_asset_operation) s : result (eval_state St) :=
  valid ← is_valid_symbol_name (view s) (ca_symbol o);
  _ ← throw_if (negb valid) invalid_asset_symbol;
  _ ← (match parent_symbol (ca_symbol o) with
       | Some parent =>
           r ← require (cv_asset_by_symbol (view s) parent) assert_exception;
           throw_if (negb (verify_authority (as_authority r) s)) missing_signature
       | None => Ok tt
       end);
  _ ← throw_if (is_some (cv_asset_by_symbol (view s) (ca_symbol o))) asset_symbol_in_use;
  _ ← throw_if (String.eqb (ca_name o) "") invalid_asset_name;
  last ← last_asset_id (view s);
  _ ← throw_if (is_some (cv_asset (view s) (wrap32 (last + 1)))) asset_id_in_use;
  issuer ← (if negb (ca_issuer_account_id o =? market_issuer_id)
            then r ← require (cv_account (view s) (ca_issuer_account_id o)) unknown_account_id;
                 Ok (Some r)
            else Ok None);
  _ ← throw_if ((ca_maximum_share_supply o <=? 0)
             || (ca_maximum_share_supply o >? BTS_BLOCKCHAIN_MAX_SHARES)) invalid_asset_amount;
  _ ← throw_if (negb (is_power_of_ten (ca_precision o))) invalid_precision;
  fee ← get_asset_registration_fee (view s) (Z.of_nat (String.length (ca_symbol o)));
  s ← require_fee (mk_asset fee 0) s;
  '(id, c) ← new_asset_id (es_chain s);
  let s := upd_chain (fun _ => c) s in
  let now := cv_now (view s) in
  let authority := match issuer with
                   | Some r => mk_multisig 1 {[ account_active_address r ]}
                   | None => mk_multisig 0 ∅
                   end in
  Ok (upd_chain (cs_store_asset
        (mk_asset_record id (ca_symbol o) (ca_name o) (ca_description o) (ca_public_data o)
           (ca_issuer_account_id o) (ca_precision o) now now 0 (ca_maximum_share_supply o) 0
           0 issuer_permissions_mask 0 authority 0)) s).

Definition issue_asset_evaluate (o : issue_asset_operation) s : result (eval_state St) :=
  r ← require (cv_asset (view s) (asset_id (ia_amount o))) unknown_asset_id;
  _ ← throw_if (is_market_issued r) not_user_issued;
  _ ← throw_if (negb (verify_authority (as_authority r) s)) missing_signature;
  _ ← throw_if (amount (ia_amount o) <=? 0) negative_issue;
  _ ← throw_if (negb (can_issue r (ia_amount o))) over_issue;
  let r := set_as_current_share_supply
             (wrap64 (as_current_share_supply r + amount (ia_amount o))) r in
  s ← add_balance (ia_amount o) s;
  Ok (upd_chain (cs_store_asset (set_as_last_update (cv_now (view s)) r)) s).
End ops.
