(* ===== verification/BalanceOps.v ===== *)
(** * BalanceOps: balance operations (balance_operations.cpp and its versions
      v1 to v3 for blocks before the forks)

    Deposits, withdrawals with yield, burning and delegate slates. *)
From S2P Require Import Prelude Config Fc Asset Records ChainInterface EvalState AccountOps.
From Stdlib Require Import String.

Definition SECONDS_PER_YEAR : Z :=
  BTS_BLOCKCHAIN_BLOCKS_PER_YEAR * BTS_BLOCKCHAIN_BLOCK_INTERVAL_SEC.

Section ops.
Context {St : Type} `{ChainStore St} `{Crypto} `{FcNum}.
Implicit Types s : eval_state St.

(** ** Yield *)

(** The part of the yield curve that applies within the first year: four fifths
    linear and one fifth quadratic in time, in 128-bit arithmetic. *)
Definition scale_yield (yield elapsed : Z) : Z :=
  let linear := wrapu128 (yield * 8) / 10 in
  let delta := wrapu128 (yield - linear) in
  let linear := wrapu128 (linear * elapsed) / SECONDS_PER_YEAR in
  let delta := wrapu128 (delta * elapsed) / SECONDS_PER_YEAR in
  let delta := wrapu128 (delta * elapsed) / SECONDS_PER_YEAR in
  wrapu128 (linear + delta).

(** The two versions differ in the supply they divide by. *)
Definition yield_of_supply (current_supply : Z) (r : balance_record) (now amt yield_pool share_supply : Z)
    : result asset :=
  let none := mk_asset 0 (wc_asset_id (br_condition r)) in
  if (amt <=? 0) || (share_supply <=? 0) || (yield_pool <=? 0) then Ok none
  else
    let elapsed := now - br_deposit_date r in
    if elapsed >? BTS_BLOCKCHAIN_MIN_YIELD_PERIOD_SEC then
      y ← uint128_div (wrapu128 (wrapu128 (amt * 1000000) * yield_pool)) (wrapu128 current_supply);
      let y := if elapsed <? SECONDS_PER_YEAR then scale_yield y elapsed else y in
      v ← uint128_to_uint64 (y / 1000000);
      Ok (if (v >? 0) && (v <? yield_pool) then mk_asset v (wc_asset_id (br_condition r)) else none)
    else Ok none.

Definition calculate_yield (r : balance_record) (now amt yield_pool share_supply : Z) : result asset :=
  yield_of_supply (wrap64 (share_supply - yield_pool)) r now amt yield_pool share_supply.
Definition calculate_yield_v1 (r : balance_record) (now amt yield_pool share_supply : Z) : result asset :=
  yield_of_supply share_supply r now amt yield_pool share_supply.

(** [if( yield.amount > 0 )]: the yield moves from the asset's fees to the
    balance. *)
Definition pay_yield (yield : asset) (ar : asset_record) (r : balance_record) s
    : balance_record * eval_state St :=
  if amount yield >? 0 then
    let ar := set_as_collected_fees (wrap64 (as_collected_fees ar - amount yield)) ar in
    let r := set_br_deposit_date (cv_now (view s))
               (set_br_balance (wrap64 (br_balance r + amount yield)) r) in
    let id := wc_asset_id (br_condition r) in
    let s := upd_data (fun e => set_ev_yield
               (<[id := wrap64 (default 0 (ev_yield e !! id) + amount yield)]> (ev_yield e)) e) s in
    (r, upd_chain (cs_store_asset ar) s)
  else (r, s).

(** Votes of a balance of the base asset with a slate. *)
Definition adjust_balance_vote (c : withdraw_condition) (amt : Z) s : result (eval_state St) :=
  if (wc_asset_id c =? 0) && negb (wc_slate_id c =? 0)
  then adjust_vote (wc_slate_id c) amt s else Ok s.

(** ** Slates *)

Fixpoint verify_delegates (ids : list Z) s : result unit :=
  match ids with
  | [] => Ok tt
  | d :: ids => _ ← verify_delegate_id (Z.abs d) s; verify_delegates ids s
  end.

Definition define_slate_evaluate (o : define_delegate_slate_operation) s : result (eval_state St) :=
  let ids := sl_supported_delegates (dd_slate o) in
  _ ← throw_if (Z.of_nat (List.length ids) >? BTS_BLOCKCHAIN_MAX_SLATE_SIZE)
        too_may_delegates_in_slate;
  let id := slate_id (dd_slate o) in
  match cv_slate (view s) id with
  | Some _ => Ok s
  | None =>
      _ ← verify_delegates ids s;
      Ok (upd_chain (cs_store_slate id (dd_slate o)) s)
  end.

(** ** Deposits *)

(** [deposit_operation::balance_id] *)
Definition deposit_balance_id (o : deposit_operation) : Z := condition_address (do_condition o).

Definition deposit_evaluate_v1 (o : deposit_operation) s : result (eval_state St) :=
  _ ← throw_if (do_amount o <=? 0) negative_deposit;
  _ ← throw_if (negb (wc_type (do_condition o) =? 1)) invalid_withdraw_condition;
  let id := deposit_balance_id o in
  let r := default (balance_of_condition (do_condition o)) (cv_balance (view s) id) in
  let r := set_br_balance (wrap64 (br_balance r + do_amount o))
             (set_br_last_update (cv_now (view s)) r) in
  s ← sub_balance id (mk_asset (do_amount o) (wc_asset_id (br_condition r))) s;
  s ← adjust_balance_vote (br_condition r) (do_amount o) s;
  Ok (upd_chain (cs_store_balance r) s).

(** The deposit date of a balance is the average weighted by the amounts. *)
Definition average_deposit_date (r : balance_record) (now amt : Z) : result Z :=
  if br_balance r =? 0 then Ok now
  else
    avg ← uint128_div
            (wrapu128 (wrapu128 (br_deposit_date r * br_balance r) + wrapu128 (now * amt)))
            (wrapu128 (wrap64 (br_balance r + amt)));
    uint128_to_integer avg.

Definition check_owners_authorized (id : Z) (r : balance_record) s : result unit :=
  os ← balance_owners r;
  fc_assert (forallb (fun o => is_some (cv_authorization (view s) (id, o))) (elements os)).

Definition deposit_evaluate (o : deposit_operation) s : result (eval_state St) :=
  let head := cv_head_block_num (view s) in
  if head <? BTS_V0_4_13_FORK_BLOCK_NUM then deposit_evaluate_v1 o s
  else
    _ ← throw_if (do_amount o <=? 0) negative_deposit;
    _ ← (if head >=? BTS_V0_4_28_FORK_BLOCK_NUM
         then let t := wc_type (do_condition o) in
              throw_if (negb ((t =? 1) || (t =? 2) || (t =? 3) || (t =? 6))) invalid_withdraw_condition
         else Ok tt);
    let id := deposit_balance_id o in
    let r := default (balance_of_condition (do_condition o)) (cv_balance (view s) id) in
    date ← average_deposit_date r (cv_now (view s)) (do_amount o);
    let r := set_br_balance (wrap64 (br_balance r + do_amount o)) (set_br_deposit_date date r) in
    s ← sub_balance id (mk_asset (do_amount o) (wc_asset_id (br_condition r))) s;
    s ← adjust_balance_vote (br_condition r) (do_amount o) s;
    let r := set_br_last_update (cv_now (view s)) r in
    let asset_rec := cv_asset (view s) (wc_asset_id (br_condition r)) in
    _ ← (if head >=? BTS_V0_4_28_FORK_BLOCK_NUM then
           ar ← require asset_rec assertion_abort;
           if is_market_issued ar then fc_assert (wc_slate_id (br_condition r) =? 0) else Ok tt
         else Ok tt);
    ar ← require asset_rec assert_exception;
    _ ← (if is_restricted ar then check_owners_authorized (as_id ar) r s else Ok tt);
    Ok (upd_chain (cs_store_balance r) s).

(** ** Withdrawals *)

(** The [switch] on the condition's type; a type without its payload fails to
    unpack. *)
Definition check_condition_signature (c : withdraw_condition) s : result unit :=
  match wc_data c with
  | wd_signature owner _ => throw_if (negb (check_signature owner s)) missing_signature
  | wd_malformed 1 => Err bad_cast_exception
  | _ => Err invalid_withdraw_condition
  end.

Definition check_withdraw_condition (c : withdraw_condition) s : result unit :=
  let t := wc_type c in
  if (t =? 2) || (t =? 3) || (t =? 4) then Err assert_exception
  else check_condition_signature c s.

Definition withdraw_evaluate_v1 (o : withdraw_operation) s : result (eval_state St) :=
  _ ← throw_if (wo_amount o <=? 0) negative_deposit;
  let record := cv_balance (view s) (wo_balance_id o) in
  _ ← (if cv_head_block_num (view s) >=? BTS_V0_4_10_FORK_BLOCK_NUM then
         r ← require record unknown_balance_record;
         throw_if (wo_amount o >? br_balance r) insufficient_funds
       else Ok tt);
  match record with
  | Some r =>
      _ ← check_condition_signature (br_condition r) s;
      let r := set_br_last_update (cv_now (view s))
                 (set_br_balance (wrap64 (br_balance r - wo_amount o)) r) in
      s ← adjust_balance_vote (br_condition r) (wrap64 (- wo_amount o)) s;
      let s := upd_chain (cs_store_balance r) s in
      add_balance (mk_asset (wo_amount o) (wc_asset_id (br_condition r))) s
  | None => add_balance (mk_asset (wo_amount o) 0) s
  end.

(** [evaluate_v2] computes the yield of what remains. *)
Definition withdraw_evaluate_v2 (o : withdraw_operation) s : result (eval_state St) :=
  let head := cv_head_block_num (view s) in
  if head <? BTS_V0_4_13_FORK_BLOCK_NUM then withdraw_evaluate_v1 o s
  else
    _ ← throw_if (wo_amount o <=? 0) negative_deposit;
    r ← require (cv_balance (view s) (wo_balance_id o)) unknown_balance_record;
    _ ← throw_if (wo_amount o >? br_balance r) insufficient_funds;
    _ ← check_condition_signature (br_condition r) s;
    let r := set_br_last_update (cv_now (view s))
               (set_br_balance (wrap64 (br_balance r - wo_amount o)) r) in
    s ← adjust_balance_vote (br_condition r) (wrap64 (- wo_amount o)) s;
    ar ← require (cv_asset (view s) (wc_asset_id (br_condition r))) assert_exception;
    '(r, s) ← (if is_market_issued ar then
                 y ← calculate_yield r (cv_now (view s)) (br_balance r)
                       (as_collected_fees ar) (as_current_share_supply ar);
                 y ← (if head <? BTS_V0_4_21_FORK_BLOCK_NUM
                      then calculate_yield_v1 r (cv_now (view s)) (br_balance r)
                             (as_collected_fees ar) (as_current_share_supply ar)
                      else Ok y);
                 Ok (pay_yield y ar r s)
               else Ok (r, s));
    let s := upd_chain (cs_store_balance r) s in
    add_balance (mk_asset (wo_amount o) (wc_asset_id (br_condition r))) s.

Definition withdraw_evaluate_v3 (o : withdraw_operation) s : result (eval_state St) :=
  if cv_head_block_num (view s) <? BTS_V0_4_15_FORK_BLOCK_NUM then withdraw_evaluate_v2 o s
  else
    _ ← throw_if (wo_amount o <=? 0) negative_deposit;
    r ← require (cv_balance (view s) (wo_balance_id o)) unknown_balance_record;
    _ ← throw_if (wo_amount o >? br_balance r) insufficient_funds;
    _ ← check_condition_signature (br_condition r) s;
    s ← adjust_balance_vote (br_condition r) (wrap64 (- wo_amount o)) s;
    ar ← require (cv_asset (view s) (wc_asset_id (br_condition r))) assert_exception;
    '(r, s) ← (if is_market_issued ar then
                 y ← calculate_yield_v1 r (cv_now (view s)) (br_balance r)
                       (as_collected_fees ar) (as_current_share_supply ar);
                 Ok (pay_yield y ar r s)
               else Ok (r, s));
    let r := set_br_last_update (cv_now (view s))
               (set_br_balance (wrap64 (br_balance r - wo_amount o)) r) in
    let s := upd_chain (cs_store_balance r) s in
    add_balance (mk_asset (wo_amount o) (wc_asset_id (br_condition r))) s.

Definition withdraw_evaluate (o : withdraw_operation) s : result (eval_state St) :=
  if cv_head_block_num (view s) <? BTS_V0_4_21_FORK_BLOCK_NUM then withdraw_evaluate_v3 o s
  else
    _ ← throw_if (wo_amount o <=? 0) negative_withdraw;
    r ← require (cv_balance (view s) (wo_balance_id o)) unknown_balance_record;
    spendable ← get_spendable_balance r (cv_now (view s));
    _ ← throw_if (wo_amount o >? amount spendable) insufficient_funds;
    ar ← require (cv_asset (view s) (wc_asset_id (br_condition r))) assert_exception;
    let issuer_override := is_retractable ar && verify_authority (as_authority ar) s in
    _ ← (if negb issuer_override then
           _ ← fc_assert (negb (is_balance_frozen ar));
           _ ← (if is_restricted ar then check_owners_authorized (as_id ar) r s else Ok tt);
           check_withdraw_condition (br_condition r) s
         else Ok tt);
    s ← adjust_balance_vote (br_condition r) (wrap64 (- wo_amount o)) s;
    '(r, s) ← (if is_market_issued ar then
                 y ← calculate_yield r (cv_now (view s)) (br_balance r)
                       (as_collected_fees ar) (as_current_share_supply ar);
                 Ok (pay_yield y ar r s)
               else Ok (r, s));
    let r := set_br_balance (wrap64 (br_balance r - wo_amount o)) r in
    s ← add_balance (mk_asset (wo_amount o) (wc_asset_id (br_condition r))) s;
    Ok (upd_chain (cs_store_balance (set_br_last_update (cv_now (view s)) r)) s).

(** ** Burning *)

Definition burn_evaluate (o : burn_operation) s : result (eval_state St) :=
  let a := bu_amount o in
  _ ← (if negb (String.eqb (bu_message o) "") then fc_assert (asset_id a =? 0) else Ok tt);
  _ ← (if asset_id a =? 0 then fc_assert (amount a >=? BTS_BLOCKCHAIN_MIN_BURN_FEE) else Ok tt);
  ar ← require (cv_asset (view s) (asset_id a)) assert_exception;
  _ ← fc_assert (negb (is_market_issued ar));
  let ar := set_as_current_share_supply (wrap64 (as_current_share_supply ar - amount a)) ar in
  s ← sub_balance null_address a s;
  let s := upd_chain (cs_store_asset ar) s in
  _ ← (if negb (bu_account_id o =? 0)
       then fc_assert (is_some (cv_account (view s) (Z.abs (bu_account_id o)))) else Ok tt);
  Ok (upd_chain (cs_store_burn (bu_account_id o, trx_id (ev_trx (es_data s)))
                   (mk_burn_value a (bu_message o) (bu_message_signature o))) s).
End ops.
