(* ===== verification/MarketOps.v ===== *)
(** * MarketOps: market operations (market_operations.cpp and its versions v1 to
      v4 for blocks before the forks)

    Placing and cancelling bids, asks and shorts, covering a short position and
    adding collateral.  The interest formulas are market_engine.cpp's and
    market_engine_v7.cpp's. *)
From S2P Require Import Prelude Config Fc Asset Records ChainInterface EvalState AccountOps.

(** [llabs] *)
Definition llabs (z : Z) : Z := wrap64 (Z.abs z).

Section ops.
Context {St : Type} `{ChainStore St} `{Crypto} `{FcNum} `{FcReal}.
Implicit Types s : eval_state St.

(** ** Interest *)

(** [apr_n / apr_d]: the ratio of the rate, taken on [BTS_BLOCKCHAIN_MAX_SHARES]
    of the asset [id]. *)
Definition annual_rate (id : Z) (apr : price) : result real128 :=
  n ← asset_mul (mk_asset BTS_BLOCKCHAIN_MAX_SHARES id) apr;
  Ok (real_div (real_of_uint64 (wrapu64 (amount n))) (real_of_uint64 BTS_BLOCKCHAIN_MAX_SHARES)).

Definition fraction_of_year (age_seconds : Z) : real128 :=
  real_div (real_of_uint64 age_seconds) (real_of_uint64 (365 * 24 * 60 * 60)).

Definition interest_paid_at (id : Z) (total_amount_paid : asset) (apr : price) (age_seconds : Z)
    : result asset :=
  let total_paid := real_of_uint64 (wrapu64 (amount total_amount_paid)) in
  iapr ← annual_rate id apr;
  let delta_principle :=
    real_div total_paid
      (real_add (real_of_uint64 1) (real_mul iapr (fraction_of_year age_seconds))) in
  Ok (mk_asset (wrap64 (real_to_uint64 (real_sub total_paid delta_principle)))
        (asset_id total_amount_paid)).

Definition interest_owed_at (id : Z) (principle : asset) (apr : price) (age_seconds : Z)
    : result asset :=
  iapr ← annual_rate id apr;
  let owed := real_mul (real_mul (real_of_uint64 (wrapu64 (amount principle))) iapr)
                (fraction_of_year age_seconds) in
  Ok (mk_asset (wrap64 (real_to_uint64 owed)) (asset_id principle)).

Definition get_interest_paid (total : asset) (apr : price) (age_seconds : Z) : result asset :=
  interest_paid_at (base_asset_id apr) total apr age_seconds.
Definition get_interest_owed (principle : asset) (apr : price) (age_seconds : Z) : result asset :=
  interest_owed_at (base_asset_id apr) principle apr age_seconds.
Definition get_interest_paid_v1 (total : asset) (apr : price) (age_seconds : Z) : result asset :=
  interest_paid_at (quote_asset_id apr) total apr age_seconds.
Definition get_interest_owed_v1 (principle : asset) (apr : price) (age_seconds : Z) : result asset :=
  interest_owed_at (quote_asset_id apr) principle apr age_seconds.

(** ** Orders *)

(** A negative amount withdraws from the order, a positive one adds to it. *)
Definition fund_order (order : option order_record) (delta : asset) s
    : result (order_record * eval_state St) :=
  _ ← throw_if (amount delta =? 0) zero_amount;
  if amount delta <? 0 then
    r ← require order unknown_market_order;
    _ ← throw_if (llabs (amount delta) >? or_balance r) insufficient_funds;
    s ← add_balance (asset_opp delta) s;
    Ok (r, s)
  else
    s ← sub_balance null_address delta s;
    Ok (default null_order_record order, s).

Definition zero_price_check (p : price) : result unit :=
  throw_if (price_eqb p null_price) zero_price.

(** What bids and asks check of the two assets and the owner; a bid spends the
    quote asset, an ask the base asset. *)
Definition check_order_assets (p : price) (owner : Z) (spends_quote : bool) s : result unit :=
  base ← require (cv_asset (view s) (base_asset_id p)) assert_exception;
  quote ← require (cv_asset (view s) (quote_asset_id p)) assert_exception;
  _ ← (if is_restricted base
       then fc_assert (is_some (cv_authorization (view s) (as_id base, owner))) else Ok tt);
  _ ← (if is_restricted quote
       then fc_assert (is_some (cv_authorization (view s) (as_id quote, owner))) else Ok tt);
  let spent := if spends_quote then quote else base in
  let issuer_override := is_retractable spent && verify_authority (as_authority spent) s in
  _ ← throw_if (negb issuer_override && negb (check_signature owner s)) missing_signature;
  fc_assert (negb issuer_override && negb (is_balance_frozen spent)).

Definition bid_evaluate (o : bid_operation) s : result (eval_state St) :=
  let p := mk_order_price (bo_bid_index o) in
  _ ← zero_price_check p;
  _ ← check_order_assets p (mk_owner (bo_bid_index o)) true s;
  let delta := mk_asset (bo_amount o) (quote_asset_id p) in
  _ ← validate_asset delta s;
  '(r, s) ← fund_order (cv_bid (view s) (bo_bid_index o)) delta s;
  let r := set_or_balance (wrap64 (or_balance r + bo_amount o))
             (set_or_last_update (cv_now (view s)) r) in
  Ok (upd_chain (cs_store_bid (bo_bid_index o) r) s).

Definition market_status_or_new (p : price) s : result market_status :=
  match cv_market_status (view s) (quote_asset_id p, base_asset_id p) with
  | Some m => Ok m
  | None => market_status_of (quote_asset_id p) (base_asset_id p)
  end.

(** [market_status] of the order's market, created if there is none, with its
    depths changed: kept up before BTS_V0_4_21. *)
Definition adjust_depth (p : price) (ask bid : Z) s : result (eval_state St) :=
  m ← market_status_or_new p s;
  Ok (upd_chain (cs_store_market_status
        (set_mst_depths (wrap64 (mst_ask_depth m + ask)) (wrap64 (mst_bid_depth m + bid)) m)) s).

(** The same where the market has to exist. *)
Definition adjust_cover_depth (p : price) (ask : Z) s : result (eval_state St) :=
  m ← require (cv_market_status (view s) (quote_asset_id p, base_asset_id p)) assert_exception;
  Ok (upd_chain (cs_store_market_status
        (set_mst_depths (wrap64 (mst_ask_depth m + ask)) (mst_bid_depth m) m)) s).

Definition ask_evaluate_v1 (o : ask_operation) s : result (eval_state St) :=
  let p := mk_order_price (ao_ask_index o) in
  _ ← zero_price_check p;
  _ ← throw_if (negb (check_signature (mk_owner (ao_ask_index o)) s)) missing_signature;
  let delta := mk_asset (ao_amount o) (base_asset_id p) in
  _ ← validate_asset delta s;
  '(r, s) ← fund_order (cv_ask (view s) (ao_ask_index o)) delta s;
  let r := set_or_balance (wrap64 (or_balance r + ao_amount o))
             (set_or_last_update (cv_now (view s)) r) in
  _ ← fc_assert (or_balance r >=? 0);
  s ← adjust_depth p (amount delta) 0 s;
  Ok (upd_chain (cs_store_ask (ao_ask_index o) r) s).

Definition ask_evaluate (o : ask_operation) s : result (eval_state St) :=
  if cv_head_block_num (view s) <? BTS_V0_4_21_FORK_BLOCK_NUM then ask_evaluate_v1 o s
  else
    let p := mk_order_price (ao_ask_index o) in
    _ ← zero_price_check p;
    _ ← check_order_assets p (mk_owner (ao_ask_index o)) false s;
    let delta := mk_asset (ao_amount o) (base_asset_id p) in
    _ ← validate_asset delta s;
    '(r, s) ← fund_order (cv_ask (view s) (ao_ask_index o)) delta s;
    let r := set_or_balance (wrap64 (or_balance r + ao_amount o))
               (set_or_last_update (cv_now (view s)) r) in
    _ ← fc_assert (or_balance r >=? 0);
    Ok (upd_chain (cs_store_ask (ao_ask_index o) r) s).

(** ** Shorts *)

(** [asset_to_short]: a registered, market-issued asset. *)
Definition check_asset_to_short (p : price) s : result unit :=
  r ← require (cv_asset (view s) (quote_asset_id p)) assert_exception;
  fc_assert (is_market_issued r).

(** A short order is cancelled by its owner; anyone may fund one. *)
Definition fund_short (k : market_index_key) (delta : asset) s
    : result (order_record * eval_state St) :=
  _ ← throw_if (amount delta =? 0) zero_amount;
  _ ← (if amount delta <? 0
       then throw_if (negb (check_signature (mk_owner k) s)) missing_signature else Ok tt);
  fund_order (cv_short (view s) k) delta s.

Definition short_evaluate_v1 (o : short_operation) s : result (eval_state St) :=
  let p := mk_order_price (sh_short_index o) in
  _ ← zero_price_check p;
  let delta := mk_asset (sh_amount o) (base_asset_id p) in
  delta_quote ← asset_mul delta p;
  _ ← fc_assert (asset_id delta =? 0);
  _ ← fc_assert (llabs (amount delta_quote) >? 0);
  _ ← validate_asset delta s;
  _ ← check_asset_to_short p s;
  _ ← (if cv_head_block_num (view s) >=? BTS_V0_4_17_FORK_BLOCK_NUM
       then fc_assert (match sh_limit_price o with Some l => price_geb l p | None => true end)
       else Ok tt);
  '(r, s) ← fund_short (sh_short_index o) delta s;
  let r := set_or_balance (wrap64 (or_balance r + sh_amount o))
             (set_or_last_update (cv_now (view s)) (set_or_limit_price (sh_limit_price o) r)) in
  _ ← fc_assert (or_balance r >=? 0);
  s ← adjust_depth p 0 (amount delta) s;
  Ok (upd_chain (cs_store_short (sh_short_index o) r) s).

Definition short_evaluate (o : short_operation) s : result (eval_state St) :=
  if cv_head_block_num (view s) <? BTS_V0_4_21_FORK_BLOCK_NUM then short_evaluate_v1 o s
  else
    let p := mk_order_price (sh_short_index o) in
    _ ← fc_assert (ratio p <? 10 * 2^64);
    _ ← fc_assert (quote_asset_id p >? base_asset_id p);
    let delta := mk_asset (sh_amount o) (base_asset_id p) in
    _ ← fc_assert (asset_id delta =? 0);
    _ ← validate_asset delta s;
    _ ← check_asset_to_short p s;
    '(r, s) ← fund_short (sh_short_index o) delta s;
    let r := set_or_balance (wrap64 (or_balance r + sh_amount o))
               (set_or_last_update (cv_now (view s)) (set_or_limit_price (sh_limit_price o) r)) in
    _ ← fc_assert (or_balance r >=? 0);
    Ok (upd_chain (cs_store_short (sh_short_index o) r) s).

(** [order_price < n/d of the median feed] *)
Definition below_feed (p : price) (n d : Z) s : result unit :=
  median ← cv_median_price (view s) (quote_asset_id p) 0;
  m ← require median assert_exception;
  fc_assert (price_ltb p (mk_price (wrapu128 (ratio m * n) / d) (base_asset_id m) (quote_asset_id m))).

Definition short_v1_evaluate_v1 (o : short_operation_v1) s : result (eval_state St) :=
  let p := mk_order_price (s1_short_index o) in
  _ ← zero_price_check p;
  _ ← throw_if (negb (check_signature (mk_owner (s1_short_index o)) s)) missing_signature;
  let delta := mk_asset (s1_amount o) 0 in
  delta_quote ← asset_mul delta p;
  _ ← fc_assert (llabs (amount delta_quote) >? 0);
  _ ← validate_asset delta s;
  _ ← check_asset_to_short p s;
  m ← market_status_or_new p s;
  _ ← (if negb (quote_asset_id (mst_center_price m) =? 0) then fc_assert (price_ltb p (maximum_bid m))
       else if cv_head_block_num (view s) >=? BTS_V0_4_0_FORK_BLOCK_NUM then below_feed p 4 3 s
       else Ok tt);
  '(r, s) ← fund_order (cv_short (view s) (s1_short_index o)) delta s;
  let r := set_or_balance (wrap64 (or_balance r + s1_amount o)) r in
  _ ← fc_assert (or_balance r >=? 0);
  s ← adjust_depth p 0 (amount delta) s;
  Ok (upd_chain (cs_store_short (s1_short_index o) r) s).

Definition short_v1_evaluate (o : short_operation_v1) s : result (eval_state St) :=
  if cv_head_block_num (view s) >=? BTS_V0_4_16_FORK_BLOCK_NUM then Err assert_exception
  else if cv_head_block_num (view s) <? BTS_V0_4_12_FORK_BLOCK_NUM then short_v1_evaluate_v1 o s
  else
    let p := mk_order_price (s1_short_index o) in
    _ ← zero_price_check p;
    _ ← throw_if (negb (check_signature (mk_owner (s1_short_index o)) s)) missing_signature;
    let delta := mk_asset (s1_amount o) 0 in
    delta_quote ← asset_mul delta p;
    _ ← fc_assert (llabs (amount delta_quote) >? 0);
    _ ← validate_asset delta s;
    _ ← check_asset_to_short p s;
    _ ← throw_if (s1_amount o =? 0) zero_amount;
    _ ← (if s1_amount o >? 0
         then fc_assert (s1_amount o >=? BTS_BLOCKCHAIN_MINIMUM_SHORT_ORDER_SIZE) else Ok tt);
    '(r, s) ← fund_order (cv_short (view s) (s1_short_index o)) delta s;
    let r := set_or_balance (wrap64 (or_balance r + s1_amount o)) r in
    _ ← fc_assert (or_balance r >=? 0);
    m ← market_status_or_new p s;
    _ ← (if s1_amount o >? 0 then
           if negb (quote_asset_id (mst_center_price m) =? 0) then fc_assert (price_ltb p (maximum_bid m))
           else below_feed p 10 9 s
         else Ok tt);
    s ← adjust_depth p 0 (amount delta) s;
    Ok (upd_chain (cs_store_short (s1_short_index o) r) s).

(** ** Covers *)

(** The guards of every version, up to the payment, and the position. *)
Definition start_cover (o : cover_operation) s : result (collateral_record * eval_state St) :=
  let k := co_cover_index o in
  _ ← zero_price_check (mk_order_price k);
  _ ← throw_if ((co_amount o =? 0) && negb (is_some (co_new_cover_price o))) zero_amount;
  _ ← throw_if (co_amount o <? 0) negative_deposit;
  _ ← throw_if (negb (check_signature (mk_owner k) s)) missing_signature;
  s ← sub_balance null_address (mk_asset (co_amount o) (quote_asset_id (mk_order_price k))) s;
  r ← require (cv_collateral (view s) k) unknown_market_order;
  Ok (r, s).

(** The position is filed again under its new call price, or a higher one the
    owner chose. *)
Definition refile_cover (o : cover_operation) (r : collateral_record) (num den base_id : Z) s
    : result (eval_state St) :=
  let k := co_cover_index o in
  call_price ← asset_div (mk_asset (cr_payoff_balance r) (quote_asset_id (mk_order_price k)))
                 (mk_asset (Z.quot (wrap64 (cr_collateral_balance r * num)) den) base_id);
  let p := match co_new_cover_price o with
           | Some n => if price_gtb n call_price then n else call_price
           | None => call_price
           end in
  Ok (upd_chain (cs_store_collateral (mk_market_key p (mk_owner k)) r) s).

(** What [evaluate_v1] to [evaluate_v3] share after the payment. *)
Definition finish_cover_v1 (o : cover_operation) (r : collateral_record) (num den base_id : Z) s
    : result (eval_state St) :=
  let k := co_cover_index o in
  let r := set_cr_payoff_balance (wrap64 (cr_payoff_balance r - co_amount o)) r in
  let s := upd_chain (cs_store_collateral k null_collateral_record) s in
  if cr_payoff_balance r >? 0 then refile_cover o r num den base_id s
  else
    s ← add_balance (mk_asset (cr_collateral_balance r) base_id) s;
    adjust_cover_depth (mk_order_price k) (- cr_collateral_balance r) s.

Definition cover_evaluate_v1 (o : cover_operation) s : result (eval_state St) :=
  '(r, s) ← start_cover o s; finish_cover_v1 o r 3 4 0 s.

Definition cover_evaluate_v2 (o : cover_operation) s : result (eval_state St) :=
  if cv_head_block_num (view s) <? BTS_V0_4_16_FORK_BLOCK_NUM then cover_evaluate_v1 o s
  else '(r, s) ← start_cover o s; finish_cover_v1 o r 2 3 0 s.

Definition cover_evaluate_v3 (o : cover_operation) s : result (eval_state St) :=
  if cv_head_block_num (view s) <? BTS_V0_4_17_FORK_BLOCK_NUM then cover_evaluate_v2 o s
  else
    let p := mk_order_price (co_cover_index o) in
    '(r, s) ← start_cover o s;
    ar ← require (cv_asset (view s) (quote_asset_id p)) assert_exception;
    let s := upd_chain (cs_store_asset
               (set_as_current_share_supply (wrap64 (as_current_share_supply ar - co_amount o)) ar)) s in
    finish_cover_v1 o r 2 3 (base_asset_id p) s.

(** Seconds since the position was opened, from its expiration. *)
Definition cover_age (r : collateral_record) (now : Z) : Z :=
  let elapsed := now - (cr_expiration r - BTS_BLOCKCHAIN_MAX_SHORT_PERIOD_SEC) in
  if elapsed <? 0 then 0 else elapsed.

(** How a payment splits into principle and interest, and the debt left. *)
Definition split_payment (owed paid : asset -> price -> Z -> result asset)
    (delta : asset) (r : collateral_record) (age : Z) : result (asset * asset * Z) :=
  let principle := mk_asset (cr_payoff_balance r) (asset_id delta) in
  interest ← owed principle (cr_interest_rate r) (wrapu32 age);
  total_debt ← asset_add interest principle;
  if asset_geb delta total_debt then
    interest_paid ← asset_sub delta principle;
    Ok (principle, interest_paid, 0)
  else
    interest_paid ← paid delta (cr_interest_rate r) (wrapu32 age);
    principle_paid ← asset_sub delta interest_paid;
    Ok (principle_paid, interest_paid, wrap64 (cr_payoff_balance r - amount principle_paid)).

Definition cover_with (owed paid : asset -> price -> Z -> result asset) (o : cover_operation) s
    : result (eval_state St) :=
  let k := co_cover_index o in
  let p := mk_order_price k in
  let delta := mk_asset (co_amount o) (quote_asset_id p) in
  '(r, s) ← start_cover o s;
  ar ← require (cv_asset (view s) (quote_asset_id p)) assert_exception;
  '(principle_paid, interest_paid, payoff) ←
    split_payment owed paid delta r (cover_age r (cv_now (view s)));
  let r := set_cr_payoff_balance payoff r in
  _ ← fc_assert (amount principle_paid >=? 0);
  _ ← fc_assert (amount interest_paid >=? 0);
  _ ← fc_assert (cr_payoff_balance r >=? 0);
  let ar := set_as_collected_fees (wrap64 (as_collected_fees ar + amount interest_paid))
              (set_as_current_share_supply
                 (wrap64 (as_current_share_supply ar - amount principle_paid)) ar) in
  let s := upd_chain (cs_store_asset ar) s in
  let s := upd_chain (cs_store_collateral k null_collateral_record) s in
  _ ← fc_assert (quote_asset_id (cr_interest_rate r) >? base_asset_id (cr_interest_rate r));
  if cr_payoff_balance r >? 0 then refile_cover o r 2 3 (base_asset_id p) s
  else add_balance (mk_asset (cr_collateral_balance r) (base_asset_id p)) s.

(** The current formulas are evaluated first in [evaluate_v4] too; below
    BTS_V0_4_23 their values are replaced. *)
Definition owed_v4 (principle : asset) (apr : price) (age : Z) : result asset :=
  i ← get_interest_owed principle apr age;
  _ ← asset_add i principle;
  get_interest_owed_v1 principle apr age.
Definition paid_v4 (total : asset) (apr : price) (age : Z) : result asset :=
  _ ← get_interest_paid total apr age;
  get_interest_paid_v1 total apr age.

Definition cover_evaluate_v4 (o : cover_operation) s : result (eval_state St) :=
  let head := cv_head_block_num (view s) in
  if head <? BTS_V0_4_21_FORK_BLOCK_NUM then cover_evaluate_v3 o s
  else if head <? BTS_V0_4_23_FORK_BLOCK_NUM then cover_with owed_v4 paid_v4 o s
  else cover_with get_interest_owed get_interest_paid o s.

Definition cover_evaluate (o : cover_operation) s : result (eval_state St) :=
  if cv_head_block_num (view s) <? BTS_V0_4_23_FORK_BLOCK_NUM then cover_evaluate_v4 o s
  else cover_with get_interest_owed get_interest_paid o s.

(** ** Collateral *)

Definition add_collateral_core (o : add_collateral_operation) s : result (eval_state St) :=
  let k := ad_cover_index o in
  let p := mk_order_price k in
  _ ← zero_price_check p;
  _ ← throw_if (ad_amount o =? 0) zero_amount;
  _ ← throw_if (ad_amount o <? 0) negative_deposit;
  s ← sub_balance null_address (mk_asset (ad_amount o) (base_asset_id p)) s;
  r ← require (cv_collateral (view s) k) unknown_market_order;
  let r := set_cr_collateral_balance (wrap64 (cr_collateral_balance r + ad_amount o)) r in
  let s := upd_chain (cs_store_collateral k null_collateral_record) s in
  call_price ← asset_div (mk_asset (cr_payoff_balance r) (quote_asset_id p))
                 (mk_asset (Z.quot (wrap64 (cr_collateral_balance r * 2)) 3) (base_asset_id p));
  Ok (upd_chain (cs_store_collateral (mk_market_key call_price (mk_owner k)) r) s).

Definition add_collateral_evaluate_v1 (o : add_collateral_operation) s : result (eval_state St) :=
  s ← add_collateral_core o s;
  adjust_cover_depth (mk_order_price (ad_cover_index o)) (ad_amount o) s.

Definition add_collateral_evaluate (o : add_collateral_operation) s : result (eval_state St) :=
  if cv_head_block_num (view s) <? BTS_V0_4_21_FORK_BLOCK_NUM then add_collateral_evaluate_v1 o s
  else add_collateral_core o s.
End ops.
