(* ===== verification/Evaluate.v ===== *)
(** * Evaluate: a whole transaction (operation_factory.hpp,
      transaction_evaluation_state.cpp)

    The dispatch on the operation's type and [evaluate]: the checks on the
    transaction, its signatures, the operations in order, the fees and the
    delegate votes. *)
From S2P Require Import Prelude Config Fc Asset Records ChainInterface EvalState AccountOps AssetOps.
From S2P Require Import BalanceOps MarketOps.

Section evaluate.
Context {St : Type} `{ChainStore St} `{Crypto} `{FcNum} `{FcReal}.
Implicit Types s : eval_state St.

(** [operation_factory::evaluate] and the converters it calls. *)
Definition evaluate_operation (o : operation) s : result (eval_state St) :=
  match o with
  | Op_withdraw o => withdraw_evaluate o s
  | Op_deposit o => deposit_evaluate o s
  | Op_register_account o => register_account_evaluate o s
  | Op_update_account o => update_account_evaluate o s
  | Op_withdraw_pay o => withdraw_pay_evaluate o s
  | Op_create_asset o => create_asset_evaluate o s
  | Op_issue_asset o => issue_asset_evaluate o s
  | Op_bid o => bid_evaluate o s
  | Op_ask o => ask_evaluate o s
  | Op_short o => short_evaluate o s
  | Op_short_v1 o => short_v1_evaluate o s
  | Op_cover o => cover_evaluate o s
  | Op_add_collateral o => add_collateral_evaluate o s
  | Op_define_slate o => define_slate_evaluate o s
  | Op_update_feed o => update_feed_evaluate o s
  | Op_burn o => burn_evaluate o s
  | Op_update_signing_key o => update_signing_key_evaluate o s
  | Op_disabled _ => Err assert_exception
  | Op_other _ => Err unsupported_chain_operation
  end.

(** [++current_op_index] *)
Definition next_operation s : eval_state St :=
  upd_data (fun e => set_ev_current_op_index (wrapu32 (ev_current_op_index e + 1)) e) s.

(** The loop over the operations, counting them. *)
Definition evaluate_operations (ops : list operation) s : result (eval_state St) :=
  fold_result (fun s o => s ← evaluate_operation o s; Ok (next_operation s)) s ops.

(** The expiration window and, from BTS_V0_4_26, the duplicate check. *)
Definition check_transaction (trx : signed_transaction) s : result unit :=
  let now := cv_now (view s) in
  let head := cv_head_block_num (view s) in
  _ ← throw_if ((now >=? tx_expiration trx)
             && ((now >? tx_expiration trx) || (head >=? BTS_V0_4_21_FORK_BLOCK_NUM)))
        expired_transaction;
  _ ← throw_if (now + BTS_BLOCKCHAIN_MAX_TRANSACTION_EXPIRATION_SEC <? tx_expiration trx)
        invalid_transaction_expiration;
  if (head >=? BTS_V0_4_26_FORK_BLOCK_NUM)
     && cv_is_known_transaction (view s) (tx_expiration trx) (trx_digest trx (es_chain_id s))
  then known ← cv_transaction (view s) (trx_id trx); throw_if (is_some known) duplicate_transaction
  else Ok tt.

(** The addresses the transaction is signed for. *)
Definition collect_signatures (trx : signed_transaction) (enforce_canonical : bool) s
    : result (eval_state St) :=
  let digest := trx_digest trx (es_chain_id s) in
  keys ← fold_result (fun keys sig =>
           key ← recover_key sig digest enforce_canonical;
           Ok (list_to_set (key_addresses key) ∪ keys))
           (ev_signed_keys (es_data s)) (tx_signatures trx);
  Ok (upd_data (set_ev_signed_keys keys) s).

(** [evaluate] up to the operations. *)
Definition begin_evaluate (trx : signed_transaction) (skip enforce_canonical : bool) s
    : result (eval_state St) :=
  let s := mk_eval (es_data s) (es_chain s) (es_chain_id s) skip in
  _ ← check_transaction trx s;
  let s := upd_data (set_ev_trx trx) s in
  s ← (if negb skip then collect_signatures trx enforce_canonical s else Ok s);
  Ok (upd_data (set_ev_current_op_index 0) s).

Definition evaluate (trx : signed_transaction) (skip enforce_canonical : bool) s
    : result (eval_state St) :=
  s ← begin_evaluate trx skip enforce_canonical s;
  s ← evaluate_operations (tx_operations trx) s;
  s ← post_evaluate s;
  _ ← validate_required_fee s;
  update_delegate_votes s.
End evaluate.
