(* ===== verification/Ledger.v ===== *)
(** * Ledger: what the chain holds of an asset

    The shares of an asset the chain holds are those of the records that carry
    them: balances, orders, collateral, delegate pay and collected fees.  The
    ledger of a state is what it holds less what the asset records say is in
    supply; operations may only move shares, so it must not change.

    [LedgerStore] is what the evaluation of transactions relies on of the chain
    state it runs on; the pending state implements it ([pending_ledger_store])
    with the differences its buffer makes. *)
From S2P Require Import Prelude Config Fc Asset Records ChainInterface PendingState ChainDatabase Apply.

(** ** Shares of one record *)

(** Fees are held, the supply is owed. *)
Definition asset_shares (id : Z) (r : asset_record) : Z :=
  if as_id r =? id then as_collected_fees r - as_current_share_supply r else 0.
Definition account_shares (id : Z) (r : account_record) : Z :=
  if id =? 0 then pay_shares r else 0.
(** Bids hold the quote asset of their market, the other orders the base asset. *)
Definition quote_shares (id : Z) (k : market_index_key) (r : order_record) : Z :=
  if quote_asset_id (mk_order_price k) =? id then or_balance r else 0.
Definition base_shares (id : Z) (k : market_index_key) (r : order_record) : Z :=
  if base_asset_id (mk_order_price k) =? id then or_balance r else 0.
Definition collateral_shares (id : Z) (k : market_index_key) (r : collateral_record) : Z :=
  if base_asset_id (mk_order_price k) =? id then cr_collateral_balance r else 0.

(** The shares at a lookup. *)
Definition shares_of {V} (f : V -> Z) (o : option V) : Z := from_option f 0 o.

(** ** The interface *)

Class LedgerStore (St : Type) `{ChainStore St} `{Crypto} := {
  ledger : Z -> St -> Z;
  ledger_wf : St -> Prop;

  (** A well-formed state has its records under their own keys. *)
  wf_asset c id r : ledger_wf c -> cv_asset (cs_view c) id = Some r -> as_id r = id;
  wf_account c id r : ledger_wf c -> cv_account (cs_view c) id = Some r -> ac_id r = id;
  wf_balance c id r : ledger_wf c -> cv_balance (cs_view c) id = Some r -> balance_id r = id;

  (** Each store changes the ledger by what the record at its key changes. *)
  ledger_asset r c : ledger_wf c ->
    ledger_wf (cs_store_asset r c) /\
    forall id, ledger id (cs_store_asset r c) =
      ledger id c + asset_shares id r - shares_of (asset_shares id) (cv_asset (cs_view c) (as_id r));
  ledger_account r c c' : ledger_wf c -> cs_store_account r c = Ok c' ->
    ledger_wf c' /\
    forall id, ledger id c' =
      ledger id c + account_shares id r - shares_of (account_shares id) (cv_account (cs_view c) (ac_id r));
  ledger_balance r c : ledger_wf c ->
    ledger_wf (cs_store_balance r c) /\
    forall id, ledger id (cs_store_balance r c) =
      ledger id c + balance_shares id r
      - shares_of (balance_shares id) (cv_balance (cs_view c) (balance_id r));
  ledger_bid k r c : ledger_wf c ->
    ledger_wf (cs_store_bid k r c) /\
    forall id, ledger id (cs_store_bid k r c) =
      ledger id c + quote_shares id k r - shares_of (quote_shares id k) (cv_bid (cs_view c) k);
  ledger_ask k r c : ledger_wf c ->
    ledger_wf (cs_store_ask k r c) /\
    forall id, ledger id (cs_store_ask k r c) =
      ledger id c + base_shares id k r - shares_of (base_shares id k) (cv_ask (cs_view c) k);
  ledger_short k r c : ledger_wf c ->
    ledger_wf (cs_store_short k r c) /\
    forall id, ledger id (cs_store_short k r c) =
      ledger id c + base_shares id k r - shares_of (base_shares id k) (cv_short (cs_view c) k);
  ledger_collateral k r c : ledger_wf c ->
    ledger_wf (cs_store_collateral k r c) /\
    forall id, ledger id (cs_store_collateral k r c) =
      ledger id c + collateral_shares id k r
      - shares_of (collateral_shares id k) (cv_collateral (cs_view c) k);

  (** The other stores do not change it. *)
  ledger_property p v c : ledger_wf c ->
    ledger_wf (cs_set_property p v c) /\ forall id, ledger id (cs_set_property p v c) = ledger id c;
  ledger_slate i v c : ledger_wf c ->
    ledger_wf (cs_store_slate i v c) /\ forall id, ledger id (cs_store_slate i v c) = ledger id c;
  ledger_feed r c : ledger_wf c ->
    ledger_wf (cs_set_feed r c) /\ forall id, ledger id (cs_set_feed r c) = ledger id c;
  ledger_dirty q b c c' : ledger_wf c -> cs_set_market_dirty q b c = Ok c' ->
    ledger_wf c' /\ forall id, ledger id c' = ledger id c;
  ledger_burn k v c : ledger_wf c ->
    ledger_wf (cs_store_burn k v c) /\ forall id, ledger id (cs_store_burn k v c) = ledger id c;

  (** What a store leaves alone of the records read after it. *)
  view_balance_asset r c k : cv_balance (cs_view (cs_store_asset r c)) k = cv_balance (cs_view c) k;
  view_balance_balance r c k :
    cv_balance (cs_view (cs_store_balance r c)) k =
      if decide (k = balance_id r) then Some r else cv_balance (cs_view c) k;
  view_collateral_asset r c k :
    cv_collateral (cs_view (cs_store_asset r c)) k = cv_collateral (cs_view c) k;
  view_collateral_collateral k r c k' :
    cv_collateral (cs_view (cs_store_collateral k r c)) k' =
      if decide (k' = k) then Some r else cv_collateral (cs_view c) k';
  view_asset_property p v c k : cv_asset (cs_view (cs_set_property p v c)) k = cv_asset (cs_view c) k;
  view_account_property p v c k :
    cv_account (cs_view (cs_set_property p v c)) k = cv_account (cs_view c) k
}.

(** ** The pending state *)

Section buffer.
Context `{Countable K} {V : Type} (f : K -> V -> Z) (prev : K -> option V).

(** What a buffer over [prev] changes of the sum of [f]. *)
Definition buffer_sum (own : gmap K V) : Z :=
  map_ksum (fun k v => f k v - shares_of (f k) (prev k)) own.

Lemma buffer_sum_insert own k v :
  buffer_sum (<[k := v]> own) =
    buffer_sum own + f k v
    - shares_of (f k) (match own !! k with Some a => Some a | None => prev k end).
Proof.
  unfold buffer_sum. rewrite map_ksum_insert. unfold val_at, shares_of.
  destruct (own !! k); cbn; lia.
Qed.
End buffer.

Section pending.
Context `{Crypto}.
Implicit Types p : pending_chain_state.

(** The previous state's record. *)
Definition below {A B} (f : chain_view -> A -> option B) (prev : option chain_view) (k : A)
    : option B :=
  prev ≫= fun v => f v k.

Definition pending_ledger (id : Z) p : Z :=
  buffer_sum (fun _ => asset_shares id) (below cv_asset (ps_prev p)) (ps_assets p)
  + buffer_sum (fun _ => account_shares id) (below cv_account (ps_prev p)) (ps_accounts p)
  + buffer_sum (fun _ => balance_shares id) (below cv_balance (ps_prev p)) (ps_balances p)
  + buffer_sum (quote_shares id) (below cv_bid (ps_prev p)) (ps_bids p)
  + buffer_sum (quote_shares id) (below cv_relative_bid (ps_prev p)) (ps_relative_bids p)
  + buffer_sum (base_shares id) (below cv_ask (ps_prev p)) (ps_asks p)
  + buffer_sum (base_shares id) (below cv_relative_ask (ps_prev p)) (ps_relative_asks p)
  + buffer_sum (base_shares id) (below cv_short (ps_prev p)) (ps_shorts p)
  + buffer_sum (collateral_shares id) (below cv_collateral (ps_prev p)) (ps_collateral p).

Definition view_keyed (v : chain_view) : Prop :=
  (forall id r, cv_asset v id = Some r -> as_id r = id) /\
  (forall id r, cv_account v id = Some r -> ac_id r = id) /\
  (forall id r, cv_balance v id = Some r -> balance_id r = id).

Definition pending_wf p : Prop :=
  pending_ok p /\ forall v, ps_prev p = Some v -> view_keyed v.

Lemma overlay_keyed {K} `{Countable K} {V} (key : V -> K) (own : gmap K V) p
    (f : chain_view -> K -> option V) k r :
  keyed key own -> (forall v, ps_prev p = Some v -> forall k r, f v k = Some r -> key r = k) ->
  overlay (own !! k) (ps_prev p) (fun v => f v k) = Some r -> key r = k.
Proof.
  intros Ho Hv. unfold overlay. destruct (own !! k) as [r0|] eqn:E.
  - intros [= <-]. by apply Ho.
  - destruct (ps_prev p) as [v|]; [|done]. cbn. by apply Hv.
Qed.

(** A step that leaves the previous state alone keeps well-formedness. *)
Lemma pending_wf_step p p' : pending_wf p -> pending_step p p' -> ps_prev p' = ps_prev p -> pending_wf p'.
Proof.
  intros [Hok Hv] Hs Hp. split; [by eapply pending_step_ok|]. by rewrite Hp.
Qed.

(** A store into one map: the buffer's sum at that map, the others unchanged. *)
Ltac wf_step Hwf := apply (pending_wf_step _ _ Hwf); [by econstructor|reflexivity].
Ltac store_law Hwf :=
  split; [wf_step Hwf|];
  intros id; unfold pending_ledger; cbn -[buffer_sum shares_of]; rewrite buffer_sum_insert;
  unfold pending_get_asset_record, pending_get_account_record, pending_get_balance_record,
    pending_get_bid_record, pending_get_ask_record, pending_get_short_record,
    pending_get_collateral_record, overlay, below; lia.

Lemma pending_ledger_asset r p : pending_wf p ->
  pending_wf (pending_store_asset_record r p) /\
  forall id, pending_ledger id (pending_store_asset_record r p) =
    pending_ledger id p + asset_shares id r - shares_of (asset_shares id) (pending_get_asset_record p (as_id r)).
Proof. intros Hwf. store_law Hwf. Qed.
Lemma pending_ledger_balance r p : pending_wf p ->
  pending_wf (pending_store_balance_record r p) /\
  forall id, pending_ledger id (pending_store_balance_record r p) =
    pending_ledger id p + balance_shares id r - shares_of (balance_shares id) (pending_get_balance_record p (balance_id r)).
Proof. intros Hwf. store_law Hwf. Qed.
Lemma pending_ledger_bid k r p : pending_wf p ->
  pending_wf (pending_store_bid_record k r p) /\
  forall id, pending_ledger id (pending_store_bid_record k r p) =
    pending_ledger id p + quote_shares id k r - shares_of (quote_shares id k) (pending_get_bid_record p k).
Proof. intros Hwf. store_law Hwf. Qed.
Lemma pending_ledger_ask k r p : pending_wf p ->
  pending_wf (pending_store_ask_record k r p) /\
  forall id, pending_ledger id (pending_store_ask_record k r p) =
    pending_ledger id p + base_shares id k r - shares_of (base_shares id k) (pending_get_ask_record p k).
Proof. intros Hwf. store_law Hwf. Qed.
Lemma pending_ledger_short k r p : pending_wf p ->
  pending_wf (pending_store_short_record k r p) /\
  forall id, pending_ledger id (pending_store_short_record k r p) =
    pending_ledger id p + base_shares id k r - shares_of (base_shares id k) (pending_get_short_record p k).
Proof. intros Hwf. store_law Hwf. Qed.
Lemma pending_ledger_collateral k r p : pending_wf p ->
  pending_wf (pending_store_collateral_record k r p) /\
  forall id, pending_ledger id (pending_store_collateral_record k r p) =
    pending_ledger id p + collateral_shares id k r - shares_of (collateral_shares id k) (pending_get_collateral_record p k).
Proof. intros Hwf. store_law Hwf. Qed.

Lemma pending_ledger_account r p p' : pending_wf p -> pending_store_account_record r p = Ok p' ->
  pending_wf p' /\
  forall id, pending_ledger id p' =
    pending_ledger id p + account_shares id r
    - shares_of (account_shares id) (pending_get_account_record p (ac_id r)).
Proof.
  intros Hwf Hs. pose proof Hs as Hs'. apply bind_Ok in Hs' as (idx & _ & [= <-]).
  split; [apply (pending_wf_step _ _ Hwf); [by eapply step_account|done]|].
  intros id. unfold pending_ledger. cbn -[buffer_sum shares_of]. rewrite buffer_sum_insert.
  unfold pending_get_account_record, overlay, below. lia.
Qed.

(** A store into a map that holds no shares. *)
Lemma pending_ledger_other p p' :
  pending_wf p -> pending_step p p' -> ps_prev p' = ps_prev p ->
  (forall id, pending_ledger id p' = pending_ledger id p) ->
  pending_wf p' /\ forall id, pending_ledger id p' = pending_ledger id p.
Proof. intros Hwf Hs Hp Hl. split; [by eapply pending_wf_step|done]. Qed.

Lemma pending_ledger_dirty q b p p' : pending_wf p -> Ok (pending_set_market_dirty q b p) = Ok p' ->
  pending_wf p' /\ forall id, pending_ledger id p' = pending_ledger id p.
Proof.
  intros Hwf [= <-].
  apply (pending_ledger_other _ _ Hwf (step_dirty p q b) eq_refl (fun _ => eq_refl)).
Qed.

Lemma pending_wf_asset p id r :
  pending_wf p -> pending_get_asset_record p id = Some r -> as_id r = id.
Proof. intros [Hok Hv]. apply (overlay_keyed as_id); [apply Hok|]. intros v Hp. by apply Hv. Qed.
Lemma pending_wf_account p id r :
  pending_wf p -> pending_get_account_record p id = Some r -> ac_id r = id.
Proof. intros [Hok Hv]. apply (overlay_keyed ac_id); [apply Hok|]. intros v Hp. by apply Hv. Qed.
Lemma pending_wf_balance p id r :
  pending_wf p -> pending_get_balance_record p id = Some r -> balance_id r = id.
Proof. intros [Hok Hv]. apply (overlay_keyed balance_id); [apply Hok|]. intros v Hp. by apply Hv. Qed.

Lemma pending_balance_after r p k :
  pending_get_balance_record (pending_store_balance_record r p) k =
    if decide (k = balance_id r) then Some r else pending_get_balance_record p k.
Proof.
  unfold pending_get_balance_record. cbn. case_decide as E; [subst; by rewrite lookup_insert_eq|].
  by rewrite lookup_insert_ne.
Qed.

Lemma pending_collateral_after k r p k' :
  pending_get_collateral_record (pending_store_collateral_record k r p) k' =
    if decide (k' = k) then Some r else pending_get_collateral_record p k'.
Proof.
  unfold pending_get_collateral_record. cbn.
  case_decide as Hk; [by rewrite Hk, lookup_insert_eq|by rewrite lookup_insert_ne by done].
Qed.

#[global] Instance pending_ledger_store : LedgerStore pending_chain_state := {|
  ledger := pending_ledger;
  ledger_wf := pending_wf;
  wf_asset := pending_wf_asset;
  wf_account := pending_wf_account;
  wf_balance := pending_wf_balance;
  ledger_asset := pending_ledger_asset;
  ledger_account := pending_ledger_account;
  ledger_balance := pending_ledger_balance;
  ledger_bid := pending_ledger_bid;
  ledger_ask := pending_ledger_ask;
  ledger_short := pending_ledger_short;
  ledger_collateral := pending_ledger_collateral;
  ledger_property i v p Hwf :=
    pending_ledger_other _ _ Hwf (step_property p i v) eq_refl (fun _ => eq_refl);
  ledger_slate i v p Hwf :=
    pending_ledger_other _ _ Hwf (step_slate p i v) eq_refl (fun _ => eq_refl);
  ledger_feed r p Hwf := pending_ledger_other _ _ Hwf (step_feed p r) eq_refl (fun _ => eq_refl);
  ledger_dirty := pending_ledger_dirty;
  ledger_burn k v p Hwf :=
    pending_ledger_other _ _ Hwf (step_burn p k v) eq_refl (fun _ => eq_refl);
  view_balance_asset _ _ _ := eq_refl;
  view_collateral_asset _ _ _ := eq_refl;
  view_balance_balance := pending_balance_after;
  view_collateral_collateral := pending_collateral_after;
  view_asset_property _ _ _ _ := eq_refl;
  view_account_property _ _ _ _ := eq_refl
|}.
End pending.
