(* ===== verification/Samples.v ===== *)
(** * Samples: a small chain to run the model on

    A database with a base asset, a market-issued and a user-issued asset, two
    delegates and the balances of two keys, for the witnesses of the theorems on
    transactions.  The hash and number parameters are the concrete instances
    [toy_crypto], [ref_num] and [ref_real]. *)
From S2P Require Import Prelude Config Fc Asset Records ChainInterface PendingState ChainDatabase EvalState.
From S2P Require Import Apply Ledger.
From Stdlib Require Import String.

#[export] Existing Instance toy_crypto.
#[export] Existing Instance ref_num.
#[export] Existing Instance ref_real.

Definition sample_now : Z := 1420000000.

Definition sample_asset (id : Z) (symbol : string) (issuer supply fees : Z) (auth : multisig_meta_info)
    : asset_record :=
  mk_asset_record id symbol symbol "" v_null issuer 100000 (sample_now - 1000) (sample_now - 1000)
    supply BTS_BLOCKCHAIN_MAX_SHARES fees 0 0 0 auth 0.

(** Account [id], a delegate, with its id as its only key. *)
Definition sample_account (id : Z) (name : string) (votes : Z) : account_record :=
  mk_account id name v_null id {[ 1400000000 := id ]} 1400000000 1400000000
    (Some (mk_delegate_stats votes 100 {[ 0 := id ]} 0 None 700 0 0 0 0)) None.

Definition sample_slate : delegate_slate := mk_slate [1; 2].

(** The balances of key 3 (with a vote) and of key 4. *)
Definition condition_3 : withdraw_condition :=
  mk_condition 0 (slate_id sample_slate) (wd_signature (address_of_key 3) None).
Definition condition_4 : withdraw_condition := mk_condition 0 0 (wd_signature (address_of_key 4) None).
Definition condition_usd : withdraw_condition := mk_condition 22 0 (wd_signature (address_of_key 3) None).

Definition sample_balance (c : withdraw_condition) (amt : Z) : balance_record :=
  mk_balance c amt None None (sample_now - 1000) (sample_now - 1000).

Definition keyed_map {V} (key : V -> Z) (l : list V) : gmap Z V :=
  list_to_map (map (fun r => (key r, r)) l).

Definition sample_db : chain_database :=
  set_db_assets (keyed_map as_id
      [ sample_asset 0 "BTS" 0 5000000 0 (mk_multisig 0 ∅);
        sample_asset 22 "USD" market_issuer_id 9000 40 (mk_multisig 0 ∅);
        sample_asset 100 "CUSTOM" 1 500 0 (mk_multisig 1 {[ address_of_key 1 ]}) ])
    (set_db_accounts (keyed_map ac_id [ sample_account 1 "init-a" 900; sample_account 2 "init-b" 800 ])
      (set_db_balances (keyed_map balance_id
          [ sample_balance condition_3 700000; sample_balance condition_4 100; sample_balance condition_usd 9000 ])
        (set_db_slates {[ slate_id sample_slate := sample_slate ]}
          (set_db_properties {[ last_account_id_prop := v_int 2; last_asset_id_prop := v_int 100 ]}
            (empty_db (BTS_V0_4_26_FORK_BLOCK_NUM + 10) sample_now 1))))).

(** The state transactions of the next block are evaluated on. *)
Definition sample_pending : pending_chain_state := new_pending (Some (db_view sample_db)).

Lemma keyed_decide {V} (key : V -> Z) (m : gmap Z V) :
  bool_decide (map_Forall (fun k v => key v = k) m) = true -> keyed key m.
Proof. intros Hm. apply bool_decide_eq_true in Hm. intros k v Hk. by apply Hm. Qed.

Lemma sample_pending_wf : ledger_wf sample_pending.
Proof.
  split; [apply pending_reachable_ok; exists (Some (db_view sample_db)); constructor|].
  intros v [= <-]. split_and!;
    [apply (keyed_decide as_id (db_assets sample_db)) | apply (keyed_decide ac_id (db_accounts sample_db))
    |apply (keyed_decide balance_id (db_balances sample_db))]; vm_compute; reflexivity.
Qed.

(** An evaluation on it with the given keys' signatures. *)
Definition sample_eval (keys : list Z) : eval_state pending_chain_state :=
  upd_data (set_ev_signed_keys (list_to_set (map address_of_key keys))) (new_eval sample_pending 1).

(** A computation that succeeds has a result. *)
Lemma is_ok_Some {A} (m : result A) : is_ok m = true -> exists a, m = Ok a.
Proof. destruct m; [eauto|done]. Qed.
