(* ===== verification/Conservation.v ===== *)
(** * Conservation: operations move shares, they do not make them

    Against [LedgerStore]: the ledger of the chain state plus the transient
    balance of the transaction is the same after an operation as before, for
    every asset, modulo [2^64] (the width of a share amount).  The operations
    that change an asset's supply change the ledger and the balance alike.  At
    the end of a transaction what is left of the balance has become collected
    fees, so the ledger itself is unchanged. *)
From S2P Require Import Prelude Config Fc Asset Records ChainInterface PendingState ChainDatabase EvalState.
From S2P Require Import AccountOps AssetOps BalanceOps MarketOps Evaluate Ledger.
From Stdlib Require Import String.

(** What an amount adds to the balance of [id]. *)
Definition at_asset (id : Z) (a : asset) : Z := if asset_id a =? id then amount a else 0.

Section conservation.
Context {St : Type} {CS : ChainStore St} {CR : Crypto} {LS : LedgerStore St} {FN : FcNum} {FR : FcReal}.
Implicit Types s : eval_state St.

(** The ledger with the shares that are in transit. *)
Definition total (id : Z) s : Z := ledger id (es_chain s) + get_fees id s.

Definition wf s : Prop := ledger_wf (es_chain s).

(** [s'] is well formed and its total is that of [s] plus [d]. *)
Definition changes s s' (d : Z -> Z) : Prop :=
  wf s' /\ forall id, total id s' ≡64 total id s + d id.

Lemma changes_refl s : wf s -> changes s s (fun _ => 0).
Proof. intros Hwf. split; [done|]. intros id. by rewrite Z.add_0_r. Qed.

Lemma changes_trans s1 s2 s3 d1 d2 :
  changes s1 s2 d1 -> changes s2 s3 d2 -> changes s1 s3 (fun id => d1 id + d2 id).
Proof.
  intros [_ H1] [Hwf H2]. split; [done|]. intros id. rewrite H2, H1.
  by rewrite Z.add_assoc.
Qed.

(** ** The evaluation state's methods *)

(** A method that only changes members other than the balance. *)
Definition quiet s s' : Prop :=
  es_chain s' = es_chain s /\ ev_balance (es_data s') = ev_balance (es_data s).

Lemma quiet_changes s s' : wf s -> quiet s s' -> changes s s' (fun _ => 0).
Proof.
  intros Hwf [Hc Hb]. unfold changes, wf, total, get_fees. rewrite Hc, Hb. split; [done|].
  intros id. by rewrite Z.add_0_r.
Qed.

Lemma sub_balance_chain b a s s' : sub_balance b a s = Ok s' -> es_chain s' = es_chain s.
Proof. unfold sub_balance. intros Hs. inv_ok. done. Qed.
Lemma add_balance_chain a s s' : add_balance a s = Ok s' -> es_chain s' = es_chain s.
Proof. unfold add_balance. intros Hs. inv_ok. done. Qed.

Lemma sub_balance_changes b a s s' :
  wf s -> sub_balance b a s = Ok s' -> changes s s' (fun id => - at_asset id a).
Proof.
  intros Hwf Hs. pose proof (sub_balance_chain _ _ _ _ Hs) as Hc.
  unfold changes, wf, total. rewrite Hc. split; [done|]. intros id.
  unfold sub_balance in Hs. inv_ok. unfold get_fees, at_asset. cbn.
  destruct (Z.eqb_spec (asset_id a) id) as [->|Hne].
  - rewrite lookup_insert_eq. cbn. destruct (ev_balance (es_data s) !! id); cbn;
      rewrite wrap64_eqm; apply eq_eqm64; lia.
  - rewrite lookup_insert_ne by done. apply eq_eqm64. lia.
Qed.

Lemma add_balance_changes a s s' :
  wf s -> add_balance a s = Ok s' -> changes s s' (fun id => at_asset id a).
Proof.
  intros Hwf Hs. pose proof (add_balance_chain _ _ _ Hs) as Hc.
  unfold changes, wf, total. rewrite Hc. split; [done|]. intros id.
  unfold add_balance in Hs. inv_ok. unfold get_fees, at_asset. cbn.
  destruct (Z.eqb_spec (asset_id a) id) as [->|Hne].
  - rewrite lookup_insert_eq. cbn. destruct (ev_balance (es_data s) !! id); cbn;
      rewrite ?wrap64_eqm; apply eq_eqm64; lia.
  - rewrite lookup_insert_ne by done. apply eq_eqm64. lia.
Qed.

Lemma require_fee_quiet a s s' : require_fee a s = Ok s' -> quiet s s'.
Proof. unfold require_fee. intros Hs. inv_ok. done. Qed.

Lemma adjust_balance_vote_quiet c amt s s' : adjust_balance_vote c amt s = Ok s' -> quiet s s'.
Proof.
  unfold adjust_balance_vote, adjust_vote. intros Hs.
  repeat case_match; inv_ok; done.
Qed.

(** ** The stores *)

Lemma store_changes (f : St -> St) s d :
  wf s -> ledger_wf (f (es_chain s)) /\ (forall id, ledger id (f (es_chain s)) = ledger id (es_chain s) + d id) ->
  changes s (upd_chain f s) d.
Proof.
  intros Hwf [Hwf' Hl]. split; [done|]. intros id. unfold total. cbn. rewrite Hl.
  change (get_fees id (upd_chain f s)) with (get_fees id s). apply eq_eqm64. lia.
Qed.

Lemma store_asset_changes r s : wf s ->
  changes s (upd_chain (cs_store_asset r) s)
    (fun id => asset_shares id r - shares_of (asset_shares id) (cv_asset (view s) (as_id r))).
Proof.
  intros Hwf. apply store_changes; [done|]. destruct (ledger_asset r _ Hwf) as [? Hl].
  split; [done|]. intros id. rewrite Hl. unfold view. lia.
Qed.
Lemma store_balance_changes r s : wf s ->
  changes s (upd_chain (cs_store_balance r) s)
    (fun id => balance_shares id r - shares_of (balance_shares id) (cv_balance (view s) (balance_id r))).
Proof.
  intros Hwf. apply store_changes; [done|]. destruct (ledger_balance r _ Hwf) as [? Hl].
  split; [done|]. intros id. rewrite Hl. unfold view. lia.
Qed.
Lemma store_bid_changes k r s : wf s ->
  changes s (upd_chain (cs_store_bid k r) s)
    (fun id => quote_shares id k r - shares_of (quote_shares id k) (cv_bid (view s) k)).
Proof.
  intros Hwf. apply store_changes; [done|]. destruct (ledger_bid k r _ Hwf) as [? Hl].
  split; [done|]. intros id. rewrite Hl. unfold view. lia.
Qed.
Lemma store_ask_changes k r s : wf s ->
  changes s (upd_chain (cs_store_ask k r) s)
    (fun id => base_shares id k r - shares_of (base_shares id k) (cv_ask (view s) k)).
Proof.
  intros Hwf. apply store_changes; [done|]. destruct (ledger_ask k r _ Hwf) as [? Hl].
  split; [done|]. intros id. rewrite Hl. unfold view. lia.
Qed.
Lemma store_short_changes k r s : wf s ->
  changes s (upd_chain (cs_store_short k r) s)
    (fun id => base_shares id k r - shares_of (base_shares id k) (cv_short (view s) k)).
Proof.
  intros Hwf. apply store_changes; [done|]. destruct (ledger_short k r _ Hwf) as [? Hl].
  split; [done|]. intros id. rewrite Hl. unfold view. lia.
Qed.
Lemma store_collateral_changes k r s : wf s ->
  changes s (upd_chain (cs_store_collateral k r) s)
    (fun id => collateral_shares id k r - shares_of (collateral_shares id k) (cv_collateral (view s) k)).
Proof.
  intros Hwf. apply store_changes; [done|]. destruct (ledger_collateral k r _ Hwf) as [? Hl].
  split; [done|]. intros id. rewrite Hl. unfold view. lia.
Qed.
Lemma store_account_changes r s s' : wf s -> upd_chain_r (cs_store_account r) s = Ok s' ->
  changes s s'
    (fun id => account_shares id r - shares_of (account_shares id) (cv_account (view s) (ac_id r))).
Proof.
  intros Hwf (c & Hc & [= <-])%bind_Ok. destruct (ledger_account r _ _ Hwf Hc) as [? Hl].
  split; [done|]. intros id. unfold total. cbn. rewrite Hl. unfold get_fees, view. cbn.
  apply eq_eqm64. lia.
Qed.
Lemma store_other_changes (f : St -> St) s :
  (ledger_wf (es_chain s) -> ledger_wf (f (es_chain s)) /\
     forall id, ledger id (f (es_chain s)) = ledger id (es_chain s)) ->
  wf s -> changes s (upd_chain f s) (fun _ => 0).
Proof.
  intros Hf Hwf. apply store_changes; [done|]. destruct (Hf Hwf) as [? Hl].
  split; [done|]. intros id. rewrite Hl. lia.
Qed.

(** ** Operations *)

Definition conserves s s' : Prop := wf s' /\ forall id, total id s' ≡64 total id s.

Lemma changes_conserves s s' d : changes s s' d -> (forall id, d id ≡64 0) -> conserves s s'.
Proof.
  intros [Hwf Hd] H0. split; [done|]. intros id. rewrite Hd, H0. by rewrite Z.add_0_r.
Qed.

(** Turns the method calls of an evaluation into the changes they make. *)
Ltac note_quiet Q s s' :=
  let C := fresh "C" in let E := fresh "E" in let W := fresh "W" in
  match goal with Hwf : wf s |- _ =>
    pose proof (quiet_changes s s' Hwf Q) as C; pose proof (proj1 Q) as E;
    assert (W : wf s') by exact (proj1 C) end.
Ltac note_changes :=
  repeat match goal with
    | Hwf : wf ?s, Hs : sub_balance ?b ?a ?s = Ok ?s' |- _ =>
        let C := fresh "C" in let E := fresh "E" in let W := fresh "W" in
        pose proof (sub_balance_changes b a s s' Hwf Hs) as C;
        pose proof (sub_balance_chain b a s s' Hs) as E;
        assert (W : wf s') by exact (proj1 C); clear Hs
    | Hwf : wf ?s, Hs : add_balance ?a ?s = Ok ?s' |- _ =>
        let C := fresh "C" in let E := fresh "E" in let W := fresh "W" in
        pose proof (add_balance_changes a s s' Hwf Hs) as C;
        pose proof (add_balance_chain a s s' Hs) as E;
        assert (W : wf s') by exact (proj1 C); clear Hs
    | Hs : require_fee ?a ?s = Ok ?s' |- _ =>
        let Q := fresh in pose proof (require_fee_quiet a s s' Hs) as Q; note_quiet Q s s'; clear Hs Q
    | Hs : adjust_balance_vote ?c ?a ?s = Ok ?s' |- _ =>
        let Q := fresh in pose proof (adjust_balance_vote_quiet c a s s' Hs) as Q;
        note_quiet Q s s'; clear Hs Q
    end.

(** Composes the steps of an operation. *)
Ltac chain_changes :=
  lazymatch goal with
  | C : changes ?s ?s' _ |- changes ?s ?s' _ => exact C
  | C : changes ?s ?m _ |- changes ?s _ _ => eapply changes_trans; [exact C|clear C; chain_changes]
  end.

(** The arithmetic of an operation: case analysis on the assets, then linear
    arithmetic modulo the width. *)
Ltac shares_solver :=
  unfold at_asset, asset_shares, account_shares, pay_shares, balance_shares, quote_shares,
    base_shares, collateral_shares, shares_of in *;
  cbn in *; repeat case_match; cbn in *; simplify_eq;
  rewrite ?wrap64_eqm; first [lia | apply eq_eqm64; lia].

Lemma deposit_conserves o s s' :
  wf s -> BTS_V0_4_13_FORK_BLOCK_NUM <= cv_head_block_num (view s) ->
  deposit_evaluate o s = Ok s' -> conserves s s'.
Proof.
  intros Hwf Hhead Hev. unfold deposit_evaluate in Hev.
  rewrite (proj2 (Z.ltb_ge _ _) Hhead) in Hev. inv_ok. note_changes.
  match goal with |- conserves _ (upd_chain (cs_store_balance ?r) ?s1) =>
    pose proof (store_balance_changes r s1 ltac:(assumption)) as CF end.
  eapply changes_conserves; [chain_changes|]. intros id. cbn beta. unfold view in *.
  rewrite E0, E in *. set (bid := deposit_balance_id o) in *.
  destruct (cv_balance (cs_view (es_chain s)) bid) as [r|] eqn:Hr; cbn in *.
  - pose proof (wf_balance _ _ _ Hwf Hr) as Hid. unfold balance_id in *. cbn in *.
    rewrite Hid, Hr. shares_solver.
  - change (condition_address (do_condition o)) with bid. unfold balance_id. cbn.
    change (condition_address (do_condition o)) with bid. rewrite Hr. shares_solver.
Qed.

Lemma pay_yield_changes y ar r s r' s' :
  wf s -> cv_asset (view s) (as_id ar) = Some ar -> pay_yield y ar r s = (r', s') ->
  let paid := if amount y >? 0 then amount y else 0 in
  changes s s' (fun id => - at_asset id (mk_asset paid (as_id ar))) /\
  br_condition r' = br_condition r /\ br_balance r' ≡64 br_balance r + paid /\
  forall k, cv_balance (view s') k = cv_balance (view s) k.
Proof.
  intros Hwf Ha. unfold pay_yield. destruct (amount y >? 0).
  - intros [= <- <-]. cbn zeta. split_and!; [|done|cbn; apply wrap64_eqm|].
    + set (s1 := upd_data _ s). assert (Q : quiet s s1) by done. note_quiet Q s s1.
      match goal with |- changes s (upd_chain (cs_store_asset ?a) _) _ =>
        pose proof (store_asset_changes a s1 ltac:(assumption)) as [Wf Hd] end.
      split; [done|]. intros id. rewrite Hd. cbn -[total].
      change (view s1) with (view s). cbn. rewrite Ha.
      change (total id s1) with (total id s).
      shares_solver.
    + intros k. unfold view. cbn. by rewrite view_balance_asset.
  - intros [= <- <-]. cbn zeta. split_and!; [|done|apply eq_eqm64; lia|done].
    destruct (changes_refl s Hwf) as [Wf Hd]. split; [done|]. intros id. rewrite Hd.
    shares_solver.
Qed.

(** The yield a withdrawal pays, if its asset pays any. *)
Lemma yield_changes (calc : result asset) ar r s r' s' :
  wf s -> cv_asset (view s) (as_id ar) = Some ar ->
  (if is_market_issued ar then y ← calc; Ok (pay_yield y ar r s) else Ok (r, s)) = Ok (r', s') ->
  exists paid,
    changes s s' (fun id => - at_asset id (mk_asset paid (as_id ar))) /\
    br_condition r' = br_condition r /\ br_balance r' ≡64 br_balance r + paid /\
    forall k, cv_balance (view s') k = cv_balance (view s) k.
Proof.
  intros Hwf Ha. destruct (is_market_issued ar).
  - intros (y & _ & [= Hy])%bind_Ok. eexists. by eapply pay_yield_changes.
  - intros [= <- <-]. exists 0. split_and!; [|done|apply eq_eqm64; lia|done].
    destruct (changes_refl s Hwf) as [Wf Hd]. split; [done|]. intros id. rewrite Hd.
    shares_solver.
Qed.

Lemma withdraw_conserves o s s' :
  wf s -> BTS_V0_4_21_FORK_BLOCK_NUM <= cv_head_block_num (view s) ->
  withdraw_evaluate o s = Ok s' -> conserves s s'.
Proof.
  intros Hwf Hhead Hev. unfold withdraw_evaluate in Hev.
  rewrite (proj2 (Z.ltb_ge _ _) Hhead) in Hev.
  apply bind_Ok in Hev as (_ & _ & (r & Hr & Hev)%bind_Ok). apply require_Ok in Hr.
  apply bind_Ok in Hev as (sp & _ & (_ & _ & (ar & Har & (_ & _ & Hev)%bind_Ok)%bind_Ok)%bind_Ok).
  apply require_Ok in Har.
  apply bind_Ok in Hev as (s1 & Hv & ([r' s2] & Hy & (s3 & Hadd & [= <-])%bind_Ok)%bind_Ok).
  note_changes. pose proof (wf_asset _ _ _ Hwf Har) as Haid. unfold view in Har. rewrite <- E in Har.
  destruct (yield_changes _ ar r s1 r' s2 ltac:(assumption) ltac:(unfold view; by rewrite Haid) Hy)
    as (paid & C1 & Hc & Hb & Hk).
  assert (W2 : wf s2) by exact (proj1 C1). note_changes.
  match goal with |- conserves _ (upd_chain (cs_store_balance ?r) _) =>
    pose proof (store_balance_changes r s3 ltac:(assumption)) as CF end.
  eapply changes_conserves; [chain_changes|]. intros id. cbn beta.
  pose proof (wf_balance _ _ _ Hwf Hr) as Hid.
  assert (Hold : cv_balance (view s3) (balance_id r') = Some r).
  { unfold view. rewrite E0. change (cs_view (es_chain s2)) with (view s2). rewrite Hk.
    unfold view, balance_id. rewrite E, Hc. unfold balance_id in Hid. by rewrite Hid. }
  unfold balance_id at 1. cbn -[view]. unfold balance_id in Hold. rewrite Hold. cbn.
  unfold balance_shares, at_asset. cbn. rewrite Hc, Haid.
  destruct (wc_asset_id (br_condition r) =? id); [|done].
  rewrite wrap64_eqm, Hb. apply eq_eqm64. lia.
Qed.

Lemma fund_order_changes order delta s r s' :
  wf s -> fund_order order delta s = Ok (r, s') ->
  changes s s' (fun id => - at_asset id delta) /\ es_chain s' = es_chain s /\
  (forall f, f null_order_record = 0 -> shares_of f order = f r).
Proof.
  intros Hwf (_ & _ & Hev)%bind_Ok. destruct (amount delta <? 0).
  - apply bind_Ok in Hev as (r0 & Hr & (_ & _ & (s1 & Hs & [= <- <-])%bind_Ok)%bind_Ok).
    apply require_Ok in Hr. note_changes. split_and!; [|done|intros; by rewrite Hr].
    destruct C as [Wf Hd]. split; [done|]. intros id. rewrite Hd. shares_solver.
  - apply bind_Ok in Hev as (s1 & Hs & [= <- <-]). note_changes. split_and!; [done..|].
    intros f Hf. by destruct order.
Qed.

Lemma fund_short_changes k delta s r s' :
  wf s -> fund_short k delta s = Ok (r, s') ->
  changes s s' (fun id => - at_asset id delta) /\ es_chain s' = es_chain s /\
  (forall f, f null_order_record = 0 -> shares_of f (cv_short (view s) k) = f r).
Proof.
  intros Hwf (_ & _ & (_ & _ & Hev)%bind_Ok)%bind_Ok. by eapply fund_order_changes.
Qed.

(** The order's record after the operation against the funds it took. *)
Ltac order_solver Hr :=
  rewrite Hr by (unfold quote_shares, base_shares; cbn; by case_match); shares_solver.

Lemma bid_conserves o s s' : wf s -> bid_evaluate o s = Ok s' -> conserves s s'.
Proof.
  intros Hwf Hev. unfold bid_evaluate in Hev. inv_ok.
  destruct (fund_order_changes _ _ _ _ _ Hwf ltac:(eassumption)) as (C & E & Hr).
  assert (W : wf _) by exact (proj1 C).
  match goal with |- conserves _ (upd_chain (cs_store_bid ?k ?r) ?s1) =>
    pose proof (store_bid_changes k r s1 W) as CF end.
  eapply changes_conserves; [chain_changes|]. intros id. cbn beta. unfold view in *. rewrite E.
  order_solver Hr.
Qed.

Lemma ask_conserves o s s' :
  wf s -> BTS_V0_4_21_FORK_BLOCK_NUM <= cv_head_block_num (view s) ->
  ask_evaluate o s = Ok s' -> conserves s s'.
Proof.
  intros Hwf Hhead Hev. unfold ask_evaluate in Hev.
  rewrite (proj2 (Z.ltb_ge _ _) Hhead) in Hev. inv_ok.
  destruct (fund_order_changes _ _ _ _ _ Hwf ltac:(eassumption)) as (C & E & Hr).
  assert (W : wf _) by exact (proj1 C).
  match goal with |- conserves _ (upd_chain (cs_store_ask ?k ?r) ?s1) =>
    pose proof (store_ask_changes k r s1 W) as CF end.
  eapply changes_conserves; [chain_changes|]. intros id. cbn beta. unfold view in *. rewrite E.
  order_solver Hr.
Qed.

Lemma short_conserves o s s' :
  wf s -> BTS_V0_4_21_FORK_BLOCK_NUM <= cv_head_block_num (view s) ->
  short_evaluate o s = Ok s' -> conserves s s'.
Proof.
  intros Hwf Hhead Hev. unfold short_evaluate in Hev.
  rewrite (proj2 (Z.ltb_ge _ _) Hhead) in Hev. inv_ok.
  destruct (fund_short_changes _ _ _ _ _ Hwf ltac:(eassumption)) as (C & E & Hr).
  assert (W : wf _) by exact (proj1 C).
  match goal with |- conserves _ (upd_chain (cs_store_short ?k ?r) ?s1) =>
    pose proof (store_short_changes k r s1 W) as CF end.
  eapply changes_conserves; [chain_changes|]. intros id. cbn beta. unfold view in *. rewrite E.
  order_solver Hr.
Qed.

(** ** Operations on accounts *)

(** An account record with the same id and pay. *)
Definition same_pay (r r' : account_record) : Prop :=
  ac_id r' = ac_id r /\ pay_shares r' = pay_shares r.

Lemma same_pay_trans r1 r2 r3 : same_pay r1 r2 -> same_pay r2 r3 -> same_pay r1 r3.
Proof. unfold same_pay. intros [] []. split; congruence. Qed.

Lemma set_active_key_pay now key r r' : account_set_active_key now key r = Ok r' -> same_pay r r'.
Proof. unfold account_set_active_key. intros Hs. inv_ok. done. Qed.
Lemma set_signing_key_pay n key r r' : account_set_signing_key n key r = Ok r' -> same_pay r r'.
Proof.
  unfold account_set_signing_key. intros (d & Hd & [= <-])%bind_Ok. apply require_Ok in Hd.
  unfold same_pay, pay_shares. cbn. by rewrite Hd.
Qed.

(** Storing a record with the pay of the one it replaces. *)
Lemma store_same_pay r r' s s' :
  wf s -> cv_account (view s) (ac_id r) = Some r -> same_pay r r' ->
  upd_chain_r (cs_store_account r') s = Ok s' -> conserves s s'.
Proof.
  intros Hwf Hr [Hid Hpay] Hs. pose proof (store_account_changes _ _ _ Hwf Hs) as C.
  eapply changes_conserves; [exact C|]. intros id. cbn beta. rewrite Hid, Hr. cbn.
  unfold account_shares. rewrite Hpay. apply eq_eqm64. case_match; lia.
Qed.

Lemma update_active_key_pay key r s r' : update_active_key key r s = Ok r' -> same_pay r r'.
Proof.
  intros (_ & _ & (_ & _ & (r1 & H1 & (_ & _ & Hs)%bind_Ok)%bind_Ok)%bind_Ok)%bind_Ok.
  apply set_active_key_pay in H1. apply (same_pay_trans _ r1); [done|].
  case_match; [by eapply set_signing_key_pay|by injection Hs as <-].
Qed.

Lemma update_pay_rate_pay rate r s r' s' :
  update_pay_rate rate r s = Ok (r', s') -> same_pay r r' /\ quiet s s'.
Proof.
  intros (_ & _ & Hs)%bind_Ok. destruct (pay_rate_is_delegate rate); [|by injection Hs as <- <-].
  destruct (ac_delegate_info r) as [d|] eqn:Hd.
  - apply bind_Ok in Hs as (_ & _ & [= <- <-]). split; [|done].
    unfold same_pay, pay_shares. cbn. by rewrite Hd.
  - inv_ok. match goal with
    | Hk : account_set_signing_key _ _ _ = Ok _, Hf : require_fee _ _ = Ok _ |- _ =>
        apply set_signing_key_pay in Hk as [Hi Hp]; apply require_fee_quiet in Hf end.
    split; [|done]. split; [done|]. rewrite Hp. unfold pay_shares. cbn. by rewrite Hd.
Qed.

Lemma conserves_trans s1 s2 s3 : conserves s1 s2 -> conserves s2 s3 -> conserves s1 s3.
Proof. intros [_ H1] [Hwf H2]. split; [done|]. intros id. by rewrite H2. Qed.

Lemma quiet_conserves s s' : wf s -> quiet s s' -> conserves s s'.
Proof. intros Hwf Hq. by eapply changes_conserves; [apply quiet_changes|]. Qed.

Lemma update_account_conserves o s s' : wf s -> update_account_evaluate o s = Ok s' -> conserves s s'.
Proof.
  intros Hwf (r & Hr & (_ & _ & (r1 & H1 & Hev)%bind_Ok)%bind_Ok)%bind_Ok. apply require_Ok in Hr.
  pose proof (wf_account _ _ _ Hwf Hr) as Hid. rewrite <- Hid in Hr.
  assert (P1 : same_pay r r1).
  { destruct (ua_active_key o) as [key|].
    - destruct (negb (key =? account_active_key r)); [by eapply update_active_key_pay|].
      apply bind_Ok in H1 as (_ & _ & [= <-]). done.
    - apply bind_Ok in H1 as (_ & _ & [= <-]). done. }
  apply bind_Ok in Hev as ([r2 s2] & H2 & Hst). apply update_pay_rate_pay in H2 as [P2 Q].
  apply (conserves_trans _ s2); [by apply quiet_conserves|].
  destruct Q as [Hc _]. apply (store_same_pay r (set_ac_last_update (cv_now (view s2)) r2));
    [unfold wf; by rewrite Hc|unfold view; by rewrite Hc| |done].
  apply (same_pay_trans _ r1); [done|].
  destruct P2 as [Hi Hp]. destruct (ua_public_data o); split; done.
Qed.

Lemma update_signing_key_conserves o s s' :
  wf s -> update_signing_key_evaluate o s = Ok s' -> conserves s s'.
Proof.
  intros Hwf Hev. unfold update_signing_key_evaluate in Hev. inv_ok.
  match goal with
  | Hr : cv_account _ _ = Some ?r, Hk : account_set_signing_key _ _ ?r = Ok ?r' |- _ =>
      pose proof (wf_account _ _ _ Hwf Hr) as Hid; rewrite <- Hid in Hr;
      apply set_signing_key_pay in Hk; by apply (store_same_pay r _ s s' Hwf Hr) in Hev end.
Qed.

Lemma withdraw_pay_conserves o s s' : wf s -> withdraw_pay_evaluate o s = Ok s' -> conserves s s'.
Proof.
  intros Hwf Hev. unfold withdraw_pay_evaluate in Hev. inv_ok.
  match goal with
  | Hr : cv_account _ _ = Some ?r, Ha : add_balance _ ?s1 = Ok _ |- _ =>
      pose proof (wf_account _ _ _ Hwf Hr) as Hid; rewrite <- Hid in Hr;
      set (s0 := s1) in *; assert (Q : quiet s s0) by done; note_quiet Q s s0 end.
  note_changes.
  match type of Hev with upd_chain_r (cs_store_account ?r) ?s1 = _ =>
    pose proof (store_account_changes r s1 s' ltac:(assumption) Hev) as CF end.
  eapply changes_conserves; [chain_changes|]. intros id. cbn -[wrap64 Z.eqb]. unfold view in *.
  rewrite E0, E.
  match goal with Hr : cv_account _ (ac_id ?r) = Some ?r |- _ => rewrite Hr end.
  match goal with Hd : ac_delegate_info _ = Some _ |- _ =>
    unfold shares_of, account_shares, pay_shares, at_asset; cbn -[wrap64 Z.eqb]; rewrite Hd end.
  destruct (Z.eqb_spec id 0) as [->|Hne].
  - rewrite Z.eqb_refl, wrap64_eqm. apply eq_eqm64. lia.
  - rewrite (proj2 (Z.eqb_neq 0 id)) by lia. done.
Qed.

(** The id registration assigns is free. *)
Definition account_id_fresh s : Prop :=
  forall id c, new_account_id (es_chain s) = Ok (id, c) -> cv_account (view s) id = None.

Lemma new_account_id_changes id c s :
  wf s -> new_account_id (es_chain s) = Ok (id, c) ->
  changes s (upd_chain (fun _ => c) s) (fun _ => 0) /\
  forall k, cv_account (cs_view c) k = cv_account (view s) k.
Proof.
  intros Hwf (l & _ & [= <- <-])%bind_Ok. split; [|intros; apply view_account_property].
  change (changes s (upd_chain (cs_set_property last_account_id_prop (v_int (wrap32 (l + 1)))) s)
            (fun _ => 0)).
  apply store_other_changes; [apply ledger_property|done].
Qed.

Lemma register_account_conserves o s s' :
  wf s -> account_id_fresh s -> register_account_evaluate o s = Ok s' -> conserves s s'.
Proof.
  intros Hwf Hfresh Hev. unfold register_account_evaluate in Hev.
  do 5 (apply bind_Ok in Hev as (_ & _ & Hev)). cbn zeta in Hev.
  apply bind_Ok in Hev as ([id c] & Hn & Hev).
  destruct (new_account_id_changes _ _ _ Hwf Hn) as [C1 Hv].
  set (s1 := upd_chain (fun _ => c) s) in *. assert (W1 : wf s1) by exact (proj1 C1).
  apply bind_Ok in Hev as (r1 & H1 & ([r2 s2] & H2 & Hst)%bind_Ok).
  apply set_active_key_pay in H1 as [Hi1 Hp1]. cbn in Hi1, Hp1.
  assert (P2 : ac_id r2 = id /\ pay_shares r2 = 0 /\ quiet s1 s2).
  { destruct (pay_rate_is_delegate _); [|by injection H2 as <- <-].
    apply bind_Ok in H2 as (r3 & H3 & (fee & _ & (s3 & Hf & [= <- <-])%bind_Ok)%bind_Ok).
    apply set_signing_key_pay in H3 as [Hi3 Hp3]. cbn in Hi3, Hp3.
    apply require_fee_quiet in Hf. split_and!; [congruence|done|done]. }
  destruct P2 as (Hi2 & Hp2 & Q). note_quiet Q s1 s2.
  pose proof (store_account_changes r2 s2 s' ltac:(assumption) Hst) as CF.
  eapply changes_conserves; [chain_changes|]. intros k. cbn beta. unfold view. rewrite E, Hi2.
  change (cs_view (es_chain s1)) with (cs_view c). rewrite Hv, (Hfresh _ _ Hn).
  unfold account_shares, shares_of. cbn. rewrite Hp2. by destruct (k =? 0).
Qed.

(** ** Operations on assets *)

Lemma new_asset_id_changes id c s :
  wf s -> new_asset_id (es_chain s) = Ok (id, c) ->
  changes s (upd_chain (fun _ => c) s) (fun _ => 0) /\
  (forall l, last_asset_id (view s) = Ok l -> id = wrap32 (l + 1)) /\
  forall k, cv_asset (cs_view c) k = cv_asset (view s) k.
Proof.
  intros Hwf (l & Hl & [= <- <-])%bind_Ok. split_and!; [| |intros; apply view_asset_property].
  - change (changes s (upd_chain (cs_set_property last_asset_id_prop (v_int (wrap32 (l + 1)))) s)
              (fun _ => 0)).
    apply store_other_changes; [apply ledger_property|done].
  - intros l' Hl'. unfold view in Hl'. congruence.
Qed.

Lemma create_asset_conserves o s s' : wf s -> create_asset_evaluate o s = Ok s' -> conserves s s'.
Proof.
  intros Hwf Hev. unfold create_asset_evaluate in Hev. inv_ok. note_changes.
  match goal with
  | Hn : new_asset_id (es_chain ?s1) = Ok (?id, ?c), W : wf ?s1 |- _ =>
      destruct (new_asset_id_changes id c s1 W Hn) as (C1 & Hid & Hv);
      set (s2 := upd_chain (fun _ => c) s1) in *; assert (W2 : wf s2) by exact (proj1 C1) end.
  match goal with |- conserves _ (upd_chain (cs_store_asset ?r) s2) =>
    pose proof (store_asset_changes r s2 W2) as CF end.
  eapply changes_conserves; [chain_changes|]. intros k. cbn -[view].
  match goal with Hl : last_asset_id (view s) = Ok ?l |- _ =>
    unfold view in Hl; rewrite <- E in Hl; rewrite (Hid l Hl) end.
  unfold view. cbn. rewrite Hv. unfold view. rewrite E.
  match goal with Hf : is_some (cv_asset (view s) _) = false |- _ =>
    unfold view in Hf; destruct (cv_asset (cs_view (es_chain s)) _); [done|] end.
  shares_solver.
Qed.

Lemma issue_asset_conserves o s s' : wf s -> issue_asset_evaluate o s = Ok s' -> conserves s s'.
Proof.
  intros Hwf Hev. unfold issue_asset_evaluate in Hev. inv_ok. note_changes.
  match goal with Hr : cv_asset (view s) _ = Some ?r |- conserves _ (upd_chain (cs_store_asset ?r') ?s1) =>
    pose proof (wf_asset _ _ _ Hwf Hr) as Hid; rewrite <- Hid in Hr;
    pose proof (store_asset_changes r' s1 ltac:(assumption)) as CF;
    eapply changes_conserves; [chain_changes|]; intros id; cbn -[wrap64 view Z.eqb]; unfold view in *;
    rewrite E, Hr end.
  unfold at_asset, asset_shares, shares_of. cbn -[wrap64 Z.eqb]. rewrite Hid.
  case_match; [|done]. rewrite wrap64_eqm. apply eq_eqm64. lia.
Qed.

Lemma burn_conserves o s s' : wf s -> burn_evaluate o s = Ok s' -> conserves s s'.
Proof.
  intros Hwf Hev. unfold burn_evaluate in Hev. inv_ok. note_changes.
  match goal with Hr : cv_asset (view s) _ = Some ?r |-
      conserves _ (upd_chain (cs_store_burn ?k ?v) (upd_chain (cs_store_asset ?r') ?s1)) =>
    pose proof (wf_asset _ _ _ Hwf Hr) as Hid; rewrite <- Hid in Hr;
    pose proof (store_asset_changes r' s1 ltac:(assumption)) as C1;
    set (s2 := upd_chain (cs_store_asset r') s1) in *;
    pose proof (store_other_changes (cs_store_burn k v) s2 (ledger_burn k v _) (proj1 C1)) as CF;
    eapply changes_conserves; [chain_changes|]; intros id; cbn -[wrap64 view Z.eqb]; unfold view in *;
    rewrite E, Hr end.
  unfold at_asset, asset_shares, shares_of. cbn -[wrap64 Z.eqb]. rewrite Hid.
  destruct (asset_id (bu_amount o) =? id); [|done]. rewrite wrap64_eqm. apply eq_eqm64. lia.
Qed.

Lemma define_slate_conserves o s s' : wf s -> define_slate_evaluate o s = Ok s' -> conserves s s'.
Proof.
  intros Hwf (_ & _ & Hev)%bind_Ok. cbn zeta in Hev.
  destruct (cv_slate (view s) (slate_id (dd_slate o))).
  - injection Hev as <-. by apply quiet_conserves.
  - apply bind_Ok in Hev as (_ & _ & [= <-]). eapply changes_conserves; [|done].
    apply store_other_changes; [apply ledger_slate|done].
Qed.

Lemma update_feed_conserves o s s' : wf s -> update_feed_evaluate o s = Ok s' -> conserves s s'.
Proof.
  intros Hwf Hev. unfold update_feed_evaluate in Hev. inv_ok.
  match type of Hev with upd_chain_r _ (upd_chain (cs_set_feed ?r) s) = _ =>
    pose proof (store_other_changes (cs_set_feed r) s (ledger_feed r _) Hwf) as C end.
  apply bind_Ok in Hev as (c & Hc & [= <-]).
  destruct (ledger_dirty _ _ _ _ (proj1 C) Hc) as [W Hl].
  split; [exact W|]. intros id. destruct C as [_ Hd]. specialize (Hd id).
  rewrite Z.add_0_r in Hd. rewrite <- Hd. unfold total. cbn. rewrite Hl. done.
Qed.

(** ** Covers and collateral *)

(** The owner holds no other collateral, and the market is filed the right
    way round: what moving a position relies on. *)
Definition sole_position (k : market_index_key) s : Prop :=
  base_asset_id (mk_order_price k) < quote_asset_id (mk_order_price k) /\
  forall k' r, mk_owner k' = mk_owner k -> k' <> k ->
    cv_collateral (view s) k' = Some r -> cr_collateral_balance r = 0.

Lemma remove_position_changes k r s :
  wf s -> cv_collateral (view s) k = Some r ->
  changes s (upd_chain (cs_store_collateral k null_collateral_record) s)
    (fun id => - collateral_shares id k r).
Proof.
  intros Hwf Hr. destruct (store_collateral_changes k null_collateral_record s Hwf) as [W Hd].
  split; [done|]. intros id. rewrite Hd, Hr. apply eq_eqm64. cbn. unfold collateral_shares.
  cbn. case_match; lia.
Qed.

Lemma file_position_changes k k' r s :
  wf s -> sole_position k s -> mk_owner k' = mk_owner k ->
  base_asset_id (mk_order_price k') = base_asset_id (mk_order_price k) ->
  let s1 := upd_chain (cs_store_collateral k null_collateral_record) s in wf s1 ->
  changes s1 (upd_chain (cs_store_collateral k' r) s1) (fun id => collateral_shares id k r).
Proof.
  intros Hwf [_ Hsole] Ho Hb s1 W1. destruct (store_collateral_changes k' r s1 W1) as [W Hd].
  split; [done|]. intros id. rewrite Hd.
  assert (Hz : shares_of (collateral_shares id k') (cv_collateral (view s1) k') = 0).
  { unfold view, s1. cbn. rewrite view_collateral_collateral. case_decide.
    - cbn. unfold collateral_shares. cbn. by case_match.
    - destruct (cv_collateral (cs_view (es_chain s)) k') as [r0|] eqn:Hr0; [|done].
      cbn. unfold collateral_shares. rewrite (Hsole _ _ Ho ltac:(done) Hr0). by case_match. }
  rewrite Hz. unfold collateral_shares. rewrite Hb. apply eq_eqm64. lia.
Qed.

Lemma asset_div_base a b p :
  asset_id b < asset_id a -> asset_div a b = Ok p -> base_asset_id p = asset_id b.
Proof.
  intros Hlt (_ & _ & Hd)%bind_Ok. rewrite (proj2 (Z.ltb_ge _ _)) in Hd by lia.
  apply bind_Ok in Hd as (_ & _ & (q & _ & [= <-])%bind_Ok). done.
Qed.

(** The payment splits without loss. *)
Lemma split_payment_sum owed paid delta r age pp ip payoff :
  split_payment owed paid delta r age = Ok (pp, ip, payoff) ->
  amount pp + amount ip ≡64 amount delta.
Proof.
  unfold split_payment. intros (i & _ & (t & _ & Hs)%bind_Ok)%bind_Ok.
  destruct (asset_geb delta t).
  - apply bind_Ok in Hs as (x & Hx & [= <- <- <-]).
    apply bind_Ok in Hx as (_ & _ & (_ & _ & [= <-])%bind_Ok). cbn -[wrap64].
    rewrite wrap64_eqm. apply eq_eqm64. lia.
  - apply bind_Ok in Hs as (x & _ & (y & Hy & [= <- <- <-])%bind_Ok).
    apply bind_Ok in Hy as (_ & _ & (_ & _ & [= <-])%bind_Ok). cbn -[wrap64].
    rewrite wrap64_eqm. apply eq_eqm64. lia.
Qed.

(** The owner's choice of call price stays in the market of the position. *)
Definition stays_in_market (o : cover_operation) : Prop :=
  forall n, co_new_cover_price o = Some n ->
    base_asset_id n = base_asset_id (mk_order_price (co_cover_index o)).

Lemma refile_cover_changes o r num den s s1 s' :
  let k := co_cover_index o in
  wf s -> sole_position k s -> stays_in_market o ->
  s1 = upd_chain (cs_store_collateral k null_collateral_record) s -> wf s1 ->
  refile_cover o r num den (base_asset_id (mk_order_price k)) s1 = Ok s' ->
  changes s1 s' (fun id => collateral_shares id k r).
Proof.
  intros k Hwf Hsole Hstay -> W (p & Hp & [= <-])%bind_Ok.
  apply file_position_changes; [done..| |done].
  apply asset_div_base in Hp; [|apply Hsole]. cbn. destruct (co_new_cover_price o) as [n|] eqn:Hn;
    [|done]. destruct (price_gtb n p); [|done]. by apply Hstay.
Qed.

Lemma start_cover_changes o s r s' :
  wf s -> start_cover o s = Ok (r, s') ->
  let p := mk_order_price (co_cover_index o) in
  changes s s' (fun id => - at_asset id (mk_asset (co_amount o) (quote_asset_id p))) /\
  es_chain s' = es_chain s /\ cv_collateral (view s) (co_cover_index o) = Some r.
Proof.
  intros Hwf Hs. unfold start_cover in Hs. inv_ok. note_changes. split_and!; [done..|].
  unfold view in *. congruence.
Qed.

(** What a cover did to the ledger, whichever way it ends. *)
Lemma cover_with_conserves owed paid o s s' :
  wf s -> sole_position (co_cover_index o) s -> stays_in_market o ->
  cover_with owed paid o s = Ok s' -> conserves s s'.
Proof.
  intros Hwf Hsole Hstay Hev. unfold cover_with in Hev.
  set (k := co_cover_index o) in *. set (p := mk_order_price k) in *.
  apply bind_Ok in Hev as ([r s1] & Hst & (ar & Har & ([[pp ip] payoff] & Hsp & Hev)%bind_Ok)%bind_Ok).
  do 3 (apply bind_Ok in Hev as (_ & _ & Hev)). cbn zeta in Hev.
  apply bind_Ok in Hev as (_ & _ & Hev).
  destruct (start_cover_changes _ _ _ _ Hwf Hst) as (C1 & E1 & Hr). assert (W1 : wf s1) by exact (proj1 C1).
  apply require_Ok in Har. pose proof (wf_asset _ _ _ W1 Har) as Hid.
  apply split_payment_sum in Hsp.
  match type of Hev with context [upd_chain (cs_store_asset ?a) s1] =>
    pose proof (store_asset_changes a s1 W1) as C2; set (s2 := upd_chain (cs_store_asset a) s1) in * end.
  assert (W2 : wf s2) by exact (proj1 C2).
  assert (V2 : forall k', cv_collateral (view s2) k' = cv_collateral (view s) k').
  { intros k'. unfold view, s2. cbn. by rewrite view_collateral_asset, E1. }
  assert (Hsole2 : sole_position k s2).
  { destruct Hsole as [Hq Hs]. split; [done|]. intros k' r'. rewrite V2. apply Hs. }
  pose proof (remove_position_changes k r s2 W2 ltac:(by rewrite V2)) as C3.
  set (s3 := upd_chain (cs_store_collateral k _) s2) in *. assert (W3 : wf s3) by exact (proj1 C3).
  assert (CF : changes s3 s' (fun id => collateral_shares id k r)).
  { cbn in Hev. destruct (payoff >? 0).
    - pose proof (refile_cover_changes o _ 2 3 s2 s3 s' W2 Hsole2 Hstay eq_refl W3 Hev) as [W Hd].
      by split.
    - note_changes. exact C. }
  eapply changes_conserves; [chain_changes|]. intros id. cbn -[wrap64 Z.eqb].
  rewrite Hid. cbn in Har. rewrite Har. fold k p. cbn -[wrap64 Z.eqb].
  unfold at_asset, asset_shares. cbn -[wrap64 Z.eqb]. rewrite Hid.
  destruct (quote_asset_id p =? id); [|apply eq_eqm64; lia].
  rewrite !wrap64_eqm. cbn in Hsp. rewrite <- Hsp. apply eq_eqm64. lia.
Qed.

Lemma add_collateral_conserves o s s' :
  wf s -> sole_position (ad_cover_index o) s -> add_collateral_core o s = Ok s' -> conserves s s'.
Proof.
  intros Hwf Hsole Hev. unfold add_collateral_core in Hev.
  set (k := ad_cover_index o) in *. set (p := mk_order_price k) in *.
  do 3 (apply bind_Ok in Hev as (_ & _ & Hev)).
  apply bind_Ok in Hev as (s1 & Hs & (r & Hr & Hev)%bind_Ok). apply require_Ok in Hr. note_changes.
  apply bind_Ok in Hev as (cp & Hcp & [= <-]).
  assert (Hsole1 : sole_position k s1) by (unfold sole_position, view; by rewrite E).
  pose proof (remove_position_changes k r s1 W Hr) as C1.
  set (s2 := upd_chain (cs_store_collateral k _) s1) in *. assert (W2 : wf s2) by exact (proj1 C1).
  match goal with |- conserves s (upd_chain (cs_store_collateral ?k' ?r') s2) =>
    pose proof (file_position_changes k k' r' s1 W Hsole1 eq_refl
      ltac:(apply asset_div_base in Hcp; [exact Hcp|apply Hsole]) W2) as CF end.
  eapply changes_conserves; [chain_changes|]. intros id. cbn -[wrap64 Z.eqb].
  unfold at_asset, collateral_shares. cbn -[wrap64 Z.eqb]. fold p.
  destruct (base_asset_id p =? id); [|done]. rewrite wrap64_eqm. apply eq_eqm64. lia.
Qed.
End conservation.
