(* ===== verification/TransactionFacts.v ===== *)
(** * TransactionFacts: a whole transaction conserves shares

    The lemmas on the operations, composed over the loop of [evaluate], the
    collection of fees and the delegate votes, and instantiated at the pending
    state.  And the transient balance: [transaction_evaluation_state] keeps three
    running tallies, what operations withdrew, what they deposited, and the balance
    in between, which becomes the fees; every operation, in every version, keeps the
    balance equal to the withdrawals less the deposits. *)
From S2P Require Import Prelude Config Fc Asset Records ChainInterface PendingState ChainDatabase.
From S2P Require Import EvalState AccountOps AssetOps BalanceOps MarketOps Evaluate Ledger Samples.
From S2P Require Import Conservation.
From Stdlib Require Import String.

Section transaction.
Context {St : Type} {CS : ChainStore St} {CR : Crypto} {LS : LedgerStore St} {FN : FcNum} {FR : FcReal}.
Implicit Types s : eval_state St.

(** What an operation relies on of the state it runs in: the current rules
    are in force, a new account's id is free, and a position is moved only
    within its market and not onto another of the same owner. *)
Definition op_safe (o : operation) s : Prop :=
  BTS_V0_4_23_FORK_BLOCK_NUM <= cv_head_block_num (view s) /\
  match o with
  | Op_register_account _ => account_id_fresh s
  | Op_cover o => sole_position (co_cover_index o) s /\ stays_in_market o
  | Op_add_collateral o => sole_position (ad_cover_index o) s
  | _ => True
  end.

Lemma evaluate_operation_conserves o s s' :
  wf s -> op_safe o s -> evaluate_operation o s = Ok s' -> conserves s s'.
Proof.
  intros Hwf [Hhead Hsafe] Hev. unfold evaluate_operation in Hev.
  assert (H13 : BTS_V0_4_13_FORK_BLOCK_NUM <= cv_head_block_num (view s))
    by (etransitivity; [|exact Hhead]; vm_compute; discriminate).
  assert (H21 : BTS_V0_4_21_FORK_BLOCK_NUM <= cv_head_block_num (view s))
    by (etransitivity; [|exact Hhead]; vm_compute; discriminate).
  destruct o; eauto using deposit_conserves, withdraw_conserves, register_account_conserves,
    update_account_conserves, withdraw_pay_conserves, create_asset_conserves, issue_asset_conserves,
    bid_conserves, ask_conserves, short_conserves, define_slate_conserves, update_feed_conserves,
    burn_conserves, update_signing_key_conserves; try discriminate.
  - unfold short_v1_evaluate in Hev.
    rewrite (proj2 (Z.geb_le _ _)) in Hev; [discriminate|].
    etransitivity; [|exact H21]. vm_compute. discriminate.
  - unfold cover_evaluate in Hev. rewrite (proj2 (Z.ltb_ge _ _) Hhead) in Hev.
    eapply cover_with_conserves; [done|apply Hsafe..|exact Hev].
  - unfold add_collateral_evaluate in Hev. rewrite (proj2 (Z.ltb_ge _ _) H21) in Hev.
    by eapply add_collateral_conserves.
Qed.

(** Each operation of a list is safe in the state it runs in. *)
Fixpoint safe_run (ops : list operation) s : Prop :=
  match ops with
  | [] => True
  | o :: ops =>
      op_safe o s /\
      forall s1, evaluate_operation o s = Ok s1 -> safe_run ops (next_operation s1)
  end.

Lemma evaluate_operations_conserves ops s s' :
  wf s -> safe_run ops s -> evaluate_operations ops s = Ok s' -> conserves s s'.
Proof.
  unfold evaluate_operations. revert s. induction ops as [|o ops IH]; intros s Hwf; cbn.
  - intros _ [= <-]. by apply quiet_conserves.
  - intros [Hsafe Hrest] (s1 & (s2 & H2 & [= <-])%bind_Ok & H1)%bind_Ok.
    pose proof (evaluate_operation_conserves _ _ _ Hwf Hsafe H2) as C2.
    apply (conserves_trans _ s2); [done|].
    pose proof (IH (next_operation s2) (proj1 C2) (Hrest _ H2) H1) as [W Ht]. split; [done|].
    intros id. rewrite Ht. done.
Qed.

(** ** Fees *)

(** The transaction fee a withdrawn asset is charged. *)
Definition transaction_fee_of (id : Z) s : Z :=
  match cv_asset (view s) id with
  | Some r => if (as_id r >? 0) && is_market_issued r && (as_transaction_fee r >? 0)
              then as_transaction_fee r else 0
  | None => 0
  end.
Definition transaction_fees (id : Z) s : Z :=
  if decide (is_Some (ev_withdraws (es_data s) !! id)) then transaction_fee_of id s else 0.

Lemma charge_fees_changes s s' :
  wf s -> each charge_transaction_fee (ev_withdraws (es_data s)) s = Ok s' ->
  changes s s' (fun id => - transaction_fees id s) /\ es_chain s' = es_chain s.
Proof.
  intros Hwf He.
  assert (Hstep : forall j v s1 s2, wf s1 /\ es_chain s1 = es_chain s ->
    charge_transaction_fee j v s1 = Ok s2 ->
    (wf s2 /\ es_chain s2 = es_chain s) /\
    forall id, total id s2 ≡64 total id s1 + (if decide (j = id) then - transaction_fee_of j s else 0)).
  { intros j v s1 s2 [W1 E1] (r & Hr & Hc)%bind_Ok. apply require_Ok in Hr.
    pose proof (wf_asset _ _ _ W1 Hr) as Hid.
    unfold view in Hr. rewrite E1 in Hr. unfold transaction_fee_of, view. rewrite Hr.
    destruct (_ && _ && _).
    - pose proof (sub_balance_chain _ _ _ _ Hc) as E2.
      apply sub_balance_changes in Hc as [W2 Hd]; [|done]. split; [split; congruence|].
      intros id. rewrite Hd. unfold at_asset. cbn. rewrite Hid.
      case_decide; [rewrite (proj2 (Z.eqb_eq j id)) by done; done|].
      by rewrite (proj2 (Z.eqb_neq j id)) by done.
    - injection Hc as <-. split; [done|]. intros id. apply eq_eqm64. case_decide; lia. }
  assert (W : wf s' /\ es_chain s' = es_chain s).
  { refine (each_inv (fun x => wf x /\ es_chain x = es_chain s) _ _ _ _ _ _ He); [|done].
    intros j v s1 s2 _ HP Hc. by apply (Hstep j v s1 s2). }
  split; [|apply W]. split; [apply W|]. intros id.
  destruct (each_sum (total id) (fun j _ => - transaction_fee_of j s)
              (fun x => wf x /\ es_chain x = es_chain s) id _ _ _ _
              (fun j v s1 s2 _ HP Hc => conj (proj1 (Hstep j v s1 s2 HP Hc))
                                          (proj2 (Hstep j v s1 s2 HP Hc) id)) (conj Hwf eq_refl) He)
    as [_ Ht].
  rewrite Ht. unfold transaction_fees. apply eq_eqm64.
  destruct (ev_withdraws (es_data s) !! id) as [w|]; case_decide as Hd; cbn; try lia.
  - exfalso. apply Hd. eauto.
  - by destruct Hd.
Qed.

Lemma alt_fee_quiet id fee s s' : alt_fee id fee s = Ok s' -> quiet s s'.
Proof.
  unfold alt_fee. intros (_ & _ & Hs)%bind_Ok.
  repeat (case_match || (apply bind_Ok in Hs as (? & ? & Hs))); by injection Hs as <-.
Qed.

Lemma quiet_trans s1 s2 s3 : quiet s1 s2 -> quiet s2 s3 -> quiet s1 s3.
Proof. unfold quiet. intros [] []. split; congruence. Qed.

Lemma alt_fees_quiet m s s' : each alt_fee m s = Ok s' -> quiet s s'.
Proof.
  intros He. refine (each_inv (quiet s) _ _ _ _ _ _ He); [|done].
  intros j v s1 s2 _ Hq Hs. eapply quiet_trans; [exact Hq|]. by eapply alt_fee_quiet.
Qed.

(** What is left of the balance becomes collected fees. *)
Lemma collect_fees_ledger s s' :
  wf s -> each collect_fee (ev_balance (es_data s)) s = Ok s' ->
  wf s' /\ forall id, ledger id (es_chain s') ≡64 total id s.
Proof.
  intros Hwf He.
  assert (Hstep : forall id j fee s1 s2, wf s1 -> collect_fee j fee s1 = Ok s2 ->
    wf s2 /\ ledger id (es_chain s2) ≡64 ledger id (es_chain s1) + (if decide (j = id) then fee else 0)).
  { intros id j fee s1 s2 W1 (u & Hneg & Hs)%bind_Ok. apply throw_if_Ok in Hneg.
    destruct (fee >? 0) eqn:Hf.
    - apply bind_Ok in Hs as (r & Hr & [= <-]). apply require_Ok in Hr.
      pose proof (wf_asset _ _ _ W1 Hr) as Hid.
      set (r' := set_as_collected_fees _ r). destruct (ledger_asset r' _ W1) as [W2 Hl].
      split; [exact W2|]. cbn. rewrite Hl. change (as_id r') with (as_id r). rewrite Hid.
      unfold view in Hr. rewrite Hr. unfold r', asset_shares. cbn -[wrap64 Z.eqb]. rewrite Hid.
      case_decide as Hj; [rewrite (proj2 (Z.eqb_eq j id)) by done; rewrite wrap64_eqm
                         |rewrite (proj2 (Z.eqb_neq j id)) by done]; apply eq_eqm64; lia.
    - injection Hs as <-. split; [done|]. apply eq_eqm64. case_decide; lia. }
  split.
  - refine (each_inv wf _ _ _ _ _ Hwf He). intros j fee s1 s2 _ W Hs. by apply (Hstep 0 j fee s1 s2).
  - intros id. destruct (each_sum (fun x => ledger id (es_chain x)) (fun _ fee => fee) wf id _ _ _ _
                (fun j fee s1 s2 _ W Hs => Hstep id j fee s1 s2 W Hs) Hwf He) as [_ Ht].
    rewrite Ht. done.
Qed.

Lemma post_evaluate_ledger s s' :
  wf s -> post_evaluate s = Ok s' ->
  wf s' /\ forall id, ledger id (es_chain s') ≡64 total id s - transaction_fees id s.
Proof.
  intros Hwf (s1 & H1 & (s2 & H2 & H3)%bind_Ok)%bind_Ok.
  destruct (charge_fees_changes _ _ Hwf H1) as [[W1 Hd] _].
  apply alt_fees_quiet in H2 as [Ec Eb]. apply collect_fees_ledger in H3 as [W3 Hl];
    [|unfold wf; by rewrite Ec]. split; [done|]. intros id. rewrite Hl. unfold total at 1, get_fees.
  rewrite Ec, Eb. cbn. rewrite <- Z.add_opp_r, <- Hd. unfold total, get_fees. apply eq_eqm64. f_equal.
  destruct (decide (id = 0)) as [->|Hne]; [by rewrite lookup_insert_eq|by rewrite lookup_insert_ne].
Qed.

(** ** Votes *)

Lemma adjust_votes_pay votes r r' : account_adjust_votes_for votes r = Ok r' -> same_pay r r'.
Proof.
  unfold account_adjust_votes_for. intros Hs. inv_ok.
  unfold same_pay, pay_shares. cbn.
  match goal with Hd : ac_delegate_info _ = Some _ |- _ => by rewrite Hd end.
Qed.

Lemma update_delegate_votes_ledger s s' :
  wf s -> update_delegate_votes s = Ok s' ->
  wf s' /\ forall id, ledger id (es_chain s') ≡64 ledger id (es_chain s).
Proof.
  intros Hwf He.
  refine (each_inv (fun x => wf x /\ forall id, ledger id (es_chain x) ≡64 ledger id (es_chain s))
            _ _ _ _ _ _ He); [|by split].
  intros id votes s1 s2 _ [W1 Hl] (r & Hr & (r' & Hv & Hst)%bind_Ok)%bind_Ok.
  apply require_Ok in Hr. pose proof (wf_account _ _ _ W1 Hr) as Hid. rewrite <- Hid in Hr.
  pose proof (store_same_pay r r' s1 s2 W1 Hr (adjust_votes_pay _ _ _ Hv) Hst) as [W2 Ht].
  split; [done|]. intros k. specialize (Ht k).
  apply bind_Ok in Hst as (c & Hc & [= <-]). unfold total, get_fees in Ht. cbn in Ht |- *.
  rewrite <- Hl.
  assert (Hs := eqm64_sub _ _ Ht (default 0 (ev_balance (es_data s1) !! k)) _ eq_refl).
  by rewrite !Z.add_simpl_r in Hs.
Qed.

(** ** The transaction *)

Lemma begin_evaluate_quiet trx skip ec s s' :
  begin_evaluate trx skip ec s = Ok s' -> quiet s s'.
Proof.
  intros (_ & _ & (s1 & Hs & [= <-])%bind_Ok)%bind_Ok. destruct skip; cbn in Hs.
  - by injection Hs as <-.
  - by apply bind_Ok in Hs as (keys & _ & [= <-]).
Qed.

(** C1: a transaction moves shares, it neither makes nor destroys them: what
    the chain holds of an asset (balances, orders, collateral, delegate pay
    and collected fees) less the asset's supply is, after the evaluation, what
    it was before, modulo the width of an amount, except for the transaction
    fees of withdrawn market-issued assets, which are taken from the
    transaction and credited nowhere.  The operations run under the rules in force
    since BTS_V0_4_23, the id a registration takes is free, and a cover or added
    collateral finds no other position of its owner and stays in its market: the
    code checks neither of the last two ([safe_run]; [cover_overwrites_position] and
    [cover_changes_market] in MarketFacts.v show what happens otherwise). *)
Theorem evaluate_conserves trx skip ec c chain_id s0 s1 s' :
  ledger_wf c ->
  begin_evaluate trx skip ec (new_eval c chain_id) = Ok s0 ->
  safe_run (tx_operations trx) s0 ->
  evaluate_operations (tx_operations trx) s0 = Ok s1 ->
  evaluate trx skip ec (new_eval c chain_id) = Ok s' ->
  ledger_wf (es_chain s') /\
  forall id, ledger id (es_chain s') ≡64 ledger id c - transaction_fees id s1.
Proof.
  intros Hwf Hb Hsafe Hops Hev. unfold evaluate in Hev. rewrite Hb in Hev. cbn in Hev.
  rewrite Hops in Hev. cbn in Hev. apply bind_Ok in Hev as (s2 & Hpost & (_ & _ & Hvotes)%bind_Ok).
  apply begin_evaluate_quiet in Hb. pose proof (quiet_conserves (new_eval c chain_id) _ Hwf Hb) as [W0 H0].
  pose proof (evaluate_operations_conserves _ _ _ W0 Hsafe Hops) as [W1 H1].
  destruct (post_evaluate_ledger _ _ W1 Hpost) as [W2 H2].
  destruct (update_delegate_votes_ledger _ _ W2 Hvotes) as [W3 H3].
  split; [done|]. intros id. rewrite H3, H2, H1, H0. unfold total, get_fees. cbn.
  rewrite lookup_empty. cbn. by rewrite Z.add_0_r.
Qed.
End transaction.

(** Key 3 sends 4000 to key 4 and leaves a fee of 1000. *)
Definition sample_transfer : signed_transaction :=
  mk_trx (sample_now + 100) None
    [ Op_withdraw (mk_withdraw (condition_address condition_3) 5000 []);
      Op_deposit (mk_deposit 4000 condition_4) ] [3].

(** [safe_run] decided for operations [op_safe] does not restrict. *)
Definition plain_operation (o : operation) : bool :=
  match o with Op_register_account _ | Op_cover _ | Op_add_collateral _ => false | _ => true end.
Fixpoint plain_run (ops : list operation) (s : eval_state pending_chain_state) : bool :=
  match ops with
  | [] => true
  | o :: ops =>
      plain_operation o && (BTS_V0_4_23_FORK_BLOCK_NUM <=? cv_head_block_num (view s))
      && match evaluate_operation o s with Ok s1 => plain_run ops (next_operation s1) | Err _ => true end
  end.

Lemma plain_run_safe ops s : plain_run ops s = true -> safe_run ops s.
Proof.
  revert s. induction ops as [|o ops IH]; intros s; [done|].
  cbn [plain_run safe_run]. intros [[Ho Hh]%andb_prop Hr]%andb_prop.
  split; [split; [by apply Z.leb_le|by destruct o]|].
  intros s1 Hs. rewrite Hs in Hr. by apply IH.
Qed.

Lemma evaluate_conserves_witness :
  exists s1 s' : eval_state pending_chain_state,
    evaluate sample_transfer false true (new_eval sample_pending 1) = Ok s' /\
    ledger_wf (es_chain s') /\
    forall id, ledger id (es_chain s') ≡64 ledger id sample_pending - transaction_fees id s1.
Proof.
  pose proof (eq_refl : is_ok (begin_evaluate sample_transfer false true (new_eval sample_pending 1)) = true) as B.
  destruct (begin_evaluate sample_transfer false true (new_eval sample_pending 1)) as [s0|] eqn:Hb;
    [|discriminate B].
  assert (R : is_ok (evaluate_operations (tx_operations sample_transfer) s0) = true
              /\ plain_run (tx_operations sample_transfer) s0 = true).
  { assert (R : match begin_evaluate sample_transfer false true (new_eval sample_pending 1) with
                | Ok s => is_ok (evaluate_operations (tx_operations sample_transfer) s)
                          && plain_run (tx_operations sample_transfer) s
                | Err _ => false end = true) by (vm_compute; reflexivity).
    rewrite Hb in R. by apply andb_prop. }
  destruct R as [R Hp].
  destruct (evaluate_operations (tx_operations sample_transfer) s0) as [s1|] eqn:Ho; [|discriminate R].
  assert (E : is_ok (evaluate sample_transfer false true (new_eval sample_pending 1)) = true)
    by (vm_compute; reflexivity).
  destruct (evaluate sample_transfer false true (new_eval sample_pending 1)) as [s'|] eqn:He;
    [|discriminate E].
  exists s1, s'. split; [reflexivity|].
  apply (evaluate_conserves sample_transfer false true sample_pending 1 s0 s1 s');
    [apply sample_pending_wf|exact Hb|by apply plain_run_safe|exact Ho|exact He].
Defined.

(** ** The transient balance *)

Create HintDb tally.

Section tally.
Context {St : Type} {CS : ChainStore St} {CR : Crypto} {FN : FcNum} {FR : FcReal}.
Implicit Types s : eval_state St.

Definition tallied (m : gmap Z asset) (id : Z) : Z := from_option amount 0 (m !! id).
Definition withdrawn (id : Z) s : Z := tallied (ev_withdraws (es_data s)) id.
Definition deposited (id : Z) s : Z := tallied (ev_deposits (es_data s)) id.

Definition tally s : Prop := forall id, get_fees id s ≡64 withdrawn id s - deposited id s.

Lemma accumulate_tallied k a m m' id :
  accumulate k a m = Ok m' -> tallied m' id ≡64 tallied m id + (if k =? id then amount a else 0).
Proof.
  unfold accumulate, tallied. destruct (m !! k) as [b|] eqn:Hk.
  - intros (c & Hc & [= <-])%bind_Ok.
    apply bind_Ok in Hc as (_ & _ & (_ & _ & [= <-])%bind_Ok).
    destruct (Z.eqb_spec k id) as [->|Hne].
    + rewrite lookup_insert_eq, Hk. apply wrap64_eqm.
    + rewrite lookup_insert_ne by done. apply eq_eqm64. lia.
  - intros [= <-]. destruct (Z.eqb_spec k id) as [->|Hne].
    + by rewrite lookup_insert_eq, Hk.
    + rewrite lookup_insert_ne by done. apply eq_eqm64. lia.
Qed.

Lemma sub_balance_tally b a s s' : sub_balance b a s = Ok s' -> tally s -> tally s'.
Proof.
  intros (p & _ & (d & Hd & [= <-])%bind_Ok)%bind_Ok Ht id. specialize (Ht id).
  pose proof (accumulate_tallied _ _ _ _ id Hd) as Hd'.
  unfold withdrawn, deposited, get_fees in *. cbn -[wrap64]. rewrite Hd'.
  destruct (Z.eqb_spec (asset_id a) id) as [->|Hne].
  - rewrite lookup_insert_eq. cbn -[wrap64].
    rewrite Z.sub_add_distr, <- Ht. destruct (ev_balance (es_data s) !! id); cbn -[wrap64];
      rewrite wrap64_eqm; apply eq_eqm64; lia.
  - rewrite lookup_insert_ne by done. by rewrite Z.add_0_r.
Qed.

Lemma add_balance_tally a s s' : add_balance a s = Ok s' -> tally s -> tally s'.
Proof.
  intros (w & Hw & [= <-])%bind_Ok Ht id. specialize (Ht id).
  pose proof (accumulate_tallied _ _ _ _ id Hw) as Hw'.
  unfold withdrawn, deposited, get_fees in *. cbn -[wrap64]. rewrite Hw'.
  destruct (Z.eqb_spec (asset_id a) id) as [->|Hne].
  - rewrite lookup_insert_eq. cbn -[wrap64].
    rewrite Z.add_sub_swap, <- Ht. destruct (ev_balance (es_data s) !! id); cbn -[wrap64];
      rewrite ?wrap64_eqm; apply eq_eqm64; lia.
  - rewrite lookup_insert_ne by done. by rewrite Z.add_0_r.
Qed.

(** Members other than the tallies do not matter. *)
Lemma upd_chain_tally f s : tally s -> tally (upd_chain f s).
Proof. done. Qed.
Lemma upd_chain_r_tally f s s' : upd_chain_r f s = Ok s' -> tally s -> tally s'.
Proof. by intros (c & _ & [= <-])%bind_Ok Ht. Qed.
Lemma require_fee_tally a s s' : require_fee a s = Ok s' -> tally s -> tally s'.
Proof. by intros (f & _ & [= <-])%bind_Ok Ht. Qed.
Lemma adjust_vote_tally i a s s' : adjust_vote i a s = Ok s' -> tally s -> tally s'.
Proof.
  unfold adjust_vote. intros Hs Ht. destruct (negb _); [|by injection Hs as <-].
  by apply bind_Ok in Hs as (l & _ & [= <-]).
Qed.
Lemma pay_yield_tally y ar r s r' s' : pay_yield y ar r s = (r', s') -> tally s -> tally s'.
Proof. unfold pay_yield. intros Hs Ht. destruct (_ >? 0); by injection Hs as <- <-. Qed.
End tally.

#[export] Hint Resolve sub_balance_tally add_balance_tally upd_chain_tally upd_chain_r_tally
  require_fee_tally adjust_vote_tally pay_yield_tally : tally.

(** Runs through an evaluation, on every branch, tally by tally. *)
Ltac keep_tally :=
  repeat (inv_ok_step || match goal with
    | H : (_, _) = (_, _) |- _ => injection H as ? ?; subst
    | H : (if ?c then _ else _) = Ok _ |- _ => destruct c eqn:?
    | H : match ?x with _ => _ end = Ok _ |- _ => destruct x eqn:?
    end; cbn beta iota in *);
  eauto 7 with tally.

Section operations.
Context {St : Type} {CS : ChainStore St} {CR : Crypto} {FN : FcNum} {FR : FcReal}.
Implicit Types s : eval_state St.

Lemma adjust_balance_vote_tally c a s s' : adjust_balance_vote c a s = Ok s' -> tally s -> tally s'.
Proof. unfold adjust_balance_vote. intros Hs Ht. keep_tally. Qed.
Lemma fund_order_tally o d s r s' : fund_order o d s = Ok (r, s') -> tally s -> tally s'.
Proof. unfold fund_order. intros Hs Ht. keep_tally. Qed.
End operations.

#[export] Hint Resolve adjust_balance_vote_tally fund_order_tally : tally.

Section evaluation.
Context {St : Type} {CS : ChainStore St} {CR : Crypto} {FN : FcNum} {FR : FcReal}.
Implicit Types s : eval_state St.

Lemma deposit_tally o s s' : deposit_evaluate o s = Ok s' -> tally s -> tally s'.
Proof. unfold deposit_evaluate, deposit_evaluate_v1. intros Hs Ht. keep_tally. Qed.
Lemma withdraw_tally o s s' : withdraw_evaluate o s = Ok s' -> tally s -> tally s'.
Proof.
  unfold withdraw_evaluate, withdraw_evaluate_v3, withdraw_evaluate_v2, withdraw_evaluate_v1.
  intros Hs Ht. keep_tally.
Qed.
Lemma register_account_tally o s s' : register_account_evaluate o s = Ok s' -> tally s -> tally s'.
Proof. unfold register_account_evaluate. intros Hs Ht. keep_tally. Qed.
Lemma update_account_tally o s s' : update_account_evaluate o s = Ok s' -> tally s -> tally s'.
Proof. unfold update_account_evaluate, update_pay_rate. intros Hs Ht. keep_tally. Qed.
Lemma withdraw_pay_tally o s s' : withdraw_pay_evaluate o s = Ok s' -> tally s -> tally s'.
Proof. unfold withdraw_pay_evaluate. intros Hs Ht. keep_tally. Qed.
Lemma create_asset_tally o s s' : create_asset_evaluate o s = Ok s' -> tally s -> tally s'.
Proof. unfold create_asset_evaluate. intros Hs Ht. keep_tally. Qed.
Lemma issue_asset_tally o s s' : issue_asset_evaluate o s = Ok s' -> tally s -> tally s'.
Proof. unfold issue_asset_evaluate. intros Hs Ht. keep_tally. Qed.
Lemma burn_tally o s s' : burn_evaluate o s = Ok s' -> tally s -> tally s'.
Proof. unfold burn_evaluate. intros Hs Ht. keep_tally. Qed.
Lemma bid_tally o s s' : bid_evaluate o s = Ok s' -> tally s -> tally s'.
Proof. unfold bid_evaluate. intros Hs Ht. keep_tally. Qed.
Lemma ask_tally o s s' : ask_evaluate o s = Ok s' -> tally s -> tally s'.
Proof. unfold ask_evaluate, ask_evaluate_v1, adjust_depth. intros Hs Ht. keep_tally. Qed.
Lemma short_tally o s s' : short_evaluate o s = Ok s' -> tally s -> tally s'.
Proof. unfold short_evaluate, short_evaluate_v1, fund_short, adjust_depth. intros Hs Ht. keep_tally. Qed.
Lemma short_v1_tally o s s' : short_v1_evaluate o s = Ok s' -> tally s -> tally s'.
Proof. unfold short_v1_evaluate, short_v1_evaluate_v1, adjust_depth. intros Hs Ht. keep_tally. Qed.
Lemma cover_with_tally f g o s s' : cover_with f g o s = Ok s' -> tally s -> tally s'.
Proof. unfold cover_with, start_cover, refile_cover. intros Hs Ht. keep_tally. Qed.
Lemma finish_cover_tally o r n d b s s' : finish_cover_v1 o r n d b s = Ok s' -> tally s -> tally s'.
Proof. unfold finish_cover_v1, refile_cover, adjust_cover_depth. intros Hs Ht. keep_tally. Qed.
Lemma start_cover_tally o s r s' : start_cover o s = Ok (r, s') -> tally s -> tally s'.
Proof. unfold start_cover. intros Hs Ht. keep_tally. Qed.
Lemma cover_tally o s s' : cover_evaluate o s = Ok s' -> tally s -> tally s'.
Proof.
  unfold cover_evaluate, cover_evaluate_v4, cover_evaluate_v3, cover_evaluate_v2, cover_evaluate_v1.
  intros Hs Ht. keep_tally;
    first [by eapply cover_with_tally | by eauto using finish_cover_tally, start_cover_tally with tally].
Qed.
Lemma add_collateral_tally o s s' : add_collateral_evaluate o s = Ok s' -> tally s -> tally s'.
Proof.
  unfold add_collateral_evaluate, add_collateral_evaluate_v1, add_collateral_core, adjust_cover_depth.
  intros Hs Ht. keep_tally.
Qed.
Lemma define_slate_tally o s s' : define_slate_evaluate o s = Ok s' -> tally s -> tally s'.
Proof. unfold define_slate_evaluate. intros Hs Ht. keep_tally. Qed.
Lemma update_feed_tally o s s' : update_feed_evaluate o s = Ok s' -> tally s -> tally s'.
Proof. unfold update_feed_evaluate. intros Hs Ht. keep_tally. Qed.
Lemma update_signing_key_tally o s s' : update_signing_key_evaluate o s = Ok s' -> tally s -> tally s'.
Proof. unfold update_signing_key_evaluate. intros Hs Ht. keep_tally. Qed.

Lemma evaluate_operation_tally o s s' : evaluate_operation o s = Ok s' -> tally s -> tally s'.
Proof.
  destruct o; cbn; eauto using deposit_tally, withdraw_tally, register_account_tally,
    update_account_tally, withdraw_pay_tally, create_asset_tally, issue_asset_tally, burn_tally,
    bid_tally, ask_tally, short_tally, short_v1_tally, cover_tally, add_collateral_tally,
    define_slate_tally, update_feed_tally, update_signing_key_tally; discriminate.
Qed.

Lemma evaluate_operations_tally ops s s' : evaluate_operations ops s = Ok s' -> tally s -> tally s'.
Proof.
  unfold evaluate_operations. intros Hs Ht. refine (fold_result_inv tally _ _ _ _ _ Ht Hs).
  intros s1 o s2 H1 (s3 & H3 & [= <-])%bind_Ok. exact (evaluate_operation_tally o s1 s3 H3 H1).
Qed.

Lemma post_evaluate_tally s s' : post_evaluate s = Ok s' -> tally s -> tally s'.
Proof.
  intros (s1 & H1 & (s2 & H2 & H3)%bind_Ok)%bind_Ok Ht.
  assert (T1 : tally s1).
  { refine (each_inv tally _ _ _ _ _ Ht H1). intros k v x y _ Hx Hy.
    unfold charge_transaction_fee in Hy. keep_tally. }
  assert (T2 : tally s2).
  { refine (each_inv tally _ _ _ _ _ _ H2).
    - intros k v x y _ Hx Hy. unfold alt_fee in Hy. keep_tally.
    - intros id. specialize (T1 id). unfold get_fees in *. cbn.
      destruct (decide (id = 0)) as [->|]; [rewrite lookup_insert_eq; exact T1|rewrite lookup_insert_ne by done; exact T1]. }
  refine (each_inv tally _ _ _ _ _ T2 H3). intros k v x y _ Hx Hy.
  unfold collect_fee in Hy. keep_tally.
Qed.

(** Throughout the evaluation of a transaction, under the rules of every
    fork, the balance of an asset is what was withdrawn of it less what was
    deposited, modulo the width of an amount. *)
Theorem balance_is_withdraws_less_deposits trx skip ec c chain_id s' :
  evaluate trx skip ec (new_eval c chain_id) = Ok s' ->
  forall id, get_fees id s' ≡64 withdrawn id s' - deposited id s'.
Proof.
  intros (s0 & H0 & (s1 & H1 & (s2 & H2 & (_ & _ & H3)%bind_Ok)%bind_Ok)%bind_Ok)%bind_Ok.
  assert (T0 : tally s0).
  { unfold begin_evaluate in H0. apply bind_Ok in H0 as (_ & _ & (s & Hs & [= <-])%bind_Ok).
    intros id. destruct skip; cbn in Hs; [by injection Hs as <-|].
    by apply bind_Ok in Hs as (k & _ & [= <-]). }
  pose proof (post_evaluate_tally _ _ H2 (evaluate_operations_tally _ _ _ H1 T0)) as T2.
  refine (each_inv tally _ _ _ _ _ T2 H3). intros k v x y _ Hx Hy. keep_tally.
Qed.
End evaluation.

(** The transfer of 4000 with a fee of 1000. *)
Lemma balance_is_withdraws_less_deposits_witness :
  exists s', evaluate sample_transfer false true (new_eval sample_pending 1) = Ok s' /\
    get_fees 0 s' ≡64 withdrawn 0 s' - deposited 0 s'.
Proof.
  destruct (is_ok_Some (evaluate sample_transfer false true (new_eval sample_pending 1))) as [s' Hs'].
  { vm_compute. reflexivity. }
  exists s'. split; [exact Hs'|].
  exact (balance_is_withdraws_less_deposits sample_transfer false true sample_pending 1 s' Hs' 0).
Defined.
