(* ===== verification/SupplyFacts.v ===== *)
(** * SupplyFacts: issue, burning, yield and vesting

    The supply of an asset stays within its maximum when shares are issued; the
    yield of a balance is at most its fair share of the fee pool and is computed
    without overflow; vesting releases a balance linearly.  And what the guards
    do not exclude: an issue without signatures, a burn of a negative amount, a
    symbol registered twice in a block, and a vesting balance too large for the
    64-bit product. *)
From S2P Require Import Prelude Config Fc Asset Records ChainInterface PendingState ChainDatabase EvalState.
From S2P Require Import AccountOps AssetOps BalanceOps MarketOps Evaluate Apply Ledger Samples.
From Stdlib Require Import String.

(** ** Reading back a stored asset *)

Lemma asset_after_store `{Crypto} r (p : pending_chain_state) k :
  cv_asset (cs_view (cs_store_asset r p)) k =
    if decide (k = as_id r) then Some r else cv_asset (cs_view p) k.
Proof.
  cbn. unfold pending_get_asset_record. cbn.
  case_decide as Hk; [by rewrite Hk, lookup_insert_eq|by rewrite lookup_insert_ne by done].
Qed.

(** ** Issue *)

Section issue.
Context {CR : Crypto} {FN : FcNum} {FR : FcReal}.
Implicit Types s : eval_state pending_chain_state.

Lemma can_issue_exact r amt :
  in_int64 (as_current_share_supply r) -> in_int64 amt -> can_issue_shares r amt = true ->
  wrap64 (as_current_share_supply r + amt) = as_current_share_supply r + amt /\
  0 < amt /\ as_current_share_supply r + amt <= as_maximum_share_supply r.
Proof.
  unfold can_issue_shares, in_int64, INT64_MIN, INT64_MAX. intros Hs Ha.
  destruct (Z.leb_spec amt 0); [done|]. intros [H1 H2]%andb_prop.
  apply Z.gtb_lt in H1. apply Z.leb_le in H2.
  assert (E : wrap64 (as_current_share_supply r + amt) = as_current_share_supply r + amt); [|lia].
  apply wrap64_id. unfold in_int64, INT64_MIN, INT64_MAX.
  destruct (decide (as_current_share_supply r + amt < 2^63)); [lia|].
  enough (wrap64 (as_current_share_supply r + amt) = as_current_share_supply r + amt - 2^64) by lia.
  unfold wrap64. rewrite <- (Z_mod_plus_full _ (-1)), Z.mod_small; lia.
Qed.

(** C38: issuing shares of an asset needs its authority's signatures, adds
    exactly the positive amount issued to the supply, which stays within the
    asset's maximum, and credits it to the transaction. *)
Theorem issue_asset_within_maximum o s s' r :
  ledger_wf (es_chain s) -> in_int64 (amount (ia_amount o)) ->
  cv_asset (view s) (asset_id (ia_amount o)) = Some r -> in_int64 (as_current_share_supply r) ->
  issue_asset_evaluate o s = Ok s' ->
  is_market_issued r = false /\ verify_authority (as_authority r) s = true /\
  0 < amount (ia_amount o) /\
  exists r', cv_asset (view s') (asset_id (ia_amount o)) = Some r' /\
    as_current_share_supply r' = as_current_share_supply r + amount (ia_amount o) /\
    as_maximum_share_supply r' = as_maximum_share_supply r /\
    as_current_share_supply r' <= as_maximum_share_supply r' /\
    get_fees (asset_id (ia_amount o)) s' ≡64
      get_fees (asset_id (ia_amount o)) s + amount (ia_amount o).
Proof.
  intros Hwf Ha Hr Hsup Hev. pose proof (wf_asset _ _ _ Hwf Hr) as Hid.
  unfold issue_asset_evaluate in Hev. rewrite Hr in Hev.
  apply bind_Ok in Hev as (r0 & [= <-] & Hev).
  apply bind_Ok in Hev as (u1 & Hm & (u2 & Hauth & (u3 & _ & (u4 & Hcan & Hev)%bind_Ok)%bind_Ok)%bind_Ok).
  apply throw_if_Ok in Hm, Hauth, Hcan. apply negb_false_iff in Hauth, Hcan.
  unfold can_issue in Hcan. destruct (negb _); [done|].
  destruct (can_issue_exact r _ Hsup Ha Hcan) as (Hx & Hpos & Hmax).
  apply bind_Ok in Hev as (s1 & Hadd & [= <-]). split_and!; [done..|].
  unfold view at 1. cbn [upd_chain es_chain]. rewrite asset_after_store. cbn [as_id set_as_last_update set_as_current_share_supply].
  rewrite Hid, decide_True by done. eexists. split; [reflexivity|]. cbn -[wrap64]. rewrite Hx.
  split_and!; [done..|]. change (get_fees _ (upd_chain _ s1)) with (get_fees (asset_id (ia_amount o)) s1).
  unfold add_balance in Hadd. apply bind_Ok in Hadd as (w & _ & [= <-]). unfold get_fees. cbn -[wrap64].
  rewrite lookup_insert_eq. cbn -[wrap64]. destruct (ev_balance _ !! _); cbn -[wrap64];
    rewrite ?wrap64_eqm; apply eq_eqm64; lia.
Qed.

(** An asset whose authority requires no signature can be issued by anyone.
    The genesis record of the base asset is such a record (its authority is the
    default one) and is not market-issued, so a transaction without any
    signature can issue the base asset up to its maximum supply. *)
Theorem unsigned_issue s r amt :
  ev_signed_keys (es_data s) = ∅ -> es_skip s = false ->
  cv_asset (view s) 0 = Some r -> as_id r = 0 ->
  ms_required (as_authority r) = 0 -> is_market_issued r = false ->
  can_issue r (mk_asset amt 0) = true -> ev_withdraws (es_data s) !! 0 = None ->
  exists s', issue_asset_evaluate (mk_issue_asset (mk_asset amt 0)) s = Ok s' /\
    get_fees 0 s' ≡64 get_fees 0 s + amt.
Proof.
  intros _ _ Hr Hid Hreq Hm Hcan Hw. unfold issue_asset_evaluate. cbn [ia_amount asset_id amount].
  rewrite Hr. cbn [require mbind result_bind]. rewrite Hm. cbn [throw_if mbind result_bind].
  assert (Ha : verify_authority (as_authority r) s = true).
  { unfold verify_authority, count_signatures. rewrite Hreq. apply Z.geb_le. lia. }
  rewrite Ha, Hcan. assert (Hpos : amt <=? 0 = false).
  { unfold can_issue, can_issue_shares in Hcan. destruct (negb _); [done|]. cbn in Hcan.
    by destruct (amt <=? 0). }
  rewrite Hpos. cbn [negb throw_if mbind result_bind]. unfold add_balance, accumulate. cbn [asset_id].
  rewrite Hw. cbn [mbind result_bind]. eexists. split; [reflexivity|].
  unfold get_fees. cbn -[wrap64]. rewrite lookup_insert_eq. cbn -[wrap64].
  destruct (ev_balance (es_data s) !! 0); cbn -[wrap64]; rewrite ?wrap64_eqm; apply eq_eqm64; lia.
Qed.

(** A burn of a negative amount of a user-issued asset succeeds without any
    signature: it raises the supply, past the maximum too, and credits the
    difference to the transaction. *)
Theorem negative_burn_mints s r amt :
  0 < amt < 2^62 -> cv_asset (view s) (as_id r) = Some r -> as_id r <> 0 ->
  is_market_issued r = false -> 0 <= as_current_share_supply r < 2^62 ->
  ev_deposits (es_data s) !! as_id r = None ->
  exists s' r', burn_evaluate (mk_burn (mk_asset (- amt) (as_id r)) 0 "" None) s = Ok s' /\
    cv_asset (view s') (as_id r) = Some r' /\
    as_current_share_supply r' = as_current_share_supply r + amt /\
    get_fees (as_id r) s' ≡64 get_fees (as_id r) s + amt.
Proof.
  intros Hamt Hr Hid Hm Hsup Hd. unfold burn_evaluate. cbn [bu_amount bu_message bu_account_id asset_id amount].
  rewrite (proj2 (Z.eqb_neq _ _) Hid). cbn [negb String.eqb mbind result_bind fc_assert].
  rewrite Hr. cbn [require mbind result_bind]. rewrite Hm. cbn [negb fc_assert mbind result_bind].
  unfold sub_balance, accumulate. cbn [asset_id]. rewrite Hd.
  change (negb (null_address =? null_address)) with false.
  cbn [mbind result_bind negb Z.eqb]. eexists _, _. split; [reflexivity|]. split.
  - unfold view. cbn [upd_chain es_chain].
    match goal with |- cv_asset (cs_view (cs_store_burn ?k ?v (cs_store_asset ?a ?c))) ?i = _ =>
      transitivity (cv_asset (cs_view (cs_store_asset a c)) i); [reflexivity|] end.
    rewrite asset_after_store. by rewrite decide_True.
  - split.
    + cbn -[wrap64]. rewrite Z.sub_opp_r. apply wrap64_id. unfold in_int64, INT64_MIN, INT64_MAX. lia.
    + unfold get_fees. cbn -[wrap64]. rewrite lookup_insert_eq. cbn -[wrap64].
      destruct (ev_balance (es_data s) !! as_id r); cbn -[wrap64]; rewrite ?wrap64_eqm; apply eq_eqm64; lia.
Qed.
End issue.

(** ** Yield *)

Section yield.
Context {FN : FcNum}.

Lemma seconds_per_year_val : SECONDS_PER_YEAR = 31536000.
Proof. reflexivity. Qed.

(** A factor [e / s] below one, in 128 bits. *)
Lemma fraction_le x e s :
  0 <= x < 2^80 -> 0 <= e <= s -> 0 < s < 2^30 -> 0 <= wrapu128 (x * e) / s <= x.
Proof.
  intros Hx He Hs. assert (x * e <= x * s) by nia. assert (x * s < 2^80 * 2^30) by nia.
  rewrite wrapu128_id by nia. split; [apply Z.div_pos; nia|].
  etransitivity; [apply (Z.div_le_mono _ (x * s)); lia|]. by rewrite Z.div_mul by lia.
Qed.

Lemma scale_yield_le y e :
  0 <= y < 2^75 -> 0 <= e <= SECONDS_PER_YEAR -> 0 <= scale_yield y e <= y.
Proof.
  rewrite seconds_per_year_val. intros Hy He. unfold scale_yield. rewrite seconds_per_year_val.
  assert (Hl : 0 <= wrapu128 (y * 8) / 10 <= y) by (apply fraction_le; lia).
  set (l := wrapu128 (y * 8) / 10) in *. rewrite (wrapu128_id (y - l)) by lia.
  pose proof (fraction_le l e 31536000 ltac:(lia) ltac:(lia) ltac:(lia)) as H1.
  pose proof (fraction_le (y - l) e 31536000 ltac:(lia) ltac:(lia) ltac:(lia)) as H2.
  set (d := wrapu128 ((y - l) * e) / 31536000) in *.
  pose proof (fraction_le d e 31536000 ltac:(lia) ltac:(lia) ltac:(lia)) as H3.
  rewrite wrapu128_id; lia.
Qed.

(** C40: the yield of a balance is computed without overflow for every balance,
    fee pool and supply the chain can hold, is never negative, is less than
    the pool, is at most the balance's share of the pool among the supply
    outside it, and is zero in the first 24 hours. *)
Theorem calculate_yield_fair r now amt pool supply :
  0 < amt -> 0 < pool -> amt + pool <= supply -> supply <= BTS_BLOCKCHAIN_MAX_SHARES ->
  exists y, calculate_yield r now amt pool supply = Ok y /\
    asset_id y = wc_asset_id (br_condition r) /\ 0 <= amount y < pool /\
    amount y * (supply - pool) <= amt * pool /\
    (now - br_deposit_date r <= 24 * 60 * 60 -> amount y = 0).
Proof.
  unfold BTS_BLOCKCHAIN_MAX_SHARES. intros Ha Hp Hs Hmax.
  unfold calculate_yield, yield_of_supply.
  rewrite (wrap64_id (supply - pool)) by (unfold in_int64, INT64_MIN, INT64_MAX; lia).
  set (cs := supply - pool) in *. assert (Hcs : amt <= cs <= 10^15) by lia.
  rewrite (proj2 (Z.leb_gt amt 0)), (proj2 (Z.leb_gt supply 0)), (proj2 (Z.leb_gt pool 0)) by lia.
  cbn [orb]. set (e := now - br_deposit_date r). set (none := mk_asset 0 _).
  assert (Hnone : exists y, Ok none = Ok y /\ asset_id y = wc_asset_id (br_condition r) /\
    0 <= amount y < pool /\ amount y * cs <= amt * pool /\
    (e <= 24 * 60 * 60 -> amount y = 0)) by (exists none; split_and!; unfold none; cbn [amount asset_id]; first [done|lia|nia]).
  change BTS_BLOCKCHAIN_MIN_YIELD_PERIOD_SEC with (24 * 60 * 60).
  destruct (Z.gtb_spec e (24 * 60 * 60)) as [He|He]; [|exact Hnone].
  assert (Hprod : amt * 1000000 * pool <= 10^36) by nia.
  rewrite (wrapu128_id (amt * 1000000)), (wrapu128_id (amt * 1000000 * pool)), (wrapu128_id cs) by nia.
  unfold uint128_div. rewrite (proj2 (Z.eqb_neq cs 0)) by lia. cbn [mbind result_bind].
  set (y0 := amt * 1000000 * pool / cs).
  assert (Hy0 : 0 <= y0 /\ y0 * cs <= amt * 1000000 * pool).
  { split; [apply Z.div_pos; nia|]. rewrite Z.mul_comm. apply Z.mul_div_le. lia. }
  assert (y0 <= 1000000 * pool) by nia.
  set (y := if e <? SECONDS_PER_YEAR then scale_yield y0 e else y0).
  assert (Hy : 0 <= y <= y0).
  { unfold y. destruct (Z.ltb_spec e SECONDS_PER_YEAR); [apply scale_yield_le; lia|lia]. }
  assert (Hv : 0 <= y / 1000000 /\ y / 1000000 * 1000000 <= y).
  { split; [apply Z.div_pos; lia|]. rewrite Z.mul_comm. apply Z.mul_div_le. lia. }
  rewrite uint128_to_uint64_id by lia. cbn [mbind result_bind].
  destruct ((y / 1000000 >? 0) && (y / 1000000 <? pool)) eqn:Hc; [|exact Hnone].
  apply andb_prop in Hc as [_ Hlt%Z.ltb_lt].
  eexists. split; [reflexivity|]. cbn [asset_id amount]. split_and!; [done|lia|lia|nia|lia].
Qed.
End yield.

(** A balance of 5000 held for a year in a supply of 9000 with 40 in fees. *)
Lemma calculate_yield_fair_witness :
  exists y, @calculate_yield ref_num (sample_balance condition_usd 5000) (sample_now + 31536000) 5000 40 9000 = Ok y /\
    asset_id y = 22 /\ 0 <= amount y < 40 /\ amount y * (9000 - 40) <= 5000 * 40 /\
    (sample_now + 31536000 - (sample_now - 1000) <= 24 * 60 * 60 -> amount y = 0).
Proof.
  apply (@calculate_yield_fair ref_num (sample_balance condition_usd 5000)); vm_compute;
    first [reflexivity | discriminate].
Defined.

(** ** Vesting *)

(** What has vested of [original] at [at_time]. *)
Definition vested (at_time start duration original : Z) : Z :=
  if start + duration <=? at_time then original
  else if start <? at_time then original * (at_time - start) / duration else 0.

Lemma max_claimable_vested at_time start duration original :
  0 <= start -> 0 < duration -> start + duration < 2^32 ->
  0 < original -> original * duration < 2^63 ->
  let v := vested at_time start duration original in
  0 <= v <= original /\ max_claimable at_time start duration original = Ok v.
Proof.
  intros Hs Hd Hsd Ho Hod v. unfold max_claimable. subst v. unfold vested.
  rewrite wrapu32_id, Z.geb_leb by lia.
  destruct (Z.leb_spec (start + duration) at_time); [split; [lia|done]|].
  rewrite Z.gtb_ltb. destruct (Z.ltb_spec start at_time); [|split; [lia|done]].
  set (e := at_time - start) in *. cbn zeta.
  rewrite (proj2 (Z.gtb_lt e 0)), (proj2 (Z.ltb_lt e duration)) by lia.
  cbn [andb fc_assert throw_if negb mbind result_bind].
  rewrite wrap64_id by (unfold in_int64, INT64_MIN, INT64_MAX; nia).
  rewrite Z.quot_div_nonneg by nia.
  assert (Hm : 0 <= original * e / duration < original).
  { split; [apply Z.div_pos; nia|]. apply Z.div_lt_upper_bound; nia. }
  rewrite (proj2 (Z.geb_le _ 0)), (proj2 (Z.ltb_lt _ original)) by lia. split; [lia|done].
Qed.

(** A vesting balance releases its original amount linearly over its
    duration: what is spendable is what has vested less what was claimed before,
    and more claimed than vested is an error; provided the product of the
    original balance and the duration fits in 63 bits. *)
Theorem vesting_linear balance at_time start duration original :
  0 <= start -> 0 < duration -> start + duration < 2^32 ->
  0 < original -> original * duration < 2^63 -> 0 <= balance <= original ->
  let v := vested at_time start duration original in
  0 <= v <= original /\
  vesting_spendable balance at_time start duration original =
    (if original - balance <=? v then Ok (v - (original - balance)) else Err assert_exception).
Proof.
  intros Hs Hd Hsd Ho Hod Hb v.
  destruct (max_claimable_vested at_time start duration original Hs Hd Hsd Ho Hod) as [Hv Hm].
  fold v in Hv, Hm. split; [done|]. unfold vesting_spendable. rewrite Hm. cbn [mbind result_bind].
  assert (original < 2^63) by nia.
  rewrite !(wrap64_id (original - balance)), !(wrap64_id (v - _)) by (unfold in_int64, INT64_MIN, INT64_MAX; lia).
  rewrite (proj2 (Z.geb_le (original - balance) 0)), (proj2 (Z.leb_le (original - balance) original)) by lia.
  cbn [andb fc_assert throw_if negb mbind result_bind].
  destruct (Z.leb_spec (original - balance) v).
  - rewrite (proj2 (Z.geb_le _ 0)), (proj2 (Z.leb_le _ original)) by lia. done.
  - rewrite Z.geb_leb, (proj2 (Z.leb_gt 0 _)) by lia. done.
Qed.

(** Half way through a year, nothing claimed. *)
Lemma vesting_linear_witness :
  0 <= vested 15768000 0 31536000 1000000 <= 1000000 /\
  vesting_spendable 1000000 15768000 0 31536000 1000000 =
    (if 1000000 - 1000000 <=? vested 15768000 0 31536000 1000000
     then Ok (vested 15768000 0 31536000 1000000 - (1000000 - 1000000)) else Err assert_exception).
Proof. apply (vesting_linear 1000000 15768000 0 31536000 1000000); lia. Defined.

(** A large vesting balance cannot be spent before it has vested completely:
      a hundred million BTS vesting over two years, with nothing claimed after
      two months, overflows the 64-bit product and fails an assertion, where a
      twelfth of it has vested. *)
Theorem vesting_overflow :
  vesting_spendable (10^13) (60 * 86400) 0 (2 * 365 * 86400) (10^13) = Err assert_exception /\
  vested (60 * 86400) 0 (2 * 365 * 86400) (10^13) = 821917808219.
Proof. split; reflexivity. Qed.

(** ** Examples on the sample chain *)

(** Account 1 issues 200 of asset 100. *)
Lemma issue_asset_within_maximum_witness :
  exists r', is_market_issued (sample_asset 100 "CUSTOM" 1 500 0 (mk_multisig 1 {[ address_of_key 1 ]})) = false /\
    exists s', issue_asset_evaluate (mk_issue_asset (mk_asset 200 100)) (sample_eval [1]) = Ok s' /\
      cv_asset (view s') 100 = Some r' /\
      as_current_share_supply r' = 500 + 200 /\ as_current_share_supply r' <= as_maximum_share_supply r'.
Proof.
  set (o := mk_issue_asset (mk_asset 200 100)).
  destruct (is_ok_Some (issue_asset_evaluate o (sample_eval [1]))) as [s' Hs'].
  { vm_compute. reflexivity. }
  destruct (issue_asset_within_maximum o (sample_eval [1]) s'
              (sample_asset 100 "CUSTOM" 1 500 0 (mk_multisig 1 {[ address_of_key 1 ]})))
    as (Hm & _ & _ & r' & Hr' & Hs & _ & Hle & _);
    [apply sample_pending_wf|vm_compute; split; discriminate|vm_compute; reflexivity
    |vm_compute; split; discriminate|exact Hs'|].
  exists r'. split; [exact Hm|]. exists s'. exact (conj Hs' (conj Hr' (conj Hs Hle))).
Defined.

(** Anyone issues a million base shares. *)
Lemma unsigned_issue_witness :
  exists s', issue_asset_evaluate (mk_issue_asset (mk_asset 1000000 0)) (sample_eval []) = Ok s' /\
    get_fees 0 s' ≡64 get_fees 0 (sample_eval []) + 1000000.
Proof.
  apply (unsigned_issue (sample_eval []) (sample_asset 0 "BTS" 0 5000000 0 (mk_multisig 0 ∅)) 1000000);
    vm_compute; reflexivity.
Defined.

(** Anyone mints 7000 of asset 100. *)
Lemma negative_burn_mints_witness :
  exists s' r', burn_evaluate (mk_burn (mk_asset (- 7000) 100) 0 "" None) (sample_eval []) = Ok s' /\
    cv_asset (view s') 100 = Some r' /\ as_current_share_supply r' = 500 + 7000 /\
    get_fees 100 s' ≡64 get_fees 100 (sample_eval []) + 7000.
Proof.
  apply (negative_burn_mints (sample_eval [])
           (sample_asset 100 "CUSTOM" 1 500 0 (mk_multisig 1 {[ address_of_key 1 ]})) 7000);
    vm_compute; first [reflexivity | split; reflexivity | split; [discriminate|reflexivity] | discriminate].
Defined.

Definition sample_create : operation :=
  Op_create_asset (mk_create_asset "TOKEN" "Token" "" v_null 1 1000000 100).

(** One symbol can be registered twice in a block: the pending state does not
    index the symbols of the assets it holds, so the second registration does
    not see the first and two assets share the symbol. *)
Theorem symbol_registered_twice :
  match evaluate_operations [sample_create; sample_create] (sample_eval []) with
  | Ok s => option_map as_symbol (cv_asset (view s) 101) = Some "TOKEN"%string /\
            option_map as_symbol (cv_asset (view s) 102) = Some "TOKEN"%string
  | Err _ => False
  end.
Proof. vm_compute. split; reflexivity. Qed.

(** ** Precision *)

(** The precisions asset creation accepts are the powers of ten up to
    [10^15], the maximum number of shares. *)
Theorem is_power_of_ten_spec n :
  is_power_of_ten n = true <-> exists k, 0 <= k <= 15 /\ n = 10^k.
Proof.
  unfold is_power_of_ten. rewrite existsb_exists.
  set (l := _ :: _). assert (E : l = map (fun k => 10 ^ Z.of_nat k) (seq 0 16)) by reflexivity.
  rewrite E. split.
  - intros (x & (k & <- & Hk)%in_map_iff & ->%Z.eqb_eq). apply in_seq in Hk.
    exists (Z.of_nat k). split; [lia|done].
  - intros (k & Hk & ->). exists (10^k). split; [|apply Z.eqb_refl]. apply in_map_iff.
    exists (Z.to_nat k). rewrite Z2Nat.id, in_seq by lia. split; [done|lia].
Qed.
