(* ===== verification/AccountFacts.v ===== *)
(** * AccountFacts: registration, updates and votes on the pending state *)
From S2P Require Import Prelude Config Fc Asset Records ChainInterface PendingState ChainDatabase EvalState.
From S2P Require Import AccountOps AssetOps BalanceOps MarketOps Evaluate Apply Ledger Samples.
From Stdlib Require Import String.

Section accounts.
Context {CR : Crypto} {FN : FcNum} {FR : FcReal}.
Implicit Types s : eval_state pending_chain_state.

(** ** Reading back a stored account *)

Lemma account_after_store r s s' k :
  upd_chain_r (cs_store_account r) s = Ok s' ->
  cv_account (view s') k = (if decide (k = ac_id r) then Some r else cv_account (view s) k) /\
  cv_account_by_name (view s') (ac_name r) = Some r /\ es_data s' = es_data s.
Proof.
  intros (c & (idx & _ & [= <-])%bind_Ok & [= <-])%bind_Ok. split_and!; [| |done].
  - cbn. unfold pending_get_account_record. cbn.
    case_decide as Hk; [by rewrite Hk, lookup_insert_eq|by rewrite lookup_insert_ne by done].
  - cbn. unfold pending_get_account_record_by_name, pending_get_account_record. cbn.
    by rewrite !lookup_insert_eq.
Qed.

(** ** Votes *)

(** The account with [v] votes added, in 64 bits. *)
Definition votes_added (v : Z) (o o' : option account_record) : Prop :=
  exists r d, o = Some r /\ ac_delegate_info r = Some d /\
    o' = Some (set_ac_delegate_info (Some (set_ds_votes_for (wrap64 (ds_votes_for d + v)) d)) r).

(** After the operations of a transaction, each delegate's votes have
    changed by exactly what the transaction's deposits and withdrawals voted,
    and no other account has changed. *)
Theorem update_delegate_votes_spec s s' :
  ledger_wf (es_chain s) -> update_delegate_votes s = Ok s' ->
  forall id, match ev_net_delegate_votes (es_data s) !! id with
             | Some v => votes_added v (cv_account (view s) id) (cv_account (view s') id)
             | None => cv_account (view s') id = cv_account (view s) id
             end.
Proof.
  intros Hwf He. unfold update_delegate_votes in He.
  refine (proj2 (each_pointwise (fun x => cv_account (view x)) (fun _ => votes_added)
    (fun x => ledger_wf (es_chain x)) _ _ _ _ _ Hwf He)).
  intros id v s1 s2 _ W1 (r & Hr & (r' & Hv & Hst)%bind_Ok)%bind_Ok. apply require_Ok in Hr.
  pose proof (wf_account _ _ _ W1 Hr) as Hid.
  unfold account_adjust_votes_for in Hv. apply bind_Ok in Hv as (d & Hd & [= <-]).
  apply require_Ok in Hd. split_and!.
  - apply bind_Ok in Hst as (c & Hc & [= <-]). by destruct (ledger_account _ _ _ W1 Hc).
  - exists r, d. split_and!; [done..|]. apply (account_after_store _ _ _ id) in Hst as [-> _].
    cbn [ac_id set_ac_delegate_info]. by rewrite decide_True.
  - intros k Hk. apply (account_after_store _ _ _ k) in Hst as [-> _].
    cbn [ac_id set_ac_delegate_info]. by rewrite decide_False by congruence.
Qed.

(** ** Registration *)

(** An account is registered under a valid name that was free, with keys no
    account used, signed by a parent if the name has one, and can be found by
    its name and by its new id with those keys. *)
Theorem register_account_spec o s s' :
  register_account_evaluate o s = Ok s' ->
  is_valid_account_name (ra_name o) = true /\
  cv_account_by_name (view s) (ra_name o) = None /\
  account_of_key (ra_owner_key o) s = None /\ account_of_key (ra_active_key o) s = None /\
  (is_some (get_parent_account_name (ra_name o)) = true -> any_parent_has_signed (ra_name o) s = true) /\
  exists last r', last_account_id (view s) = Ok last /\
    cv_account (view s') (wrap32 (last + 1)) = Some r' /\
    cv_account_by_name (view s') (ra_name o) = Some r' /\
    ac_name r' = ra_name o /\ ac_owner_key r' = ra_owner_key o /\ account_active_key r' = ra_active_key o.
Proof.
  intros Hev. unfold register_account_evaluate in Hev.
  apply bind_Ok in Hev as (u1 & G1 & (u2 & G2 & (u3 & G3 & (u4 & G4 & (u5 & G5 & Hev)%bind_Ok)%bind_Ok)%bind_Ok)%bind_Ok).
  apply throw_if_Ok in G1, G2, G3, G4. apply negb_false_iff in G1. cbn zeta in Hev.
  assert (Hnone : forall A (x : option A), is_some x = false -> x = None) by (by intros ? []).
  split_and!; [done|by apply Hnone..| |].
  { intros Hp. rewrite Hp in G5. apply throw_if_Ok, negb_false_iff in G5. done. }
  apply bind_Ok in Hev as ([id c] & Hn & (r1 & H1 & ([r2 s2] & H2 & Hst)%bind_Ok)%bind_Ok).
  apply bind_Ok in Hn as (last & Hlast & [= <- <-]). exists last, r2.
  unfold account_set_active_key in H1. apply bind_Ok in H1 as (_ & _ & [= <-]).
  assert (Hkey : forall now, match last_entry (<[now := ra_active_key o]> (∅ : gmap Z Z)) with
                             | Some (_, k) => k | None => null_key end = ra_active_key o).
  { intros now. rewrite last_entry_insert; [done|]. intros k0 [v0 Hv0]. by rewrite lookup_empty in Hv0. }
  assert (Hr2 : ac_id r2 = wrap32 (last + 1) /\ ac_name r2 = ra_name o /\ ac_owner_key r2 = ra_owner_key o /\
                account_active_key r2 = ra_active_key o).
  { destruct (pay_rate_is_delegate _).
    - apply bind_Ok in H2 as (r3 & H3 & (fee & _ & (s3 & _ & [= <- <-])%bind_Ok)%bind_Ok).
      unfold account_set_signing_key in H3. apply bind_Ok in H3 as (d & _ & [= <-]).
      split_and!; [done..|]. apply Hkey.
    - injection H2 as <- <-. split_and!; [done..|]. apply Hkey. }
  destruct Hr2 as (Hid & Hname & Ho & Ha).
  destruct (account_after_store _ _ _ (wrap32 (last + 1)) Hst) as (Hk & Hbn & _).
  rewrite Hid, decide_True in Hk by done. rewrite Hname in Hbn. done.
Qed.

(** ** Updates *)

(** The account's identity is the same and, if it was a delegate, it still is
    one with the same votes and pay at no higher a pay rate. *)
Definition updated (r r' : account_record) : Prop :=
  ac_id r' = ac_id r /\ ac_name r' = ac_name r /\ ac_owner_key r' = ac_owner_key r /\
  forall d, ac_delegate_info r = Some d ->
    exists d', ac_delegate_info r' = Some d' /\ ds_pay_rate d' <= ds_pay_rate d /\
      ds_pay_balance d' = ds_pay_balance d /\ ds_votes_for d' = ds_votes_for d.

Lemma updated_refl r : updated r r.
Proof. split_and!; [done..|]. intros d Hd. exists d. by split_and!. Qed.

Lemma updated_trans r1 r2 r3 : updated r1 r2 -> updated r2 r3 -> updated r1 r3.
Proof.
  intros (? & ? & ? & Ha) (? & ? & ? & Hb). split_and!; try congruence. intros d Hd.
  destruct (Ha d Hd) as (d1 & Hd1 & ? & ? & ?). destruct (Hb d1 Hd1) as (d2 & Hd2 & ? & ? & ?).
  exists d2. split_and!; [done|lia|congruence..].
Qed.

Lemma set_signing_key_updated n k r r' :
  account_set_signing_key n k r = Ok r' -> updated r r' /\ account_active_key r' = account_active_key r.
Proof.
  intros (d & Hd & [= <-])%bind_Ok. apply require_Ok in Hd. split; [|done].
  split_and!; [done..|]. intros d0 Hd0. rewrite Hd in Hd0. injection Hd0 as <-.
  eexists. split; [reflexivity|]. done.
Qed.

Lemma update_active_key_updated key r s r' :
  update_active_key key r s = Ok r' ->
  updated r r' /\ (check_signature (account_owner_address r) s = true \/
                   any_parent_has_signed (ac_name r) s = true).
Proof.
  intros (u1 & _ & (u2 & Hsig & (r1 & H1 & (u3 & _ & Hs)%bind_Ok)%bind_Ok)%bind_Ok)%bind_Ok.
  apply throw_if_Ok, andb_false_iff in Hsig. rewrite !negb_false_iff in Hsig. split; [|done].
  apply bind_Ok in H1 as (_ & _ & [= <-]). apply (updated_trans _ (set_ac_active_key_history (<[cv_now (view s) := key]> (ac_active_key_history r)) r));
    [exact (updated_refl r)|].
  destruct (_ && _); [by eapply set_signing_key_updated|injection Hs as <-; apply updated_refl].
Qed.

Lemma update_pay_rate_updated rate r s r' s' :
  update_pay_rate rate r s = Ok (r', s') ->
  updated r r' /\ account_active_key r' = account_active_key r /\ es_chain s' = es_chain s.
Proof.
  intros (u & _ & Hs)%bind_Ok. destruct (pay_rate_is_delegate rate).
  - destruct (ac_delegate_info r) as [d|] eqn:Hd.
    + apply bind_Ok in Hs as (u1 & Hle & [= <- <-]). apply fc_assert_Ok, Z.leb_le in Hle.
      split_and!; [|done..]. split_and!; [done..|]. intros d0 Hd0. rewrite Hd in Hd0. injection Hd0 as <-.
      eexists. split; [reflexivity|]. done.
    + apply bind_Ok in Hs as (r1 & H1 & (fee & _ & (s1 & Hf & [= <- <-])%bind_Ok)%bind_Ok).
      apply set_signing_key_updated in H1 as [(? & ? & ? & _) Hk].
      apply bind_Ok in Hf as (f & _ & [= <-]). split_and!; [|done..].
      split_and!; [done..|]. intros d Hd'. congruence.
  - injection Hs as <- <-. split_and!; [apply updated_refl|done..].
Qed.

(** The account or a parent signed; the owner key or a parent, if the active
    key changes. *)
Definition update_signed (r r' : account_record) s : Prop :=
  (account_active_key r' <> account_active_key r ->
    check_signature (account_owner_address r) s = true \/ any_parent_has_signed (ac_name r) s = true) /\
  (account_or_any_parent_has_signed r s = true \/ check_signature (account_owner_address r) s = true \/
   any_parent_has_signed (ac_name r) s = true).

Lemma update_key_signed o r s r1 :
  match ua_active_key o with
  | Some key =>
      if negb (key =? account_active_key r) then update_active_key key r s
      else _ ← throw_if (negb (account_or_any_parent_has_signed r s)) missing_signature; Ok r
  | None => _ ← throw_if (negb (account_or_any_parent_has_signed r s)) missing_signature; Ok r
  end = Ok r1 -> updated r r1 /\ update_signed r r1 s.
Proof.
  assert (Hsame : (_ ← throw_if (negb (account_or_any_parent_has_signed r s)) missing_signature; Ok r) = Ok r1 ->
    updated r r1 /\ update_signed r r1 s).
  { intros (u0 & Hs & [= <-])%bind_Ok. apply throw_if_Ok, negb_false_iff in Hs.
    split; [apply updated_refl|]. split; [done|by left]. }
  destruct (ua_active_key o) as [key|]; [|exact Hsame]. destruct (negb (key =? _)); [|exact Hsame].
  intros [Hu Hsig]%update_active_key_updated. split; [done|]. split; [done|by right].
Qed.

(** An update succeeds only for an account that is not retracted; it keeps
    the account's name and owner key, never turns a delegate into something
    else nor raises its pay rate, and leaves its pay and votes alone.  It needs
    the signature of the account or a parent, and of the owner key or a parent
    if the active key changes. *)
Theorem update_account_safe o s s' r :
  ledger_wf (es_chain s) -> cv_account (view s) (ua_account_id o) = Some r ->
  update_account_evaluate o s = Ok s' ->
  account_is_retracted r = false /\
  exists r', cv_account (view s') (ua_account_id o) = Some r' /\ updated r r' /\ update_signed r r' s.
Proof.
  intros Hwf Hr Hev. pose proof (wf_account _ _ _ Hwf Hr) as Hid.
  unfold update_account_evaluate in Hev. rewrite Hr in Hev.
  apply bind_Ok in Hev as (r0 & [= <-] & (u & Hret & (r1 & H1 & Hev)%bind_Ok)%bind_Ok).
  apply throw_if_Ok in Hret. split; [done|].
  apply update_key_signed in H1 as [U1 [K1 S1]].
  apply bind_Ok in Hev as ([r2 s2] & H2 & Hst). apply update_pay_rate_updated in H2 as (U2 & K2 & Ec).
  assert (U0 : updated r1 (match ua_public_data o with Some d => set_ac_public_data d r1 | None => r1 end))
    by (destruct (ua_public_data o); exact (updated_refl r1)).
  assert (K0 : account_active_key (match ua_public_data o with Some d => set_ac_public_data d r1 | None => r1 end)
               = account_active_key r1) by (by destruct (ua_public_data o)).
  set (r3 := set_ac_last_update (cv_now (view s2)) r2) in Hst.
  pose proof (updated_trans _ _ _ U1 (updated_trans _ _ _ U0 U2)) as U.
  exists r3. split_and!; [|exact U|split; [|done]]; cycle 1.
  { intros Hk. apply K1. change (account_active_key r3) with (account_active_key r2) in Hk. congruence. }
  destruct (account_after_store _ _ _ (ua_account_id o) Hst) as [-> _].
  rewrite decide_True; [done|]. change (ac_id r3) with (ac_id r2). destruct U as [-> _]. done.
Qed.
End accounts.

(** 50 votes for delegate 1. *)
Lemma update_delegate_votes_spec_witness :
  exists s', update_delegate_votes (upd_data (set_ev_net_delegate_votes {[ 1 := 50 ]}) (sample_eval [])) = Ok s' /\
    votes_added 50 (cv_account (view (sample_eval [])) 1) (cv_account (view s') 1) /\
    cv_account (view s') 2 = cv_account (view (sample_eval [])) 2.
Proof.
  set (s := upd_data (set_ev_net_delegate_votes {[ 1 := 50 ]}) (sample_eval [])).
  destruct (is_ok_Some (update_delegate_votes s)) as [s' Hs'].
  { vm_compute. reflexivity. }
  exists s'. split; [exact Hs'|].
  split; [exact (update_delegate_votes_spec s s' sample_pending_wf Hs' 1)
         |exact (update_delegate_votes_spec s s' sample_pending_wf Hs' 2)].
Defined.

(** The account "newbie" with keys 7 and 8. *)
Lemma register_account_spec_witness :
  exists s' last r',
    register_account_evaluate (mk_register_account "newbie" v_null 7 8 255 None) (sample_eval []) = Ok s' /\
    last_account_id (view (sample_eval [])) = Ok last /\
    cv_account (view s') (wrap32 (last + 1)) = Some r' /\ ac_name r' = "newbie"%string /\
    account_active_key r' = 8.
Proof.
  set (o := mk_register_account "newbie" v_null 7 8 255 None).
  destruct (is_ok_Some (register_account_evaluate o (sample_eval []))) as [s' Hs'].
  { vm_compute. reflexivity. }
  destruct (register_account_spec o (sample_eval []) s' Hs')
    as (_ & _ & _ & _ & _ & last & r' & Hl & Hr & _ & Hn & _ & Ha).
  exists s', last, r'. exact (conj Hs' (conj Hl (conj Hr (conj Hn Ha)))).
Defined.

(** Delegate 1 lowers its pay rate to 50. *)
Lemma update_account_safe_witness :
  exists s' r', update_account_evaluate (mk_update_account 1 None None 50) (sample_eval [1]) = Ok s' /\
    cv_account (view s') 1 = Some r' /\ updated (sample_account 1 "init-a" 900) r' /\
    update_signed (sample_account 1 "init-a" 900) r' (sample_eval [1]).
Proof.
  set (o := mk_update_account 1 None None 50).
  destruct (is_ok_Some (update_account_evaluate o (sample_eval [1]))) as [s' Hs'].
  { vm_compute. reflexivity. }
  destruct (update_account_safe o (sample_eval [1]) s' (sample_account 1 "init-a" 900) sample_pending_wf
              ltac:(vm_compute; reflexivity) Hs') as (_ & r' & Hr' & Hu & Hsig).
  exists s', r'. exact (conj Hs' (conj Hr' (conj Hu Hsig))).
Defined.
