(* ===== verification/MarketFacts.v ===== *)
(** * MarketFacts: orders and short positions on the pending state *)
From S2P Require Import Prelude Config Fc Asset Records ChainInterface PendingState ChainDatabase EvalState.
From S2P Require Import AccountOps AssetOps BalanceOps MarketOps Evaluate Apply Ledger Samples Conservation.
From Stdlib Require Import String.

Section orders.
Context {CR : Crypto} {FN : FcNum} {FR : FcReal}.
Implicit Types s : eval_state pending_chain_state.

(** ** The guards of an order depend on the assets and the signatures alone *)

Definition same_signatures s s' : Prop :=
  ev_signed_keys (es_data s') = ev_signed_keys (es_data s) /\ es_skip s' = es_skip s.

Lemma verify_authority_frame m s s' : same_signatures s s' -> verify_authority m s' = verify_authority m s.
Proof.
  intros [Hk Hs]. unfold verify_authority, count_signatures, check_signature. by rewrite Hk, Hs.
Qed.

Lemma check_order_assets_frame p owner b s s' :
  same_signatures s s' ->
  (forall i, cv_asset (view s') i = cv_asset (view s) i) ->
  (forall i, cv_authorization (view s') i = cv_authorization (view s) i) ->
  check_order_assets p owner b s' = check_order_assets p owner b s.
Proof.
  intros Hsig Ha Hau. unfold check_order_assets. rewrite !Ha.
  destruct (cv_asset (view s) (base_asset_id p)) as [ba|]; [|done].
  destruct (cv_asset (view s) (quote_asset_id p)) as [qa|]; [|done].
  cbn [require mbind result_bind]. rewrite !Hau, (verify_authority_frame _ _ _ Hsig).
  unfold check_signature. by destruct Hsig as [-> ->].
Qed.

Lemma bid_after_store k r (p : pending_chain_state) k' :
  cv_bid (cs_view (cs_store_bid k r p)) k' = if decide (k' = k) then Some r else cv_bid (cs_view p) k'.
Proof.
  cbn. unfold pending_get_bid_record. cbn.
  case_decide as Hk; [by rewrite Hk, lookup_insert_eq|by rewrite lookup_insert_ne by done].
Qed.

(** The balance of the bid at [k], 0 where there is none. *)
Definition bid_balance (k : market_index_key) s : Z := shares_of or_balance (cv_bid (view s) k).

Lemma bid_balance_store k r s : bid_balance k (upd_chain (cs_store_bid k r) s) = or_balance r.
Proof. unfold bid_balance, view. cbn [upd_chain es_chain]. rewrite bid_after_store. by rewrite decide_True. Qed.

(** ** Bids *)

(** What a bid that succeeded did. *)
Lemma bid_placed k amt s s1 :
  bid_evaluate (mk_bid amt k) s = Ok s1 -> 0 < amt < 2^62 -> 0 <= bid_balance k s < 2^62 ->
  let quote := quote_asset_id (mk_order_price k) in
  price_eqb (mk_order_price k) null_price = false /\
  check_order_assets (mk_order_price k) (mk_owner k) true s = Ok tt /\
  is_some (cv_asset (view s) quote) = true /\
  bid_balance k s1 = bid_balance k s + amt /\ is_some (cv_bid (view s1) k) = true /\
  get_fees quote s1 ≡64 get_fees quote s - amt /\
  same_signatures s s1 /\ ev_withdraws (es_data s1) = ev_withdraws (es_data s) /\
  (forall i, cv_asset (view s1) i = cv_asset (view s) i) /\
  (forall i, cv_authorization (view s1) i = cv_authorization (view s) i).
Proof.
  intros Hev Hamt Hold quote. unfold bid_evaluate in Hev. cbn [bo_bid_index bo_amount] in Hev.
  apply bind_Ok in Hev as (u1 & Hz & ([] & Hc & (u3 & Hval & ([r s2] & Hf & [= <-])%bind_Ok)%bind_Ok)%bind_Ok).
  apply throw_if_Ok in Hz. apply bind_Ok in Hval as (ar & Har & _). apply require_Ok in Har. cbn [asset_id] in Har. fold quote in Har.
  unfold fund_order in Hf. cbn [amount] in Hf.
  rewrite (proj2 (Z.eqb_neq amt 0)), (proj2 (Z.ltb_ge amt 0)) in Hf by lia. cbn [throw_if mbind result_bind] in Hf.
  apply bind_Ok in Hf as (s3 & Hs & [= <- <-]).
  assert (Ec := sub_balance_chain _ _ _ _ Hs).
  unfold sub_balance in Hs. apply bind_Ok in Hs as (p & _ & (d & _ & [= <-])%bind_Ok).
  split_and!; [done|done|by rewrite Har|..].
  - rewrite bid_balance_store. unfold bid_balance in *.
    change (cv_bid (view s) k) with (pending_get_bid_record (es_chain s) k) in *. cbn -[wrap64].
    destruct (pending_get_bid_record (es_chain s) k); cbn -[wrap64] in *;
      apply wrap64_id; unfold in_int64, INT64_MIN, INT64_MAX; lia.
  - unfold view. cbn [upd_chain es_chain]. rewrite bid_after_store. by rewrite decide_True.
  - unfold get_fees. cbn -[wrap64]. fold quote. rewrite lookup_insert_eq. cbn -[wrap64].
    destruct (ev_balance (es_data s) !! quote); cbn -[wrap64]; rewrite wrap64_eqm; apply eq_eqm64; lia.
  - done.
  - done.
  - done.
  - done.
Qed.

(** A bid can be cancelled: after a bid was placed, taking its amount back
    succeeds, leaves the order with the balance it had before, and returns the
    funds to the transaction. *)
Theorem bid_can_be_cancelled k amt s s1 :
  bid_evaluate (mk_bid amt k) s = Ok s1 ->
  0 < amt < 2^62 -> 0 <= bid_balance k s < 2^62 ->
  ev_withdraws (es_data s) !! quote_asset_id (mk_order_price k) = None ->
  exists s2, bid_evaluate (mk_bid (- amt) k) s1 = Ok s2 /\
    bid_balance k s2 = bid_balance k s /\
    get_fees (quote_asset_id (mk_order_price k)) s2 ≡64 get_fees (quote_asset_id (mk_order_price k)) s.
Proof.
  intros Hev Hamt Hold Hw.
  destruct (bid_placed _ _ _ _ Hev Hamt Hold)
    as (Hz & Hc & Hq & Hb1 & Hs1 & Hf1 & Hsig & Hw1 & Ha & Hau).
  unfold bid_evaluate. cbn [bo_bid_index bo_amount]. unfold zero_price_check. rewrite Hz.
  rewrite (check_order_assets_frame _ _ _ _ _ Hsig Ha Hau), Hc. unfold validate_asset. cbn [asset_id].
  rewrite Ha. destruct (cv_asset (view s) _) as [ar|]; [|done].
  cbn [throw_if require mbind result_bind]. unfold fund_order. cbn [amount].
  rewrite (proj2 (Z.eqb_neq (- amt) 0)), (proj2 (Z.ltb_lt (- amt) 0)) by lia.
  unfold bid_balance at 1 in Hb1. destruct (cv_bid (view s1) k) as [r|] eqn:Hr; [|done].
  cbn [shares_of from_option] in Hb1. cbn [throw_if require mbind result_bind].
  assert (Hl : llabs (- amt) >? or_balance r = false).
  { unfold llabs. rewrite wrap64_id by (unfold in_int64, INT64_MIN, INT64_MAX; lia). rewrite Z.gtb_ltb. apply Z.ltb_ge. lia. }
  rewrite Hl. unfold add_balance, accumulate, asset_opp. cbn [asset_id amount throw_if mbind result_bind].
  rewrite Hw1, Hw. cbn [mbind result_bind]. eexists. split; [reflexivity|]. split.
  - rewrite bid_balance_store. cbn -[wrap64 bid_balance]. rewrite Hb1.
    rewrite wrap64_id by (unfold in_int64, INT64_MIN, INT64_MAX; lia).
    lia.
  - transitivity (get_fees (quote_asset_id (mk_order_price k)) s1 + amt);
      [|rewrite Hf1; apply eq_eqm64; lia].
    unfold get_fees. cbn -[wrap64]. rewrite lookup_insert_eq. cbn -[wrap64]. rewrite Z.opp_involutive.
    destruct (ev_balance (es_data s1) !! quote_asset_id (mk_order_price k)); cbn -[wrap64];
      rewrite ?wrap64_eqm; apply eq_eqm64; lia.
Qed.
End orders.

Section covers.
Context {CR : Crypto} {FN : FcNum} {FR : FcReal}.
Implicit Types s : eval_state pending_chain_state.

Lemma asset_sub_amount l o r :
  in_int64 (amount l) -> in_int64 (amount o) -> asset_sub l o = Ok r ->
  amount r = amount l - amount o /\ in_int64 (amount r).
Proof.
  intros Hl Ho. rewrite asset_sub_exact by done. destruct (negb _); [done|].
  case_bool_decide; [|done]. by intros [= <-].
Qed.

(** The payment is split exactly, and at most the debt is paid. *)
Lemma split_payment_exact delta r age pp ip payoff :
  in_int64 (amount delta) -> 0 <= cr_payoff_balance r < 2^63 ->
  split_payment get_interest_owed get_interest_paid delta r age = Ok (pp, ip, payoff) ->
  0 <= amount pp -> 0 <= payoff ->
  amount pp + amount ip = amount delta /\ payoff = cr_payoff_balance r - amount pp.
Proof.
  intros Hd Hp Hs Hpp Hpo. unfold split_payment in Hs.
  assert (Hpr : in_int64 (cr_payoff_balance r)) by (unfold in_int64, INT64_MIN, INT64_MAX; lia).
  apply bind_Ok in Hs as (i & _ & (t & _ & Hs)%bind_Ok). destruct (asset_geb delta t).
  - apply bind_Ok in Hs as (x & Hx & [= <- <- <-]).
    apply asset_sub_amount in Hx as [Hx _]; [|done..]. cbn in *. lia.
  - apply bind_Ok in Hs as (x & Hx & (y & Hy & [= <- <- <-])%bind_Ok).
    assert (Hxr : in_int64 (amount x)).
    { apply bind_Ok in Hx as (z & _ & [= <-]). apply wrap64_range. }
    apply asset_sub_amount in Hy as [Hy Hyr]; [|done..]. split; [lia|].
    unfold in_int64, INT64_MIN, INT64_MAX in *. rewrite wrap64_id in Hpo |- *;
      unfold in_int64, INT64_MIN, INT64_MAX; lia.
Qed.

Lemma collateral_after_store k r (p : pending_chain_state) k' :
  cv_collateral (cs_view (cs_store_collateral k r p)) k' =
    if decide (k' = k) then Some r else cv_collateral (cs_view p) k'.
Proof. apply pending_collateral_after. Qed.

(** What is left of a position after [principle] of its debt was paid: nothing,
    and its collateral is in the transaction, or the same collateral for the
    rest of the debt. *)
Definition position_after (k : market_index_key) (r : collateral_record) (principle : Z) s s' : Prop :=
  let base := base_asset_id (mk_order_price k) in
  (principle = cr_payoff_balance r /\
   cv_collateral (view s') k = Some null_collateral_record /\
   (base <> quote_asset_id (mk_order_price k) ->
    get_fees base s' ≡64 get_fees base s + cr_collateral_balance r)) \/
  (principle < cr_payoff_balance r /\
   exists k', mk_owner k' = mk_owner k /\
     cv_collateral (view s') k' =
       Some (set_cr_payoff_balance (cr_payoff_balance r - principle) r)).

(** The end of a cover: the position is filed again or released. *)
Lemma finish_cover_spec o r ar s1 s' :
  let k := co_cover_index o in
  let base := base_asset_id (mk_order_price k) in
  let s3 := upd_chain (cs_store_collateral k null_collateral_record) (upd_chain (cs_store_asset ar) s1) in
  (if cr_payoff_balance r >? 0 then refile_cover o r 2 3 base s3
   else add_balance (mk_asset (cr_collateral_balance r) base) s3) = Ok s' ->
  cv_asset (view s') (as_id ar) = Some ar /\
  ((0 < cr_payoff_balance r /\ exists k', mk_owner k' = mk_owner k /\ cv_collateral (view s') k' = Some r) \/
   (cr_payoff_balance r <= 0 /\ cv_collateral (view s') k = Some null_collateral_record /\
    get_fees base s' ≡64 get_fees base s1 + cr_collateral_balance r)).
Proof.
  intros k base s3 Hev.
  assert (Ha3 : cv_asset (view s3) (as_id ar) = Some ar).
  { cbn. unfold pending_get_asset_record. cbn. by rewrite lookup_insert_eq. }
  destruct (Z.gtb_spec (cr_payoff_balance r) 0) as [Hp|Hp].
  - apply bind_Ok in Hev as (cp & _ & [= <-]). split; [exact Ha3|]. left. split; [lia|].
    eexists. split; [|unfold view; cbn [upd_chain es_chain]; rewrite collateral_after_store;
                      by apply decide_True]. done.
  - pose proof (add_balance_chain _ _ _ Hev) as Ec. unfold view. rewrite Ec. split; [exact Ha3|]. right.
    split_and!; [lia| |].
    + unfold s3. cbn [upd_chain es_chain]. rewrite collateral_after_store. by rewrite decide_True.
    + unfold add_balance in Hev. apply bind_Ok in Hev as (w & _ & [= <-]). unfold get_fees.
      cbn -[wrap64]. rewrite lookup_insert_eq. cbn -[wrap64].
      destruct (ev_balance (es_data s1) !! base); cbn -[wrap64]; rewrite ?wrap64_eqm; apply eq_eqm64; lia.
Qed.

(** C37: covering a short position under the rules in force since BTS_V0_4_23, with
    amounts in range.  The payment is split into principle and
    interest without loss; the principle leaves the asset's supply and the
    interest joins its fees; the owner must have signed; and the collateral is
    released only when the whole debt is paid, and otherwise stays in full
    behind what is left of it. *)
Theorem cover_pays_debt o s s' r :
  BTS_V0_4_23_FORK_BLOCK_NUM <= cv_head_block_num (view s) -> ledger_wf (es_chain s) ->
  in_int64 (co_amount o) -> cv_collateral (view s) (co_cover_index o) = Some r ->
  0 <= cr_payoff_balance r < 2^63 -> cover_evaluate o s = Ok s' ->
  let k := co_cover_index o in
  let quote := quote_asset_id (mk_order_price k) in
  check_signature (mk_owner k) s = true /\
  exists ar principle interest,
    0 <= principle /\ 0 <= interest /\ principle + interest = co_amount o /\
    cv_asset (view s) quote = Some ar /\
    cv_asset (view s') quote =
      Some (set_as_collected_fees (wrap64 (as_collected_fees ar + interest))
              (set_as_current_share_supply (wrap64 (as_current_share_supply ar - principle)) ar)) /\
    position_after k r principle s s'.
Proof.
  intros Hh Hwf Hco Hr Hpr Hev k quote. unfold cover_evaluate in Hev.
  rewrite (proj2 (Z.ltb_ge _ _) Hh) in Hev. unfold cover_with in Hev. fold k in Hev, Hr. fold quote in Hev.
  apply bind_Ok in Hev as ([r1 s1] & Hst & (ar & Har & ([[pp ip] payoff] & Hsp & Hev)%bind_Ok)%bind_Ok).
  apply bind_Ok in Hev as (u1 & A1 & (u2 & A2 & (u3 & A3 & (u4 & _ & Hev)%bind_Ok)%bind_Ok)%bind_Ok).
  apply fc_assert_Ok, Z.geb_le in A1, A2, A3. cbn [cr_payoff_balance set_cr_payoff_balance] in A3, Hev.
  unfold start_cover in Hst. fold k quote in Hst.
  apply bind_Ok in Hst as (v1 & _ & (v2 & _ & (v3 & _ & (v4 & Hsig & Hst)%bind_Ok)%bind_Ok)%bind_Ok).
  apply throw_if_Ok, negb_false_iff in Hsig. split; [exact Hsig|].
  apply bind_Ok in Hst as (s2 & Hs & (r2 & Hr2 & [= -> ->])%bind_Ok). apply require_Ok in Hr2, Har.
  pose proof (sub_balance_chain _ _ _ _ Hs) as Ec. unfold view in Hr2, Har. rewrite Ec in Hr2, Har.
  change (cs_view (es_chain s)) with (view s) in Hr2, Har. rewrite Hr in Hr2. injection Hr2 as <-.
  destruct (split_payment_exact (mk_asset (co_amount o) quote) r _ pp ip payoff Hco Hpr Hsp A1 A3) as [Hsum Hpo].
  pose proof (wf_asset _ _ _ Hwf Har) as Hid. exists ar, (amount pp), (amount ip).
  apply (finish_cover_spec o (set_cr_payoff_balance payoff r)) in Hev as [Has Hfin]. cbn [as_id set_as_collected_fees set_as_current_share_supply] in Has.
  rewrite Hid in Has. split_and!; [done..|].
  unfold position_after. fold k. destruct Hfin as [[Hp (k' & Ho & Hk')]|(Hp & Hk & Hf)]; cbn in Hp.
  - right. split; [lia|]. exists k'. by rewrite <- Hpo.
  - left. split_and!; [lia|done|]. intros Hne. etransitivity; [exact Hf|].
      pose proof (sub_balance_changes _ _ _ _ Hwf Hs) as [_ Ht].
      specialize (Ht (base_asset_id (mk_order_price k))). unfold total, at_asset in Ht. rewrite Ec in Ht.
      cbn [asset_id] in Ht. rewrite (proj2 (Z.eqb_neq quote _)) in Ht by (intros Heq; by apply Hne).
      assert (Hs' := eqm64_sub _ _ Ht (ledger (base_asset_id (mk_order_price k)) (es_chain s)) _ eq_refl).
      rewrite Z.add_simpl_l in Hs'.
      etransitivity; [apply eqm64_add; [exact Hs'|reflexivity]|]. apply eq_eqm64. cbn. lia.
Qed.
End covers.

(** A bid of 500 shares of asset 22. *)
Lemma bid_can_be_cancelled_witness :
  exists s1 s2, bid_evaluate (mk_bid 500 (mk_market_key (mk_price 1000 0 22) (address_of_key 3))) (sample_eval [3]) = Ok s1 /\
    bid_evaluate (mk_bid (- 500) (mk_market_key (mk_price 1000 0 22) (address_of_key 3))) s1 = Ok s2 /\
    bid_balance (mk_market_key (mk_price 1000 0 22) (address_of_key 3)) s2 = 0 /\
    get_fees 22 s2 ≡64 get_fees 22 (sample_eval [3]).
Proof.
  set (k := mk_market_key (mk_price 1000 0 22) (address_of_key 3)).
  destruct (is_ok_Some (bid_evaluate (mk_bid 500 k) (sample_eval [3]))) as [s1 Hs1].
  { vm_compute. reflexivity. }
  destruct (bid_can_be_cancelled k 500 (sample_eval [3]) s1 Hs1) as (s2 & Hs2 & Hb & Hf);
    [lia|vm_compute; split; [discriminate|reflexivity]|vm_compute; reflexivity|].
  exists s1, s2. exact (conj Hs1 (conj Hs2 (conj Hb Hf))).
Defined.

(** ** Two short positions of key 3 *)

Definition position_key (ratio : Z) : market_index_key :=
  mk_market_key (mk_price ratio 0 22) (address_of_key 3).

(** 3000 base shares behind a debt of 2000 of asset 22 at 5% a year, 1000 seconds
    old; and 90000 behind 45000. *)
Definition sample_position : collateral_record :=
  mk_collateral 3000 2000 (mk_price (5 * 10^16) 0 22) (sample_now + BTS_BLOCKCHAIN_MAX_SHORT_PERIOD_SEC - 1000).
Definition sample_position_2 : collateral_record :=
  mk_collateral 90000 45000 (mk_price (5 * 10^16) 0 22) (sample_now + BTS_BLOCKCHAIN_MAX_SHORT_PERIOD_SEC - 1000).

Definition sample_positions : eval_state pending_chain_state :=
  upd_chain (fun p => pending_store_collateral_record (position_key (5 * 10^17)) sample_position_2
              (pending_store_collateral_record (position_key (10^18)) sample_position p)) (sample_eval [3]).

Lemma sample_positions_wf : ledger_wf (es_chain sample_positions).
Proof.
  exact (proj1 (ledger_collateral _ sample_position_2 _
           (proj1 (ledger_collateral (position_key (10^18)) sample_position _ sample_pending_wf)))).
Qed.

(** Half of the first debt is paid. *)
Lemma cover_pays_debt_witness :
  exists s', cover_evaluate (mk_cover 1000 (position_key (10^18)) None) sample_positions = Ok s' /\
    check_signature (address_of_key 3) sample_positions = true /\
    exists ar principle interest,
      0 <= principle /\ 0 <= interest /\ principle + interest = 1000 /\
      cv_asset (view sample_positions) 22 = Some ar /\
      cv_asset (view s') 22 =
        Some (set_as_collected_fees (wrap64 (as_collected_fees ar + interest))
                (set_as_current_share_supply (wrap64 (as_current_share_supply ar - principle)) ar)) /\
      position_after (position_key (10^18)) sample_position principle sample_positions s'.
Proof.
  set (o := mk_cover 1000 (position_key (10^18)) None).
  destruct (is_ok_Some (cover_evaluate o sample_positions)) as [s' Hs'].
  { vm_compute. reflexivity. }
  exists s'. split; [exact Hs'|].
  exact (cover_pays_debt o sample_positions s' sample_position ltac:(vm_compute; discriminate)
           sample_positions_wf ltac:(vm_compute; split; discriminate) ltac:(vm_compute; reflexivity)
           ltac:(vm_compute; split; [discriminate|reflexivity]) Hs').
Defined.

(** A cover can destroy another position of its owner: the call price of the
    position after a partial payment is not checked against the positions the
    owner already has, and a position there is overwritten, with its collateral
    of 90000 base shares. *)
Theorem cover_overwrites_position :
  match cover_evaluate (mk_cover 1000 (position_key (10^18)) None) sample_positions with
  | Ok s' => total 0 s' = total 0 sample_positions - 90000 /\
             cv_collateral (view s') (position_key (5 * 10^17)) =
               Some (set_cr_payoff_balance 1000 sample_position)
  | Err _ => False
  end.
Proof. vm_compute. split; reflexivity. Qed.

(** A cover can exchange the asset of the collateral: the call price the
    owner proposes is only compared with the new call price, and a price in a
    market with a higher quote asset is greater whatever its base asset is, so
    the 3000 base shares behind the position become 3000 shares of asset 5. *)
Theorem cover_changes_market :
  match cover_evaluate (mk_cover 1000 (position_key (10^18)) (Some (mk_price 1 5 100))) sample_positions with
  | Ok s' => total 0 s' = total 0 sample_positions - 3000 /\
             total 5 s' = total 5 sample_positions + 3000
  | Err _ => False
  end.
Proof. vm_compute. split; reflexivity. Qed.
