(* ===== verification/Invariants.v ===== *)
(** * Invariants: what the update methods keep, every transaction keeps

    The operations reach the chain state through the update methods of
    [ChainStore] only.  So a property of the state that each update method
    preserves ([StoreInvariant]) is preserved by every transaction, over the
    database and over a pending state alike ([evaluate_keeps]). *)
From S2P Require Import Prelude Config Fc Asset Records ChainInterface EvalState.
From S2P Require Import AccountOps AssetOps BalanceOps MarketOps Evaluate.

(** A property the update methods the operations call preserve. *)
Class StoreInvariant {St : Type} `{ChainStore St} (P : St -> Prop) := {
  keep_property id v s : P s -> P (cs_set_property id v s);
  keep_asset r s : P s -> P (cs_store_asset r s);
  keep_account r s s' : cs_store_account r s = Ok s' -> P s -> P s';
  keep_balance r s : P s -> P (cs_store_balance r s);
  keep_bid k r s : P s -> P (cs_store_bid k r s);
  keep_ask k r s : P s -> P (cs_store_ask k r s);
  keep_short k r s : P s -> P (cs_store_short k r s);
  keep_collateral k r s : P s -> P (cs_store_collateral k r s);
  keep_slate id sl s : P s -> P (cs_store_slate id sl s);
  keep_market_status m s : P s -> P (cs_store_market_status m s);
  keep_feed r s : P s -> P (cs_set_feed r s);
  keep_market_dirty q b s s' : cs_set_market_dirty q b s = Ok s' -> P s -> P s';
  keep_burn k r s : P s -> P (cs_store_burn k r s)
}.

Create HintDb keep.

Section keeps.
Context {St : Type} `{!ChainStore St} `{Crypto} `{FcNum} `{FcReal} (P : St -> Prop) `{!StoreInvariant P}.
Implicit Types s : eval_state St.
Abbreviation holds s := (P (es_chain s)).

(** An update on top of a state is peeled off; a run that may throw is followed
    back through its equation. *)
#[local] Hint Extern 1 (P (es_chain (upd_chain _ _))) => cbn [upd_chain es_chain] : keep.
#[local] Hint Extern 1 (P (es_chain (upd_data _ _))) => cbn [upd_data es_chain] : keep.
#[local] Hint Extern 1 (P (cs_set_property _ _ _)) => apply keep_property : keep.
#[local] Hint Extern 1 (P (cs_store_asset _ _)) => apply keep_asset : keep.
#[local] Hint Extern 1 (P (cs_store_balance _ _)) => apply keep_balance : keep.
#[local] Hint Extern 1 (P (cs_store_bid _ _ _)) => apply keep_bid : keep.
#[local] Hint Extern 1 (P (cs_store_ask _ _ _)) => apply keep_ask : keep.
#[local] Hint Extern 1 (P (cs_store_short _ _ _)) => apply keep_short : keep.
#[local] Hint Extern 1 (P (cs_store_collateral _ _ _)) => apply keep_collateral : keep.
#[local] Hint Extern 1 (P (cs_store_slate _ _ _)) => apply keep_slate : keep.
#[local] Hint Extern 1 (P (cs_store_market_status _ _)) => apply keep_market_status : keep.
#[local] Hint Extern 1 (P (cs_set_feed _ _)) => apply keep_feed : keep.
#[local] Hint Extern 1 (P (cs_store_burn _ _ _)) => apply keep_burn : keep.

(** Inverts a run and closes the goal with the lemmas about its parts. *)
Ltac split_run :=
  repeat (inv_ok; match goal with
    | H : match ?x with _ => _ end = Ok _ |- _ => destruct x eqn:?
    | H : (_, _) = (_, _) |- _ => injection H as ??; subst
    end); inv_ok.
Ltac keep_run := intros; unfold upd_chain_r in *; split_run; cbn; eauto 12 with keep.

Lemma store_account_keeps r c c' : cs_store_account r c = Ok c' -> P c -> P c'.
Proof using StoreInvariant0. apply keep_account. Qed.
Lemma market_dirty_keeps q b c c' : cs_set_market_dirty q b c = Ok c' -> P c -> P c'.
Proof using StoreInvariant0. apply keep_market_dirty. Qed.
#[local] Hint Resolve store_account_keeps market_dirty_keeps : keep.

Lemma sub_balance_keeps i a s s' : sub_balance i a s = Ok s' -> holds s -> holds s'.
Proof. unfold sub_balance. keep_run. Qed.
Lemma add_balance_keeps a s s' : add_balance a s = Ok s' -> holds s -> holds s'.
Proof. unfold add_balance. keep_run. Qed.
Lemma require_fee_keeps a s s' : require_fee a s = Ok s' -> holds s -> holds s'.
Proof. unfold require_fee. keep_run. Qed.
Lemma adjust_vote_keeps i a s s' : adjust_vote i a s = Ok s' -> holds s -> holds s'.
Proof. unfold adjust_vote. keep_run. Qed.
Lemma new_account_id_keeps c id c' : new_account_id c = Ok (id, c') -> P c -> P c'.
Proof using StoreInvariant0. unfold new_account_id. keep_run. Qed.
Lemma new_asset_id_keeps c id c' : new_asset_id c = Ok (id, c') -> P c -> P c'.
Proof using StoreInvariant0. unfold new_asset_id. keep_run. Qed.
#[local] Hint Resolve sub_balance_keeps add_balance_keeps require_fee_keeps adjust_vote_keeps
  new_account_id_keeps new_asset_id_keeps : keep.

(** ** Accounts and assets *)

Lemma register_account_keeps o s s' : register_account_evaluate o s = Ok s' -> holds s -> holds s'.
Proof using StoreInvariant0. unfold register_account_evaluate. keep_run. Qed.
Lemma update_pay_rate_keeps z r r' s s' : update_pay_rate z r s = Ok (r', s') -> holds s -> holds s'.
Proof using StoreInvariant0. unfold update_pay_rate. keep_run. Qed.
#[local] Hint Resolve update_pay_rate_keeps : keep.
Lemma update_account_keeps o s s' : update_account_evaluate o s = Ok s' -> holds s -> holds s'.
Proof using StoreInvariant0. unfold update_account_evaluate. keep_run. Qed.
Lemma withdraw_pay_keeps o s s' : withdraw_pay_evaluate o s = Ok s' -> holds s -> holds s'.
Proof using StoreInvariant0.
  unfold withdraw_pay_evaluate. keep_run.
Qed.
Lemma update_signing_key_keeps o s s' : update_signing_key_evaluate o s = Ok s' -> holds s -> holds s'.
Proof using StoreInvariant0. unfold update_signing_key_evaluate. keep_run. Qed.
Lemma update_feed_keeps o s s' : update_feed_evaluate o s = Ok s' -> holds s -> holds s'.
Proof using StoreInvariant0. unfold update_feed_evaluate. keep_run. Qed.
Lemma create_asset_keeps o s s' : create_asset_evaluate o s = Ok s' -> holds s -> holds s'.
Proof using StoreInvariant0. unfold create_asset_evaluate. keep_run. Qed.
Lemma issue_asset_keeps o s s' : issue_asset_evaluate o s = Ok s' -> holds s -> holds s'.
Proof using StoreInvariant0. unfold issue_asset_evaluate. keep_run. Qed.
#[local] Hint Resolve register_account_keeps update_account_keeps withdraw_pay_keeps
  update_signing_key_keeps update_feed_keeps create_asset_keeps issue_asset_keeps : keep.

(** ** Balances *)

Lemma adjust_balance_vote_keeps cond a s s' : adjust_balance_vote cond a s = Ok s' -> holds s -> holds s'.
Proof. unfold adjust_balance_vote. keep_run. Qed.
Lemma pay_yield_keeps y ar r r' s s' : pay_yield y ar r s = (r', s') -> holds s -> holds s'.
Proof using StoreInvariant0. unfold pay_yield. intros. case_match; simplify_eq; cbn; eauto with keep. Qed.
#[local] Hint Resolve adjust_balance_vote_keeps pay_yield_keeps : keep.

Lemma define_slate_keeps o s s' : define_slate_evaluate o s = Ok s' -> holds s -> holds s'.
Proof using StoreInvariant0. unfold define_slate_evaluate. keep_run. Qed.
Lemma deposit_keeps_v1 o s s' : deposit_evaluate_v1 o s = Ok s' -> holds s -> holds s'.
Proof using StoreInvariant0. unfold deposit_evaluate_v1. keep_run. Qed.
#[local] Hint Resolve deposit_keeps_v1 : keep.
Lemma deposit_keeps o s s' : deposit_evaluate o s = Ok s' -> holds s -> holds s'.
Proof using StoreInvariant0. unfold deposit_evaluate. keep_run. Qed.
Lemma withdraw_keeps_v1 o s s' : withdraw_evaluate_v1 o s = Ok s' -> holds s -> holds s'.
Proof using StoreInvariant0. unfold withdraw_evaluate_v1. keep_run. Qed.
#[local] Hint Resolve withdraw_keeps_v1 : keep.
Lemma withdraw_keeps_v2 o s s' : withdraw_evaluate_v2 o s = Ok s' -> holds s -> holds s'.
Proof using StoreInvariant0. unfold withdraw_evaluate_v2. keep_run. Qed.
#[local] Hint Resolve withdraw_keeps_v2 : keep.
Lemma withdraw_keeps_v3 o s s' : withdraw_evaluate_v3 o s = Ok s' -> holds s -> holds s'.
Proof using StoreInvariant0. unfold withdraw_evaluate_v3. keep_run. Qed.
#[local] Hint Resolve withdraw_keeps_v3 : keep.
Lemma withdraw_keeps o s s' : withdraw_evaluate o s = Ok s' -> holds s -> holds s'.
Proof using StoreInvariant0. unfold withdraw_evaluate. keep_run. Qed.
Lemma burn_keeps o s s' : burn_evaluate o s = Ok s' -> holds s -> holds s'.
Proof using StoreInvariant0. unfold burn_evaluate. keep_run. Qed.
#[local] Hint Resolve define_slate_keeps deposit_keeps withdraw_keeps burn_keeps : keep.

(** ** Markets *)

Lemma fund_order_keeps x d r s s' : fund_order x d s = Ok (r, s') -> holds s -> holds s'.
Proof. unfold fund_order. keep_run. Qed.
Lemma adjust_depth_keeps p a b s s' : adjust_depth p a b s = Ok s' -> holds s -> holds s'.
Proof using StoreInvariant0. unfold adjust_depth. keep_run. Qed.
Lemma adjust_cover_depth_keeps p a s s' : adjust_cover_depth p a s = Ok s' -> holds s -> holds s'.
Proof using StoreInvariant0. unfold adjust_cover_depth. keep_run. Qed.
#[local] Hint Resolve fund_order_keeps adjust_depth_keeps adjust_cover_depth_keeps : keep.
Lemma fund_short_keeps k d r s s' : fund_short k d s = Ok (r, s') -> holds s -> holds s'.
Proof. unfold fund_short. keep_run. Qed.
#[local] Hint Resolve fund_short_keeps : keep.

Lemma bid_keeps o s s' : bid_evaluate o s = Ok s' -> holds s -> holds s'.
Proof using StoreInvariant0. unfold bid_evaluate. keep_run. Qed.
Lemma ask_keeps_v1 o s s' : ask_evaluate_v1 o s = Ok s' -> holds s -> holds s'.
Proof using StoreInvariant0. unfold ask_evaluate_v1. keep_run. Qed.
#[local] Hint Resolve ask_keeps_v1 : keep.
Lemma ask_keeps o s s' : ask_evaluate o s = Ok s' -> holds s -> holds s'.
Proof using StoreInvariant0. unfold ask_evaluate. keep_run. Qed.
Lemma short_keeps_v1 o s s' : short_evaluate_v1 o s = Ok s' -> holds s -> holds s'.
Proof using StoreInvariant0. unfold short_evaluate_v1. keep_run. Qed.
#[local] Hint Resolve short_keeps_v1 : keep.
Lemma short_keeps o s s' : short_evaluate o s = Ok s' -> holds s -> holds s'.
Proof using StoreInvariant0. unfold short_evaluate. keep_run. Qed.
Lemma short_v1_keeps_v1 o s s' : short_v1_evaluate_v1 o s = Ok s' -> holds s -> holds s'.
Proof using StoreInvariant0. unfold short_v1_evaluate_v1. keep_run. Qed.
#[local] Hint Resolve short_v1_keeps_v1 : keep.
Lemma short_v1_keeps o s s' : short_v1_evaluate o s = Ok s' -> holds s -> holds s'.
Proof using StoreInvariant0. unfold short_v1_evaluate. keep_run. Qed.
#[local] Hint Resolve bid_keeps ask_keeps short_keeps short_v1_keeps : keep.

Lemma start_cover_keeps o r s s' : start_cover o s = Ok (r, s') -> holds s -> holds s'.
Proof. unfold start_cover. keep_run. Qed.
Lemma refile_cover_keeps o r n d i s s' : refile_cover o r n d i s = Ok s' -> holds s -> holds s'.
Proof using StoreInvariant0. unfold refile_cover. keep_run. Qed.
#[local] Hint Resolve start_cover_keeps refile_cover_keeps : keep.
Lemma finish_cover_keeps o r n d i s s' : finish_cover_v1 o r n d i s = Ok s' -> holds s -> holds s'.
Proof using StoreInvariant0. unfold finish_cover_v1. keep_run. Qed.
Lemma cover_with_keeps owed paid o s s' : cover_with owed paid o s = Ok s' -> holds s -> holds s'.
Proof using StoreInvariant0. unfold cover_with. keep_run. Qed.
#[local] Hint Resolve finish_cover_keeps cover_with_keeps : keep.
Lemma cover_keeps o s s' : cover_evaluate o s = Ok s' -> holds s -> holds s'.
Proof using StoreInvariant0.
  unfold cover_evaluate, cover_evaluate_v4, cover_evaluate_v3, cover_evaluate_v2, cover_evaluate_v1.
  keep_run.
Qed.
Lemma add_collateral_core_keeps o s s' : add_collateral_core o s = Ok s' -> holds s -> holds s'.
Proof using StoreInvariant0. unfold add_collateral_core. keep_run. Qed.
#[local] Hint Resolve add_collateral_core_keeps : keep.
Lemma add_collateral_keeps o s s' : add_collateral_evaluate o s = Ok s' -> holds s -> holds s'.
Proof using StoreInvariant0. unfold add_collateral_evaluate, add_collateral_evaluate_v1. keep_run. Qed.
#[local] Hint Resolve cover_keeps add_collateral_keeps : keep.

(** ** Transactions *)

Lemma evaluate_operation_keeps o s s' : evaluate_operation o s = Ok s' -> holds s -> holds s'.
Proof using StoreInvariant0. destruct o; cbn; try discriminate; eauto with keep. Qed.

Lemma post_evaluate_keeps s s' : post_evaluate s = Ok s' -> holds s -> holds s'.
Proof using StoreInvariant0.
  unfold post_evaluate. intros Hp Hs. inv_ok.
  eapply (each_inv (fun s => holds s)); [| |exact Hp].
  { intros k v ? ? _ ? Hc. revert Hc. unfold collect_fee. keep_run. }
  eapply (each_inv (fun s => holds s)); [| |eassumption].
  { intros k v ? ? _ ? Hc. revert Hc. unfold alt_fee. keep_run. }
  cbn. eapply (each_inv (fun s => holds s)); [| |eassumption]; [|done].
  intros k v ? ? _ ? Hc. revert Hc. unfold charge_transaction_fee. keep_run.
Qed.

Lemma evaluate_keeps trx skip canon s s' : evaluate trx skip canon s = Ok s' -> holds s -> holds s'.
Proof using StoreInvariant0.
  unfold evaluate, begin_evaluate. intros He Hs. inv_ok.
  eapply (each_inv (fun s => holds s)); [| |exact He].
  { intros k v ? ? _ ? Hc. revert Hc. keep_run. }
  eapply post_evaluate_keeps; [eassumption|].
  eapply (fold_result_inv (fun s => holds s)); [| |eassumption].
  { intros ? o ? Ho Hc. cbn beta in Hc. inv_ok. unfold next_operation. cbn. eauto using evaluate_operation_keeps. }
  cbn. destruct skip; cbn in *; unfold collect_signatures in *; inv_ok; done.
Qed.
End keeps.
