(* ===== verification/Blocks.v ===== *)
(** * Blocks: blocks, slots and the shuffle of delegates (block.hpp, block.cpp,
      block_record.hpp, time.cpp, chain_database.cpp)

    The block structs, the assignment of a delegate to a ten-second slot, and
    the checks on a block that need no chain state.  [BlockHash] has what blocks
    use of fc's hash and signature code. *)
From S2P Require Import Prelude Config Fc Asset Records ChainInterface ChainDatabase.

(** ** Block data *)

Record block_header := mk_header {
  bh_previous : Z;
  bh_block_num : Z;
  bh_timestamp : Z;
  bh_transaction_digest : Z;
  bh_next_secret_hash : Z;
  bh_previous_secret : Z
}.

Record signed_block_header := mk_signed_header {
  sb_header : block_header;
  sb_delegate_signature : Z
}.

Record digest_block := mk_digest_block {
  dg_header : signed_block_header;
  dg_user_transaction_ids : list Z
}.

Record full_block := mk_block {
  fb_header : signed_block_header;
  fb_user_transactions : list signed_transaction
}.

Record block_record := mk_block_record {
  bk_digest : digest_block;
  bk_signee_shares_issued : Z;
  bk_signee_fees_collected : Z;
  bk_signee_fees_destroyed : Z;
  bk_random_seed : Z;
  bk_block_size : Z;
  bk_latency : Z;
  bk_processing_time : Z
}.

Definition set_bk_pay (issued collected destroyed : Z) (r : block_record) : block_record :=
  {| bk_digest := bk_digest r; bk_signee_shares_issued := issued;
     bk_signee_fees_collected := collected; bk_signee_fees_destroyed := destroyed;
     bk_random_seed := bk_random_seed r; bk_block_size := bk_block_size r;
     bk_latency := bk_latency r; bk_processing_time := bk_processing_time r |}.

Definition set_bk_processing_time (v : Z) (r : block_record) : block_record :=
  {| bk_digest := bk_digest r; bk_signee_shares_issued := bk_signee_shares_issued r;
     bk_signee_fees_collected := bk_signee_fees_collected r;
     bk_signee_fees_destroyed := bk_signee_fees_destroyed r;
     bk_random_seed := bk_random_seed r; bk_block_size := bk_block_size r;
     bk_latency := bk_latency r; bk_processing_time := v |}.

(** The members a block inherits from its header. *)
Definition fb_head (b : full_block) : block_header := sb_header (fb_header b).
Definition fb_block_num (b : full_block) : Z := bh_block_num (fb_head b).
Definition fb_previous (b : full_block) : Z := bh_previous (fb_head b).
Definition fb_timestamp (b : full_block) : Z := bh_timestamp (fb_head b).
Definition bk_header (r : block_record) : signed_block_header := dg_header (bk_digest r).
Definition bk_head (r : block_record) : block_header := sb_header (bk_header r).

(** [signed_block_header()] and [block_id_type()] *)
Definition null_header : signed_block_header := mk_signed_header (mk_header 0 0 0 0 0 0) 0.
Definition null_block_id : Z := 0.

(** ** Hashes of blocks *)

Class BlockHash := {
  header_digest : block_header -> Z;                 (** [block_header::digest] *)
  block_id_hash : signed_block_header -> Z;          (** [signed_block_header::id] *)
  recover_signee : Z -> Z -> bool -> result Z;       (** [ecc::public_key( sig, digest, canonical )] *)
  trx_ids_hash : list Z -> Z;                        (** [calculate_transaction_digest] *)
  packed_size : full_block -> Z;                     (** size of the packed block *)
  trx_data_size : signed_transaction -> Z;           (** [transaction::data_size] *)
  secret_hash : Z -> Z;                              (** [ripemd160::hash( secret )] *)
  next_seed_hash : Z -> Z -> Z;                      (** hash of a secret and a seed *)
  sha256_of_seed : Z -> Z;                           (** [sha256::hash( ripemd160 )] *)
  sha256_of_hash : Z -> Z                            (** [sha256::hash( sha256 )] *)
}.

Section blocks.
Context `{Crypto} `{BlockHash}.

Definition block_id (h : signed_block_header) : Z := block_id_hash h.
Definition fb_id (b : full_block) : Z := block_id (fb_header b).

(** [signed_block_header::signee] *)
Definition signee (enforce_canonical : bool) (h : signed_block_header) : result Z :=
  recover_signee (sb_delegate_signature h) (header_digest (sb_header h)) enforce_canonical.

(** [full_block::operator digest_block] *)
Definition to_digest_block (b : full_block) : digest_block :=
  mk_digest_block (fb_header b) (map trx_id (fb_user_transactions b)).

(** [digest_block::validate_digest] *)
Definition validate_digest (d : digest_block) : bool :=
  trx_ids_hash (dg_user_transaction_ids d) =? bh_transaction_digest (sb_header (dg_header d)).

(** [digest_block::validate_unique]: the loop over the ids and the set of those
    seen. *)
Fixpoint unique_ids (seen : gset Z) (ids : list Z) : bool :=
  match ids with
  | [] => true
  | id :: ids => if bool_decide (id ∈ seen) then false else unique_ids ({[ id ]} ∪ seen) ids
  end.
Definition validate_unique (d : digest_block) : bool := unique_ids ∅ (dg_user_transaction_ids d).

(** ** Slots *)

(** [get_slot_number], [get_slot_start_time] *)
Definition get_slot_number (timestamp : Z) : Z := timestamp / BTS_BLOCKCHAIN_BLOCK_INTERVAL_SEC.
Definition get_slot_start_time (slot_number : Z) : Z :=
  wrapu32 (slot_number * BTS_BLOCKCHAIN_BLOCK_INTERVAL_SEC).

(** [chain_database::get_slot_signee] *)
Definition get_slot_signee (db : chain_database) (timestamp : Z) (ordered_delegates : list Z)
    : result account_record :=
  let slot_number := get_slot_number timestamp in
  let delegate_pos := slot_number mod BTS_BLOCKCHAIN_NUM_DELEGATES in
  _ ← fc_assert (delegate_pos <? Z.of_nat (length ordered_delegates));
  delegate_id ← require (ordered_delegates !! Z.to_nat delegate_pos) assert_exception;
  delegate_record ← require (db_get_account_record db delegate_id) assert_exception;
  _ ← fc_assert (account_is_delegate delegate_record);
  Ok delegate_record.

(** [chain_database::get_delegate_record_for_signee] *)
Definition get_delegate_record_for_signee (db : chain_database) (block_signee : Z)
    : result account_record :=
  r ← require (db_get_account_record_by_address db (address_of_key block_signee)) assert_exception;
  _ ← fc_assert (account_is_delegate r);
  Ok r.

(** The loop of [get_next_producible_block_timestamp] over the slots of a round. *)
Fixpoint find_producible (slots : nat) (next_block_time : Z) (active_delegates delegate_ids : list Z)
    : result (option Z) :=
  match slots with
  | O => Ok None
  | S slots =>
      let delegate_pos := get_slot_number next_block_time mod BTS_BLOCKCHAIN_NUM_DELEGATES in
      _ ← fc_assert (delegate_pos <? Z.of_nat (length active_delegates));
      delegate_id ← require (active_delegates !! Z.to_nat delegate_pos) assert_exception;
      if existsb (Z.eqb delegate_id) delegate_ids then Ok (Some next_block_time)
      else find_producible slots (next_block_time + BTS_BLOCKCHAIN_BLOCK_INTERVAL_SEC)
             active_delegates delegate_ids
  end.

(** [chain_database::get_next_producible_block_timestamp] at the clock time
    [clock]; the loop visits one slot per delegate. *)
Definition get_next_producible_block_timestamp (db : chain_database) (clock : Z)
    (delegate_ids : list Z) : result (option Z) :=
  let start := get_slot_start_time (get_slot_number clock) in
  let next_block_time :=
    if start <=? db_now db then start + BTS_BLOCKCHAIN_BLOCK_INTERVAL_SEC else start in
  active_delegates ← get_active_delegates (db_view db);
  find_producible (Z.to_nat BTS_BLOCKCHAIN_NUM_DELEGATES) next_block_time active_delegates delegate_ids.

(** ** The shuffle of the active delegates *)

(** Word [x] of a [sha256]: [_hash[ x ]], its bytes read in memory order. *)
Definition hash_word (h x : Z) : Z := Z.land (Z.shiftr h (64 * x)) (2^64 - 1).

(** [std::swap( l[ i ], l[ j ] )] *)
Definition swap_at (i j : nat) (l : list Z) : list Z :=
  match l !! i, l !! j with
  | Some a, Some b => <[j := a]> (<[i := b]> l)
  | _, _ => l
  end.

(** The inner loop: up to four swaps with the words of the seed. *)
Fixpoint shuffle_words (xs : list Z) (seed : Z) (i : nat) (l : list Z) : nat * list Z :=
  match xs with
  | [] => (i, l)
  | x :: xs =>
      if (i <? length l)%nat
      then shuffle_words xs seed (S i)
             (swap_at i (Z.to_nat (hash_word seed x mod Z.of_nat (length l))) l)
      else (i, l)
  end.

(** The outer loop, which advances [i] once more after the inner one. *)
Fixpoint shuffle_loop (fuel : nat) (seed : Z) (i : nat) (l : list Z) : list Z :=
  match fuel with
  | O => l
  | S fuel =>
      if (i <? length l)%nat then
        let '(i', l') := shuffle_words [0; 1; 2; 3] seed i l in
        shuffle_loop fuel (sha256_of_hash seed) (S i') l'
      else l
  end.

Definition shuffle_delegates (seed : Z) (active_del : list Z) : list Z :=
  shuffle_loop (length active_del) seed 0 active_del.
End blocks.

(** ** Facts *)

Section facts.
Context `{Crypto} `{BlockHash}.

Lemma unique_ids_spec seen ids :
  unique_ids seen ids = true <-> NoDup ids /\ forall id, id ∈ ids -> id ∉ seen.
Proof.
  revert seen. induction ids as [|id ids IH]; intros seen; cbn.
  - split; [|done]. intros _. split; [constructor|]. by intros id ?%elem_of_nil.
  - case_bool_decide as Hin.
    + split; [done|]. intros [_ Hn]. destruct (Hn id); [left|done].
    + rewrite IH, NoDup_cons. set_solver.
Qed.

Lemma swap_at_perm i j l : swap_at i j l ≡ₚ l.
Proof.
  unfold swap_at. destruct (l !! i) as [a|] eqn:Hi; [|reflexivity]. destruct (l !! j) as [b|] eqn:Hj; [|reflexivity].
  by apply Permutation_insert_swap.
Qed.

Lemma shuffle_words_spec xs seed i l :
  (shuffle_words xs seed i l).2 ≡ₚ l /\ (i <= (shuffle_words xs seed i l).1)%nat.
Proof.
  revert i l. induction xs as [|x xs IH]; intros i l; cbn -[Nat.ltb]; [by split; [|lia]|].
  destruct (i <? length l)%nat; [|cbn; by split; [|lia]].
  match goal with |- context [ swap_at i ?j l ] => destruct (IH (S i) (swap_at i j l)) as [Hp Hi];
    pose proof (swap_at_perm i j l) end.
  split; [by etransitivity|lia].
Qed.

Lemma shuffle_loop_perm fuel seed i l : shuffle_loop fuel seed i l ≡ₚ l.
Proof.
  revert seed i l. induction fuel as [|fuel IH]; intros seed i l; [done|].
  cbn -[shuffle_words Nat.ltb]. destruct (i <? length l)%nat; [|done].
  destruct (shuffle_words_spec [0; 1; 2; 3] seed i l) as [Hp _].
  destruct (shuffle_words [0; 1; 2; 3] seed i l) as [i' l']. cbn in Hp.
  etransitivity; [apply IH|exact Hp].
Qed.

(** The loop ends before its fuel does. *)
Lemma shuffle_loop_fuel fuel fuel' seed i l :
  (length l <= i + fuel)%nat -> (length l <= i + fuel')%nat ->
  shuffle_loop fuel seed i l = shuffle_loop fuel' seed i l.
Proof.
  revert fuel' seed i l. induction fuel as [|fuel IH]; intros fuel' seed i l Hf Hf'.
  - destruct fuel'; [done|]. cbn -[shuffle_words Nat.ltb]. by destruct (Nat.ltb_spec i (length l)); [lia|].
  - destruct fuel' as [|fuel'].
    + cbn -[shuffle_words Nat.ltb]. by destruct (Nat.ltb_spec i (length l)); [lia|].
    + cbn -[shuffle_words Nat.ltb]. destruct (Nat.ltb_spec i (length l)); [|done].
      destruct (shuffle_words_spec [0; 1; 2; 3] seed i l) as [Hp Hi].
      destruct (shuffle_words [0; 1; 2; 3] seed i l) as [i' l']. cbn in Hp, Hi.
      apply Permutation_length in Hp. apply IH; lia.
Qed.
End facts.
