(* ===== verification/Production.v ===== *)
(** * Production: what a block does to the chain state besides its transactions
      (chain_database.cpp, chain_database_v1.cpp, chain_database_v2.cpp)

    The checks on a block's header, the production statistics of the delegates,
    the pay of the block's producer in its three versions, the random seed, the
    active delegates of the next round, the transactions and the markets.  Each
    is a function of the database before the block ([self]) and of the pending
    state that collects the block's changes. *)
From S2P Require Import Prelude Config Fc Asset Records ChainInterface PendingState ChainDatabase.
From S2P Require Import EvalState Evaluate Apply Blocks.

(** ** Delegate statistics *)

Definition set_ds_production (produced last_num : Z) (secret : option Z) (r : delegate_stats)
    : delegate_stats :=
  {| ds_votes_for := ds_votes_for r; ds_pay_rate := ds_pay_rate r;
     ds_signing_key_history := ds_signing_key_history r;
     ds_last_block_num_produced := last_num; ds_next_secret_hash := secret;
     ds_pay_balance := ds_pay_balance r; ds_total_paid := ds_total_paid r;
     ds_total_burned := ds_total_burned r; ds_blocks_produced := produced;
     ds_blocks_missed := ds_blocks_missed r |}.

Definition set_ds_blocks_missed (v : Z) (r : delegate_stats) : delegate_stats :=
  {| ds_votes_for := ds_votes_for r; ds_pay_rate := ds_pay_rate r;
     ds_signing_key_history := ds_signing_key_history r;
     ds_last_block_num_produced := ds_last_block_num_produced r;
     ds_next_secret_hash := ds_next_secret_hash r; ds_pay_balance := ds_pay_balance r;
     ds_total_paid := ds_total_paid r; ds_total_burned := ds_total_burned r;
     ds_blocks_produced := ds_blocks_produced r; ds_blocks_missed := v |}.

Definition set_ds_total_paid (v : Z) (r : delegate_stats) : delegate_stats :=
  {| ds_votes_for := ds_votes_for r; ds_pay_rate := ds_pay_rate r;
     ds_signing_key_history := ds_signing_key_history r;
     ds_last_block_num_produced := ds_last_block_num_produced r;
     ds_next_secret_hash := ds_next_secret_hash r; ds_pay_balance := ds_pay_balance r;
     ds_total_paid := v; ds_total_burned := ds_total_burned r;
     ds_blocks_produced := ds_blocks_produced r; ds_blocks_missed := ds_blocks_missed r |}.

Definition set_ds_total_burned (v : Z) (r : delegate_stats) : delegate_stats :=
  {| ds_votes_for := ds_votes_for r; ds_pay_rate := ds_pay_rate r;
     ds_signing_key_history := ds_signing_key_history r;
     ds_last_block_num_produced := ds_last_block_num_produced r;
     ds_next_secret_hash := ds_next_secret_hash r; ds_pay_balance := ds_pay_balance r;
     ds_total_paid := ds_total_paid r; ds_total_burned := v;
     ds_blocks_produced := ds_blocks_produced r; ds_blocks_missed := ds_blocks_missed r |}.

(** The three lines every version of [pay_delegate] credits the paycheck with. *)
Definition credit_paycheck (accepted_paycheck : Z) (d : delegate_stats) : delegate_stats :=
  let d := set_ds_votes_for (wrap64 (ds_votes_for d + accepted_paycheck)) d in
  let d := set_ds_pay_balance (wrap64 (ds_pay_balance d + accepted_paycheck)) d in
  set_ds_total_paid (wrap64 (ds_total_paid d + accepted_paycheck)) d.

Section production.
Context `{Crypto} `{BlockHash} `{FcNum} `{FcReal}.
Implicit Types (db : chain_database) (p : pending_chain_state).

(** ** The header *)

(** [chain_database_impl::verify_header] at the clock time [clock]. *)
Definition verify_header db (head_block_id clock : Z) (b : full_block) (block_signee : Z)
    : result unit :=
  _ ← throw_if ((fb_block_num b >? 1) && negb (fb_block_num b =? wrapu32 (db_head_block_num db + 1)))
        block_numbers_not_sequential;
  _ ← throw_if (negb (fb_previous b =? head_block_id)) invalid_previous_block_id;
  _ ← throw_if (negb (fb_timestamp b mod BTS_BLOCKCHAIN_BLOCK_INTERVAL_SEC =? 0)) invalid_block_time;
  _ ← throw_if ((fb_block_num b >? 1) && (fb_timestamp b <=? db_now db)) time_in_past;
  _ ← throw_if (fb_timestamp b >? clock + BTS_BLOCKCHAIN_BLOCK_INTERVAL_SEC * 2) time_in_future;
  let digest_data := to_digest_block b in
  _ ← throw_if (negb (validate_digest digest_data)) invalid_block_digest;
  _ ← fc_assert (validate_unique digest_data);
  active ← get_active_delegates (db_view db);
  expected_delegate ← get_slot_signee db (fb_timestamp b) active;
  expected_key ← account_signing_key expected_delegate;
  throw_if (negb (block_signee =? expected_key)) invalid_delegate_signee.

(** ** Production statistics *)

(** One missed slot. *)
Definition miss_block db (active_delegates : list Z) (block_timestamp : Z) p
    : result pending_chain_state :=
  slot_delegate ← get_slot_signee db block_timestamp active_delegates;
  let delegate_id := ac_id slot_delegate in
  delegate_record ← require (pending_get_account_record p delegate_id) assert_exception;
  d ← require (ac_delegate_info delegate_record) assert_exception;
  p ← pending_store_account_record
        (set_ac_delegate_info (Some (set_ds_blocks_missed (wrapu32 (ds_blocks_missed d + 1)) d))
           delegate_record) p;
  Ok (if db_track_stats db
      then pending_store_slot_record (mk_slot block_timestamp delegate_id None) p else p).

(** The loop over the missed slots; it adds 2 to the required confirmations per
    slot. *)
Fixpoint miss_blocks (fuel : nat) db (active_delegates : list Z) (produced_time block_timestamp : Z)
    (required_confirmations : Z) p : result (Z * pending_chain_state) :=
  match fuel with
  | O => Ok (required_confirmations, p)
  | S fuel =>
      if block_timestamp <? produced_time then
        p ← miss_block db active_delegates block_timestamp p;
        miss_blocks fuel db active_delegates produced_time
          (block_timestamp + BTS_BLOCKCHAIN_BLOCK_INTERVAL_SEC) (wrap64 (required_confirmations + 2)) p
      else Ok (required_confirmations, p)
  end.

(** More turns than the loop takes. *)
Definition missed_fuel (produced_time block_timestamp : Z) : nat :=
  Z.to_nat ((produced_time - block_timestamp) / BTS_BLOCKCHAIN_BLOCK_INTERVAL_SEC + 1).

(** The first slot that may have been missed: the one after the head block's. *)
Definition first_open_slot db (produced_time : Z) : Z :=
  if db_head_block_num db >? 0 then db_now db + BTS_BLOCKCHAIN_BLOCK_INTERVAL_SEC else produced_time.

(** The new value of the confirmation requirement. *)
Definition clamp_confirmations (required_confirmations : Z) : Z :=
  let r := wrap64 (required_confirmations - 1) in
  let r := if r <? 1 then 1 else r in
  if r >? BTS_BLOCKCHAIN_NUM_DELEGATES * 3 then 3 * BTS_BLOCKCHAIN_NUM_DELEGATES else r.

(** The signing delegate's part: the revealed secret must match, the counter goes up. *)
Definition record_produced db (b : full_block) (delegate_id : Z) p : result pending_chain_state :=
  delegate_record ← require (pending_get_account_record p delegate_id) assert_exception;
  d ← require (ac_delegate_info delegate_record) assert_exception;
  _ ← (match ds_next_secret_hash d with
       | Some h => fc_assert (secret_hash (bh_previous_secret (fb_head b)) =? h)
       | None => Ok tt
       end);
  p ← pending_store_account_record
        (set_ac_delegate_info
           (Some (set_ds_production (wrapu32 (ds_blocks_produced d + 1)) (fb_block_num b)
                    (Some (bh_next_secret_hash (fb_head b))) d)) delegate_record) p;
  Ok (if db_track_stats db
      then pending_store_slot_record (mk_slot (fb_timestamp b) delegate_id (Some (fb_id b))) p else p).

(** [chain_database_impl::update_delegate_production_info] *)
Definition update_delegate_production_info db (b : full_block) (block_signee : Z) p
    : result pending_chain_state :=
  signing_delegate ← get_delegate_record_for_signee db block_signee;
  p ← record_produced db b (ac_id signing_delegate) p;
  v ← pending_get_property p confirmation_requirement_prop;
  required_confirmations ← variant_as_int v;
  let block_timestamp := first_open_slot db (fb_timestamp b) in
  active_delegates ← get_active_delegates (db_view db);
  '(required_confirmations, p) ←
    miss_blocks (missed_fuel (fb_timestamp b) block_timestamp) db active_delegates (fb_timestamp b)
      block_timestamp required_confirmations p;
  Ok (pending_set_property confirmation_requirement_prop
        (v_int (clamp_confirmations required_confirmations)) p).

(** ** Delegate pay *)

(** The lookups the versions of [pay_delegate] share: the account of the signing
    key, as the block's changes have it, and its statistics. *)
Definition paid_delegate db (block_signee : Z) p : result (account_record * delegate_stats) :=
  signing ← require (db_get_account_record_by_address db (address_of_key block_signee)) assert_exception;
  r ← require (pending_get_account_record p (ac_id signing)) assert_exception;
  d ← require (ac_delegate_info r) assert_exception;
  _ ← fc_assert ((ds_pay_rate d >=? 0) && (ds_pay_rate d <=? 100));
  Ok (r, d).

(** The share of an amount a pay rate accepts: [(v * pay_rate_percent) / 100]. *)
Definition percent_of (v pay_rate_percent : Z) : Z := Z.quot (wrap64 (v * pay_rate_percent)) 100.

(** [chain_database_impl::pay_delegate_v1] *)
Definition pay_delegate_v1 db (record : option block_record) (block_signee : Z) p
    : result (pending_chain_state * block_record) :=
  '(r, d) ← paid_delegate db block_signee p;
  max_available_paycheck ← get_delegate_pay_rate_v1 (pending_view p);
  let accepted_paycheck := percent_of max_available_paycheck (ds_pay_rate d) in
  let burned_paycheck := wrap64 (max_available_paycheck - accepted_paycheck) in
  _ ← fc_assert (max_available_paycheck >=? accepted_paycheck);
  _ ← fc_assert (accepted_paycheck >=? 0);
  base ← require (pending_get_asset_record p 0) assert_exception;
  let base := set_as_current_share_supply (wrap64 (as_current_share_supply base - burned_paycheck)) base in
  let '(base, d) :=
    if pending_get_head_block_num p >=? BTS_V0_4_16_FORK_BLOCK_NUM
    then (set_as_collected_fees (wrap64 (as_collected_fees base - max_available_paycheck)) base,
          set_ds_total_burned (wrap64 (ds_total_burned d + burned_paycheck)) d)
    else (set_as_collected_fees (wrap64 (as_collected_fees base - accepted_paycheck)) base, d) in
  let p := pending_store_asset_record base p in
  p ← pending_store_account_record
        (set_ac_delegate_info (Some (credit_paycheck accepted_paycheck d)) r) p;
  record ← require record assert_exception;
  Ok (p, set_bk_pay 0 accepted_paycheck burned_paycheck record).

(** [chain_database_impl::pay_delegate_v2] *)
Definition pay_delegate_v2 db (record : option block_record) (block_signee : Z) p
    : result (pending_chain_state * block_record) :=
  if pending_get_head_block_num p <? BTS_V0_4_24_FORK_BLOCK_NUM
  then pay_delegate_v1 db record block_signee p
  else
    '(r, d) ← paid_delegate db block_signee p;
    let accepted_paycheck :=
      percent_of (get_max_delegate_pay_issued_per_block (db_view db)) (ds_pay_rate d) in
    _ ← fc_assert (accepted_paycheck >=? 0);
    p ← pending_store_account_record
          (set_ac_delegate_info (Some (credit_paycheck accepted_paycheck d)) r) p;
    base ← require (pending_get_asset_record p 0) assert_exception;
    let destroyed_collected_fees := as_collected_fees base in
    let base := set_as_current_share_supply (wrap64 (as_current_share_supply base + accepted_paycheck)) base in
    let base :=
      set_as_current_share_supply (wrap64 (as_current_share_supply base - destroyed_collected_fees)) base in
    let base := set_as_collected_fees 0 base in
    let p := pending_store_asset_record base p in
    record ← require record assert_exception;
    Ok (p, set_bk_pay accepted_paycheck 0 destroyed_collected_fees record).

(** [chain_database_impl::pay_delegate]: the pending state and the block's record
    with the pay noted. *)
Definition pay_delegate db (record : option block_record) (block_signee : Z) p
    : result (pending_chain_state * block_record) :=
  if pending_get_head_block_num p <? BTS_V0_4_28_FORK_BLOCK_NUM
  then pay_delegate_v2 db record block_signee p
  else
    base ← require (pending_get_asset_record p 0) assert_exception;
    '(r, d) ← paid_delegate db block_signee p;
    let max_new_shares := get_max_delegate_pay_issued_per_block (db_view db) in
    let accepted_new_shares := percent_of max_new_shares (ds_pay_rate d) in
    _ ← fc_assert ((max_new_shares >=? 0) && (accepted_new_shares >=? 0));
    let base := set_as_current_share_supply (wrap64 (as_current_share_supply base + accepted_new_shares)) base in
    let blocks_per_two_weeks := 14 * BTS_BLOCKCHAIN_BLOCKS_PER_DAY in
    let max_collected_fees := Z.quot (as_collected_fees base) blocks_per_two_weeks in
    let accepted_collected_fees := percent_of max_collected_fees (ds_pay_rate d) in
    let destroyed_collected_fees := wrap64 (max_collected_fees - accepted_collected_fees) in
    _ ← fc_assert ((max_collected_fees >=? 0) && (accepted_collected_fees >=? 0)
                   && (destroyed_collected_fees >=? 0));
    let base := set_as_collected_fees (wrap64 (as_collected_fees base - max_collected_fees)) base in
    let base :=
      set_as_current_share_supply (wrap64 (as_current_share_supply base - destroyed_collected_fees)) base in
    let accepted_paycheck := wrap64 (accepted_new_shares + accepted_collected_fees) in
    _ ← fc_assert (accepted_paycheck >=? 0);
    p ← pending_store_account_record
          (set_ac_delegate_info (Some (credit_paycheck accepted_paycheck d)) r) p;
    let p := pending_store_asset_record base p in
    record ← require record assert_exception;
    Ok (p, set_bk_pay accepted_new_shares accepted_collected_fees destroyed_collected_fees record).

(** ** Random seed and active delegates *)

(** [get_current_random_seed]: a pending state asks the database. *)
Definition get_current_random_seed db : result Z :=
  v ← db_get_property db last_random_seed_prop; variant_as_int v.

(** [chain_database_impl::update_random_seed] *)
Definition update_random_seed db (new_secret : Z) p : result pending_chain_state :=
  current_seed ← get_current_random_seed db;
  Ok (pending_set_property last_random_seed_prop (v_int (next_seed_hash new_secret current_seed)) p).

(** [chain_database_impl::update_active_delegate_list] *)
Definition update_active_delegate_list db (b : full_block) p : result pending_chain_state :=
  if negb (fb_block_num b mod BTS_BLOCKCHAIN_NUM_DELEGATES =? 0) then Ok p
  else
    let active_del := next_round_active_delegates db in
    seed ← get_current_random_seed db;
    Ok (set_active_delegates (shuffle_delegates (sha256_of_seed seed) active_del) p).

(** ** Transactions *)

(** One transaction of the block; [evaluate] works on the block's pending state. *)
Definition apply_transaction (chain_id : Z) (skip : bool) (block_num : Z)
    (acc : Z * pending_chain_state) (trx : signed_transaction) : result (Z * pending_chain_state) :=
  let '(trx_num, p) := acc in
  s ← evaluate trx skip false (new_eval p chain_id);
  p ← pending_store_transaction (trx_id trx) (mk_trx_record (es_data s) (block_num, trx_num)) (es_chain s);
  Ok (wrapu32 (trx_num + 1), p).

(** [chain_database_impl::apply_transactions] *)
Definition apply_transactions db (skip : bool) (b : full_block) p : result pending_chain_state :=
  '(_, p) ← fold_result (apply_transaction (db_chain_id db) skip (fb_block_num b)) (0, p)
              (fb_user_transactions b);
  Ok p.
End production.
