(* ===== verification/ProductionFacts.v ===== *)
(** * ProductionFacts: headers, production statistics, pay and the shuffle

    What a block does besides its transactions.  A header is accepted exactly
    when it extends the head in time, in its slot and by its delegate.  Every
    open slot between the head and the block is counted against the delegate it
    belongs to.  The producer's pay is accounted for share by share.  The next
    round's delegates are a permutation of the elected ones. *)
From S2P Require Import Prelude Config Fc Asset Records ChainInterface PendingState ChainDatabase Ledger.
From S2P Require Import Apply Blocks Production.

Section pay.
Context `{Crypto} `{BlockHash}.
Implicit Types (db : chain_database) (p : pending_chain_state).

(** ** Pay *)

(** A delegate's record with the pay balance raised by [x]. *)
Lemma credit_ledger r d d' x p p1 :
  ledger_wf p -> pending_get_account_record p (ac_id r) = Some r -> ac_delegate_info r = Some d ->
  ds_pay_balance d' = wrap64 (ds_pay_balance d + x) ->
  pending_store_account_record (set_ac_delegate_info (Some d') r) p = Ok p1 ->
  ledger_wf p1 /\ (forall id, ledger id p1 ≡64 ledger id p + (if id =? 0 then x else 0)) /\
  (forall k, pending_get_asset_record p1 k = pending_get_asset_record p k) /\
  pending_get_account_record p1 (ac_id r) = Some (set_ac_delegate_info (Some d') r).
Proof.
  intros Hwf Hr Hd Hd' Hst. destruct (pending_ledger_account _ _ _ Hwf Hst) as [Hwf1 Hl].
  split_and!; [done| | |].
  - intros id. cbn [ledger pending_ledger_store]. rewrite Hl. cbn [set_ac_delegate_info ac_id].
    rewrite Hr. unfold shares_of, account_shares, pay_shares. cbn. rewrite Hd, Hd'.
    destruct (id =? 0); [rewrite wrap64_eqm|]; apply eq_eqm64; lia.
  - apply bind_Ok in Hst as (idx & _ & [= <-]). done.
  - apply bind_Ok in Hst as (idx & _ & [= <-]). unfold pending_get_account_record. cbn.
    by rewrite lookup_insert_eq.
Qed.

(** The base asset's record replaced. *)
Lemma base_ledger base base' p :
  ledger_wf p -> pending_get_asset_record p 0 = Some base -> as_id base' = as_id base ->
  ledger_wf (pending_store_asset_record base' p) /\
  (forall id, ledger id (pending_store_asset_record base' p) = ledger id p +
     if id =? 0 then as_collected_fees base' - as_current_share_supply base'
                     - (as_collected_fees base - as_current_share_supply base) else 0) /\
  pending_get_asset_record (pending_store_asset_record base' p) 0 = Some base' /\
  (forall k, pending_get_account_record (pending_store_asset_record base' p) k
             = pending_get_account_record p k).
Proof.
  intros Hwf Hb Hid. pose proof (pending_wf_asset _ _ _ Hwf Hb) as Hb0. rewrite Hb0 in Hid.
  destruct (pending_ledger_asset base' p Hwf) as [Hwf1 Hl]. split_and!; [done| | |done].
  - intros id. cbn [ledger pending_ledger_store]. rewrite Hl, Hid, Hb. cbn.
    unfold asset_shares. rewrite Hid, Hb0, (Z.eqb_sym 0 id). destruct (id =? 0); lia.
  - unfold pending_get_asset_record, pending_store_asset_record. cbn.
    by rewrite Hid, lookup_insert_eq.
Qed.

Lemma paid_delegate_Ok db signee p r d :
  ledger_wf p -> paid_delegate db signee p = Ok (r, d) ->
  (exists signing, db_get_account_record_by_address db (address_of_key signee) = Some signing /\
     ac_id signing = ac_id r) /\
  pending_get_account_record p (ac_id r) = Some r /\ ac_delegate_info r = Some d.
Proof.
  intros Hwf Hp. unfold paid_delegate in Hp. inv_ok. simplify_eq.
  match goal with Hr : pending_get_account_record p _ = Some ?r |- _ =>
    pose proof (pending_wf_account _ _ _ Hwf Hr) as Hid; rewrite Hid end.
  eauto.
Qed.

(** The base asset and the delegate's record replaced, in either order. *)
Lemma pay_ledger base base' r d d' x p p' :
  ledger_wf p -> pending_get_asset_record p 0 = Some base -> as_id base' = as_id base ->
  pending_get_account_record p (ac_id r) = Some r -> ac_delegate_info r = Some d ->
  ds_pay_balance d' = wrap64 (ds_pay_balance d + x) ->
  pending_store_account_record (set_ac_delegate_info (Some d') r)
    (pending_store_asset_record base' p) = Ok p' \/
  (exists p1, pending_store_account_record (set_ac_delegate_info (Some d') r) p = Ok p1 /\
              p' = pending_store_asset_record base' p1) ->
  ledger_wf p' /\ pending_get_asset_record p' 0 = Some base' /\
  pending_get_account_record p' (ac_id r) = Some (set_ac_delegate_info (Some d') r) /\
  forall id, ledger id p' ≡64 ledger id p +
    if id =? 0 then as_collected_fees base' - as_current_share_supply base'
                    - (as_collected_fees base - as_current_share_supply base) + x else 0.
Proof.
  intros Hwf Hb Hid Hr Hi Hd' [Hst|(p1 & Hst & ->)].
  - destruct (base_ledger base base' p Hwf Hb Hid) as (W1 & L1 & G1 & A1).
    destruct (credit_ledger r d d' x _ _ W1 ltac:(by rewrite A1) Hi Hd' Hst) as (W2 & L2 & G2 & A2).
    split_and!; [done|by rewrite G2|done|]. intros id. rewrite L2, L1. apply eq_eqm64.
    destruct (id =? 0); lia.
  - destruct (credit_ledger r d d' x _ _ Hwf Hr Hi Hd' Hst) as (W1 & L1 & G1 & A1).
    destruct (base_ledger base base' p1 W1 ltac:(by rewrite G1) Hid) as (W2 & L2 & G2 & A2).
    split_and!; [done|done|by rewrite A2|]. intros id. rewrite L2, L1. apply eq_eqm64. destruct (id =? 0); lia.
Qed.

(** What a payment leaves behind. *)
Definition pay_effect db (block_signee : Z) p p' (r' : block_record) : Prop :=
  ledger_wf p' /\
  (forall id, ledger id p' ≡64 ledger id p +
     (if (id =? 0) && (pending_get_head_block_num p <? BTS_V0_4_16_FORK_BLOCK_NUM)
      then bk_signee_fees_destroyed r' else 0)) /\
  (exists signing r d d',
    db_get_account_record_by_address db (address_of_key block_signee) = Some signing /\
    pending_get_account_record p (ac_id signing) = Some r /\ ac_delegate_info r = Some d /\
    pending_get_account_record p' (ac_id signing) = Some (set_ac_delegate_info (Some d') r) /\
    ds_pay_balance d' ≡64
      ds_pay_balance d + bk_signee_shares_issued r' + bk_signee_fees_collected r') /\
  exists base base', pending_get_asset_record p 0 = Some base /\
    pending_get_asset_record p' 0 = Some base' /\
    as_current_share_supply base' ≡64
      as_current_share_supply base + bk_signee_shares_issued r' - bk_signee_fees_destroyed r'.

(** From the replaced records to the effect: an equation on the amounts. *)
Lemma pay_effect_intro db signee base base' r d d' x r' p p' :
  ledger_wf p -> paid_delegate db signee p = Ok (r, d) ->
  pending_get_asset_record p 0 = Some base -> as_id base' = as_id base ->
  ds_pay_balance d' = wrap64 (ds_pay_balance d + x) ->
  pending_store_account_record (set_ac_delegate_info (Some d') r)
    (pending_store_asset_record base' p) = Ok p' \/
  (exists p1, pending_store_account_record (set_ac_delegate_info (Some d') r) p = Ok p1 /\
              p' = pending_store_asset_record base' p1) ->
  as_current_share_supply base' ≡64
    as_current_share_supply base + bk_signee_shares_issued r' - bk_signee_fees_destroyed r' ->
  as_collected_fees base' + x ≡64 as_collected_fees base + bk_signee_shares_issued r'
    - (if pending_get_head_block_num p <? BTS_V0_4_16_FORK_BLOCK_NUM then 0
       else bk_signee_fees_destroyed r') ->
  x ≡64 bk_signee_shares_issued r' + bk_signee_fees_collected r' ->
  pay_effect db signee p p' r'.
Proof.
  intros Hwf Hp Hb Hid Hd' Hst Hs Hf Hx.
  destruct (paid_delegate_Ok _ _ _ _ _ Hwf Hp) as ((signing & Hsig & Hsid) & Hr & Hi).
  destruct (pay_ledger base base' r d d' x p p' Hwf Hb Hid Hr Hi Hd' Hst) as (W & G & A & L).
  split_and!; [done| | |eauto].
  2: { exists signing, r, d, d'. rewrite Hsid. split_and!; try done.
       rewrite Hd', wrap64_eqm, Hx. apply eq_eqm64. lia. }
  intros id. rewrite L. destruct (id =? 0); cbn; [|done].
  apply eqm64_add; [done|]. rewrite Hs.
  transitivity (as_collected_fees base' + x - (as_collected_fees base + bk_signee_shares_issued r'
                 - bk_signee_fees_destroyed r')); [apply eq_eqm64; lia|].
  rewrite Hf. apply eq_eqm64. destruct (_ <? _); lia.
Qed.

Lemma pay_delegate_v1_effect db record signee p p' r' :
  ledger_wf p -> pay_delegate_v1 db record signee p = Ok (p', r') -> pay_effect db signee p p' r'.
Proof.
  intros Hwf Hpay. unfold pay_delegate_v1 in Hpay.
  apply bind_Ok in Hpay as ([r d] & Hd & Hpay).
  apply bind_Ok in Hpay as (mx & Hmx & Hpay). cbv zeta in Hpay.
  do 2 (apply bind_Ok in Hpay as ([] & _ & Hpay)).
  apply bind_Ok in Hpay as (base & Hb & Hpay). apply require_Ok in Hb.
  set (acc := percent_of mx (ds_pay_rate d)) in *. rewrite Z.geb_leb in Hpay.
  destruct (Z.leb_spec BTS_V0_4_16_FORK_BLOCK_NUM (pending_get_head_block_num p)) as [Hh|Hh];
    apply bind_Ok in Hpay as (p1 & Hst & (rec & Hrec & [= <- <-])%bind_Ok);
    (eapply (pay_effect_intro db signee base _ r d _ acc _ p p1 Hwf Hd Hb);
      [| |left; exact Hst| | |]; [reflexivity|reflexivity| | |done]); cbn -[BTS_V0_4_16_FORK_BLOCK_NUM].
  - rewrite wrap64_eqm. apply eq_eqm64. lia.
  - destruct (Z.ltb_spec (pending_get_head_block_num p) BTS_V0_4_16_FORK_BLOCK_NUM); [lia|].
    rewrite !wrap64_eqm. apply eq_eqm64. lia.
  - rewrite wrap64_eqm. apply eq_eqm64. lia.
  - destruct (Z.ltb_spec (pending_get_head_block_num p) BTS_V0_4_16_FORK_BLOCK_NUM); [|lia].
    rewrite wrap64_eqm. apply eq_eqm64. lia.
Qed.

Lemma pay_delegate_v2_effect db record signee p p' r' :
  ledger_wf p -> pay_delegate_v2 db record signee p = Ok (p', r') -> pay_effect db signee p p' r'.
Proof.
  intros Hwf. unfold pay_delegate_v2.
  destruct (Z.ltb_spec (pending_get_head_block_num p) BTS_V0_4_24_FORK_BLOCK_NUM) as [Hh|Hh];
    [apply pay_delegate_v1_effect; done|]. intros Hpay.
  apply bind_Ok in Hpay as ([r d] & Hd & Hpay).
  cbv zeta in Hpay. set (acc := percent_of _ (ds_pay_rate d)) in *.
  apply bind_Ok in Hpay as ([] & _ & Hpay). apply bind_Ok in Hpay as (p1 & Hst & Hpay).
  apply bind_Ok in Hpay as (base & Hb & (rec & Hrec & [= <- <-])%bind_Ok). apply require_Ok in Hb.
  assert (Hb0 : pending_get_asset_record p 0 = Some base).
  { rewrite <- Hb. by apply bind_Ok in Hst as (idx & _ & [= <-]). }
  eapply (pay_effect_intro db signee base _ r d _ acc _ p _ Hwf Hd Hb0);
    [| |right; eauto| | |]; [reflexivity|reflexivity| | |]; cbn.
  - rewrite !wrap64_eqm. apply eq_eqm64. lia.
  - destruct (Z.ltb_spec (pending_get_head_block_num p) BTS_V0_4_16_FORK_BLOCK_NUM);
      [unfold BTS_V0_4_16_FORK_BLOCK_NUM, BTS_V0_4_24_FORK_BLOCK_NUM in *; lia|].
    apply eq_eqm64. lia.
  - apply eq_eqm64. lia.
Qed.

(** C32: whatever the version in force, paying the producer of a block keeps the
    books: the supply of the base asset changes by exactly the shares issued
    less the fees destroyed that the block's record notes, and what the chain
    holds of every asset less its supply is unchanged modulo 2^64, except that
    before BTS_V0_4_16 the destroyed fees were left in the collected fees as
    well; the account of the block's signing key is paid the shares issued and
    the fees collected. *)
Theorem pay_delegate_accounts db record signee p p' r' :
  ledger_wf p -> pay_delegate db record signee p = Ok (p', r') -> pay_effect db signee p p' r'.
Proof.
  intros Hwf. unfold pay_delegate.
  destruct (Z.ltb_spec (pending_get_head_block_num p) BTS_V0_4_28_FORK_BLOCK_NUM) as [Hh|Hh];
    [apply pay_delegate_v2_effect; done|]. intros Hpay.
  apply bind_Ok in Hpay as (base & Hb & Hpay). apply require_Ok in Hb.
  apply bind_Ok in Hpay as ([r d] & Hd & Hpay).
  cbv zeta in Hpay. do 3 (apply bind_Ok in Hpay as ([] & _ & Hpay)).
  apply bind_Ok in Hpay as (p1 & Hst & (rec & Hrec & [= <- <-])%bind_Ok).
  eapply (pay_effect_intro db signee base _ r d _ _ _ p _ Hwf Hd Hb);
    [| |right; eauto| | |]; [reflexivity|reflexivity| | |]; cbn -[BTS_BLOCKCHAIN_BLOCKS_PER_DAY Z.mul percent_of].
  - rewrite !wrap64_eqm. apply eq_eqm64. lia.
  - destruct (Z.ltb_spec (pending_get_head_block_num p) BTS_V0_4_16_FORK_BLOCK_NUM);
      [unfold BTS_V0_4_16_FORK_BLOCK_NUM, BTS_V0_4_28_FORK_BLOCK_NUM in *; lia|].
    rewrite !wrap64_eqm. apply eq_eqm64. lia.
  - rewrite wrap64_eqm. apply eq_eqm64. lia.
Qed.
End pay.

Section schedule.
Context `{Crypto} `{BlockHash}.
Implicit Types (db : chain_database) (p : pending_chain_state).

(** ** Slots *)

(** The delegate a slot belongs to. *)
Definition scheduled_delegate db (timestamp : Z) (r : account_record) : Prop :=
  exists active id, get_active_delegates (db_view db) = Ok active /\
    active !! Z.to_nat (get_slot_number timestamp mod BTS_BLOCKCHAIN_NUM_DELEGATES) = Some id /\
    db_accounts db !! id = Some r /\ account_is_delegate r = true.

Lemma get_slot_signee_Ok db t active r :
  get_slot_signee db t active = Ok r <->
  exists id, active !! Z.to_nat (get_slot_number t mod BTS_BLOCKCHAIN_NUM_DELEGATES) = Some id /\
    db_accounts db !! id = Some r /\ account_is_delegate r = true.
Proof.
  unfold get_slot_signee. split.
  - intros Hs. inv_ok. eauto.
  - intros (id & Hl & Hr & Hd). pose proof (lookup_lt_Some _ _ _ Hl) as Hlen.
    pose proof (Z.mod_pos_bound (get_slot_number t) BTS_BLOCKCHAIN_NUM_DELEGATES eq_refl) as Hpos.
    rewrite (proj2 (Z.ltb_lt _ _)) by lia. cbn. rewrite Hl. cbn. unfold db_get_account_record.
    rewrite Hr. cbn. by rewrite Hd.
Qed.

(** C9: a block's header is accepted exactly when the block extends the head:
    its previous id is the head's, its number follows the head's and its
    timestamp is after the head's (unless it is numbered 0 or 1), a multiple of
    the block interval and at most two intervals ahead of the clock, its transactions are those its
    digest names and pairwise distinct, and its signing key is that of the
    delegate its slot belongs to. *)
Theorem verify_header_spec db head_block_id clock b signee :
  verify_header db head_block_id clock b signee = Ok tt <->
  (1 < fb_block_num b -> fb_block_num b = wrapu32 (db_head_block_num db + 1)) /\
  fb_previous b = head_block_id /\
  fb_timestamp b mod BTS_BLOCKCHAIN_BLOCK_INTERVAL_SEC = 0 /\
  (1 < fb_block_num b -> db_now db < fb_timestamp b) /\
  fb_timestamp b <= clock + 2 * BTS_BLOCKCHAIN_BLOCK_INTERVAL_SEC /\
  trx_ids_hash (map trx_id (fb_user_transactions b)) = bh_transaction_digest (fb_head b) /\
  NoDup (map trx_id (fb_user_transactions b)) /\
  exists r, scheduled_delegate db (fb_timestamp b) r /\ account_signing_key r = Ok signee.
Proof.
  unfold verify_header. cbv zeta.
  rewrite !bind_throw_if, bind_fc_assert, !andb_false_iff, !negb_false_iff.
  rewrite !Z.gtb_ltb, !Z.ltb_nlt, !Z.eqb_eq, Z.leb_nle. unfold validate_unique.
  rewrite unique_ids_spec. unfold validate_digest. cbn [dg_user_transaction_ids to_digest_block dg_header].
  rewrite Z.eqb_eq.
  assert (Hs : (active ← get_active_delegates (db_view db);
                expected_delegate ← get_slot_signee db (fb_timestamp b) active;
                expected_key ← account_signing_key expected_delegate;
                throw_if (negb (signee =? expected_key)) invalid_delegate_signee) = Ok tt <->
               exists r, scheduled_delegate db (fb_timestamp b) r /\ account_signing_key r = Ok signee).
  { unfold scheduled_delegate. split.
    - intros (active & Ha & (r & Hr & (key & Hk & Ht)%bind_Ok)%bind_Ok)%bind_Ok.
      apply throw_if_Ok, negb_false_iff, Z.eqb_eq in Ht as <-.
      apply get_slot_signee_Ok in Hr as (id & ?). eauto 10.
    - intros (r & (active & id & Ha & Hr) & Hk). rewrite Ha. cbn.
      rewrite (proj2 (get_slot_signee_Ok db (fb_timestamp b) active r)) by eauto. cbn.
      rewrite Hk. cbn. by rewrite Z.eqb_refl. }
  rewrite Hs. clear Hs.
  split.
  - intros (H1 & H2 & H3 & H4 & H5 & H6 & [H7 _] & H8). split_and!; try done; lia.
  - intros (H1 & H2 & H3 & H4 & H5 & H6 & H7 & H8). split_and!; try done; lia.
Qed.

(** ** The next round *)

(** Every 101st block makes the delegates elected at that time the active
    delegates of the next round: each once, in an order the chain's random seed
    gives; any other block leaves the list alone.  Nothing else of the pending
    state changes. *)
Theorem active_delegates_are_the_elected db b p p' :
  update_active_delegate_list db b p = Ok p' ->
  if fb_block_num b mod BTS_BLOCKCHAIN_NUM_DELEGATES =? 0
  then exists active, pending_get_property p' active_delegate_list_prop = Ok (v_ids active) /\
         active ≡ₚ next_round_active_delegates db /\
         p' = pending_set_property active_delegate_list_prop (v_ids active) p
  else p' = p.
Proof.
  unfold update_active_delegate_list. destruct (_ mod _ =? 0); cbn; [|by intros [= <-]].
  intros (seed & _ & [= <-])%bind_Ok. eexists. split_and!; [|apply shuffle_loop_perm|reflexivity].
  unfold pending_get_property. cbn. by rewrite lookup_insert_eq.
Qed.

(** ** Production statistics *)

Definition stat (f : delegate_stats -> Z) p (id : Z) : Z :=
  from_option f 0 (pending_get_account_record p id ≫= ac_delegate_info).

Lemma account_after r p p' k :
  pending_store_account_record r p = Ok p' ->
  pending_get_account_record p' k = if decide (k = ac_id r) then Some r else pending_get_account_record p k.
Proof.
  intros (idx & _ & [= <-])%bind_Ok. unfold pending_get_account_record. cbn.
  case_decide as Hk; [by rewrite Hk, lookup_insert_eq|by rewrite lookup_insert_ne by done].
Qed.

(** One delegate's statistics replaced. *)
Lemma stat_after f r d d' p p' id :
  pending_get_account_record p (ac_id r) = Some r -> ac_delegate_info r = Some d ->
  pending_store_account_record (set_ac_delegate_info (Some d') r) p = Ok p' ->
  stat f p' id = if decide (id = ac_id r) then f d' else stat f p id.
Proof.
  intros Hr Hd Hst. unfold stat. rewrite (account_after _ _ _ id Hst). cbn.
  by case_decide.
Qed.
Lemma stat_at f r d p :
  pending_get_account_record p (ac_id r) = Some r -> ac_delegate_info r = Some d ->
  stat f p (ac_id r) = f d.
Proof. intros Hr Hd. unfold stat. rewrite Hr. cbn. by rewrite Hd. Qed.

(** The timestamps of the slots from [t] on, before [until]. *)
Definition slots_between (t until : Z) : list Z :=
  (fun i => t + BTS_BLOCKCHAIN_BLOCK_INTERVAL_SEC * i)
    <$> seqZ 0 ((until - t + (BTS_BLOCKCHAIN_BLOCK_INTERVAL_SEC - 1)) / BTS_BLOCKCHAIN_BLOCK_INTERVAL_SEC).

(** The owner of a slot. *)
Definition slot_owner db (active : list Z) (t : Z) : option Z :=
  match get_slot_signee db t active with Ok r => Some (ac_id r) | Err _ => None end.

Lemma slots_between_nil t until : until <= t -> slots_between t until = [].
Proof.
  intros Ht. unfold slots_between. rewrite seqZ_nil; [done|].
  unfold BTS_BLOCKCHAIN_BLOCK_INTERVAL_SEC. pose proof (Z.div_lt_upper_bound (until - t + (10 - 1)) 10 1). lia.
Qed.
Lemma slots_between_cons t until :
  t < until -> slots_between t until = t :: slots_between (t + BTS_BLOCKCHAIN_BLOCK_INTERVAL_SEC) until.
Proof.
  unfold slots_between, BTS_BLOCKCHAIN_BLOCK_INTERVAL_SEC. intros Ht.
  replace (until - t + (10 - 1)) with (until - (t + 10) + (10 - 1) + 1 * 10) by lia.
  rewrite Z.div_add by lia.
  assert (0 <= (until - (t + 10) + (10 - 1)) / 10) by (apply Z.div_pos; lia).
  rewrite seqZ_cons by lia. cbn [fmap list_fmap]. rewrite Z.pred_succ || rewrite Z.add_1_r, Z.pred_succ.
  f_equal; [lia|]. rewrite <- (fmap_add_seqZ 1 0), <- list_fmap_compose.
  apply list_fmap_ext. intros i x _. cbn. lia.
Qed.

Definition slots_owned db (active : list Z) (id : Z) (slots : list Z) : Z :=
  Z.of_nat (List.length (filter (fun t => slot_owner db active t = Some id) slots)).

Lemma slots_owned_cons db active id t slots :
  slots_owned db active id (t :: slots) =
  (if decide (slot_owner db active t = Some id) then 1 else 0) + slots_owned db active id slots.
Proof. unfold slots_owned. rewrite filter_cons. case_decide; cbn [List.length]; lia. Qed.

Lemma miss_block_stat db active t p p' :
  ledger_wf p -> miss_block db active t p = Ok p' ->
  ledger_wf p' /\ (forall id, stat ds_blocks_produced p' id = stat ds_blocks_produced p id) /\
  (forall k, pending_get_property p' k = pending_get_property p k) /\
  forall id, stat ds_blocks_missed p' id mod 2^32 =
    (stat ds_blocks_missed p id + (if decide (slot_owner db active t = Some id) then 1 else 0)) mod 2^32.
Proof.
  intros Hwf (slot & Hslot & Hm)%bind_Ok. cbv zeta in Hm.
  apply bind_Ok in Hm as (r & Hr & Hm). apply bind_Ok in Hm as (d & Hd & Hm).
  apply require_Ok in Hr, Hd. pose proof (pending_wf_account _ _ _ Hwf Hr) as Hid. rewrite <- Hid in Hr.
  apply bind_Ok in Hm as (p1 & Hst & [= <-]).
  destruct (pending_ledger_account _ _ _ Hwf Hst) as [Hwf1 _].
  set (p2 := if db_track_stats db then _ else _).
  assert (Hp2 : ledger_wf p2 /\ (forall k, pending_get_account_record p2 k = pending_get_account_record p1 k) /\
                forall k, pending_get_property p2 k = pending_get_property p1 k).
  { unfold p2. destruct (db_track_stats db); [|done]. split; [|done].
    apply (pending_wf_step _ _ Hwf1); [by econstructor|done]. }
  destruct Hp2 as (Hwf2 & Ha & Hprop).
  assert (Hs2 : forall f id, stat f p2 id = stat f p1 id) by (intros f id; unfold stat; by rewrite Ha).
  split_and!; [done| | |].
  - intros id. rewrite Hs2, (stat_after _ _ _ _ _ _ id Hr Hd Hst).
    case_decide; [subst; by rewrite (stat_at _ _ _ _ Hr Hd)|done].
  - intros k. rewrite Hprop. by apply bind_Ok in Hst as (idx & _ & [= <-]).
  - intros id. rewrite Hs2, (stat_after _ _ _ _ _ _ id Hr Hd Hst).
    unfold slot_owner. rewrite Hslot, <- Hid. case_decide as Hi.
    + subst id. rewrite decide_True by done. rewrite (stat_at _ _ _ _ Hr Hd). cbn.
      unfold wrapu32. by rewrite Z.mod_mod.
    + rewrite decide_False by congruence. by rewrite Z.add_0_r.
Qed.

(** The loop visits the open slots, whatever fuel it is given beyond them. *)
Lemma miss_blocks_stat db active until fuel t c p c' p' :
  (List.length (slots_between t until) <= fuel)%nat -> ledger_wf p ->
  miss_blocks fuel db active until t c p = Ok (c', p') ->
  ledger_wf p' /\ (forall id, stat ds_blocks_produced p' id = stat ds_blocks_produced p id) /\
  (forall k, pending_get_property p' k = pending_get_property p k) /\
  c' ≡64 c + 2 * Z.of_nat (List.length (slots_between t until)) /\
  forall id, stat ds_blocks_missed p' id mod 2^32 =
    (stat ds_blocks_missed p id + slots_owned db active id (slots_between t until)) mod 2^32.
Proof.
  revert t c p. induction fuel as [|fuel IH]; intros t c p Hf Hwf.
  { apply Nat.le_0_r, nil_length_inv in Hf. rewrite Hf. intros [= <- <-]. split_and!; try done.
    - apply eq_eqm64. cbn. lia.
    - intros id. by rewrite Z.add_0_r. }
  cbn [miss_blocks].
  destruct (Z.ltb_spec t until) as [Ht|Ht].
  - intros (p1 & H1 & H2)%bind_Ok. destruct (miss_block_stat _ _ _ _ _ Hwf H1) as (W1 & S1 & Q1 & M1).
    rewrite slots_between_cons in * by done. cbn [List.length] in Hf.
    destruct (IH (t + BTS_BLOCKCHAIN_BLOCK_INTERVAL_SEC) (wrap64 (c + 2)) p1 ltac:(lia) W1 H2) as (W2 & S2 & Q2 & C2 & M2).
    split_and!; [done|intros; by rewrite S2|intros; by rewrite Q2| |].
    + rewrite C2, wrap64_eqm. apply eq_eqm64. cbn [List.length]. lia.
    + intros id. rewrite M2, slots_owned_cons, Z.add_assoc.
      rewrite (Z.add_mod (stat _ p1 id)), (M1 id) by lia. by rewrite <- Z.add_mod by lia.
  - intros [= <- <-]. rewrite slots_between_nil by done. split_and!; try done.
    + apply eq_eqm64. cbn. lia.
    + intros id. by rewrite Z.add_0_r.
Qed.

Lemma missed_fuel_enough t until :
  (List.length (slots_between t until) <= missed_fuel until t)%nat.
Proof.
  unfold slots_between, missed_fuel, BTS_BLOCKCHAIN_BLOCK_INTERVAL_SEC.
  rewrite length_fmap, length_seqZ.
  pose proof (Z.div_le_mono (until - t + (10 - 1)) (until - t + 1 * 10) 10).
  rewrite Z.div_add in * by lia. lia.
Qed.

Lemma record_produced_stat db b id p p' :
  ledger_wf p -> record_produced db b id p = Ok p' ->
  ledger_wf p' /\ (forall k, pending_get_property p' k = pending_get_property p k) /\
  (forall k, stat ds_blocks_missed p' k = stat ds_blocks_missed p k) /\
  (forall k, stat ds_blocks_produced p' k =
     if decide (k = id) then wrapu32 (stat ds_blocks_produced p k + 1)
     else stat ds_blocks_produced p k) /\
  exists r d, pending_get_account_record p id = Some r /\ ac_delegate_info r = Some d /\
    forall h, ds_next_secret_hash d = Some h -> secret_hash (bh_previous_secret (fb_head b)) = h.
Proof.
  intros Hwf Hp. unfold record_produced in Hp.
  apply bind_Ok in Hp as (r & Hr & Hp). apply bind_Ok in Hp as (d & Hd & Hp).
  apply require_Ok in Hr, Hd. pose proof (pending_wf_account _ _ _ Hwf Hr) as Hid. subst id.
  apply bind_Ok in Hp as ([] & Hsec & Hp). apply bind_Ok in Hp as (p1 & Hst & [= <-]).
  destruct (pending_ledger_account _ _ _ Hwf Hst) as [Hwf1 _].
  set (p2 := if db_track_stats db then _ else _).
  assert (Hp2 : ledger_wf p2 /\ (forall k, pending_get_account_record p2 k = pending_get_account_record p1 k) /\
                forall k, pending_get_property p2 k = pending_get_property p1 k).
  { unfold p2. destruct (db_track_stats db); [|done]. split; [|done].
    apply (pending_wf_step _ _ Hwf1); [by econstructor|done]. }
  destruct Hp2 as (Hwf2 & Ha & Hprop).
  assert (Hs2 : forall f id, stat f p2 id = stat f p1 id) by (intros f id; unfold stat; by rewrite Ha).
  split_and!; [done| | | |].
  - intros k. rewrite Hprop. by apply bind_Ok in Hst as (idx & _ & [= <-]).
  - intros k. rewrite Hs2, (stat_after _ _ _ _ _ _ k Hr Hd Hst).
    case_decide; [subst; by rewrite (stat_at _ _ _ _ Hr Hd)|done].
  - intros k. rewrite Hs2, (stat_after _ _ _ _ _ _ k Hr Hd Hst).
    case_decide; [subst; by rewrite (stat_at _ _ _ _ Hr Hd)|done].
  - exists r, d. split_and!; try done. intros h Hh. rewrite Hh in Hsec.
    by apply fc_assert_Ok, Z.eqb_eq in Hsec.
Qed.

(** The required confirmations are kept within 1 and three rounds, not 0 and two as
    chain_interface.hpp says. *)
Lemma clamp_confirmations_range c :
  clamp_confirmations c = Z.min (3 * BTS_BLOCKCHAIN_NUM_DELEGATES) (Z.max 1 (wrap64 (c - 1))).
Proof.
  unfold clamp_confirmations, BTS_BLOCKCHAIN_NUM_DELEGATES.
  destruct (_ <? 1) eqn:E1; destruct (_ >? _) eqn:E2; lia.
Qed.

(** C33: the production statistics are exact.  The signer's count of produced
    blocks goes up by one, and its block reveals the secret it had committed
    to.  Every slot between the head block and this one counts once as missed
    for the delegate it belongs to, and for no other.  The required number of
    confirmations loses one for the block and gains two per missed slot, as long as
    it stays within 1 and two rounds. *)
Theorem production_counts db b signee p p' c :
  ledger_wf p -> pending_get_property p confirmation_requirement_prop = Ok (v_int c) ->
  update_delegate_production_info db b signee p = Ok p' ->
  let slots := slots_between (first_open_slot db (fb_timestamp b)) (fb_timestamp b) in
  exists signing active,
    get_delegate_record_for_signee db signee = Ok signing /\
    get_active_delegates (db_view db) = Ok active /\
    (forall id, stat ds_blocks_produced p' id =
       if decide (id = ac_id signing) then wrapu32 (stat ds_blocks_produced p id + 1)
       else stat ds_blocks_produced p id) /\
    (forall id, stat ds_blocks_missed p' id mod 2^32 =
       (stat ds_blocks_missed p id + slots_owned db active id slots) mod 2^32) /\
    (exists r d, pending_get_account_record p (ac_id signing) = Some r /\ ac_delegate_info r = Some d /\
       forall h, ds_next_secret_hash d = Some h -> secret_hash (bh_previous_secret (fb_head b)) = h) /\
    exists c', pending_get_property p' confirmation_requirement_prop = Ok (v_int c') /\
      let due := c + 2 * Z.of_nat (List.length slots) - 1 in
      (0 <= c -> 1 <= due <= 2 * BTS_BLOCKCHAIN_NUM_DELEGATES -> c' = due).
Proof.
  intros Hwf Hc Hu slots. unfold update_delegate_production_info in Hu.
  apply bind_Ok in Hu as (signing & Hsig & Hu). apply bind_Ok in Hu as (p1 & H1 & Hu).
  destruct (record_produced_stat _ _ _ _ _ Hwf H1) as (W1 & Q1 & M1 & S1 & Hsec).
  apply bind_Ok in Hu as (v & Hv & Hu). rewrite Q1, Hc in Hv. injection Hv as <-.
  cbn [variant_as_int] in Hu. apply bind_Ok in Hu as (c0 & [= <-] & Hu). cbv zeta in Hu.
  apply bind_Ok in Hu as (active & Ha & Hu). apply bind_Ok in Hu as ([c1 p2] & H2 & [= <-]).
  destruct (miss_blocks_stat _ _ _ _ _ _ _ _ _ (missed_fuel_enough _ _) W1 H2) as (W2 & S2 & Q2 & C2 & M2).
  exists signing, active. split_and!; [done|done| | |done|].
  - intros id. rewrite <- S1. apply S2.
  - intros id. rewrite <- M1. apply M2.
  - exists (clamp_confirmations c1). split.
    + unfold pending_get_property. cbn. by rewrite lookup_insert_eq.
    + cbv zeta. intros Hr Hl. fold slots in C2. rewrite clamp_confirmations_range.
      unfold BTS_BLOCKCHAIN_NUM_DELEGATES in *.
      assert (Hw : wrap64 (c1 - 1) = c + 2 * Z.of_nat (List.length slots) - 1).
      { apply eqm64_int64; [apply wrap64_range|unfold in_int64, INT64_MIN, INT64_MAX; lia|].
        rewrite wrap64_eqm, C2. done. }
      rewrite Hw. lia.
Qed.
End schedule.
