(* ===== verification/Forks.v ===== *)
(** * Forks: the tree of all known blocks (chain_database.hpp, chain_database.cpp)

    Every block a node has seen is kept with its fork data: the blocks that
    follow it, whether it is linked to the genesis block through known blocks,
    and whether it has been found valid or invalid.  A block whose content is
    not known yet but that another one names as its previous is a placeholder.

    The three loops over the descendants of a block run level by level; they are
    instances of [each_descendant].  Its fuel is the number of entries of the
    tree, and a level past that is empty ([reach_closed]). *)
From S2P Require Import Prelude Config Fc Asset Records ChainInterface ChainDatabase Blocks.

Record block_fork_data := mk_fork {
  fk_next_blocks : gset Z;
  fk_is_linked : bool;
  fk_is_valid : option bool;
  fk_invalid_reason : option error;
  fk_is_included : bool;
  fk_is_known : bool
}.

(** [block_fork_data()] *)
Definition new_fork : block_fork_data := mk_fork ∅ false None None false false.

Definition fork_invalid (f : block_fork_data) : bool :=
  match fk_is_valid f with Some v => negb v | None => false end.
Definition fork_valid (f : block_fork_data) : bool :=
  match fk_is_valid f with Some v => v | None => false end.
Definition can_link (f : block_fork_data) : bool := fk_is_linked f && negb (fork_invalid f).

Definition add_next_block (id : Z) (f : block_fork_data) : block_fork_data :=
  {| fk_next_blocks := {[ id ]} ∪ fk_next_blocks f; fk_is_linked := fk_is_linked f;
     fk_is_valid := fk_is_valid f; fk_invalid_reason := fk_invalid_reason f;
     fk_is_included := fk_is_included f; fk_is_known := fk_is_known f |}.
Definition set_fork_linked (v : bool) (f : block_fork_data) : block_fork_data :=
  {| fk_next_blocks := fk_next_blocks f; fk_is_linked := v;
     fk_is_valid := fk_is_valid f; fk_invalid_reason := fk_invalid_reason f;
     fk_is_included := fk_is_included f; fk_is_known := fk_is_known f |}.
Definition set_fork_known (v : bool) (f : block_fork_data) : block_fork_data :=
  {| fk_next_blocks := fk_next_blocks f; fk_is_linked := fk_is_linked f;
     fk_is_valid := fk_is_valid f; fk_invalid_reason := fk_invalid_reason f;
     fk_is_included := fk_is_included f; fk_is_known := v |}.
Definition set_fork_validity (v : option bool) (reason : option error) (f : block_fork_data)
    : block_fork_data :=
  {| fk_next_blocks := fk_next_blocks f; fk_is_linked := fk_is_linked f;
     fk_is_valid := v; fk_invalid_reason := reason;
     fk_is_included := fk_is_included f; fk_is_known := fk_is_known f |}.
Definition set_fork_included (v : bool) (f : block_fork_data) : block_fork_data :=
  {| fk_next_blocks := fk_next_blocks f; fk_is_linked := fk_is_linked f;
     fk_is_valid := if v then Some true else fk_is_valid f; fk_invalid_reason := fk_invalid_reason f;
     fk_is_included := v; fk_is_known := fk_is_known f |}.

(** The stores of blocks: [_fork_db], [_fork_number_db], [_block_id_to_block_data_db]
    and [_block_id_to_block_record_db]. *)
Record block_store := mk_store {
  bs_forks : gmap Z block_fork_data;
  bs_numbers : gmap Z (list Z);
  bs_data : gmap Z full_block;
  bs_records : gmap Z block_record
}.

Definition set_bs_forks (v : gmap Z block_fork_data) (s : block_store) : block_store :=
  mk_store v (bs_numbers s) (bs_data s) (bs_records s).
Definition set_bs_numbers (v : gmap Z (list Z)) (s : block_store) : block_store :=
  mk_store (bs_forks s) v (bs_data s) (bs_records s).
Definition set_bs_data (v : gmap Z full_block) (s : block_store) : block_store :=
  mk_store (bs_forks s) (bs_numbers s) v (bs_records s).
Definition set_bs_records (v : gmap Z block_record) (s : block_store) : block_store :=
  mk_store (bs_forks s) (bs_numbers s) (bs_data s) v.

(** [level_map::fetch] *)
Definition fetch `{Countable K} {V} (m : gmap K V) (k : K) : result V :=
  require (m !! k) key_not_found_exception.

(** C's [assert] *)
Definition c_assert (c : bool) : result unit := throw_if (negb c) assertion_abort.

(** ** Loops over the descendants *)

Section descendants.
Context {A : Type} (visit : Z -> block_fork_data -> A -> result (block_fork_data * A)).

Definition visit_item (st : gmap Z block_fork_data * gset Z * A) (item : Z)
    : result (gmap Z block_fork_data * gset Z * A) :=
  let '(forks, pending, a) := st in
  record ← fetch forks item;
  '(record, a) ← visit item record a;
  Ok (<[item := record]> forks, fk_next_blocks record ∪ pending, a).

(** [while( next_ids.size() ) { for( item : next_ids ) ...; next_ids = pending; }] *)
Fixpoint each_descendant (fuel : nat) (next_ids : gset Z) (forks : gmap Z block_fork_data) (a : A)
    : result (gmap Z block_fork_data * A) :=
  match fuel with
  | O => Ok (forks, a)
  | S fuel =>
      if bool_decide (next_ids = ∅) then Ok (forks, a)
      else
        '(forks, pending, a) ← fold_result visit_item (forks, ∅, a) (elements next_ids);
        each_descendant fuel pending forks a
  end.
End descendants.

(** [recursive_mark_as_linked]: marks the blocks and returns the one with the
    highest number. *)
Definition visit_linked (records : gmap Z block_record) (item : Z) (record : block_fork_data)
    (best : Z * block_fork_data * Z) : result (block_fork_data * (Z * block_fork_data * Z)) :=
  let record := set_fork_linked true record in
  let '(last_block_id, longest_fork, highest_block_num) := best in
  block_record ← fetch records item;
  let num := bh_block_num (bk_head block_record) in
  Ok (record, if num >? highest_block_num then (item, record, num) else best).

Definition recursive_mark_as_linked (ids : gset Z) (s : block_store)
    : result (block_store * (Z * block_fork_data)) :=
  '(forks, (last_block_id, longest_fork, _)) ←
    each_descendant (visit_linked (bs_records s)) (size (bs_forks s)) ids (bs_forks s)
      (null_block_id, new_fork, 0);
  Ok (set_bs_forks forks s, (last_block_id, longest_fork)).

(** [recursive_mark_as_invalid] *)
Definition visit_invalid (reason : error) (_ : Z) (record : block_fork_data) (_ : unit)
    : result (block_fork_data * unit) :=
  _ ← c_assert (negb (fork_valid record));
  Ok (set_fork_validity (Some false) (Some reason) record, tt).

Definition recursive_mark_as_invalid (ids : gset Z) (reason : error) (s : block_store)
    : result block_store :=
  '(forks, _) ← each_descendant (visit_invalid reason) (size (bs_forks s)) ids (bs_forks s) tt;
  Ok (set_bs_forks forks s).

(** The loop of [mark_as_unchecked]. *)
Definition visit_unchecked (_ : Z) (record : block_fork_data) (_ : unit)
    : result (block_fork_data * unit) :=
  Ok (set_fork_validity None None record, tt).

(** ** Operations *)

(** [chain_database_impl::mark_invalid] *)
Definition mark_invalid (id : Z) (reason : error) (s : block_store) : result block_store :=
  fork_data ← fetch (bs_forks s) id;
  _ ← c_assert (negb (fork_valid fork_data));
  let fork_data := set_fork_validity (Some false) (Some reason) fork_data in
  recursive_mark_as_invalid (fk_next_blocks fork_data) reason
    (set_bs_forks (<[id := fork_data]> (bs_forks s)) s).

(** [chain_database_impl::mark_as_unchecked] *)
Definition mark_as_unchecked (id : Z) (s : block_store) : result block_store :=
  fork_data ← fetch (bs_forks s) id;
  _ ← c_assert (negb (fork_valid fork_data));
  let fork_data := set_fork_validity None None fork_data in
  let forks := <[id := fork_data]> (bs_forks s) in
  '(forks, _) ← each_descendant visit_unchecked (size forks) (fk_next_blocks fork_data) forks tt;
  Ok (set_bs_forks forks s).

(** [chain_database_impl::mark_included] *)
Definition mark_included (id : Z) (included : bool) (s : block_store) : result block_store :=
  fork_data ← fetch (bs_forks s) id;
  Ok (set_bs_forks (<[id := set_fork_included included fork_data]> (bs_forks s)) s).

(** [chain_database_impl::fetch_blocks_at_number] *)
Definition fetch_blocks_at_number (num : Z) (s : block_store) : list Z :=
  default [] (bs_numbers s !! num).

Section store.
Context `{Crypto} `{BlockHash}.

(** The record of a block seen for the first time, with the latency of its
    arrival. *)
Definition new_block_record (clock seed : Z) (b : full_block) : block_record :=
  mk_block_record (to_digest_block b) 0 0 0 seed (packed_size b) (clock - fb_timestamp b) 0.

(** [store_and_index] up to the tree: the block, its record and its number. *)
Definition store_block (clock seed id : Z) (b : full_block) (s : block_store) : block_store :=
  let s := set_bs_data (<[id := b]> (bs_data s)) s in
  let s := match bs_records s !! id with
           | Some _ => s
           | None => set_bs_records (<[id := new_block_record clock seed b]> (bs_records s)) s
           end in
  let parallel_blocks := fetch_blocks_at_number (fb_block_num b) s in
  if existsb (Z.eqb id) parallel_blocks then s
  else set_bs_numbers (<[fb_block_num b := parallel_blocks ++ [id]]> (bs_numbers s)) s.

(** The previous block learns of the new one; it may be a placeholder the new
    block creates. *)
Definition announce_to_previous (id : Z) (b : full_block) (s : block_store)
    : block_fork_data * block_store :=
  let prev_fork_data :=
    match bs_forks s !! fb_previous b with
    | Some f => add_next_block id f
    | None => set_fork_linked false (add_next_block id new_fork)
    end in
  (prev_fork_data, set_bs_forks (<[fb_previous b := prev_fork_data]> (bs_forks s)) s).

(** A block whose previous is invalid is invalid for the same reason. *)
Definition inherit_invalid (prev f : block_fork_data) : block_fork_data :=
  if fork_invalid prev then set_fork_validity (Some false) (fk_invalid_reason prev) f else f.

(** The new block where a placeholder was. *)
Definition fill_placeholder (id : Z) (prev current_fork : block_fork_data) (s : block_store)
    : result (block_store * (Z * block_fork_data)) :=
  let current_fork := set_fork_known true current_fork in
  _ ← c_assert (negb (fk_is_linked current_fork));
  if fk_is_linked prev then
    let current_fork := inherit_invalid prev (set_fork_linked true current_fork) in
    let s := set_bs_forks (<[id := current_fork]> (bs_forks s)) s in
    if fork_invalid prev then
      reason ← require (fk_invalid_reason prev) assertion_abort;
      s ← recursive_mark_as_invalid (fk_next_blocks current_fork) reason s;
      Ok (s, (id, current_fork))
    else recursive_mark_as_linked (fk_next_blocks current_fork) s
  else
    Ok (set_bs_forks (<[id := current_fork]> (bs_forks s)) s, (id, current_fork)).

(** The new block where there was nothing. *)
Definition add_leaf (id : Z) (prev : block_fork_data) (s : block_store)
    : block_store * (Z * block_fork_data) :=
  let current_fork := set_fork_linked (fk_is_linked prev) (set_fork_known true new_fork) in
  let current_fork := inherit_invalid prev current_fork in
  (set_bs_forks (<[id := current_fork]> (bs_forks s)) s, (id, current_fork)).

(** [chain_database_impl::store_and_index]: the clock and the current random seed
    are arguments. *)
Definition store_and_index (clock seed id : Z) (b : full_block) (s : block_store)
    : result (block_store * (Z * block_fork_data)) :=
  _ ← c_assert (match bs_data s !! id with Some _ => false | None => true end);
  _ ← c_assert (match bs_forks s !! id with Some f => negb (fk_is_known f) | None => true end);
  _ ← c_assert (negb (existsb (Z.eqb id) (fetch_blocks_at_number (fb_block_num b) s)));
  let s := store_block clock seed id b s in
  let '(prev_fork_data, s) := announce_to_previous id b s in
  match bs_forks s !! id with
  | Some current_fork => fill_placeholder id prev_fork_data current_fork s
  | None => Ok (add_leaf id prev_fork_data s)
  end.
End store.
