(* ===== verification/ForkFacts.v ===== *)
(** * ForkFacts: the block tree keeps its shape

    [tree_ok] is the invariant of the fork database: the links between blocks
    and their followers agree with the blocks' headers; what is linked has a
    linked previous block, and the followers of a linked block are linked as
    long as it is not invalid; the followers of an invalid linked block are
    invalid; a valid block has a valid previous block.  Every operation keeps
    it, and none of them fails an assertion or runs out of fuel. *)
From S2P Require Import Prelude Config Fc Asset Records ChainInterface ChainDatabase Blocks Forks.

(** ** The loop over the descendants *)

Section descendants.
Implicit Types m : gmap Z block_fork_data.

(** The blocks that follow a block. *)
Definition next_of m (x : Z) : gset Z := from_option fk_next_blocks ∅ (m !! x).
Definition follows m (x y : Z) : Prop := y ∈ next_of m x.
(** [x] is one of [ids] or comes after one. *)
Definition below m (ids : gset Z) (x : Z) : Prop := exists r, r ∈ ids /\ rtc (follows m) r x.

(** The blocks the first [fuel] turns of the loop visit. *)
Fixpoint reach (fuel : nat) m (ids : gset Z) : gset Z :=
  match fuel with
  | O => ∅
  | S fuel => ids ∪ reach fuel m (⋃ (next_of m <$> elements ids))
  end.

Lemma elem_of_reach fuel m ids x :
  x ∈ reach fuel m ids <-> exists k r, (k < fuel)%nat /\ r ∈ ids /\ nsteps (follows m) k r x.
Proof.
  revert ids. induction fuel as [|fuel IH]; intros ids; cbn [reach].
  - split; [by intros ?%elem_of_empty|]. intros (k & r & ? & _). lia.
  - rewrite elem_of_union, IH. split.
    + intros [Hx|(k & r & Hk & Hr & Hn)]; [exists 0%nat, x; split_and!; [lia|done|constructor]|].
      apply elem_of_union_list in Hr as (X & (z & -> & Hz)%list_elem_of_fmap & Hr).
      exists (S k), z. split_and!; [lia|set_solver|]. by econstructor.
    + intros (k & r & Hk & Hr & Hn). destruct k as [|k]; [inversion Hn; subst; by left|right].
      inversion Hn as [|? ? y ? Hy Hn']; subst. exists k, y. split_and!; [lia| |done].
      apply elem_of_union_list. exists (next_of m r). split; [|done].
      apply list_elem_of_fmap. exists r. set_solver.
Qed.

Section rank.
Context (rank : Z -> nat) (m : gmap Z block_fork_data).
Hypothesis Hrank : forall x y, follows m x y -> (rank x < rank y)%nat.
Hypothesis Hclosed : forall x y, follows m x y -> y ∈ dom m.

(** A path visits distinct blocks. *)
Lemma path_list k r x :
  r ∈ dom m -> nsteps (follows m) k r x ->
  exists l, List.length l = S k /\ NoDup l /\ forall z, z ∈ l -> z ∈ dom m /\ (rank r <= rank z)%nat.
Proof using Hrank Hclosed.
  intros Hr Hn. revert Hr. induction Hn as [x|k r y x Hy Hn IH]; intros Hr.
  - exists [x]. split_and!; [done|apply NoDup_singleton|]. intros z ->%list_elem_of_singleton. eauto.
  - destruct (IH (Hclosed _ _ Hy)) as (l & Hl & Hnd & Hin). pose proof (Hrank _ _ Hy) as Hlt.
    exists (r :: l). split_and!.
    + cbn. by rewrite Hl.
    + constructor; [|done]. intros Hz%Hin. lia.
    + intros z [->|Hz]%elem_of_cons; [by split|]. apply Hin in Hz. split; [apply Hz|lia].
Qed.

(** The number of blocks bounds the length of a path, so the loop visits
    everything. *)
Lemma reach_below ids x :
  ids ⊆ dom m -> x ∈ reach (size m) m ids <-> below m ids x.
Proof using Hrank Hclosed.
  intros Hids. rewrite elem_of_reach. unfold below. split.
  - intros (k & r & _ & Hr & Hn). exists r. split; [done|]. apply rtc_nsteps. eauto.
  - intros (r & Hr & [k Hn]%rtc_nsteps). exists k, r. split_and!; [|done|done].
    destruct (path_list k r x (Hids _ Hr) Hn) as (l & Hl & Hnd & Hin).
    assert (Hsub : list_to_set (C := gset Z) l ⊆ dom m).
    { intros z Hz%elem_of_list_to_set. by apply Hin. }
    apply subseteq_size in Hsub. rewrite size_list_to_set, size_dom in Hsub by done. lia.
Qed.
End rank.

(** [m'] is [m] with [g] applied at [D]. *)
Definition marked (g : block_fork_data -> block_fork_data) (D : gset Z) m m' : Prop :=
  forall x, m' !! x = if decide (x ∈ D) then g <$> m !! x else m !! x.

Section loop.
Context {A : Type} (visit : Z -> block_fork_data -> A -> result (block_fork_data * A)).
Context (g : block_fork_data -> block_fork_data) (m0 : gmap Z block_fork_data).
Context (ok : Z -> block_fork_data -> Prop) (I : gset Z -> A -> Prop).
Hypothesis g_next : forall f, fk_next_blocks (g f) = fk_next_blocks f.
Hypothesis g_idem : forall f, g (g f) = g f.
Hypothesis visit_ok : forall x f0 f a D, m0 !! x = Some f0 -> ok x f0 -> f = f0 \/ f = g f0 -> I D a ->
  exists a', visit x f a = Ok (g f, a') /\ I ({[ x ]} ∪ D) a'.

Lemma marked_next D m : marked g D m0 m -> forall x, next_of m x = next_of m0 x.
Proof using g_next.
  intros Hm x. unfold next_of. rewrite Hm. case_decide; [|done].
  destruct (m0 !! x); cbn; [apply g_next|done].
Qed.

Lemma level_marks l D m pend a :
  marked g D m0 m -> I D a -> (forall x, x ∈ l -> exists f, m0 !! x = Some f /\ ok x f) ->
  exists m' a', fold_result (visit_item visit) (m, pend, a) l
                  = Ok (m', ⋃ (next_of m0 <$> reverse l) ∪ pend, a') /\
    marked g (list_to_set l ∪ D) m0 m' /\ I (list_to_set l ∪ D) a'.
Proof using g_next g_idem visit_ok.
  revert D m pend a. induction l as [|x l IH]; intros D m pend a Hm HI Hl.
  - exists m, a. cbn. rewrite !(left_id_L ∅ (∪)). by split_and!.
  - destruct (Hl x ltac:(left)) as (f0 & Hf0 & Hok). cbn [fold_result].
    assert (Hx : exists f, m !! x = Some f /\ (f = f0 \/ f = g f0)).
    { rewrite Hm, Hf0. case_decide; cbn; eauto. }
    destruct Hx as (f & Hf & Hff). destruct (visit_ok x f0 f a D Hf0 Hok Hff HI) as (a1 & Hv & HI1).
    assert (Hvi : visit_item visit (m, pend, a) x = Ok (<[x := g f]> m, fk_next_blocks (g f) ∪ pend, a1)).
    { cbn. unfold fetch. rewrite Hf. cbn. by rewrite Hv. }
    rewrite Hvi. cbn [mbind result_bind].
    assert (Hgf : g f = g f0) by (destruct Hff as [->| ->]; [done|apply g_idem]).
    assert (Hm1 : marked g ({[ x ]} ∪ D) m0 (<[x := g f]> m)).
    { intros y. destruct (decide (y = x)) as [->|Hy].
      - rewrite lookup_insert_eq, decide_True by set_solver. by rewrite Hf0, Hgf.
      - rewrite lookup_insert_ne, Hm by done. by destruct (decide (y ∈ D)), (decide (y ∈ {[x]} ∪ D)); set_solver. }
    destruct (IH _ _ (fk_next_blocks (g f) ∪ pend) a1 Hm1 HI1 ltac:(set_solver)) as (m' & a' & He & Hm' & HI').
    exists m', a'. split_and!.
    + assert (Hnx : next_of m0 x = fk_next_blocks f0) by (unfold next_of; by rewrite Hf0).
      rewrite He, Hgf, g_next, reverse_cons, fmap_app, union_list_app_L. cbn. rewrite Hnx.
      do 3 f_equal. set_solver.
    + by rewrite list_to_set_cons, <- (assoc_L (∪)), (comm_L (∪) {[x]}), <- (assoc_L (∪)), (comm_L (∪) D).
    + by rewrite list_to_set_cons, <- (assoc_L (∪)), (comm_L (∪) {[x]}), <- (assoc_L (∪)), (comm_L (∪) D).
Qed.

Lemma each_descendant_marks fuel ids D m a :
  marked g D m0 m -> I D a ->
  (forall x, x ∈ reach fuel m0 ids -> exists f, m0 !! x = Some f /\ ok x f) ->
  exists m' a', each_descendant visit fuel ids m a = Ok (m', a') /\
    marked g (reach fuel m0 ids ∪ D) m0 m' /\ I (reach fuel m0 ids ∪ D) a'.
Proof using g_next g_idem visit_ok.
  revert ids D m a. induction fuel as [|fuel IH]; intros ids D m a Hm HI Hr; cbn [each_descendant reach].
  - rewrite (left_id_L ∅ (∪)). eauto.
  - case_bool_decide as Hids.
    + subst ids. exists m, a. rewrite elements_empty. cbn.
      assert (Hn : reach fuel m0 ∅ = ∅).
      { apply set_eq. intros x. rewrite elem_of_reach. set_solver. }
      rewrite Hn, !(left_id_L ∅ (∪)). by split_and!.
    + destruct (level_marks (elements ids) D m ∅ a Hm HI) as (m1 & a1 & He & Hm1 & HI1).
      { intros x Hx. apply Hr. cbn. set_solver. }
      rewrite He. cbn. rewrite (right_id_L ∅ (∪)). rewrite list_to_set_elements_L in Hm1, HI1.
      assert (Hp : ⋃ (next_of m0 <$> reverse (elements ids)) = ⋃ (next_of m0 <$> elements ids)).
      { by rewrite reverse_Permutation. }
      rewrite Hp. destruct (IH (⋃ (next_of m0 <$> elements ids)) _ _ _ Hm1 HI1) as (m' & a' & He' & Hm' & HI').
      { intros x Hx. apply Hr. cbn. set_solver. }
      exists m', a'. split; [done|].
      rewrite (comm_L (∪) ids (reach _ _ _)), <- (assoc_L (∪)). done.
Qed.
End loop.
End descendants.

(** ** The invariant *)

(** The flags of one block. *)
Record node_ok (f : block_fork_data) : Prop := mk_node_ok {
  nd_placeholder : fk_is_known f = false ->
    fk_is_linked f = false /\ fk_is_valid f = None /\ fk_is_included f = false;
  nd_reason : fork_invalid f = true -> is_Some (fk_invalid_reason f);
  nd_valid : fork_valid f = true -> fk_is_linked f = true;
  nd_included : fk_is_included f = true -> fork_valid f = true
}.

(** The flags of a block and of one that follows it. *)
Record edge_ok (fp fc : block_fork_data) : Prop := mk_edge_ok {
  eg_linked_up : fk_is_linked fc = true -> fk_is_linked fp = true;
  eg_linked_down : fk_is_linked fp = true -> fork_invalid fp = false -> fk_is_linked fc = true;
  eg_invalid_down : fk_is_linked fp = true -> fork_invalid fp = true -> fork_invalid fc = true;
  eg_valid_up : fork_valid fc = true -> fork_valid fp = true;
  eg_invalid_up : fork_invalid fc = true -> fk_is_linked fc = true \/ fork_invalid fp = true
}.

Section tree.
Context `{Crypto} `{BlockHash}.
Implicit Types s : block_store.

(** The blocks and the links between them. *)
Record shape_ok s : Prop := mk_shape_ok {
  sh_root : exists f, bs_forks s !! null_block_id = Some f /\ fk_is_known f = true;
  sh_data id b : bs_data s !! id = Some b ->
    id = fb_id b /\ (exists r, bs_records s !! id = Some r /\ bk_header r = fb_header b) /\
    is_Some (bs_forks s !! fb_previous b) /\
    exists f, bs_forks s !! id = Some f /\ fk_is_known f = true;
  sh_records id : is_Some (bs_records s !! id) -> is_Some (bs_data s !! id);
  sh_known id f : bs_forks s !! id = Some f -> fk_is_known f = true -> id <> null_block_id ->
    is_Some (bs_data s !! id);
  sh_next x f y : bs_forks s !! x = Some f ->
    y ∈ fk_next_blocks f <-> exists b, bs_data s !! y = Some b /\ fb_previous b = x;
  sh_numbers id n : id ∈ fetch_blocks_at_number n s <->
    exists b, bs_data s !! id = Some b /\ fb_block_num b = n
}.

Record tree_ok s : Prop := mk_tree_ok {
  tk_shape : shape_ok s;
  tk_root : exists f, bs_forks s !! null_block_id = Some f /\ fk_is_linked f = true /\ fork_valid f = true;
  tk_node id f : bs_forks s !! id = Some f -> node_ok f;
  tk_edge c b fp fc : bs_data s !! c = Some b -> bs_forks s !! fb_previous b = Some fp ->
    bs_forks s !! c = Some fc -> edge_ok fp fc
}.

(** What is relied on of the hash: no block's id is the id of an ancestor, as
    if ids were ranked, and none is the all-zero id of the genesis block. *)
Context (rank : Z -> nat).
Hypothesis Hrank : forall h, (rank (bh_previous (sb_header h)) < rank (block_id_hash h))%nat.
Hypothesis Hnull : forall h, block_id_hash h <> null_block_id.

Lemma follows_spec s x y :
  shape_ok s -> follows (bs_forks s) x y <-> exists b, bs_data s !! y = Some b /\ fb_previous b = x.
Proof using.
  intros Hs. unfold follows, next_of. destruct (bs_forks s !! x) as [f|] eqn:Hx; cbn.
  - by apply sh_next.
  - split; [by intros ?%elem_of_empty|]. intros (b & Hb & <-).
    apply (sh_data _ Hs) in Hb as (_ & _ & [f Hf] & _). by rewrite Hx in Hf.
Qed.

Lemma follows_rank s x y : shape_ok s -> follows (bs_forks s) x y -> (rank x < rank y)%nat.
Proof using Hrank.
  intros Hs (b & Hb & <-)%follows_spec; [|done]. apply (sh_data _ Hs) in Hb as [-> _]. apply Hrank.
Qed.
Lemma follows_dom s x y : shape_ok s -> follows (bs_forks s) x y -> y ∈ dom (bs_forks s).
Proof using.
  intros Hs (b & Hb & _)%follows_spec; [|done]. apply (sh_data _ Hs) in Hb as (_ & _ & _ & f & Hf & _).
  apply elem_of_dom. eauto.
Qed.

Lemma next_dom s x f : shape_ok s -> bs_forks s !! x = Some f -> fk_next_blocks f ⊆ dom (bs_forks s).
Proof using.
  intros Hs Hx y Hy. apply (follows_dom s x y Hs). unfold follows, next_of. by rewrite Hx.
Qed.

(** Descendants of a block: each has its previous block among them, or is a
    follower of the block; the block itself is not one. *)
Lemma below_prev s x f y :
  shape_ok s -> bs_forks s !! x = Some f -> below (bs_forks s) (fk_next_blocks f) y ->
  y <> x /\ exists b fy, bs_data s !! y = Some b /\ bs_forks s !! y = Some fy /\
    (fb_previous b = x \/ below (bs_forks s) (fk_next_blocks f) (fb_previous b)).
Proof using Hrank.
  intros Hs Hx (r & Hr & Hy).
  assert (Hxr : follows (bs_forks s) x r) by (unfold follows, next_of; by rewrite Hx).
  assert (Hge : (rank x < rank y)%nat).
  { pose proof (follows_rank _ _ _ Hs Hxr) as Hlt. clear Hr Hxr.
    induction Hy as [|r z y Hz Hy IH]; [done|]. apply IH. pose proof (follows_rank _ _ _ Hs Hz). lia. }
  split; [intros ->; lia|].
  assert (Hpy : exists z, follows (bs_forks s) z y /\ (z = x \/ below (bs_forks s) (fk_next_blocks f) z)).
  { apply rtc_inv_r in Hy as [->|(z & Hz & Hzy)]; [by exists x; auto|]. exists z. split; [done|]. right. by exists r. }
  destruct Hpy as (z & Hz & Hzx). pose proof Hz as Hz'. apply follows_spec in Hz' as (b & Hb & Hbz); [|done].
  pose proof (sh_data _ Hs _ _ Hb) as (_ & _ & _ & fy & Hfy & _).
  exists b, fy. split_and!; [done|done|]. by rewrite Hbz.
Qed.
Lemma below_next s x f y b :
  shape_ok s -> bs_forks s !! x = Some f -> bs_data s !! y = Some b ->
  fb_previous b = x \/ below (bs_forks s) (fk_next_blocks f) (fb_previous b) ->
  below (bs_forks s) (fk_next_blocks f) y.
Proof using.
  intros Hs Hx Hb [Hp|(r & Hr & Hp)].
  - exists y. split; [|constructor]. apply (sh_next _ Hs _ _ _ Hx). eauto.
  - exists r. split; [done|]. eapply rtc_r; [exact Hp|]. apply follows_spec; eauto.
Qed.

(** A change of flags keeps the shape. *)
Lemma shape_relabel s m' :
  shape_ok s ->
  (forall x, match bs_forks s !! x, m' !! x with
             | Some f, Some f' => fk_next_blocks f' = fk_next_blocks f /\ fk_is_known f' = fk_is_known f
             | None, None => True
             | _, _ => False
             end) ->
  shape_ok (set_bs_forks m' s).
Proof using.
  intros Hs Hm. split; cbn.
  - destruct (sh_root _ Hs) as (f & Hf & Hk). specialize (Hm null_block_id). rewrite Hf in Hm.
    destruct (m' !! null_block_id) as [f'|]; [|done]. exists f'. by rewrite (proj2 Hm).
  - intros id b Hb. destruct (sh_data _ Hs _ _ Hb) as (Hid & Hr & [fp Hp] & f & Hf & Hk).
    split_and!; [done|done| |].
    + specialize (Hm (fb_previous b)). rewrite Hp in Hm. by destruct (m' !! fb_previous b).
    + specialize (Hm id). rewrite Hf in Hm. destruct (m' !! id) as [f'|]; [|done].
      exists f'. by rewrite (proj2 Hm).
  - apply (sh_records _ Hs).
  - intros id f' Hf' Hk Hid. specialize (Hm id). rewrite Hf' in Hm.
    destruct (bs_forks s !! id) as [f|] eqn:Hf; [|done].
    apply (sh_known _ Hs id f Hf); [by rewrite <- (proj2 Hm)|done].
  - intros x f' y Hf'. specialize (Hm x). rewrite Hf' in Hm.
    destruct (bs_forks s !! x) as [f|] eqn:Hf; [|done]. rewrite (proj1 Hm).
    by apply (sh_next _ Hs).
  - intros id n. by apply (sh_numbers _ Hs).
Qed.

Lemma shape_marked s g D m' :
  (forall f, fk_next_blocks (g f) = fk_next_blocks f) -> (forall f, fk_is_known (g f) = fk_is_known f) ->
  shape_ok s -> marked g D (bs_forks s) m' -> shape_ok (set_bs_forks m' s).
Proof using.
  intros Hn Hk Hs Hm. apply shape_relabel; [done|]. intros x. rewrite Hm.
  destruct (decide (x ∈ D)), (bs_forks s !! x); cbn; auto.
Qed.

(** Induction over the descendants of a block. *)
Lemma below_ind s x f (P : Z -> Prop) :
  shape_ok s -> bs_forks s !! x = Some f ->
  (forall y b fp fy, bs_data s !! y = Some b -> bs_forks s !! fb_previous b = Some fp ->
     bs_forks s !! y = Some fy -> y <> x -> fb_previous b = x \/ P (fb_previous b) -> P y) ->
  forall y, below (bs_forks s) (fk_next_blocks f) y -> P y.
Proof using Hrank.
  intros Hs Hx Hstep y. remember (rank y) as n eqn:Hn. revert y Hn.
  induction n as [n IH] using lt_wf_ind. intros y Hn Hy. destruct (below_prev s x f y Hs Hx Hy) as (Hne & b & fy & Hb & Hfy & Hp).
  pose proof (sh_data _ Hs _ _ Hb) as (Hid & _ & [fp Hfp] & _).
  apply (Hstep y b fp fy Hb Hfp Hfy Hne). destruct Hp as [|Hp]; [by left|right].
  apply (IH (rank (fb_previous b))); [|done|done]. subst n. rewrite Hid. apply Hrank.
Qed.

(** A loop over the descendants of [x], started after [D0] has been given its
    new flags, gives every descendant its new flags. *)
Lemma sweep {A} (visit : Z -> block_fork_data -> A -> result (block_fork_data * A)) g ok
    (I : gset Z -> A -> Prop) s x f D0 m a0 :
  shape_ok s -> bs_forks s !! x = Some f ->
  (forall f, fk_next_blocks (g f) = fk_next_blocks f) -> (forall f, g (g f) = g f) ->
  (forall y f0 f a D, bs_forks s !! y = Some f0 -> ok y f0 -> f = f0 \/ f = g f0 -> I D a ->
     exists a', visit y f a = Ok (g f, a') /\ I ({[ y ]} ∪ D) a') ->
  marked g D0 (bs_forks s) m -> I D0 a0 ->
  (forall y, below (bs_forks s) (fk_next_blocks f) y -> exists fy, bs_forks s !! y = Some fy /\ ok y fy) ->
  exists D m' a', each_descendant visit (size m) (fk_next_blocks f) m a0 = Ok (m', a') /\
    marked g D (bs_forks s) m' /\ I D a' /\
    forall y, y ∈ D <-> below (bs_forks s) (fk_next_blocks f) y \/ y ∈ D0.
Proof using Hrank.
  intros Hs Hx Hgn Hgi Hv Hm HI Hok.
  assert (Hsz : size m = size (bs_forks s)).
  { rewrite <- !size_dom. f_equal. apply set_eq. intros y. rewrite !elem_of_dom, (Hm y).
    case_decide; [by rewrite fmap_is_Some|done]. }
  assert (Hr : forall y, y ∈ reach (size m) (bs_forks s) (fk_next_blocks f) <->
                 below (bs_forks s) (fk_next_blocks f) y).
  { intros y. rewrite Hsz. apply (reach_below rank).
    - intros a b. by apply follows_rank.
    - intros a b. by apply follows_dom.
    - by eapply next_dom. }
  destruct (each_descendant_marks visit g (bs_forks s) ok I Hgn Hgi Hv (size m) (fk_next_blocks f) D0 m a0
              Hm HI) as (m' & a' & He & Hm' & HI').
  { intros y Hy. by apply Hok, Hr. }
  eexists _, m', a'. split_and!; [done|done|done|]. intros y. by rewrite elem_of_union, Hr.
Qed.

(** New flags for a set of blocks keep the invariant if they fit along every
    edge. *)
Definition relabel (g : block_fork_data -> block_fork_data) (D : gset Z) (x : Z) (f : block_fork_data)
    : block_fork_data := if decide (x ∈ D) then g f else f.

Lemma tree_marked s g D m' :
  (forall f, fk_next_blocks (g f) = fk_next_blocks f) -> (forall f, fk_is_known (g f) = fk_is_known f) ->
  shape_ok s -> marked g D (bs_forks s) m' ->
  (exists f, bs_forks s !! null_block_id = Some f /\ null_block_id ∉ D /\
     fk_is_linked f = true /\ fork_valid f = true) ->
  (forall id f, bs_forks s !! id = Some f -> node_ok (relabel g D id f)) ->
  (forall c b fp fc, bs_data s !! c = Some b -> bs_forks s !! fb_previous b = Some fp ->
     bs_forks s !! c = Some fc -> edge_ok (relabel g D (fb_previous b) fp) (relabel g D c fc)) ->
  tree_ok (set_bs_forks m' s).
Proof using.
  intros Hgn Hgk Hs Hm (f0 & Hf0 & HD0 & Hl0 & Hv0) Hnode Hedge.
  assert (Hm' : forall x f', m' !! x = Some f' -> exists f, bs_forks s !! x = Some f /\ f' = relabel g D x f).
  { intros x f'. rewrite Hm. unfold relabel. case_decide; [|eauto].
    intros (f & ? & ->)%fmap_Some_1. eauto. }
  split; cbn.
  - by apply (shape_marked s g D).
  - exists f0. split; [|done]. by rewrite Hm, decide_False.
  - intros id f' (f & Hf & ->)%Hm'. eauto.
  - intros c b fp' fc' Hb (fp & Hfp & ->)%Hm' (fc & Hfc & ->)%Hm'. eauto.
Qed.

(** The flags [g] gives to a block and its descendants. *)
Definition swept (g : block_fork_data -> block_fork_data) (x : Z) (f : block_fork_data) s s' : Prop :=
  bs_data s' = bs_data s /\ bs_records s' = bs_records s /\ bs_numbers s' = bs_numbers s /\
  forall y, (y = x \/ below (bs_forks s) (fk_next_blocks f) y -> bs_forks s' !! y = g <$> bs_forks s !! y) /\
            (~ (y = x \/ below (bs_forks s) (fk_next_blocks f) y) -> bs_forks s' !! y = bs_forks s !! y).

Lemma desc_not_valid s x f y :
  tree_ok s -> bs_forks s !! x = Some f -> fork_valid f = false ->
  below (bs_forks s) (fk_next_blocks f) y ->
  exists fy, bs_forks s !! y = Some fy /\ fork_valid fy = false.
Proof using Hrank.
  intros Ht Hx Hv. pose proof (tk_shape _ Ht) as Hs.
  revert y. apply (below_ind s x f (fun y => exists fy, bs_forks s !! y = Some fy /\ fork_valid fy = false) Hs Hx).
  intros y b fp fy Hb Hfp Hfy _ Hp. exists fy. split; [done|].
  pose proof (eg_valid_up _ _ (tk_edge _ Ht _ _ _ _ Hb Hfp Hfy)) as Hup.
  assert (Hfpv : fork_valid fp = false) by (destruct Hp as [Hp|(fp' & Hfp' & ?)]; congruence).
  destruct (fork_valid fy); [|done]. rewrite Hup in Hfpv by done. discriminate.
Qed.

(** The blocks [mark_invalid] reaches: a block and its descendants, closed in
    both directions along the edges. *)
Lemma cone_edge s x f (D : gset Z) c b fp fc :
  shape_ok s -> bs_forks s !! x = Some f ->
  (forall y, y ∈ D <-> below (bs_forks s) (fk_next_blocks f) y \/ y ∈ ({[ x ]} : gset Z)) ->
  bs_data s !! c = Some b -> bs_forks s !! fb_previous b = Some fp -> bs_forks s !! c = Some fc ->
  (fb_previous b ∈ D -> c ∈ D) /\ (c ∈ D -> c = x \/ fb_previous b ∈ D).
Proof using Hrank.
  intros Hs Hx HD Hb Hfp Hfc. rewrite !HD, !elem_of_singleton. split.
  - intros Hp. left. apply (below_next s x f c b Hs Hx Hb). tauto.
  - intros [Hc|Hc]; [|tauto]. destruct (below_prev s x f c Hs Hx Hc) as (_ & b' & _ & Hb' & _ & Hp).
    rewrite Hb in Hb'. injection Hb' as <-. tauto.
Qed.

Lemma invalid_edge reason fp fc :
  edge_ok fp fc -> fork_valid fc = false ->
  edge_ok (set_fork_validity (Some false) (Some reason) fp) (set_fork_validity (Some false) (Some reason) fc).
Proof using. intros [] Hv. split; cbn; auto; discriminate. Qed.
Lemma invalid_head reason fp fc :
  edge_ok fp fc -> fk_is_linked fc = true -> edge_ok fp (set_fork_validity (Some false) (Some reason) fc).
Proof using. intros [] Hl. split; cbn; auto; discriminate. Qed.
Lemma invalid_node reason f :
  node_ok f -> fk_is_known f = true -> fork_valid f = false ->
  node_ok (set_fork_validity (Some false) (Some reason) f).
Proof using.
  intros [] Hk Hv. split; cbn; eauto; try discriminate; try congruence.
Qed.

(** C11: invalidating a linked block that has not been found valid succeeds and
    marks exactly the block and everything that descends from it as invalid,
    for the given reason; the invariant of the tree is kept. *)
Theorem mark_invalid_spec s id f reason :
  tree_ok s -> bs_forks s !! id = Some f -> fk_is_linked f = true -> fork_valid f = false ->
  exists s', mark_invalid id reason s = Ok s' /\ tree_ok s' /\
    swept (set_fork_validity (Some false) (Some reason)) id f s s'.
Proof using Hrank.
  clear Hnull. intros Ht Hf Hl Hv. pose proof (tk_shape _ Ht) as Hs. set (g := set_fork_validity (Some false) (Some reason)).
  unfold mark_invalid, fetch. rewrite Hf. cbn. rewrite Hv. cbn. fold g.
  unfold recursive_mark_as_invalid. cbn [bs_forks set_bs_forks].
  destruct (sweep (visit_invalid reason) g (fun _ f => fork_valid f = false) (fun _ _ => True) s id f
              {[ id ]} (<[id := g f]> (bs_forks s)) tt Hs Hf) as (D & m' & [] & He & Hm' & _ & HD); try done.
  { intros y f0 f1 [] D _ Hok Hf1 _. exists tt. unfold visit_invalid.
    destruct Hf1 as [->| ->]; cbn; [by rewrite Hok|done]. }
  { intros x. destruct (decide (x = id)) as [->|Hne].
    - rewrite lookup_insert_eq, decide_True by set_solver. by rewrite Hf.
    - rewrite lookup_insert_ne, decide_False by set_solver. done. }
  { intros y Hy. by apply (desc_not_valid s id f). }
  assert (Hnv : forall y fy, y ∈ D -> bs_forks s !! y = Some fy -> fork_valid fy = false).
  { intros y fy Hy Hfy. apply HD in Hy as [Hy| ->%elem_of_singleton]; [|congruence].
    destruct (desc_not_valid s id f y Ht Hf Hv Hy) as (fy' & ? & ?). congruence. }
  rewrite He. cbn. eexists. split_and!; [done| |].
  - apply (tree_marked s g D); try done.
    + destruct (tk_root _ Ht) as (f0 & Hf0 & Hl0 & Hv0). exists f0. split_and!; try done.
      intros Hin. rewrite (Hnv _ _ Hin Hf0) in Hv0. discriminate.
    + intros x fx Hfx. unfold relabel. pose proof (tk_node _ Ht _ _ Hfx) as Hn.
      case_decide as Hx; [|done]. apply invalid_node; [done| |by eapply Hnv].
      apply HD in Hx as [Hx| ->%elem_of_singleton].
      * destruct (below_prev s id f x Hs Hf Hx) as (_ & b & _ & Hb & _ & _).
        apply (sh_data _ Hs) in Hb as (_ & _ & _ & f' & ? & ?). congruence.
      * rewrite Hf in Hfx. injection Hfx as <-. destruct (fk_is_known f) eqn:Hk; [done|].
        destruct (nd_placeholder _ Hn Hk). congruence.
    + intros c b fp fc Hb Hfp Hfc. pose proof (tk_edge _ Ht _ _ _ _ Hb Hfp Hfc) as He0.
      destruct (cone_edge s id f D c b fp fc Hs Hf HD Hb Hfp Hfc) as [Hdown Hup].
      unfold relabel. destruct (decide (fb_previous b ∈ D)) as [Hp|Hp].
      * rewrite decide_True by auto. apply invalid_edge; [done|]. by apply (Hnv c fc); [apply Hdown|].
      * case_decide as Hc; [|done]. destruct (Hup Hc) as [->|]; [|done].
        apply invalid_head; [done|]. congruence.
  - split_and!; try done. intros y. cbn. specialize (HD y). rewrite elem_of_singleton in HD.
    split; intros Hy; rewrite Hm'; [rewrite decide_True|rewrite decide_False]; tauto.
Qed.

(** ** Inclusion in the chain *)

Lemma mark_included_tree s id f (v : bool) :
  tree_ok s -> bs_forks s !! id = Some f -> id <> null_block_id ->
  (v = true -> fk_is_linked f = true /\ fork_invalid f = false /\
     forall b fp, bs_data s !! id = Some b -> bs_forks s !! fb_previous b = Some fp -> fork_valid fp = true) ->
  exists s', mark_included id v s = Ok s' /\ tree_ok s' /\
    s' = set_bs_forks (<[id := set_fork_included v f]> (bs_forks s)) s.
Proof using Hrank.
  clear Hnull. intros Ht Hf Hid Hv. pose proof (tk_shape _ Ht) as Hs. unfold mark_included, fetch. rewrite Hf. cbn.
  eexists. split_and!; [done| |done]. set (g := set_fork_included v).
  apply (tree_marked s g {[ id ]}); try done.
  - intros x. destruct (decide (x = id)) as [->|Hne].
    + rewrite lookup_insert_eq, decide_True by set_solver. by rewrite Hf.
    + rewrite lookup_insert_ne, decide_False by set_solver. done.
  - destruct (tk_root _ Ht) as (f0 & ? & ? & ?). exists f0. set_solver.
  - intros x fx Hfx. pose proof (tk_node _ Ht _ _ Hfx) as Hn. unfold relabel.
    case_decide as Hx; [|done]. apply elem_of_singleton in Hx as ->. rewrite Hf in Hfx. injection Hfx as <-.
    destruct v; [|destruct Hn as [Hn1 ? ? ?]; split; cbn; try done; intros Hk; specialize (Hn1 Hk); tauto].
    destruct (Hv eq_refl) as (Hl & Hi & _). split; cbn; try done. intros Hk.
    destruct (nd_placeholder _ Hn Hk). congruence.
  - intros c b fp fc Hb Hfp Hfc. pose proof (tk_edge _ Ht _ _ _ _ Hb Hfp Hfc) as He. unfold relabel.
    destruct v.
    2: { destruct He as [E1 E2 E3 E4 E5].
         destruct (decide (fb_previous b ∈ {[id]})), (decide (c ∈ {[id]})); split; cbn; auto. }
    destruct (Hv eq_refl) as (Hl & Hi & Hp).
    assert (Hne : fb_previous b <> c).
    { intros E. pose proof (Hrank (fb_header b)) as Hr. apply (sh_data _ Hs) in Hb as [-> _].
      unfold fb_previous, fb_head, fb_id, block_id in *. rewrite E in Hr. lia. }
    destruct (decide (fb_previous b ∈ {[id]})) as [Hpi|Hpi], (decide (c ∈ {[id]})) as [Hci|Hci];
      rewrite ?elem_of_singleton in Hpi, Hci; try congruence.
    + assert (fp = f) as -> by congruence. destruct He as [E1 E2 E3 E4 E5].
      split; cbn; try done; auto.
    + subst c. assert (fc = f) as -> by congruence. destruct He as [E1 E2 E3 E4 E5].
      split; cbn; try done; auto.
      * intros Hlp Hip. specialize (E3 Hlp Hip). congruence.
      * eauto.
Qed.

(** ** A new block *)

(** Unlinked and unchecked; so are then the followers. *)
Definition quiet (f : block_fork_data) : Prop := fk_is_linked f = false /\ fk_is_valid f = None.
Lemma quiet_edge fp fc : edge_ok fp fc -> quiet fp -> quiet fc.
Proof using.
  intros [E1 E2 E3 E4 E5] [Hl Hv]. unfold quiet, fork_valid, fork_invalid in *. rewrite Hv in *.
  destruct (fk_is_linked fc); [by rewrite E1 in Hl|]. split; [done|].
  destruct (fk_is_valid fc) as [[]|]; [by discriminate E4|destruct E5; done|done].
Qed.
Lemma edge_labels fp fp' fc fc' :
  edge_ok fp fc -> fk_is_linked fp' = fk_is_linked fp -> fk_is_valid fp' = fk_is_valid fp ->
  fk_is_linked fc' = fk_is_linked fc -> fk_is_valid fc' = fk_is_valid fc -> edge_ok fp' fc'.
Proof using.
  intros [E1 E2 E3 E4 E5] H1 H2 H3 H4. unfold fork_valid, fork_invalid in *.
  split; unfold fork_valid, fork_invalid; rewrite ?H1, ?H2, ?H3, ?H4; done.
Qed.

Section graft.
Context (s : block_store) (clock seed id : Z) (b : full_block).
Hypothesis Ht : tree_ok s.
Hypothesis Hid : id = fb_id b.
Hypothesis Hnew : bs_data s !! id = None.

(** The previous block's fork data, and the placeholder's or a fresh one. *)
Definition graft_prev : block_fork_data :=
  match bs_forks s !! fb_previous b with
  | Some f => add_next_block id f
  | None => set_fork_linked false (add_next_block id new_fork)
  end.
Definition graft_old : block_fork_data := default new_fork (bs_forks s !! id).

(** The stores with the new block in place, its flags being those of [fin]. *)
Definition grafted (fin : block_fork_data) : block_store :=
  mk_store (<[id := fin]> (<[fb_previous b := graft_prev]> (bs_forks s)))
    (<[fb_block_num b := fetch_blocks_at_number (fb_block_num b) s ++ [id]]> (bs_numbers s))
    (<[id := b]> (bs_data s)) (<[id := new_block_record clock seed b]> (bs_records s)).

Lemma graft_prev_ne : fb_previous b <> id.
Proof using Hrank Hid.
  intros E. pose proof (Hrank (fb_header b)) as Hr. unfold fb_id, block_id in Hid.
  change (bh_previous (sb_header (fb_header b))) with (fb_previous b) in Hr.
  rewrite E, Hid in Hr. lia.
Qed.
Lemma graft_not_null : id <> null_block_id.
Proof using Hnull Hid. rewrite Hid. apply Hnull. Qed.

Lemma graft_not_numbered : existsb (Z.eqb id) (fetch_blocks_at_number (fb_block_num b) s) = false.
Proof using Ht Hnew.
  apply not_true_is_false. rewrite existsb_exists. intros (y & Hy & <-%Z.eqb_eq).
  apply list_elem_of_In, (sh_numbers _ (tk_shape _ Ht)) in Hy as (b' & Hb' & _). congruence.
Qed.
Lemma graft_store_block :
  store_block clock seed id b s = set_bs_forks (bs_forks s) (grafted new_fork).
Proof using Ht Hnew.
  unfold store_block. cbn.
  assert (Hr : bs_records s !! id = None).
  { destruct (bs_records s !! id) eqn:E; [|done].
    destruct (sh_records _ (tk_shape _ Ht) id) as [? ?]; [by rewrite E|congruence]. }
  rewrite Hr. cbn. pose proof graft_not_numbered as Hn. unfold fetch_blocks_at_number in *. cbn.
  by rewrite Hn.
Qed.

(** The old fork data of the new block is that of a placeholder. *)
Lemma graft_old_quiet :
  quiet graft_old /\ fk_is_known graft_old = false /\ fk_is_included graft_old = false /\
  fk_invalid_reason graft_old = fk_invalid_reason graft_old.
Proof using Ht Hid Hnew Hnull.
  unfold graft_old, quiet. destruct (bs_forks s !! id) as [f|] eqn:Hf; cbn; [|done].
  destruct (fk_is_known f) eqn:Hk.
  - destruct (sh_known _ (tk_shape _ Ht) id f Hf Hk graft_not_null) as [? ?]. congruence.
  - destruct (nd_placeholder _ (tk_node _ Ht _ _ Hf) Hk) as (? & ? & ?). by split_and!.
Qed.

Lemma graft_lookup fin x :
  bs_forks (grafted fin) !! x =
    if decide (x = id) then Some fin
    else if decide (x = fb_previous b) then Some graft_prev else bs_forks s !! x.
Proof using.
  cbn. destruct (decide (x = id)) as [->|Hx]; [by rewrite lookup_insert_eq|].
  rewrite lookup_insert_ne by done. case_decide as Hp; [by rewrite Hp, lookup_insert_eq|].
  by rewrite lookup_insert_ne by done.
Qed.

(** Every block followed by one has the old followers, and the new block. *)
Lemma graft_shape fin :
  fk_next_blocks fin = fk_next_blocks graft_old -> fk_is_known fin = true -> shape_ok (grafted fin).
Proof using Ht Hid Hnew Hnull Hrank.
  intros Hfn Hfk. pose proof (tk_shape _ Ht) as Hs. pose proof graft_prev_ne as Hpi.
  assert (Hdata : forall y b', <[id := b]> (bs_data s) !! y = Some b' <->
            y = id /\ b' = b \/ bs_data s !! y = Some b').
  { intros y b'. rewrite lookup_insert_Some. split; [naive_solver|].
    intros [[-> ->]|Hy]; [by left|]. right. split; [|done]. intros <-. congruence. }
  split.
  - destruct (sh_root _ Hs) as (f & Hf & Hk). setoid_rewrite graft_lookup.
    rewrite decide_False by (apply not_eq_sym, graft_not_null). case_decide as Hp; [|eauto].
    exists graft_prev. split; [done|]. unfold graft_prev. by rewrite <- Hp, Hf.
  - intros y b' [[-> ->]|Hb']%Hdata.
    + split_and!; [done| | |].
      * exists (new_block_record clock seed b). split; [cbn; by rewrite lookup_insert_eq|done].
      * rewrite graft_lookup, decide_False, decide_True by done. eauto.
      * exists fin. by rewrite graft_lookup, decide_True.
    + assert (y <> id) by congruence.
      destruct (sh_data _ Hs _ _ Hb') as (Hy & (r & Hr & Hrh) & [fp Hfp] & f & Hf & Hk).
      split_and!; [done| | |].
      * exists r. split; [|done]. cbn. by rewrite lookup_insert_ne.
      * rewrite graft_lookup. do 2 (case_decide; [eauto|]). eauto.
      * setoid_rewrite graft_lookup. rewrite decide_False by done. case_decide as Hp; [|eauto].
        exists graft_prev. split; [done|]. unfold graft_prev. by rewrite <- Hp, Hf.
  - intros y. cbn. destruct (decide (y = id)) as [->|Hy]; [by rewrite !lookup_insert_eq|].
    rewrite !lookup_insert_ne by done. apply (sh_records _ Hs).
  - intros y f. rewrite graft_lookup. cbn. destruct (decide (y = id)) as [->|Hy].
    { intros _ _ _. rewrite lookup_insert_eq. eauto. }
    rewrite lookup_insert_ne by done. case_decide as Hp.
    + intros [= <-]. unfold graft_prev. destruct (bs_forks s !! fb_previous b) as [f|] eqn:Hf; [|done].
      cbn. subst y. by apply (sh_known _ Hs).
    + apply (sh_known _ Hs).
  - intros x f y. rewrite graft_lookup. cbn. setoid_rewrite Hdata. destruct (decide (x = id)) as [->|Hx].
    + intros [= <-]. rewrite Hfn. unfold graft_old. destruct (bs_forks s !! id) as [f|] eqn:Hf; cbn.
      * rewrite (sh_next _ Hs _ _ _ Hf). naive_solver.
      * split; [set_solver|]. intros (b' & [[-> ->]|Hb'] & Hp); [done|].
        apply (sh_data _ Hs) in Hb' as (_ & _ & [f' Hf'] & _). congruence.
    + case_decide as Hp.
      * intros [= <-]. subst x. unfold graft_prev. destruct (bs_forks s !! fb_previous b) as [f|] eqn:Hf; cbn.
        -- rewrite elem_of_union, elem_of_singleton, (sh_next _ Hs _ _ _ Hf). naive_solver.
        -- rewrite elem_of_union, elem_of_singleton. split; [intros [->|?]; [eauto|set_solver]|].
           intros (b' & [[-> ->]|Hb'] & Hpb); [by left|].
           apply (sh_data _ Hs) in Hb' as (_ & _ & [f' Hf'] & _). congruence.
      * intros Hf. rewrite (sh_next _ Hs _ _ _ Hf). naive_solver.
  - intros y n. unfold fetch_blocks_at_number. cbn. setoid_rewrite Hdata.
    destruct (decide (n = fb_block_num b)) as [->|Hn].
    + rewrite lookup_insert_eq. cbn. fold (fetch_blocks_at_number (fb_block_num b) s).
      rewrite elem_of_app, list_elem_of_singleton, (sh_numbers _ Hs). naive_solver.
    + rewrite lookup_insert_ne by done. fold (fetch_blocks_at_number n s).
      rewrite (sh_numbers _ Hs). naive_solver.
Qed.

Lemma graft_prev_labels f :
  bs_forks s !! fb_previous b = Some f ->
  fk_is_linked graft_prev = fk_is_linked f /\ fk_is_valid graft_prev = fk_is_valid f.
Proof using. intros Hf. unfold graft_prev. by rewrite Hf. Qed.

Lemma graft_prev_node : node_ok graft_prev.
Proof using Ht.
  unfold graft_prev. destruct (bs_forks s !! fb_previous b) as [f|] eqn:Hf; [|by split].
  by destruct (tk_node _ Ht _ _ Hf).
Qed.
Lemma graft_nodes fin x f : node_ok fin -> bs_forks (grafted fin) !! x = Some f -> node_ok f.
Proof using Ht.
  intros Hfin. rewrite graft_lookup. case_decide; [by intros [= <-]|].
  case_decide; [intros [= <-]; apply graft_prev_node|apply (tk_node _ Ht)].
Qed.

(** The flags of the blocks that were there before. *)
Lemma graft_old_labels fin x f f0 :
  x <> id -> bs_forks (grafted fin) !! x = Some f -> bs_forks s !! x = Some f0 ->
  fk_is_linked f = fk_is_linked f0 /\ fk_is_valid f = fk_is_valid f0.
Proof using.
  intros Hx. rewrite graft_lookup, decide_False by done. case_decide as Hp;
    [|intros Hf Hf0; rewrite Hf in Hf0; injection Hf0 as <-; by split].
  intros [= <-] Hf0. subst x. by apply graft_prev_labels.
Qed.

Lemma graft_edge fin c bc fp fc :
  bs_data (grafted fin) !! c = Some bc -> c <> id ->
  bs_forks (grafted fin) !! fb_previous bc = Some fp -> bs_forks (grafted fin) !! c = Some fc ->
  edge_ok (if decide (fb_previous bc = id) then graft_old else fp) fc.
Proof using Ht.
  intros Hbc Hc Hfp Hfc. cbn in Hbc. rewrite lookup_insert_ne in Hbc by done.
  destruct (sh_data _ (tk_shape _ Ht) _ _ Hbc) as (_ & _ & [fp0 Hfp0] & fc0 & Hfc0 & _).
  pose proof (tk_edge _ Ht _ _ _ _ Hbc Hfp0 Hfc0) as He.
  destruct (graft_old_labels fin c fc fc0 Hc Hfc Hfc0) as [L1 L2].
  case_decide as Hp.
  - assert (Ho : graft_old = fp0) by (unfold graft_old; by rewrite <- Hp, Hfp0).
    by eapply edge_labels; [exact He| | |exact L1|exact L2]; rewrite Ho.
  - destruct (graft_old_labels fin _ fp fp0 Hp Hfp Hfp0) as [L3 L4].
    by eapply edge_labels.
Qed.

Lemma graft_desc_quiet fin y :
  fk_next_blocks fin = fk_next_blocks graft_old -> fk_is_known fin = true ->
  below (bs_forks (grafted fin)) (fk_next_blocks fin) y ->
  exists fy, bs_forks (grafted fin) !! y = Some fy /\ quiet fy /\ fk_is_known fy = true.
Proof using Ht Hid Hnew Hnull Hrank.
  intros Hn Hk. pose proof (graft_shape fin Hn Hk) as Hs.
  assert (Hfin : bs_forks (grafted fin) !! id = Some fin) by (by rewrite graft_lookup, decide_True).
  revert y. apply (below_ind (grafted fin) id fin (fun y => exists fy, bs_forks (grafted fin) !! y = Some fy /\
    quiet fy /\ fk_is_known fy = true) Hs Hfin).
  intros y b' fp fy Hb' Hfp Hfy Hy Hp. exists fy. split; [done|].
  pose proof (graft_edge fin y b' fp fy Hb' Hy Hfp Hfy) as He. split.
  - apply (quiet_edge _ _ He). case_decide as Hpi; [apply graft_old_quiet|].
    destruct Hp as [|(fp' & Hfp' & Hq & _)]; [done|]. congruence.
  - apply (sh_data _ Hs) in Hb' as (_ & _ & _ & f & ? & ?). congruence.
Qed.

(** The tree after the descendants of the new block have got the flags of [g]. *)
Lemma graft_tree fin g D m' :
  fk_next_blocks fin = fk_next_blocks graft_old -> fk_is_known fin = true -> node_ok fin ->
  edge_ok graft_prev fin ->
  (forall f, fk_next_blocks (g f) = fk_next_blocks f) -> (forall f, fk_is_known (g f) = fk_is_known f) ->
  (forall f, quiet f -> fk_is_known f = true -> node_ok f -> node_ok (g f)) ->
  (forall fc, quiet fc -> fk_next_blocks fin <> ∅ -> edge_ok fin (g fc)) ->
  (forall fp fc, quiet fp -> quiet fc -> edge_ok (g fp) (g fc)) ->
  (forall y, y ∈ D <-> below (bs_forks (grafted fin)) (fk_next_blocks fin) y) ->
  marked g D (bs_forks (grafted fin)) m' -> tree_ok (set_bs_forks m' (grafted fin)).
Proof using Ht Hid Hnew Hnull Hrank.
  intros Hn Hk Hnode Hedge Hgn Hgk Hgnode Hge1 Hge2 HD Hm.
  pose proof (graft_shape fin Hn Hk) as Hs.
  assert (Hfin : bs_forks (grafted fin) !! id = Some fin) by (by rewrite graft_lookup, decide_True).
  assert (HidD : id ∉ D).
  { intros Hin%HD. by destruct (below_prev _ _ _ _ Hs Hfin Hin). }
  assert (HDq : forall y f, y ∈ D -> bs_forks (grafted fin) !! y = Some f -> quiet f /\ fk_is_known f = true).
  { intros y f Hy Hf. apply HD in Hy. destruct (graft_desc_quiet fin y Hn Hk Hy) as (f' & Hf' & ?). congruence. }
  apply (tree_marked (grafted fin) g D); try done.
  - destruct (tk_root _ Ht) as (f0 & Hf0 & Hl0 & Hv0).
    assert (Hr : exists f, bs_forks (grafted fin) !! null_block_id = Some f /\ fk_is_linked f = true /\ fork_valid f = true).
    { setoid_rewrite graft_lookup. rewrite decide_False by (apply not_eq_sym, graft_not_null).
      case_decide as Hp; [|eauto]. exists graft_prev. split; [done|].
      rewrite Hp in Hf0. destruct (graft_prev_labels _ Hf0) as [L1 L2]. unfold fork_valid in *. by rewrite L1, L2. }
    destruct Hr as (f & Hf & Hl & Hv). exists f. split_and!; try done.
    intros Hin. destruct (HDq _ _ Hin Hf) as [[Hq _] _]. congruence.
  - intros x f Hf. unfold relabel. pose proof (graft_nodes fin x f Hnode Hf) as Hnd.
    case_decide as Hx; [|done]. destruct (HDq _ _ Hx Hf). auto.
  - intros c bc fp fc Hbc Hfp Hfc. destruct (decide (c = id)) as [->|Hc].
    + cbn in Hbc. rewrite lookup_insert_eq in Hbc. injection Hbc as <-.
      assert (fc = fin) as -> by congruence.
      rewrite graft_lookup, decide_False, decide_True in Hfp by (done || apply graft_prev_ne).
      injection Hfp as <-. unfold relabel. rewrite (decide_False (P := id ∈ D)) by done.
      rewrite decide_False; [done|]. intros Hin. apply HD in Hin.
      apply HidD, HD, (below_next _ _ fin id b Hs Hfin); [cbn; by rewrite lookup_insert_eq|by right].
    + pose proof (graft_edge fin c bc fp fc Hbc Hc Hfp Hfc) as He. unfold relabel.
      destruct (decide (c ∈ D)) as [Hin|Hin].
      * destruct (HDq _ _ Hin Hfc) as [Hq _]. pose proof Hin as Hin'. apply HD in Hin'.
        destruct (below_prev _ _ _ _ Hs Hfin Hin') as (_ & b' & _ & Hb' & _ & Hp).
        assert (b' = bc) as -> by congruence. destruct Hp as [Hp|Hp].
        -- rewrite Hp in *. rewrite decide_False by done. assert (fp = fin) as -> by congruence.
           apply Hge1; [done|]. destruct Hin' as (r & Hr & _). set_solver.
        -- apply HD in Hp. rewrite decide_True by done. apply Hge2; [|done]. by apply (HDq _ _ Hp Hfp).
      * assert (Hpn : fb_previous bc <> id /\ fb_previous bc ∉ D).
        { split; intros Hp; apply Hin, HD, (below_next _ _ fin c bc Hs Hfin Hbc); [by left|right].
          by apply HD. }
        rewrite decide_False by apply Hpn. by rewrite decide_False in He by apply Hpn.
Qed.

(** The number of a known block. *)
Definition num_of (st : block_store) (y : Z) : Z := from_option fb_block_num 0 (bs_data st !! y).

(** What [store_and_index] returns: a block that can be linked is the highest of
    those after the new one, or the new one itself. *)
Definition longest_ok (st : block_store) (lid : Z) (lf : block_fork_data) : Prop :=
  can_link lf = true ->
  bs_forks st !! lid = Some lf /\
  exists f, bs_forks st !! id = Some f /\ (lid = id \/ below (bs_forks st) (fk_next_blocks f) lid) /\
    forall y, below (bs_forks st) (fk_next_blocks f) y -> num_of st y <= num_of st lid.

Definition indexed (res : result (block_store * (Z * block_fork_data))) : Prop :=
  exists st lid lf, res = Ok (st, (lid, lf)) /\ tree_ok st /\
    bs_data st = <[id := b]> (bs_data s) /\ longest_ok st lid lf.

Lemma graft_reason : fork_invalid graft_prev = true -> is_Some (fk_invalid_reason graft_prev).
Proof using Ht. apply (nd_reason _ graft_prev_node). Qed.

(** Flags left as they are. *)
Lemma graft_unchanged fin :
  fk_next_blocks fin = fk_next_blocks graft_old -> fk_is_known fin = true -> node_ok fin ->
  edge_ok graft_prev fin -> quiet fin \/ fk_next_blocks fin = ∅ -> tree_ok (grafted fin).
Proof using Ht Hid Hnew Hnull Hrank.
  intros Hn Hk Hnode Hedge Hq. pose proof (graft_shape fin Hn Hk) as Hs.
  assert (Hfin : bs_forks (grafted fin) !! id = Some fin) by (by rewrite graft_lookup, decide_True).
  change (grafted fin) with (set_bs_forks (bs_forks (grafted fin)) (grafted fin)).
  apply (graft_tree fin (fun f => f) (reach (size (bs_forks (grafted fin))) (bs_forks (grafted fin)) (fk_next_blocks fin)));
    try done.
  - intros fc [Hl Hv] Hne. destruct Hq as [[Hlf Hvf]|]; [|done].
    unfold quiet in *. split; unfold fork_valid, fork_invalid; rewrite ?Hl, ?Hv, ?Hlf, ?Hvf; done.
  - intros fp fc [Hl1 Hv1] [Hl2 Hv2].
    split; unfold fork_valid, fork_invalid; rewrite ?Hl1, ?Hv1, ?Hl2, ?Hv2; done.
  - intros y. apply (reach_below rank).
    + intros x z. by apply follows_rank.
    + intros x z. by apply follows_dom.
    + by eapply next_dom.
  - intros x. case_decide; [|done]. by destruct (bs_forks (grafted fin) !! x).
Qed.

Lemma graft_leaf : bs_forks s !! id = None -> indexed (Ok (add_leaf id graft_prev (grafted new_fork))).
Proof using Ht Hid Hnew Hnull Hrank.
  intros Hnone. unfold add_leaf.
  set (fin := inherit_invalid graft_prev (set_fork_linked (fk_is_linked graft_prev) (set_fork_known true new_fork))).
  assert (Hst : set_bs_forks (<[id := fin]> (bs_forks (grafted new_fork))) (grafted new_fork) = grafted fin).
  { unfold grafted, set_bs_forks. cbn. by rewrite insert_insert_eq. }
  rewrite Hst.
  assert (Ho : graft_old = new_fork) by (unfold graft_old; by rewrite Hnone).
  assert (Hfin : fk_next_blocks fin = ∅ /\ fk_is_known fin = true).
  { unfold fin, inherit_invalid. by destruct (fork_invalid graft_prev). }
  exists (grafted fin), id, fin. split_and!; try done.
  - apply graft_unchanged; [by rewrite Ho; apply Hfin|apply Hfin| | |right; apply Hfin].
    + unfold fin, inherit_invalid. destruct (fork_invalid graft_prev) eqn:Hi; split; cbn; try done.
      intros _. by apply graft_reason.
    + unfold fin, inherit_invalid. destruct (fork_invalid graft_prev) eqn:Hi; split; cbn; rewrite ?Hi; try done; auto.
  - intros _. split; [by rewrite graft_lookup, decide_True|]. exists fin.
    split_and!; [by rewrite graft_lookup, decide_True|by left|].
    intros y (r & Hr & _). rewrite (proj1 Hfin) in Hr. set_solver.
Qed.

Section placeholder.
Context (cf : block_fork_data).
Hypothesis Hcf : bs_forks s !! id = Some cf.

Lemma placeholder_old : graft_old = cf.
Proof using Hcf. unfold graft_old. by rewrite Hcf. Qed.

(** The stores after the previous block has learned of the new one. *)
Definition announced : block_store :=
  set_bs_forks (<[fb_previous b := graft_prev]> (bs_forks s)) (grafted new_fork).

Lemma announced_insert fin :
  set_bs_forks (<[id := fin]> (bs_forks announced)) announced = grafted fin.
Proof using. done. Qed.

(** The previous block is not linked. *)
Lemma fill_unlinked :
  fk_is_linked graft_prev = false -> indexed (fill_placeholder id graft_prev cf announced).
Proof using Ht Hid Hnew Hnull Hrank Hcf.
  intros Hl. destruct graft_old_quiet as ([Hql Hqv] & Hk & Hinc & _). rewrite placeholder_old in *.
  unfold fill_placeholder. cbn [fk_is_linked set_fork_known]. rewrite Hql. cbn. rewrite Hl.
  set (fin := set_fork_known true cf).
  exists (grafted fin), id, fin. split_and!; [done| |done|].
  - apply graft_unchanged; try done.
    + by rewrite placeholder_old.
    + split; cbn; unfold fork_invalid, fork_valid; cbn; rewrite ?Hqv, ?Hinc; done.
    + split; cbn; unfold fork_invalid, fork_valid; cbn; rewrite ?Hqv, ?Hql, ?Hl; done.
    + by left.
  - unfold longest_ok, can_link. cbn. by rewrite Hql.
Qed.

(** The previous block is linked but invalid: so are the new block and its
    descendants. *)
Lemma fill_invalid :
  fk_is_linked graft_prev = true -> fork_invalid graft_prev = true ->
  indexed (fill_placeholder id graft_prev cf announced).
Proof using Ht Hid Hnew Hnull Hrank Hcf.
  intros Hl Hi. destruct graft_old_quiet as ([Hql Hqv] & Hk & Hinc & _). rewrite placeholder_old in *.
  destruct (graft_reason Hi) as [reason Hr].
  unfold fill_placeholder. cbn [fk_is_linked set_fork_known]. rewrite Hql. cbn [negb]. cbn [c_assert throw_if].
  unfold c_assert. cbn. rewrite Hl, Hi, Hr. cbn.
  set (fin := inherit_invalid graft_prev (set_fork_linked true (set_fork_known true cf))).
  assert (Hfin : fin = set_fork_validity (Some false) (Some reason) (set_fork_linked true (set_fork_known true cf))).
  { unfold fin, inherit_invalid. by rewrite Hi, Hr. }
  assert (Hfn : fk_next_blocks fin = fk_next_blocks graft_old) by (by rewrite Hfin, placeholder_old).
  assert (Hfk : fk_is_known fin = true) by (by rewrite Hfin).
  pose proof (graft_shape fin Hfn Hfk) as Hs.
  assert (Hlook : bs_forks (grafted fin) !! id = Some fin) by (by rewrite graft_lookup, decide_True).
  set (g := set_fork_validity (Some false) (Some reason)).
  unfold recursive_mark_as_invalid. cbn [bs_forks set_bs_forks].
  change (<[id := fin]> (<[fb_previous b := graft_prev]> (bs_forks s))) with (bs_forks (grafted fin)).
  destruct (sweep (visit_invalid reason) g (fun _ f => fork_valid f = false) (fun _ _ => True) (grafted fin) id fin
              ∅ (bs_forks (grafted fin)) tt Hs Hlook) as (D & m' & [] & He & Hm' & _ & HD); try done.
  { intros y f0 f1 [] D _ Hok Hf1 _. exists tt. unfold visit_invalid.
    destruct Hf1 as [->| ->]; cbn; [by rewrite Hok|done]. }
  { intros y Hy. destruct (graft_desc_quiet fin y Hfn Hfk Hy) as (fy & Hfy & [_ Hv] & _).
    exists fy. split; [done|]. unfold fork_valid. by rewrite Hv. }
  rewrite He. cbn.
  exists (set_bs_forks m' (grafted fin)), id, fin. split_and!; [done| |done|].
  - apply (graft_tree fin g D); try done.
    + rewrite Hfin. split; cbn; try done. congruence.
    + rewrite Hfin. split; cbn; rewrite ?Hl, ?Hi; try done. by left.
    + intros f [Hq1 Hq2] Hkn Hnd. apply invalid_node; [done|done|]. unfold fork_valid. by rewrite Hq2.
    + intros fc [Hq1 Hq2] _. rewrite Hfin. split; cbn; try done. by right.
    + intros fp fc [Hq1 Hq2] [Hq3 Hq4]. split; cbn; rewrite ?Hq1, ?Hq3; try done. by right.
    + intros y. rewrite HD. set_solver.
  - unfold longest_ok, can_link. by rewrite Hfin.
Qed.

(** The record of a descendant has its number. *)
Lemma visit_linked_num fin y f a bd :
  shape_ok (grafted fin) -> bs_data (grafted fin) !! y = Some bd ->
  visit_linked (bs_records (grafted fin)) y f a =
    Ok (set_fork_linked true f,
        if fb_block_num bd >? a.2 then (y, set_fork_linked true f, fb_block_num bd) else a).
Proof using.
  intros Hs Hy. destruct a as [[l lf] n]. apply (sh_data _ Hs) in Hy as (_ & (r & Hr & Hh) & _).
  unfold visit_linked, fetch. rewrite Hr. cbn. unfold bk_head. rewrite Hh. done.
Qed.

(** The previous block is linked and not invalid: the descendants become
    linked, and the highest of them is returned. *)
Lemma fill_linked :
  fk_is_linked graft_prev = true -> fork_invalid graft_prev = false ->
  indexed (fill_placeholder id graft_prev cf announced).
Proof using Ht Hid Hnew Hnull Hrank Hcf.
  intros Hl Hi. destruct graft_old_quiet as ([Hql Hqv] & Hk & Hinc & _). rewrite placeholder_old in *.
  unfold fill_placeholder. cbn [fk_is_linked set_fork_known]. rewrite Hql. unfold c_assert. cbn. rewrite Hl, Hi.
  set (fin := inherit_invalid graft_prev (set_fork_linked true (set_fork_known true cf))).
  assert (Hfin : fin = set_fork_linked true (set_fork_known true cf)) by (unfold fin, inherit_invalid; by rewrite Hi).
  assert (Hfn : fk_next_blocks fin = fk_next_blocks graft_old) by (by rewrite Hfin, placeholder_old).
  assert (Hfk : fk_is_known fin = true) by (by rewrite Hfin).
  pose proof (graft_shape fin Hfn Hfk) as Hs.
  assert (Hlook : bs_forks (grafted fin) !! id = Some fin) by (by rewrite graft_lookup, decide_True).
  set (g := set_fork_linked true).
  unfold recursive_mark_as_linked. cbn [bs_forks set_bs_forks bs_records announced].
  change (<[id := fin]> (<[fb_previous b := graft_prev]> (bs_forks s))) with (bs_forks (grafted fin)).
  change (bs_records (grafted new_fork)) with (bs_records (grafted fin)).
  set (I := fun (D : gset Z) (a : Z * block_fork_data * Z) =>
    (forall y, y ∈ D -> num_of (grafted fin) y <= a.2) /\
    (a.1.2 = new_fork \/ a.1.1 ∈ D /\ a.2 = num_of (grafted fin) a.1.1 /\
       exists f0, bs_forks (grafted fin) !! a.1.1 = Some f0 /\ a.1.2 = g f0)).
  destruct (sweep (visit_linked (bs_records (grafted fin))) g
    (fun y _ => is_Some (bs_data (grafted fin) !! y)) I (grafted fin) id fin
    ∅ (bs_forks (grafted fin)) (null_block_id, new_fork, 0) Hs Hlook) as (D & m' & a & He & Hm' & [HI1 HI2] & HD); try done.
  { intros y f0 f1 [[l lf] n] D Hy [bd Hbd] Hf1 [HI1 HI2].
    rewrite (visit_linked_num fin y f1 _ bd Hs Hbd). eexists. split; [done|].
    assert (Hnum : num_of (grafted fin) y = fb_block_num bd) by (unfold num_of; by rewrite Hbd).
    assert (Hg : g f1 = g f0) by (by destruct Hf1 as [->| ->]).
    unfold I. cbn in *. rewrite Z.gtb_ltb. destruct (Z.ltb_spec n (fb_block_num bd)) as [Hn|Hn]; cbn.
    - split; [|right; split_and!; [set_solver|done|eauto]].
      intros z [->%elem_of_singleton|Hz]%elem_of_union; [lia|]. specialize (HI1 z Hz). lia.
    - split; [|destruct HI2 as [|(? & ? & ?)]; [by left|right; split_and!; [set_solver|done|done]]].
      intros z [->%elem_of_singleton|Hz]%elem_of_union; [lia|]. by apply HI1. }
  { split; [set_solver|by left]. }
  { intros y Hy. destruct (below_prev _ _ _ _ Hs Hlook Hy) as (_ & bd & fy & Hbd & Hfy & _). eauto. }
  rewrite He. destruct a as [[l lf] n]. cbn in *.
  assert (HD' : forall y, y ∈ D <-> below (bs_forks (grafted fin)) (fk_next_blocks fin) y)
    by (intros y; rewrite HD; set_solver).
  exists (set_bs_forks m' (grafted fin)), l, lf. split_and!; [done| |done|].
  - apply (graft_tree fin g D); try done.
    + rewrite Hfin. split; cbn; unfold fork_valid, fork_invalid; cbn; rewrite ?Hqv, ?Hinc; done.
    + rewrite Hfin. split; cbn; unfold fork_valid, fork_invalid in *; cbn; rewrite ?Hqv, ?Hl, ?Hi; done.
    + intros f [Hq1 Hq2] Hkn [N1 N2 N3 N4]. split; cbn; unfold fork_valid, fork_invalid in *; cbn; rewrite ?Hq2 in *; try done.
      congruence.
    + intros fc [Hq1 Hq2] _. rewrite Hfin. split; cbn; unfold fork_valid, fork_invalid; cbn; rewrite ?Hq2, ?Hqv; done.
    + intros fp fc [Hq1 Hq2] [Hq3 Hq4]. split; cbn; unfold fork_valid, fork_invalid; cbn; rewrite ?Hq2, ?Hq4; done.
  - intros Hcl. destruct HI2 as [->|(Hlin & Hln & f0 & Hf0 & ->)]; [done|].
    assert (Hnd : id ∉ D).
    { intros Hin%HD'. by destruct (below_prev _ _ _ _ Hs Hlook Hin). }
    assert (Hbel : forall y, below m' (fk_next_blocks fin) y <-> y ∈ D).
    { intros y. rewrite HD'. unfold below.
      assert (Hnx : forall x, next_of m' x = next_of (bs_forks (grafted fin)) x)
        by (apply (marked_next g (bs_forks (grafted fin)) ltac:(done) D m' Hm')).
      split; intros (r & Hr & Hrt); exists r; (split; [done|]); revert Hrt;
        apply rtc_subrel; intros x z; unfold follows; by rewrite Hnx. }
    split; [cbn; rewrite Hm', decide_True by done; by rewrite Hf0|].
    exists fin. split_and!; [cbn; by rewrite Hm', decide_False|right; by apply Hbel|].
    intros y Hy%Hbel. cbn. specialize (HI1 y Hy). unfold num_of in *. cbn in *. lia.
Qed.
End placeholder.
End graft.

(** C10: storing a new block never fails, keeps the block tree's invariant, and
    returns, if that can be linked to the genesis block, the new block itself
    or the highest of the blocks already known that come after it. *)
Theorem store_and_index_spec s clock seed id b :
  tree_ok s -> id = fb_id b -> bs_data s !! id = None ->
  indexed s id b (store_and_index clock seed id b s).
Proof using Hnull Hrank.
  intros Ht Hid Hnew. unfold store_and_index, c_assert. rewrite Hnew. cbn [negb throw_if mbind result_bind].
  assert (Hk : match bs_forks s !! id with Some f => negb (fk_is_known f) | None => true end = true).
  { destruct (graft_old_quiet s id b Ht Hid Hnew) as (_ & Hk & _). unfold graft_old in Hk.
    destruct (bs_forks s !! id); cbn in Hk; [by rewrite Hk|done]. }
  rewrite Hk, (graft_not_numbered s id b Ht Hnew). cbn [negb throw_if mbind result_bind].
  rewrite (graft_store_block s clock seed id b Ht Hnew). unfold announce_to_previous.
  cbn [bs_forks set_bs_forks]. fold (graft_prev s id b).
  rewrite lookup_insert_ne by (by apply graft_prev_ne).
  change (set_bs_forks (<[fb_previous b := graft_prev s id b]> (bs_forks s))
            (set_bs_forks (bs_forks s) (grafted s clock seed id b new_fork)))
    with (announced s clock seed id b).
  destruct (bs_forks s !! id) as [cf|] eqn:Hcf.
  - destruct (fk_is_linked (graft_prev s id b)) eqn:Hl; [|by apply fill_unlinked].
    destruct (fork_invalid (graft_prev s id b)) eqn:Hi; [by apply fill_invalid|by apply fill_linked].
  - pose proof (graft_leaf s clock seed id b Ht Hid Hnew Hcf) as Hleaf. revert Hleaf.
    unfold add_leaf. cbn [bs_forks set_bs_forks grafted announced]. rewrite insert_insert_eq. done.
Qed.
End tree.
