(* ===== verification/Chain.v ===== *)
(** * Chain: extending, popping and switching the chain (chain_database.cpp)

    [chain] is chain_database_impl: the record stores of ChainDatabase.v, the
    head block, the block tree of Forks.v, the index of the chain's block
    numbers, the undo states and the pool of pending transactions.
    [ch_revalidate] says that the task that revalidates the pool is scheduled.

    An exception does not roll the stores back, so a step of the chain returns
    the state it leaves behind whether or not it throws: [act].  C's [assert]
    ([assertion_abort]) ends the process and is not caught. *)
From S2P Require Import Prelude Config Fc Asset Records ChainInterface PendingState ChainDatabase.
From S2P Require Import EvalState Evaluate MarketOps Apply Undo Blocks Production Forks.

(** [CHECKPOINT_BLOCKS] (checkpoints.hpp), as chain_database.cpp sees it. *)
Definition CHECKPOINT_BLOCKS : gmap Z Z := list_to_map
  [ (1, 0x8abcfb93c52f999e3ef5288c4f837f4f15af5521);
    (100000, 0x96f98d49722848a6a47ad04aece8b9f93c9e9c23);
    (200000, 0x222ddc49db592103c51ad22cdc4140185ef564d9);
    (300000, 0x0d1d0b8f7f1f4590f8e083edc03869383ed74e3e);
    (400000, 0x053d398b6597d5c61365afd100d87b824bf49f65);
    (500000, 0xf02910a7115fb826984ce3a432cb371d5d7a99b8);
    (600000, 0xf278db8722235343c9db9f077fe67c54a5f25f3b);
    (700000, 0xf120ff9b159661b9ac084a0a69c58dcbd79cbb49);
    (800000, 0x0e94ad17c598e42e5ec2f522a05bf4df6a1778da);
    (900000, 0xa78e09bf1fd13bcd7b0959bc0764fe45db0a652d);
    (1000000, 0x20da1352f86f0fc7d5b42f5e96be86ea5b219b6f);
    (1100000, 0xbec7da4758ad453a49a9d9d4128acb92a1fdfd04);
    (1200000, 0x9e514e0f0a17d78be7c0045f9f22a253812c6c92);
    (1246469, 0x68b7e003ca08d50843faaddcf696cfff1954ede3);
    (1246900, 0xb5214c1bc914ea5da6c1bb8f774d07f12b85dbe2);
    (1279500, 0x488313d2c1c85bdec117bac0379f7b17f7cfbed3) ].
Definition last_checkpoint_block_num : Z := 1279500.

(** ** The state *)

Record chain := mk_chain {
  ch_db : chain_database;
  ch_head : signed_block_header;
  ch_head_id : Z;
  ch_blocks : block_store;
  ch_num_to_id : gmap Z Z;
  ch_undo : gmap Z pending_chain_state;
  ch_future_blocks : gset Z;
  ch_pending_transactions : gmap Z signed_transaction;
  ch_pending_fee_index : gmap (Z * Z) eval_data;
  ch_pending_trx_state : option pending_chain_state;
  ch_revalidate : bool;
  ch_skip_signatures : bool;
  ch_relay_fee : Z
}.

Definition set_ch_db (v : chain_database) (c : chain) : chain :=
  mk_chain v (ch_head c) (ch_head_id c) (ch_blocks c) (ch_num_to_id c) (ch_undo c) (ch_future_blocks c)
    (ch_pending_transactions c) (ch_pending_fee_index c) (ch_pending_trx_state c) (ch_revalidate c)
    (ch_skip_signatures c) (ch_relay_fee c).
Definition set_ch_head (h : signed_block_header) (c : chain) : chain :=
  mk_chain (ch_db c) h (ch_head_id c) (ch_blocks c) (ch_num_to_id c) (ch_undo c) (ch_future_blocks c)
    (ch_pending_transactions c) (ch_pending_fee_index c) (ch_pending_trx_state c) (ch_revalidate c)
    (ch_skip_signatures c) (ch_relay_fee c).
Definition set_ch_head_id (v : Z) (c : chain) : chain :=
  mk_chain (ch_db c) (ch_head c) v (ch_blocks c) (ch_num_to_id c) (ch_undo c) (ch_future_blocks c)
    (ch_pending_transactions c) (ch_pending_fee_index c) (ch_pending_trx_state c) (ch_revalidate c)
    (ch_skip_signatures c) (ch_relay_fee c).
Definition set_ch_blocks (v : block_store) (c : chain) : chain :=
  mk_chain (ch_db c) (ch_head c) (ch_head_id c) v (ch_num_to_id c) (ch_undo c) (ch_future_blocks c)
    (ch_pending_transactions c) (ch_pending_fee_index c) (ch_pending_trx_state c) (ch_revalidate c)
    (ch_skip_signatures c) (ch_relay_fee c).
Definition set_ch_num_to_id (v : gmap Z Z) (c : chain) : chain :=
  mk_chain (ch_db c) (ch_head c) (ch_head_id c) (ch_blocks c) v (ch_undo c) (ch_future_blocks c)
    (ch_pending_transactions c) (ch_pending_fee_index c) (ch_pending_trx_state c) (ch_revalidate c)
    (ch_skip_signatures c) (ch_relay_fee c).
Definition set_ch_undo (v : gmap Z pending_chain_state) (c : chain) : chain :=
  mk_chain (ch_db c) (ch_head c) (ch_head_id c) (ch_blocks c) (ch_num_to_id c) v (ch_future_blocks c)
    (ch_pending_transactions c) (ch_pending_fee_index c) (ch_pending_trx_state c) (ch_revalidate c)
    (ch_skip_signatures c) (ch_relay_fee c).
Definition set_ch_future_blocks (v : gset Z) (c : chain) : chain :=
  mk_chain (ch_db c) (ch_head c) (ch_head_id c) (ch_blocks c) (ch_num_to_id c) (ch_undo c) v
    (ch_pending_transactions c) (ch_pending_fee_index c) (ch_pending_trx_state c) (ch_revalidate c)
    (ch_skip_signatures c) (ch_relay_fee c).
Definition set_ch_pending (trxs : gmap Z signed_transaction) (fees : gmap (Z * Z) eval_data)
    (st : option pending_chain_state) (revalidate : bool) (c : chain) : chain :=
  mk_chain (ch_db c) (ch_head c) (ch_head_id c) (ch_blocks c) (ch_num_to_id c) (ch_undo c)
    (ch_future_blocks c) trxs fees st revalidate (ch_skip_signatures c) (ch_relay_fee c).

Definition ch_head_num (c : chain) : Z := bh_block_num (sb_header (ch_head c)).

(** ** Steps of the chain *)

Definition act (A : Type) : Type := chain -> chain * result A.

Definition act_ret {A} (a : A) : act A := fun c => (c, Ok a).
Definition act_bind {A B} (m : act A) (k : A -> act B) : act B :=
  fun c => match m c with
           | (c', Ok a) => k a c'
           | (c', Err e) => (c', Err e)
           end.
Declare Scope act_scope.
Delimit Scope act_scope with act.
Notation "x <-- m ;; k" := (act_bind m (fun x => k))
  (at level 100, m at next level, right associativity) : act_scope.
Notation "m ;;; k" := (act_bind m (fun _ => k)) (at level 100, right associativity) : act_scope.

(** A computation that reads the state, and one that replaces it or throws and
    leaves it alone. *)
Definition reads {A} (f : chain -> result A) : act A := fun c => (c, f c).
Definition modify (f : chain -> result chain) : act unit :=
  fun c => match f c with Ok c' => (c', Ok tt) | Err e => (c, Err e) end.
Definition put_ (f : chain -> chain) : act unit := fun c => (f c, Ok tt).

Definition is_abort (e : error) : bool :=
  match e with assertion_abort | arithmetic_fault => true | _ => false end.

(** [try { m } catch( const fc::exception& e ) { h( e ) }] *)
Definition try_catch {A} (m : act A) (h : error -> act A) : act A :=
  fun c => match m c with
           | (c', Err e) => if is_abort e then (c', Err e) else h e c'
           | r => r
           end.

(** [for( x : l ) f( x )] *)
Fixpoint act_each {A} (f : A -> act unit) (l : list A) : act unit :=
  match l with
  | [] => act_ret tt
  | x :: l => act_bind (f x) (fun _ => act_each f l)
  end.

(** ** Applying changes, exceptions included *)

Section steps.
Context {St : Type} `{!ChainStore St}.

Definition map_steps {K V} `{Countable K} (f : K -> V -> St -> result St) (m : gmap K V)
    : list (St -> result St) := (fun kv => f kv.1 kv.2) <$> map_to_list m.

(** The state a sequence of updates leaves behind, and the exception that ended
    it. *)
Fixpoint run_steps (l : list (St -> result St)) (s : St) : St * option error :=
  match l with
  | [] => (s, None)
  | f :: l => match f s with Ok s' => run_steps l s' | Err e => (s, Some e) end
  end.

(** The updates of [apply_changes] in order. *)
Definition apply_changes_steps (p : pending_chain_state) : list (St -> result St) :=
  match ps_prev p with
  | None => []
  | Some _ =>
      map_steps (put cs_set_property) (ps_properties p)
      ++ map_steps (put_record cs_store_asset) (ps_assets p)
      ++ map_steps (fun _ r s => cs_store_account r s) (ps_accounts p)
      ++ map_steps (put_record cs_store_balance) (ps_balances p)
      ++ map_steps (put cs_authorize) (ps_authorizations p)
      ++ map_steps (put cs_store_bid) (ps_bids p)
      ++ map_steps (put cs_store_relative_bid) (ps_relative_bids p)
      ++ map_steps (put cs_store_ask) (ps_asks p)
      ++ map_steps (put cs_store_relative_ask) (ps_relative_asks p)
      ++ map_steps (put cs_store_short) (ps_shorts p)
      ++ map_steps (put cs_store_collateral) (ps_collateral p)
      ++ map_steps cs_store_transaction (ps_transactions p)
      ++ map_steps (put cs_store_slate) (ps_slates p)
      ++ map_steps (put_record cs_store_slot) (ps_slots p)
      ++ map_steps (put cs_store_market_history) (ps_market_history p)
      ++ map_steps (put_record cs_store_market_status) (ps_market_statuses p)
      ++ map_steps (put_record cs_store_proposal) (ps_asset_proposals p)
      ++ map_steps (put_record cs_set_feed) (ps_feeds p)
      ++ map_steps (fun _ q s => Ok (foldl (fun s o => cs_store_recent_operation o s) s q))
           (ps_recent_operations p)
      ++ map_steps (put cs_store_burn) (ps_burns p)
      ++ [ cs_set_market_transactions (ps_market_transactions p);
           fun s => Ok (cs_set_dirty_markets (elements (ps_dirty_markets p)) s) ]
  end.
End steps.

(** ** Market engines *)

(** The engines of the forks: market_engine_v1.cpp to market_engine_v7.cpp and
    market_engine.cpp. *)
Inductive engine_version :=
| engine_v1 | engine_v2 | engine_v3 | engine_v4 | engine_v5 | engine_v6 | engine_v7 | engine_current.

(** What the chain calls of an engine.  [engine_execute] is the effect of
    [execute] on the block's pending state, with the transactions to record if
    it returned true.  An engine changes the pending state by its update
    methods only. *)
Class MarketEngine `{Crypto} := {
  engine_execute : engine_version -> chain_database -> Z -> Z -> Z -> pending_chain_state ->
    result (pending_chain_state * list market_transaction);
  engine_cancel_all_shorts : engine_version -> chain_database -> Z -> pending_chain_state ->
    result (pending_chain_state * list market_transaction);
  engine_execute_steps v db q b t p p' l :
    engine_execute v db q b t p = Ok (p', l) -> rtc pending_step p p' /\ ps_prev p' = ps_prev p;
  engine_cancel_steps v db t p p' l :
    engine_cancel_all_shorts v db t p = Ok (p', l) -> rtc pending_step p p' /\ ps_prev p' = ps_prev p
}.

Section chain.
Context `{Crypto} `{BlockHash} `{FcNum} `{FcReal} `{!MarketEngine}.

(** The engine [execute_markets_v1] runs a market with, if any. *)
Definition engine_at (block_num : Z) : option engine_version :=
  if block_num >=? BTS_V0_4_29_FORK_BLOCK_NUM then Some engine_current
  else if block_num >? BTS_V0_4_21_FORK_BLOCK_NUM then Some engine_v7
  else if block_num =? BTS_V0_4_21_FORK_BLOCK_NUM then None
  else if block_num >=? BTS_V0_4_19_FORK_BLOCK_NUM then Some engine_v6
  else if block_num >? BTS_V0_4_17_FORK_BLOCK_NUM then Some engine_v5
  else if block_num =? BTS_V0_4_17_FORK_BLOCK_NUM then None
  else if block_num >? BTS_V0_4_16_FORK_BLOCK_NUM then Some engine_v4
  else if block_num =? BTS_V0_4_16_FORK_BLOCK_NUM then None
  else if block_num >=? BTS_V0_4_13_FORK_BLOCK_NUM then Some engine_v3
  else if block_num >=? BTS_V0_4_0_FORK_BLOCK_NUM then Some engine_v2
  else Some engine_v1.

(** One dirty market. *)
Definition execute_market (engine : option engine_version) (db : chain_database) (timestamp : Z)
    (acc : pending_chain_state * list market_transaction) (market_pair : Z * Z)
    : result (pending_chain_state * list market_transaction) :=
  let '(p, trxs) := acc in
  _ ← fc_assert (market_pair.1 >? market_pair.2);
  match engine with
  | None => Ok (p, trxs)
  | Some v =>
      '(p, l) ← engine_execute v db market_pair.1 market_pair.2 timestamp p;
      Ok (p, trxs ++ l)
  end.

(** [chain_database_impl::execute_markets_v1]; [header_time] reads the timestamp
    of an earlier block of the chain. *)
Definition execute_markets_v1 (db : chain_database) (header_time : Z -> result Z) (timestamp : Z)
    (p : pending_chain_state) : result pending_chain_state :=
  let num := pending_get_head_block_num p in
  '(p, trxs) ←
    (if num =? BTS_V0_4_17_FORK_BLOCK_NUM
     then t ← header_time BTS_V0_4_16_FORK_BLOCK_NUM; engine_cancel_all_shorts engine_v4 db t p
     else if num =? BTS_V0_4_21_FORK_BLOCK_NUM
     then engine_cancel_all_shorts engine_v6 db 0 p
     else Ok (p, []));
  '(p, trxs) ← fold_result (execute_market (engine_at num) db timestamp) (p, trxs)
                 (get_dirty_markets (db_view db));
  let p := if num <? BTS_V0_4_9_FORK_BLOCK_NUM
           then pending_set_dirty_markets (elements (ps_dirty_markets p)) p else p in
  Ok (pending_set_market_transactions trxs p).

(** [chain_database_impl::execute_markets] *)
Definition execute_markets (db : chain_database) (header_time : Z -> result Z) (timestamp : Z)
    (p : pending_chain_state) : result pending_chain_state :=
  if pending_get_head_block_num p <? BTS_V0_4_29_FORK_BLOCK_NUM
  then execute_markets_v1 db header_time timestamp p
  else
    '(p, trxs) ← fold_result (execute_market (Some engine_current) db timestamp) (p, [])
                   (get_dirty_markets (db_view db));
    Ok (if db_track_stats db then pending_set_market_transactions trxs p else p).
End chain.
