(* ===== verification/ChainOps.v ===== *)
(** * ChainOps: the operations of the chain (chain_database.cpp)

    [extend_chain] applies a block to the head, [pop_block] takes the head off,
    [switch_to_fork] goes to a block of another branch, and [push_block] stores a
    block that arrived and moves the head to it if its branch is the longest.
    The pool of pending transactions follows the head.

    The clock ([blockchain::now]) is an argument; the time a push takes and the
    number of transactions a producer has time for are arguments as well. *)
From S2P Require Import Prelude Config Fc Asset Records ChainInterface PendingState ChainDatabase.
From S2P Require Import EvalState Evaluate MarketOps Apply Undo Blocks Production Forks Chain.
Local Open Scope act_scope.

(** ** Recalculating the supply *)

Section debt.
Context `{FcNum} `{FcReal}.

(** One position of [calculate_debt]. *)
Definition add_debt (now : Z) (include_interest : bool) (id : Z) (total : asset)
    (kv : market_index_key * collateral_record) : result asset :=
  let p := mk_order_price kv.1 in
  if negb (quote_asset_id p =? id) then Ok total
  else
    (_ ← fc_assert (base_asset_id p =? 0);
     let principle := mk_asset (cr_payoff_balance kv.2) id in
     total ← asset_add total principle;
     if negb include_interest then Ok total
     else
       let position_start_time := cr_expiration kv.2 - BTS_BLOCKCHAIN_MAX_SHORT_PERIOD_SEC in
       interest ← get_interest_owed principle (cr_interest_rate kv.2) (wrapu32 (now - position_start_time));
       asset_add total interest).

(** [chain_database::calculate_debt] *)
Definition calculate_debt (db : chain_database) (include_interest : bool) (id : Z) : result asset :=
  record ← require (db_get_asset_record db id) assert_exception;
  _ ← fc_assert (is_market_issued record);
  fold_result (add_debt (db_now db) include_interest id) (mk_asset 0 id) (map_to_list (db_collateral db)).

(** The supply and the fees the fork blocks write into one asset record. *)
Definition recalculate_asset (db : chain_database) (record : asset_record) : result chain_database :=
  supply ← calculate_supply db (as_id record);
  let fees := as_collected_fees record in
  '(supply, fees) ←
    (if is_market_issued record then
       debt ← calculate_debt db false (as_id record);
       let difference := wrap64 (amount debt - amount supply) in
       if asset_neb supply debt
       then Ok (wrap64 (amount supply + difference), wrap64 (fees + difference))
       else Ok (amount supply, fees)
     else Ok (amount supply, fees));
  Ok (db_store_asset_record
        (set_as_collected_fees fees (set_as_current_share_supply supply record)) db).
End debt.

Section supply.
Context `{Crypto} `{FcNum} `{FcReal}.

(** The pay rate V0.4.24 gave every delegate. *)
Definition reset_pay_rate (db : chain_database) (r : account_record) : result chain_database :=
  match ac_delegate_info r with
  | Some d =>
      if account_is_delegate r
      then db_store_account_record (set_ac_delegate_info (Some (set_ds_pay_rate 3 d)) r) db
      else Ok db
  | None => Ok db
  end.

(** What [extend_chain] does once at each of four fork blocks. *)
Definition fork_block_fixups (block_num : Z) (db : chain_database) : result chain_database :=
  db ←
    (if block_num =? BTS_V0_4_16_FORK_BLOCK_NUM then
       base ← require (db_get_asset_record db 0) assert_exception;
       supply ← calculate_supply db 0;
       Ok (db_store_asset_record (set_as_current_share_supply (amount supply) base) db)
     else if (block_num =? BTS_V0_4_17_FORK_BLOCK_NUM) || (block_num =? BTS_V0_4_21_FORK_BLOCK_NUM)
             || (block_num =? BTS_V0_4_24_FORK_BLOCK_NUM)
     then fold_result recalculate_asset db (map_to_list (db_assets db)).*2
     else Ok db);
  if block_num =? BTS_V0_4_24_FORK_BLOCK_NUM
  then fold_result reset_pay_rate db (map_to_list (db_accounts db)).*2
  else Ok db.
End supply.

Section chain.
Context `{Crypto} `{BlockHash} `{FcNum} `{FcReal} `{!MarketEngine}.

(** ** Blocks of the chain *)

(** [chain_database::get_block_id] *)
Definition get_block_id (num : Z) (c : chain) : result Z := fetch (ch_num_to_id c) num.

(** [chain_database::get_block_header] by id and by number *)
Definition get_block_header (id : Z) (c : chain) : result signed_block_header :=
  r ← require (bs_records (ch_blocks c) !! id) unknown_block;
  Ok (bk_header r).
Definition get_block_header_at (num : Z) (c : chain) : result signed_block_header :=
  id ← get_block_id num c;
  r ← require (bs_records (ch_blocks c) !! id) assertion_abort;
  Ok (bk_header r).

(** [chain_database::get_block] *)
Definition get_block (id : Z) (c : chain) : result full_block := fetch (bs_data (ch_blocks c)) id.

(** [chain_database::now]: the time of the head, or the slot before the clock's. *)
Definition head_time (clock : Z) (h : signed_block_header) : Z :=
  if bh_block_num (sb_header h) <=? 0
  then get_slot_start_time (wrapu32 (get_slot_number clock - 1))
  else bh_timestamp (sb_header h).

(** The head's header is replaced; the stores report its number and time. *)
Definition set_head_block (clock : Z) (h : signed_block_header) (c : chain) : chain :=
  set_ch_head h
    (set_ch_db (set_head (bh_block_num (sb_header h)) (head_time clock h) (ch_db c)) c).

(** The stores at the clock time [clock]. *)
Definition sync_clock (clock : Z) (c : chain) : chain := set_head_block clock (ch_head c) c.

(** [pending_state->apply_changes()]: what was stored before an exception stays. *)
Definition apply_to_db (p : pending_chain_state) : act unit :=
  fun c => match run_steps (apply_changes_steps p) (ch_db c) with
           | (db, None) => (set_ch_db db c, Ok tt)
           | (db, Some e) => (set_ch_db db c, Err e)
           end.

(** ** Extending the chain *)

(** The key a block is taken to be signed with: before the last checkpoint the
    one of the slot. *)
Definition block_signee (b : full_block) (db : chain_database) : result Z :=
  if last_checkpoint_block_num >? fb_block_num b then
    active ← get_active_delegates (db_view db);
    delegate ← get_slot_signee db (fb_timestamp b) active;
    account_signing_key delegate
  else signee false (fb_header b).

Definition check_checkpoint (id : Z) (b : full_block) : result unit :=
  match CHECKPOINT_BLOCKS !! fb_block_num b with
  | Some expected => throw_if (negb (expected =? id)) failed_checkpoint_verification
  | None => Ok tt
  end.

(** [pay_delegate] notes the pay in the block's record. *)
Definition pay_block_signee (id signee : Z) (p : pending_chain_state) : act pending_chain_state :=
  fun c => match pay_delegate (ch_db c) (bs_records (ch_blocks c) !! id) signee p with
           | Ok (p', r) =>
               (set_ch_blocks (set_bs_records (<[id := r]> (bs_records (ch_blocks c))) (ch_blocks c)) c,
                Ok p')
           | Err e => (c, Err e)
           end.

(** The changes a block makes, as [extend_chain] collects them. *)
Definition evaluate_block (clock id : Z) (b : full_block) : act pending_chain_state :=
  signee <-- reads (fun c => block_signee b (ch_db c)) ;;
  _ <-- reads (fun _ => check_checkpoint id b) ;;
  _ <-- reads (fun c => verify_header (ch_db c) (ch_head_id c) clock b signee) ;;
  p <-- reads (fun c => update_delegate_production_info (ch_db c) b signee
                          (new_pending (Some (db_view (ch_db c))))) ;;
  p <-- pay_block_signee id signee p ;;
  p <-- reads (fun c => if fb_block_num b <? BTS_V0_4_9_FORK_BLOCK_NUM
                        then apply_transactions (ch_db c) (ch_skip_signatures c) b p else Ok p) ;;
  p <-- reads (fun c => execute_markets (ch_db c)
                 (fun num => h ← get_block_header_at num c; Ok (bh_timestamp (sb_header h)))
                 (fb_timestamp b) p) ;;
  p <-- reads (fun c => if fb_block_num b >=? BTS_V0_4_9_FORK_BLOCK_NUM
                        then apply_transactions (ch_db c) (ch_skip_signatures c) b p else Ok p) ;;
  p <-- reads (fun c => update_active_delegate_list (ch_db c) b p) ;;
  reads (fun c => update_random_seed (ch_db c) (bh_previous_secret (fb_head b)) p).

(** [chain_database_impl::save_undo_state] *)
Definition save_undo_state (id : Z) (p : pending_chain_state) : act unit :=
  head_num <-- reads (fun c => Ok (ch_head_num c)) ;;
  if head_num <? last_checkpoint_block_num then act_ret tt
  else
    u <-- reads (fun c => undo_state_of (ch_db c) p) ;;
    _ <-- put_ (fun c => set_ch_undo (<[id := u]> (ch_undo c)) c) ;;
    if wrap32 (head_num - BTS_BLOCKCHAIN_MAX_UNDO_HISTORY) >? 0 then
      old_id <-- reads (get_block_id (head_num - BTS_BLOCKCHAIN_MAX_UNDO_HISTORY)) ;;
      put_ (fun c => set_ch_undo (delete old_id (ch_undo c)) c)
    else act_ret tt.

(** [chain_database_impl::mark_included], [mark_invalid] *)
Definition chain_mark_included (id : Z) (included : bool) : act unit :=
  modify (fun c => s ← mark_included id included (ch_blocks c); Ok (set_ch_blocks s c)).
Definition chain_mark_invalid (id : Z) (e : error) : act unit :=
  modify (fun c => s ← mark_invalid id e (ch_blocks c); Ok (set_ch_blocks s c)).

(** [chain_database_impl::update_head_block] *)
Definition update_head_block (clock : Z) (b : full_block) : act unit :=
  put_ (fun c => set_ch_head_id (fb_id b) (set_head_block clock (fb_header b) c)).

(** [chain_database_impl::clear_pending] *)
Definition clear_pending (b : full_block) : act unit :=
  put_ (fun c =>
    set_ch_pending
      (foldr (fun trx m => delete (trx_digest trx (db_chain_id (ch_db c))) m)
         (ch_pending_transactions c) (fb_user_transactions b))
      ∅ (Some (new_pending (Some (db_view (ch_db c)))))
      (ch_revalidate c || (ch_head_num c >=? last_checkpoint_block_num)) c).

(** The body of the [try] block. *)
Definition apply_block (clock id : Z) (b : full_block) : act unit :=
  p <-- evaluate_block clock id b ;;
  save_undo_state id p ;;;
  apply_to_db p ;;;
  chain_mark_included id true ;;;
  update_head_block clock b ;;;
  clear_pending b ;;;
  put_ (fun c => set_ch_num_to_id (<[fb_block_num b := id]> (ch_num_to_id c)) c) ;;;
  modify (fun c => db ← fork_block_fixups (fb_block_num b) (ch_db c); Ok (set_ch_db db c)).

(** The expired transactions that are forgotten. *)
Definition purge_transactions (c : chain) : chain :=
  set_ch_db (set_db_unique_transactions
    (filter (fun kv => db_now (ch_db c) <= kv.1) (db_unique_transactions (ch_db c))) (ch_db c)) c.

(** [chain_database_impl::extend_chain] *)
Definition extend_chain (clock : Z) (b : full_block) : act unit :=
  let id := fb_id b in
  put_ (sync_clock clock) ;;;
  try_catch (apply_block clock id b)
    (fun e => chain_mark_invalid id e ;;; reads (fun _ => Err e)) ;;;
  put_ purge_transactions.

(** ** Popping the head *)

(** [chain_database_impl::pop_block] *)
Definition pop_block (clock : Z) : act unit :=
  _ <-- reads (fun c => c_assert (negb (ch_head_num c =? 0))) ;;
  head_id <-- reads (fun c => Ok (ch_head_id c)) ;;
  chain_mark_included head_id false ;;;
  put_ (fun c => set_ch_num_to_id (delete (ch_head_num c) (ch_num_to_id c)) c) ;;;
  previous <-- reads (fun c => Ok (bh_previous (sb_header (ch_head c)))) ;;
  undo_state <-- reads (fun c => fetch (ch_undo c) head_id) ;;
  undo_state <-- reads (fun c => Ok (set_ps_prev (Some (db_view (ch_db c))) undo_state)) ;;
  apply_to_db undo_state ;;;
  put_ (set_ch_head_id previous) ;;;
  header <-- reads (get_block_header previous) ;;
  put_ (set_head_block clock header).

(** ** Switching forks *)

(** The loop of [get_fork_history].  Each turn looks up another record, so with
    as much fuel as there are records the last lookup fails as [get_block_header]
    does ([fork_history_terminates]). *)
Fixpoint fork_history_loop (fuel : nat) (next_id : Z) (c : chain) : result (list Z) :=
  match fuel with
  | O => Err unknown_block
  | S fuel =>
      header ← get_block_header next_id c;
      let previous := bh_previous (sb_header header) in
      if previous =? null_block_id then Ok [previous]
      else
        prev_fork_data ← fetch (bs_forks (ch_blocks c)) previous;
        _ ← fc_assert (fk_is_linked prev_fork_data);
        if fk_is_included prev_fork_data then Ok [previous]
        else history ← fork_history_loop fuel previous c; Ok (previous :: history)
  end.

(** [chain_database_impl::get_fork_history] *)
Definition get_fork_history (id : Z) (c : chain) : result (list Z) :=
  history ← fork_history_loop (size (bs_records (ch_blocks c))) id c;
  Ok (id :: history).

(** [while( history.back() != _head_block_id ) pop_block();]  A pop leaves a head
    with a smaller number, and popping block 0 aborts. *)
Fixpoint pop_until (fuel : nat) (clock target : Z) : act unit :=
  head_id <-- reads (fun c => Ok (ch_head_id c)) ;;
  if head_id =? target then act_ret tt
  else
    match fuel with
    | O => reads (fun _ => Err assertion_abort)
    | S fuel => pop_block clock ;;; pop_until fuel clock target
    end.

(** [chain_database_impl::switch_to_fork] *)
Definition switch_to_fork (clock id : Z) : act unit :=
  head_id <-- reads (fun c => Ok (ch_head_id c)) ;;
  if id =? head_id then act_ret tt
  else
    history <-- reads (get_fork_history id) ;;
    head_num <-- reads (fun c => Ok (ch_head_num c)) ;;
    pop_until (Z.to_nat head_num) clock (List.last history null_block_id) ;;;
    act_each (fun id => b <-- reads (get_block id) ;; extend_chain clock b)
      (rev (removelast history)).

(** ** Receiving a block *)

(** One candidate of [push_block]: true when the chain has switched to it. *)
Definition try_fork (clock elapsed id next_fork_to_try_id : Z) : act bool :=
  next_fork_to_try <-- reads (fun c => fetch (bs_forks (ch_blocks c)) next_fork_to_try_id) ;;
  if can_link next_fork_to_try then
    try_catch
      (switch_to_fork clock next_fork_to_try_id ;;;
       record <-- reads (fun c => require (bs_records (ch_blocks c) !! id) assert_exception) ;;
       put_ (fun c => set_ch_blocks (set_bs_records
         (<[id := set_bk_processing_time elapsed record]> (bs_records (ch_blocks c))) (ch_blocks c)) c) ;;;
       act_ret true)
      (fun e => match e with
                | time_in_future =>
                    put_ (fun c => set_ch_future_blocks ({[ id ]} ∪ ch_future_blocks c) c) ;;;
                    act_ret false
                | _ => act_ret false
                end)
  else act_ret false.

(** The blocks of one height in turn. *)
Fixpoint try_parallel (clock elapsed id : Z) (parallel_blocks : list Z) : act bool :=
  match parallel_blocks with
  | [] => act_ret false
  | next :: rest =>
      switched <-- try_fork clock elapsed id next ;;
      if switched : bool then act_ret true else try_parallel clock elapsed id rest
  end.

(** The heights from [highest] down to 1. *)
Fixpoint try_heights (clock elapsed id : Z) (highest : nat) : act bool :=
  match highest with
  | O => act_ret false
  | S lower =>
      parallel_blocks <-- reads (fun c =>
        Ok (default [] (bs_numbers (ch_blocks c) !! Z.of_nat highest))) ;;
      switched <-- try_parallel clock elapsed id parallel_blocks ;;
      if switched : bool then act_ret true else try_heights clock elapsed id lower
  end.

(** The block is stored before any fork is tried. *)
Definition chain_store_and_index (clock id : Z) (b : full_block) : act (Z * block_fork_data) :=
  seed <-- reads (fun c => get_current_random_seed (ch_db c)) ;;
  fun c => match store_and_index clock seed id b (ch_blocks c) with
           | Ok (s, longest) => (set_ch_blocks s c, Ok longest)
           | Err e => (c, Err e)
           end.

(** [chain_database::push_block] *)
Definition push_block (clock elapsed : Z) (b : full_block) : act block_fork_data :=
  head_block_num <-- reads (fun c => Ok (ch_head_num c)) ;;
  _ <-- reads (fun _ => throw_if
          ((head_block_num >? BTS_BLOCKCHAIN_MAX_UNDO_HISTORY) &&
           (fb_block_num b <=? head_block_num - BTS_BLOCKCHAIN_MAX_UNDO_HISTORY))
          block_older_than_undo_history) ;;
  let id := fb_id b in
  longest_fork <-- chain_store_and_index clock id b ;;
  _ <-- (if can_link longest_fork.2 then
           longest_fork_block <-- reads (get_block longest_fork.1) ;;
           if fb_block_num longest_fork_block >? head_block_num
           then try_heights clock elapsed id (Z.to_nat (fb_block_num longest_fork_block))
           else act_ret false
         else act_ret false) ;;
  reads (fun c => require (bs_forks (ch_blocks c) !! id) assertion_abort).

(** [chain_database_impl::clear_invalidation_of_future_blocks] *)
Definition clear_invalidation_of_future_blocks : act unit :=
  ids <-- reads (fun c => Ok (elements (ch_future_blocks c))) ;;
  act_each (fun id => modify (fun c => s ← mark_as_unchecked id (ch_blocks c); Ok (set_ch_blocks s c)))
    ids.
End chain.
