(* ===== verification/Pool.v ===== *)
(** * Pool: pending transactions and the blocks made of them (chain_database.cpp)

    A transaction that arrives is evaluated on top of the pool's own pending
    state, whose previous state is the chain; the pending state is kept if the
    transaction is accepted.  A producer takes the transactions of the pool in
    the order of their fees. *)
From S2P Require Import Prelude Config Fc Asset Records ChainInterface PendingState ChainDatabase.
From S2P Require Import EvalState Evaluate MarketOps Apply Undo Blocks Production Forks Chain ChainOps.
From stdpp Require Import sorting.
Local Open Scope Z_scope.
Local Open Scope act_scope.

(** [operator <] of [fee_index]: highest fee first, lowest id in ties. *)
Definition fee_index_le (a b : Z * Z) : Prop := a.1 > b.1 \/ a.1 = b.1 /\ a.2 <= b.2.
#[global] Instance fee_index_le_dec a b : Decision (fee_index_le a b).
Proof. unfold fee_index_le. apply _. Defined.

(** The keys of a store in the order the code iterates. *)
Definition pool_keys (m : gmap Z signed_transaction) : list Z :=
  merge_sort Z.le (map_to_list m).*1.

Section pool.
Context `{Crypto} `{BlockHash} `{FcNum} `{FcReal} `{!MarketEngine}.

(** The pool's pending state, created on first use; its previous state is the
    chain as it is now. *)
Definition pool_state (c : chain) : pending_chain_state :=
  set_ps_prev (Some (db_view (ch_db c)))
    (default (new_pending None) (ch_pending_trx_state c)).
Definition set_pool_state (p : pending_chain_state) (c : chain) : chain :=
  set_ch_pending (ch_pending_transactions c) (ch_pending_fee_index c) (Some p) (ch_revalidate c) c.

(** [trx_eval_state->get_fees( 0 ) + trx_eval_state->alt_fees_paid.amount] *)
Definition total_fees {St} (s : eval_state St) : Z :=
  wrap64 (get_fees 0 s + amount (ev_alt_fees_paid (es_data s))).

(** [pend_state->apply_changes()] onto the pool's state. *)
Definition apply_to_pool (p : pending_chain_state) : act unit :=
  fun c => match run_steps (apply_changes_steps p) (pool_state c) with
           | (q, None) => (set_pool_state q c, Ok tt)
           | (q, Some e) => (set_pool_state q c, Err e)
           end.

(** [chain_database::evaluate_transaction] *)
Definition evaluate_transaction (trx : signed_transaction) (required_fees : Z)
    : act (eval_state pending_chain_state) :=
  put_ (fun c => set_pool_state (pool_state c) c) ;;;
  s <-- reads (fun c => evaluate trx false false
                 (new_eval (new_pending (Some (pending_view (pool_state c)))) (db_chain_id (ch_db c)))) ;;
  _ <-- reads (fun _ => throw_if (total_fees s <? required_fees) insufficient_relay_fee) ;;
  apply_to_pool (es_chain s) ;;;
  act_ret s.

(** The fee a transaction needs when the pool is overfull. *)
Definition required_relay_fee (override_limits : bool) (c : chain) : Z :=
  let overage := Z.of_nat (size (ch_pending_fee_index c)) - BTS_BLOCKCHAIN_MAX_PENDING_QUEUE_SIZE in
  if negb override_limits && (overage >? 0)
  then wrap64 (ch_relay_fee c * overage * overage) else ch_relay_fee c.

(** A transaction enters the fee index, and the pool. *)
Definition index_fees (trx : signed_transaction) (s : eval_state pending_chain_state) : act unit :=
  put_ (fun c => set_ch_pending (ch_pending_transactions c)
    (<[(get_fees 0 s, trx_id trx) := es_data s]> (ch_pending_fee_index c))
    (ch_pending_trx_state c) (ch_revalidate c) c).
Definition set_pool (m : gmap Z signed_transaction) (c : chain) : chain :=
  set_ch_pending m (ch_pending_fee_index c) (ch_pending_trx_state c) (ch_revalidate c) c.

(** [chain_database::store_pending_transaction] *)
Definition store_pending_transaction (trx : signed_transaction) (override_limits : bool)
    : act (option (eval_state pending_chain_state)) :=
  id <-- reads (fun c => Ok (trx_digest trx (db_chain_id (ch_db c)))) ;;
  known <-- reads (fun c => Ok (ch_pending_transactions c !! id)) ;;
  match known with
  | Some _ => act_ret None
  | None =>
      relay_fee <-- reads (fun c => Ok (required_relay_fee override_limits c)) ;;
      s <-- evaluate_transaction trx relay_fee ;;
      index_fees trx s ;;;
      put_ (fun c => set_pool (<[id := trx]> (ch_pending_transactions c)) c) ;;;
      act_ret (Some s)
  end.

(** One transaction of [revalidate_pending]; a rejected one is put on the list to
    discard. *)
Definition revalidate_one (discard : list Z) (id : Z) : act (list Z) :=
  trx <-- reads (fun c => fetch (ch_pending_transactions c) id) ;;
  relay_fee <-- reads (fun c => Ok (ch_relay_fee c)) ;;
  try_catch
    (s <-- evaluate_transaction trx relay_fee ;; index_fees trx s ;;; act_ret discard)
    (fun _ => act_ret (discard ++ [id])).

Fixpoint revalidate_all (discard ids : list Z) : act (list Z) :=
  match ids with
  | [] => act_ret discard
  | id :: ids => discard <-- revalidate_one discard id ;; revalidate_all discard ids
  end.

(** [chain_database_impl::revalidate_pending] *)
Definition revalidate_pending : act unit :=
  put_ (fun c => set_ch_pending (ch_pending_transactions c) ∅
                   (Some (new_pending (Some (db_view (ch_db c))))) false c) ;;;
  ids <-- reads (fun c => Ok (pool_keys (ch_pending_transactions c))) ;;
  discard <-- revalidate_all [] ids ;;
  put_ (fun c => set_pool (foldr delete (ch_pending_transactions c) discard) c).

(** [chain_database::get_transaction_error] *)
Definition get_transaction_error (trx : signed_transaction) (min_fee : Z) (c : chain)
    : result (option error) :=
  let attempt :=
    s ← evaluate trx false false (new_eval (new_pending (Some (db_view (ch_db c)))) (db_chain_id (ch_db c)));
    throw_if (get_fees 0 s <? min_fee) insufficient_relay_fee in
  match attempt with
  | Ok _ => Ok None
  | Err e => if is_abort e then Err e else Ok (Some e)
  end.

(** ** Producing a block *)

(** [chain_database::get_pending_transactions] *)
Definition get_pending_transactions (c : chain) : list eval_data :=
  omap (fun k => ch_pending_fee_index c !! k)
    (merge_sort fee_index_le (map_to_list (ch_pending_fee_index c)).*1).

Record block_limits := mk_limits {
  lim_transaction_count : Z;
  lim_block_size : Z;
  lim_transaction_size : Z;
  lim_transaction_fee : Z
}.

(** What the loop of [generate_block] carries: the block's pending state, its
    size so far and its transactions. *)
Record block_draft := mk_draft {
  dr_state : pending_chain_state;
  dr_size : Z;
  dr_transactions : list signed_transaction
}.

(** One pending transaction; its size counts before it is evaluated. *)
Definition draft_transaction (lim : block_limits) (chain_id : Z) (trx : signed_transaction)
    (d : block_draft) : result block_draft :=
  let transaction_size := trx_data_size trx in
  if transaction_size >? lim_transaction_size lim then Ok d
  else if dr_size d + transaction_size >? lim_block_size lim then Ok d
  else
    let sized := mk_draft (dr_state d) (dr_size d + transaction_size) (dr_transactions d) in
    match evaluate trx false false
            (new_eval (new_pending (Some (pending_view (dr_state d)))) chain_id) with
    | Err e => if is_abort e then Err e else Ok sized
    | Ok s =>
        if total_fees s <? lim_transaction_fee lim then Ok sized
        else
          match run_steps (apply_changes_steps (es_chain s)) (dr_state d) with
          | (p, None) => Ok (mk_draft p (dr_size sized) (dr_transactions d ++ [trx]))
          | (p, Some e) =>
              if is_abort e then Err e else Ok (mk_draft p (dr_size sized) (dr_transactions d))
          end
    end.

Fixpoint draft_block (lim : block_limits) (chain_id : Z) (trxs : list signed_transaction)
    (d : block_draft) : result block_draft :=
  match trxs with
  | [] => Ok d
  | trx :: trxs =>
      (d' ← draft_transaction lim chain_id trx d;
       if (length (dr_transactions d) <? length (dr_transactions d'))%nat
          && (Z.of_nat (length (dr_transactions d')) >=? lim_transaction_count lim)
       then Ok d' else draft_block lim chain_id trxs d')
  end.

(** [full_block().block_size()] *)
Definition empty_block_size : Z := packed_size (mk_block null_header []).

(** [chain_database::generate_block]; the producer has time for [in_time]
    transactions. *)
Definition generate_block (block_timestamp : Z) (lim : block_limits) (in_time : nat) (c : chain)
    : result full_block :=
  let db := ch_db c in
  let p := new_pending (Some (db_view db)) in
  p ← (if pending_get_head_block_num p >=? BTS_V0_4_9_FORK_BLOCK_NUM
       then execute_markets db
              (fun num => h ← get_block_header_at num c; Ok (bh_timestamp (sb_header h)))
              block_timestamp p
       else Ok p);
  let d := mk_draft p empty_block_size [] in
  d ← (if (lim_transaction_count lim >? 0) && (lim_block_size lim >? empty_block_size)
       then draft_block lim (db_chain_id db) (take in_time (map ev_trx (get_pending_transactions c))) d
       else Ok d);
  let trxs := dr_transactions d in
  let head := ch_head c in
  let num := bh_block_num (sb_header head) in
  Ok (mk_block
        (mk_signed_header
           (mk_header (if num >? 0 then block_id head else null_block_id) (wrapu32 (num + 1))
              block_timestamp (trx_ids_hash (map trx_id trxs)) 0 0) 0) trxs).
End pool.
