(* ===== verification/ChainFacts.v ===== *)
(** * ChainFacts: extending and popping the chain

    [pop_undoes_extend] shows that popping a block gives back the chain the block
    was applied to; [rejected_block_is_harmless] that a block that fails its
    checks leaves the records and the head alone. *)
From S2P Require Import Prelude Config Fc Asset Records ChainInterface PendingState ChainDatabase.
From S2P Require Import DatabaseFacts Apply ApplyFacts Undo EvalState Evaluate Invariants.
From S2P Require Import Blocks Production Forks Chain ChainOps.
Local Open Scope act_scope.

(** ** Partial runs *)

Section steps.
Context {St : Type} `{!ChainStore St}.

Lemma run_steps_app (l l' : list (St -> result St)) s :
  run_steps (l ++ l') s =
    match run_steps l s with (s', None) => run_steps l' s' | (s', Some e) => (s', Some e) end.
Proof.
  revert s. induction l as [|f l IH]; intros s; cbn; [done|]. by destruct (f s).
Qed.

Lemma run_map_steps {K V} `{Countable K} (f : K -> V -> St -> result St) (m : gmap K V) s :
  match run_steps (map_steps f m) s with
  | (s', None) => each f m s = Ok s'
  | (_, Some e) => each f m s = Err e
  end.
Proof.
  unfold map_steps, each. revert s. induction (map_to_list m) as [|kv l IH]; intros s; cbn; [done|].
  destruct (f kv.1 kv.2 s); [apply IH|done].
Qed.

(** Without an exception the steps are [apply_changes]. *)
Lemma run_apply_changes p s :
  match run_steps (apply_changes_steps p) s with
  | (s', None) => apply_changes p s = Ok s'
  | (_, Some e) => apply_changes p s = Err e
  end.
Proof.
  unfold apply_changes_steps, apply_changes. destruct (ps_prev p); [|done].
  repeat match goal with |- context [ run_steps (map_steps ?f ?m ++ _) ?s ] =>
    rewrite run_steps_app; pose proof (run_map_steps f m s) as Hm;
    destruct (run_steps (map_steps f m) s) as [? [?|]]; rewrite Hm; cbn; [done|clear Hm]
  end.
  by destruct (cs_set_market_transactions _ _).
Qed.
End steps.

(** ** The changes of a block are made by update methods *)

(** A pending state grown from [p0] by update methods. *)
Definition grown `{Crypto} (p0 p : pending_chain_state) : Prop :=
  rtc pending_step p0 p /\ ps_prev p = ps_prev p0.

Section grown.
Context `{Crypto}.

Lemma grown_refl p : grown p p.
Proof. done. Qed.

Lemma grown_trans p q r : grown p q -> grown q r -> grown p r.
Proof. intros [H1 E1] [H2 E2]. split; [by etransitivity|congruence]. Qed.

Lemma grown_step p q r : pending_step q r -> ps_prev r = ps_prev q -> grown p q -> grown p r.
Proof. intros Hs He [H1 E1]. split; [by eapply rtc_r|congruence]. Qed.

Lemma store_account_prev r p p' : pending_store_account_record r p = Ok p' -> ps_prev p' = ps_prev p.
Proof. unfold pending_store_account_record. intros Hp. by inv_ok. Qed.

Lemma foldl_recent_prev ops p :
  ps_prev (foldl (fun p o => pending_store_recent_operation o p) p ops) = ps_prev p.
Proof. revert p. induction ops as [|o ops IH]; intros p; cbn; [done|by rewrite IH]. Qed.

Lemma store_transaction_prev id r p p' :
  pending_store_transaction id r p = Ok p' -> ps_prev p' = ps_prev p.
Proof.
  unfold pending_store_transaction. intros (p2 & H2 & [= <-])%bind_Ok. rewrite foldl_recent_prev.
  by destruct (ps_prev p) eqn:?; inv_ok.
Qed.

Lemma grown_account p0 r p p' : pending_store_account_record r p = Ok p' -> grown p0 p -> grown p0 p'.
Proof. intros Hp. eapply grown_step; [by eapply step_account|by eapply store_account_prev]. Qed.
Lemma grown_transaction p0 id r p p' :
  pending_store_transaction id r p = Ok p' -> grown p0 p -> grown p0 p'.
Proof. intros Hp. eapply grown_step; [by eapply step_transaction|by eapply store_transaction_prev]. Qed.

#[export] Instance grown_invariant p0 : StoreInvariant (grown p0).
Proof.
  split; intros; cbn in *;
    first [ by eapply grown_account; eassumption
          | inv_ok; eapply grown_step; [by econstructor|reflexivity|eassumption] ].
Qed.
End grown.

Section chain.
Context `{Crypto} `{BlockHash} `{FcNum} `{FcReal} `{!MarketEngine}.

(** The parts of a block's evaluation, each grown by update methods. *)
Create HintDb grown.
#[local] Hint Resolve grown_refl grown_account grown_transaction : grown.
#[local] Hint Extern 2 (grown _ (pending_set_property _ _ _)) =>
  eapply grown_step; [apply step_property|reflexivity|] : grown.
#[local] Hint Extern 2 (grown _ (pending_store_asset_record _ _)) =>
  eapply grown_step; [apply step_asset|reflexivity|] : grown.
#[local] Hint Extern 2 (grown _ (pending_store_slot_record _ _)) =>
  eapply grown_step; [apply step_slot|reflexivity|] : grown.

Lemma miss_block_grown p0 db active t p p' :
  miss_block db active t p = Ok p' -> grown p0 p -> grown p0 p'.
Proof. unfold miss_block. intros Hm Hp. inv_ok. destruct (db_track_stats db); eauto with grown. Qed.

Lemma miss_blocks_grown p0 fuel db active t0 t n p n' p' :
  miss_blocks fuel db active t0 t n p = Ok (n', p') -> grown p0 p -> grown p0 p'.
Proof.
  revert t n p. induction fuel as [|fuel IH]; intros t n p; cbn; [by intros [= _ <-]|].
  case_match; [|by intros [= _ <-]]. intros Hm Hp. inv_ok. eauto using miss_block_grown.
Qed.

Lemma record_produced_grown p0 db b id p p' :
  record_produced db b id p = Ok p' -> grown p0 p -> grown p0 p'.
Proof. unfold record_produced. intros Hm Hp. inv_ok. destruct (db_track_stats db); eauto with grown. Qed.

Lemma production_grown p0 db b k p p' :
  update_delegate_production_info db b k p = Ok p' -> grown p0 p -> grown p0 p'.
Proof.
  unfold update_delegate_production_info. intros Hm Hp. inv_ok.
  eauto using miss_blocks_grown, record_produced_grown with grown.
Qed.

Lemma pay_delegate_grown p0 db r k p p' r' :
  pay_delegate db r k p = Ok (p', r') -> grown p0 p -> grown p0 p'.
Proof.
  unfold pay_delegate, pay_delegate_v2, pay_delegate_v1. intros Hm Hp.
  repeat (case_match; inv_ok; simplify_eq); eauto with grown.
Qed.

Lemma pay_delegate_record db r k p p' r' :
  pay_delegate db r k p = Ok (p', r') -> exists r0, r = Some r0 /\ bk_digest r' = bk_digest r0.
Proof.
  unfold pay_delegate, pay_delegate_v2, pay_delegate_v1. intros Hm.
  repeat (case_match; inv_ok; simplify_eq); eauto.
Qed.

Lemma apply_transactions_grown p0 db skip b p p' :
  apply_transactions db skip b p = Ok p' -> grown p0 p -> grown p0 p'.
Proof.
  unfold apply_transactions. intros Ht Hp. inv_ok.
  eapply (fold_result_inv (fun np : Z * pending_chain_state => grown p0 np.2)) in H4; [done| |done].
  clear. intros [n p] trx [n' p'] Hp Ht. unfold apply_transaction in Ht. inv_ok. cbn in *.
  eapply grown_transaction; [eassumption|].
  by eapply (evaluate_keeps (grown p0)); [eassumption|].
Qed.

Lemma markets_grown p0 e db t l p x p' y :
  fold_result (execute_market e db t) (p, x) l = Ok (p', y) -> grown p0 p -> grown p0 p'.
Proof.
  intros Hf Hp.
  eapply (fold_result_inv (fun pt : pending_chain_state * list market_transaction => grown p0 pt.1)) in Hf;
    [done| |done].
  intros [q1 l1] k [q2 l2] Hq1. unfold execute_market. destruct e; intros He; inv_ok; cbn in *; [|done].
  eapply grown_trans; [done|]. by eapply engine_execute_steps.
Qed.

Lemma market_transactions_grown p0 l p :
  grown p0 p -> grown p0 (pending_set_market_transactions l p).
Proof. apply grown_step; [apply step_market_trxs|done]. Qed.

Lemma execute_markets_v1_grown p0 db ht t p p' :
  execute_markets_v1 db ht t p = Ok p' -> grown p0 p -> grown p0 p'.
Proof.
  unfold execute_markets_v1. intros ((q & l) & Hc & He)%bind_Ok Hp. inv_ok.
  apply market_transactions_grown.
  assert (Hq : grown p0 q).
  { repeat case_match; inv_ok; [..|done]; (eapply grown_trans; [done|by eapply engine_cancel_steps]). }
  unfold pending_set_dirty_markets. destruct (_ <? _); eauto using markets_grown with grown.
Qed.

Lemma execute_markets_grown p0 db ht t p p' :
  execute_markets db ht t p = Ok p' -> grown p0 p -> grown p0 p'.
Proof.
  unfold execute_markets. destruct (_ <? _); [apply execute_markets_v1_grown|]. intros He Hp. inv_ok.
  destruct (db_track_stats db); eauto using markets_grown, market_transactions_grown.
Qed.

Lemma active_delegates_grown p0 db b p p' :
  update_active_delegate_list db b p = Ok p' -> grown p0 p -> grown p0 p'.
Proof. unfold update_active_delegate_list. intros Hu Hp. case_match; inv_ok; eauto with grown. Qed.

Lemma random_seed_grown p0 db secret p p' :
  update_random_seed db secret p = Ok p' -> grown p0 p -> grown p0 p'.
Proof. unfold update_random_seed. intros Hu Hp. inv_ok; eauto with grown. Qed.
End chain.

(** ** Runs of actions *)

(** A relation every run of the action stays within, whatever its outcome. *)
Definition within {A} (R : chain -> chain -> Prop) (m : act A) : Prop :=
  forall c c' r, m c = (c', r) -> R c c'.

Section within.
Context (R : chain -> chain -> Prop) `{!PreOrder R}.

Lemma within_ret {A} (a : A) : within R (act_ret a).
Proof using PreOrder0. intros c c' r [= <- _]. reflexivity. Qed.
Lemma within_reads {A} (f : chain -> result A) : within R (reads f).
Proof using PreOrder0. intros c c' r [= <- _]. reflexivity. Qed.
Lemma within_put f : (forall c, R c (f c)) -> within R (put_ f).
Proof. intros Hf c c' r [= <- _]. apply Hf. Qed.
Lemma within_modify f : (forall c c', f c = Ok c' -> R c c') -> within R (modify f).
Proof using PreOrder0.
  intros Hf c c' r. unfold modify. destruct (f c) eqn:E; intros [= <- _]; [by apply Hf|reflexivity].
Qed.
Lemma within_bind {A B} (m : act A) (k : A -> act B) :
  within R m -> (forall a, within R (k a)) -> within R (act_bind m k).
Proof using PreOrder0.
  intros Hm Hk c c' r. unfold act_bind. destruct (m c) as [c1 [a|e]] eqn:E.
  - intros Hr. etransitivity; [by eapply Hm|by eapply Hk].
  - intros [= <- _]. by eapply Hm.
Qed.
Lemma within_try {A} (m : act A) h :
  within R m -> (forall e, within R (h e)) -> within R (try_catch m h).
Proof using PreOrder0.
  intros Hm Hk c c' r. unfold try_catch. destruct (m c) as [c1 [a|e]] eqn:E.
  - intros [= <- _]. by eapply Hm.
  - destruct (is_abort e); [intros [= <- _]; by eapply Hm|].
    intros Hr. etransitivity; [by eapply Hm|by eapply Hk].
Qed.
Lemma within_each {A} (f : A -> act unit) l : (forall x, within R (f x)) -> within R (act_each f l).
Proof using PreOrder0.
  intros Hf. induction l as [|x l IH]; cbn; [apply within_ret|]. by apply within_bind.
Qed.
End within.

(** A run that succeeds, taken apart. *)
Lemma act_bind_Ok {A B} (m : act A) (k : A -> act B) c c' b :
  act_bind m k c = (c', Ok b) <-> exists c1 a, m c = (c1, Ok a) /\ k a c1 = (c', Ok b).
Proof.
  unfold act_bind. destruct (m c) as [c1 [a|e]]; split.
  - eauto.
  - by intros (? & ? & [= <- <-] & ?).
  - done.
  - by intros (? & ? & [= _] & _).
Qed.

Lemma modify_Ok f c c' : modify f c = (c', Ok tt) <-> f c = Ok c'.
Proof. unfold modify. destruct (f c); split; intros; simplify_eq; done. Qed.

Lemma reads_Ok {A} (f : chain -> result A) c c' a : reads f c = (c', Ok a) <-> c' = c /\ f c = Ok a.
Proof. unfold reads. split; [by intros [= -> ->]|by intros [-> ->]]. Qed.

Lemma put_Ok f c c' u : put_ f c = (c', Ok u) <-> c' = f c /\ u = tt.
Proof. unfold put_. destruct u. split; [by intros [= ->]|by intros [-> _]]. Qed.

Lemma act_ret_Ok {A} (a : A) c c' b : act_ret a c = (c', Ok b) <-> c' = c /\ b = a.
Proof. unfold act_ret. split; [by intros [= -> ->]|by intros [-> ->]]. Qed.

Ltac act_ok :=
  repeat match goal with
  | H : act_bind _ _ _ = (_, Ok _) |- _ => apply act_bind_Ok in H as (? & ? & ? & H); cbn beta in H
  | H : reads _ _ = (_, Ok _) |- _ => apply reads_Ok in H as [-> H]; cbn beta in H
  | H : put_ _ _ = (_, Ok _) |- _ => apply put_Ok in H as [H ?]; subst
  | H : act_ret _ _ = (_, Ok _) |- _ => apply act_ret_Ok in H as [H ?]; subst
  | H : modify _ _ = (_, Ok ?u) |- _ => destruct u; apply modify_Ok in H
  end; inv_ok.

(** ** Evaluating a block *)

(** The chain up to the pay noted in the records of blocks. *)
Definition records_noted (c c' : chain) : Prop :=
  exists recs, c' = set_ch_blocks (set_bs_records recs (ch_blocks c)) c /\
    forall k, bk_digest <$> recs !! k = bk_digest <$> bs_records (ch_blocks c) !! k.

#[export] Instance records_noted_preorder : PreOrder records_noted.
Proof.
  split.
  - intros c. exists (bs_records (ch_blocks c)). split; [by destruct c as [? ? ? [] ? ? ? ? ? ? ? ? ?]|done].
  - intros c1 c2 c3 (r2 & -> & H2) (r3 & -> & H3). exists r3. split; [done|].
    intros k. rewrite H3. apply H2.
Qed.

Section evaluate.
Context `{Crypto} `{BlockHash} `{FcNum} `{FcReal} `{!MarketEngine}.

Lemma pay_block_signee_within id k p : within records_noted (pay_block_signee id k p).
Proof.
  intros c c' r. unfold pay_block_signee. destruct (pay_delegate _ _ _ _) as [[p' r']|] eqn:E;
    intros [= <- _]; [|reflexivity].
  apply pay_delegate_record in E as (r0 & Hr & Hd). eexists. split; [done|].
  intros k'. destruct (decide (k' = id)) as [->|]; [|by rewrite lookup_insert_ne].
  by rewrite lookup_insert_eq, Hr; cbn; rewrite Hd.
Qed.

Lemma evaluate_block_within clock id b : within records_noted (evaluate_block clock id b).
Proof.
  unfold evaluate_block.
  repeat (first [ apply within_bind | apply within_reads | apply pay_block_signee_within
                | apply _ | intros ? ]).
Qed.

(** Transactions run before or after the markets. *)
Lemma maybe_transactions_grown (now : bool) p0 db skip b p p' :
  (if now then apply_transactions db skip b p else Ok p) = Ok p' -> grown p0 p -> grown p0 p'.
Proof. destruct now; [apply apply_transactions_grown|by intros [= <-]]. Qed.

(** The pending state of a block, and the header check it passed. *)
Lemma evaluate_block_Ok clock id b c c' p :
  evaluate_block clock id b c = (c', Ok p) ->
  grown (new_pending (Some (db_view (ch_db c)))) p /\
  exists k, verify_header (ch_db c) (ch_head_id c) clock b k = Ok tt.
Proof.
  unfold evaluate_block. intros He. act_ok.
  match goal with H : pay_block_signee _ _ _ c = _ |- _ => rename H into Hpay end.
  unfold pay_block_signee in Hpay. destruct (pay_delegate _ _ _ _) as [[p' r']|] eqn:E; simplify_eq.
  cbn in *. split; [|match goal with H : verify_header _ _ _ _ _ = Ok ?u |- _ => destruct u end; eauto].
  eauto 8 using random_seed_grown, active_delegates_grown, maybe_transactions_grown,
    execute_markets_grown, pay_delegate_grown, production_grown, grown_refl.
Qed.

Lemma grown_reachable v p : grown (new_pending v) p -> pending_reachable p /\ ps_prev p = v.
Proof. intros [Hr He]. split; [by exists v|by rewrite He]. Qed.

Lemma verify_header_prev db head_id clock b k :
  verify_header db head_id clock b k = Ok tt -> fb_previous b = head_id.
Proof. unfold verify_header. intros Hv. inv_ok. lia. Qed.

Lemma verify_header_num db head_id clock b k :
  verify_header db head_id clock b k = Ok tt -> 1 < fb_block_num b ->
  fb_block_num b = wrapu32 (db_head_block_num db + 1).
Proof. unfold verify_header. intros Hv Hn. inv_ok. lia. Qed.
End evaluate.

(** ** Applying a block *)

Section apply.
Context `{Crypto} `{BlockHash} `{FcNum} `{FcReal} `{!MarketEngine}.

Lemma apply_to_db_Ok p c c' :
  apply_to_db p c = (c', Ok tt) ->
  exists db, apply_changes p (ch_db c) = Ok db /\ c' = set_ch_db db c.
Proof.
  unfold apply_to_db. pose proof (run_apply_changes p (ch_db c)) as Hr.
  destruct (run_steps _ _) as [db [e|]]; intros [= <-]. eauto.
Qed.

Lemma fork_block_fixups_none num db :
  last_checkpoint_block_num < num -> fork_block_fixups num db = Ok db.
Proof.
  intros Hn. unfold fork_block_fixups, last_checkpoint_block_num in *.
  rewrite !(proj2 (Z.eqb_neq num _)) by
    (unfold BTS_V0_4_16_FORK_BLOCK_NUM, BTS_V0_4_17_FORK_BLOCK_NUM, BTS_V0_4_21_FORK_BLOCK_NUM,
       BTS_V0_4_24_FORK_BLOCK_NUM; lia). done.
Qed.

(** What a block that was applied past the last checkpoint did. *)
Record applied (clock : Z) (b : full_block) (c c1 : chain) (p u : pending_chain_state)
    (db' : chain_database) : Prop := mk_applied {
  ap_reachable : pending_reachable p;
  ap_prev : ps_prev p = Some (db_view (ch_db (sync_clock clock c)));
  ap_undo_state : undo_state_of (ch_db (sync_clock clock c)) p = Ok u;
  ap_changes : apply_changes p (ch_db (sync_clock clock c)) = Ok db';
  ap_db : exists uniq, ch_db c1 = settle (fb_block_num b) (head_time clock (fb_header b)) uniq db';
  ap_undo : forall u', ch_undo c1 !! fb_id b = Some u' -> u' = u;
  ap_previous : fb_previous b = ch_head_id c;
  ap_num : fb_block_num b = wrapu32 (ch_head_num c + 1);
  ap_head : ch_head c1 = fb_header b;
  ap_head_id : ch_head_id c1 = fb_id b;
  ap_num_to_id : ch_num_to_id c1 = <[fb_block_num b := fb_id b]> (ch_num_to_id c);
  ap_data : bs_data (ch_blocks c1) = bs_data (ch_blocks c);
  ap_records k : bk_digest <$> bs_records (ch_blocks c1) !! k
                 = bk_digest <$> bs_records (ch_blocks c) !! k;
  ap_forks : exists f, bs_forks (ch_blocks c) !! fb_id b = Some f /\
    bs_forks (ch_blocks c1) = <[fb_id b := set_fork_included true f]> (bs_forks (ch_blocks c))
}.

Lemma save_undo_state_Ok id p c c' :
  last_checkpoint_block_num <= ch_head_num c ->
  save_undo_state id p c = (c', Ok tt) ->
  exists u undo, undo_state_of (ch_db c) p = Ok u /\ c' = set_ch_undo undo c /\
    forall u', undo !! id = Some u' -> u' = u.
Proof.
  intros Hn Hs. unfold save_undo_state in Hs. act_ok.
  rewrite (proj2 (Z.ltb_ge _ _)) in Hs by lia. act_ok.
  match goal with H : undo_state_of _ _ = Ok ?u |- _ => exists u end.
  destruct (_ >? 0); act_ok; eexists; (split; [done|split; [reflexivity|]]).
  - intros u'. cbn. rewrite lookup_delete_Some, lookup_insert_Some. naive_solver.
  - intros u'. rewrite lookup_insert_Some. naive_solver.
Qed.

Lemma chain_mark_included_Ok id v c c' :
  chain_mark_included id v c = (c', Ok tt) ->
  exists f, bs_forks (ch_blocks c) !! id = Some f /\
    c' = set_ch_blocks (set_bs_forks (<[id := set_fork_included v f]> (bs_forks (ch_blocks c)))
           (ch_blocks c)) c.
Proof. unfold chain_mark_included, mark_included. intros Hm. act_ok. unfold fetch in *. inv_ok. eauto. Qed.

(** A run of the [try] block that succeeds is a run of [apply_block]. *)
Lemma extend_chain_Ok clock b c c1 :
  extend_chain clock b c = (c1, Ok tt) ->
  exists c2, apply_block clock (fb_id b) b (sync_clock clock c) = (c2, Ok tt) /\
    c1 = purge_transactions c2.
Proof.
  unfold extend_chain. intros He. act_ok.
  match goal with H : try_catch _ _ _ = _ |- _ => rename H into Ht end. unfold try_catch in Ht.
  destruct (apply_block clock (fb_id b) b (sync_clock clock c)) as [c2 [[]|e]] eqn:Ha.
  - simplify_eq. eauto.
  - destruct (is_abort e); [done|]. exfalso. act_ok.
Qed.

Lemma next_num head num :
  num = wrapu32 (head + 1) -> last_checkpoint_block_num <= head < 2^32 -> 1 < num -> num = head + 1.
Proof.
  unfold last_checkpoint_block_num, wrapu32. intros -> Hh Hn.
  destruct (decide (head + 1 = 2^32)) as [E|]; [rewrite E, Z.mod_same in Hn; lia|].
  apply Z.mod_small. lia.
Qed.

Lemma extend_chain_applied clock b c c1 :
  last_checkpoint_block_num <= ch_head_num c < 2^32 -> 1 < fb_block_num b ->
  extend_chain clock b c = (c1, Ok tt) -> exists p u db', applied clock b c c1 p u db'.
Proof.
  intros Hn Hb (c2 & Ha & ->)%extend_chain_Ok. unfold apply_block, update_head_block, clear_pending in Ha.
  act_ok. repeat match goal with u : () |- _ => destruct u end.
  match goal with H : evaluate_block _ _ _ _ = (?c, Ok ?p) |- _ =>
    pose proof (evaluate_block_within _ _ _ _ _ _ H) as (recs & -> & Hrecs);
    apply evaluate_block_Ok in H as [(Hreach & Hprev)%grown_reachable [k Hv]]; exists p end.
  pose proof (verify_header_num _ _ _ _ _ Hv Hb) as Hnum. apply verify_header_prev in Hv.
  match goal with H : save_undo_state _ _ _ = _ |- _ =>
    apply save_undo_state_Ok in H as (u & undo & Hu & -> & Hundo); [|apply Hn] end.
  match goal with H : apply_to_db _ _ = _ |- _ => apply apply_to_db_Ok in H as (db' & Hdb & ->) end.
  match goal with H : chain_mark_included _ _ _ = _ |- _ =>
    apply chain_mark_included_Ok in H as (f & Hf & ->) end.
  match goal with H : fork_block_fixups _ _ = _ |- _ =>
    rewrite fork_block_fixups_none in H; [injection H as <-|] end.
  - exists u, db'. cbn in *. split; cbn; eauto.
  - cbn in Hnum. fold (ch_head_num c) in Hnum. apply next_num in Hnum; lia.
Qed.

Lemma get_block_header_Some id c h :
  get_block_header id c = Ok h <->
  exists r, bs_records (ch_blocks c) !! id = Some r /\ bk_header r = h.
Proof.
  unfold get_block_header. destruct (bs_records (ch_blocks c) !! id); cbn; split.
  - intros [= <-]. eauto.
  - by intros (r & [= ->] & <-).
  - done.
  - by intros (r & [=] & _).
Qed.

(** What a pop that succeeds did. *)
Lemma pop_block_Ok clock c c' :
  pop_block clock c = (c', Ok tt) ->
  exists f u header db,
    bs_forks (ch_blocks c) !! ch_head_id c = Some f /\
    ch_undo c !! ch_head_id c = Some u /\
    get_block_header (bh_previous (sb_header (ch_head c))) c = Ok header /\
    apply_undo_state u (bh_block_num (sb_header header)) (head_time clock header) (ch_db c) = Ok db /\
    ch_db c' = db /\ ch_head c' = header /\ ch_head_id c' = bh_previous (sb_header (ch_head c)) /\
    ch_num_to_id c' = delete (ch_head_num c) (ch_num_to_id c) /\
    ch_blocks c' = set_bs_forks (<[ch_head_id c := set_fork_included false f]> (bs_forks (ch_blocks c)))
                     (ch_blocks c).
Proof.
  unfold pop_block. intros Hp. act_ok. repeat match goal with u : () |- _ => destruct u end.
  match goal with H : chain_mark_included _ _ _ = _ |- _ =>
    apply chain_mark_included_Ok in H as (f & Hf & ->) end.
  match goal with H : apply_to_db _ _ = _ |- _ => apply apply_to_db_Ok in H as (db' & Hdb & ->) end.
  unfold fetch, get_block_header in *. inv_ok. cbn in *.
  match goal with Hu : ch_undo c !! _ = Some ?u, Hr : bs_records _ !! _ = Some ?r |- _ =>
    exists f, u, (bk_header r); rewrite Hr; cbn end.
  unfold apply_undo_state. rewrite Hdb. cbn. eauto 12.
Qed.

(** C3: Popping the block that was just applied gives back the chain it was
    applied to: the head block and its id, the index of block numbers, and every
    asset, account, slate, order, short, collateral, feed, authorization, proposal
    and transaction record, every property but the dirty markets, every balance, an
    address that was new in the block keeping an empty record, and every slot record
    and market status there was before.  Slot records and market statuses that are
    new in the block may stay, burn records it wrote are removed, and the history of
    the markets and the recent operations stay as the block left them.  The block
    stays in the tree, known to be valid and no longer included. *)
Theorem pop_undoes_extend clock clock' b c c1 c2 :
  db_ok (ch_db c) -> db_filed (ch_db c) ->
  last_checkpoint_block_num <= ch_head_num c < 2^32 -> 1 < fb_block_num b ->
  get_block_header (ch_head_id c) c = Ok (ch_head c) ->
  ch_num_to_id c !! (ch_head_num c + 1) = None ->
  extend_chain clock b c = (c1, Ok tt) -> pop_block clock' c1 = (c2, Ok tt) ->
  records_restored (ch_db c) (ch_db c1) (ch_db c2) /\
  ch_head c2 = ch_head c /\ ch_head_id c2 = ch_head_id c /\
  ch_num_to_id c2 = ch_num_to_id c /\
  exists f, bs_forks (ch_blocks c) !! fb_id b = Some f /\
    bs_forks (ch_blocks c2) =
      <[fb_id b := set_fork_included false (set_fork_included true f)]> (bs_forks (ch_blocks c)).
Proof.
  intros Hdb Hnn Hn Hb Hhead Hnum (p & u & db' & A)%extend_chain_applied; [|done|done].
  intros (f & u' & header & db2 & Hf & Hu & Hh & Happly & <- & Hhd & Hid & Hni & Hbl)%pop_block_Ok.
  rewrite (ap_head_id _ _ _ _ _ _ _ A) in *. rewrite (ap_head _ _ _ _ _ _ _ A) in *.
  apply (ap_undo _ _ _ _ _ _ _ A) in Hu as ->.
  assert (header = ch_head c) as ->.
  { change (bh_previous (sb_header (fb_header b))) with (fb_previous b) in Hh.
    rewrite (ap_previous _ _ _ _ _ _ _ A) in Hh. apply get_block_header_Some in Hhead as (r & Hr & <-).
    apply get_block_header_Some in Hh as (r' & Hr' & <-).
    pose proof (ap_records _ _ _ _ _ _ _ A (ch_head_id c)) as Hd. rewrite Hr, Hr' in Hd.
    unfold bk_header. by injection Hd as ->. }
  destruct (ap_db _ _ _ _ _ _ _ A) as [uniq E]. rewrite E in *. clear E.
  repeat apply conj.
  - destruct (undo_restores (ch_db (sync_clock clock c)) db' (ch_db c2) p u (fb_block_num b)
      (head_time clock (fb_header b)) (bh_block_num (sb_header (ch_head c)))
      (head_time clock' (ch_head c)) uniq); [by destruct A|by destruct A| | |by destruct A|by destruct A|done|by split].
    + destruct Hdb. by split.
    + destruct Hnn. by split.
  - done.
  - rewrite Hid. apply (ap_previous _ _ _ _ _ _ _ A).
  - rewrite Hni, (ap_num_to_id _ _ _ _ _ _ _ A). unfold ch_head_num at 1.
    rewrite (ap_head _ _ _ _ _ _ _ A). rewrite delete_insert_id; [done|].
    change (bh_block_num (sb_header (fb_header b))) with (fb_block_num b).
    by rewrite (next_num _ _ (ap_num _ _ _ _ _ _ _ A) Hn Hb).
  - destruct (ap_forks _ _ _ _ _ _ _ A) as (f0 & Hf0 & E). exists f0. split; [done|].
    rewrite Hbl, E in *. cbn. rewrite lookup_insert_eq in Hf. injection Hf as <-. by rewrite insert_insert_eq.
Qed.

(** C18: A block that fails its evaluation, for whatever reason the code catches,
    is marked invalid with that reason, and nothing else happens to the chain:
    the records, the head, the undo states and the index of block numbers are
    those from before, and no block is lost from the stores. *)
Theorem rejected_block_is_harmless clock b c c1 e s :
  evaluate_block clock (fb_id b) b (sync_clock clock c) = (c1, Err e) -> is_abort e = false ->
  mark_invalid (fb_id b) e (ch_blocks c1) = Ok s ->
  exists c2, extend_chain clock b c = (c2, Err e) /\
    ch_blocks c2 = s /\ ch_db c2 = ch_db (sync_clock clock c) /\
    ch_head c2 = ch_head c /\ ch_head_id c2 = ch_head_id c /\ ch_undo c2 = ch_undo c /\
    ch_num_to_id c2 = ch_num_to_id c /\
    bs_data (ch_blocks c1) = bs_data (ch_blocks c) /\
    bs_forks (ch_blocks c1) = bs_forks (ch_blocks c).
Proof.
  intros He Habort Hs. pose proof (evaluate_block_within _ _ _ _ _ _ He) as (recs & -> & _).
  eexists. split.
  - unfold extend_chain, apply_block, chain_mark_invalid, try_catch, act_bind, put_. rewrite He, Habort.
    unfold modify. rewrite Hs. reflexivity.
  - done.
Qed.
End apply.
