(* ===== verification/SwitchFacts.v ===== *)
(** * SwitchFacts: switching forks and receiving blocks

    [fork_history_terminates] shows that the walk to the nearest included block
    ends, [pop_loop_terminates] the same of the pops, [switch_reaches_target] that
    a switch that returns has moved the head to its target, and
    [push_block_extends] that a block on top of the head becomes the head. *)
From S2P Require Import Prelude Config Fc Asset Records ChainInterface PendingState ChainDatabase.
From S2P Require Import DatabaseFacts Apply Undo EvalState Evaluate Blocks Production Forks Chain ChainOps.
From S2P Require Import ChainFacts.
Local Open Scope act_scope.

(** ** The walk to the nearest included block *)

Section walk.
Context (c : chain).

(** The loop of [get_fork_history] as the code runs it, without a bound. *)
Inductive walk : Z -> result (list Z) -> Prop :=
| walk_unknown id : bs_records (ch_blocks c) !! id = None -> walk id (Err unknown_block)
| walk_genesis id r :
    bs_records (ch_blocks c) !! id = Some r -> bh_previous (bk_head r) = null_block_id ->
    walk id (Ok [bh_previous (bk_head r)])
| walk_lost id r :
    bs_records (ch_blocks c) !! id = Some r -> bh_previous (bk_head r) <> null_block_id ->
    bs_forks (ch_blocks c) !! bh_previous (bk_head r) = None -> walk id (Err key_not_found_exception)
| walk_unlinked id r f :
    bs_records (ch_blocks c) !! id = Some r -> bh_previous (bk_head r) <> null_block_id ->
    bs_forks (ch_blocks c) !! bh_previous (bk_head r) = Some f -> fk_is_linked f = false ->
    walk id (Err assert_exception)
| walk_included id r f :
    bs_records (ch_blocks c) !! id = Some r -> bh_previous (bk_head r) <> null_block_id ->
    bs_forks (ch_blocks c) !! bh_previous (bk_head r) = Some f -> fk_is_linked f = true ->
    fk_is_included f = true -> walk id (Ok [bh_previous (bk_head r)])
| walk_on id r f rest :
    bs_records (ch_blocks c) !! id = Some r -> bh_previous (bk_head r) <> null_block_id ->
    bs_forks (ch_blocks c) !! bh_previous (bk_head r) = Some f -> fk_is_linked f = true ->
    fk_is_included f = false -> walk (bh_previous (bk_head r)) rest ->
    walk id (history ← rest; Ok (bh_previous (bk_head r) :: history)).

Lemma walk_unique id r1 r2 : walk id r1 -> walk id r2 -> r1 = r2.
Proof.
  intros Hw. revert r2. induction Hw as [ | | | | | id r f rest Hr Hn Hf Hl Hi Hw IH]; intros r2 Hw2; inversion Hw2; simplify_eq; try done; try congruence.
  by erewrite IH.
Qed.

(** The ids of blocks are hashes of their headers, which name the previous block:
    the previous links descend. *)
Context (rank : Z -> nat).
Hypothesis Hrank : forall id r, bs_records (ch_blocks c) !! id = Some r ->
  (rank (bh_previous (bk_head r)) < rank id)%nat.

(** The records the walk from [id] may still meet. *)
Definition reachable_records (id : Z) : gset Z :=
  filter (fun k => (rank k <= rank id)%nat) (dom (bs_records (ch_blocks c))).

Lemma reachable_records_previous id r :
  bs_records (ch_blocks c) !! id = Some r ->
  (size (reachable_records (bh_previous (bk_head r))) < size (reachable_records id))%nat.
Proof using Hrank.
  intros Hr. pose proof (Hrank _ _ Hr). apply subset_size. split.
  - intros k. unfold reachable_records. rewrite !elem_of_filter. intros [? ?]. split; [lia|done].
  - intros Hsub. assert (Hid : id ∈ reachable_records id).
    { apply elem_of_filter. split; [lia|]. apply elem_of_dom. eauto. }
    apply Hsub, elem_of_filter in Hid as [Hid _]. lia.
Qed.

Lemma fork_history_loop_walk fuel id :
  (size (reachable_records id) <= fuel)%nat -> walk id (fork_history_loop fuel id c).
Proof using Hrank.
  revert id. induction fuel as [|fuel IH]; intros id Hsize.
  - apply walk_unknown. apply not_elem_of_dom. intros Hid.
    assert (Hin : id ∈ reachable_records id) by (apply elem_of_filter; split; [lia|done]).
    assert (Hz : size (reachable_records id) = 0%nat) by lia.
    apply size_empty_inv in Hz. set_solver.
  - cbn. unfold get_block_header.
    destruct (bs_records (ch_blocks c) !! id) as [r|] eqn:Hr; cbn; [|by apply walk_unknown].
    fold (bk_head r). destruct (Z.eqb_spec (bh_previous (bk_head r)) null_block_id) as [|Hne];
      [by apply walk_genesis|].
    unfold fetch. destruct (bs_forks (ch_blocks c) !! _) as [f|] eqn:Hf; cbn; [|by eapply walk_lost].
    unfold fc_assert. destruct (fk_is_linked f) eqn:Hl; cbn; [|by eapply walk_unlinked].
    destruct (fk_is_included f) eqn:Hi; [by eapply walk_included|].
    eapply walk_on; try eassumption. apply IH. pose proof (reachable_records_previous _ _ Hr). lia.
Qed.

(** The walk of [get_fork_history] back through the tree always ends, with the
    result of the bounded loop: the previous links cannot form a cycle, and every
    turn uses up a record. *)
Theorem fork_history_terminates id :
  exists r, walk id r /\ (forall r', walk id r' -> r' = r) /\
    get_fork_history id c = (history ← r; Ok (id :: history)).
Proof using Hrank.
  exists (fork_history_loop (size (bs_records (ch_blocks c))) id c).
  assert (Hw : walk id (fork_history_loop (size (bs_records (ch_blocks c))) id c)).
  { apply fork_history_loop_walk. rewrite <- size_dom. apply subseteq_size.
    intros k. unfold reachable_records. by intros [_ ?]%elem_of_filter. }
  split; [done|]. split; [|done]. intros r' Hr'. by eapply walk_unique.
Qed.
End walk.

(** ** The pops *)

(** The numbers go down along the previous links from a header. *)
Inductive descends (recs : gmap Z block_record) : signed_block_header -> Prop :=
| descends_to h :
    (forall r, recs !! bh_previous (sb_header h) = Some r ->
       0 <= bh_block_num (bk_head r) < bh_block_num (sb_header h) /\ descends recs (bk_header r)) ->
    descends recs h.

Section pops.
Context `{Crypto} `{BlockHash} `{FcNum} `{FcReal} `{!MarketEngine}.

(** A pop keeps the records and goes to a lower number. *)
Lemma pop_block_descends clock c c' :
  descends (bs_records (ch_blocks c)) (ch_head c) -> pop_block clock c = (c', Ok tt) ->
  0 <= ch_head_num c' < ch_head_num c /\ descends (bs_records (ch_blocks c')) (ch_head c').
Proof.
  intros Hd (f & u & h & db & _ & _ & Hh & _ & _ & Hhead & _ & _ & Hbl)%pop_block_Ok.
  apply get_block_header_Some in Hh as (r & Hr & <-). inversion Hd as [? Hlow]; subst. apply Hlow in Hr as [Hn Hr].
  unfold ch_head_num. rewrite Hhead, Hbl. by split.
Qed.

Lemma pop_block_genesis clock c : ch_head_num c = 0 -> pop_block clock c = (c, Err assertion_abort).
Proof. intros Hn. unfold pop_block, act_bind, reads. by rewrite Hn. Qed.

(** The loop of [switch_to_fork] as the code runs it, without a bound. *)
Inductive pops (clock target : Z) : chain -> chain * result unit -> Prop :=
| pops_done c : ch_head_id c = target -> pops clock target c (c, Ok tt)
| pops_throw c c' e : ch_head_id c <> target -> pop_block clock c = (c', Err e) ->
    pops clock target c (c', Err e)
| pops_on c c' out : ch_head_id c <> target -> pop_block clock c = (c', Ok tt) ->
    pops clock target c' out -> pops clock target c out.

Lemma pops_unique clock target c o1 o2 : pops clock target c o1 -> pops clock target c o2 -> o1 = o2.
Proof.
  intros Hp. revert o2. induction Hp as [| |c c' out Hne Hpop Hp IH]; intros o2 Hp2;
    inversion Hp2; subst; try done; try congruence.
  apply IH. congruence.
Qed.

(** The loop that pops blocks until the common ancestor is the head ends after
    at most as many turns as the head's number: it meets the ancestor, or an
    exception, or aborts at block 0, and the bounded loop has its result. *)
Theorem pop_loop_terminates clock target c :
  descends (bs_records (ch_blocks c)) (ch_head c) -> 0 <= ch_head_num c ->
  pops clock target c (pop_until (Z.to_nat (ch_head_num c)) clock target c) /\
  forall out, pops clock target c out -> out = pop_until (Z.to_nat (ch_head_num c)) clock target c.
Proof.
  intros Hd Hn.
  assert (Hp : forall fuel, (Z.to_nat (ch_head_num c) <= fuel)%nat ->
            pops clock target c (pop_until fuel clock target c)).
  { intros fuel. revert c Hd Hn. induction fuel as [|fuel IH]; intros c Hd Hn Hf; cbn [pop_until];
      unfold act_bind, reads; destruct (Z.eqb_spec (ch_head_id c) target).
    - by apply pops_done.
    - apply pops_throw; [done|]. apply pop_block_genesis. lia.
    - by apply pops_done.
    - destruct (pop_block clock c) as [c' [[]|e]] eqn:Hpop; [|by apply pops_throw].
      destruct (pop_block_descends _ _ _ Hd Hpop) as [Hn' Hd'].
      eapply pops_on; [done|done|]. apply IH; [done|lia|lia]. }
  split; [by apply Hp|]. intros out Hout. eapply pops_unique; [done|by apply Hp].
Qed.
End pops.

(** ** A switch *)

(** What both a successful extension and a pop do to the tree: the ids that are
    included, and the blocks. *)
Definition included (c : chain) (id : Z) : Prop :=
  exists f, bs_forks (ch_blocks c) !! id = Some f /\ fk_is_included f = true.

(** The stores of blocks and the head, up to the undo states. *)
Definition undo_changed (c c' : chain) : Prop := exists u, c' = set_ch_undo u c.

#[export] Instance undo_changed_preorder : PreOrder undo_changed.
Proof.
  split.
  - intros c. exists (ch_undo c). by destruct c.
  - intros c1 c2 c3 [u2 ->] [u3 ->]. by exists u3.
Qed.

Section switch.
Context `{Crypto} `{BlockHash} `{FcNum} `{FcReal} `{!MarketEngine}.

Lemma save_undo_state_within id p : within undo_changed (save_undo_state id p).
Proof.
  unfold save_undo_state. apply within_bind; [apply _|apply within_reads, _|intros n].
  destruct (n <? _); [apply within_ret, _|].
  apply within_bind; [apply _|apply within_reads, _|intros u].
  apply within_bind; [apply _|apply within_put; by eexists|intros _].
  destruct (_ >? 0); [|apply within_ret, _].
  apply within_bind; [apply _|apply within_reads, _|intros old]. apply within_put. by eexists.
Qed.

(** What a block that is applied does to the stores of blocks: it follows the head
    and becomes it, and it is included under its number. *)
Lemma extend_chain_stores clock b c c1 :
  extend_chain clock b c = (c1, Ok tt) ->
  fb_previous b = ch_head_id c /\
  (1 < fb_block_num b -> fb_block_num b = wrapu32 (ch_head_num c + 1)) /\
  ch_head_id c1 = fb_id b /\ ch_head c1 = fb_header b /\
  ch_num_to_id c1 = <[fb_block_num b := fb_id b]> (ch_num_to_id c) /\
  bs_data (ch_blocks c1) = bs_data (ch_blocks c) /\
  (forall k, bk_digest <$> bs_records (ch_blocks c1) !! k = bk_digest <$> bs_records (ch_blocks c) !! k) /\
  exists f, bs_forks (ch_blocks c) !! fb_id b = Some f /\
    bs_forks (ch_blocks c1) = <[fb_id b := set_fork_included true f]> (bs_forks (ch_blocks c)).
Proof.
  intros (c2 & Ha & ->)%extend_chain_Ok. unfold apply_block, update_head_block, clear_pending in Ha.
  act_ok. repeat match goal with u : () |- _ => destruct u end.
  match goal with H : evaluate_block _ _ _ _ = (?c, Ok ?p) |- _ =>
    pose proof (evaluate_block_within _ _ _ _ _ _ H) as (recs & -> & Hrecs);
    apply evaluate_block_Ok in H as [_ [k Hv]] end.
  pose proof (verify_header_num _ _ _ _ _ Hv) as Hnum. apply verify_header_prev in Hv.
  match goal with H : save_undo_state _ _ _ = _ |- _ => apply save_undo_state_within in H as (u & ->) end.
  match goal with H : apply_to_db _ _ = _ |- _ => apply apply_to_db_Ok in H as (db' & _ & ->) end.
  match goal with H : chain_mark_included _ _ _ = _ |- _ =>
    apply chain_mark_included_Ok in H as (f & Hf & ->) end.
  cbn in *. split_and!; eauto.
Qed.

(** A block that is applied is the head, is included, and no block is lost. *)
Lemma extend_chain_effect clock b c c1 :
  extend_chain clock b c = (c1, Ok tt) ->
  ch_head_id c1 = fb_id b /\ ch_head c1 = fb_header b /\
  bs_data (ch_blocks c1) = bs_data (ch_blocks c) /\
  dom (bs_records (ch_blocks c1)) = dom (bs_records (ch_blocks c)) /\
  exists f, bs_forks (ch_blocks c) !! fb_id b = Some f /\
    bs_forks (ch_blocks c1) = <[fb_id b := set_fork_included true f]> (bs_forks (ch_blocks c)).
Proof.
  intros (_ & _ & Hid & Hh & _ & Hd & Hrecs & Hf)%extend_chain_stores. split_and!; try done.
  apply set_eq. intros k. rewrite !elem_of_dom. specialize (Hrecs k).
  destruct (bs_records (ch_blocks c1) !! k), (bs_records (ch_blocks c) !! k);
    try done; split; intros [? [=]]; eauto.
Qed.

(** The blocks are filed under their ids. *)
Definition data_keyed (c : chain) : Prop := keyed fb_id (bs_data (ch_blocks c)).

Lemma last_cons {A} (x : A) l d : List.last (x :: l) d = List.last l x.
Proof.
  revert x d. induction l as [|y l IH]; intros x d; [done|].
  change (List.last (x :: y :: l) d) with (List.last (y :: l) d). by rewrite !IH.
Qed.

Lemma extend_all_effect clock l c c' :
  data_keyed c ->
  act_each (fun id => b <-- reads (get_block id) ;; extend_chain clock b) l c = (c', Ok tt) ->
  ch_head_id c' = List.last l (ch_head_id c) /\
  forall id, included c id \/ id ∈ l -> included c' id.
Proof.
  revert c. induction l as [|x l IH]; intros c Hk He; cbn in He.
  - act_ok. split; [done|]. by intros id [?|?%elem_of_nil].
  - apply act_bind_Ok in He as (c1 & [] & Hx & He).
    apply act_bind_Ok in Hx as (c0 & b & Hb & Hx). apply reads_Ok in Hb as [-> Hb].
    apply extend_chain_effect in Hx as (Hid & _ & Hdata & _ & f & Hf & Hforks).
    unfold get_block, fetch in Hb. apply require_Ok, Hk in Hb as <-.
    assert (Hk1 : data_keyed c1) by (unfold data_keyed; by rewrite Hdata).
    assert (Hinc : forall id, included c id \/ id = fb_id b -> included c1 id).
    { intros id Hin. unfold included. rewrite Hforks.
      destruct (decide (id = fb_id b)) as [->|Hne]; [rewrite lookup_insert_eq; by eexists|].
      rewrite lookup_insert_ne by done. by destruct Hin. }
    destruct (IH c1 Hk1 He) as [Hlast Hall]. split.
    + rewrite Hlast, Hid. symmetry. apply last_cons.
    + intros id [Hin|[->|Hin]%elem_of_cons]; apply Hall; [left; by apply Hinc; left|left; apply Hinc; by right|by right].
Qed.

Lemma pop_until_effect fuel clock target c c' :
  pop_until fuel clock target c = (c', Ok tt) ->
  ch_head_id c' = target /\ bs_data (ch_blocks c') = bs_data (ch_blocks c).
Proof.
  revert c. induction fuel as [|fuel IH]; intros c; cbn [pop_until]; unfold act_bind, reads;
    (destruct (Z.eqb_spec (ch_head_id c) target); [intros [= <-]; done|]); [done|].
  destruct (pop_block clock c) as [c1 [[]|e]] eqn:Hpop; [|done]. intros [-> Hd]%IH. split; [done|].
  apply pop_block_Ok in Hpop as (f & u & h & db & _ & _ & _ & _ & _ & _ & _ & _ & Hbl). by rewrite Hd, Hbl.
Qed.

Lemma get_fork_history_shape id c history :
  get_fork_history id c = Ok history -> exists x l, history = id :: x :: l.
Proof.
  unfold get_fork_history. intros Hh. inv_ok.
  match goal with H : fork_history_loop ?n _ _ = _ |- _ => rename H into Hl; destruct n; [done|] end.
  cbn in Hl. inv_ok. repeat (case_match; inv_ok); eauto.
Qed.

Lemma switch_head clock id c c' :
  data_keyed c -> switch_to_fork clock id c = (c', Ok tt) -> ch_head_id c' = id.
Proof.
  intros Hk Hs. unfold switch_to_fork in Hs. act_ok.
  destruct (Z.eqb_spec id (ch_head_id c)) as [->|Hne]; [by act_ok|]. act_ok.
  match goal with H : get_fork_history _ _ = Ok ?h |- _ =>
    destruct (get_fork_history_shape _ _ _ H) as (x & l & ->) end.
  match goal with H : pop_until _ _ _ _ = (_, Ok ?u) |- _ => destruct u;
    apply pop_until_effect in H as [_ Hd] end.
  apply extend_all_effect in Hs as [Hid _]; [|unfold data_keyed; by rewrite Hd].
  rewrite Hid. cbn [removelast rev]. by rewrite last_last.
Qed.

(** A switch to a fork that returns has moved the head to its target, and every
    block on the way from the common ancestor to the target is now included. *)
Theorem switch_reaches_target clock id c c' :
  data_keyed c -> switch_to_fork clock id c = (c', Ok tt) ->
  ch_head_id c' = id /\
  (id <> ch_head_id c -> exists history, get_fork_history id c = Ok history /\
     forall x, x ∈ removelast history -> included c' x).
Proof.
  intros Hk Hs. unfold switch_to_fork in Hs. act_ok.
  destruct (Z.eqb_spec id (ch_head_id c)) as [->|Hne]; [by act_ok|]. act_ok.
  match goal with H : get_fork_history _ _ = Ok ?h |- _ => rename H into Hh, h into history end.
  match goal with H : pop_until _ _ _ _ = (_, Ok ?u) |- _ => destruct u;
    apply pop_until_effect in H as [_ Hd] end.
  apply extend_all_effect in Hs as [Hid Hall]; [|unfold data_keyed; by rewrite Hd].
  destruct (get_fork_history_shape _ _ _ Hh) as (x & l & ->). split.
  - rewrite Hid. cbn [removelast rev]. by rewrite last_last.
  - intros _. eexists. split; [done|]. intros y Hy. apply Hall. right.
    apply list_elem_of_In, in_rev. rewrite rev_involutive. by apply list_elem_of_In.
Qed.
End switch.

(** ** Receiving the next block *)

Section push.
Context `{Crypto} `{BlockHash} `{FcNum} `{FcReal} `{!MarketEngine}.

(** A block that has just arrived, is the first of its number, and names the head
    as its previous. *)
Record next_block (b : full_block) (c : chain) (f : block_fork_data) : Prop := mk_next {
  nb_previous : fb_previous b = ch_head_id c;
  nb_other : fb_id b <> ch_head_id c;
  nb_num : fb_block_num b = ch_head_num c + 1;
  nb_num_pos : 0 < fb_block_num b;
  nb_data : bs_data (ch_blocks c) !! fb_id b = None;
  nb_record : bs_records (ch_blocks c) !! fb_id b = None;
  nb_fork : bs_forks (ch_blocks c) !! fb_id b = None;
  nb_first : bs_numbers (ch_blocks c) !! fb_block_num b = None;
  nb_head : bs_forks (ch_blocks c) !! ch_head_id c = Some f;
  nb_head_linked : fk_is_linked f = true;
  nb_head_included : fk_is_included f = true;
  nb_head_valid : fork_invalid f = false
}.

(** The stores once the block is in the tree. *)
Definition with_block (clock seed : Z) (b : full_block) (f : block_fork_data) (s : block_store)
    : block_store :=
  mk_store
    (<[fb_id b := set_fork_linked true (set_fork_known true new_fork)]>
       (<[fb_previous b := add_next_block (fb_id b) f]> (bs_forks s)))
    (<[fb_block_num b := [fb_id b]]> (bs_numbers s))
    (<[fb_id b := b]> (bs_data s))
    (<[fb_id b := new_block_record clock seed b]> (bs_records s)).

Lemma store_next_block clock seed b c f :
  next_block b c f ->
  store_and_index clock seed (fb_id b) b (ch_blocks c) =
    Ok (with_block clock seed b f (ch_blocks c),
        (fb_id b, set_fork_linked true (set_fork_known true new_fork))).
Proof.
  intros N. unfold store_and_index, fetch_blocks_at_number.
  rewrite (nb_data _ _ _ N), (nb_fork _ _ _ N), (nb_first _ _ _ N). cbn.
  unfold store_block, fetch_blocks_at_number. cbn. rewrite (nb_record _ _ _ N). cbn.
  rewrite (nb_first _ _ _ N). cbn. unfold announce_to_previous. cbn.
  rewrite (nb_previous _ _ _ N), (nb_head _ _ _ N). cbn.
  rewrite lookup_insert_ne by (apply not_eq_sym, (nb_other _ _ _ N)). rewrite (nb_fork _ _ _ N).
  unfold add_leaf, inherit_invalid. cbn. rewrite (nb_head_linked _ _ _ N).
  unfold fork_invalid. cbn. pose proof (nb_head_valid _ _ _ N) as Hv. unfold fork_invalid in Hv. rewrite Hv.
  unfold with_block. rewrite (nb_previous _ _ _ N). done.
Qed.

Lemma next_block_history clock seed b c f :
  next_block b c f ->
  get_fork_history (fb_id b) (set_ch_blocks (with_block clock seed b f (ch_blocks c)) c)
    = Ok [fb_id b; ch_head_id c].
Proof.
  intros N. unfold get_fork_history. cbn.
  assert (Hs : exists n, size (<[fb_id b := new_block_record clock seed b]> (bs_records (ch_blocks c))) = S n).
  { rewrite map_size_insert_None by apply N. eauto. }
  destruct Hs as [n ->]. cbn. unfold get_block_header. cbn. rewrite lookup_insert_eq. cbn.
  fold (fb_head b). fold (fb_previous b). rewrite (nb_previous _ _ _ N).
  destruct (_ =? _); [done|]. unfold fetch. rewrite lookup_insert_ne by apply N.
  rewrite lookup_insert_eq. cbn. rewrite (nb_head_linked _ _ _ N). cbn. by rewrite (nb_head_included _ _ _ N).
Qed.

Lemma switch_to_next clock seed b c f c1 :
  next_block b c f ->
  extend_chain clock b (set_ch_blocks (with_block clock seed b f (ch_blocks c)) c) = (c1, Ok tt) ->
  switch_to_fork clock (fb_id b) (set_ch_blocks (with_block clock seed b f (ch_blocks c)) c) = (c1, Ok tt).
Proof.
  intros N He. unfold switch_to_fork, act_bind, reads at 1. cbn -[get_fork_history extend_chain].
  destruct (Z.eqb_spec (fb_id b) (ch_head_id c)) as [E|_]; [by destruct (nb_other _ _ _ N)|].
  unfold reads. rewrite (next_block_history clock seed b c f N). cbn -[pop_until extend_chain with_block].
  assert (Hpop : forall n, pop_until n clock (ch_head_id c)
            (set_ch_blocks (with_block clock seed b f (ch_blocks c)) c)
          = (set_ch_blocks (with_block clock seed b f (ch_blocks c)) c, Ok tt)).
  { intros n. destruct n; cbn [pop_until]; unfold act_bind, reads; cbn; by rewrite Z.eqb_refl. }
  rewrite Hpop. unfold act_bind, get_block, fetch. cbn -[extend_chain with_block].
  change (bs_data (with_block clock seed b f (ch_blocks c))) with (<[fb_id b := b]> (bs_data (ch_blocks c))).
  rewrite lookup_insert_eq. cbn -[extend_chain with_block]. by rewrite He.
Qed.

(** A candidate the chain can switch to ends the search. *)
Lemma try_fork_Ok clock elapsed id next c c1 f r :
  bs_forks (ch_blocks c) !! next = Some f -> can_link f = true ->
  switch_to_fork clock next c = (c1, Ok tt) -> bs_records (ch_blocks c1) !! id = Some r ->
  try_fork clock elapsed id next c =
    (set_ch_blocks (set_bs_records (<[id := set_bk_processing_time elapsed r]>
       (bs_records (ch_blocks c1))) (ch_blocks c1)) c1, Ok true).
Proof.
  intros Hf Hl Hs Hr. unfold try_fork, try_catch, act_bind, reads, fetch. rewrite Hf. cbn -[switch_to_fork].
  rewrite Hl, Hs, Hr. done.
Qed.

Lemma try_heights_first clock elapsed id n next rest c c1 :
  bs_numbers (ch_blocks c) !! Z.of_nat (S n) = Some (next :: rest) ->
  try_fork clock elapsed id next c = (c1, Ok true) ->
  try_heights clock elapsed id (S n) c = (c1, Ok true).
Proof.
  intros Hn Ht. cbn [try_heights]. unfold act_bind, reads. rewrite Hn. cbn -[try_fork].
  unfold act_bind. by rewrite Ht.
Qed.

Lemma push_next_block clock elapsed seed b c f c1 :
  next_block b c f ->
  get_current_random_seed (ch_db c) = Ok seed ->
  extend_chain clock b (set_ch_blocks (with_block clock seed b f (ch_blocks c)) c) = (c1, Ok tt) ->
  exists c2 fork, push_block clock elapsed b c = (c2, Ok fork) /\
    ch_head_id c2 = fb_id b /\ ch_head c2 = fb_header b /\ ch_db c2 = ch_db c1 /\
    bs_forks (ch_blocks c2) !! fb_id b = Some fork /\
    fk_is_linked fork = true /\ fk_is_valid fork = Some true /\ fk_is_included fork = true.
Proof.
  intros N Hseed He. pose proof (switch_to_next _ _ _ _ _ _ N He) as Hsw.
  apply extend_chain_effect in He as (Hid & Hhead & _ & Hdom & f' & Hf' & Hforks).
  cbn in Hf'. rewrite lookup_insert_eq in Hf'. injection Hf' as <-.
  assert (exists r, bs_records (ch_blocks c1) !! fb_id b = Some r) as [r Hr].
  { apply elem_of_dom. rewrite Hdom. cbn. apply elem_of_dom. rewrite lookup_insert_eq. eauto. }
  set (c0 := set_ch_blocks (with_block clock seed b f (ch_blocks c)) c) in *.
  pose proof (try_fork_Ok clock elapsed (fb_id b) (fb_id b) c0 c1 _ r (lookup_insert_eq _ _ _) eq_refl
    Hsw Hr) as Htry.
  eapply (try_heights_first _ _ _ (Z.to_nat (ch_head_num c))) in Htry.
  2: { pose proof (nb_num _ _ _ N). pose proof (nb_num_pos _ _ _ N).
       replace (Z.of_nat (S (Z.to_nat (ch_head_num c)))) with (fb_block_num b) by lia.
       apply lookup_insert_eq. }
  replace (S (Z.to_nat (ch_head_num c))) with (Z.to_nat (fb_block_num b)) in Htry
    by (pose proof (nb_num _ _ _ N); pose proof (nb_num_pos _ _ _ N); lia).
  eexists _, _. split.
  - unfold push_block, chain_store_and_index, act_bind, reads, put_.
    rewrite (proj2 (andb_false_iff _ _)).
    2: { right. pose proof (nb_num _ _ _ N). unfold BTS_BLOCKCHAIN_MAX_UNDO_HISTORY,
           BTS_BLOCKCHAIN_NUM_DELEGATES. lia. }
    cbn [throw_if]. rewrite Hseed, (store_next_block _ _ _ _ _ N). fold c0.
    assert (Hget : get_block (fb_id b) c0 = Ok b).
    { unfold get_block, fetch, c0, with_block. cbn. by rewrite lookup_insert_eq. }
    cbn [can_link snd fst fk_is_linked fork_invalid fk_is_valid set_fork_linked set_fork_known negb andb new_fork].
    rewrite Hget, (proj2 (Z.gtb_lt _ _)) by (rewrite (nb_num _ _ _ N); lia).
    rewrite Htry. cbn [ch_blocks set_ch_blocks bs_forks set_bs_records].
    rewrite Hforks, lookup_insert_eq. reflexivity.
  - cbn. rewrite Hforks, lookup_insert_eq. done.
Qed.

(** C4: A block that names the head as its previous, is the first of its number and
    passes its evaluation is applied by [push_block]: it is the new head, the
    records are those [extend_chain] gives, and the returned fork data says that
    the block is linked, valid and included. *)
Theorem push_block_extends clock elapsed seed b c f c1 :
  next_block b c f ->
  get_current_random_seed (ch_db c) = Ok seed ->
  extend_chain clock b (set_ch_blocks (with_block clock seed b f (ch_blocks c)) c) = (c1, Ok tt) ->
  exists c2 fork, push_block clock elapsed b c = (c2, Ok fork) /\
    ch_head_id c2 = fb_id b /\ ch_head c2 = fb_header b /\ ch_db c2 = ch_db c1 /\
    bs_forks (ch_blocks c2) !! fb_id b = Some fork /\
    fk_is_linked fork = true /\ fk_is_valid fork = Some true /\ fk_is_included fork = true.
Proof. apply push_next_block. Qed.
End push.
