(* ===== verification/ChainWitnesses.v ===== *)
(** * ChainWitnesses: the theorems on blocks and forks at work

    A small chain: the records of Samples.v under a head at the last checkpoint, two
    delegates who take turns, and the next block, which comes one slot late and has
    one transaction.  [toy_hash] and [quiet_engine] are the concrete instances of
    the hash and market interfaces.  Each lemma applies one theorem about block
    production, the block tree or the chain to this chain, or to a tree of one block
    on top of genesis. *)
From S2P Require Import Prelude Config Fc Asset Records ChainInterface PendingState ChainDatabase.
From S2P Require Import DatabaseFacts Apply ApplyFacts Undo EvalState Ledger Samples.
From S2P Require Import TransactionFacts Blocks Production ProductionFacts Forks ForkFacts Chain.
From S2P Require Import ChainOps ChainFacts SwitchFacts.

(** ** The chain *)

(** An id grows with the previous id; a signature is the key itself. *)
#[export] Instance toy_hash : BlockHash := {|
  header_digest h := bh_block_num h;
  block_id_hash h := 1000 * Z.abs (bh_previous (sb_header h)) + Z.abs (sb_delegate_signature h) + 1;
  recover_signee sig _ _ := Ok sig;
  trx_ids_hash l := foldr Z.add 7 l;
  packed_size b := 200 + 100 * Z.of_nat (length (fb_user_transactions b));
  trx_data_size _ := 100;
  secret_hash s := s + 1;
  next_seed_hash a b := a + 3 * b;
  sha256_of_seed s := s;
  sha256_of_hash h := h + 1
|}.

Lemma toy_hash_rank h : (Z.to_nat (bh_previous (sb_header h)) < Z.to_nat (block_id_hash h))%nat.
Proof. cbn. lia. Qed.
Lemma toy_hash_null h : block_id_hash h <> null_block_id.
Proof. cbn. unfold null_block_id. lia. Qed.

(** Markets in which no order matches. *)
#[export] Instance quiet_engine : MarketEngine.
Proof.
  refine {| engine_execute _ _ _ _ _ p := Ok (p, []); engine_cancel_all_shorts _ _ _ p := Ok (p, []) |}.
  - intros v db q b t p p' l [= <- _]. done.
  - intros v db t p p' l [= <- _]. done.
Defined.

Definition sample_head : signed_block_header :=
  mk_signed_header (mk_header 0 last_checkpoint_block_num sample_now 0 0 0) 1.
Definition sample_head_id : Z := block_id sample_head.

(** The delegates 1 and 2 in turn. *)
Definition sample_turns : list Z := map (fun i => 1 + Z.of_nat i mod 2) (seq 0 101).

Definition chain_db : chain_database :=
  set_db_properties
    {[ last_account_id_prop := v_int 2; last_asset_id_prop := v_int 100; chain_id_prop := v_int 1;
       last_random_seed_prop := v_int 5; active_delegate_list_prop := v_ids sample_turns;
       confirmation_requirement_prop := v_int 1 ]}
    (set_db_address_to_account {[ address_of_key 1 := 1; address_of_key 2 := 2 ]}
      (set_db_delegate_votes {[ (900, 1); (800, 2) ]}
        (set_db_head_block_num last_checkpoint_block_num sample_db))).

Definition sample_chain : chain :=
  mk_chain chain_db sample_head sample_head_id
    (mk_store {[ sample_head_id := mk_fork ∅ true (Some true) None true true ]}
       {[ last_checkpoint_block_num := [sample_head_id] ]}
       {[ sample_head_id := mk_block sample_head [] ]}
       {[ sample_head_id := mk_block_record (mk_digest_block sample_head []) 0 0 0 5 200 0 0 ]})
    {[ last_checkpoint_block_num := sample_head_id;
       last_checkpoint_block_num - BTS_BLOCKCHAIN_MAX_UNDO_HISTORY := 77 ]} ∅ ∅ ∅ ∅ None false false 0.

(** The clock, and the block of its slot. *)
Definition sample_clock : Z := sample_now + 21.

Definition sample_next : full_block :=
  mk_block
    (mk_signed_header
       (mk_header sample_head_id (last_checkpoint_block_num + 1) (sample_now + 20)
          (trx_ids_hash [trx_id sample_transfer]) 9 0) 1)
    [sample_transfer].

Definition is_done {A} (r : chain * result A) : bool := is_ok r.2.

(** The chain with the block stored, not yet applied. *)
Definition stored_chain : chain :=
  set_ch_blocks
    (match store_and_index sample_clock 5 (fb_id sample_next) sample_next (ch_blocks sample_chain) with
     | Ok (s, _) => s
     | Err _ => ch_blocks sample_chain
     end) sample_chain.

Lemma sample_next_extends : is_done (extend_chain sample_clock sample_next stored_chain) = true.
Proof. vm_compute. reflexivity. Qed.

(** ** The theorems *)

Definition block_pending : pending_chain_state := new_pending (Some (db_view chain_db)).

Lemma block_pending_wf : ledger_wf block_pending.
Proof.
  split; [apply pending_reachable_ok; exists (Some (db_view chain_db)); constructor|].
  intros v [= <-]. split_and!;
    [apply (keyed_decide as_id (db_assets chain_db)) | apply (keyed_decide ac_id (db_accounts chain_db))
    |apply (keyed_decide balance_id (db_balances chain_db))]; vm_compute; reflexivity.
Qed.

(** ** Production *)

Lemma pay_delegate_accounts_witness :
  exists p' r', pay_delegate chain_db (bs_records (ch_blocks sample_chain) !! sample_head_id) 1
                  block_pending = Ok (p', r') /\ pay_effect chain_db 1 block_pending p' r'.
Proof.
  destruct (is_ok_Some (pay_delegate chain_db (bs_records (ch_blocks sample_chain) !! sample_head_id) 1
    block_pending)) as [[p' r'] Hp]; [vm_compute; reflexivity|].
  exists p', r'. split; [exact Hp|].
  apply (pay_delegate_accounts chain_db (bs_records (ch_blocks sample_chain) !! sample_head_id) 1
    block_pending p' r'); [exact block_pending_wf|exact Hp].
Defined.

Lemma production_counts_witness :
  exists p' signing, update_delegate_production_info chain_db sample_next 1 block_pending = Ok p' /\
    get_delegate_record_for_signee chain_db 1 = Ok signing /\
    stat ds_blocks_produced p' (ac_id signing) = 1.
Proof.
  destruct (is_ok_Some (update_delegate_production_info chain_db sample_next 1 block_pending))
    as [p' Hp]; [vm_compute; reflexivity|].
  destruct (production_counts chain_db sample_next 1 block_pending p' 1 block_pending_wf
    ltac:(vm_compute; reflexivity) Hp) as (signing & active & Hs & Ha & Hprod & _).
  exists p', signing. split; [exact Hp|]. split; [exact Hs|]. rewrite Hprod, decide_True by reflexivity.
  vm_compute in Hs. injection Hs as <-. vm_compute. reflexivity.
Defined.

(** A block that ends a round. *)
Definition round_block : full_block :=
  mk_block (mk_signed_header (mk_header sample_head_id (101 * 12669) (sample_now + 20) 7 9 0) 1) [].

Lemma active_delegates_are_the_elected_witness :
  exists active, active ≡ₚ next_round_active_delegates chain_db /\ next_round_active_delegates chain_db = [1; 2].
Proof.
  destruct (is_ok_Some (update_active_delegate_list chain_db round_block block_pending))
    as [p' Hp]; [vm_compute; reflexivity|].
  pose proof (active_delegates_are_the_elected chain_db round_block block_pending p' Hp) as Hround.
  change (fb_block_num round_block mod BTS_BLOCKCHAIN_NUM_DELEGATES =? 0) with true in Hround.
  destruct Hround as (active & _ & Hperm & _). exists active.
  split; [exact Hperm|]. vm_compute. reflexivity.
Defined.

(** ** The block tree *)

Definition genesis_fork : block_fork_data := mk_fork ∅ true (Some true) None true true.
Definition genesis_tree : block_store := mk_store {[ null_block_id := genesis_fork ]} ∅ ∅ ∅.

Lemma genesis_tree_ok : tree_ok genesis_tree.
Proof.
  assert (Hforks : forall id f, bs_forks genesis_tree !! id = Some f -> id = null_block_id /\ f = genesis_fork).
  { intros id f Hf. change (({[ null_block_id := genesis_fork ]} : gmap Z block_fork_data) !! id = Some f) in Hf.
    apply lookup_singleton_Some in Hf as [<- <-]. done. }
  assert (Hdata : forall id, bs_data genesis_tree !! id = None) by (intros id; exact (lookup_empty id)).
  split; [split| | |].
  - eexists. split; [reflexivity|done].
  - intros id b Hb. by rewrite Hdata in Hb.
  - intros id [r Hr]. discriminate Hr.
  - by intros id f [-> _]%Hforks.
  - intros x f y [_ ->]%Hforks. cbn. split; [set_solver|].
    intros (b & Hb & _). by rewrite Hdata in Hb.
  - intros id n. unfold fetch_blocks_at_number. cbn. split; [by intros ?%elem_of_nil|].
    intros (b & Hb & _). by rewrite Hdata in Hb.
  - eexists. split; [reflexivity|done].
  - by intros id f [_ ->]%Hforks.
  - intros c b fp fc Hb. by rewrite Hdata in Hb.
Qed.

(** The first block, and the tree with it. *)
Definition first_block : full_block :=
  mk_block (mk_signed_header (mk_header null_block_id 1 sample_now 7 9 0) 1) [].

Lemma store_and_index_spec_witness :
  exists r, store_and_index 0 5 (fb_id first_block) first_block genesis_tree = r /\
    indexed genesis_tree (fb_id first_block) first_block r.
Proof.
  eexists. split; [reflexivity|].
  apply (store_and_index_spec Z.to_nat toy_hash_rank toy_hash_null genesis_tree 0 5
    (fb_id first_block) first_block); [exact genesis_tree_ok|reflexivity|reflexivity].
Defined.

(** The tree with the first block. *)
Definition first_fork : block_fork_data := mk_fork ∅ true None None false true.
Definition one_block_tree : block_store :=
  match store_and_index 0 5 (fb_id first_block) first_block genesis_tree with
  | Ok (s, _) => s
  | Err _ => genesis_tree
  end.

Lemma one_block_tree_ok : tree_ok one_block_tree.
Proof.
  destruct (graft_leaf Z.to_nat toy_hash_rank toy_hash_null genesis_tree 0 5 (fb_id first_block) first_block
    genesis_tree_ok eq_refl eq_refl eq_refl) as (st & lid & lf & E & Ht & _).
  injection E as <- _ _. exact Ht.
Qed.

Lemma mark_invalid_spec_witness :
  exists s', mark_invalid (fb_id first_block) invalid_block_time one_block_tree = Ok s' /\ tree_ok s'.
Proof.
  destruct (mark_invalid_spec Z.to_nat toy_hash_rank one_block_tree (fb_id first_block) first_fork
    invalid_block_time) as (s' & Hs & Ht & _);
    [exact one_block_tree_ok|vm_compute; reflexivity|reflexivity|reflexivity|].
  exists s'. split; [exact Hs|exact Ht].
Defined.

(** ** The chain *)

Lemma no_null_decide {V} (null : V -> bool) (m : gmap Z V) :
  forallb (fun kv => negb (null kv.2)) (map_to_list m) = true -> no_null null m.
Proof.
  intros Hm k v Hk. apply elem_of_map_to_list, list_elem_of_In in Hk.
  rewrite forallb_forall in Hm. apply Hm in Hk. by apply negb_true_iff in Hk.
Qed.

Lemma chain_db_ok : db_ok chain_db.
Proof.
  split; try (apply no_null_decide; vm_compute; reflexivity);
    try (apply keyed_decide; vm_compute; reflexivity); try (intros k v Hk; discriminate Hk).
Qed.

(** A run that succeeds has a final state. *)
Lemma is_done_run (m : act unit) c : is_done (m c) = true -> exists c', m c = (c', Ok tt).
Proof. unfold is_done. destruct (m c) as [c' [[]|e]]; [eauto|done]. Qed.

Lemma sample_extend_pop :
  exists c1 c2, extend_chain sample_clock sample_next stored_chain = (c1, Ok tt) /\
    pop_block sample_clock c1 = (c2, Ok tt).
Proof.
  destruct (is_done_run (act_bind (extend_chain sample_clock sample_next) (fun _ => pop_block sample_clock))
    stored_chain) as [c2 Hrun]; [vm_compute; reflexivity|].
  apply act_bind_Ok in Hrun as (c1 & [] & H1 & H2). eauto.
Qed.

Lemma chain_db_filed : db_filed chain_db.
Proof.
  split; try (apply no_null_decide; vm_compute; reflexivity);
    try (apply keyed_decide; vm_compute; reflexivity); try (intros k v Hk; discriminate Hk).
Qed.

Lemma pop_undoes_extend_witness :
  exists c1 c2, extend_chain sample_clock sample_next stored_chain = (c1, Ok tt) /\
    pop_block sample_clock c1 = (c2, Ok tt) /\
    records_restored (ch_db stored_chain) (ch_db c1) (ch_db c2) /\ ch_head_id c2 = sample_head_id.
Proof.
  destruct sample_extend_pop as (c1 & c2 & H1 & H2). exists c1, c2.
  destruct (pop_undoes_extend sample_clock sample_clock sample_next stored_chain c1 c2)
    as (Hr & _ & Hid & _);
    [exact chain_db_ok|exact chain_db_filed|vm_compute; split; [discriminate|reflexivity]
    |reflexivity|reflexivity|reflexivity|exact H1|exact H2|].
  split; [exact H1|]. split; [exact H2|]. split; [exact Hr|exact Hid].
Defined.

(** The same block five seconds early. *)
Definition early_block : full_block :=
  mk_block (mk_signed_header (mk_header sample_head_id (last_checkpoint_block_num + 1) (sample_now + 15) 7 9 0) 1) [].
Definition early_chain : chain :=
  set_ch_blocks (with_block sample_clock 5 early_block genesis_fork (ch_blocks sample_chain)) sample_chain.

Lemma rejected_block_is_harmless_witness :
  exists c2, extend_chain sample_clock early_block early_chain = (c2, Err invalid_block_time) /\
    ch_head_id c2 = sample_head_id.
Proof.
  destruct (evaluate_block sample_clock (fb_id early_block) early_block (sync_clock sample_clock early_chain))
    as [c1 [p|e]] eqn:He; [vm_compute in He; discriminate He|].
  assert (e = invalid_block_time) as ->.
  { assert (Hr : (evaluate_block sample_clock (fb_id early_block) early_block
      (sync_clock sample_clock early_chain)).2 = Err invalid_block_time) by (vm_compute; reflexivity).
    rewrite He in Hr. injection Hr as ->. reflexivity. }
  assert (c1 = (evaluate_block sample_clock (fb_id early_block) early_block
      (sync_clock sample_clock early_chain)).1) as Hc1 by (rewrite He; reflexivity).
  destruct (is_ok_Some (mark_invalid (fb_id early_block) invalid_block_time (ch_blocks c1))) as [s Hs];
    [rewrite Hc1; vm_compute; reflexivity|].
  destruct (rejected_block_is_harmless sample_clock early_block early_chain c1 invalid_block_time s He eq_refl Hs)
    as (c2 & Hx & _ & _ & _ & Hid & _).
  exists c2. split; [exact Hx|exact Hid].
Defined.

(** The ids of the sample's blocks grow along the chain. *)
Lemma stored_rank id r :
  bs_records (ch_blocks stored_chain) !! id = Some r ->
  (Z.to_nat (bh_previous (bk_head r)) < Z.to_nat id)%nat.
Proof.
  assert (Hall : map_Forall (fun id r => (Z.to_nat (bh_previous (bk_head r)) < Z.to_nat id)%nat)
    (bs_records (ch_blocks stored_chain))) by (apply (proj1 (bool_decide_eq_true _)); vm_compute; reflexivity).
  apply Hall.
Qed.

Lemma fork_history_terminates_witness :
  exists r, walk stored_chain (fb_id sample_next) r /\
    get_fork_history (fb_id sample_next) stored_chain = (history ← r; Ok (fb_id sample_next :: history)).
Proof.
  destruct (fork_history_terminates stored_chain Z.to_nat stored_rank (fb_id sample_next))
    as (r & Hw & _ & Hh).
  exists r. split; [exact Hw|exact Hh].
Defined.

(** The chain with the block applied. *)
Definition extended_chain : chain := (extend_chain sample_clock sample_next stored_chain).1.

Lemma extended_run : extend_chain sample_clock sample_next stored_chain = (extended_chain, Ok tt).
Proof.
  unfold extended_chain. pose proof sample_next_extends as Hd. unfold is_done in Hd.
  by destruct (extend_chain sample_clock sample_next stored_chain) as [c [[]|e]].
Qed.

(** Delegate 2's block of the next slot, after the same head: a switch to it pops the
    applied block and applies this one. *)
Definition rival_block : full_block :=
  mk_block (mk_signed_header (mk_header sample_head_id (last_checkpoint_block_num + 1) (sample_now + 30) 7 11 0) 2) [].
Definition rival_chain : chain :=
  set_ch_blocks (with_block sample_clock 5 rival_block genesis_fork (ch_blocks extended_chain)) extended_chain.
Definition switched_chain : chain := (switch_to_fork sample_clock (fb_id rival_block) rival_chain).1.

Example fork_switched :
  ch_head_id rival_chain = fb_id sample_next /\
  ch_head_id switched_chain = fb_id rival_block /\
  ch_num_to_id switched_chain !! (last_checkpoint_block_num + 1) = Some (fb_id rival_block) /\
  (fk_is_included <$> bs_forks (ch_blocks switched_chain) !! fb_id sample_next) = Some false /\
  (fk_is_included <$> bs_forks (ch_blocks switched_chain) !! fb_id rival_block) = Some true.
Proof. vm_compute. split_and!; reflexivity. Qed.

Lemma extended_descends : descends (bs_records (ch_blocks extended_chain)) (ch_head extended_chain).
Proof.
  destruct (extend_chain_effect _ _ _ _ extended_run) as (_ & -> & _ & Hdom & _).
  assert (Hroot : bs_records (ch_blocks extended_chain) !! 0 = None).
  { apply not_elem_of_dom. rewrite Hdom. apply not_elem_of_dom. vm_compute. reflexivity. }
  assert (Hd : bk_header <$> bs_records (ch_blocks extended_chain) !! sample_head_id = Some sample_head)
    by (vm_compute; reflexivity).
  constructor. intros r Hr. change (bs_records (ch_blocks extended_chain) !! sample_head_id = Some r) in Hr.
  rewrite Hr in Hd. injection Hd as Hd. unfold bk_head. rewrite Hd. split; [vm_compute; split; [discriminate|reflexivity]|].
  constructor. intros r' Hr'. change (bs_records (ch_blocks extended_chain) !! 0 = Some r') in Hr'. congruence.
Qed.

Lemma pop_loop_terminates_witness :
  exists out, pops sample_clock sample_head_id extended_chain out /\ ch_head_id extended_chain <> sample_head_id.
Proof.
  eexists. split.
  - apply (pop_loop_terminates sample_clock sample_head_id extended_chain extended_descends).
    change (ch_head_num extended_chain) with (bh_block_num (sb_header (ch_head extended_chain))).
    destruct (extend_chain_effect _ _ _ _ extended_run) as (_ & -> & _). vm_compute. discriminate.
  - destruct (extend_chain_effect _ _ _ _ extended_run) as (-> & _). vm_compute. discriminate.
Defined.

Lemma stored_keyed : data_keyed stored_chain.
Proof. apply (keyed_decide fb_id (bs_data (ch_blocks stored_chain))). vm_compute. reflexivity. Qed.

Lemma sample_is_next : next_block sample_next sample_chain genesis_fork.
Proof. split; first [vm_compute; reflexivity|vm_compute; discriminate]. Qed.

Lemma switch_reaches_target_witness :
  exists c', switch_to_fork sample_clock (fb_id sample_next) stored_chain = (c', Ok tt) /\
    ch_head_id c' = fb_id sample_next.
Proof.
  pose proof (switch_to_next sample_clock 5 sample_next sample_chain genesis_fork extended_chain
    sample_is_next extended_run) as Hs.
  exists extended_chain. split; [exact Hs|].
  destruct (switch_reaches_target sample_clock (fb_id sample_next) stored_chain extended_chain stored_keyed Hs)
    as [Hid _]. exact Hid.
Defined.

Lemma push_block_extends_witness :
  exists c2 fork, push_block sample_clock 3 sample_next sample_chain = (c2, Ok fork) /\
    fk_is_included fork = true.
Proof.
  destruct (push_block_extends sample_clock 3 5 sample_next sample_chain genesis_fork extended_chain
    sample_is_next eq_refl extended_run) as (c2 & fork & Hp & _ & _ & _ & _ & _ & _ & Hi).
  exists c2, fork. split; [exact Hp|exact Hi].
Defined.
