(* ===== verification/Client.v ===== *)
(** * Client: the chain as the peer-to-peer network sees it (client.cpp,
      client_impl.hpp, client/messages.hpp)

    The node asks the client to summarise its chain ([get_blockchain_synopsis]),
    to list the blocks a peer lacks ([get_item_ids]), to hand out a block
    ([get_item]) and to take in what arrived ([handle_message]).  [client] is the
    part of client_impl these methods read and write.

    The progress messages the user sees are not modelled, only the fields that
    decide when the next one is due; the average speed is printed only. *)
From S2P Require Import Prelude Config Fc Asset Records ChainInterface PendingState ChainDatabase.
From S2P Require Import EvalState Evaluate Blocks Production Forks Chain ChainOps Pool.

(** [message_type_enum] *)
Definition trx_message_type : Z := 1000.
Definition block_message_type : Z := 1001.

(** [trx_message] and [block_message], and a message of another type. *)
Inductive client_message :=
| trx_message (trx : signed_transaction)
| block_message (block : full_block) (id : Z)
| other_message (msg_type : Z).

(** [_blockchain_synopsis_size_limit]: [(unsigned)log2( BTS_BLOCKCHAIN_BLOCKS_PER_YEAR * 20 )] *)
Definition blockchain_synopsis_size_limit : Z := Z.log2 (BTS_BLOCKCHAIN_BLOCKS_PER_YEAR * 20).

Section queries.
Context `{Crypto} `{BlockHash}.

(** ** Blocks of the chain *)

(** [chain_database::get_block_fork_data], [is_known_block], [is_included_block] *)
Definition get_block_fork_data (id : Z) (c : chain) : option block_fork_data :=
  bs_forks (ch_blocks c) !! id.
Definition is_known_block (id : Z) (c : chain) : bool :=
  from_option fk_is_known false (get_block_fork_data id c).
Definition is_included_block (id : Z) (c : chain) : bool :=
  from_option fk_is_included false (get_block_fork_data id c).

(** [chain_database::get_block_num] *)
Definition get_block_num (id : Z) (c : chain) : result Z :=
  if id =? null_block_id then Ok 0
  else r ← fetch (bs_records (ch_blocks c)) id; Ok (bh_block_num (bk_head r)).

(** [chain_database::get_block] by number *)
Definition get_block_at (num : Z) (c : chain) : result full_block :=
  id ← fetch (ch_num_to_id c) num; get_block id c.

(** ** Listing the blocks a peer lacks *)

(** The newest block of the synopsis that is in the chain; 1 without any.
    [synopsis] comes in reverse. *)
Fixpoint last_seen_block_num (synopsis : list Z) (c : chain) : result Z :=
  match synopsis with
  | [] => Ok 1
  | item_hash :: synopsis =>
      match get_block_num item_hash c with
      | Ok block_num =>
          if is_included_block item_hash c then Ok block_num else last_seen_block_num synopsis c
      | Err key_not_found_exception => last_seen_block_num synopsis c
      | Err e => Err e
      end
  end.

(** [n] ids from block [num] on; a number without a block fails an assertion. *)
Fixpoint block_ids_from (n : nat) (num : Z) (c : chain) : result (list Z) :=
  match n with
  | O => Ok []
  | S n =>
      match get_block_id num c with
      | Ok block_id => ids ← block_ids_from n (wrapu32 (num + 1)) c; Ok (block_id :: ids)
      | Err key_not_found_exception => Err assertion_abort
      | Err e => Err e
      end
  end.

(** [client_impl::get_item_ids]: the ids and [remaining_item_count]. *)
Definition get_item_ids (item_type : Z) (blockchain_synopsis : list Z) (limit : Z) (c : chain)
    : result (list Z * Z) :=
  _ ← fc_assert (item_type =? block_message_type);
  _ ← throw_if (Z.of_nat (length blockchain_synopsis) >? blockchain_synopsis_size_limit) fc_exception;
  last_seen ← last_seen_block_num (rev blockchain_synopsis) c;
  let head_block_num := ch_head_num c in
  if head_block_num =? 0 then Ok ([], 0)
  else
    _ ← c_assert (negb (last_seen >? head_block_num));
    let remaining_item_count := wrapu32 (head_block_num - last_seen + 1) in
    let items_to_get_this_iteration := Z.min limit remaining_item_count in
    hashes_to_return ← block_ids_from (Z.to_nat items_to_get_this_iteration) last_seen c;
    Ok (hashes_to_return, remaining_item_count - items_to_get_this_iteration).

(** ** Summarising the chain *)

(** What part of the chain is summarised: its last number, the last number on the
    main chain, and the blocks of the fork in order. *)
Record summary_range := mk_range {
  sr_high : Z;
  sr_non_fork_high : Z;
  sr_fork_history : list Z
}.

(** [key_not_found_exception] is caught around the lookups of the reference point
    and fails an assertion. *)
Definition not_found_aborts {A} (m : result A) : result A :=
  match m with Err key_not_found_exception => Err assertion_abort | _ => m end.

(** The branch for a reference point. *)
Definition range_at_reference (reference_point : Z) (c : chain) : result summary_range :=
  if is_included_block reference_point c then
    num ← get_block_num reference_point c;
    _ ← c_assert (num >? 0);
    Ok (mk_range num num [])
  else
    fork_history ← get_fork_history reference_point c;
    _ ← c_assert (2 <=? length fork_history)%nat;
    _ ← c_assert (hd null_block_id fork_history =? reference_point);
    let last_non_fork_block := List.last fork_history null_block_id in
    let fork_history := rev (removelast fork_history) in
    non_fork_high ← (if last_non_fork_block =? null_block_id then Ok 0
                     else get_block_num last_non_fork_block c);
    let high := wrapu32 (non_fork_high + Z.of_nat (length fork_history)) in
    header ← get_block_header (List.last fork_history null_block_id) c;
    _ ← c_assert (high =? bh_block_num (sb_header header));
    Ok (mk_range high non_fork_high fork_history).

(** The id of the block with number [num] of the summarised chain; past the end
    of the fork the code reads outside the vector. *)
Definition summary_item (r : summary_range) (c : chain) (num : Z) : result Z :=
  if num <=? sr_non_fork_high r
  then b ← get_block_at num c; Ok (fb_id b)
  else require (sr_fork_history r !! Z.to_nat (num - sr_non_fork_high r - 1)) assertion_abort.

(** [low_block_num += (true_high_block_num - low_block_num + 2) / 2] *)
Definition next_low (true_high low : Z) : Z := wrapu32 (low + wrapu32 (true_high - low + 2) / 2).

(** The [do ... while] loop; [next_low] is above [low] unless the sum of the
    numbers wraps, so [high] turns are enough ([synopsis_heights]). *)
Fixpoint synopsis_loop (fuel : nat) (true_high : Z) (r : summary_range) (c : chain) (low : Z)
    : result (list Z) :=
  match fuel with
  | O => Err assertion_abort
  | S fuel =>
      item ← summary_item r c low;
      let low := next_low true_high low in
      if low <=? sr_high r
      then synopsis ← synopsis_loop fuel true_high r c low; Ok (item :: synopsis)
      else Ok [item]
  end.

(** [client_impl::get_blockchain_synopsis] *)
Definition get_blockchain_synopsis (item_type reference_point number_of_blocks_after_reference_point : Z)
    (c : chain) : result (list Z) :=
  _ ← fc_assert (item_type =? block_message_type);
  range ← (if negb (reference_point =? null_block_id)
           then r ← not_found_aborts (range_at_reference reference_point c); Ok (Some r)
           else if ch_head_num c =? 0 then Ok None
           else Ok (Some (mk_range (ch_head_num c) (ch_head_num c) [])));
  match range with
  | None => Ok []
  | Some r =>
      let true_high_block_num := wrapu32 (sr_high r + number_of_blocks_after_reference_point) in
      synopsis_loop (S (Z.to_nat (sr_high r))) true_high_block_num r c 1
  end.

(** ** Handing out blocks *)

(** [client_impl::has_item] *)
Definition has_item (item_type item_hash : Z) (c : chain) : result bool :=
  if item_type =? block_message_type then Ok (is_known_block item_hash c)
  else if item_type =? trx_message_type then
    r ← db_get_transaction (ch_db c) item_hash; Ok (bool_decide (is_Some r))
  else Ok false.

(** [client_impl::get_item].  A pending transaction is looked up and not returned. *)
Definition get_item (item_type item_hash : Z) (pending_trxs : gmap Z signed_transaction) (c : chain)
    : result client_message :=
  if item_type =? block_message_type then
    b ← get_block item_hash c;
    _ ← fc_assert (item_hash =? fb_id b);
    Ok (block_message b (fb_id b))
  else Err key_not_found_exception.

(** [client_impl::get_block_number], [get_head_block_id] *)
Definition get_block_number (id : Z) (c : chain) : result Z := get_block_num id c.
Definition get_head_block_id (c : chain) : Z := ch_head_id c.

(** [client_impl::get_block_time]: the genesis time for the null id, the earliest
    time for an unknown block. *)
Definition get_block_time (id : Z) (c : chain) : result Z :=
  if id =? null_block_id then
    r ← require (db_get_asset_record (ch_db c) 0) assertion_abort; Ok (as_registration_date r)
  else
    match get_block_header id c with
    | Ok h => Ok (bh_timestamp (sb_header h))
    | Err e => if is_abort e then Err e else Ok 0
    end.
End queries.

(** ** Taking in blocks and transactions *)

Record client := mk_client {
  cl_chain : chain;
  cl_pending_trxs : gmap Z signed_transaction;
  cl_exceptions : gmap Z error;
  cl_simulate_disconnect : bool;
  cl_has_cli : bool;
  cl_sync_mode : bool;
  cl_remaining_items_to_sync : Z;
  cl_last_sync_status_message_time : Z;
  cl_last_sync_status_message_indicated_in_sync : bool;
  cl_last_sync_status_head_block : Z
}.

Definition set_cl_chain (c : chain) (k : client) : client :=
  mk_client c (cl_pending_trxs k) (cl_exceptions k) (cl_simulate_disconnect k) (cl_has_cli k)
    (cl_sync_mode k) (cl_remaining_items_to_sync k) (cl_last_sync_status_message_time k)
    (cl_last_sync_status_message_indicated_in_sync k) (cl_last_sync_status_head_block k).
Definition set_cl_exceptions (m : gmap Z error) (k : client) : client :=
  mk_client (cl_chain k) (cl_pending_trxs k) m (cl_simulate_disconnect k) (cl_has_cli k)
    (cl_sync_mode k) (cl_remaining_items_to_sync k) (cl_last_sync_status_message_time k)
    (cl_last_sync_status_message_indicated_in_sync k) (cl_last_sync_status_head_block k).
Definition set_cl_sync (sync_mode : bool) (remaining : Z) (k : client) : client :=
  mk_client (cl_chain k) (cl_pending_trxs k) (cl_exceptions k) (cl_simulate_disconnect k) (cl_has_cli k)
    sync_mode remaining (cl_last_sync_status_message_time k)
    (cl_last_sync_status_message_indicated_in_sync k) (cl_last_sync_status_head_block k).
Definition set_cl_status (time : Z) (in_sync : bool) (head_block : Z) (k : client) : client :=
  mk_client (cl_chain k) (cl_pending_trxs k) (cl_exceptions k) (cl_simulate_disconnect k) (cl_has_cli k)
    (cl_sync_mode k) (cl_remaining_items_to_sync k) time in_sync head_block.

(** The clocks a handler reads: [blockchain::now()] in seconds, the time the push
    takes, and [fc::time_point::now()] in microseconds. *)
Record moment := mk_moment {
  mo_clock : Z;
  mo_elapsed : Z;
  mo_time : Z
}.
Definition seconds (s : Z) : Z := 1000000 * s.

(** [logging_exception_db::store] *)
Definition store_exception (t : moment) (e : error) (k : client) : client :=
  set_cl_exceptions (<[mo_time t := e]> (cl_exceptions k)) k.

(** [catch( const fc::exception& e ) { _exception_db.store( e ); throw; }] *)
Definition storing_exceptions {A} (t : moment) (r : client * result A) : client * result A :=
  match r with
  | (k, Err e) => (if is_abort e then k else store_exception t e k, Err e)
  | _ => r
  end.

Section client.
Context `{Crypto} `{BlockHash} `{FcNum} `{FcReal} `{!MarketEngine}.

(** A message that the chain is five minutes behind is due every thirty seconds. *)
Definition note_syncing (t : moment) (result : block_fork_data) (k : client) : client :=
  let c := cl_chain k in
  if cl_has_cli k && fk_is_included result
     && (seconds (mo_clock t) - seconds (head_time (mo_clock t) (ch_head c)) >? seconds (5 * 60))
     && (cl_last_sync_status_message_time k <? seconds (mo_clock t) - seconds 30)
  then set_cl_status (seconds (mo_clock t)) false (ch_head_num c) k
  else k.

(** The body of the inner [try] block. *)
Definition receive_block (t : moment) (b : full_block) (block_id : Z) (sync_mode : bool) (k : client)
    : client * result block_fork_data :=
  if cl_simulate_disconnect k then (k, Err assert_exception)
  else
    let push :=
      let '(c, r) := push_block (mo_clock t) (mo_elapsed t) b (cl_chain k) in
      let k := set_cl_chain c k in
      match r with
      | Err e => (k, Err e)
      | Ok f => if sync_mode && negb (fk_is_linked f) then (k, Err unlinkable_block)
                else (note_syncing t f k, Ok f)
      end in
    match get_block_fork_data block_id (cl_chain k) with
    | Some f =>
        if fk_is_known f
        then (k, if sync_mode && negb (fk_is_linked f) then Err unlinkable_block else Ok f)
        else push
    | None => push
    end.

(** [client_impl::on_new_block] *)
Definition on_new_block (t : moment) (b : full_block) (block_id : Z) (sync_mode : bool) (k : client)
    : client * result block_fork_data :=
  let remaining := cl_remaining_items_to_sync k in
  let k := set_cl_sync sync_mode
             (if sync_mode && (remaining >? 0) then remaining - 1 else remaining) k in
  storing_exceptions t (receive_block t b block_id sync_mode k).

(** [client_impl::on_new_transaction] *)
Definition on_new_transaction (t : moment) (trx : signed_transaction) (k : client)
    : client * result bool :=
  let '(c, r) := store_pending_transaction trx false (cl_chain k) in
  let k := set_cl_chain c k in
  match r with
  | Err duplicate_transaction => (k, Err duplicate_transaction)
  | Err e => storing_exceptions t (k, Err e)
  | Ok s => (k, Ok (bool_decide (is_Some s)))
  end.

(** The exceptions of the chain the network knows by another class. *)
Definition to_net_exception (e : error) : error :=
  match e with
  | insufficient_relay_fee => net_insufficient_relay_fee
  | block_older_than_undo_history => net_block_older_than_undo_history
  | e => e
  end.
Definition net_result {A} (r : client * result A) : client * result A :=
  match r with (k, Err e) => (k, Err (to_net_exception e)) | _ => r end.

(** [client_impl::handle_message] *)
Definition handle_message (t : moment) (m : client_message) (sync_mode : bool) (k : client)
    : client * result bool :=
  net_result
    match m with
    | block_message b id =>
        let old_head_block := ch_head_id (cl_chain k) in
        match on_new_block t b id sync_mode k with
        | (k, Ok fork_data) => (k, Ok (xorb (fk_is_included fork_data) (fb_previous b =? old_head_block)))
        | (k, Err e) => (k, Err e)
        end
    | trx_message trx => on_new_transaction t trx k
    | other_message _ => (k, Ok false)
    end.

(** [client_impl::sync_status] *)
Definition sync_status (t : moment) (item_count : Z) (k : client) : client :=
  let in_sync := item_count =? 0 in
  let k := set_cl_sync (cl_sync_mode k) item_count k in
  if negb (cl_has_cli k) then k
  else if in_sync && negb (cl_last_sync_status_message_indicated_in_sync k)
  then set_cl_status (mo_time t) true 0 k
  else if negb in_sync && (item_count >=? 100) && cl_last_sync_status_message_indicated_in_sync k
          && (cl_last_sync_status_message_time k <? mo_time t - seconds 30)
  then set_cl_status (mo_time t) false (ch_head_num (cl_chain k)) k
  else k.
End client.
