(* ===== verification/MainChain.v ===== *)
(** * MainChain: the chain inside the tree of blocks

    [main_chain]: the blocks of the chain are numbered from 1 to the head, each
    names the one before it, and they are exactly the included ones.  Extending,
    popping and switching keep it. *)
From S2P Require Import Prelude Config Fc Asset Records ChainInterface PendingState ChainDatabase.
From S2P Require Import EvalState Evaluate Apply Undo Blocks Production Forks Chain ChainOps.
From S2P Require Import ChainFacts SwitchFacts.

Section main_chain.
Context `{Crypto} `{BlockHash}.

(** The id of block [n] of the chain; block 0 is the genesis state. *)
Definition id_at (c : chain) (n : Z) : Z :=
  if n =? 0 then null_block_id else default null_block_id (ch_num_to_id c !! n).

(** Block [n] is stored under its id and number, with its record and fork data. *)
Record block_at (c : chain) (n id : Z) (b : full_block) : Prop := mk_block_at {
  ba_num : ch_num_to_id c !! n = Some id;
  ba_not_null : id <> null_block_id;
  ba_data : bs_data (ch_blocks c) !! id = Some b;
  ba_id : fb_id b = id;
  ba_block_num : fb_block_num b = n;
  ba_previous : fb_previous b = id_at c (n - 1);
  ba_record : exists r, bs_records (ch_blocks c) !! id = Some r /\ bk_header r = fb_header b;
  ba_included : included c id
}.

(** Numbers stay below 2^31, six hundred years of blocks. *)
Record main_chain (c : chain) : Prop := mk_main_chain {
  mc_height : 0 <= ch_head_num c < 2^31;
  mc_head : ch_head_id c = id_at c (ch_head_num c);
  mc_head_block b : bs_data (ch_blocks c) !! ch_head_id c = Some b -> fb_header b = ch_head c;
  mc_blocks n : 1 <= n <= ch_head_num c -> exists id b, block_at c n id b;
  mc_numbers n id : ch_num_to_id c !! n = Some id -> 1 <= n <= ch_head_num c;
  mc_included id : included c id -> id <> null_block_id -> exists n, ch_num_to_id c !! n = Some id
}.


Lemma id_at_num c n id b : block_at c n id b -> main_chain c -> id_at c n = id.
Proof.
  intros Hb Hc. unfold id_at. rewrite (ba_num _ _ _ _ Hb). cbn.
  destruct (Z.eqb_spec n 0) as [->|]; [|done].
  apply ba_num, (mc_numbers _ Hc) in Hb. lia.
Qed.

Lemma main_block c n : main_chain c -> 1 <= n <= ch_head_num c -> exists b, block_at c n (id_at c n) b.
Proof.
  intros Hc (id & b & Hb)%(mc_blocks _ Hc). exists b. by rewrite (id_at_num _ _ _ _ Hb Hc).
Qed.

(** The blocks of the tree are stored under their ids, with a record; a block
    that follows the genesis state is number 1 and no other is. *)
Record stored_blocks (c : chain) : Prop := mk_stored {
  st_keyed : data_keyed c;
  st_records id b : bs_data (ch_blocks c) !! id = Some b ->
    exists r, bs_records (ch_blocks c) !! id = Some r /\ bk_header r = fb_header b;
  st_numbers id b : bs_data (ch_blocks c) !! id = Some b ->
    fb_block_num b < 2^31 /\ (fb_previous b = null_block_id -> fb_block_num b = 1) /\
    (fb_previous b <> null_block_id -> 1 < fb_block_num b);
  st_null : bs_data (ch_blocks c) !! null_block_id = None /\ bs_records (ch_blocks c) !! null_block_id = None
}.

Lemma record_header c c1 k h :
  (forall k, bk_digest <$> bs_records (ch_blocks c1) !! k = bk_digest <$> bs_records (ch_blocks c) !! k) ->
  (exists r, bs_records (ch_blocks c) !! k = Some r /\ bk_header r = h) ->
  exists r, bs_records (ch_blocks c1) !! k = Some r /\ bk_header r = h.
Proof.
  intros Hr (r & E & Hh). specialize (Hr k). rewrite E in Hr.
  destruct (bs_records (ch_blocks c1) !! k) as [r1|]; [|done]. cbn in Hr. injection Hr as Hr.
  exists r1. split; [done|]. unfold bk_header. by rewrite Hr.
Qed.

(** The stores of another state of the chain have the same blocks. *)
Lemma stored_same c c1 :
  bs_data (ch_blocks c1) = bs_data (ch_blocks c) ->
  (forall k, bk_digest <$> bs_records (ch_blocks c1) !! k = bk_digest <$> bs_records (ch_blocks c) !! k) ->
  stored_blocks c -> stored_blocks c1.
Proof.
  intros Hd Hr [Hk Hrec Hnum [Hn1 Hn2]]. split; [unfold data_keyed; by rewrite Hd|..].
  - intros id b. rewrite Hd. intros Hb. by eapply record_header, Hrec.
  - intros id b. rewrite Hd. apply Hnum.
  - rewrite Hd. split; [done|]. specialize (Hr null_block_id). rewrite Hn2 in Hr.
    by destruct (bs_records (ch_blocks c1) !! null_block_id).
Qed.

Lemma block_at_transfer c c1 n id b :
  ch_num_to_id c1 !! n = ch_num_to_id c !! n -> id_at c1 (n - 1) = id_at c (n - 1) ->
  bs_data (ch_blocks c1) = bs_data (ch_blocks c) ->
  (forall k, bk_digest <$> bs_records (ch_blocks c1) !! k = bk_digest <$> bs_records (ch_blocks c) !! k) ->
  (included c id -> included c1 id) ->
  block_at c n id b -> block_at c1 n id b.
Proof.
  intros Hn Hp Hd Hr Hi []. split; try done.
  - by rewrite Hn.
  - by rewrite Hd.
  - by rewrite Hp.
  - by eapply record_header.
  - by apply Hi.
Qed.

(** Only the fork data of [id] differs. *)
Lemma included_insert c c1 id f v x :
  bs_forks (ch_blocks c1) = <[id := set_fork_included v f]> (bs_forks (ch_blocks c)) ->
  included c1 x <-> if decide (x = id) then v = true else included c x.
Proof.
  intros Hf. unfold included. rewrite Hf. case_decide as E.
  - subst x. rewrite lookup_insert_eq. split; [by intros (f' & [= <-] & ?)|intros ->; eauto].
  - by rewrite lookup_insert_ne.
Qed.

Lemma main_head_null c : main_chain c -> ch_head_num c = 0 <-> ch_head_id c = null_block_id.
Proof.
  intros Hc. rewrite (mc_head _ Hc). split; [by intros ->|]. intros E.
  pose proof (mc_height _ Hc). destruct (decide (ch_head_num c = 0)) as [|Hne]; [done|].
  destruct (main_block c (ch_head_num c) Hc ltac:(lia)) as [b Hb]. by apply ba_not_null in Hb.
Qed.
End main_chain.

Section steps.
Context `{Crypto} `{BlockHash} `{FcNum} `{FcReal} `{!MarketEngine}.

Lemma extend_keeps_main clock b c c1 :
  main_chain c -> stored_blocks c -> bs_data (ch_blocks c) !! fb_id b = Some b ->
  extend_chain clock b c = (c1, Ok tt) ->
  main_chain c1 /\ stored_blocks c1 /\ ch_head_num c1 = ch_head_num c + 1.
Proof.
  intros Hc Hs Hb (Hprev & Hnum & Hid & Hhead & Hn & Hd & Hr & f & Hf & Hforks)%extend_chain_stores.
  pose proof (mc_height _ Hc) as Hh. pose proof (main_head_null _ Hc) as Hnull.
  destruct (st_numbers _ Hs _ _ Hb) as (Hlt & Hfirst & Hother). rewrite Hprev in Hfirst, Hother.
  assert (E : fb_block_num b = ch_head_num c + 1).
  { destruct (decide (ch_head_num c = 0)) as [E|E]; [rewrite Hfirst by tauto; lia|].
    rewrite Hnum by tauto. apply wrapu32_id. lia. }
  assert (Hheight : ch_head_num c1 = ch_head_num c + 1) by (unfold ch_head_num at 1; rewrite Hhead; exact E).
  assert (Hsame : forall n, n <= ch_head_num c -> ch_num_to_id c1 !! n = ch_num_to_id c !! n).
  { intros n Hle. rewrite Hn, lookup_insert_ne; [done|lia]. }
  assert (Hids : forall n, n <= ch_head_num c -> id_at c1 n = id_at c n).
  { intros n Hle. unfold id_at. by rewrite Hsame. }
  assert (Hinc : forall x, included c1 x <-> if decide (x = fb_id b) then true = true else included c x)
    by (intros x; by apply (included_insert c c1 _ f)).
  assert (Hnn : fb_id b <> null_block_id).
  { intros E0. rewrite E0 in Hb. by rewrite (proj1 (st_null _ Hs)) in Hb. }
  assert (Hnew : ch_num_to_id c1 !! (ch_head_num c + 1) = Some (fb_id b))
    by (rewrite Hn, E; apply lookup_insert_eq).
  split_and!; [|by eapply stored_same|done]. split.
  - rewrite Hheight. lia.
  - rewrite Hheight, Hid. unfold id_at. rewrite Hnew. by replace (ch_head_num c + 1 =? 0) with false by lia.
  - intros b'. rewrite Hid, Hd, Hb, Hhead. by intros [= <-].
  - intros n Hrange. rewrite Hheight in Hrange. destruct (decide (n = ch_head_num c + 1)) as [->|Hne].
    + exists (fb_id b), b. split; try done.
      * by rewrite Hd.
      * rewrite Hprev, (mc_head _ Hc). symmetry. replace (ch_head_num c + 1 - 1) with (ch_head_num c) by lia.
        apply Hids. lia.
      * eapply record_header, (st_records _ Hs); done.
      * apply Hinc. by rewrite decide_True.
    + destruct (mc_blocks _ Hc n ltac:(lia)) as (id & b' & Hb'). exists id, b'.
      apply (block_at_transfer c); [apply Hsame; lia|apply Hids; lia|done|done| |done].
      intros Hi. apply Hinc. by case_decide.
  - intros n id. rewrite Hheight, Hn, lookup_insert_Some. intros [[<- _]|[_ Hl]]; [lia|].
    apply (mc_numbers _ Hc) in Hl. lia.
  - intros id Hi%Hinc Hne. case_decide as Eid; [subst id; eauto|].
    destruct (mc_included _ Hc _ Hi Hne) as [n Hl]. exists n. rewrite Hsame; [done|].
    apply (mc_numbers _ Hc) in Hl. lia.
Qed.

Lemma pop_keeps_main clock c c1 :
  main_chain c -> stored_blocks c -> pop_block clock c = (c1, Ok tt) ->
  main_chain c1 /\ stored_blocks c1 /\ ch_head_num c1 = ch_head_num c - 1.
Proof.
  intros Hc Hs Hp. pose proof (mc_height _ Hc) as Hh.
  assert (Hne0 : ch_head_num c <> 0) by (intros E; by rewrite (pop_block_genesis clock c E) in Hp).
  apply pop_block_Ok in Hp as (f & u & h & db & Hf & _ & Hhead & _ & _ & Hch & Hid & Hn & Hbl).
  destruct (main_block c (ch_head_num c) Hc ltac:(lia)) as [b Hb].
  pose proof (ba_previous _ _ _ _ Hb) as Hprev. rewrite <- (mc_head _ Hc) in Hb.
  pose proof (mc_head_block _ Hc _ (ba_data _ _ _ _ Hb)) as Hhb.
  unfold fb_previous, fb_head in Hprev. rewrite Hhb in Hprev. rewrite Hprev in Hhead, Hid.
  apply get_block_header_Some in Hhead as (r & Hr & Hrh).
  assert (Hne1 : ch_head_num c <> 1).
  { intros E. rewrite E in Hr. change (id_at c (1 - 1)) with null_block_id in Hr.
    by rewrite (proj2 (st_null _ Hs)) in Hr. }
  destruct (main_block c (ch_head_num c - 1) Hc ltac:(lia)) as [b' Hb'].
  destruct (ba_record _ _ _ _ Hb') as (r' & Hr' & Hrh'). rewrite Hr in Hr'. injection Hr' as <-.
  assert (Hheader : ch_head c1 = fb_header b') by congruence.
  assert (Hheight : ch_head_num c1 = ch_head_num c - 1).
  { unfold ch_head_num at 1. rewrite Hheader. exact (ba_block_num _ _ _ _ Hb'). }
  assert (Hsame : forall n, n < ch_head_num c -> ch_num_to_id c1 !! n = ch_num_to_id c !! n).
  { intros n Hle. rewrite Hn, lookup_delete_ne; [done|lia]. }
  assert (Hids : forall n, n < ch_head_num c -> id_at c1 n = id_at c n).
  { intros n Hle. unfold id_at. by rewrite Hsame. }
  assert (Hinc : forall x, included c1 x <-> if decide (x = ch_head_id c) then false = true else included c x).
  { intros x. apply (included_insert c c1 _ f). by rewrite Hbl. }
  split_and!; [|apply (stored_same c); by rewrite ?Hbl|done]. split.
  - lia.
  - rewrite Hid, Hheight. symmetry. apply Hids. lia.
  - intros b0. rewrite Hbl, Hid. cbn. rewrite (ba_data _ _ _ _ Hb'). intros [= <-]. done.
  - intros n Hrange. destruct (main_block c n Hc ltac:(lia)) as [bn Hbn]. exists (id_at c n), bn.
    apply (block_at_transfer c); [apply Hsame; lia|apply Hids; lia|by rewrite Hbl|by rewrite Hbl| |done].
    intros Hi. apply Hinc. case_decide as E; [|done].
    pose proof (ba_block_num _ _ _ _ Hbn). pose proof (ba_block_num _ _ _ _ Hb).
    pose proof (ba_data _ _ _ _ Hbn) as D. rewrite E, (ba_data _ _ _ _ Hb) in D. injection D as ->. lia.
  - intros n id. rewrite Hn, lookup_delete_Some. intros [Hne Hl%(mc_numbers _ Hc)]. lia.
  - intros id Hi%Hinc Hne. case_decide as Eid; [done|].
    destruct (mc_included _ Hc _ Hi Hne) as [n Hl]. exists n. rewrite Hsame; [done|].
    pose proof (mc_numbers _ Hc _ _ Hl). destruct (decide (n = ch_head_num c)) as [->|]; [|lia].
    rewrite (ba_num _ _ _ _ Hb) in Hl. congruence.
Qed.

Lemma pop_until_keeps_main fuel clock target c c1 :
  main_chain c -> stored_blocks c -> pop_until fuel clock target c = (c1, Ok tt) ->
  main_chain c1 /\ stored_blocks c1.
Proof.
  revert c. induction fuel as [|fuel IH]; intros c Hc Hs; cbn [pop_until]; unfold act_bind, reads;
    (destruct (Z.eqb_spec (ch_head_id c) target); [by intros [= <-]|]); [done|].
  destruct (pop_block clock c) as [c2 [[]|e]] eqn:Hpop; [|done].
  apply pop_keeps_main in Hpop as (Hc2 & Hs2 & _); eauto.
Qed.

Lemma extend_all_keeps_main clock l c c1 :
  main_chain c -> stored_blocks c ->
  act_each (fun id => act_bind (reads (get_block id)) (fun b => extend_chain clock b)) l c = (c1, Ok tt) ->
  main_chain c1 /\ stored_blocks c1.
Proof.
  revert c. induction l as [|x l IH]; intros c Hc Hs He; cbn in He; [by apply act_ret_Ok in He as [-> _]|].
  apply act_bind_Ok in He as (c2 & [] & Hx & He).
  apply act_bind_Ok in Hx as (c0 & b & Hb & Hx). apply reads_Ok in Hb as [-> Hb].
  unfold get_block, fetch in Hb. apply require_Ok in Hb. pose proof (st_keyed _ Hs _ _ Hb) as E.
  rewrite <- E in Hb. apply extend_keeps_main in Hx as (Hc2 & Hs2 & _); eauto.
Qed.

(** C5: Where a block that follows the genesis state is numbered 1 and no other block is
    numbered 0 or 1 ([st_numbers], which [verify_header] does not check: it tests the
    number of a block only if it is greater than 1), a switch to another fork that
    returns leaves a well-formed chain ending in its target: numbered without gaps from
    1 to the new head, each block naming the one before it, the included blocks being
    exactly those of the chain. *)
Theorem switch_keeps_main_chain clock id c c1 :
  main_chain c -> stored_blocks c -> switch_to_fork clock id c = (c1, Ok tt) ->
  main_chain c1 /\ stored_blocks c1 /\ id_at c1 (ch_head_num c1) = id.
Proof.
  intros Hc Hs Hsw. pose proof (switch_head _ _ _ _ (st_keyed _ Hs) Hsw) as Hid.
  enough (main_chain c1 /\ stored_blocks c1) as [Hc1 Hs1].
  { split_and!; [done..|]. by rewrite <- (mc_head _ Hc1). }
  clear Hid. unfold switch_to_fork in Hsw. act_ok.
  destruct (Z.eqb_spec id (ch_head_id c)) as [->|Hne]; [by act_ok|]. act_ok.
  match goal with H : pop_until _ _ _ _ = (_, Ok ?u) |- _ => destruct u;
    apply pop_until_keeps_main in H as [Hc2 Hs2]; [|done..] end.
  by apply extend_all_keeps_main in Hsw.
Qed.
End steps.
