(* ===== verification/SyncFacts.v ===== *)
(** * SyncFacts: two nodes that synchronise

    On a chain that satisfies [main_chain] the synopsis names block 1 and the head,
    halving the distance in between, and the answer to a synopsis starts with the
    newest block the two nodes share. *)
From S2P Require Import Prelude Config Fc Asset Records ChainInterface PendingState ChainDatabase.
From S2P Require Import EvalState Evaluate Apply Undo Blocks Production Forks Chain ChainOps Pool.
From S2P Require Import ChainFacts SwitchFacts Client MainChain.

Section main_chain.
Context `{Crypto} `{BlockHash}.

Lemma included_spec c id : is_included_block id c = true <-> included c id.
Proof.
  unfold is_included_block, get_block_fork_data, included.
  destruct (bs_forks (ch_blocks c) !! id) as [f|]; cbn; split; try done; [eauto| |].
  - by intros (f' & [= ->] & ?).
  - by intros (f' & [=] & _).
Qed.

Lemma block_at_num c n id b : block_at c n id b -> get_block_num id c = Ok n.
Proof.
  intros [_ Hnn _ _ Hn _ (r & Hr & Hh) _]. unfold get_block_num.
  rewrite (proj2 (Z.eqb_neq _ _) Hnn). unfold fetch. rewrite Hr. cbn.
  unfold bk_head. by rewrite Hh, <- Hn.
Qed.

Lemma block_at_included c n id b : block_at c n id b -> is_included_block id c = true.
Proof. intros Hb. apply included_spec, (ba_included _ _ _ _ Hb). Qed.

(** An included block is the block of its number. *)
Lemma included_at c id :
  main_chain c -> id <> null_block_id -> is_included_block id c = true ->
  exists n, 1 <= n <= ch_head_num c /\ id = id_at c n.
Proof.
  intros Hc Hnn Hi%included_spec. destruct (mc_included _ Hc _ Hi Hnn) as [n Hn].
  pose proof (mc_numbers _ Hc _ _ Hn) as Hr. exists n. split; [done|].
  unfold id_at. rewrite Hn. destruct (Z.eqb_spec n 0); [lia|done].
Qed.

Lemma id_at_inj c n m :
  main_chain c -> 1 <= n <= ch_head_num c -> 1 <= m <= ch_head_num c -> id_at c n = id_at c m -> n = m.
Proof.
  intros Hc Hn Hm E. destruct (main_block _ _ Hc Hn) as [b Hb], (main_block _ _ Hc Hm) as [b' Hb'].
  apply block_at_num in Hb, Hb'. rewrite E in Hb. congruence.
Qed.

(** ** The answer to a synopsis *)

(** The number of the newest block of the synopsis that is in the chain. *)
Definition newest_shared (c : chain) (synopsis : list Z) (n : Z) : Prop :=
  (exists before after, synopsis = before ++ id_at c n :: after /\ 1 <= n <= ch_head_num c /\
     Forall (fun id => is_included_block id c = false) after) \/
  n = 1 /\ Forall (fun id => is_included_block id c = false) synopsis.

Lemma last_seen_spec c l :
  main_chain c -> null_block_id ∉ l ->
  exists n, last_seen_block_num l c = Ok n /\ newest_shared c (rev l) n.
Proof.
  intros Hc. induction l as [|id l IH]; intros Hl.
  { exists 1. split; [done|]. right. by split; [|constructor]. }
  apply not_elem_of_cons in Hl as [Hid Hl]. cbn.
  destruct (is_included_block id c) eqn:Hi.
  - destruct (included_at _ _ Hc (not_eq_sym Hid) Hi) as (n & Hn & ->).
    destruct (main_block _ _ Hc Hn) as [b Hb]. rewrite (block_at_num _ _ _ _ Hb).
    exists n. split; [done|]. left. exists (rev l), [].
    split; [done|]. split; [done|constructor].
  - destruct (IH Hl) as (n & Hls & Hns).
    assert (Hls' : match get_block_num id c with
                   | Ok _ | Err key_not_found_exception => last_seen_block_num l c
                   | Err e => Err e end = Ok n).
    { unfold get_block_num. rewrite (proj2 (Z.eqb_neq _ _) (not_eq_sym Hid)). unfold fetch.
      by destruct (bs_records _ !! id). }
    exists n. split; [by destruct (get_block_num id c) as [|[]]|].
    destruct Hns as [(before & after & E & Hn & Ha)|[-> Ha]].
    + left. exists before, (after ++ [id]). rewrite E. split; [by rewrite <- app_assoc|]. split; [done|].
      apply Forall_app. by split; [|constructor].
    + right. split; [done|]. apply Forall_app. by split; [|constructor].
Qed.

(** The ids of [k] blocks from [n] on. *)
Definition ids_from (c : chain) (n : Z) (k : nat) : list Z :=
  map (fun i => id_at c (n + Z.of_nat i)) (seq 0 k).

Lemma ids_from_S c n k : ids_from c n (S k) = id_at c n :: ids_from c (n + 1) k.
Proof.
  unfold ids_from. cbn. f_equal; [f_equal; lia|]. rewrite <- seq_shift, map_map.
  apply map_ext. intros i. f_equal. lia.
Qed.

Lemma block_ids_from_spec c n k :
  main_chain c -> 1 <= n -> n + Z.of_nat k <= ch_head_num c + 1 ->
  block_ids_from k n c = Ok (ids_from c n k).
Proof.
  intros Hc. revert n. induction k as [|k IH]; intros n Hn Hk; [done|].
  destruct (main_block c n Hc ltac:(lia)) as [b Hb]. rewrite ids_from_S.
  pose proof (mc_height _ Hc). cbn [block_ids_from]. unfold get_block_id, fetch.
  rewrite (ba_num _ _ _ _ Hb). cbn [require]. rewrite wrapu32_id, IH by lia. done.
Qed.

(** The shared number is one of the chain's. *)
Lemma newest_shared_range c s n : 1 <= ch_head_num c -> newest_shared c s n -> 1 <= n <= ch_head_num c.
Proof. intros Hh [(b & a & _ & Hn & _)|[-> _]]; lia. Qed.

(** Asked with any synopsis that is not too long and does not name the null id,
    a node answers with consecutive blocks of its chain, as many as asked for or
    up to its head, from the newest block of the synopsis it has in its chain, or
    from block 1 if it has none; the count it adds is that of the blocks left
    out. *)
Theorem get_item_ids_spec c synopsis limit :
  main_chain c -> 1 <= ch_head_num c -> 0 <= limit ->
  Z.of_nat (length synopsis) <= blockchain_synopsis_size_limit -> null_block_id ∉ synopsis ->
  exists n k remaining,
    get_item_ids block_message_type synopsis limit c = Ok (ids_from c n k, remaining) /\
    newest_shared c synopsis n /\
    Z.of_nat k = Z.min limit (ch_head_num c - n + 1) /\
    n + Z.of_nat k + remaining = ch_head_num c + 1.
Proof.
  intros Hc Hh Hlim Hlen Hnull. pose proof (mc_height _ Hc) as Hm.
  destruct (last_seen_spec c (rev synopsis) Hc) as (n & Hls & Hns).
  { intros Hin. apply Hnull. rewrite list_elem_of_In, <- in_rev, <- list_elem_of_In in Hin. done. }
  rewrite rev_involutive in Hns. pose proof (newest_shared_range _ _ _ Hh Hns) as Hn.
  exists n, (Z.to_nat (Z.min limit (ch_head_num c - n + 1))). eexists. split_and!; [|done|lia|].
  - unfold get_item_ids. apply bind_fc_assert. split; [done|]. apply bind_throw_if. split; [lia|].
    rewrite Hls. cbn -[Z.min Z.to_nat]. replace (ch_head_num c =? 0) with false by lia.
    replace (n >? ch_head_num c) with false by lia. cbn -[Z.min Z.to_nat].
    rewrite wrapu32_id, block_ids_from_spec by (done || lia). reflexivity.
  - lia.
Qed.

(** ** The synopsis *)

(** The numbers the loop visits. *)
Fixpoint synopsis_heights (fuel : nat) (true_high high low : Z) : list Z :=
  match fuel with
  | O => []
  | S fuel =>
      low :: (if next_low true_high low <=? high
              then synopsis_heights fuel true_high high (next_low true_high low) else [])
  end.

Lemma next_low_eq true_high low :
  1 <= low <= true_high -> true_high < 2^31 ->
  next_low true_high low = low + (true_high - low + 2) / 2.
Proof.
  intros Hl Hh. unfold next_low.
  assert (0 <= (true_high - low + 2) / 2 <= true_high - low + 2).
  { split; [apply Z.div_pos; lia|]. apply Z.div_le_upper_bound; lia. }
  rewrite !wrapu32_id; [done|lia|]. rewrite wrapu32_id; lia.
Qed.

Lemma next_low_grows true_high low :
  1 <= low <= true_high -> true_high < 2^31 -> low < next_low true_high low.
Proof.
  intros Hl Hh. rewrite next_low_eq by done.
  assert (1 <= (true_high - low + 2) / 2) by (apply Z.div_le_lower_bound; lia). lia.
Qed.

(** On the main chain the loop ends and names the blocks of these numbers. *)
Lemma synopsis_loop_spec c r true_high fuel low :
  main_chain c -> sr_non_fork_high r = sr_high r -> sr_high r <= ch_head_num c ->
  1 <= low <= sr_high r -> sr_high r <= true_high < 2^31 -> sr_high r - low < Z.of_nat fuel ->
  synopsis_loop fuel true_high r c low
  = Ok (map (id_at c) (synopsis_heights fuel true_high (sr_high r) low)).
Proof.
  intros Hc Hr Hh. revert low. induction fuel as [|fuel IH]; intros low Hl Ht Hf; [lia|].
  destruct (main_block c low Hc ltac:(lia)) as [b Hb]. cbn.
  assert (Hi : summary_item r c low = Ok (id_at c low)).
  { unfold summary_item, get_block_at, get_block, fetch. rewrite Hr.
    replace (low <=? sr_high r) with true by lia. rewrite (ba_num _ _ _ _ Hb). cbn.
    rewrite (ba_data _ _ _ _ Hb). cbn. by rewrite (ba_id _ _ _ _ Hb). }
  rewrite Hi. cbn. pose proof (next_low_grows true_high low ltac:(lia) ltac:(lia)).
  destruct (Z.leb_spec (next_low true_high low) (sr_high r)); [|done].
  rewrite IH by lia. done.
Qed.

Lemma heights_above fuel true_high high low x :
  1 <= low <= high -> high <= true_high < 2^31 ->
  x ∈ synopsis_heights fuel true_high high low -> low <= x <= high.
Proof.
  revert low. induction fuel as [|fuel IH]; intros low Hl Ht; cbn; [by intros ?%elem_of_nil|].
  intros [->|Hx]%elem_of_cons; [lia|].
  pose proof (next_low_grows true_high low ltac:(lia) ltac:(lia)).
  destruct (Z.leb_spec (next_low true_high low) high); [|by apply elem_of_nil in Hx].
  apply IH in Hx; lia.
Qed.

Lemma log2_half m : 2 <= m -> Z.log2 m = Z.log2 (m / 2) + 1.
Proof.
  intros Hm. assert (1 <= m / 2) by (apply Z.div_le_lower_bound; lia).
  pose proof (Z.div_mod m 2 ltac:(lia)) as E. pose proof (Z.mod_pos_bound m 2 ltac:(lia)) as Hr.
  destruct (decide (m mod 2 = 0)) as [E0|].
  - rewrite E at 1. rewrite E0, Z.add_0_r, Z.log2_double by lia. lia.
  - rewrite E at 1. replace (m mod 2) with 1 by lia. rewrite Z.log2_succ_double by lia. lia.
Qed.

(** Each step covers half of what is left of the chain. *)
Lemma heights_shape fuel high low :
  1 <= low <= high -> high < 2^31 -> high - low < Z.of_nat fuel ->
  List.last (synopsis_heights fuel high high low) 0 = high /\
  Z.of_nat (length (synopsis_heights fuel high high low)) = Z.log2 (high - low + 1) + 1.
Proof.
  revert low. induction fuel as [|fuel IH]; intros low Hl Hh Hf; [lia|]. cbn [synopsis_heights].
  pose proof (next_low_eq high low ltac:(lia) ltac:(lia)) as E.
  assert (Hhalf : high - next_low high low + 1 = (high - low + 1) / 2).
  { rewrite E. pose proof (Z.div_mod (high - low + 2) 2 ltac:(lia)).
    pose proof (Z.div_mod (high - low + 1) 2 ltac:(lia)).
    pose proof (Z.mod_pos_bound (high - low + 2) 2 ltac:(lia)).
    pose proof (Z.mod_pos_bound (high - low + 1) 2 ltac:(lia)). lia. }
  pose proof (next_low_grows high low ltac:(lia) ltac:(lia)).
  destruct (Z.leb_spec (next_low high low) high).
  - destruct (IH (next_low high low) ltac:(lia) Hh ltac:(lia)) as [Hlast Hlen]. split.
    + destruct fuel; [lia|]. exact Hlast.
    + cbn [length]. rewrite Nat2Z.inj_succ, Hlen, Hhalf, (log2_half (high - low + 1)); [lia|].
      assert (2 * ((high - low + 1) / 2) <= high - low + 1) by (apply Z.mul_div_le; lia). lia.
  - assert (E1 : high - low + 1 = 1); [|split; [cbn; lia|by rewrite E1]].
    pose proof (Z.div_mod (high - low + 1) 2 ltac:(lia)).
    pose proof (Z.mod_pos_bound (high - low + 1) 2 ltac:(lia)). lia.
Qed.

Lemma heights_step fuel high low i n m :
  1 <= low <= high -> high < 2^31 ->
  synopsis_heights fuel high high low !! i = Some n ->
  synopsis_heights fuel high high low !! S i = Some m -> m = n + (high - n + 2) / 2.
Proof.
  intros Hl Hh. revert low i Hl. induction fuel as [|fuel IH]; intros low i Hl; cbn; [done|].
  pose proof (next_low_grows high low ltac:(lia) ltac:(lia)).
  destruct (Z.leb_spec (next_low high low) high); [|done].
  destruct i as [|i]; [|apply IH; lia]. intros [= <-]. cbn.
  destruct fuel; [done|]. intros [= <-]. rewrite next_low_eq; [done|lia..].
Qed.

(** The synopsis of a chain names blocks of it in order, the first block first
    and the head last, and has one entry more than the logarithm of the height. *)
Theorem synopsis_spec c :
  main_chain c -> 1 <= ch_head_num c ->
  exists heights,
    get_blockchain_synopsis block_message_type null_block_id 0 c = Ok (map (id_at c) heights) /\
    hd 0 heights = 1 /\ List.last heights 0 = ch_head_num c /\
    Z.of_nat (length heights) = Z.log2 (ch_head_num c) + 1 /\
    (forall n, n ∈ heights -> 1 <= n <= ch_head_num c) /\
    (forall i n m, heights !! i = Some n -> heights !! S i = Some m ->
       m = n + (ch_head_num c - n + 2) / 2).
Proof.
  intros Hc Hh. pose proof (mc_height _ Hc) as Hm.
  set (high := ch_head_num c) in *. exists (synopsis_heights (S (Z.to_nat high)) high high 1).
  destruct (heights_shape (S (Z.to_nat high)) high 1) as [Hlast Hlen]; [lia..|].
  split_and!; [|done|done|rewrite Hlen; f_equal; f_equal; lia| |].
  - unfold get_blockchain_synopsis. cbn -[synopsis_loop Z.to_nat synopsis_heights]. fold high.
    replace (high =? 0) with false by lia. cbn -[synopsis_loop Z.to_nat synopsis_heights].
    rewrite Z.add_0_r, wrapu32_id by lia. apply synopsis_loop_spec; cbn -[Z.to_nat]; [done|lia..].
  - intros n Hn. apply heights_above in Hn; lia.
  - intros i n m. apply heights_step; lia.
Qed.

(** The synopsis of a chain of 2^25 blocks or more, ten years and eight months of
    them, is longer than every node accepts, though the limit is computed from
    twenty years of blocks. *)
Theorem long_chain_synopsis_rejected c :
  main_chain c -> 2^25 <= ch_head_num c ->
  exists synopsis, get_blockchain_synopsis block_message_type null_block_id 0 c = Ok synopsis /\
    forall limit c', get_item_ids block_message_type synopsis limit c' = Err fc_exception.
Proof.
  intros Hc Hh. destruct (synopsis_spec c Hc ltac:(lia)) as (hs & Hs & _ & _ & Hlen & _).
  eexists. split; [exact Hs|]. intros limit c'. unfold get_item_ids. cbn.
  rewrite length_map, Hlen. pose proof (Z.log2_le_mono _ _ Hh) as Hlog.
  change (Z.log2 (2^25)) with 25 in Hlog. change blockchain_synopsis_size_limit with 25.
  by replace (Z.log2 (ch_head_num c) + 1 >? 25) with true by lia.
Qed.

(** ** Two nodes *)

(** No id names two blocks in the chains of the two nodes. *)
Definition no_collision (c1 c2 : chain) : Prop :=
  forall n m id b b', block_at c1 n id b -> block_at c2 m id b' -> fb_header b = fb_header b'.

Section nodes.
Context (c1 c2 : chain) (H1 : main_chain c1) (H2 : main_chain c2) (Hid : no_collision c1 c2).
#[local] Set Default Proof Using "All".

(** The chains have the same block [n]. *)
Definition agree (n : Z) : Prop :=
  1 <= n <= ch_head_num c1 /\ 1 <= n <= ch_head_num c2 /\ id_at c1 n = id_at c2 n.

(** Blocks that agree have the same past. *)
Lemma agree_below n m : agree n -> 1 <= m <= n -> agree m.
Proof.
  intros Hn. remember (Z.to_nat (n - m)) as d eqn:Hd. revert m Hd.
  induction d as [|d IH]; intros m Hd Hm; [by replace m with n by lia|].
  destruct (IH (m + 1)) as (Hr1 & Hr2 & E); [lia..|]. split_and!; [lia..|].
  destruct (main_block _ _ H1 Hr1) as [b Hb], (main_block _ _ H2 Hr2) as [b' Hb']. rewrite E in Hb.
  pose proof (ba_previous _ _ _ _ Hb) as P. pose proof (ba_previous _ _ _ _ Hb') as P'.
  replace (m + 1 - 1) with m in P, P' by lia. rewrite <- P, <- P'. unfold fb_previous, fb_head.
  by rewrite (Hid _ _ _ _ _ Hb Hb').
Qed.

(** A block of the first chain that the second includes is at the same height. *)
Lemma included_agrees n :
  1 <= n <= ch_head_num c1 -> is_included_block (id_at c1 n) c2 = true -> agree n.
Proof.
  intros Hn Hi. destruct (main_block _ _ H1 Hn) as [b Hb].
  destruct (included_at _ _ H2 (ba_not_null _ _ _ _ Hb) Hi) as (m & Hm & E).
  destruct (main_block _ _ H2 Hm) as [b' Hb']. rewrite <- E in Hb'.
  assert (n = m) as <-; [|done].
  rewrite <- (ba_block_num _ _ _ _ Hb), <- (ba_block_num _ _ _ _ Hb'). unfold fb_block_num, fb_head.
  by rewrite (Hid _ _ _ _ _ Hb Hb').
Qed.

Lemma agree_included n : agree n -> is_included_block (id_at c1 n) c2 = true.
Proof.
  intros (_ & Hn & ->). destruct (main_block _ _ H2 Hn) as [b Hb]. by apply block_at_included in Hb.
Qed.

(** The heights of the synopsis of [c1] up to the newest shared one. *)
Lemma newest_shared_agrees heights n :
  (forall x, x ∈ heights -> 1 <= x <= ch_head_num c1) ->
  newest_shared c2 (map (id_at c1) heights) n ->
  (exists before after, heights = before ++ n :: after /\ agree n /\ Forall (fun x => ~ agree x) after) \/
  n = 1 /\ Forall (fun x => ~ agree x) heights.
Proof.
  intros Hh [(before & after & E & Hn & Ha)|[-> Ha]].
  - change (id_at c1 <$> heights = before ++ id_at c2 n :: after) in E.
    apply fmap_app_inv in E as (l1 & l2 & -> & E & ->).
    symmetry in E. apply fmap_cons_inv in E as (x & l & Hx & -> & ->).
    assert (Hx1 : 1 <= x <= ch_head_num c1) by (apply Hh; set_solver).
    assert (Hax : agree x).
    { apply included_agrees; [done|]. rewrite <- Hx.
      destruct (main_block _ _ H2 Hn) as [b Hb]. by apply block_at_included in Hb. }
    left. exists l1, l. replace n with x; [split_and!; [done..|]|].
    + rewrite Forall_map in Ha. eapply Forall_impl; [exact Ha|]. intros y Hy Hag.
      cbn in Hy. by rewrite agree_included in Hy.
    + destruct Hax as (_ & Hx2 & E). rewrite <- Hx in E. symmetry. by apply (id_at_inj c2).
  - right. split; [done|]. rewrite Forall_map in Ha. eapply Forall_impl; [exact Ha|]. intros y Hy Hag.
    cbn in Hy. by rewrite agree_included in Hy.
Qed.

(** A node that is behind on the same chain gets its own head and the next blocks. *)
Lemma behind_gets_next n :
  agree (ch_head_num c1) -> agree n ->
  (forall m, agree m -> m < n + (ch_head_num c1 - n + 2) / 2) -> n = ch_head_num c1.
Proof.
  intros Hh (Hn & _) Hm. specialize (Hm _ Hh).
  pose proof (Z.div_mod (ch_head_num c1 - n + 2) 2 ltac:(lia)).
  pose proof (Z.mod_pos_bound (ch_head_num c1 - n + 2) 2 ltac:(lia)). lia.
Qed.

#[local] Instance agree_dec n : Decision (agree n).
Proof using Type. unfold agree. apply _. Defined.

(** The shared blocks are those up to the last one. *)
Lemma last_shared : exists fork, 0 <= fork /\ forall m, agree m <-> 1 <= m <= fork.
Proof.
  assert (Hup : forall d, (exists fork, 0 <= fork /\ (forall m, agree m <-> 1 <= m <= fork)) \/
    forall m, 1 <= m <= Z.of_nat d -> agree m).
  { induction d as [|d [IH|IH]]; [right; intros m Hm; cbn in Hm; lia|by left|].
    destruct (decide (agree (Z.of_nat d + 1))) as [Ha|Hn].
    - right. intros m Hm. apply (agree_below (Z.of_nat d + 1)); [done|lia].
    - left. exists (Z.of_nat d). split; [lia|]. intros m. split.
      + intros Hm. pose proof (proj1 (proj1 Hm)). split; [done|].
        destruct (Z.le_gt_cases m (Z.of_nat d)) as [|Hgt]; [done|].
        exfalso. apply Hn, (agree_below m); [done|lia].
      + apply IH. }
  destruct (Hup (S (Z.to_nat (ch_head_num c1)))) as [?|Hall]; [done|].
  pose proof (mc_height _ H1). destruct (Hall (ch_head_num c1 + 1)) as [? _]; lia.
Qed.
End nodes.

Lemma no_collision_sym c1 c2 : no_collision c1 c2 -> no_collision c2 c1.
Proof. intros Hid n m id b b' Hb Hb'. symmetry. by eapply Hid. Qed.

(** Whether an id of the second chain is of the first, too. *)
Lemma included_in_first c1 c2 m :
  main_chain c1 -> main_chain c2 -> no_collision c1 c2 -> 1 <= m <= ch_head_num c2 ->
  is_included_block (id_at c2 m) c1 = true <-> agree c1 c2 m.
Proof using H H0.
  intros H1 H2 Hid Hm. split.
  - intros Hi. destruct (included_agrees c2 c1 H2 H1 (no_collision_sym _ _ Hid) m Hm Hi) as (? & ? & ?).
    split_and!; [lia..|done].
  - intros (? & ? & E). apply (agree_included c2 c1 H2 H1 (no_collision_sym _ _ Hid)). split_and!; [lia..|done].
Qed.

(** Of consecutive blocks, those after the last shared one are new. *)
Lemma new_ids c1 c2 fork n k :
  main_chain c1 -> main_chain c2 -> no_collision c1 c2 ->
  (forall m, agree c1 c2 m <-> 1 <= m <= fork) -> 1 <= n <= fork + 1 -> n + Z.of_nat k <= ch_head_num c2 + 1 ->
  filter (fun id => is_included_block id c1 = false) (ids_from c2 n k)
  = ids_from c2 (fork + 1) (k - Z.to_nat (fork + 1 - n)).
Proof using H H0.
  intros H1 H2 Hid Hfork. revert n. induction k as [|k IH]; intros n Hn Hk.
  { by rewrite Nat.sub_0_l. }
  rewrite ids_from_S. pose proof (included_in_first c1 c2 n H1 H2 Hid ltac:(lia)) as Hin. rewrite Hfork in Hin.
  destruct (Z.le_gt_cases n fork) as [Hle|Hgt].
  - rewrite filter_cons_False by (rewrite (proj2 Hin) by lia; done). rewrite IH by lia.
    f_equal. lia.
  - assert (n = fork + 1) as -> by lia.
    replace (S k - Z.to_nat (fork + 1 - (fork + 1)))%nat with (S k) by lia. rewrite ids_from_S.
    assert (Hall : forall j n, fork < n -> n + Z.of_nat j <= ch_head_num c2 + 1 ->
      filter (fun id => is_included_block id c1 = false) (ids_from c2 n j) = ids_from c2 n j).
    { induction j as [|j IHj]; intros n Hn' Hj; [done|]. rewrite ids_from_S.
      pose proof (included_in_first c1 c2 n H1 H2 Hid ltac:(lia)) as Hin'. rewrite Hfork in Hin'.
      rewrite filter_cons_True; [by rewrite IHj by lia|]. apply not_true_iff_false. intros ?%Hin'. lia. }
    rewrite filter_cons_True; [by rewrite Hall by lia|]. apply not_true_iff_false. intros ?%Hin. lia.
Qed.

(** C6: A node that sends the synopsis of its chain to another is answered with
    consecutive blocks of the other, and a count of those that follow.  They begin
    with a block the chains share, less than half of the rest of the chain before the
    last one they share, or with block 1 if they share none.  Without the blocks the
    node has, what is left of the answer are the blocks after the last shared one, in
    order.  (node.hpp says that the answer has the ids after the shared block; the
    shared block itself comes first.) *)
Theorem sync_finds_fork_point c1 c2 (H1 : main_chain c1) (H2 : main_chain c2) (Hid : no_collision c1 c2) limit :
  1 <= ch_head_num c1 < 2^25 -> 1 <= ch_head_num c2 -> 0 <= limit ->
  exists synopsis fork n k remaining,
    get_blockchain_synopsis block_message_type null_block_id 0 c1 = Ok synopsis /\
    get_item_ids block_message_type synopsis limit c2 = Ok (ids_from c2 n k, remaining) /\
    Z.of_nat k = Z.min limit (ch_head_num c2 - n + 1) /\
    n + Z.of_nat k + remaining = ch_head_num c2 + 1 /\
    (forall m, agree c1 c2 m <-> 1 <= m <= fork) /\
    (1 <= n <= fork /\ fork < n + (ch_head_num c1 - n + 2) / 2 \/ n = 1 /\ fork = 0) /\
    filter (fun id => is_included_block id c1 = false) (ids_from c2 n k)
    = ids_from c2 (fork + 1) (k - Z.to_nat (fork + 1 - n)).
Proof using H H0.
  intros Hh1 Hh2 Hlim. destruct (last_shared c1 c2 H1 H2 Hid) as (fork & Hf0 & Hfork).
  destruct (synopsis_spec c1 H1 ltac:(lia)) as (hs & Hs & Hhd & Hlast & Hlen & Hin & Hstep).
  assert (Hlog : Z.log2 (ch_head_num c1) < 25) by (apply Z.log2_lt_pow2; lia).
  destruct (get_item_ids_spec c2 (map (id_at c1) hs) limit H2 Hh2 Hlim) as (n & k & rem & Hg & Hns & Hk & Hr).
  { rewrite length_map, Hlen. change blockchain_synopsis_size_limit with 25. lia. }
  { intros (x & Hx & Hxin)%list_elem_of_fmap. destruct (main_block _ _ H1 (Hin x Hxin)) as [b Hb].
    by apply ba_not_null in Hb. }
  assert (Hpos : 1 <= n <= fork /\ fork < n + (ch_head_num c1 - n + 2) / 2 \/ n = 1 /\ fork = 0).
  { destruct (newest_shared_agrees c1 c2 H1 H2 Hid hs n Hin Hns) as [(before & after & -> & Hn & Ha)|[-> Ha]].
    - left. apply Hfork in Hn as Hn'. split; [lia|]. destruct after as [|x after].
      + rewrite last_last in Hlast. subst n.
        assert (agree c1 c2 fork) as ((? & ?) & _) by (apply Hfork; lia).
        replace (ch_head_num c1 - ch_head_num c1 + 2) with 2 by lia. change (2 / 2) with 1. lia.
      + assert (Ex : x = n + (ch_head_num c1 - n + 2) / 2).
        { apply (Hstep (length before) n x).
          - by rewrite lookup_app_r, Nat.sub_diag by lia.
          - rewrite lookup_app_r by lia. by replace (S (length before) - length before)%nat with 1%nat by lia. }
        rewrite <- Ex. apply Forall_cons in Ha as [Hx _]. rewrite Hfork in Hx.
        assert (1 <= x) by (apply Hin; set_solver). lia.
    - right. split; [done|]. destruct hs as [|x hs]; [done|]. cbn in Hhd. subst x.
      apply Forall_cons in Ha as [Hx _]. rewrite Hfork in Hx. lia. }
  exists (map (id_at c1) hs), fork, n, k, rem. split_and!; [done..|].
  assert (0 <= rem) by lia.
  apply new_ids; [done..|lia|lia].
Qed.
End main_chain.

(** ** What the client makes of a block *)

Section receive.
Context `{Crypto} `{BlockHash} `{FcNum} `{FcReal} `{!MarketEngine}.

Lemma note_syncing_keeps t f k :
  cl_chain (note_syncing t f k) = cl_chain k /\ cl_exceptions (note_syncing t f k) = cl_exceptions k.
Proof. unfold note_syncing. cbv zeta. by case_match. Qed.

(** A block that follows the head, is new and passes its evaluation becomes the
    head of the client's chain when it is received; the network is told that no
    fork was switched, and no exception is noted. *)
Theorem handle_next_block t b sync_mode k f seed c1 :
  cl_simulate_disconnect k = false -> next_block b (cl_chain k) f ->
  get_current_random_seed (ch_db (cl_chain k)) = Ok seed ->
  extend_chain (mo_clock t) b
    (set_ch_blocks (with_block (mo_clock t) seed b f (ch_blocks (cl_chain k))) (cl_chain k)) = (c1, Ok tt) ->
  exists k', handle_message t (block_message b (fb_id b)) sync_mode k = (k', Ok false) /\
    ch_head_id (cl_chain k') = fb_id b /\ ch_db (cl_chain k') = ch_db c1 /\
    is_included_block (fb_id b) (cl_chain k') = true /\ cl_exceptions k' = cl_exceptions k.
Proof.
  intros Hd N Hs He.
  destruct (push_next_block (mo_clock t) (mo_elapsed t) seed b _ f c1 N Hs He)
    as (c2 & fork & Hp & Hid & _ & Hdb & Hf & Hl & _ & Hi).
  set (k0 := set_cl_sync sync_mode
    (if sync_mode && (cl_remaining_items_to_sync k >? 0) then cl_remaining_items_to_sync k - 1
     else cl_remaining_items_to_sync k) k).
  assert (Hr : receive_block t b (fb_id b) sync_mode k0 = (note_syncing t fork (set_cl_chain c2 k0), Ok fork)).
  { unfold receive_block, get_block_fork_data. cbn -[push_block].
    rewrite Hd, (nb_fork _ _ _ N), Hp, Hl. cbn.
    by rewrite andb_false_r. }
  exists (note_syncing t fork (set_cl_chain c2 k0)). split.
  - unfold handle_message, on_new_block. cbv zeta. fold k0. rewrite Hr. cbn.
    by rewrite Hi, (nb_previous _ _ _ N), Z.eqb_refl.
  - destruct (note_syncing_keeps t fork (set_cl_chain c2 k0)) as [-> ->]. split_and!; try done.
    apply included_spec. by exists fork.
Qed.

(** A block the client already has in its chain, other than the one after the
    head, changes nothing and is reported as a switch to another fork. *)
Theorem known_block_reported_as_switch t b id sync_mode k f :
  cl_simulate_disconnect k = false -> get_block_fork_data id (cl_chain k) = Some f ->
  fk_is_known f = true -> fk_is_linked f = true -> fk_is_included f = true ->
  fb_previous b <> ch_head_id (cl_chain k) ->
  exists k', handle_message t (block_message b id) sync_mode k = (k', Ok true) /\ cl_chain k' = cl_chain k.
Proof.
  intros Hd Hf Hk Hl Hi Hp. eexists. split.
  - unfold handle_message, on_new_block, receive_block. cbn -[push_block]. rewrite Hd, Hf, Hk, Hl. cbn.
    rewrite andb_false_r. cbn. rewrite Hi, (proj2 (Z.eqb_neq _ _) Hp). reflexivity.
  - done.
Qed.
End receive.
