(* ===== verification/SyncWitnesses.v ===== *)
(** * SyncWitnesses: nodes that receive blocks and synchronise

    The sample chain of ChainWitnesses.v receives its next block; and
    [numbered_chain n] is a node that has the blocks 1 to [n], whose ids count on
    from that of the first checkpoint. *)
From S2P Require Import Prelude Config Fc Asset Records ChainInterface PendingState ChainDatabase.
From S2P Require Import Samples Apply Blocks Production Forks Chain ChainOps Client SwitchFacts MainChain SyncFacts.
From S2P Require Import ChainWitnesses.

(** ** Receiving a block *)

Definition sample_client : client := mk_client sample_chain ∅ ∅ false true false 0 0 true 0.
Definition sample_moment : moment := mk_moment sample_clock 3 (seconds sample_clock).

Lemma handle_next_block_witness :
  exists k, handle_message sample_moment (block_message sample_next (fb_id sample_next)) false sample_client
    = (k, Ok false) /\ ch_head_id (cl_chain k) = fb_id sample_next.
Proof.
  destruct (handle_next_block sample_moment sample_next false sample_client genesis_fork 5 extended_chain
    eq_refl sample_is_next eq_refl extended_run) as (k & Hk & Hid & _).
  exists k. split; [exact Hk|exact Hid].
Defined.

Lemma known_block_reported_as_switch_witness :
  exists k, handle_message sample_moment (block_message (mk_block sample_head []) sample_head_id) false
    sample_client = (k, Ok true) /\ cl_chain k = sample_chain.
Proof.
  destruct (known_block_reported_as_switch sample_moment (mk_block sample_head []) sample_head_id false
    sample_client (mk_fork ∅ true (Some true) None true true))
    as (k & Hk & Hc); [reflexivity|vm_compute; reflexivity|reflexivity|reflexivity|reflexivity
    |vm_compute; discriminate|].
  exists k. split; [exact Hk|exact Hc].
Defined.

(** ** Chains of numbered blocks *)

(** The map of 1 to [n] by [f]. *)
Definition table {A} (f : Z -> A) (n : Z) : gmap Z A :=
  list_to_map ((fun i => (i, f i)) <$> seqZ 1 n).

Lemma lookup_table {A} (f : Z -> A) n i x : table f n !! i = Some x <-> 1 <= i <= n /\ x = f i.
Proof.
  unfold table. rewrite <- elem_of_list_to_map.
  - rewrite list_elem_of_fmap. split.
    + intros (y & [= -> ->] & Hy%elem_of_seqZ). split; [lia|done].
    + intros [Hi ->]. exists i. split; [done|]. apply elem_of_seqZ. lia.
  - rewrite <- list_fmap_compose. cbn. rewrite list_fmap_id. apply NoDup_seqZ.
Qed.


Section numbered.

(** The id of block [n]. *)
Definition number_id (n : Z) : Z :=
  if n =? 0 then null_block_id else n + (0x8abcfb93c52f999e3ef5288c4f837f4f15af5521 - 1).

#[local] Instance number_hash : BlockHash | 0 := {|
  header_digest h := bh_block_num h;
  block_id_hash h := number_id (bh_block_num (sb_header h));
  recover_signee sig _ _ := Ok sig;
  trx_ids_hash l := foldr Z.add 7 l;
  packed_size b := 200;
  trx_data_size _ := 100;
  secret_hash s := s + 1;
  next_seed_hash a b := a + 3 * b;
  sha256_of_seed s := s;
  sha256_of_hash h := h + 1
|}.

(** The map of the ids of 1 to [n] by [f]. *)
Definition id_table {A} (f : Z -> A) (n : Z) : gmap Z A :=
  list_to_map ((fun i => (number_id i, f i)) <$> seqZ 1 n).

Lemma number_id_pos n : 1 <= n -> number_id n = n + (0x8abcfb93c52f999e3ef5288c4f837f4f15af5521 - 1).
Proof. intros Hn. unfold number_id. by replace (n =? 0) with false by lia. Qed.

Lemma lookup_id_table {A} (f : Z -> A) n id x :
  id_table f n !! id = Some x <-> exists i, 1 <= i <= n /\ id = number_id i /\ x = f i.
Proof.
  unfold id_table. rewrite <- elem_of_list_to_map.
  - rewrite list_elem_of_fmap. split.
    + intros (y & [= -> ->] & Hy%elem_of_seqZ). exists y. split_and!; [lia..|done|done].
    + intros (i & Hi & -> & ->). exists i. split; [done|]. apply elem_of_seqZ. lia.
  - rewrite <- list_fmap_compose. apply NoDup_fmap_2_strong; [|apply NoDup_seqZ].
    intros i j Hi%elem_of_seqZ Hj%elem_of_seqZ. cbn. rewrite !number_id_pos by lia. lia.
Qed.

Definition nth_block (n : Z) : full_block :=
  mk_block (mk_signed_header (mk_header (number_id (n - 1)) n (10 * n) 7 0 0) 0) [].

Definition numbered_chain (n : Z) : chain :=
  mk_chain chain_db (fb_header (nth_block n)) (number_id n)
    (mk_store (id_table (fun _ => mk_fork ∅ true (Some true) None true true) n)
       (table (fun i => [number_id i]) n) (id_table nth_block n)
       (id_table (fun i => mk_block_record (mk_digest_block (fb_header (nth_block i)) []) 0 0 0 5 200 0 0) n))
    (table number_id n) ∅ ∅ ∅ ∅ None false false 0.

Lemma numbered_id_at n i : 0 <= i <= n -> id_at (numbered_chain n) i = number_id i.
Proof.
  intros Hi. unfold id_at. destruct (Z.eqb_spec i 0); [by subst|]. cbn.
  by rewrite (proj2 (lookup_table number_id n i (number_id i))) by lia.
Qed.

Lemma numbered_block_at n i : 1 <= i <= n -> block_at (numbered_chain n) i (number_id i) (nth_block i).
Proof.
  intros Hi. split; try done.
  - cbn. apply lookup_table. lia.
  - rewrite number_id_pos by lia. unfold null_block_id. lia.
  - cbn. apply lookup_id_table. eauto.
  - cbn. by rewrite numbered_id_at by lia.
  - eexists. split; [cbn; apply lookup_id_table; exists i; split; [done|split; reflexivity]|done].
  - eexists. split; [cbn; apply lookup_id_table; exists i; split; [done|split; reflexivity]|done].
Qed.

Lemma numbered_main n : 0 <= n < 2^31 -> main_chain (numbered_chain n).
Proof.
  intros Hn. split.
  - done.
  - cbn. by rewrite numbered_id_at by lia.
  - intros b. cbn. intros (i & Hi & E & ->)%lookup_id_table.
    rewrite (number_id_pos i) in E by lia. unfold number_id, null_block_id in E.
    destruct (Z.eqb_spec n 0); [lia|]. replace i with n by lia. done.
  - intros i Hi. exists (number_id i), (nth_block i). by apply numbered_block_at.
  - intros i id. cbn. by intros [Hi _]%lookup_table.
  - intros id (f & Hf & _) _. cbn in Hf. apply lookup_id_table in Hf as (i & Hi & -> & _). exists i. cbn.
    by apply lookup_table.
Qed.

Lemma numbered_no_collision n m : no_collision (numbered_chain n) (numbered_chain m).
Proof.
  intros i j id b b' Hb Hb'. apply ba_data in Hb, Hb'. cbn in Hb, Hb'.
  apply lookup_id_table in Hb as (x & Hx & E & ->). apply lookup_id_table in Hb' as (y & Hy & E' & ->).
  rewrite number_id_pos in E, E' by lia. by replace y with x by lia.
Qed.

Lemma synopsis_spec_witness :
  exists heights, get_blockchain_synopsis block_message_type null_block_id 0 (numbered_chain 100)
    = Ok (map (id_at (numbered_chain 100)) heights) /\ Z.of_nat (length heights) = 7.
Proof.
  destruct (synopsis_spec (numbered_chain 100) (numbered_main 100 ltac:(lia)) ltac:(cbn; lia))
    as (hs & Hs & _ & _ & Hl & _). exists hs. split; [exact Hs|exact Hl].
Defined.

Example synopsis_of_hundred :
  get_blockchain_synopsis block_message_type null_block_id 0 (numbered_chain 100)
  = Ok (map number_id [1; 51; 76; 89; 95; 98; 100]).
Proof. vm_compute. reflexivity. Qed.

Lemma long_chain_synopsis_rejected_witness :
  exists synopsis, get_blockchain_synopsis block_message_type null_block_id 0 (numbered_chain (2^25)) = Ok synopsis /\
    get_item_ids block_message_type synopsis 2000 (numbered_chain 7) = Err fc_exception.
Proof.
  destruct (long_chain_synopsis_rejected (numbered_chain (2^25)) (numbered_main (2^25) ltac:(lia)) (Z.le_refl _))
    as (s & Hs & Hr). exists s. split; [exact Hs|apply Hr].
Defined.

(** A node with three blocks asks one with five. *)
Lemma sync_finds_fork_point_witness :
  exists synopsis fork n k remaining,
    get_blockchain_synopsis block_message_type null_block_id 0 (numbered_chain 3) = Ok synopsis /\
    get_item_ids block_message_type synopsis 2000 (numbered_chain 5)
      = Ok (ids_from (numbered_chain 5) n k, remaining) /\
    filter (fun id => is_included_block id (numbered_chain 3) = false) (ids_from (numbered_chain 5) n k)
    = ids_from (numbered_chain 5) (fork + 1) (k - Z.to_nat (fork + 1 - n)).
Proof.
  destruct (sync_finds_fork_point (numbered_chain 3) (numbered_chain 5) (numbered_main 3 ltac:(lia))
    (numbered_main 5 ltac:(lia)) (numbered_no_collision 3 5) 2000 ltac:(cbn; lia) ltac:(cbn; lia) ltac:(lia))
    as (s & fork & n & k & r & Hs & Hg & _ & _ & _ & _ & Hnew).
  exists s, fork, n, k, r. split; [exact Hs|]. split; [exact Hg|exact Hnew].
Defined.

Example next_blocks_offered :
  get_item_ids block_message_type (map number_id [1; 3]) 2000 (numbered_chain 5)
  = Ok (map number_id [3; 4; 5], 0).
Proof. vm_compute. reflexivity. Qed.

(** ** The first block of a chain *)

Definition first_block : full_block :=
  mk_block (mk_signed_header (mk_header null_block_id 1 (sample_now + 20) 7 9 0) 1) [].

(** The genesis state, with the block stored and not yet applied. *)
Definition start_chain : chain :=
  mk_chain chain_db null_header null_block_id
    (mk_store {[ null_block_id := mk_fork {[ number_id 1 ]} true (Some true) None true true;
                 number_id 1 := mk_fork ∅ true None None false true ]}
       {[ 1 := [number_id 1] ]} {[ number_id 1 := first_block ]}
       {[ number_id 1 := new_block_record sample_clock 5 first_block ]})
    ∅ ∅ ∅ ∅ ∅ None false false 0.

Lemma start_main : main_chain start_chain.
Proof.
  split; try done.
  - cbn. lia.
  - intros id (f & Hf & Hi) Hn. cbn in Hf. rewrite lookup_insert_ne in Hf by done.
    apply lookup_singleton_Some in Hf as [_ <-]. done.
Qed.

Lemma start_stored : stored_blocks start_chain.
Proof.
  split.
  - intros id b Hb. cbn in Hb. apply lookup_singleton_Some in Hb as [<- <-]. done.
  - intros id b Hb. cbn in Hb. apply lookup_singleton_Some in Hb as [<- <-].
    eexists. split; [apply lookup_singleton_eq|done].
  - intros id b Hb. cbn in Hb. apply lookup_singleton_Some in Hb as [<- <-]. by split_and!.
  - done.
Qed.

Lemma switch_keeps_main_chain_witness :
  exists c1, switch_to_fork sample_clock (number_id 1) start_chain = (c1, Ok tt) /\ main_chain c1.
Proof.
  assert (Hd : is_done (switch_to_fork sample_clock (number_id 1) start_chain) = true)
    by (vm_compute; reflexivity).
  destruct (switch_to_fork sample_clock (number_id 1) start_chain) as [c1 [[]|e]] eqn:Hs; [|discriminate Hd].
  exists c1. split; [reflexivity|].
  exact (proj1 (switch_keeps_main_chain sample_clock (number_id 1) start_chain c1 start_main start_stored Hs)).
Defined.
End numbered.
