(* ===== verification/OrderBook.v ===== *)
(** * OrderBook: orders as the market engine sees them (market_records.hpp/.cpp)

    An order of any kind with its price, balance and quantity, and the order books
    of one market as the sequences the engine's iterators run through. *)
From S2P Require Import Prelude Config Fc Asset Records ChainInterface ChainDatabase.
From stdpp Require Import sorting.
Local Open Scope Z_scope.

(** ** Orders *)

Inductive order_type :=
| null_order | bid_order | ask_order | short_order | cover_order
| relative_bid_order | relative_ask_order.

#[global] Instance order_type_eq_dec : EqDecision order_type.
Proof. solve_decision. Defined.

Definition order_type_num (t : order_type) : Z :=
  match t with
  | null_order => 0 | bid_order => 1 | ask_order => 2 | short_order => 3 | cover_order => 4
  | relative_bid_order => 5 | relative_ask_order => 6
  end.

Record market_order := mk_market_order {
  mo_type : order_type;
  mo_index : market_index_key;
  mo_state : order_record;
  mo_collateral : option Z;
  mo_interest_rate : option price;
  mo_expiration : option Z
}.

Definition set_mo_balance (v : Z) (o : market_order) : market_order :=
  mk_market_order (mo_type o) (mo_index o) (set_or_balance v (mo_state o)) (mo_collateral o)
    (mo_interest_rate o) (mo_expiration o).
Definition set_mo_collateral (v : option Z) (o : market_order) : market_order :=
  mk_market_order (mo_type o) (mo_index o) (mo_state o) v (mo_interest_rate o) (mo_expiration o).

(** The constructors of bids and asks, of shorts and of covers. *)
Definition plain_order (t : order_type) (k : market_index_key) (r : order_record) : market_order :=
  mk_market_order t k r None None None.
Definition short_of (k : market_index_key) (r : order_record) : market_order :=
  mk_market_order short_order k r (Some (or_balance r)) (Some (mk_order_price k)) None.
Definition cover_of (k : market_index_key) (r : collateral_record) : market_order :=
  mk_market_order cover_order k (mk_order (cr_payoff_balance r) None 0)
    (Some (cr_collateral_balance r)) (Some (cr_interest_rate r)) (Some (cr_expiration r)).

Definition mo_price (o : market_order) : price := mk_order_price (mo_index o).
Definition mo_owner (o : market_order) : Z := mk_owner (mo_index o).
Definition mo_balance (o : market_order) : Z := or_balance (mo_state o).

(** [std::min] and [std::max] on prices, [std::min] on assets *)
Definition price_min (a b : price) : price := if price_ltb b a then b else a.
Definition price_max (a b : price) : price := if price_ltb a b then b else a.
Definition asset_min (a b : asset) : asset := if asset_ltb b a then b else a.

Section orders.
Context `{FcNum}.

(** [market_order::get_balance] *)
Definition get_balance (o : market_order) : result asset :=
  match mo_type o with
  | relative_bid_order | bid_order | cover_order =>
      Ok (mk_asset (mo_balance o) (quote_asset_id (mo_price o)))
  | relative_ask_order | ask_order | short_order =>
      Ok (mk_asset (mo_balance o) (base_asset_id (mo_price o)))
  | null_order => Err assert_exception
  end.

(** [market_index.order_price + relative], if there is a price to add *)
Definition shifted_price (relative : price) (o : market_order) : result price :=
  if price_neb relative null_price then price_add (mo_price o) relative else Ok (mo_price o).

(** [market_order::get_price] *)
Definition get_price (relative : price) (o : market_order) : result price :=
  match mo_type o with
  | relative_bid_order =>
      abs_price ← shifted_price relative o;
      Ok (match or_limit_price (mo_state o) with Some l => price_min abs_price l | None => abs_price end)
  | relative_ask_order =>
      abs_price ← shifted_price relative o;
      Ok (match or_limit_price (mo_state o) with Some l => price_max abs_price l | None => abs_price end)
  | short_order =>
      if price_eqb relative null_price then Ok (mo_price o)
      else Ok (match or_limit_price (mo_state o) with Some l => price_min l relative | None => relative end)
  | bid_order | ask_order | cover_order => Ok (mo_price o)
  | null_order => Err assert_exception
  end.

(** [market_order::get_highest_cover_price] *)
Definition get_highest_cover_price (o : market_order) : result price :=
  _ ← fc_assert (bool_decide (mo_type o = cover_order));
  c ← require (mo_collateral o) assertion_abort;
  asset_div (mk_asset (mo_balance o) (quote_asset_id (mo_price o))) (mk_asset c 0).

(** [market_order::get_quantity] *)
Definition get_quantity (relative : price) (o : market_order) : result asset :=
  match mo_type o with
  | relative_bid_order | bid_order =>
      b ← get_balance o; p ← get_price relative o; asset_mul b p
  | relative_ask_order | ask_order | short_order => get_balance o
  | cover_order =>
      c ← require (mo_collateral o) assertion_abort;
      Ok (mk_asset (Z.quot (wrap64 (c * 3)) 4) 0)
  | null_order => Err assert_exception
  end.

(** [market_order::get_quote_quantity] *)
Definition get_quote_quantity (relative : price) (o : market_order) : result asset :=
  match mo_type o with
  | relative_bid_order | bid_order | cover_order => get_balance o
  | relative_ask_order | ask_order | short_order =>
      b ← get_balance o; p ← get_price relative o; asset_mul b p
  | null_order => Err assert_exception
  end.
End orders.

(** ** The books *)

(** [operator <] of [market_index_key] and of [expiration_index] *)
Definition key_ltb (a b : market_index_key) : bool :=
  if price_ltb (mk_order_price a) (mk_order_price b) then true
  else if price_ltb (mk_order_price b) (mk_order_price a) then false
  else mk_owner a <? mk_owner b.
Definition expiration_ltb (a b : Z * Z * market_index_key) : bool :=
  if a.1.1 <? b.1.1 then true
  else if b.1.1 <? a.1.1 then false
  else if a.1.2 <? b.1.2 then true
  else if b.1.2 <? a.1.2 then false
  else key_ltb a.2 b.2.

(** A store's entries in the order of its keys. *)
Section sorted.
Context {V : Type}.
Definition entry_le (a b : market_index_key * V) : Prop := key_ltb b.1 a.1 = false.
#[global] Instance entry_le_dec a b : Decision (entry_le a b).
Proof. unfold entry_le. apply _. Defined.
Definition sorted_entries (m : gmap market_index_key V) : list (market_index_key * V) :=
  merge_sort entry_le (map_to_list m).

(** From the entry before [k] backwards: [lower_bound( k )], then [--], or [last()]
    where there is nothing from [k] on. *)
Definition entries_below (k : market_index_key) (m : gmap market_index_key V)
    : list (market_index_key * V) :=
  rev (filter (fun kv => key_ltb kv.1 k = true) (sorted_entries m)).
(** From [k] on: [lower_bound( k )], or [begin()] where that is past the end. *)
Definition entries_from (k : market_index_key) (m : gmap market_index_key V)
    : list (market_index_key * V) :=
  match filter (fun kv => key_ltb kv.1 k = false) (sorted_entries m) with
  | [] => sorted_entries m
  | l => l
  end.
End sorted.

Definition expiration_le (a b : Z * Z * market_index_key) : Prop := expiration_ltb b a = false.
#[global] Instance expiration_le_dec a b : Decision (expiration_le a b).
Proof. unfold expiration_le. apply _. Defined.
Definition expirations_from (k : Z * Z * market_index_key) (s : gset (Z * Z * market_index_key))
    : list (Z * Z * market_index_key) :=
  filter (fun x => expiration_ltb x k = false) (merge_sort expiration_le (elements s)).

(** What is left for the engine's iterators. *)
Record order_book := mk_book {
  ob_bids : list (market_index_key * order_record);
  ob_relative_bids : list (market_index_key * order_record);
  ob_shorts : list (market_index_key * order_record);
  ob_asks : list (market_index_key * order_record);
  ob_covers : list (market_index_key * collateral_record);
  ob_expired : list (Z * Z * market_index_key)
}.

(** The first key after the market's. *)
Definition next_pair (quote_id base_id : Z) : price :=
  if base_id + 1 =? quote_id then mk_price 0 0 (quote_id + 1) else mk_price 0 (base_id + 1) quote_id.

(** The iterators as [execute] sets them up; those over relative asks are never
    used. *)
Definition open_book (quote_id base_id : Z) (db : chain_database) : order_book :=
  let next := mk_market_key (next_pair quote_id base_id) null_address in
  let start := mk_market_key (mk_price 0 base_id quote_id) null_address in
  mk_book (entries_below next (db_bids db)) (entries_below next (db_relative_bids db))
    (entries_below next (db_shorts db)) (entries_from start (db_asks db))
    (entries_below next (db_collateral db))
    (expirations_from (quote_id, 0, start) (db_collateral_expiration db)).
