(* ===== verification/BookFacts.v ===== *)
(** * BookFacts: the engine meets the orders of a market in the order of price

    [books_list_market]: the sequence of bids the engine runs through starts with
    exactly the bids of the market, the highest price first, and that of asks with
    exactly its asks, the lowest price first, wherever the market's keys lie among
    those of the other markets. *)
From S2P Require Import Prelude Config Fc Asset Records ChainInterface ChainDatabase OrderBook.
From stdpp Require Import sorting.
Local Open Scope Z_scope.

(** ** The order of the keys *)

Lemma key_ltb_lt a b :
  key_ltb a b = true <->
  quote_asset_id (mk_order_price a) < quote_asset_id (mk_order_price b) \/
  quote_asset_id (mk_order_price a) = quote_asset_id (mk_order_price b) /\
    (base_asset_id (mk_order_price a) < base_asset_id (mk_order_price b) \/
     base_asset_id (mk_order_price a) = base_asset_id (mk_order_price b) /\
       (ratio (mk_order_price a) < ratio (mk_order_price b) \/
        ratio (mk_order_price a) = ratio (mk_order_price b) /\ mk_owner a < mk_owner b)).
Proof.
  unfold key_ltb.
  pose proof (price_ltb_lt (mk_order_price a) (mk_order_price b)) as H1.
  pose proof (price_ltb_lt (mk_order_price b) (mk_order_price a)) as H2.
  destruct (price_ltb (mk_order_price a) (mk_order_price b)); [split; [lia|done]|].
  destruct (price_ltb (mk_order_price b) (mk_order_price a)); lia.
Qed.

Lemma key_ltb_ge a b : key_ltb a b = false <-> ~ key_ltb a b = true.
Proof. by destruct (key_ltb a b). Qed.

(** ** Sorted lists *)

Section sorted.
Context {A : Type} (R : A -> A -> Prop).

Lemma StronglySorted_rev l : StronglySorted R l -> StronglySorted (flip R) (rev l).
Proof.
  induction 1 as [|x l Hl IH Hx]; cbn; [constructor|].
  apply StronglySorted_app_2; [|done|by repeat constructor].
  intros x1 x2 H1 ->%list_elem_of_singleton. rewrite <- (Permutation_rev l) in H1.
  rewrite Forall_forall in Hx. by apply Hx.
Qed.

Lemma StronglySorted_filter (P : A -> Prop) `{!forall x, Decision (P x)} l :
  StronglySorted R l -> StronglySorted R (filter P l).
Proof.
  induction 1 as [|x l Hl IH Hx]; [constructor|]. rewrite filter_cons. case_decide; [|done].
  constructor; [done|]. rewrite Forall_forall in *. intros y [_ Hy]%list_elem_of_filter. by apply Hx.
Qed.

Lemma filter_all (P : A -> Prop) `{!forall x, Decision (P x)} l : Forall P l -> filter P l = l.
Proof. induction 1; [done|]. rewrite filter_cons, decide_True by done. by f_equal. Qed.
Lemma filter_none (P : A -> Prop) `{!forall x, Decision (P x)} l : Forall (fun x => ~ P x) l -> filter P l = [].
Proof. induction 1; [done|]. by rewrite filter_cons, decide_False. Qed.

(** A property that only an initial part of the list has cuts it in two. *)
Lemma sorted_split (P : A -> Prop) `{!forall x, Decision (P x)} l :
  StronglySorted R l -> (forall x y, R x y -> P y -> P x) ->
  l = filter P l ++ filter (fun x => ~ P x) l.
Proof.
  intros Hl HP. induction Hl as [|x l Hl IH Hx]; [done|]. rewrite !filter_cons.
  destruct (decide (P x)) as [Hp|Hp]; [rewrite decide_False by tauto; cbn; by f_equal|].
  rewrite decide_True by done. rewrite Forall_forall in Hx.
  assert (Hn : Forall (fun y => ~ P y) l) by (apply Forall_forall; eauto).
  rewrite (filter_none P), (filter_all (fun y => ~ P y)) by done. done.
Qed.
End sorted.

(** ** The books *)

(** A key of a market as the operations store it: unsigned, and the quote asset has
    the larger id. *)
Definition key_ok (k : market_index_key) : Prop :=
  0 <= base_asset_id (mk_order_price k) < quote_asset_id (mk_order_price k) /\
  0 <= ratio (mk_order_price k) /\ 0 <= mk_owner k.
Definition of_market (quote_id base_id : Z) (k : market_index_key) : Prop :=
  quote_asset_id (mk_order_price k) = quote_id /\ base_asset_id (mk_order_price k) = base_id.

Definition next_key (quote_id base_id : Z) : market_index_key :=
  mk_market_key (next_pair quote_id base_id) null_address.
Definition start_key (quote_id base_id : Z) : market_index_key :=
  mk_market_key (mk_price 0 base_id quote_id) null_address.

(** The keys of a market are those from its start to the next market's. *)
Lemma market_keys quote_id base_id k :
  0 <= base_id < quote_id -> key_ok k ->
  of_market quote_id base_id k <->
  key_ltb k (next_key quote_id base_id) = true /\ key_ltb k (start_key quote_id base_id) = false.
Proof.
  intros Hid [Hk Hp]. rewrite key_ltb_ge, !key_ltb_lt. unfold of_market, next_key, start_key, next_pair. cbn.
  destruct (Z.eqb_spec (base_id + 1) quote_id); cbn; unfold null_address; lia.
Qed.

Section book.
Context {V : Type} (m : gmap market_index_key V).

#[local] Instance entry_le_trans : Transitive (@entry_le V).
Proof. intros [a ?] [b ?] [c ?]. unfold entry_le. cbn. rewrite !key_ltb_ge, !key_ltb_lt. lia. Qed.
#[local] Instance entry_le_total : Total (@entry_le V).
Proof. intros [a ?] [b ?]. unfold entry_le. cbn. rewrite !key_ltb_ge, !key_ltb_lt. lia. Qed.

Lemma sorted_entries_sorted : StronglySorted entry_le (sorted_entries m).
Proof. apply (StronglySorted_merge_sort _). Qed.
Lemma sorted_entries_elem k v : (k, v) ∈ sorted_entries m <-> m !! k = Some v.
Proof. unfold sorted_entries. by rewrite merge_sort_Permutation, elem_of_map_to_list. Qed.
Lemma sorted_entries_nodup : NoDup (sorted_entries m).*1.
Proof. unfold sorted_entries. rewrite merge_sort_Permutation. apply NoDup_fst_map_to_list. Qed.

(** Whatever the keys are, the sequences hold entries of the store, each once. *)
Lemma filter_fst_nodup (P : market_index_key * V -> Prop) `{!forall x, Decision (P x)} l :
  NoDup l.*1 -> NoDup (filter P l).*1.
Proof.
  induction l as [|x l IH]; [done|]. rewrite filter_cons. intros [Hx Hl]%NoDup_cons.
  case_decide; [|by apply IH]. cbn. apply NoDup_cons. split; [|by apply IH].
  intros (y & Hy & [_ Hin]%list_elem_of_filter)%list_elem_of_fmap. apply Hx, list_elem_of_fmap. eauto.
Qed.
Lemma entries_below_elem x :
  NoDup (entries_below x m).*1 /\ forall k v, (k, v) ∈ entries_below x m -> m !! k = Some v.
Proof.
  unfold entries_below. split.
  - rewrite <- Permutation_rev. apply filter_fst_nodup, sorted_entries_nodup.
  - intros k v. rewrite <- Permutation_rev, list_elem_of_filter, sorted_entries_elem. tauto.
Qed.
Lemma entries_from_elem x :
  NoDup (entries_from x m).*1 /\ forall k v, (k, v) ∈ entries_from x m -> m !! k = Some v.
Proof.
  unfold entries_from. set (F := filter _ (sorted_entries m)).
  assert (HF : NoDup F.*1 /\ forall k v, (k, v) ∈ F -> m !! k = Some v).
  { split; [apply filter_fst_nodup, sorted_entries_nodup|].
    intros k v. unfold F. rewrite list_elem_of_filter, sorted_entries_elem. tauto. }
  destruct F; [|done]. split; [apply sorted_entries_nodup|]. intros k v. apply sorted_entries_elem.
Qed.

Variables quote_id base_id : Z.
Hypothesis ids : 0 <= base_id < quote_id.
Hypothesis keys_ok : forall k v, m !! k = Some v -> key_ok k.

(** What a sequence over a market should be: its orders in the order [R], then
    others. *)
Definition lists_market (R : market_index_key * V -> market_index_key * V -> Prop)
    (L : list (market_index_key * V)) : Prop :=
  exists l rest, L = l ++ rest /\ StronglySorted R l /\
    (forall k v, (k, v) ∈ l <-> m !! k = Some v /\ of_market quote_id base_id k) /\
    (forall k v, (k, v) ∈ rest -> ~ of_market quote_id base_id k).

Lemma entries_below_list :
  lists_market (flip entry_le) (entries_below (next_key quote_id base_id) m).
Proof using ids keys_ok.
  set (P := fun kv : market_index_key * V => key_ltb kv.1 (start_key quote_id base_id) = false).
  set (L := entries_below _ m).
  assert (HL : StronglySorted (flip entry_le) L).
  { apply (StronglySorted_rev entry_le), StronglySorted_filter, sorted_entries_sorted. }
  assert (Hin : forall k v, (k, v) ∈ L <-> m !! k = Some v /\ key_ltb k (next_key quote_id base_id) = true).
  { intros k v. unfold L, entries_below. rewrite <- Permutation_rev, list_elem_of_filter, sorted_entries_elem.
    cbn. tauto. }
  exists (filter P L), (filter (fun x => ~ P x) L). split; [|split; [|split]].
  - apply (sorted_split (flip entry_le)); [done|]. intros [a ?] [b ?]. unfold P, entry_le. cbn.
    rewrite !key_ltb_ge, !key_ltb_lt. lia.
  - by apply StronglySorted_filter.
  - intros k v. rewrite list_elem_of_filter, Hin. unfold P. cbn. split.
    + intros (Hs & Hk & Hn). split; [done|]. apply market_keys; eauto.
    + intros (Hk & Hm). apply market_keys in Hm as [? ?]; eauto.
  - intros k v. rewrite list_elem_of_filter, Hin. unfold P. cbn. intros (Hs & Hk & Hn) Hm.
    apply market_keys in Hm as [? ?]; eauto.
Qed.

Lemma entries_from_list :
  lists_market entry_le (entries_from (start_key quote_id base_id) m).
Proof using ids keys_ok.
  set (P := fun kv : market_index_key * V => key_ltb kv.1 (next_key quote_id base_id) = true).
  unfold entries_from. set (F := filter _ (sorted_entries m)).
  assert (HF : forall k v, (k, v) ∈ F <-> m !! k = Some v /\ key_ltb k (start_key quote_id base_id) = false).
  { intros k v. unfold F. rewrite list_elem_of_filter, sorted_entries_elem. cbn. tauto. }
  assert (Hnone : F = [] -> lists_market entry_le (sorted_entries m)).
  { intros HF0. rewrite HF0 in HF.
    assert (Hno : forall k v, m !! k = Some v -> ~ of_market quote_id base_id k).
    { intros k v Hk Hm. apply market_keys in Hm as [_ Hs]; [|done|by eauto].
      by apply (not_elem_of_nil (k, v)), HF. }
    exists [], (sorted_entries m). split; [done|]. split; [constructor|]. split.
    - intros k v. split; [by intros ?%not_elem_of_nil|]. intros [? ?]. exfalso. by eapply Hno.
    - intros k v. rewrite sorted_entries_elem. apply Hno. }
  assert (HS : StronglySorted entry_le F) by apply StronglySorted_filter, sorted_entries_sorted.
  assert (Hsome : lists_market entry_le F).
  { exists (filter P F), (filter (fun x => ~ P x) F). split; [|split; [|split]].
    - apply (sorted_split entry_le); [done|]. intros [a ?] [b ?]. unfold P, entry_le. cbn.
      rewrite !key_ltb_ge, !key_ltb_lt. lia.
    - by apply StronglySorted_filter.
    - intros k v. rewrite list_elem_of_filter, HF. unfold P. cbn. split.
      + intros (Hn & Hk & Hs). split; [done|]. apply market_keys; eauto.
      + intros (Hk & Hm). apply market_keys in Hm as [? ?]; eauto.
    - intros k v. rewrite list_elem_of_filter, HF. unfold P. cbn. intros (Hn & Hk & Hs) Hm.
      apply market_keys in Hm as [? ?]; eauto. }
  destruct F; auto.
Qed.
End book.

(** The keys of the books of bids, asks and shorts. *)
Definition book_keys_ok (db : chain_database) : Prop :=
  (forall k r, db_bids db !! k = Some r -> key_ok k) /\
  (forall k r, db_asks db !! k = Some r -> key_ok k) /\
  (forall k r, db_shorts db !! k = Some r -> key_ok k).

(** The engine meets the orders of a market in the order of price: its sequence of
    bids starts with exactly the bids of the market, from the highest price down
    ([flip entry_le]: by price, then by owner), the one of shorts with exactly its
    shorts, from the highest price down, and the one of asks with exactly its asks,
    from the lowest price up; whatever follows is of other markets.  So no order of
    the market is left out, wherever its keys lie among those of the others. *)
Theorem books_list_market db quote_id base_id :
  0 <= base_id < quote_id -> book_keys_ok db ->
  let book := open_book quote_id base_id db in
  lists_market (db_bids db) quote_id base_id (flip entry_le) (ob_bids book) /\
  lists_market (db_shorts db) quote_id base_id (flip entry_le) (ob_shorts book) /\
  lists_market (db_asks db) quote_id base_id entry_le (ob_asks book).
Proof.
  intros Hid (Hb & Ha & Hs). cbn. split; [|split].
  - by apply entries_below_list.
  - by apply entries_below_list.
  - by apply entries_from_list.
Qed.
