(* ===== verification/Engine.v ===== *)
(** * Engine: matching the orders of a market (market_engine.hpp/.cpp)

    At the end of a block each market with new orders is executed: the highest bid
    or short meets the margin calls, the expired positions and the lowest ask, one
    pair at a time, on a pending state of the engine's own.  An exception drops
    that state and notes the error in the market's status. *)
From S2P Require Import Prelude Config Fc Asset Records ChainInterface PendingState ChainDatabase.
From S2P Require Import MarketOps Apply Blocks Forks Chain OrderBook.

(** ** State *)

(** The engine's members. *)
Record engine := mk_engine {
  me_state : pending_chain_state;
  me_bid : option market_order;
  me_ask : option market_order;
  me_collat : collateral_record;
  me_filled : Z;
  me_transactions : list market_transaction;
  me_book : order_book
}.

Definition set_me_state (v : pending_chain_state) (e : engine) : engine :=
  mk_engine v (me_bid e) (me_ask e) (me_collat e) (me_filled e) (me_transactions e) (me_book e).
Definition set_me_bid (v : option market_order) (e : engine) : engine :=
  mk_engine (me_state e) v (me_ask e) (me_collat e) (me_filled e) (me_transactions e) (me_book e).
Definition set_me_ask (v : option market_order) (e : engine) : engine :=
  mk_engine (me_state e) (me_bid e) v (me_collat e) (me_filled e) (me_transactions e) (me_book e).
Definition set_me_collat (v : collateral_record) (e : engine) : engine :=
  mk_engine (me_state e) (me_bid e) (me_ask e) v (me_filled e) (me_transactions e) (me_book e).
Definition set_me_filled (v : Z) (e : engine) : engine :=
  mk_engine (me_state e) (me_bid e) (me_ask e) (me_collat e) v (me_transactions e) (me_book e).
Definition set_me_transactions (v : list market_transaction) (e : engine) : engine :=
  mk_engine (me_state e) (me_bid e) (me_ask e) (me_collat e) (me_filled e) v (me_book e).
Definition set_me_book (v : order_book) (e : engine) : engine :=
  mk_engine (me_state e) (me_bid e) (me_ask e) (me_collat e) (me_filled e) (me_transactions e) v.
Definition upd_state (f : pending_chain_state -> pending_chain_state) (e : engine) : engine :=
  set_me_state (f (me_state e)) e.

Definition set_ob_bids l (b : order_book) : order_book :=
  mk_book l (ob_relative_bids b) (ob_shorts b) (ob_asks b) (ob_covers b) (ob_expired b).
Definition set_ob_relative_bids l (b : order_book) : order_book :=
  mk_book (ob_bids b) l (ob_shorts b) (ob_asks b) (ob_covers b) (ob_expired b).
Definition set_ob_shorts l (b : order_book) : order_book :=
  mk_book (ob_bids b) (ob_relative_bids b) l (ob_asks b) (ob_covers b) (ob_expired b).
Definition set_ob_asks l (b : order_book) : order_book :=
  mk_book (ob_bids b) (ob_relative_bids b) (ob_shorts b) l (ob_covers b) (ob_expired b).
Definition set_ob_covers l (b : order_book) : order_book :=
  mk_book (ob_bids b) (ob_relative_bids b) (ob_shorts b) (ob_asks b) l (ob_expired b).
Definition set_ob_expired l (b : order_book) : order_book :=
  mk_book (ob_bids b) (ob_relative_bids b) (ob_shorts b) (ob_asks b) (ob_covers b) l.
Definition upd_book (f : order_book -> order_book) (e : engine) : engine :=
  set_me_book (f (me_book e)) e.

(** The market and the block it is executed in. *)
Record market := mk_market {
  mk_db : chain_database;
  mk_quote_id : Z;
  mk_base_id : Z;
  mk_feed : option price
}.

Definition in_market (m : market) (p : price) : bool :=
  (quote_asset_id p =? mk_quote_id m) && (base_asset_id p =? mk_base_id m).

Section engine.
Context `{Crypto} `{FcNum} `{FcReal}.

(** ** The next orders *)

(** [_feed_price.valid() && p > *_feed_price], and with [<] *)
Definition above_feed (m : market) (p : price) : bool :=
  match mk_feed m with Some f => price_gtb p f | None => false end.
Definition under_feed (m : market) (p : price) : bool :=
  match mk_feed m with Some f => price_ltb p f | None => false end.

(** [market_engine::get_next_short] *)
Definition get_next_short (m : market) (e : engine) : bool * engine :=
  match ob_shorts (me_book e) with
  | (k, r) :: rest =>
      if in_market m (mk_order_price k)
      then (true, set_me_bid (Some (short_of k r)) (upd_book (set_ob_shorts rest) e))
      else (false, e)
  | [] => (false, e)
  end.

(** The relative bid at the iterator, if it is in the market. *)
Definition peek_relative_bid (m : market) (e : engine) : result (option (market_order * price)) :=
  match ob_relative_bids (me_book e), mk_feed m with
  | (k, r) :: _, Some f =>
      let o := plain_order relative_bid_order k r in
      p ← get_price f o;
      Ok (if in_market m p then Some (o, p) else None)
  | _, _ => Ok None
  end.

(** The better of it and of the bid at the iterator. *)
Definition peek_bid (m : market) (e : engine) : result (option market_order) :=
  relative ← peek_relative_bid m e;
  Ok (match ob_bids (me_book e) with
      | (k, r) :: _ =>
          let o := plain_order bid_order k r in
          if in_market m (mo_price o) then
            match relative with
            | Some (rel, p) => if price_gtb (mo_price o) p then Some o else Some rel
            | None => Some o
            end
          else fst <$> relative
      | [] => fst <$> relative
      end).

(** A new bid is taken from the books. *)
Definition take_bid (m : market) (e : engine) : result (bool * engine) :=
  let e := set_me_bid None (set_me_filled (me_filled e + 1) e) in
  bid ← peek_bid m e;
  Ok (match bid with
      | Some o =>
          if bool_decide (mo_type o = relative_bid_order)
          then (true, set_me_bid (Some o) (upd_book (fun b => set_ob_relative_bids (tail (ob_relative_bids b)) b) e))
          else
            let bid_taken := set_me_bid (Some o) (upd_book (fun b => set_ob_bids (tail (ob_bids b)) b) e) in
            if under_feed m (mo_price o) then
              match get_next_short m e with
              | (true, e') => (true, e')
              | (false, _) => (true, bid_taken)
              end
            else (true, bid_taken)
      | None => get_next_short m e
      end).

(** [market_engine::get_next_bid] *)
Definition get_next_bid (m : market) (e : engine) : result (bool * engine) :=
  match me_bid e with
  | Some o =>
      q ← get_quantity null_price o;
      if amount q >? 0 then Ok (true, e) else take_bid m e
  | None => take_bid m e
  end.

(** The margin call at the iterator.  A position of the market that is not called
    is passed over; one of another market ends the iteration. *)
Definition next_margin_call (m : market) (e : engine) : bool * engine :=
  match me_bid e, ob_covers (me_book e) with
  | Some _, (k, r) :: rest =>
      if in_market m (mk_order_price k) then
        let e := upd_book (set_ob_covers rest) (set_me_collat r e) in
        if above_feed m (mk_order_price k) then (true, set_me_ask (Some (cover_of k r)) e) else (false, e)
      else (false, upd_book (set_ob_covers []) e)
  | _, _ => (false, e)
  end.

(** The expired positions; those called above are passed over. *)
Fixpoint next_expired (m : market) (now : Z) (l : list (Z * Z * market_index_key)) (e : engine)
    : result (bool * engine) :=
  match l with
  | [] => Ok (false, e)
  | (q, t, k) :: rest =>
      if negb (q =? mk_quote_id m) then Ok (false, e)
      else if t >? now then Ok (false, e)
      else
        r ← fetch (db_collateral (mk_db m)) k;
        let e := upd_book (set_ob_expired rest) e in
        if negb (above_feed m (mk_order_price k)) then Ok (true, set_me_ask (Some (cover_of k r)) e)
        else next_expired m now rest e
  end.

(** The ask at the iterator, which moves on in any case. *)
Definition next_plain_ask (m : market) (e : engine) : bool * engine :=
  match ob_asks (me_book e) with
  | (k, r) :: rest =>
      let e := upd_book (set_ob_asks rest) e in
      if in_market m (mk_order_price k)
      then (true, set_me_ask (Some (plain_order ask_order k r)) e) else (false, e)
  | [] => (false, e)
  end.

Definition take_ask (m : market) (e : engine) : result (bool * engine) :=
  let e := set_me_filled (me_filled e + 1) (set_me_ask None e) in
  match next_margin_call m e with
  | (true, e) => Ok (true, e)
  | (false, e) =>
      '(found, e) ← next_expired m (pending_now (me_state e)) (ob_expired (me_book e)) e;
      Ok (if found : bool then (true, e) else next_plain_ask m e)
  end.

(** [market_engine::get_next_ask] *)
Definition get_next_ask (m : market) (e : engine) : result (bool * engine) :=
  match me_ask e with
  | Some o => if mo_balance o >? 0 then Ok (true, e) else take_ask m e
  | None => take_ask m e
  end.

(** ** Payments *)

(** The payout every branch makes: the owner's balance of an asset grows. *)
Definition pay_out (owner id amt : Z) (p : pending_chain_state) : pending_chain_state :=
  let empty := balance_of_owner owner (mk_asset 0 id) 0 in
  let r := default empty (pending_get_balance_record p (balance_id empty)) in
  pending_store_balance_record
    (set_br_deposit_date (pending_now p)
       (set_br_last_update (pending_now p) (set_br_balance (wrap64 (br_balance r + amt)) r))) p.

Definition set_mt_amounts (bid_paid bid_received : asset) (short_collateral : option asset)
    (ask_paid ask_received : asset) (t : market_transaction) : market_transaction :=
  mk_market_trx (mt_bid_owner t) (mt_ask_owner t) (mt_bid_price t) (mt_ask_price t) bid_paid bid_received
    short_collateral ask_paid ask_received (mt_returned_collateral t) (mt_bid_type t) (mt_ask_type t)
    (mt_fees_collected t).
Definition set_mt_prices (bid ask : price) (t : market_transaction) : market_transaction :=
  mk_market_trx (mt_bid_owner t) (mt_ask_owner t) bid ask (mt_bid_paid t) (mt_bid_received t)
    (mt_short_collateral t) (mt_ask_paid t) (mt_ask_received t) (mt_returned_collateral t) (mt_bid_type t)
    (mt_ask_type t) (mt_fees_collected t).
Definition set_mt_short_collateral (c : asset) (t : market_transaction) : market_transaction :=
  set_mt_amounts (mt_bid_paid t) (mt_bid_received t) (Some c) (mt_ask_paid t) (mt_ask_received t) t.
Definition set_mt_fees (fees : asset) (returned : option asset) (t : market_transaction)
    : market_transaction :=
  mk_market_trx (mt_bid_owner t) (mt_ask_owner t) (mt_bid_price t) (mt_ask_price t) (mt_bid_paid t)
    (mt_bid_received t) (mt_short_collateral t) (mt_ask_paid t) (mt_ask_received t) returned (mt_bid_type t)
    (mt_ask_type t) fees.

Definition add_fees (v : Z) (r : asset_record) : asset_record :=
  set_as_collected_fees (wrap64 (as_collected_fees r + v)) r.
Definition add_supply (v : Z) (r : asset_record) : asset_record :=
  set_as_current_share_supply (wrap64 (as_current_share_supply r + v)) r.

(** The current bid with what it has left. *)
Definition spend_bid (v : Z) (o : market_order) : market_order :=
  set_mo_balance (wrap64 (mo_balance o - v)) o.

(** [market_engine::pay_current_bid] *)
Definition pay_current_bid (m : market) (t : market_transaction) (quote : asset_record) (e : engine)
    : result (asset_record * engine) :=
  o ← require (me_bid e) assertion_abort;
  _ ← fc_assert (bool_decide (mo_type o = bid_order) || bool_decide (mo_type o = relative_bid_order));
  _ ← fc_assert ((mt_bid_type t =? 1) || (mt_bid_type t =? 5));
  let o := spend_bid (amount (mt_bid_paid t)) o in
  _ ← fc_assert (mo_balance o >=? 0);
  let e := upd_state (pay_out (mt_bid_owner t) (mk_base_id m) (amount (mt_bid_received t))) e in
  left ← get_quote_quantity null_price o;
  worth ← asset_mul left (mt_bid_price t);
  let '(quote, o) :=
    if amount worth =? 0 then (add_fees (amount left) quote, set_mo_balance 0 o) else (quote, o) in
  let store := if bool_decide (mo_type o = bid_order) then pending_store_bid_record
               else pending_store_relative_bid_record in
  Ok (quote, set_me_bid (Some o) (upd_state (store (mo_index o) (mo_state o)) e)).

(** [market_engine::pay_current_ask]; the record it is passed gets the dust. *)
Definition pay_current_ask (m : market) (t : market_transaction) (dust : asset_record) (e : engine)
    : result (asset_record * engine) :=
  o ← require (me_ask e) assertion_abort;
  _ ← fc_assert (bool_decide (mo_type o = ask_order) || bool_decide (mo_type o = relative_ask_order));
  _ ← fc_assert ((mt_ask_type t =? 2) || (mt_ask_type t =? 6));
  let o := spend_bid (amount (mt_ask_paid t)) o in
  _ ← fc_assert (mo_balance o >=? 0);
  let e := upd_state (pay_out (mt_ask_owner t) (mk_quote_id m) (amount (mt_ask_received t))) e in
  left ← get_quantity null_price o;
  worth ← asset_mul left (mt_ask_price t);
  let '(dust, o) :=
    if amount worth =? 0 then (add_fees (amount left) dust, set_mo_balance 0 o) else (dust, o) in
  let store := if bool_decide (mo_type o = relative_ask_order) then pending_store_relative_ask_record
               else pending_store_ask_record in
  Ok (dust, set_me_ask (Some o) (upd_state (store (mo_index o) (mo_state o)) e)).

(** A small rest of a short goes into its collateral. *)
Definition round_collateral (base : asset_record) (bid_balance short_collateral : asset) : result asset :=
  rest ← asset_sub bid_balance short_collateral;
  if (wrapu64 (amount rest) <? as_precision base / 100) && asset_gtb bid_balance short_collateral
  then asset_add short_collateral rest else Ok short_collateral.

(** The position the short opens, or adds to. *)
Definition open_position (now : Z) (collateral owed : Z) (rate : price) (r : collateral_record)
    : collateral_record :=
  mk_collateral (wrap64 (cr_collateral_balance r + collateral)) (wrap64 (cr_payoff_balance r + owed)) rate
    (now + BTS_BLOCKCHAIN_MAX_SHORT_PERIOD_SEC).

(** [market_engine::pay_current_short] *)
Definition pay_current_short (t : market_transaction) (quote base : asset_record) (e : engine)
    : result (market_transaction * asset_record * engine) :=
  o ← require (me_bid e) assertion_abort;
  _ ← fc_assert (bool_decide (mo_type o = short_order));
  _ ← fc_assert (mt_bid_type t =? 3);
  bid_balance ← get_balance o;
  c ← require (mt_short_collateral t) assertion_abort;
  c ← round_collateral base bid_balance c;
  let t := set_mt_short_collateral c t in
  let quote := add_supply (amount (mt_bid_paid t)) quote in
  collateral ← asset_add c (mt_ask_paid t);
  if amount (mt_bid_paid t) <=? 0 then
    (_ ← fc_assert (amount (mt_bid_paid t) >=? 0);
     Ok (t, quote, set_me_bid (Some (spend_bid (amount c) o)) e))
  else
    let call_collateral := mk_asset (Z.quot (wrap64 (amount collateral * 2)) 3) (asset_id collateral) in
    (cover_price ← asset_div (mt_bid_paid t) call_collateral;
     let k := mk_market_key cover_price (mo_owner o) in
     let p := me_state e in
     let r := open_position (pending_now p) (amount collateral) (amount (mt_bid_paid t)) (mo_price o)
                (default null_collateral_record (pending_get_collateral_record p k)) in
     _ ← fc_assert (cr_payoff_balance r >=? 0);
     _ ← fc_assert (cr_collateral_balance r >=? 0);
     _ ← fc_assert (quote_asset_id (cr_interest_rate r) >? base_asset_id (cr_interest_rate r));
     let o := spend_bid (amount c) o in
     _ ← fc_assert (mo_balance o >=? 0);
     Ok (t, quote,
         set_me_bid (Some o)
           (upd_state (fun p => pending_store_short_record (mo_index o) (mo_state o)
                                  (pending_store_collateral_record k r p)) e))).

(** [market_engine::get_current_cover_age], [get_current_cover_debt] *)
Definition get_current_cover_age (e : engine) (o : market_order) : result Z :=
  expiration ← require (mo_expiration o) assertion_abort;
  Ok (wrapu32 (BTS_BLOCKCHAIN_MAX_SHORT_PERIOD_SEC - (expiration - pending_now (me_state e)))).
Definition get_current_cover_debt (e : engine) (o : market_order) : result asset :=
  principle ← get_balance o;
  age ← get_current_cover_age e o;
  interest ← get_interest_owed principle (cr_interest_rate (me_collat e)) age;
  asset_add interest principle.

(** How the payment splits, and the debt left. *)
Definition split_cover (t : market_transaction) (quote_id : Z) (e : engine) (o : market_order)
    : result (asset * asset * Z) :=
  let principle := mk_asset (cr_payoff_balance (me_collat e)) quote_id in
  age ← get_current_cover_age e o;
  total_debt ← get_current_cover_debt e o;
  if asset_geb (mt_ask_received t) total_debt then
    interest_paid ← asset_sub (mt_ask_received t) principle;
    Ok (principle, interest_paid, 0)
  else
    interest_paid ← get_interest_paid (mt_ask_received t) (cr_interest_rate (me_collat e)) age;
    principle_paid ← asset_sub (mt_ask_received t) interest_paid;
    Ok (principle_paid, interest_paid, wrap64 (mo_balance o - amount principle_paid)).

(** The collateral left of a position that is paid off goes home, less the fee of
    a margin call. *)
Definition return_collateral (m : market) (left : Z) (t : market_transaction) (e : engine) (o : market_order)
    : result (market_transaction * engine) :=
  let now := pending_now (me_state e) in
  '(left, fees) ←
    (if cr_expiration (me_collat e) >? now then
       let fee := Z.quot (wrap64 (left * 5000)) 100000 in
       _ ← fc_assert (amount (mt_fees_collected t) =? 0);
       fees ← asset_add (mt_fees_collected t) (mk_asset fee (mk_base_id m));
       Ok (wrap64 (left - fee), fees)
     else Ok (left, mt_fees_collected t));
  Ok (set_mt_fees fees (Some (mk_asset left 0)) t,
      upd_state (pay_out (mo_owner o) (mk_base_id m) left) e).

(** [market_engine::pay_current_cover] *)
Definition pay_current_cover (m : market) (t : market_transaction) (quote : asset_record) (e : engine)
    : result (market_transaction * asset_record * engine) :=
  o ← require (me_ask e) assertion_abort;
  _ ← fc_assert (bool_decide (mo_type o = cover_order));
  _ ← fc_assert (mt_ask_type t =? 4);
  let rate := cr_interest_rate (me_collat e) in
  _ ← fc_assert (quote_asset_id rate >? base_asset_id rate);
  '(principle_paid, interest_paid, payoff) ← split_cover t (as_id quote) e o;
  let o := set_mo_balance payoff o in
  _ ← fc_assert (amount principle_paid >=? 0);
  _ ← fc_assert (amount interest_paid >=? 0);
  _ ← fc_assert (mo_balance o >=? 0);
  c ← require (mo_collateral o) assertion_abort;
  let c := wrap64 (c - amount (mt_ask_paid t)) in
  _ ← fc_assert (c >=? 0);
  let quote := add_fees (amount interest_paid) (add_supply (- amount principle_paid) quote) in
  let '(quote, o) :=
    if c =? 0 then (add_fees (- mo_balance o) quote, set_mo_balance 0 o) else (quote, o) in
  '(t, c, e) ← (if (mo_balance o =? 0) && (c >? 0)
                then '(t, e) ← return_collateral m c t e o; Ok (t, 0, e)
                else Ok (t, c, e));
  let o := set_mo_collateral (Some c) o in
  let r := set_cr_payoff_balance (mo_balance o) (set_cr_collateral_balance c (me_collat e)) in
  Ok (t, quote,
      set_me_collat r (set_me_ask (Some o) (upd_state (pending_store_collateral_record (mo_index o) r) e))).

(** [market_engine::push_market_transaction]; what an automatic cancel pays is not
    checked. *)
Definition push_market_transaction (t : market_transaction) (e : engine) : result engine :=
  _ ← (if negb (amount (mt_ask_paid t) =? 0) || negb (amount (mt_ask_received t) =? 0)
          || negb (asset_id (mt_bid_received t) =? 0) || negb (amount (mt_bid_paid t) =? 0)
       then
         _ ← fc_assert (amount (mt_bid_paid t) >=? 0);
         _ ← fc_assert (amount (mt_ask_paid t) >=? 0);
         _ ← fc_assert (amount (mt_bid_received t) >=? 0);
         _ ← fc_assert (amount (mt_ask_received t) >=? 0);
         _ ← fc_assert (asset_geb (mt_bid_paid t) (mt_ask_received t));
         _ ← fc_assert (asset_geb (mt_ask_paid t) (mt_bid_received t));
         fc_assert (amount (mt_fees_collected t) >=? 0)
       else Ok tt);
  Ok (set_me_transactions (me_transactions e ++ [t]) e).

(** ** One pair of orders *)

(** [market_transaction()] *)
Definition null_asset : asset := mk_asset 0 0.
Definition null_market_trx : market_transaction :=
  mk_market_trx null_address null_address null_price null_price null_asset null_asset None
    null_asset null_asset None 0 0 null_asset.

(** The transaction the loop starts with. *)
Definition open_transaction (m : market) (bid ask : market_order) : result market_transaction :=
  let relative := default null_price (mk_feed m) in
  bid_price ← get_price relative bid;
  ask_price ← get_price relative ask;
  Ok (mk_market_trx (mo_owner bid) (mo_owner ask) bid_price ask_price null_asset null_asset None
        null_asset null_asset None (order_type_num (mo_type bid)) (order_type_num (mo_type ask)) null_asset).

(** What the loop does with a pair: it drops one of the two, ends, or matches them
    at the prices of the transaction. *)
Inductive verdict :=
| skip_bid
| skip_ask
| no_match
| matched (t : market_transaction).

(** [market_engine::minimum_ask] *)
Definition minimum_ask (feed : price) : price :=
  mk_price (wrapu128 (ratio feed * 9) / 10) (base_asset_id feed) (quote_asset_id feed).

(** A short or a relative bid over its limit is skipped; a short without a feed
    too.  Otherwise the price it bids. *)
Definition judge_bid (m : market) (quote : asset_record) (bid : market_order) (t : market_transaction)
    : result (option price) :=
  match mo_type bid with
  | short_order =>
      _ ← fc_assert (is_market_issued quote);
      Ok (f ← mk_feed m;
          match or_limit_price (mo_state bid) with
          | Some l => if price_ltb l (mt_ask_price t) then None else Some (price_min l f)
          | None => Some f
          end)
  | relative_bid_order =>
      Ok (match or_limit_price (mo_state bid) with
          | Some l => if price_ltb l (mt_ask_price t) then None else Some (mt_bid_price t)
          | None => Some (mt_bid_price t)
          end)
  | _ => Ok (Some (mt_bid_price t))
  end.

(** A relative ask under its limit is skipped, and a cover whose call price is not
    reached or that would sell too cheap; a cover sells at the bid's price. *)
Definition judge_ask (m : market) (quote : asset_record) (e : engine) (ask : market_order)
    (t : market_transaction) : result verdict :=
  let below_limit :=
    bool_decide (mo_type ask = relative_ask_order)
    && match or_limit_price (mo_state ask) with
       | Some l => price_gtb l (mt_ask_price t) | None => false end in
  if below_limit then Ok skip_ask
  else if bool_decide (mo_type ask = cover_order) then
    _ ← fc_assert (is_market_issued quote);
    Ok (match mk_feed m with
        | None => skip_ask
        | Some f =>
            if (price_ltb (mt_ask_price t) (mt_bid_price t)
                && (cr_expiration (me_collat e) >? pending_now (me_state e)))
               || price_ltb (mt_bid_price t) (minimum_ask f)
            then skip_ask
            else matched (set_mt_prices (mt_bid_price t) (mt_bid_price t) t)
        end)
  else Ok (if price_ltb (mt_bid_price t) (mt_ask_price t) then no_match else matched t).

Definition judge (m : market) (quote : asset_record) (e : engine) (bid ask : market_order)
    : result verdict :=
  t ← open_transaction m bid ask;
  bid_price ← judge_bid m quote bid t;
  match bid_price with
  | None => Ok skip_bid
  | Some p => judge_ask m quote e ask (set_mt_prices p (mt_ask_price t) t)
  end.

(** The amounts of a trade in which each side receives what the other pays. *)
Definition trade (paid_by_bid paid_by_ask : asset) (short_collateral : option asset)
    (t : market_transaction) : market_transaction :=
  set_mt_amounts paid_by_bid paid_by_ask short_collateral paid_by_ask paid_by_bid t.

(** [collateral_rate]: half the feed price, for two parts of the short's own to one
    of the sale's. *)
Definition collateral_rate (feed : price) : price :=
  mk_price (ratio feed / 2) (base_asset_id feed) (quote_asset_id feed).

(** What a cover can exchange with a seller of [for_sale], and the collateral it
    pays with: all of it where that is what bounds the trade. *)
Definition cover_amounts (m : market) (t : market_transaction) (e : engine) (ask : market_order)
    (for_sale : asset) : result (asset * asset) :=
  c ← require (mo_collateral ask) assertion_abort;
  let cover_collateral := mk_asset c (mk_base_id m) in
  afford ← asset_mul cover_collateral (mt_bid_price t);
  debt ← get_current_cover_debt e ask;
  let usd_exchanged := asset_min (asset_min for_sale afford) debt in
  ask_paid ← (if asset_eqb usd_exchanged afford then Ok cover_collateral
              else asset_mul usd_exchanged (mt_ask_price t));
  Ok (usd_exchanged, ask_paid).

Definition match_cover_short (m : market) (t : market_transaction) (quote base : asset_record) (e : engine)
    (bid ask : market_order) : result (market_transaction * asset_record * asset_record * engine) :=
  f ← require (mk_feed m) assertion_abort;
  bid_balance ← get_balance bid;
  for_sale ← asset_mul bid_balance (collateral_rate f);
  '(usd, ask_paid) ← cover_amounts m t e ask for_sale;
  c ← (if asset_eqb usd for_sale then Ok bid_balance else asset_mul usd (collateral_rate f));
  '(t, quote, e) ← pay_current_short (trade usd ask_paid (Some c) t) quote base e;
  '(t, quote, e) ← pay_current_cover m t quote e;
  Ok (t, quote, base, e).

Definition match_cover_bid (m : market) (t : market_transaction) (quote base : asset_record) (e : engine)
    (bid ask : market_order) : result (market_transaction * asset_record * asset_record * engine) :=
  for_sale ← get_balance bid;
  '(usd, ask_paid) ← cover_amounts m t e ask for_sale;
  let t := trade usd ask_paid (mt_short_collateral t) t in
  '(quote, e) ← pay_current_bid m t quote e;
  '(t, quote, e) ← pay_current_cover m t quote e;
  Ok (t, quote, base, e).

(** The dust of the ask goes to the record of the quote asset here. *)
Definition match_ask_short (m : market) (t : market_transaction) (quote base : asset_record) (e : engine)
    (bid ask : market_order) : result (market_transaction * asset_record * asset_record * engine) :=
  f ← require (mk_feed m) assertion_abort;
  ask_quantity_usd ← get_quote_quantity null_price ask;
  bid_balance ← get_balance bid;
  short_quantity_usd ← asset_mul bid_balance (collateral_rate f);
  let usd := asset_min short_quantity_usd ask_quantity_usd in
  '(ask_paid, c) ←
    (if asset_eqb usd short_quantity_usd
     then paid ← asset_mul usd (mt_ask_price t); Ok (paid, bid_balance)
     else paid ← get_balance ask; c ← asset_mul usd (collateral_rate f); Ok (paid, c));
  '(t, quote, e) ← pay_current_short (trade usd ask_paid (Some c) t) quote base e;
  '(quote, e) ← pay_current_ask m t quote e;
  Ok (t, quote, base, e).

Definition match_ask_bid (m : market) (t : market_transaction) (quote base : asset_record) (e : engine)
    (bid ask : market_order) : result (market_transaction * asset_record * asset_record * engine) :=
  bid_quantity ← get_quantity null_price bid;
  ask_quantity ← get_quantity null_price ask;
  let quantity := asset_min bid_quantity ask_quantity in
  ask_received ← asset_mul quantity (mt_ask_price t);
  exact ← asset_mul quantity (mt_bid_price t);
  bid_paid ← (if asset_eqb quantity bid_quantity then get_balance bid else Ok exact);
  ask_paid ← (if asset_eqb quantity ask_quantity then get_balance ask else Ok quantity);
  fees ← asset_sub bid_paid ask_received;
  let t := set_mt_fees fees (mt_returned_collateral t)
             (set_mt_amounts bid_paid quantity (mt_short_collateral t) ask_paid ask_received t) in
  '(quote, e) ← pay_current_bid m t quote e;
  '(base, e) ← pay_current_ask m t base e;
  Ok (t, quote, base, e).

(** The branches of the loop; the third tests the ask for [relative_bid_order]. *)
Definition match_orders (m : market) (t : market_transaction) (quote base : asset_record) (e : engine)
    (bid ask : market_order) : result (market_transaction * asset_record * asset_record * engine) :=
  match mo_type ask, mo_type bid with
  | cover_order, short_order => match_cover_short m t quote base e bid ask
  | cover_order, (bid_order | relative_bid_order) => match_cover_bid m t quote base e bid ask
  | (ask_order | relative_bid_order), short_order => match_ask_short m t quote base e bid ask
  | (ask_order | relative_ask_order), (bid_order | relative_bid_order) =>
      match_ask_bid m t quote base e bid ask
  | _, _ => Ok (t, quote, base, e)
  end.

(** ** The matching loop *)

(** The engine with the local variables of [execute]. *)
Record matching := mk_matching {
  mg_engine : engine;
  mg_quote : asset_record;
  mg_base : asset_record;
  mg_volume : asset;
  mg_opening : price;
  mg_closing : price;
  mg_last : Z
}.
Definition set_mg_engine (e : engine) (g : matching) : matching :=
  mk_matching e (mg_quote g) (mg_base g) (mg_volume g) (mg_opening g) (mg_closing g) (mg_last g).

(** After a match: the transaction is recorded, the volume, the prices and the fees
    are brought up to date. *)
Definition settle_match (t : market_transaction) (quote base : asset_record) (e : engine) (g : matching)
    : result matching :=
  e ← push_market_transaction t e;
  volume ← (if asset_id (mt_ask_received t) =? 0 then asset_add (mg_volume g) (mt_ask_received t)
            else if asset_id (mt_bid_received t) =? 0 then asset_add (mg_volume g) (mt_bid_received t)
            else Ok (mg_volume g));
  let opening := if price_eqb (mg_opening g) null_price then mt_bid_price t else mg_opening g in
  let fees := mt_fees_collected t in
  let '(quote, base) :=
    if asset_id fees =? as_id base then (quote, add_fees (amount fees) base)
    else if asset_id fees =? as_id quote then (add_fees (amount fees) quote, base)
    else (quote, base) in
  Ok (mk_matching e quote base volume opening (mt_bid_price t) (mg_last g)).

(** The body of the loop on the current bid and ask: [inl] goes on, [inr] leaves
    it. *)
Definition match_current (m : market) (g : matching) : result (matching + matching) :=
  let e := mg_engine g in
  bid ← require (me_bid e) assertion_abort;
  ask ← require (me_ask e) assertion_abort;
  v ← judge m (mg_quote g) e bid ask;
  match v with
  | skip_bid => Ok (inl (set_mg_engine (set_me_bid None e) g))
  | skip_ask => Ok (inl (set_mg_engine (set_me_ask None e) g))
  | no_match => Ok (inr g)
  | matched t =>
      '(t, quote, base, e) ← match_orders m t (mg_quote g) (mg_base g) e bid ask;
      g ← settle_match t quote base e g;
      Ok (inl g)
  end.

(** [while( get_next_bid() && get_next_ask() )], one turn *)
Definition turn (m : market) (g : matching) : result (matching + matching) :=
  '(found, e) ← get_next_bid m (mg_engine g);
  if negb found then Ok (inr (set_mg_engine e g))
  else
    '(found, e) ← get_next_ask m e;
    if negb found then Ok (inr (set_mg_engine e g))
    else
      _ ← fc_assert (negb (me_filled e =? mg_last g));
      match_current m (mk_matching e (mg_quote g) (mg_base g) (mg_volume g) (mg_opening g)
                         (mg_closing g) (me_filled e)).

(** The loop.  A turn after the first takes an order from the books or throws, so
    it ends within [loop_fuel] turns ([matching_terminates]). *)
Fixpoint match_loop (fuel : nat) (m : market) (g : matching) : result matching :=
  match fuel with
  | O => Err assertion_abort
  | S fuel =>
      next ← turn m g;
      match next with inl g => match_loop fuel m g | inr g => Ok g end
  end.

Definition book_size (b : order_book) : nat :=
  length (ob_bids b) + length (ob_relative_bids b) + length (ob_shorts b)
  + length (ob_asks b) + length (ob_covers b) + length (ob_expired b).
Definition loop_fuel (g : matching) : nat := book_size (me_book (mg_engine g)) + 2.

(** ** Market status and history *)

Definition set_mst_last_error (v : option error) (s : market_status) : market_status :=
  mk_market_status (mst_quote_id s) (mst_base_id s) (mst_current_feed_price s)
    (mst_last_valid_feed_price s) v (mst_ask_depth s) (mst_bid_depth s) (mst_center_price s).

(** The status of the market with the feed price and the outcome. *)
Definition note_status (quote_id base_id : Z) (feed : option price) (failure : option error)
    (p : pending_chain_state) : result pending_chain_state :=
  s ← match pending_get_market_status p (quote_id, base_id) with
      | Some s => Ok s
      | None => market_status_of quote_id base_id
      end;
  Ok (pending_store_market_status (set_mst_last_error failure (update_feed_price feed s)) p).

Definition each_block : Z := 0.
Definition each_hour : Z := 1.
Definition each_day : Z := 2.

(** [market_history_record::operator ==] *)
Definition history_eqb (a b : market_history_record) : bool :=
  price_eqb (hr_highest_bid a) (hr_highest_bid b) && price_eqb (hr_lowest_ask a) (hr_lowest_ask b)
  && (hr_volume a =? hr_volume b).

(** The market's last record per block before [t]: keys are ordered by market,
    granularity and time, so if the entry before the key of [t] is one of the
    market's, it is the latest of them. *)
Definition later_entry (best : option (Z * market_history_record)) (x : Z * market_history_record)
    : option (Z * market_history_record) :=
  match best with Some (t, r) => if t <? x.1 then Some x else best | None => Some x end.
Definition last_block_record (m : market) (t : Z) : option market_history_record :=
  snd <$> foldl later_entry None
    (omap (fun kr : market_history_key * market_history_record =>
             let '(k, r) := kr in
             if (hk_quote_id k =? mk_quote_id m) && (hk_base_id k =? mk_base_id m)
                && (hk_granularity k =? each_block) && (hk_timestamp k <? t)
             then Some (hk_timestamp k, r) else None)
       (map_to_list (db_market_history (mk_db m)))).

(** The record of the hour or of the day.  A stored one is only written back when
    the block widens its range. *)
Definition merge_history (m : market) (granularity start : Z) (new : market_history_record)
    (p : pending_chain_state) : pending_chain_state :=
  let k := mk_history_key (mk_quote_id m) (mk_base_id m) granularity start in
  match db_market_history (mk_db m) !! k with
  | Some old =>
      if price_gtb (hr_highest_bid new) (hr_highest_bid old)
         || price_ltb (hr_lowest_ask new) (hr_lowest_ask old)
      then pending_store_market_history_record k
             (mk_history (price_max (hr_highest_bid new) (hr_highest_bid old))
                (price_min (hr_lowest_ask new) (hr_lowest_ask old))
                (hr_opening_price old) (hr_closing_price new)
                (wrap64 (hr_volume old + hr_volume new))) p
      else p
  | None => pending_store_market_history_record k new p
  end.

(** [market_engine::update_market_history] *)
Definition update_market_history (m : market) (timestamp : Z) (g : matching) : result engine :=
  let e := mg_engine g in
  if amount (mg_volume g) <=? 0 then Ok e
  else
    '(found, e) ← get_next_bid m e;
    if negb found then Ok e
    else
      '(found, e) ← get_next_ask m e;
      if negb found then Ok e
      else
        bid ← require (me_bid e) assertion_abort;
        ask ← require (me_ask e) assertion_abort;
        highest_bid ← get_price null_price bid;
        lowest_ask ← get_price null_price ask;
        let new := mk_history highest_bid lowest_ask (mg_opening g) (mg_closing g) (amount (mg_volume g)) in
        let key := mk_history_key (mk_quote_id m) (mk_base_id m) each_block timestamp in
        let same := match last_block_record m (db_now (mk_db m)) with
                    | Some r => history_eqb r new | None => false end in
        Ok (upd_state (fun p =>
              merge_history m each_day (timestamp - timestamp mod 86400) new
                (merge_history m each_hour (timestamp - timestamp mod 3600) new
                   (if same then p else pending_store_market_history_record key new p))) e).

(** ** Running a market *)

(** The members of a new engine over the block's state. *)
Definition new_engine (prior : pending_chain_state) (book : order_book) : engine :=
  mk_engine (new_pending (Some (pending_view prior))) None None null_collateral_record 0 [] book.

(** The body of [execute] from the feed price on. *)
Definition run_market (m : market) (timestamp : Z) (quote base : asset_record) (e : engine) : result engine :=
  let status := pending_get_market_status (me_state e) (mk_quote_id m, mk_base_id m) in
  _ ← (if is_market_issued quote && (as_id base =? 0)
          && bool_decide ((status ≫= mst_last_valid_feed_price) = None) && bool_decide (mk_feed m = None)
       then Err insufficient_feeds else Ok tt);
  '(_, e) ← get_next_bid m e;
  '(_, e) ← get_next_ask m e;
  let g := mk_matching e quote base (mk_asset 0 (mk_base_id m)) null_price null_price (-1) in
  g ← match_loop (loop_fuel g) m g;
  let e := upd_state (fun p => pending_store_asset_record (mg_base g)
                                 (pending_store_asset_record (mg_quote g) p)) (mg_engine g) in
  p ← note_status (mk_quote_id m) (mk_base_id m) (mk_feed m) None (me_state e);
  update_market_history m timestamp (set_mg_engine (set_me_state p e) g).

(** The body of the [try]: the feed price if it is known by then, and the engine
    or the exception. *)
Definition try_market (db : chain_database) (quote_id base_id timestamp : Z) (prior : pending_chain_state)
    : option price * result engine :=
  let e := new_engine prior (open_book quote_id base_id db) in
  let start :=
    (quote ← require (pending_get_asset_record (me_state e) quote_id) assert_exception;
     base ← require (pending_get_asset_record (me_state e) base_id) assert_exception;
     _ ← fc_assert (negb (is_market_frozen quote));
     _ ← fc_assert (negb (is_market_frozen base));
     feed ← db_get_median_delegate_price db quote_id base_id;
     Ok (quote, base, feed)) in
  match start with
  | Ok (quote, base, feed) =>
      (feed, run_market (mk_market db quote_id base_id feed) timestamp quote base e)
  | Err x => (None, Err x)
  end.

(** [market_engine::execute]: the changes are applied to the block's state, or the
    error is noted there. *)
Definition execute (db : chain_database) (quote_id base_id timestamp : Z) (prior : pending_chain_state)
    : result (pending_chain_state * list market_transaction) :=
  let '(feed, outcome) := try_market db quote_id base_id timestamp prior in
  let '(prior, failure) :=
    match outcome with
    | Ok e => run_steps (apply_changes_steps (me_state e)) prior
    | Err x => (prior, Some x)
    end in
  match outcome, failure with
  | Ok e, None => Ok (prior, me_transactions e)
  | _, Some x =>
      if is_abort x then Err x
      else p ← note_status quote_id base_id feed (Some x) prior; Ok (p, [])
  | Err x, None => Err x
  end.

(** ** Cancelling shorts *)

(** [market_engine::cancel_current_short] *)
Definition cancel_current_short (t : market_transaction) (quote_id : Z) (e : engine)
    : result (market_transaction * engine) :=
  o ← require (me_bid e) assertion_abort;
  _ ← fc_assert (bool_decide (mo_type o = short_order));
  _ ← fc_assert (mt_bid_type t =? 3);
  refund ← get_balance o;
  let t := set_mt_amounts (mk_asset 0 quote_id) refund None null_asset (mk_asset 0 quote_id) t in
  let o' := set_mo_balance 0 o in
  Ok (t, set_me_bid (Some o')
           (upd_state (fun p => pending_store_short_record (mo_index o') (mo_state o')
                                  (pay_out (mt_bid_owner t) 0 (amount refund) p)) e)).

Definition cancel_short (e : engine) (kr : market_index_key * order_record) : result engine :=
  let '(k, r) := kr in
  let o := plain_order short_order k r in
  let t := mk_market_trx (mo_owner o) null_address null_price null_price null_asset null_asset None
             null_asset null_asset None (order_type_num short_order) 0 null_asset in
  '(t, e) ← cancel_current_short t (quote_asset_id (mk_order_price k)) (set_me_bid (Some o) e);
  push_market_transaction t e.

(** [market_engine::cancel_all_shorts] *)
Definition cancel_all_shorts (db : chain_database) (prior : pending_chain_state)
    : result (pending_chain_state * list market_transaction) :=
  e ← fold_result cancel_short (new_engine prior (mk_book [] [] [] [] [] [])) (sorted_entries (db_shorts db));
  prior ← apply_changes (me_state e) prior;
  Ok (prior, me_transactions e).
End engine.
