(* ===== verification/EngineFacts.v ===== *)
(** * EngineFacts: the market engine ends and keeps to its interface

    [matching_terminates] shows that the matching loop ends within the fuel the
    model gives it; [execute_grown] that the engine changes the block's state by
    update methods only, which is what the chain relies on of an engine
    ([with_current_engine]). *)
From S2P Require Import Prelude Config Fc Asset Records ChainInterface PendingState ChainDatabase.
From S2P Require Import MarketOps Apply Invariants Blocks Forks Chain ChainFacts OrderBook Engine.

(** ** Changes of the books *)

(** The books after a call: nothing is put back, and one that counts an order as
    filled and finds another has taken it. *)
Definition shrinks (e e' : engine) : Prop :=
  (book_size (me_book e') <= book_size (me_book e))%nat.
Definition takes (e e' : engine) : Prop :=
  (book_size (me_book e') < book_size (me_book e))%nat.

(** An engine with the same books and count. *)
Definition same_book (e e' : engine) : Prop :=
  me_book e' = me_book e /\ me_filled e' = me_filled e.

Lemma same_book_trans e1 e2 e3 : same_book e1 e2 -> same_book e2 e3 -> same_book e1 e3.
Proof. unfold same_book. intros [? ?] [? ?]. split; congruence. Qed.

Section engine.
Context `{Crypto} `{FcNum} `{FcReal}.

(** Compares the sizes of books, with the list an order was taken from. *)
Ltac book :=
  unfold shrinks, takes, book_size in *; cbn in *;
  repeat match goal with Hl : _ (me_book _) = _ :: _ |- _ => rewrite Hl in *; clear Hl end; cbn in *; lia.

Lemma get_next_short_takes m e e' : get_next_short m e = (true, e') -> takes e e'.
Proof. unfold get_next_short. repeat case_match; intros [= <-]. book. Qed.

Lemma peek_relative_bid_type m e o p :
  peek_relative_bid m e = Ok (Some (o, p)) ->
  mo_type o = relative_bid_order /\ ob_relative_bids (me_book e) <> [].
Proof. unfold peek_relative_bid. repeat case_match; intros; inv_ok; simplify_eq; by case_match; simplify_eq. Qed.

(** The bid at hand comes from the book its type says. *)
Lemma peek_bid_book m e o :
  peek_bid m e = Ok (Some o) ->
  (mo_type o = relative_bid_order /\ ob_relative_bids (me_book e) <> []) \/
  (mo_type o = bid_order /\ ob_bids (me_book e) <> []).
Proof.
  unfold peek_bid. intros (r & Hr & Hb)%bind_Ok.
  assert (Hrel : forall o, fst <$> r = Some o ->
    mo_type o = relative_bid_order /\ ob_relative_bids (me_book e) <> []).
  { intros o' Ho. destruct r as [[o1 p1]|]; [|done]. injection Ho as <-.
    by apply peek_relative_bid_type in Hr. }
  inv_ok. destruct (ob_bids (me_book e)) as [|[k rec] l] eqn:Hl; [by left; apply Hrel|].
  case_match; [|by left; apply Hrel].
  destruct r as [[o1 p1]|]; [case_match|]; simplify_eq; auto.
Qed.

Lemma take_bid_takes m e e' : take_bid m e = Ok (true, e') -> takes e e'.
Proof.
  unfold take_bid. intros (b & Hb & Ht)%bind_Ok. inv_ok.
  destruct b as [o|]; [|by apply get_next_short_takes in Ht; book].
  apply peek_bid_book in Hb. case_bool_decide as Ho.
  - simplify_eq. destruct Hb as [[_ Hb]|[? _]]; [|congruence]. cbn in Hb.
    destruct (ob_relative_bids (me_book e)) eqn:E; [done|]. book.
  - destruct Hb as [[? _]|[_ Hb]]; [congruence|]. cbn in Hb.
    destruct (ob_bids (me_book e)) eqn:E; [done|].
    assert (Hb' : forall f, takes e (set_me_bid f (upd_book (fun b => set_ob_bids (tail (ob_bids b)) b)
      (set_me_bid None (set_me_filled (me_filled e + 1) e))))).
    { intros f. book. }
    case_match; [|by simplify_eq]. destruct (get_next_short _ _) as [[] e1] eqn:Es; simplify_eq; [|done].
    by apply get_next_short_takes in Es.
Qed.

Lemma get_next_bid_cases m e e' : get_next_bid m e = Ok (true, e') -> e' = e \/ takes e e'.
Proof.
  unfold get_next_bid. intros Hg. destruct (me_bid e); inv_ok; [|by right; apply take_bid_takes in Hg].
  case_match; [by inv_ok; left|by right; apply take_bid_takes in Hg].
Qed.

Lemma next_margin_call_book m e b e' :
  next_margin_call m e = (b, e') -> if b : bool then takes e e' else shrinks e e'.
Proof.
  unfold next_margin_call. repeat case_match; intros Hn; simplify_eq; book.
Qed.

Lemma next_expired_book m now l e b e' :
  next_expired m now l e = Ok (b, e') -> l = ob_expired (me_book e) ->
  if b : bool then takes e e' else shrinks e e'.
Proof.
  revert e. induction l as [|[[q t] k] l IH]; intros e; cbn; [intros [= <- <-] _; book|].
  destruct (q =? _); [|intros [= <- <-] _; book]. destruct (t >? now); [intros [= <- <-] _; book|].
  cbn. intros (r & _ & Hn)%bind_Ok Hl.
  assert (Ht : takes e (upd_book (set_ob_expired l) e)).
  { symmetry in Hl. book. }
  case_match; [by inv_ok|]. apply IH in Hn; [|done]. destruct b; unfold takes, shrinks in *; lia.
Qed.

Lemma next_plain_ask_takes m e e' : next_plain_ask m e = (true, e') -> takes e e'.
Proof.
  unfold next_plain_ask. destruct (ob_asks (me_book e)) as [|[k r] l] eqn:E; [done|]. case_match; [|done].
  intros [= <-]. book.
Qed.

Lemma take_ask_takes m e e' : take_ask m e = Ok (true, e') -> takes e e'.
Proof.
  unfold take_ask.
  destruct (next_margin_call _ _) as [[] e1] eqn:E1; apply next_margin_call_book in E1;
    [by intros [= <-]|].
  intros ((b & e2) & H2 & H3)%bind_Ok. apply next_expired_book in H2; [|done]. inv_ok.
  destruct b; [simplify_eq; book|]. apply next_plain_ask_takes in H3. book.
Qed.

Lemma get_next_ask_cases m e e' : get_next_ask m e = Ok (true, e') -> e' = e \/ takes e e'.
Proof.
  unfold get_next_ask. intros Hg. destruct (me_ask e); [|by right; apply take_ask_takes in Hg].
  case_match; [by inv_ok; left|by right; apply take_ask_takes in Hg].
Qed.

(** ** Payments leave the books alone *)

Lemma pay_current_bid_book m t quote e quote' e' :
  pay_current_bid m t quote e = Ok (quote', e') -> same_book e e'.
Proof. unfold pay_current_bid. intros Hp. inv_ok. repeat case_match; inv_ok; done. Qed.
Lemma pay_current_ask_book m t dust e dust' e' :
  pay_current_ask m t dust e = Ok (dust', e') -> same_book e e'.
Proof. unfold pay_current_ask. intros Hp. inv_ok. repeat case_match; inv_ok; done. Qed.
Lemma pay_current_short_book t quote base e t' quote' e' :
  pay_current_short t quote base e = Ok (t', quote', e') -> same_book e e'.
Proof. unfold pay_current_short. intros Hp. inv_ok. case_match; inv_ok; done. Qed.
Lemma pay_current_cover_book m t quote e t' quote' e' :
  pay_current_cover m t quote e = Ok (t', quote', e') -> same_book e e'.
Proof.
  unfold pay_current_cover, return_collateral. intros Hp. inv_ok. repeat case_match; inv_ok; done.
Qed.
Lemma push_market_transaction_book t e e' : push_market_transaction t e = Ok e' -> same_book e e'.
Proof. unfold push_market_transaction. intros Hp. inv_ok. done. Qed.

Lemma match_orders_book m t quote base e bid ask t' quote' base' e' :
  match_orders m t quote base e bid ask = Ok (t', quote', base', e') -> same_book e e'.
Proof.
  unfold match_orders, match_cover_short, match_cover_bid, match_ask_short, match_ask_bid.
  intros Hm. repeat case_match; inv_ok;
    eauto using same_book_trans, pay_current_bid_book, pay_current_ask_book, pay_current_short_book,
      pay_current_cover_book; done.
Qed.

Lemma settle_match_book t quote base e g g' :
  settle_match t quote base e g = Ok g' -> same_book e (mg_engine g') /\ mg_last g' = mg_last g.
Proof.
  unfold settle_match. intros (e' & He & Hs)%bind_Ok. apply push_market_transaction_book in He. inv_ok.
  by repeat case_match; inv_ok.
Qed.

Lemma match_current_book m g g' :
  match_current m g = Ok (inl g') -> same_book (mg_engine g) (mg_engine g') /\ mg_last g' = mg_last g.
Proof.
  unfold match_current. intros Hm. inv_ok. case_match; inv_ok; simplify_eq; try done.
  match goal with Hs : settle_match _ _ _ _ _ = _ |- _ => apply settle_match_book in Hs as [Hs ?] end.
  eauto using same_book_trans, match_orders_book.
Qed.

(** ** Termination *)

(** What a turn uses up: the orders left, and one more while the count has moved
    since the last turn. *)
Definition turns_left (g : matching) : nat :=
  book_size (me_book (mg_engine g)) + (if me_filled (mg_engine g) =? mg_last g then 0 else 1).

Lemma turn_decreases m g g' : turn m g = Ok (inl g') -> (turns_left g' < turns_left g)%nat.
Proof.
  unfold turn. intros ((b1 & e1) & Hx & Ht)%bind_Ok. destruct b1; [|done]. cbn in Ht.
  apply bind_Ok in Ht as ((b2 & e2) & Hy & Ht). destruct b2; [|done]. cbn in Ht.
  apply bind_Ok in Ht as (_ & Hf%fc_assert_Ok%negb_true_iff & Hm).
  apply match_current_book in Hm as [[Hb Hn] Hl]. cbn in Hb, Hn, Hl.
  unfold turns_left. rewrite Hb, Hn, Hl, Z.eqb_refl.
  apply get_next_bid_cases in Hx. apply get_next_ask_cases in Hy. unfold takes in *.
  destruct Hx as [->|Hx], Hy as [->|Hy]; [rewrite Hf|..]; lia.
Qed.

(** The loop as the code has it, without fuel. *)
Inductive loop_runs (m : market) (g : matching) : result matching -> Prop :=
| loop_throws e : turn m g = Err e -> loop_runs m g (Err e)
| loop_leaves g' : turn m g = Ok (inr g') -> loop_runs m g (Ok g')
| loop_turns g' r : turn m g = Ok (inl g') -> loop_runs m g' r -> loop_runs m g r.

Lemma match_loop_runs fuel m g :
  (turns_left g < fuel)%nat -> loop_runs m g (match_loop fuel m g).
Proof.
  revert g. induction fuel as [|fuel IH]; intros g Hg; [lia|]. cbn.
  destruct (turn m g) as [[g'|g']|e] eqn:Ht; cbn; [|by apply loop_leaves|by apply loop_throws].
  eapply loop_turns; [done|]. apply IH. apply turn_decreases in Ht. lia.
Qed.

(** C29: The matching loop of a market always ends: in any state, whatever the orders
    are, the code's loop (not cut short by any fuel) reaches an end, by a spread, an
    empty book or an exception, and that is the result of the model's loop with
    two turns more than there are orders left in the books. *)
Theorem matching_terminates m g : loop_runs m g (match_loop (loop_fuel g) m g).
Proof. apply match_loop_runs. unfold turns_left, loop_fuel. case_match; lia. Qed.

(** ** The engine changes states by update methods *)

(** Taking orders leaves the state alone. *)
Lemma get_next_short_state m e b e' : get_next_short m e = (b, e') -> me_state e' = me_state e.
Proof. unfold get_next_short. repeat case_match; by intros [= _ <-]. Qed.

Lemma get_next_bid_state m e b e' : get_next_bid m e = Ok (b, e') -> me_state e' = me_state e.
Proof.
  assert (Ht : take_bid m e = Ok (b, e') -> me_state e' = me_state e).
  { unfold take_bid. intros (o & _ & Ht)%bind_Ok. inv_ok. destruct o as [o|];
      [|by apply get_next_short_state in Ht].
    repeat case_match; simplify_eq; try done.
    by match goal with Hs : get_next_short _ _ = _ |- _ => apply get_next_short_state in Hs end. }
  unfold get_next_bid. intros Hg. destruct (me_bid e); inv_ok; [|by apply Ht].
  case_match; [by inv_ok|by apply Ht].
Qed.

Lemma next_expired_state m now l e b e' :
  next_expired m now l e = Ok (b, e') -> me_state e' = me_state e.
Proof.
  revert e. induction l as [|[[q t] k] l IH]; intros e; cbn; [by intros [= _ <-]|].
  repeat (case_match; [by intros [= _ <-]|] || (case_match; [|by intros [= _ <-]])).
  intros (r & _ & Hn)%bind_Ok. case_match; [by inv_ok|]. by apply IH in Hn.
Qed.

Lemma get_next_ask_state m e b e' : get_next_ask m e = Ok (b, e') -> me_state e' = me_state e.
Proof.
  assert (Ht : take_ask m e = Ok (b, e') -> me_state e' = me_state e).
  { unfold take_ask. destruct (next_margin_call _ _) as [c e1] eqn:E1.
    assert (He1 : me_state e1 = me_state e).
    { revert E1. unfold next_margin_call. repeat case_match; by intros [= _ <-]. }
    destruct c; [by intros [= _ <-]|]. intros ((x & e2) & Hx & Hb)%bind_Ok.
    apply next_expired_state in Hx. inv_ok. destruct x; simplify_eq; [congruence|].
    unfold next_plain_ask in Hb. repeat case_match; simplify_eq; cbn; congruence. }
  unfold get_next_ask. intros Hg. destruct (me_ask e); [|by apply Ht].
  case_match; [by inv_ok|by apply Ht].
Qed.

(** A property of states the update methods the engine uses keep. *)
Class EngineInvariant (P : pending_chain_state -> Prop) : Prop := {
  ei_asset r p : P p -> P (pending_store_asset_record r p);
  ei_balance r p : P p -> P (pending_store_balance_record r p);
  ei_bid k r p : P p -> P (pending_store_bid_record k r p);
  ei_relative_bid k r p : P p -> P (pending_store_relative_bid_record k r p);
  ei_ask k r p : P p -> P (pending_store_ask_record k r p);
  ei_relative_ask k r p : P p -> P (pending_store_relative_ask_record k r p);
  ei_short k r p : P p -> P (pending_store_short_record k r p);
  ei_collateral k r p : P p -> P (pending_store_collateral_record k r p);
  ei_history k r p : P p -> P (pending_store_market_history_record k r p);
  ei_status s p : P p -> P (pending_store_market_status s p)
}.
Create HintDb engine.

(** The payments, the settlement and the records at the end keep it. *)
Section invariant.
Context (P : pending_chain_state -> Prop) {EI : EngineInvariant P}.
#[local] Set Default Proof Using "All".
Let kept (e : engine) : Prop := P (me_state e).
#[local] Hint Extern 1 (P _) =>
  first [ apply ei_asset | apply ei_balance | apply ei_bid | apply ei_relative_bid | apply ei_ask
        | apply ei_relative_ask | apply ei_short | apply ei_collateral | apply ei_history
        | apply ei_status ] : engine.

Lemma pay_out_keeps owner id amt p : P p -> P (pay_out owner id amt p).
Proof. intros Hp. unfold pay_out. auto with engine. Qed.
#[local] Hint Resolve pay_out_keeps : engine.

Lemma pay_current_bid_keeps m t quote e quote' e' :
  pay_current_bid m t quote e = Ok (quote', e') -> kept e -> kept e'.
Proof.
  unfold pay_current_bid, kept. intros Hp He. inv_ok. repeat case_match; inv_ok; cbn; auto with engine.
Qed.
Lemma pay_current_ask_keeps m t dust e dust' e' :
  pay_current_ask m t dust e = Ok (dust', e') -> kept e -> kept e'.
Proof.
  unfold pay_current_ask, kept. intros Hp He. inv_ok. repeat case_match; inv_ok; cbn; auto with engine.
Qed.
Lemma pay_current_short_keeps t quote base e t' quote' e' :
  pay_current_short t quote base e = Ok (t', quote', e') -> kept e -> kept e'.
Proof. unfold pay_current_short, kept. intros Hp He. inv_ok. case_match; inv_ok; cbn; auto with engine. Qed.
Lemma pay_current_cover_keeps m t quote e t' quote' e' :
  pay_current_cover m t quote e = Ok (t', quote', e') -> kept e -> kept e'.
Proof.
  unfold pay_current_cover, return_collateral, kept. intros Hp He. inv_ok.
  repeat case_match; inv_ok; cbn; auto with engine.
Qed.

Lemma match_orders_keeps m t quote base e bid ask t' quote' base' e' :
  match_orders m t quote base e bid ask = Ok (t', quote', base', e') -> kept e -> kept e'.
Proof.
  unfold match_orders, match_cover_short, match_cover_bid, match_ask_short, match_ask_bid.
  intros Hm He. repeat case_match; inv_ok;
    eauto using pay_current_bid_keeps, pay_current_ask_keeps, pay_current_short_keeps,
      pay_current_cover_keeps.
Qed.

Lemma settle_match_state t quote base e g g' :
  settle_match t quote base e g = Ok g' -> me_state (mg_engine g') = me_state e.
Proof.
  unfold settle_match, push_market_transaction. intros Hs. inv_ok. by repeat case_match; inv_ok.
Qed.

Lemma match_current_keeps m g x :
  match_current m g = Ok x -> kept (mg_engine g) ->
  kept (match x with inl g' | inr g' => mg_engine g' end).
Proof.
  unfold match_current. intros Hm He. inv_ok. case_match; inv_ok; try done.
  unfold kept. erewrite settle_match_state by eassumption.
  by eapply match_orders_keeps; [eassumption|].
Qed.

Lemma kept_same e e' : me_state e' = me_state e -> kept e -> kept e'.
Proof. unfold kept. by intros ->. Qed.

Lemma turn_keeps m g x :
  turn m g = Ok x -> kept (mg_engine g) -> kept (match x with inl g' | inr g' => mg_engine g' end).
Proof.
  unfold turn. intros ((b & e1) & Hx%get_next_bid_state & Ht)%bind_Ok He.
  apply (kept_same _ e1) in He; [|done]. destruct b; cbn in Ht; [|by inv_ok].
  apply bind_Ok in Ht as ((b & e2) & Hy%get_next_ask_state & Ht).
  apply (kept_same _ e2) in He; [|done]. destruct b; cbn in Ht; inv_ok; [|done].
  by eapply match_current_keeps; [eassumption|].
Qed.

Lemma match_loop_keeps fuel m g g' :
  match_loop fuel m g = Ok g' -> kept (mg_engine g) -> kept (mg_engine g').
Proof.
  revert g. induction fuel as [|fuel IH]; intros g; cbn; [done|].
  intros ([g1|g1] & Ht & Hl)%bind_Ok He; apply turn_keeps in Ht; [by eapply IH|done|by inv_ok|done].
Qed.

Lemma note_status_keeps q b feed x p p' : note_status q b feed x p = Ok p' -> P p -> P p'.
Proof. unfold note_status. intros Hn Hp. inv_ok. auto with engine. Qed.

Lemma merge_history_keeps m g s r p : P p -> P (merge_history m g s r p).
Proof. unfold merge_history. intros Hp. repeat case_match; auto with engine. Qed.

Lemma update_market_history_keeps m t g e :
  update_market_history m t g = Ok e -> kept (mg_engine g) -> kept e.
Proof.
  unfold update_market_history. intros Hu He. case_match; [by inv_ok|].
  apply bind_Ok in Hu as ((b & e1) & Hx%get_next_bid_state & Hu).
  apply (kept_same _ e1) in He; [|done]. destruct b; cbn in Hu; [|by inv_ok].
  apply bind_Ok in Hu as ((b & e2) & Hy%get_next_ask_state & Hu).
  apply (kept_same _ e2) in He; [|done]. destruct b; cbn in Hu; inv_ok; [|done].
  unfold kept. cbn. apply merge_history_keeps, merge_history_keeps. case_match; auto with engine.
Qed.

Lemma run_market_keeps m t quote base e e' :
  run_market m t quote base e = Ok e' -> kept e -> kept e'.
Proof.
  unfold run_market. intros (_ & _ & Hr)%bind_Ok He.
  apply bind_Ok in Hr as ((b & e1) & Hx%get_next_bid_state & Hr).
  apply bind_Ok in Hr as ((b' & e2) & Hy%get_next_ask_state & Hr).
  apply (kept_same _ e1) in He; [|done]. apply (kept_same _ e2) in He; [|done].
  apply bind_Ok in Hr as (g & Hl%match_loop_keeps & Hr); [|done].
  apply bind_Ok in Hr as (p & Hp%note_status_keeps & Hr); [|by cbn; auto with engine].
  by eapply update_market_history_keeps; [eassumption|].
Qed.

Lemma cancel_short_keeps e x e' : kept e -> cancel_short e x = Ok e' -> kept e'.
Proof.
  destruct x as [k r]. unfold cancel_short, cancel_current_short, push_market_transaction, kept.
  intros He Hc. inv_ok. cbn. auto with engine.
Qed.
End invariant.

#[export] Instance grown_engine_invariant p0 : EngineInvariant (grown p0).
Proof. split; intros; (eapply grown_step; [by econstructor|reflexivity|done]). Qed.

Section grown.
Variable p0 : pending_chain_state.
#[local] Hint Extern 1 (grown _ (_ _ _)) =>
  eapply grown_step; [by econstructor|reflexivity|] : engine.
#[local] Hint Extern 1 (grown _ (_ _ _ _)) =>
  eapply grown_step; [by econstructor|reflexivity|] : engine.

(** Applying a state's changes to another, cut short or not. *)
Definition keeps_grown (f : pending_chain_state -> result pending_chain_state) : Prop :=
  forall p p', f p = Ok p' -> grown p0 p -> grown p0 p'.

Lemma run_steps_grown l p : Forall keeps_grown l -> grown p0 p -> grown p0 (run_steps l p).1.
Proof.
  intros Hl. revert p. induction Hl as [|f l Hf _ IH]; intros p Hp; cbn; [done|].
  destruct (f p) eqn:E; [|done]. eauto.
Qed.

Lemma map_steps_grown {K V} `{Countable K} (f : K -> V -> pending_chain_state -> result pending_chain_state)
    (m : gmap K V) :
  (forall k v, keeps_grown (f k v)) -> Forall keeps_grown (map_steps f m).
Proof. intros Hf. apply Forall_fmap, Forall_true. intros [k v]. apply Hf. Qed.

Lemma recent_operations_grown l p :
  grown p0 p -> grown p0 (foldl (fun p o => pending_store_recent_operation o p) p l).
Proof. revert p. induction l as [|o l IH]; intros p Hp; cbn; [done|]. apply IH. auto with engine. Qed.

Lemma apply_changes_grown q p : grown p0 p -> grown p0 (run_steps (apply_changes_steps q) p).1.
Proof.
  apply run_steps_grown. unfold apply_changes_steps. destruct (ps_prev q); [|done].
  repeat (apply Forall_app; split; [apply map_steps_grown; intros k v|]);
    [..|apply Forall_cons_2; [|apply Forall_cons_2; [|by apply Forall_nil_2]]]; intros p1 p2 Hp1 Hp; cbn in Hp1.
  all: try (injection Hp1 as <-); auto with engine.
  - by eapply grown_account.
  - by eapply grown_transaction.
  - by apply recent_operations_grown.
Qed.

(** The two calls of the chain. *)
Lemma execute_grown db q b t p p' l : execute db q b t p = Ok (p', l) -> grown p0 p -> grown p0 p'.
Proof.
  unfold execute. destruct (try_market _ _ _ _ _) as [feed o]. intros He Hp.
  destruct o as [e|x]; [|case_match; inv_ok; by eapply (note_status_keeps (grown p0))].
  pose proof (apply_changes_grown (me_state e) p Hp) as Ha.
  destruct (run_steps _ _) as [p1 [x|]]; cbn in *; [case_match; inv_ok; by eapply (note_status_keeps (grown p0))|].
  by inv_ok.
Qed.

Lemma cancel_all_shorts_grown db p p' l : cancel_all_shorts db p = Ok (p', l) -> grown p0 p -> grown p0 p'.
Proof.
  unfold cancel_all_shorts. intros Hc Hp. inv_ok.
  match goal with Ha : apply_changes ?q p = Ok _ |- _ =>
    generalize (run_apply_changes q p), (apply_changes_grown q p Hp); rewrite Ha
  end.
  destruct (run_steps _ _) as [p1 [x1|]]; cbn; congruence.
Qed.
End grown.

(** The current engine where the chain asks for it, another one for the earlier
    forks. *)
Definition with_current_engine (old : MarketEngine) : MarketEngine.
Proof using All.
  refine {|
    engine_execute v db q b t p :=
      match v with engine_current => execute db q b t p | _ => engine_execute v db q b t p end;
    engine_cancel_all_shorts v db t p :=
      match v with engine_current => cancel_all_shorts db p | _ => engine_cancel_all_shorts v db t p end
  |}.
  - intros v db q b t p p' l He.
    destruct v; try by eapply engine_execute_steps. by apply (execute_grown p _ _ _ _ _ _ _ He).
  - intros v db t p p' l He.
    destruct v; try by eapply engine_cancel_steps. by apply (cancel_all_shorts_grown p _ _ _ _ He).
Defined.
End engine.
