(* ===== verification/EngineLedger.v ===== *)
(** * EngineLedger: matching bids with asks moves shares, it does not make them

    A transaction, a block and a market each work on a pending state over another.
    [layers_ledger]: applying the upper one adds its ledger to that of the lower
    one, so changes that move shares only still do when they are applied.  In a
    market whose quote asset is not market issued the engine can only match bids
    with asks: [market_conserves] shows that whatever it does there, the ledger of
    every asset is the same after the market has been executed. *)
From S2P Require Import Prelude Config Fc Asset Records ChainInterface PendingState ChainDatabase.
From S2P Require Import Apply ApplyFacts Ledger Blocks Forks Chain ChainFacts OrderBook BookFacts.
From S2P Require Import Engine EngineFacts.
From stdpp Require Import sorting.
Local Open Scope Z_scope.

(** ** Applying a pending state to the one below it *)

(** ** Sums over two buffers *)

Lemma buffer_sum_union `{Countable K} {V} (f : K -> V -> Z) (prev : K -> option V) (m own : gmap K V) :
  buffer_sum f prev (m ∪ own) =
    buffer_sum f prev own
    + buffer_sum f (fun k => match own !! k with Some a => Some a | None => prev k end) m.
Proof.
  induction m as [|k v m Hk IH] using map_ind.
  - rewrite (left_id_L ∅ (∪)). unfold buffer_sum. rewrite map_ksum_empty. lia.
  - rewrite <- insert_union_l, !buffer_sum_insert, IH, lookup_union, Hk, (left_id_L None (∪)). lia.
Qed.

(** ** What the loops of [apply_changes] do to a buffer *)

Section frames.
Context `{Crypto} {A : Type} (get : pending_chain_state -> A).

Lemma layer_account_frame r p p' :
  (forall a b c p, get (set_ps_key_to_account a (set_ps_account_id_index b (set_ps_accounts c p))) = get p) ->
  pending_store_account_record r p = Ok p' -> get p' = get p.
Proof. intros Hg (idx & _ & [= <-])%bind_Ok. apply Hg. Qed.

Lemma layer_recent_frame l p :
  (forall a p, get (set_ps_recent_operations a p) = get p) ->
  get (foldl (fun p o => pending_store_recent_operation o p) p l) = get p.
Proof.
  intros Hg. revert p. induction l as [|o l IH]; intros p; cbn; [done|]. rewrite IH. apply Hg.
Qed.

Lemma layer_transaction_frame id r p p' :
  (forall a p, get (set_ps_recent_operations a p) = get p) ->
  (forall a p, get (set_ps_transactions a p) = get p) ->
  (forall a p, get (set_ps_unique_transactions a p) = get p) ->
  pending_store_transaction id r p = Ok p' -> get p' = get p.
Proof.
  intros Hr Ht Hu (p1 & H1 & [= <-])%bind_Ok. rewrite layer_recent_frame by done.
  destruct (ps_prev p); inv_ok; by rewrite ?Hu, Ht.
Qed.
End frames.

(** Shows that a loop body does not touch the component in question. *)
Ltac layer_frame get :=
  let Hs := fresh in
  intros ?k ?v ?s ?s' Hs;
  first
    [ apply (layer_account_frame get _ _ _ (fun _ _ _ _ => eq_refl) Hs)
    | apply (layer_transaction_frame get _ _ _ _ (fun _ _ => eq_refl) (fun _ _ => eq_refl)
               (fun _ _ => eq_refl) Hs)
    | injection Hs as <-;
      first [ reflexivity | apply (layer_recent_frame get); intros; reflexivity ] ].

(** Rewrites a component back through the loops that leave it alone. *)
Ltac skip_layers :=
  repeat match goal with
    | Hs : each ?f ?m ?s = Ok ?s' |- context [ ?get ?s' ] =>
        rewrite (each_frame get f m s s'); [|layer_frame get|exact Hs]; clear Hs
    | Hs : cs_set_market_transactions ?l ?s = Ok ?s' |- context [ ?get ?s' ] =>
        injection Hs as <-
    | |- context [ ?get (pending_set_market_transactions ?d ?s) ] =>
        change (get (pending_set_market_transactions d s)) with (get s)
    | |- context [ ?get (pending_set_dirty_markets ?d ?s) ] =>
        change (get (pending_set_dirty_markets d s)) with (get s)
    end.

Section layers.
Context `{Crypto} (p q q' : pending_chain_state).
Hypothesis above : ps_prev p = Some (pending_view q).
Hypothesis ok : pending_ok p.
Hypothesis applied : apply_changes p q = Ok q'.

Lemma each_union `{Countable K} {V} (get : pending_chain_state -> gmap K V) f (m : gmap K V) s s' :
  (forall k v s s', m !! k = Some v -> f k v s = Ok s' -> get s' = <[k := v]> (get s)) ->
  each f m s = Ok s' -> get s' = m ∪ get s.
Proof.
  intros Hf He. apply map_eq. intros k.
  rewrite (each_update get (fun _ => Some) (fun _ => True) f m s s'); [|by eauto|done|done].
  rewrite lookup_union. by destruct (m !! k), (get s !! k).
Qed.

(** One kind of record: the upper buffer's over the lower one's. *)
Ltac layer :=
  unfold apply_changes in applied; rewrite above in applied; apply_steps applied; skip_layers;
  match goal with Hs : each ?f ?m ?s = Ok ?s' |- ?get ?s' = _ =>
    rewrite (each_union get f m s s'); [clear Hs; skip_layers; reflexivity| |exact Hs] end;
  intros k_ v_ s1_ s2_ Hk Hbody.

Lemma layer_prev : ps_prev q' = ps_prev q.
Proof using above applied.
  unfold apply_changes in applied. rewrite above in applied. apply_steps applied. by skip_layers.
Qed.
Lemma layer_assets : ps_assets q' = ps_assets p ∪ ps_assets q.
Proof using above applied ok. layer. injection Hbody as <-. by rewrite <- (po_assets _ ok _ _ Hk). Qed.
Lemma layer_accounts : ps_accounts q' = ps_accounts p ∪ ps_accounts q.
Proof using above applied ok.
  layer. apply bind_Ok in Hbody as (idx & _ & [= <-]). cbn. by rewrite <- (po_accounts _ ok _ _ Hk).
Qed.
Lemma layer_balances : ps_balances q' = ps_balances p ∪ ps_balances q.
Proof using above applied ok. layer. injection Hbody as <-. by rewrite <- (po_balances _ ok _ _ Hk). Qed.
Lemma layer_bids : ps_bids q' = ps_bids p ∪ ps_bids q.
Proof using above applied. layer. by injection Hbody as <-. Qed.
Lemma layer_relative_bids : ps_relative_bids q' = ps_relative_bids p ∪ ps_relative_bids q.
Proof using above applied. layer. by injection Hbody as <-. Qed.
Lemma layer_asks : ps_asks q' = ps_asks p ∪ ps_asks q.
Proof using above applied. layer. by injection Hbody as <-. Qed.
Lemma layer_relative_asks : ps_relative_asks q' = ps_relative_asks p ∪ ps_relative_asks q.
Proof using above applied. layer. by injection Hbody as <-. Qed.
Lemma layer_shorts : ps_shorts q' = ps_shorts p ∪ ps_shorts q.
Proof using above applied. layer. by injection Hbody as <-. Qed.
Lemma layer_collateral : ps_collateral q' = ps_collateral p ∪ ps_collateral q.
Proof using above applied. layer. by injection Hbody as <-. Qed.

(** What the lower state shows the upper one. *)
Ltac lower cv own :=
  change (fun k => match own q !! k with Some a => Some a | None => below cv (ps_prev q) k end)
    with (below cv (Some (pending_view q))).

(** The ledgers add up. *)
Lemma layers_ledger id : pending_ledger id q' = pending_ledger id q + pending_ledger id p.
Proof using above applied ok.
  unfold pending_ledger. rewrite layer_prev, layer_assets, layer_accounts, layer_balances, layer_bids,
    layer_relative_bids, layer_asks, layer_relative_asks, layer_shorts, layer_collateral, !buffer_sum_union,
    above.
  lower cv_asset ps_assets. lower cv_account ps_accounts. lower cv_balance ps_balances. lower cv_bid ps_bids.
  lower cv_relative_bid ps_relative_bids. lower cv_ask ps_asks. lower cv_relative_ask ps_relative_asks.
  lower cv_short ps_shorts. lower cv_collateral ps_collateral. lia.
Qed.
End layers.

(** ** The engine *)

(** An address is the hash of a withdraw condition: two conditions with one address
    are of one asset. *)
Class AssetAddresses `{Crypto} : Prop :=
  address_asset c c' : condition_address c = condition_address c' -> wc_asset_id c = wc_asset_id c'.

(** ** Orders at hand and in the books *)

(** The order at hand, where it is of the book's type, and those left in the
    book. *)
Definition live_of (ty : order_type) (cur : option market_order) (l : list (market_index_key * order_record))
    : list (market_index_key * order_record) :=
  match cur with
  | Some o => if bool_decide (mo_type o = ty) then (mo_index o, mo_state o) :: l else l
  | None => l
  end.

Section ledger.
Context {CR : Crypto} {FN : FcNum} {FR : FcReal} {AA : AssetAddresses}.
Variable m : market.
Hypothesis pair_ordered : mk_base_id m < mk_quote_id m.

(** The entries of the market are those the state has. *)
Definition backed (get : market_index_key -> option order_record)
    (l : list (market_index_key * order_record)) : Prop :=
  NoDup l.*1 /\ Forall (fun kr => in_market m (mk_order_price kr.1) = true -> get kr.1 = Some kr.2) l.

Lemma backed_tail get x l : backed get (x :: l) -> backed get l.
Proof. intros [[_ Hn]%NoDup_cons [_ Hf]%Forall_cons]. done. Qed.

Lemma backed_live get ty o l : backed get (live_of ty o l) -> backed get l.
Proof. unfold live_of. destruct o as [o|]; [case_bool_decide|]; [apply backed_tail|done..]. Qed.

Lemma backed_paid get get' k r r' l :
  backed get ((k, r) :: l) -> get' k = Some r' -> (forall k', k' <> k -> get' k' = get k') ->
  backed get' ((k, r') :: l).
Proof.
  intros [Hn [_ Hf]%Forall_cons] Hk Hother. split; [done|]. constructor; [done|].
  apply NoDup_cons in Hn as [Hn _]. rewrite Forall_forall in *. intros [k1 r1] Hin Hm. cbn in *.
  rewrite Hother by (intros ->; apply Hn; apply list_elem_of_fmap; by exists (k, r1)).
  by apply (Hf (k1, r1)).
Qed.

Lemma backed_ext get get' l : (forall k, get' k = get k) -> backed get l -> backed get' l.
Proof.
  intros He [Hn Hf]. split; [done|]. eapply Forall_impl; [done|]. cbn. intros kr Hg. by rewrite He.
Qed.

(** What the engine knows of the orders: those in its hands and in the books of the
    market are in its state, and only bids, shorts, asks and covers come up. *)
Record tracked (e : engine) : Prop := {
  tr_relative : ob_relative_bids (me_book e) = [];
  tr_bids : backed (pending_get_bid_record (me_state e)) (live_of bid_order (me_bid e) (ob_bids (me_book e)));
  tr_asks : backed (pending_get_ask_record (me_state e)) (live_of ask_order (me_ask e) (ob_asks (me_book e)));
  tr_bid o : me_bid e = Some o ->
    mo_type o = short_order \/ mo_type o = bid_order /\ in_market m (mo_price o) = true;
  tr_ask o : me_ask e = Some o ->
    mo_type o = cover_order \/ mo_type o = ask_order /\ in_market m (mo_price o) = true
}.

Lemma tracked_no_bid e : tracked e -> tracked (set_me_bid None e).
Proof. intros []. split; cbn; try done. by eapply backed_live. Qed.
Lemma tracked_no_ask e : tracked e -> tracked (set_me_ask None e).
Proof. intros []. split; cbn; try done. by eapply backed_live. Qed.
Lemma tracked_filled n e : tracked e -> tracked (set_me_filled n e).
Proof. by intros []. Qed.

Lemma get_next_short_tracked e b e' :
  tracked e -> me_bid e = None -> get_next_short m e = (b, e') -> tracked e'.
Proof.
  unfold get_next_short. intros [? Hbids ? ? ?] Hnone Hg. rewrite Hnone in Hbids.
  repeat case_match; simplify_eq; split; cbn; try done; try by rewrite ?Hnone.
  intros o' [= <-]. by left.
Qed.

Lemma peek_bid_plain e o :
  ob_relative_bids (me_book e) = [] -> peek_bid m e = Ok (Some o) ->
  exists k r l, ob_bids (me_book e) = (k, r) :: l /\ o = plain_order bid_order k r /\
    in_market m (mk_order_price k) = true.
Proof.
  intros Hrel. unfold peek_bid, peek_relative_bid. rewrite Hrel. cbn. intros [= Hb].
  destruct (ob_bids (me_book e)) as [|[k r] l]; [done|]. case_match; simplify_eq. by exists k, r, l.
Qed.

Lemma take_bid_tracked e b e' : tracked e -> take_bid m e = Ok (b, e') -> tracked e'.
Proof.
  intros He%tracked_no_bid%(tracked_filled (me_filled e + 1)). unfold take_bid.
  change (set_me_filled (me_filled e + 1) (set_me_bid None e))
    with (set_me_bid None (set_me_filled (me_filled e + 1) e)) in He.
  set (e0 := set_me_bid None _) in *. intros (o & Ho & Ht)%bind_Ok. inv_ok.
  destruct o as [o|]; [|by eapply (get_next_short_tracked e0)].
  apply peek_bid_plain in Ho as (k & r & l & Hl & -> & Hk); [|apply He].
  rewrite bool_decide_false in Ht by done.
  assert (Ht' : tracked (set_me_bid (Some (plain_order bid_order k r))
                   (upd_book (fun b => set_ob_bids (tail (ob_bids b)) b) e0))).
  { destruct He as [? Hb ? ? ?]. split; cbn; try done.
    - cbn in Hb, Hl. rewrite Hl in *. done.
    - intros o [= <-]. by right. }
  case_match; [|by simplify_eq]. destruct (get_next_short m e0) as [[] e1] eqn:Es; simplify_eq; [|done].
  by eapply (get_next_short_tracked e0).
Qed.

Lemma get_next_bid_tracked e b e' : tracked e -> get_next_bid m e = Ok (b, e') -> tracked e'.
Proof.
  intros He. unfold get_next_bid. intros Hg. destruct (me_bid e); inv_ok; [|by eapply take_bid_tracked].
  case_match; [by inv_ok|by eapply take_bid_tracked].
Qed.

(** Covers come from elsewhere. *)
Definition ask_from (e e' : engine) : Prop :=
  me_state e' = me_state e /\ me_bid e' = me_bid e /\
  ob_relative_bids (me_book e') = ob_relative_bids (me_book e) /\
  ob_bids (me_book e') = ob_bids (me_book e) /\ ob_asks (me_book e') = ob_asks (me_book e) /\
  (me_ask e' = None \/ exists k r, me_ask e' = Some (cover_of k r)).

Lemma ask_from_tracked e e' : tracked e -> me_ask e = None -> ask_from e e' -> tracked e'.
Proof.
  intros [? ? Ha ? ?] Hn (Hs & Hb & Hr & Hbs & Has & Hk). rewrite Hn in Ha.
  split; rewrite ?Hs, ?Hb, ?Hr, ?Hbs, ?Has; try done;
    destruct Hk as [->|(k & r & ->)]; try done. intros o [= <-]. by left.
Qed.

Lemma next_margin_call_from e b e' :
  me_ask e = None -> next_margin_call m e = (b, e') -> ask_from e e' /\ (b = false -> me_ask e' = None).
Proof.
  unfold next_margin_call, ask_from. intros Hn. repeat case_match; intros [= <- <-]; cbn; naive_solver.
Qed.

Lemma next_expired_from now l e b e' :
  me_ask e = None -> next_expired m now l e = Ok (b, e') ->
  ask_from e e' /\ (b = false -> me_ask e' = None).
Proof.
  revert e. induction l as [|[[q t] k] l IH]; intros e Hn; cbn -[Z.eqb]; [intros [= <- <-]; by repeat split; auto|].
  destruct (negb _); [intros [= <- <-]; by repeat split; auto|].
  destruct (t >? now); [intros [= <- <-]; by repeat split; auto|].
  intros (r & _ & Hx)%bind_Ok. destruct (negb _); [inv_ok; repeat split; cbn; eauto; done|].
  apply IH in Hx; [|done]. done.
Qed.

Lemma next_plain_ask_tracked e b e' :
  tracked e -> me_ask e = None -> next_plain_ask m e = (b, e') -> tracked e'.
Proof.
  unfold next_plain_ask. intros [? ? Ha ? ?] Hn. rewrite Hn in Ha. cbn in Ha.
  destruct (ob_asks (me_book e)) as [|[k r] l] eqn:El; [by intros [= <- <-]; split; rewrite ?Hn, ?El|].
  case_match; intros [= <- <-]; split; cbn; rewrite ?Hn; try done; [|by eapply backed_tail].
  intros o [= <-]. by right.
Qed.

Lemma get_next_ask_tracked e b e' : tracked e -> get_next_ask m e = Ok (b, e') -> tracked e'.
Proof.
  intros He. assert (Ht : take_ask m e = Ok (b, e') -> tracked e').
  { unfold take_ask. apply tracked_no_ask, (tracked_filled (me_filled e + 1)) in He. cbn in *.
    set (e0 := set_me_filled _ _) in *.
    destruct (next_margin_call m e0) as [c e1] eqn:E1. apply next_margin_call_from in E1 as [Hf Hn]; [|done].
    assert (tracked e1) by (by eapply (ask_from_tracked e0)).
    destruct c; [by intros [= <- <-]|]. specialize (Hn eq_refl).
    intros ((x & e2) & Hx & Hb)%bind_Ok. apply next_expired_from in Hx as [Hf2 Hn2]; [|done].
    assert (tracked e2) by (by eapply (ask_from_tracked e1)). inv_ok. destruct x; simplify_eq; [done|].
    eapply next_plain_ask_tracked; [done|by apply Hn2|done]. }
  unfold get_next_ask. intros Hg. destruct (me_ask e); [|by apply Ht].
  case_match; [by inv_ok|by apply Ht].
Qed.

(** ** Payments *)

(** An amount of one asset. *)
Definition shares_at (asset amt id : Z) : Z := if asset =? id then amt else 0.

(** The records the loop holds are those of the two assets, and the ledger with
    them is [d] over that of the start, at [q0] and [b0]. *)
Record off_by (q0 b0 quote base : asset_record) (p : pending_chain_state) (d : Z -> Z) : Prop := {
  off_wf : pending_wf p;
  off_quote : pending_get_asset_record p (mk_quote_id m) = Some q0;
  off_base : pending_get_asset_record p (mk_base_id m) = Some b0;
  off_quote_id : as_id quote = mk_quote_id m;
  off_base_id : as_id base = mk_base_id m;
  off_issuer : is_market_issued quote = is_market_issued q0;
  off_ledger id : pending_ledger id p + (asset_shares id quote - asset_shares id q0)
                  + (asset_shares id base - asset_shares id b0) ≡64 d id
}.

(** A payout adds to the ledger of its asset. *)
Lemma pay_out_ledger owner asset amt p :
  pending_wf p ->
  pending_wf (pay_out owner asset amt p) /\
  forall id, pending_ledger id (pay_out owner asset amt p) ≡64 pending_ledger id p + shares_at asset amt id.
Proof using AA.
  intros Hwf. unfold pay_out.
  set (empty := balance_of_owner owner (mk_asset 0 asset) 0).
  set (r := default empty (pending_get_balance_record p (balance_id empty))).
  assert (Hr : balance_id r = balance_id empty /\ wc_asset_id (br_condition r) = asset).
  { subst r. destruct (pending_get_balance_record p _) as [r|] eqn:E; cbn; [|done].
    pose proof (pending_wf_balance _ _ _ Hwf E) as Hid. split; [done|]. by apply address_asset in Hid. }
  destruct Hr as [Hid Ha].
  edestruct (pending_ledger_balance (set_br_deposit_date (pending_now p) (set_br_last_update (pending_now p)
    (set_br_balance (wrap64 (br_balance r + amt)) r))) p Hwf) as [Hw Hl].
  split; [done|]. intros id. rewrite Hl.
  change (balance_id _) with (balance_id r). rewrite Hid.
  unfold shares_at, balance_shares, shares_of. cbn. rewrite Ha.
  assert (Hold : from_option (fun r => if wc_asset_id (br_condition r) =? id then br_balance r else 0) 0
    (pending_get_balance_record p (balance_id empty)) = if asset =? id then br_balance r else 0).
  { revert Ha. subst r. destruct (pending_get_balance_record p _) as [r|]; cbn; [by intros ->|].
    by destruct (asset =? id). }
  rewrite Hold. destruct (asset =? id); [rewrite wrap64_eqm|]; apply eq_eqm64; lia.
Qed.

(** Storing the order at hand with another balance. *)
Lemma store_bid_ledger o o' p :
  pending_wf p -> pending_get_bid_record p (mo_index o) = Some (mo_state o) ->
  in_market m (mo_price o) = true ->
  pending_wf (pending_store_bid_record (mo_index o) (mo_state o') p) /\
  forall id, pending_ledger id (pending_store_bid_record (mo_index o) (mo_state o') p) =
    pending_ledger id p + shares_at (mk_quote_id m) (mo_balance o' - mo_balance o) id.
Proof.
  intros Hwf Ho [Hq _]%andb_true_iff. destruct (pending_ledger_bid (mo_index o) (mo_state o') p Hwf) as [Hw Hl].
  split; [done|]. intros id. rewrite Hl, Ho. unfold quote_shares, shares_of, shares_at, mo_balance. cbn.
  apply Z.eqb_eq in Hq. unfold mo_price in Hq. rewrite Hq. case_match; lia.
Qed.
Lemma store_ask_ledger o o' p :
  pending_wf p -> pending_get_ask_record p (mo_index o) = Some (mo_state o) ->
  in_market m (mo_price o) = true ->
  pending_wf (pending_store_ask_record (mo_index o) (mo_state o') p) /\
  forall id, pending_ledger id (pending_store_ask_record (mo_index o) (mo_state o') p) =
    pending_ledger id p + shares_at (mk_base_id m) (mo_balance o' - mo_balance o) id.
Proof.
  intros Hwf Ho [_ Hq]%andb_true_iff. destruct (pending_ledger_ask (mo_index o) (mo_state o') p Hwf) as [Hw Hl].
  split; [done|]. intros id. rewrite Hl, Ho. unfold base_shares, shares_of, shares_at, mo_balance. cbn.
  apply Z.eqb_eq in Hq. unfold mo_price in Hq. rewrite Hq. case_match; lia.
Qed.

Lemma live_own ty o l get :
  mo_type o = ty -> in_market m (mo_price o) = true -> backed get (live_of ty (Some o) l) ->
  get (mo_index o) = Some (mo_state o).
Proof.
  intros Ht Hm. cbn. rewrite bool_decide_true by done. intros [_ [Hf _]%Forall_cons]. by apply Hf.
Qed.

(** What is left of an order that would buy nothing goes to the fees: what it and
    the fees hold falls by what the order pays. *)
Lemma dust_sum (paid : Z) (o o' : market_order) (r r' : asset_record) (dust : bool) :
  (if dust then (add_fees (mo_balance (spend_bid paid o)) r, set_mo_balance 0 (spend_bid paid o))
   else (r, spend_bid paid o)) = (r', o') ->
  mo_index o' = mo_index o /\ mo_type o' = mo_type o /\ as_id r' = as_id r /\
  is_market_issued r' = is_market_issued r /\
  forall id, shares_at (as_id r) (mo_balance o' - mo_balance o) id + asset_shares id r'
             ≡64 asset_shares id r - shares_at (as_id r) paid id.
Proof.
  destruct dust; intros [= <- <-]; (split; [done|split; [done|split; [done|split; [done|]]]]); intros id;
    unfold shares_at, asset_shares; cbn; (case_match; [|apply eq_eqm64; lia]);
    unfold mo_balance; cbn; rewrite ?wrap64_eqm; apply eq_eqm64; lia.
Qed.

(** The payments as the dust rule leaves the order [o]. *)
Definition spent (paid : Z) (o : market_order) (r : asset_record) (dust : bool) : asset_record * market_order :=
  if dust then (add_fees (mo_balance (spend_bid paid o)) r, set_mo_balance 0 (spend_bid paid o))
  else (r, spend_bid paid o).

Lemma pay_current_bid_Ok t quote e quote' e' o :
  me_bid e = Some o -> mo_type o = bid_order -> pay_current_bid m t quote e = Ok (quote', e') ->
  exists dust o', spent (amount (mt_bid_paid t)) o quote dust = (quote', o') /\
    e' = set_me_bid (Some o')
           (upd_state (fun p => pending_store_bid_record (mo_index o') (mo_state o')
              (pay_out (mt_bid_owner t) (mk_base_id m) (amount (mt_bid_received t)) p)) e).
Proof.
  intros Ho Hty. unfold pay_current_bid. rewrite Ho. cbn -[spend_bid pay_out].
  intros (_ & _ & Hp)%bind_Ok. apply bind_Ok in Hp as (_ & _ & Hp). apply bind_Ok in Hp as (_ & _ & Hp).
  unfold get_quote_quantity, get_balance in Hp. cbn -[pay_out] in Hp. rewrite Hty in Hp.
  apply bind_Ok in Hp as (left & [= <-] & Hp). apply bind_Ok in Hp as (worth & _ & Hp). exists (amount worth =? 0). unfold spent.
  destruct (amount worth =? 0); cbn -[pay_out] in Hp; rewrite ?Hty, ?bool_decide_true in Hp by done; inv_ok; eauto.
Qed.

Lemma pay_current_ask_Ok t base e base' e' o :
  me_ask e = Some o -> mo_type o = ask_order -> pay_current_ask m t base e = Ok (base', e') ->
  exists dust o', spent (amount (mt_ask_paid t)) o base dust = (base', o') /\
    e' = set_me_ask (Some o')
           (upd_state (fun p => pending_store_ask_record (mo_index o') (mo_state o')
              (pay_out (mt_ask_owner t) (mk_quote_id m) (amount (mt_ask_received t)) p)) e).
Proof.
  intros Ho Hty. unfold pay_current_ask. rewrite Ho. cbn -[spend_bid pay_out].
  intros (_ & _ & Hp)%bind_Ok. apply bind_Ok in Hp as (_ & _ & Hp). apply bind_Ok in Hp as (_ & _ & Hp).
  unfold get_quantity, get_balance in Hp. cbn -[pay_out] in Hp. rewrite Hty in Hp.
  apply bind_Ok in Hp as (left & [= <-] & Hp). apply bind_Ok in Hp as (worth & _ & Hp). exists (amount worth =? 0). unfold spent.
  destruct (amount worth =? 0); cbn -[pay_out] in Hp; rewrite ?Hty, ?bool_decide_false in Hp by done; inv_ok; eauto.
Qed.

(** ** Payments and the ledger *)

Lemma tracked_bid_paid e o r' p :
  tracked e -> me_bid e = Some o -> mo_type o = bid_order -> mo_index r' = mo_index o ->
  mo_type r' = mo_type o ->
  (forall k, pending_get_bid_record p k = pending_get_bid_record (me_state e) k) ->
  (forall k, pending_get_ask_record p k = pending_get_ask_record (me_state e) k) ->
  tracked (set_me_bid (Some r') (set_me_state (pending_store_bid_record (mo_index r') (mo_state r') p) e)).
Proof.
  intros [? Hb Ha Hib Hia] Ho Hty Hi Ht Hgb Hga. rewrite Ho in Hb. cbn in Hb.
  rewrite bool_decide_true in Hb by done.
  split; cbn; try done.
  - rewrite bool_decide_true by congruence. rewrite Hi.
    eapply backed_paid; [done|by unfold pending_get_bid_record; cbn; rewrite lookup_insert_eq|].
    intros k Hk. rewrite <- Hgb. unfold pending_get_bid_record. cbn. by rewrite lookup_insert_ne.
  - eapply backed_ext; [|done]. intros k. by rewrite <- Hga.
  - intros o1 [= <-]. destruct (Hib _ Ho) as [?|[_ Hin]]; [congruence|]. right. split; [congruence|].
    unfold mo_price. by rewrite Hi.
Qed.

Lemma tracked_ask_paid e o r' p :
  tracked e -> me_ask e = Some o -> mo_type o = ask_order -> mo_index r' = mo_index o ->
  mo_type r' = mo_type o ->
  (forall k, pending_get_bid_record p k = pending_get_bid_record (me_state e) k) ->
  (forall k, pending_get_ask_record p k = pending_get_ask_record (me_state e) k) ->
  tracked (set_me_ask (Some r') (set_me_state (pending_store_ask_record (mo_index r') (mo_state r') p) e)).
Proof.
  intros [? Hb Ha Hib Hia] Ho Hty Hi Ht Hgb Hga. rewrite Ho in Ha. cbn in Ha.
  rewrite bool_decide_true in Ha by done.
  split; cbn; try done.
  - eapply backed_ext; [|done]. intros k. by rewrite <- Hgb.
  - rewrite bool_decide_true by congruence. rewrite Hi.
    eapply backed_paid; [done|by unfold pending_get_ask_record; cbn; rewrite lookup_insert_eq|].
    intros k Hk. rewrite <- Hga. unfold pending_get_ask_record. cbn. by rewrite lookup_insert_ne.
  - intros o1 [= <-]. destruct (Hia _ Ho) as [?|[_ Hin]]; [congruence|]. right. split; [congruence|].
    unfold mo_price. by rewrite Hi.
Qed.

Lemma pay_current_bid_off q0 b0 quote base t e quote' e' o d :
  tracked e -> me_bid e = Some o -> mo_type o = bid_order ->
  off_by q0 b0 quote base (me_state e) d -> pay_current_bid m t quote e = Ok (quote', e') ->
  tracked e' /\ me_ask e' = me_ask e /\
  off_by q0 b0 quote' base (me_state e')
    (fun id => d id + shares_at (mk_base_id m) (amount (mt_bid_received t)) id
               - shares_at (mk_quote_id m) (amount (mt_bid_paid t)) id).
Proof using AA.
  intros Htr Ho Hty [Hwf Hq Hb Hqi Hbi His Hl] (dust & o' & Hd & ->)%(pay_current_bid_Ok _ _ _ _ _ o); [|done..].
  apply dust_sum in Hd as (Hidx & Hty' & Hid & His' & Hsum).
  pose proof (pay_out_ledger (mt_bid_owner t) (mk_base_id m) (amount (mt_bid_received t)) _ Hwf) as [Hw1 Hl1].
  destruct (tr_bid _ Htr _ Ho) as [?|[_ Hin]]; [congruence|].
  split; [|split; [done|]]; [by eapply tracked_bid_paid|].
  cbn -[pay_out]. set (p1 := pay_out _ _ _ _) in *. rewrite Hidx.
  destruct (store_bid_ledger o o' p1 Hw1) as [Hw2 Hl2]; [|done|].
  { eapply (live_own bid_order); [done..|]. rewrite <- Ho. apply Htr. }
  split; [done..|congruence|done|congruence|]. intros id. specialize (Hsum id). rewrite Hqi in Hsum.
  rewrite Hl2, Hl1, <- Hl.
  transitivity (pending_ledger id (me_state e) + shares_at (mk_base_id m) (amount (mt_bid_received t)) id +
    (shares_at (mk_quote_id m) (mo_balance o' - mo_balance o) id + asset_shares id quote') - asset_shares id q0
    + (asset_shares id base - asset_shares id b0)); [apply eq_eqm64; lia|].
  rewrite Hsum. apply eq_eqm64. lia.
Qed.

Lemma pay_current_ask_off q0 b0 quote base t e base' e' o d :
  tracked e -> me_ask e = Some o -> mo_type o = ask_order ->
  off_by q0 b0 quote base (me_state e) d -> pay_current_ask m t base e = Ok (base', e') ->
  tracked e' /\
  off_by q0 b0 quote base' (me_state e')
    (fun id => d id + shares_at (mk_quote_id m) (amount (mt_ask_received t)) id
               - shares_at (mk_base_id m) (amount (mt_ask_paid t)) id).
Proof using AA.
  intros Htr Ho Hty [Hwf Hq Hb Hqi Hbi His Hl] (dust & o' & Hd & ->)%(pay_current_ask_Ok _ _ _ _ _ o); [|done..].
  apply dust_sum in Hd as (Hidx & Hty' & Hid & His' & Hsum).
  pose proof (pay_out_ledger (mt_ask_owner t) (mk_quote_id m) (amount (mt_ask_received t)) _ Hwf) as [Hw1 Hl1].
  destruct (tr_ask _ Htr _ Ho) as [?|[_ Hin]]; [congruence|].
  split; [by eapply tracked_ask_paid|].
  cbn -[pay_out]. set (p1 := pay_out _ _ _ _) in *. rewrite Hidx.
  destruct (store_ask_ledger o o' p1 Hw1) as [Hw2 Hl2]; [|done|].
  { eapply (live_own ask_order); [done..|]. rewrite <- Ho. apply Htr. }
  split; [done..|congruence|done|]. intros id. specialize (Hsum id). rewrite Hbi in Hsum.
  rewrite Hl2, Hl1, <- Hl.
  transitivity (pending_ledger id (me_state e) + shares_at (mk_quote_id m) (amount (mt_ask_received t)) id +
    (shares_at (mk_base_id m) (mo_balance o' - mo_balance o) id + asset_shares id base') - asset_shares id b0
    + (asset_shares id quote - asset_shares id q0)); [apply eq_eqm64; lia|].
  rewrite Hsum. apply eq_eqm64. lia.
Qed.

(** ** A match *)

Lemma in_market_ids p :
  in_market m p = true -> quote_asset_id p = mk_quote_id m /\ base_asset_id p = mk_base_id m.
Proof. unfold in_market. lia. Qed.

Lemma asset_mul_id a p r :
  in_market m p = true -> asset_mul a p = Ok r ->
  (asset_id a = mk_base_id m -> asset_id r = mk_quote_id m) /\
  (asset_id a = mk_quote_id m -> asset_id r = mk_base_id m).
Proof using pair_ordered.
  intros [Hq%Z.eqb_eq Hb%Z.eqb_eq]%andb_true_iff. unfold asset_mul. rewrite Hq, Hb. intros Hm.
  destruct (Z.eqb_spec (asset_id a) (mk_base_id m)); [inv_ok; split; [done|cbn; lia]|].
  inv_ok. split; [done|by cbn].
Qed.

(** The amounts of a match of a bid and an ask. *)
Lemma match_ask_bid_Ok t quote base e bid ask t' quote' base' e' :
  in_market m (mo_price bid) = true -> mo_type bid = bid_order ->
  in_market m (mo_price ask) = true -> mo_type ask = ask_order ->
  in_market m (mt_bid_price t) = true -> in_market m (mt_ask_price t) = true ->
  match_ask_bid m t quote base e bid ask = Ok (t', quote', base', e') ->
  asset_id (mt_fees_collected t') = mk_quote_id m /\
  amount (mt_fees_collected t') = wrap64 (amount (mt_bid_paid t') - amount (mt_ask_received t')) /\
  amount (mt_ask_paid t') = amount (mt_bid_received t') /\
  exists e1, pay_current_bid m t' quote e = Ok (quote', e1) /\ pay_current_ask m t' base e1 = Ok (base', e').
Proof using pair_ordered.
  intros Hib Htb Hia Hta Hpb Hpa. unfold match_ask_bid, get_quantity, get_price, get_balance. rewrite Htb, Hta.
  cbn [mbind result_bind]. intros (bq & Hbq & Hm)%bind_Ok.
  apply (asset_mul_id _ _ _ Hib) in Hbq as [_ Hbq]. specialize (Hbq (proj1 (in_market_ids _ Hib))).
  set (aq := mk_asset (mo_balance ask) _) in *.
  assert (Haq : asset_id aq = mk_base_id m) by apply (in_market_ids _ Hia).
  assert (Hq : asset_id (asset_min bq aq) = mk_base_id m) by (unfold asset_min; by destruct (asset_ltb aq bq)).
  set (q := asset_min bq aq) in *.
  apply bind_Ok in Hm as (received & Hr & Hm). apply bind_Ok in Hm as (exact & He & Hm).
  apply (asset_mul_id _ _ _ Hpa) in Hr as [Hr _]. apply (asset_mul_id _ _ _ Hpb) in He as [He _].
  specialize (Hr Hq). specialize (He Hq).
  apply bind_Ok in Hm as (paid & Hp & Hm). apply bind_Ok in Hm as (ask_paid & Hap & Hm).
  apply bind_Ok in Hm as (fees & Hf & Hm). apply asset_sub_Ok in Hf as [Hid ->].
  apply bind_Ok in Hm as ((quote1 & e1) & Hb & Hm). apply bind_Ok in Hm as ((base1 & e2) & Ha & Hm).
  injection Hm as <- <- <- <-. cbn. split; [congruence|]. split; [done|]. split; [|by exists e1].
  unfold asset_eqb in Hap. destruct (Z.eqb_spec (amount q) (amount aq)); by injection Hap as <-.
Qed.

(** A match and its settlement leave the ledger as it was. *)
Lemma match_ask_bid_off q0 b0 t g bid ask t' quote base e g' :
  tracked (mg_engine g) -> me_bid (mg_engine g) = Some bid -> me_ask (mg_engine g) = Some ask ->
  mo_type bid = bid_order -> mo_type ask = ask_order ->
  in_market m (mt_bid_price t) = true -> in_market m (mt_ask_price t) = true ->
  off_by q0 b0 (mg_quote g) (mg_base g) (me_state (mg_engine g)) (fun _ => 0) ->
  match_ask_bid m t (mg_quote g) (mg_base g) (mg_engine g) bid ask = Ok (t', quote, base, e) ->
  settle_match t' quote base e g = Ok g' ->
  tracked (mg_engine g') /\
  off_by q0 b0 (mg_quote g') (mg_base g') (me_state (mg_engine g')) (fun _ => 0).
Proof using AA pair_ordered.
  intros Htr Hb Ha Htb Hta Hpb Hpa Hoff Hm Hs.
  destruct (tr_bid _ Htr _ Hb) as [?|[_ Hib]]; [congruence|].
  destruct (tr_ask _ Htr _ Ha) as [?|[_ Hia]]; [congruence|].
  apply match_ask_bid_Ok in Hm as (Hid & Hfees & Hpaid & e1 & Hp1 & Hp2); [|done..].
  eapply pay_current_bid_off in Hp1 as (Htr1 & Ha1 & Hoff1); [|done..].
  eapply pay_current_ask_off in Hp2 as (Htr2 & [Hwf Hq Hbs Hqi Hbi His Hl]); [|done|by rewrite Ha1|done..].
  unfold settle_match in Hs. apply bind_Ok in Hs as (e2 & He2 & Hs). apply bind_Ok in Hs as (vol & _ & Hs).
  rewrite Hid, Hqi, Hbi in Hs. destruct (Z.eqb_spec (mk_quote_id m) (mk_base_id m)); [lia|].
  rewrite Z.eqb_refl in Hs. unfold push_market_transaction in He2. inv_ok. cbn.
  split; [by destruct Htr2|]. split; [done..|]. intros id. specialize (Hl id). cbn beta in Hl.
  transitivity (pending_ledger id (me_state e) + (asset_shares id quote - asset_shares id q0)
    + (asset_shares id base - asset_shares id b0) + shares_at (mk_quote_id m) (amount (mt_fees_collected t')) id).
  { unfold asset_shares, shares_at. cbn. rewrite Hqi.
    destruct (mk_quote_id m =? id); rewrite ?wrap64_eqm; apply eq_eqm64; lia. }
  rewrite Hl, Hpaid. unfold shares_at.
  destruct (mk_base_id m =? id), (mk_quote_id m =? id); rewrite ?Hfees, ?wrap64_eqm; apply eq_eqm64; lia.
Qed.

(** ** The loop *)

Section loop.
Variables q0 b0 : asset_record.
Hypothesis not_issued : is_market_issued q0 = false.

(** The invariant of the loop. *)
Definition loop_ok (g : matching) : Prop :=
  tracked (mg_engine g) /\
  off_by q0 b0 (mg_quote g) (mg_base g) (me_state (mg_engine g)) (fun _ => 0).

Lemma loop_ok_engine g e :
  tracked e -> me_state e = me_state (mg_engine g) -> loop_ok g -> loop_ok (set_mg_engine e g).
Proof. intros He Hs [_ Ho]. split; [done|]. cbn. by rewrite Hs. Qed.

(** Only a bid and an ask can match. *)
Lemma judge_plain quote e bid ask t :
  is_market_issued quote = false ->
  mo_type bid = short_order \/ mo_type bid = bid_order ->
  mo_type ask = cover_order \/ mo_type ask = ask_order ->
  judge m quote e bid ask = Ok (matched t) ->
  mo_type bid = bid_order /\ mo_type ask = ask_order /\
  mt_bid_price t = mo_price bid /\ mt_ask_price t = mo_price ask.
Proof.
  intros Hi Hb Ha. unfold judge, open_transaction, get_price, judge_bid, judge_ask. rewrite Hi.
  intros Hj. destruct Hb as [Hb|Hb], Ha as [Ha|Ha]; rewrite Hb, Ha in Hj;
    repeat (inv_ok; case_match; simplify_eq); cbn in *; inv_ok; try done;
    repeat case_match; simplify_eq; done.
Qed.

Lemma match_current_ok g x :
  match_current m g = Ok x -> loop_ok g -> loop_ok (match x with inl g' | inr g' => g' end).
Proof using AA pair_ordered not_issued.
  unfold match_current. intros (bid & Hb%require_Ok & Hm)%bind_Ok Hg. pose proof Hg as [Htr Hoff].
  apply bind_Ok in Hm as (ask & Ha%require_Ok & Hm). apply bind_Ok in Hm as (v & Hv & Hm).
  destruct v as [| | |t]; [inv_ok; apply loop_ok_engine; [by apply tracked_no_bid|done..]
    |inv_ok; apply loop_ok_engine; [by apply tracked_no_ask|done..]|by inv_ok|].
  pose proof (tr_bid _ Htr _ Hb) as Hbt. pose proof (tr_ask _ Htr _ Ha) as Hat.
  apply judge_plain in Hv as (Htb & Hta & Hpb & Hpa);
    [|by rewrite (off_issuer _ _ _ _ _ _ Hoff)|naive_solver..].
  unfold match_orders in Hm. rewrite Htb, Hta in Hm.
  apply bind_Ok in Hm as ([[[t' quote] base] e] & Hm & Hs). apply bind_Ok in Hs as (g' & Hs & [= <-]).
  eapply match_ask_bid_off; [done..| | |done|done|done]; [rewrite Hpb|rewrite Hpa];
    [destruct Hbt as [?|[_ ?]]|destruct Hat as [?|[_ ?]]]; congruence.
Qed.

Lemma turn_ok g x :
  turn m g = Ok x -> loop_ok g -> loop_ok (match x with inl g' | inr g' => g' end).
Proof using AA pair_ordered not_issued.
  unfold turn. intros ((b & e1) & Hx & Ht)%bind_Ok Hg.
  apply (loop_ok_engine g e1) in Hg;
    [|by eapply get_next_bid_tracked; [apply Hg|]|by eapply get_next_bid_state].
  destruct b; cbn in Ht; [|by inv_ok]. apply bind_Ok in Ht as ((b & e2) & Hy & Ht).
  apply (loop_ok_engine _ e2) in Hg;
    [|by eapply get_next_ask_tracked; [apply Hg|]|by eapply get_next_ask_state].
  destruct b; cbn in Ht; [|by inv_ok]. apply bind_Ok in Ht as (_ & _ & Ht).
  by eapply match_current_ok.
Qed.

Lemma match_loop_ok fuel g g' : match_loop fuel m g = Ok g' -> loop_ok g -> loop_ok g'.
Proof using AA pair_ordered not_issued.
  revert g. induction fuel as [|fuel IH]; intros g; cbn; [done|].
  intros ([g1|g1] & Ht & Hl)%bind_Ok Hg; apply turn_ok in Ht; [by eapply IH|done|by inv_ok|done].
Qed.

(** ** The end of the market *)

(** The records of the two assets are stored: the state's own ledger is even. *)
Lemma store_assets_ledger quote base p :
  off_by q0 b0 quote base p (fun _ => 0) ->
  forall id, pending_ledger id (pending_store_asset_record base (pending_store_asset_record quote p)) ≡64 0.
Proof using pair_ordered.
  intros [Hwf Hq Hb Hqi Hbi _ Hl] id.
  destruct (pending_ledger_asset quote p Hwf) as [Hw1 Hl1].
  destruct (pending_ledger_asset base _ Hw1) as [_ Hl2]. rewrite Hl2, Hl1, Hqi, Hbi, Hq.
  assert (Hb' : pending_get_asset_record (pending_store_asset_record quote p) (mk_base_id m) = Some b0).
  { rewrite <- Hb. unfold pending_get_asset_record. cbn. rewrite lookup_insert_ne; [done|lia]. }
  rewrite Hb'. rewrite <- (Hl id). cbn. apply eq_eqm64. lia.
Qed.

Lemma note_status_ledger q b feed x p p' :
  note_status q b feed x p = Ok p' -> forall id, pending_ledger id p' = pending_ledger id p.
Proof. unfold note_status. intros Hn id. by inv_ok. Qed.

Lemma update_market_history_ledger t g e :
  update_market_history m t g = Ok e ->
  forall id, pending_ledger id (me_state e) = pending_ledger id (me_state (mg_engine g)).
Proof.
  unfold update_market_history. intros Hu id. case_match; [by inv_ok|].
  apply bind_Ok in Hu as ((b & e1) & Hx%get_next_bid_state & Hu). rewrite <- Hx.
  destruct b; cbn in Hu; [|by inv_ok].
  apply bind_Ok in Hu as ((b & e2) & Hy%get_next_ask_state & Hu). rewrite <- Hy.
  destruct b; cbn in Hu; [|by inv_ok]. inv_ok. cbn. unfold merge_history. by repeat case_match.
Qed.

(** A market without market issued shares moves shares only. *)
Lemma run_market_ledger t e e' :
  tracked e -> off_by q0 b0 q0 b0 (me_state e) (fun _ => 0) ->
  run_market m t q0 b0 e = Ok e' -> forall id, pending_ledger id (me_state e') ≡64 0.
Proof using AA pair_ordered not_issued.
  intros He Hoff. unfold run_market. intros (_ & _ & Hr)%bind_Ok id.
  apply bind_Ok in Hr as ((b & e1) & Hx & Hr). apply bind_Ok in Hr as ((b' & e2) & Hy & Hr).
  apply bind_Ok in Hr as (g & Hg & Hr). apply bind_Ok in Hr as (p & Hp & Hr).
  apply match_loop_ok in Hg as [_ Hg].
  - rewrite (update_market_history_ledger _ _ _ Hr). cbn. rewrite (note_status_ledger _ _ _ _ _ _ Hp). cbn.
    by apply store_assets_ledger.
  - split; cbn; [by eapply get_next_ask_tracked, Hy; eapply get_next_bid_tracked|].
    by rewrite (get_next_ask_state _ _ _ _ Hy), (get_next_bid_state _ _ _ _ Hx).
Qed.
End loop.
End ledger.

(** ** The whole market *)

(** The engine stores no accounts and no transactions, so applying its changes
    cannot throw. *)
Definition plain_changes (p : pending_chain_state) : Prop := ps_accounts p = ∅ /\ ps_transactions p = ∅.

#[export] Instance plain_changes_invariant `{Crypto} : EngineInvariant plain_changes.
Proof. by split. Qed.

Section total.
Context {St : Type} `{!ChainStore St} `{Countable K} {V : Type}.
Lemma each_put (f : K -> V -> St -> St) (m : gmap K V) s :
  each (put f) m s = Ok (foldl (fun s kv => f kv.1 kv.2 s) s (map_to_list m)).
Proof. unfold each. by apply fold_result_total. Qed.
Lemma each_put_record (f : V -> St -> St) (m : gmap K V) s :
  each (put_record f) m s = Ok (foldl (fun s kv => f kv.2 s) s (map_to_list m)).
Proof. unfold each. by apply fold_result_total. Qed.
Lemma each_empty (f : K -> V -> St -> result St) s : each f ∅ s = Ok s.
Proof. unfold each. by rewrite map_to_list_empty. Qed.
End total.

Section market.
Context {CR : Crypto} {FN : FcNum} {FR : FcReal} {AA : AssetAddresses}.

Lemma plain_changes_apply (p q : pending_chain_state) : plain_changes p -> exists q', apply_changes p q = Ok q'.
Proof.
  intros [Ha Ht]. unfold apply_changes. destruct (ps_prev p); [|by eauto].
  repeat (rewrite ?Ha, ?Ht, ?each_put, ?each_put_record, ?each_empty; cbn [mbind result_bind]).
  unfold each. erewrite fold_result_total by (intros; reflexivity). cbn [mbind result_bind].
  rewrite fold_result_total with (g := fun s kv => pending_store_burn_record kv.1 kv.2 s) by done.
  cbn. eauto.
Qed.

Lemma grown_wf p p' : pending_wf p -> grown p p' -> pending_wf p'.
Proof.
  intros [Hok Hv] [Hs Hp]. split; [|by rewrite Hp]. clear Hv Hp.
  induction Hs; eauto using pending_step_ok.
Qed.

Lemma new_pending_wf q : pending_wf q -> pending_wf (new_pending (Some (pending_view q))).
Proof.
  intros Hq. split; [apply new_pending_ok|]. intros v [= <-]. split; [|split]; intros id r.
  - by apply pending_wf_asset.
  - by apply pending_wf_account.
  - by apply pending_wf_balance.
Qed.

Lemma new_pending_ledger v id : pending_ledger id (new_pending v) = 0.
Proof. reflexivity. Qed.

(** The block's state has the market's orders as the database has them. *)
Definition orders_current (m : market) (prior : pending_chain_state) : Prop :=
  forall k, in_market m (mk_order_price k) = true ->
    pending_get_bid_record prior k = db_bids (mk_db m) !! k /\
    pending_get_ask_record prior k = db_asks (mk_db m) !! k.

Lemma backed_entries m get (entries : list (market_index_key * order_record))
    (M : gmap market_index_key order_record) :
  NoDup entries.*1 /\ (forall k r, (k, r) ∈ entries -> M !! k = Some r) ->
  (forall k, in_market m (mk_order_price k) = true -> get k = M !! k) -> backed m get entries.
Proof.
  intros [Hn Hin] Hget. split; [done|]. apply Forall_forall. intros [k r] Hkr Hm. cbn in *.
  rewrite Hget by done. by apply Hin.
Qed.

Lemma new_engine_tracked m prior :
  db_relative_bids (mk_db m) = ∅ -> orders_current m prior ->
  tracked m (new_engine prior (open_book (mk_quote_id m) (mk_base_id m) (mk_db m))).
Proof.
  intros Hrel Ho. split; cbn; try done.
  - rewrite Hrel. done.
  - eapply backed_entries; [apply entries_below_elem|]. intros k Hk. by apply Ho.
  - eapply backed_entries; [apply entries_from_elem|]. intros k Hk. by apply Ho.
Qed.

(** The changes a market makes, before they are applied. *)
Lemma try_market_ledger db q b t prior feed e :
  pending_wf prior -> b < q ->
  (forall r, pending_get_asset_record prior q = Some r -> is_market_issued r = false) ->
  db_relative_bids db = ∅ -> orders_current (mk_market db q b None) prior ->
  try_market db q b t prior = (feed, Ok e) ->
  grown (new_pending (Some (pending_view prior))) (me_state e) /\ plain_changes (me_state e) /\
  forall id, pending_ledger id (me_state e) ≡64 0.
Proof using AA.
  intros Hwf Hqb Hni Hrel Ho. unfold try_market.
  destruct (_ ≫= _) as [[[quote base] feed1]|x] eqn:Hs; [|done]. intros [= -> Hr].
  apply bind_Ok in Hs as (quote1 & Hq%require_Ok & Hs). apply bind_Ok in Hs as (base1 & Hb%require_Ok & Hs).
  inv_ok. set (m := mk_market db q b feed) in *. set (e0 := new_engine _ _) in *.
  split; [by eapply (run_market_keeps (grown _)) in Hr; [|apply grown_refl]|].
  split; [by eapply (run_market_keeps plain_changes) in Hr|].
  assert (Hquote : pending_get_asset_record prior q = Some quote) by exact Hq.
  pose proof (new_pending_wf prior Hwf) as Hw0.
  eapply (run_market_ledger m Hqb quote base); [by apply Hni|by apply (new_engine_tracked m)| |done].
  split; [done|done|done|by apply (pending_wf_asset _ _ _ Hw0)|by apply (pending_wf_asset _ _ _ Hw0)|done|].
  intros id. cbn. apply eq_eqm64. rewrite new_pending_ledger. lia.
Qed.

(** C7: Executing a market whose quote asset is not market issued moves shares, it makes
    none and loses none: whatever orders are in its books, and whether the matching
    goes through or is given up with an exception, the ledger of every asset (what
    balances, orders, positions and fees hold, less the supply; modulo [2^64], the
    width of an amount) is the same in the block's state after the market as
    before.  Relative bids are not enabled, and the block's state has the market's
    orders as the database has them. *)
Theorem market_conserves db q b t prior prior' trxs :
  pending_wf prior -> b < q ->
  (forall r, pending_get_asset_record prior q = Some r -> is_market_issued r = false) ->
  db_relative_bids db = ∅ -> orders_current (mk_market db q b None) prior ->
  execute db q b t prior = Ok (prior', trxs) ->
  pending_wf prior' /\ forall id, pending_ledger id prior' ≡64 pending_ledger id prior.
Proof using AA.
  intros Hwf Hqb Hni Hrel Ho He. split.
  { eapply grown_wf; [done|]. by eapply execute_grown; [|apply grown_refl]. }
  intros id. unfold execute in He. destruct (try_market db q b t prior) as [feed [e|x]] eqn:Ht.
  - apply try_market_ledger in Ht as ([Hg Hp] & Hplain & Hl); [|done..].
    destruct (plain_changes_apply (me_state e) prior Hplain) as [q' Hq'].
    pose proof (run_apply_changes (me_state e) prior) as Hrun.
    destruct (run_steps (apply_changes_steps (me_state e)) prior) as [q1 [x|]]; [congruence|].
    assert (q1 = q') as -> by congruence. injection He as <- <-.
    rewrite (layers_ledger (me_state e) prior q' Hp); [|apply pending_reachable_ok; by eexists|done].
    rewrite Hl. apply eq_eqm64. lia.
  - destruct (is_abort x); [done|]. inv_ok.
    match goal with Hn : note_status _ _ _ _ _ = _ |- _ => by rewrite (note_status_ledger _ _ _ _ _ _ Hn) end.
Qed.
End market.
