(* ===== verification/EngineV7.v ===== *)
(** * EngineV7: the market engine before BTS_V0_4_29 (market_engine_v7.hpp/.cpp)

    The engines of the forks differ in how they choose the next orders and match
    them; the loop around that is the same in all of them.  [loop_with] is the loop
    over the functions of one engine, and [loop_with_ends] shows that it ends for
    every engine that meets [EngineRules]: to go on it must take an order.

    Then the engine of the blocks after BTS_V0_4_21 up to BTS_V0_4_29.  It knows no
    relative orders, does not look whether a market is frozen, covers a position
    that is called or expired from one list, and computes interest in the base asset
    only from BTS_V0_4_23 on.  Where a function is the same text as in
    market_engine.cpp its definition is that of Engine.v. *)
From S2P Require Import Prelude Config Fc Asset Records ChainInterface PendingState ChainDatabase.
From S2P Require Import Apply MarketOps Blocks Forks Chain ChainFacts OrderBook Engine EngineFacts.

(** ** The loop of an engine, whatever its rules are *)

Section loop.
Context (next_bid next_ask : engine -> result (bool * engine)).
Context (body : matching -> result (matching + matching)).

(** [while( get_next_bid() && get_next_ask() )], one turn: the assertion that an
    order was filled since the last one, then the body on the current pair. *)
Definition turn_with (g : matching) : result (matching + matching) :=
  '(found, e) ← next_bid (mg_engine g);
  if negb found then Ok (inr (set_mg_engine e g))
  else
    '(found, e) ← next_ask e;
    if negb found then Ok (inr (set_mg_engine e g))
    else
      _ ← fc_assert (negb (me_filled e =? mg_last g));
      body (mk_matching e (mg_quote g) (mg_base g) (mg_volume g) (mg_opening g) (mg_closing g) (me_filled e)).

Fixpoint loop_with (fuel : nat) (g : matching) : result matching :=
  match fuel with
  | O => Err assertion_abort
  | S fuel =>
      next ← turn_with g;
      match next with inl g => loop_with fuel g | inr g => Ok g end
  end.

(** What the loop relies on of its engine: a new order comes out of the books, and
    nothing is put back. *)
Class EngineRules : Prop := {
  rules_bid e e' : next_bid e = Ok (true, e') -> e' = e \/ takes e e';
  rules_ask e e' : next_ask e = Ok (true, e') -> e' = e \/ takes e e';
  rules_body g g' : body g = Ok (inl g') -> same_book (mg_engine g) (mg_engine g') /\ mg_last g' = mg_last g
}.

Lemma turn_with_decreases `{!EngineRules} g g' :
  turn_with g = Ok (inl g') -> (turns_left g' < turns_left g)%nat.
Proof.
  unfold turn_with. intros ((b1 & e1) & Hx & Ht)%bind_Ok. destruct b1; [|done]. cbn in Ht.
  apply bind_Ok in Ht as ((b2 & e2) & Hy & Ht). destruct b2; [|done]. cbn in Ht.
  apply bind_Ok in Ht as (_ & Hf%fc_assert_Ok%negb_true_iff & Hm).
  apply rules_body in Hm as [[Hb Hn] Hl]. cbn in Hb, Hn, Hl.
  unfold turns_left. rewrite Hb, Hn, Hl, Z.eqb_refl.
  apply rules_bid in Hx. apply rules_ask in Hy. unfold takes in *.
  destruct Hx as [->|Hx], Hy as [->|Hy]; [rewrite Hf|..]; lia.
Qed.

(** The loop without fuel. *)
Inductive runs_with (g : matching) : result matching -> Prop :=
| runs_throws e : turn_with g = Err e -> runs_with g (Err e)
| runs_leaves g' : turn_with g = Ok (inr g') -> runs_with g (Ok g')
| runs_turns g' r : turn_with g = Ok (inl g') -> runs_with g' r -> runs_with g r.

Lemma loop_with_runs `{!EngineRules} fuel g :
  (turns_left g < fuel)%nat -> runs_with g (loop_with fuel g).
Proof.
  revert g. induction fuel as [|fuel IH]; intros g Hg; [lia|]. cbn.
  destruct (turn_with g) as [[g'|g']|e] eqn:Ht; cbn; [|by apply runs_leaves|by apply runs_throws].
  eapply runs_turns; [done|]. apply IH. apply turn_with_decreases in Ht. lia.
Qed.

Lemma loop_with_ends `{!EngineRules} g : runs_with g (loop_with (loop_fuel g) g).
Proof. apply loop_with_runs. unfold turns_left, loop_fuel. case_match; lia. Qed.

(** A property of the state that taking orders and the body keep. *)
Section keeps.
Variable kept : engine -> Prop.
Hypothesis bid_keeps : forall e b e', next_bid e = Ok (b, e') -> kept e -> kept e'.
Hypothesis ask_keeps : forall e b e', next_ask e = Ok (b, e') -> kept e -> kept e'.
Hypothesis body_keeps : forall g x, body g = Ok x -> kept (mg_engine g) ->
  kept (match x with inl g' | inr g' => mg_engine g' end).

Lemma loop_with_keeps fuel g g' : loop_with fuel g = Ok g' -> kept (mg_engine g) -> kept (mg_engine g').
Proof using All.
  revert g. induction fuel as [|fuel IH]; intros g; cbn; [done|].
  intros (x & Ht & Hl)%bind_Ok He.
  assert (Hk : kept (match x with inl g' | inr g' => mg_engine g' end)).
  { clear Hl. unfold turn_with in Ht.
    apply bind_Ok in Ht as ((b & e1) & Hx%bid_keeps & Ht); [|done]. destruct b; cbn in Ht; [|by inv_ok].
    apply bind_Ok in Ht as ((b & e2) & Hy%ask_keeps & Ht); [|done]. destruct b; cbn in Ht; [|by inv_ok].
    inv_ok. by eapply body_keeps; [eassumption|]. }
  destruct x; [by eapply IH|by inv_ok].
Qed.
End keeps.

(** ** The history of the market *)

(** [update_market_history] over an engine's next orders; [merge] writes the record
    of the hour or of the day. *)
Definition history_with
    (merge : Z -> Z -> market_history_record -> pending_chain_state -> pending_chain_state)
    (m : market) (timestamp : Z) (g : matching) : result engine :=
  let e := mg_engine g in
  if amount (mg_volume g) <=? 0 then Ok e
  else
    '(found, e) ← next_bid e;
    if negb found then Ok e
    else
      '(found, e) ← next_ask e;
      if negb found then Ok e
      else
        bid ← require (me_bid e) assertion_abort;
        ask ← require (me_ask e) assertion_abort;
        highest_bid ← get_price null_price bid;
        lowest_ask ← get_price null_price ask;
        let new := mk_history highest_bid lowest_ask (mg_opening g) (mg_closing g) (amount (mg_volume g)) in
        let key := mk_history_key (mk_quote_id m) (mk_base_id m) each_block timestamp in
        let same := match last_block_record m (db_now (mk_db m)) with
                    | Some r => history_eqb r new | None => false end in
        Ok (upd_state (fun p =>
              merge each_day (timestamp - timestamp mod 86400) new
                (merge each_hour (timestamp - timestamp mod 3600) new
                   (if same then p else pending_store_market_history_record key new p))) e).
End loop.

(** ** The engine *)

Section engine_v7.
Context `{Crypto} `{FcNum} `{FcReal}.

(** The iterators of [execute]. *)
Definition open_book_v7 (quote_id base_id : Z) (db : chain_database) : order_book :=
  let next := mk_market_key (next_pair quote_id base_id) null_address in
  let start := mk_market_key (mk_price 0 base_id quote_id) null_address in
  mk_book (entries_below next (db_bids db)) [] (entries_below next (db_shorts db))
    (entries_from start (db_asks db)) (entries_below next (db_collateral db)) [].

(** ** The next orders *)

Definition get_next_short_v7 : market -> engine -> bool * engine := get_next_short.

(** A new bid: a short comes before a bid under the feed price. *)
Definition take_bid_v7 (m : market) (e : engine) : bool * engine :=
  let e := set_me_bid None (set_me_filled (me_filled e + 1) e) in
  match ob_bids (me_book e) with
  | (k, r) :: rest =>
      if in_market m (mk_order_price k) then
        let bid_taken := set_me_bid (Some (plain_order bid_order k r)) (upd_book (set_ob_bids rest) e) in
        if under_feed m (mk_order_price k) then
          match get_next_short_v7 m e with
          | (true, e') => (true, e')
          | (false, _) => (true, bid_taken)
          end
        else (true, bid_taken)
      else get_next_short_v7 m e
  | [] => get_next_short_v7 m e
  end.

(** [market_engine_v7::get_next_bid] *)
Definition get_next_bid_v7 (m : market) (e : engine) : result (bool * engine) :=
  match me_bid e with
  | Some o =>
      q ← get_quantity null_price o;
      Ok (if amount q >? 0 then (true, e) else take_bid_v7 m e)
  | None => Ok (take_bid_v7 m e)
  end.

(** The loop over the positions: one that is called or expired is taken; another of
    the market is passed over from BTS_V0_4_24 on and ends the iteration before, as
    one of another market does. *)
Fixpoint next_cover_v7 (m : market) (l : list (market_index_key * collateral_record)) (e : engine)
    : bool * engine :=
  match l with
  | [] => (false, upd_book (set_ob_covers []) e)
  | (k, r) :: rest =>
      if in_market m (mk_order_price k) then
        let e := set_me_collat r e in
        if above_feed m (mk_order_price k) || (cr_expiration r <=? pending_now (me_state e))
        then (true, set_me_ask (Some (cover_of k r)) (upd_book (set_ob_covers rest) e))
        else if pending_get_head_block_num (me_state e) >=? BTS_V0_4_24_FORK_BLOCK_NUM
        then next_cover_v7 m rest e
        else (false, upd_book (set_ob_covers []) e)
      else (false, upd_book (set_ob_covers []) e)
  end.

Definition next_plain_ask_v7 : market -> engine -> bool * engine := next_plain_ask.

Definition take_ask_v7 (m : market) (e : engine) : bool * engine :=
  let e := set_me_filled (me_filled e + 1) (set_me_ask None e) in
  let '(found, e) :=
    match me_bid e with
    | Some _ => next_cover_v7 m (ob_covers (me_book e)) e
    | None => (false, e)
    end in
  if found then (true, e) else next_plain_ask_v7 m e.

(** [market_engine_v7::get_next_ask] *)
Definition get_next_ask_v7 (m : market) (e : engine) : result (bool * engine) :=
  match me_ask e with
  | Some o => Ok (if mo_balance o >? 0 then (true, e) else take_ask_v7 m e)
  | None => Ok (take_ask_v7 m e)
  end.

(** ** Payments *)

Definition push_market_transaction_v7 : market_transaction -> engine -> result engine :=
  push_market_transaction.
Definition pay_current_short_v7 :
    market_transaction -> asset_record -> asset_record -> engine ->
    result (market_transaction * asset_record * engine) := pay_current_short.

(** [market_engine_v7::pay_current_bid]: the rest is dust at the bid's own price. *)
Definition pay_current_bid_v7 (m : market) (t : market_transaction) (quote : asset_record) (e : engine)
    : result (asset_record * engine) :=
  o ← require (me_bid e) assertion_abort;
  _ ← fc_assert (bool_decide (mo_type o = bid_order));
  _ ← fc_assert (mt_bid_type t =? 1);
  let o := spend_bid (amount (mt_bid_paid t)) o in
  _ ← fc_assert (mo_balance o >=? 0);
  let e := upd_state (pay_out (mt_bid_owner t) (mk_base_id m) (amount (mt_bid_received t))) e in
  left ← get_quote_quantity null_price o;
  p ← get_price null_price o;
  worth ← asset_mul left p;
  let '(quote, o) :=
    if amount worth =? 0 then (add_fees (amount left) quote, set_mo_balance 0 o) else (quote, o) in
  Ok (quote, set_me_bid (Some o) (upd_state (pending_store_bid_record (mo_index o) (mo_state o)) e)).

(** [market_engine_v7::pay_current_ask] *)
Definition pay_current_ask_v7 (m : market) (t : market_transaction) (dust : asset_record) (e : engine)
    : result (asset_record * engine) :=
  o ← require (me_ask e) assertion_abort;
  _ ← fc_assert (bool_decide (mo_type o = ask_order));
  _ ← fc_assert (mt_ask_type t =? 2);
  let o := spend_bid (amount (mt_ask_paid t)) o in
  _ ← fc_assert (mo_balance o >=? 0);
  let e := upd_state (pay_out (mt_ask_owner t) (mk_quote_id m) (amount (mt_ask_received t))) e in
  left ← get_quantity null_price o;
  p ← get_price null_price o;
  worth ← asset_mul left p;
  let '(dust, o) :=
    if amount worth =? 0 then (add_fees (amount left) dust, set_mo_balance 0 o) else (dust, o) in
  Ok (dust, set_me_ask (Some o) (upd_state (pending_store_ask_record (mo_index o) (mo_state o)) e)).

(** [market_engine_v7::get_current_cover_debt] *)
Definition get_current_cover_debt_v7 (e : engine) (o : market_order) : result asset :=
  principle ← get_balance o;
  age ← get_current_cover_age e o;
  let owed := if pending_get_head_block_num (me_state e) <? BTS_V0_4_23_FORK_BLOCK_NUM
              then get_interest_owed_v1 else get_interest_owed in
  interest ← owed principle (cr_interest_rate (me_collat e)) age;
  asset_add interest principle.

(** How the payment splits, and the debt left.  Before BTS_V0_4_23 the current
    formula is evaluated and its value replaced. *)
Definition split_cover_v7 (t : market_transaction) (quote_id : Z) (e : engine) (o : market_order)
    : result (asset * asset * Z) :=
  let principle := mk_asset (cr_payoff_balance (me_collat e)) quote_id in
  let rate := cr_interest_rate (me_collat e) in
  age ← get_current_cover_age e o;
  total_debt ← get_current_cover_debt_v7 e o;
  if asset_geb (mt_ask_received t) total_debt then
    interest_paid ← asset_sub (mt_ask_received t) principle;
    Ok (principle, interest_paid, 0)
  else
    interest_paid ← get_interest_paid (mt_ask_received t) rate age;
    interest_paid ← (if pending_get_head_block_num (me_state e) <? BTS_V0_4_23_FORK_BLOCK_NUM
                     then get_interest_paid_v1 (mt_ask_received t) rate age else Ok interest_paid);
    principle_paid ← asset_sub (mt_ask_received t) interest_paid;
    Ok (principle_paid, interest_paid, wrap64 (mo_balance o - amount principle_paid)).

(** [market_engine_v7::pay_current_cover] *)
Definition pay_current_cover_v7 (m : market) (t : market_transaction) (quote : asset_record) (e : engine)
    : result (market_transaction * asset_record * engine) :=
  o ← require (me_ask e) assertion_abort;
  _ ← fc_assert (bool_decide (mo_type o = cover_order));
  _ ← fc_assert (mt_ask_type t =? 4);
  let rate := cr_interest_rate (me_collat e) in
  _ ← fc_assert (quote_asset_id rate >? base_asset_id rate);
  '(principle_paid, interest_paid, payoff) ← split_cover_v7 t (as_id quote) e o;
  let o := set_mo_balance payoff o in
  _ ← fc_assert (amount principle_paid >=? 0);
  _ ← fc_assert (amount interest_paid >=? 0);
  _ ← fc_assert (mo_balance o >=? 0);
  c ← require (mo_collateral o) assertion_abort;
  let c := wrap64 (c - amount (mt_ask_paid t)) in
  _ ← fc_assert (c >=? 0);
  let quote := add_fees (amount interest_paid) (add_supply (- amount principle_paid) quote) in
  let '(quote, o) :=
    if c =? 0 then (add_fees (- mo_balance o) quote, set_mo_balance 0 o) else (quote, o) in
  '(t, c, e) ← (if (mo_balance o =? 0) && (c >? 0)
                then '(t, e) ← return_collateral m c t e o; Ok (t, 0, e)
                else Ok (t, c, e));
  let o := set_mo_collateral (Some c) o in
  let r := set_cr_payoff_balance (mo_balance o) (set_cr_collateral_balance c (me_collat e)) in
  Ok (t, quote,
      set_me_collat r (set_me_ask (Some o) (upd_state (pending_store_collateral_record (mo_index o) r) e))).

(** ** One pair of orders *)

(** The transaction the loop starts with, at the orders' own prices. *)
Definition open_transaction_v7 (bid ask : market_order) : result market_transaction :=
  bid_price ← get_price null_price bid;
  ask_price ← get_price null_price ask;
  Ok (mk_market_trx (mo_owner bid) (mo_owner ask) bid_price ask_price null_asset null_asset None
        null_asset null_asset None (order_type_num (mo_type bid)) (order_type_num (mo_type ask)) null_asset).

(** The price a short bids, unless it is skipped; a bid's own price. *)
Definition judge_bid_v7 (m : market) (quote : asset_record) (bid : market_order) (t : market_transaction)
    : result (option price) :=
  if bool_decide (mo_type bid = short_order) then
    _ ← fc_assert (is_market_issued quote);
    Ok (f ← mk_feed m;
        match or_limit_price (mo_state bid) with
        | Some l => if price_ltb l (mt_ask_price t) then None else Some (price_min l f)
        | None => Some f
        end)
  else Ok (Some (mt_bid_price t)).

(** A cover that is neither called nor expired, or would sell too cheap, is skipped;
    else it sells at the bid's price. *)
Definition judge_ask_v7 (m : market) (quote : asset_record) (e : engine) (ask : market_order)
    (t : market_transaction) : result verdict :=
  if bool_decide (mo_type ask = cover_order) then
    _ ← fc_assert (is_market_issued quote);
    Ok (match mk_feed m with
        | None => skip_ask
        | Some f =>
            if (price_ltb (mt_ask_price t) (mt_bid_price t)
                && (cr_expiration (me_collat e) >? pending_now (me_state e)))
               || price_ltb (mt_bid_price t) (minimum_ask f)
            then skip_ask
            else matched (set_mt_prices (mt_bid_price t) (mt_bid_price t) t)
        end)
  else Ok (if price_ltb (mt_bid_price t) (mt_ask_price t) then no_match else matched t).

Definition judge_v7 (m : market) (quote : asset_record) (e : engine) (bid ask : market_order)
    : result verdict :=
  t ← open_transaction_v7 bid ask;
  bid_price ← judge_bid_v7 m quote bid t;
  match bid_price with
  | None => Ok skip_bid
  | Some p => judge_ask_v7 m quote e ask (set_mt_prices p (mt_ask_price t) t)
  end.

Definition cover_amounts_v7 (m : market) (t : market_transaction) (e : engine) (ask : market_order)
    (for_sale : asset) : result (asset * asset) :=
  c ← require (mo_collateral ask) assertion_abort;
  let cover_collateral := mk_asset c (mk_base_id m) in
  afford ← asset_mul cover_collateral (mt_bid_price t);
  debt ← get_current_cover_debt_v7 e ask;
  let usd_exchanged := asset_min (asset_min for_sale afford) debt in
  ask_paid ← (if asset_eqb usd_exchanged afford then Ok cover_collateral
              else asset_mul usd_exchanged (mt_ask_price t));
  Ok (usd_exchanged, ask_paid).

Definition match_cover_short_v7 (m : market) (t : market_transaction) (quote base : asset_record) (e : engine)
    (bid ask : market_order) : result (market_transaction * asset_record * asset_record * engine) :=
  f ← require (mk_feed m) assertion_abort;
  bid_balance ← get_balance bid;
  for_sale ← asset_mul bid_balance (collateral_rate f);
  '(usd, ask_paid) ← cover_amounts_v7 m t e ask for_sale;
  c ← (if asset_eqb usd for_sale then Ok bid_balance else asset_mul usd (collateral_rate f));
  '(t, quote, e) ← pay_current_short_v7 (trade usd ask_paid (Some c) t) quote base e;
  '(t, quote, e) ← pay_current_cover_v7 m t quote e;
  Ok (t, quote, base, e).

Definition match_cover_bid_v7 (m : market) (t : market_transaction) (quote base : asset_record) (e : engine)
    (bid ask : market_order) : result (market_transaction * asset_record * asset_record * engine) :=
  for_sale ← get_balance bid;
  '(usd, ask_paid) ← cover_amounts_v7 m t e ask for_sale;
  let t := trade usd ask_paid (mt_short_collateral t) t in
  '(quote, e) ← pay_current_bid_v7 m t quote e;
  '(t, quote, e) ← pay_current_cover_v7 m t quote e;
  Ok (t, quote, base, e).

(** The dust of the ask goes to the record of the quote asset here too. *)
Definition match_ask_short_v7 (m : market) (t : market_transaction) (quote base : asset_record) (e : engine)
    (bid ask : market_order) : result (market_transaction * asset_record * asset_record * engine) :=
  f ← require (mk_feed m) assertion_abort;
  ask_quantity_usd ← get_quote_quantity null_price ask;
  bid_balance ← get_balance bid;
  short_quantity_usd ← asset_mul bid_balance (collateral_rate f);
  let usd := asset_min short_quantity_usd ask_quantity_usd in
  '(ask_paid, c) ←
    (if asset_eqb usd short_quantity_usd
     then paid ← asset_mul usd (mt_ask_price t); Ok (paid, bid_balance)
     else paid ← get_balance ask; c ← asset_mul usd (collateral_rate f); Ok (paid, c));
  '(t, quote, e) ← pay_current_short_v7 (trade usd ask_paid (Some c) t) quote base e;
  '(quote, e) ← pay_current_ask_v7 m t quote e;
  Ok (t, quote, base, e).

Definition match_ask_bid_v7 (m : market) (t : market_transaction) (quote base : asset_record) (e : engine)
    (bid ask : market_order) : result (market_transaction * asset_record * asset_record * engine) :=
  bid_quantity ← get_quantity null_price bid;
  ask_quantity ← get_quantity null_price ask;
  let quantity := asset_min bid_quantity ask_quantity in
  ask_received ← asset_mul quantity (mt_ask_price t);
  exact ← asset_mul quantity (mt_bid_price t);
  bid_paid ← (if asset_eqb quantity bid_quantity then get_balance bid else Ok exact);
  ask_paid ← (if asset_eqb quantity ask_quantity then get_balance ask else Ok quantity);
  fees ← asset_sub bid_paid ask_received;
  let t := set_mt_fees fees (mt_returned_collateral t)
             (set_mt_amounts bid_paid quantity (mt_short_collateral t) ask_paid ask_received t) in
  '(quote, e) ← pay_current_bid_v7 m t quote e;
  '(base, e) ← pay_current_ask_v7 m t base e;
  Ok (t, quote, base, e).

Definition match_orders_v7 (m : market) (t : market_transaction) (quote base : asset_record) (e : engine)
    (bid ask : market_order) : result (market_transaction * asset_record * asset_record * engine) :=
  match mo_type ask, mo_type bid with
  | cover_order, short_order => match_cover_short_v7 m t quote base e bid ask
  | cover_order, bid_order => match_cover_bid_v7 m t quote base e bid ask
  | ask_order, short_order => match_ask_short_v7 m t quote base e bid ask
  | ask_order, bid_order => match_ask_bid_v7 m t quote base e bid ask
  | _, _ => Ok (t, quote, base, e)
  end.

(** ** Running a market *)

(** The body of the loop. *)
Definition match_current_v7 (m : market) (g : matching) : result (matching + matching) :=
  let e := mg_engine g in
  bid ← require (me_bid e) assertion_abort;
  ask ← require (me_ask e) assertion_abort;
  v ← judge_v7 m (mg_quote g) e bid ask;
  match v with
  | skip_bid => Ok (inl (set_mg_engine (set_me_bid None e) g))
  | skip_ask => Ok (inl (set_mg_engine (set_me_ask None e) g))
  | no_match => Ok (inr g)
  | matched t =>
      '(t, quote, base, e) ← match_orders_v7 m t (mg_quote g) (mg_base g) e bid ask;
      g ← settle_match t quote base e g;
      Ok (inl g)
  end.

Definition match_loop_v7 (fuel : nat) (m : market) (g : matching) : result matching :=
  loop_with (get_next_bid_v7 m) (get_next_ask_v7 m) (match_current_v7 m) fuel g.

Definition update_market_history_v7 (m : market) (timestamp : Z) (g : matching) : result engine :=
  history_with (get_next_bid_v7 m) (get_next_ask_v7 m) (merge_history m) m timestamp g.

(** Up to BTS_V0_4_28 a feed is asked of every market issued quote asset, whatever
    the base is. *)
Definition needs_feed_v7 (num : Z) (quote base : asset_record) : bool :=
  is_market_issued quote && ((num <? BTS_V0_4_28_FORK_BLOCK_NUM) || (as_id base =? 0)).

Definition run_market_v7 (m : market) (timestamp : Z) (quote base : asset_record) (e : engine)
    : result engine :=
  let status := pending_get_market_status (me_state e) (mk_quote_id m, mk_base_id m) in
  _ ← (if needs_feed_v7 (pending_get_head_block_num (me_state e)) quote base
          && bool_decide ((status ≫= mst_last_valid_feed_price) = None) && bool_decide (mk_feed m = None)
       then Err insufficient_feeds else Ok tt);
  '(_, e) ← get_next_bid_v7 m e;
  '(_, e) ← get_next_ask_v7 m e;
  let g := mk_matching e quote base (mk_asset 0 (mk_base_id m)) null_price null_price (-1) in
  g ← match_loop_v7 (loop_fuel g) m g;
  let e := upd_state (fun p => pending_store_asset_record (mg_base g)
                                 (pending_store_asset_record (mg_quote g) p)) (mg_engine g) in
  p ← note_status (mk_quote_id m) (mk_base_id m) (mk_feed m) None (me_state e);
  update_market_history_v7 m timestamp (set_mg_engine (set_me_state p e) g).

Definition try_market_v7 (db : chain_database) (quote_id base_id timestamp : Z) (prior : pending_chain_state)
    : option price * result engine :=
  let e := new_engine prior (open_book_v7 quote_id base_id db) in
  let start :=
    (quote ← require (pending_get_asset_record (me_state e) quote_id) assert_exception;
     base ← require (pending_get_asset_record (me_state e) base_id) assert_exception;
     feed ← db_get_median_delegate_price db quote_id base_id;
     Ok (quote, base, feed)) in
  match start with
  | Ok (quote, base, feed) =>
      (feed, run_market_v7 (mk_market db quote_id base_id feed) timestamp quote base e)
  | Err x => (None, Err x)
  end.

(** [market_engine_v7::execute] *)
Definition execute_v7 (db : chain_database) (quote_id base_id timestamp : Z) (prior : pending_chain_state)
    : result (pending_chain_state * list market_transaction) :=
  let '(feed, outcome) := try_market_v7 db quote_id base_id timestamp prior in
  let '(prior, failure) :=
    match outcome with
    | Ok e => run_steps (apply_changes_steps (me_state e)) prior
    | Err x => (prior, Some x)
    end in
  match outcome, failure with
  | Ok e, None => Ok (prior, me_transactions e)
  | _, Some x =>
      if is_abort x then Err x
      else p ← note_status quote_id base_id feed (Some x) prior; Ok (p, [])
  | Err x, None => Err x
  end.

Definition cancel_current_short_v7 :
    market_transaction -> Z -> engine -> result (market_transaction * engine) := cancel_current_short.
Definition cancel_all_shorts_v7 :
    chain_database -> pending_chain_state -> result (pending_chain_state * list market_transaction) :=
  cancel_all_shorts.
End engine_v7.
