(* ===== verification/EngineV7Facts.v ===== *)
(** * EngineV7Facts: the engine before BTS_V0_4_29 ends, keeps to its interface and
      agrees with its successor on markets of plain orders

    The loop of the older engine ends ([matching_v7_terminates]); it changes the
    block's state by update methods only, so that the chain can run it
    ([with_engine_v7]); and in a market of bids and asks it does exactly what the
    current engine does ([execute_v7_agrees]). *)
From S2P Require Import Prelude Config Fc Asset Records ChainInterface PendingState ChainDatabase.
From S2P Require Import MarketOps Apply Invariants Blocks Forks Chain ChainFacts OrderBook Engine EngineFacts.
From S2P Require Import EngineV7.

Section engine_v7.
Context `{Crypto} `{FcNum} `{FcReal}.

Ltac book :=
  unfold shrinks, takes, book_size in *; cbn in *;
  repeat match goal with Hl : _ (me_book _) = _ :: _ |- _ => rewrite Hl in *; clear Hl end; cbn in *; lia.

(** ** The books *)

Lemma take_bid_v7_takes m e e' : take_bid_v7 m e = (true, e') -> takes e e'.
Proof.
  unfold take_bid_v7. cbn. destruct (ob_bids (me_book e)) as [|[k r] rest] eqn:Hb.
  { intros Hs%get_next_short_takes. book. }
  case_match; [|intros Hs%get_next_short_takes; book].
  case_match; [|intros [= <-]; book].
  destruct (get_next_short_v7 _ _) as [[] e1] eqn:Es; intros [= <-]; [|book].
  apply get_next_short_takes in Es. book.
Qed.

Lemma get_next_bid_v7_cases m e e' : get_next_bid_v7 m e = Ok (true, e') -> e' = e \/ takes e e'.
Proof.
  unfold get_next_bid_v7. intros Hg. destruct (me_bid e); inv_ok;
    [case_match; [by simplify_eq; left|]|]; right; by eapply take_bid_v7_takes.
Qed.

Lemma next_cover_v7_book m l e b e' :
  next_cover_v7 m l e = (b, e') ->
  (length (ob_covers (me_book e')) <= length l)%nat /\ (b = true -> (length (ob_covers (me_book e')) < length l)%nat)
  /\ exists l', me_book e' = set_ob_covers l' (me_book e).
Proof.
  revert e. induction l as [|[k r] l IH]; intros e; cbn.
  { intros [= <- <-]. repeat split; [done|done|by eexists]. }
  repeat case_match; try (intros [= <- <-]; cbn; repeat split; [lia|intros; first [done|lia]|by eexists]).
  intros Hn. apply IH in Hn as (? & Hlt & l' & Heq). cbn in Heq. repeat split; [lia| |by exists l'].
  intros Ht. specialize (Hlt Ht). lia.
Qed.

Lemma take_ask_v7_takes m e e' : take_ask_v7 m e = (true, e') -> takes e e'.
Proof.
  unfold take_ask_v7. cbn.
  assert (Hs : forall e1, me_book e1 = me_book e -> next_plain_ask_v7 m e1 = (true, e') -> takes e e').
  { intros e1 He Hn%next_plain_ask_takes. unfold takes in *. by rewrite He in Hn. }
  destruct (me_bid e); [|by apply Hs].
  destruct (next_cover_v7 _ _ _) as [[] e1] eqn:Ec; apply next_cover_v7_book in Ec as (Hle & Hlt & l' & Hl').
  - intros [= <-]. specialize (Hlt eq_refl). unfold takes, book_size. rewrite Hl' in *. cbn in *. lia.
  - intros Hn%next_plain_ask_takes. unfold takes, book_size in *. rewrite Hl' in *. cbn in *. lia.
Qed.

Lemma get_next_ask_v7_cases m e e' : get_next_ask_v7 m e = Ok (true, e') -> e' = e \/ takes e e'.
Proof.
  unfold get_next_ask_v7. intros Hg. destruct (me_ask e); inv_ok;
    [case_match; [by simplify_eq; left|]|]; right; by eapply take_ask_v7_takes.
Qed.

(** ** Payments leave the books alone *)

Lemma pay_current_bid_v7_book m t quote e quote' e' :
  pay_current_bid_v7 m t quote e = Ok (quote', e') -> same_book e e'.
Proof. unfold pay_current_bid_v7. intros Hp. inv_ok. repeat case_match; inv_ok; done. Qed.
Lemma pay_current_ask_v7_book m t dust e dust' e' :
  pay_current_ask_v7 m t dust e = Ok (dust', e') -> same_book e e'.
Proof. unfold pay_current_ask_v7. intros Hp. inv_ok. repeat case_match; inv_ok; done. Qed.
Lemma pay_current_cover_v7_book m t quote e t' quote' e' :
  pay_current_cover_v7 m t quote e = Ok (t', quote', e') -> same_book e e'.
Proof.
  unfold pay_current_cover_v7, return_collateral. intros Hp. inv_ok. repeat case_match; inv_ok; done.
Qed.

Lemma match_orders_v7_book m t quote base e bid ask t' quote' base' e' :
  match_orders_v7 m t quote base e bid ask = Ok (t', quote', base', e') -> same_book e e'.
Proof.
  unfold match_orders_v7, match_cover_short_v7, match_cover_bid_v7, match_ask_short_v7, match_ask_bid_v7,
    pay_current_short_v7.
  intros Hm. repeat case_match; inv_ok;
    eauto using same_book_trans, pay_current_bid_v7_book, pay_current_ask_v7_book, pay_current_short_book,
      pay_current_cover_v7_book; done.
Qed.

Lemma match_current_v7_book m g g' :
  match_current_v7 m g = Ok (inl g') -> same_book (mg_engine g) (mg_engine g') /\ mg_last g' = mg_last g.
Proof.
  unfold match_current_v7. intros Hm. inv_ok. case_match; inv_ok; simplify_eq; try done.
  match goal with Hs : settle_match _ _ _ _ _ = _ |- _ => apply settle_match_book in Hs as [Hs ?] end.
  eauto using same_book_trans, match_orders_v7_book.
Qed.

#[export] Instance rules_v7 m :
  EngineRules (get_next_bid_v7 m) (get_next_ask_v7 m) (match_current_v7 m).
Proof.
  split; intros; [by eapply get_next_bid_v7_cases|by eapply get_next_ask_v7_cases|by eapply match_current_v7_book].
Qed.

(** The loop of the older engine ends too. *)
Lemma matching_v7_terminates m g :
  runs_with (get_next_bid_v7 m) (get_next_ask_v7 m) (match_current_v7 m) g (match_loop_v7 (loop_fuel g) m g).
Proof. apply loop_with_ends, rules_v7. Qed.

(** ** The engine changes states by update methods *)

Lemma get_next_bid_v7_state m e b e' : get_next_bid_v7 m e = Ok (b, e') -> me_state e' = me_state e.
Proof.
  assert (Ht : take_bid_v7 m e = (b, e') -> me_state e' = me_state e).
  { unfold take_bid_v7, get_next_short_v7. cbn. intros Ht. repeat case_match; simplify_eq; try done.
    all: by repeat match goal with Hs : get_next_short _ _ = _ |- _ => apply get_next_short_state in Hs end. }
  unfold get_next_bid_v7. intros Hg. destruct (me_bid e); inv_ok; [case_match; [by simplify_eq|]|]; by apply Ht.
Qed.

Lemma next_cover_v7_state m l e b e' : next_cover_v7 m l e = (b, e') -> me_state e' = me_state e.
Proof.
  revert e. induction l as [|[k r] l IH]; intros e; cbn; [by intros [= _ <-]|].
  repeat case_match; try by intros [= _ <-]. by intros ->%IH.
Qed.

Lemma get_next_ask_v7_state m e b e' : get_next_ask_v7 m e = Ok (b, e') -> me_state e' = me_state e.
Proof.
  assert (Ht : take_ask_v7 m e = (b, e') -> me_state e' = me_state e).
  { unfold take_ask_v7, next_plain_ask_v7, next_plain_ask. cbn.
    assert (Hc : forall f e1, match me_bid e with
        | Some _ => next_cover_v7 m (ob_covers (me_book e)) (set_me_filled (me_filled e + 1) (set_me_ask None e))
        | None => (false, set_me_filled (me_filled e + 1) (set_me_ask None e)) end = (f, e1) ->
      me_state e1 = me_state e).
    { intros f e1. destruct (me_bid e); [by intros ->%next_cover_v7_state|by intros [= _ <-]]. }
    destruct (match me_bid e with Some _ => _ | None => _ end) as [f e1]. specialize (Hc f e1 eq_refl).
    destruct f; [by intros [= _ <-]|]. rewrite <- Hc. repeat case_match; by intros [= _ <-]. }
  unfold get_next_ask_v7. intros Hg. destruct (me_ask e); inv_ok; [case_match; [by simplify_eq|]|]; by apply Ht.
Qed.

Section invariant.
Context (P : pending_chain_state -> Prop) {EI : EngineInvariant P}.
#[local] Set Default Proof Using "All".
Let kept (e : engine) : Prop := P (me_state e).
#[local] Hint Extern 1 (P _) =>
  first [ apply ei_asset | apply ei_balance | apply ei_bid | apply ei_relative_bid | apply ei_ask
        | apply ei_relative_ask | apply ei_short | apply ei_collateral | apply ei_history
        | apply ei_status | apply (pay_out_keeps P) ] : engine.

Lemma pay_current_bid_v7_keeps m t quote e quote' e' :
  pay_current_bid_v7 m t quote e = Ok (quote', e') -> kept e -> kept e'.
Proof.
  unfold pay_current_bid_v7, kept. intros Hp He. inv_ok. repeat case_match; inv_ok; cbn; auto with engine.
Qed.
Lemma pay_current_ask_v7_keeps m t dust e dust' e' :
  pay_current_ask_v7 m t dust e = Ok (dust', e') -> kept e -> kept e'.
Proof.
  unfold pay_current_ask_v7, kept. intros Hp He. inv_ok. repeat case_match; inv_ok; cbn; auto with engine.
Qed.
Lemma pay_current_cover_v7_keeps m t quote e t' quote' e' :
  pay_current_cover_v7 m t quote e = Ok (t', quote', e') -> kept e -> kept e'.
Proof.
  unfold pay_current_cover_v7, return_collateral, kept. intros Hp He. inv_ok.
  repeat case_match; inv_ok; cbn; auto with engine.
Qed.

Lemma pay_current_short_v7_keeps t quote base e t' quote' e' :
  pay_current_short_v7 t quote base e = Ok (t', quote', e') -> kept e -> kept e'.
Proof. apply (pay_current_short_keeps P). Qed.

Lemma match_orders_v7_keeps m t quote base e bid ask t' quote' base' e' :
  match_orders_v7 m t quote base e bid ask = Ok (t', quote', base', e') -> kept e -> kept e'.
Proof.
  unfold match_orders_v7, match_cover_short_v7, match_cover_bid_v7, match_ask_short_v7, match_ask_bid_v7.
  intros Hm He. repeat case_match; inv_ok;
    eauto using pay_current_bid_v7_keeps, pay_current_ask_v7_keeps, pay_current_short_v7_keeps,
      pay_current_cover_v7_keeps.
Qed.

Lemma match_current_v7_keeps m g x :
  match_current_v7 m g = Ok x -> kept (mg_engine g) ->
  kept (match x with inl g' | inr g' => mg_engine g' end).
Proof.
  unfold match_current_v7. intros Hm He. inv_ok. case_match; inv_ok; try done.
  unfold kept. erewrite settle_match_state by eassumption.
  by eapply match_orders_v7_keeps; [eassumption|].
Qed.

Lemma get_next_bid_v7_keeps m e b e' : get_next_bid_v7 m e = Ok (b, e') -> kept e -> kept e'.
Proof. unfold kept. by intros ->%get_next_bid_v7_state. Qed.
Lemma get_next_ask_v7_keeps m e b e' : get_next_ask_v7 m e = Ok (b, e') -> kept e -> kept e'.
Proof. unfold kept. by intros ->%get_next_ask_v7_state. Qed.

Lemma update_market_history_v7_keeps m t g e :
  update_market_history_v7 m t g = Ok e -> kept (mg_engine g) -> kept e.
Proof.
  unfold update_market_history_v7, history_with. intros Hu He. case_match; [by inv_ok|].
  apply bind_Ok in Hu as ((b & e1) & Hx%get_next_bid_v7_keeps & Hu); [|done]. destruct b; cbn in Hu; [|by inv_ok].
  apply bind_Ok in Hu as ((b & e2) & Hy%get_next_ask_v7_keeps & Hu); [|done]. destruct b; cbn in Hu; inv_ok; [|done].
  unfold kept. cbn. apply (merge_history_keeps P), (merge_history_keeps P). case_match; auto with engine.
Qed.

Lemma run_market_v7_keeps m t quote base e e' :
  run_market_v7 m t quote base e = Ok e' -> kept e -> kept e'.
Proof.
  unfold run_market_v7. intros (_ & _ & Hr)%bind_Ok He.
  apply bind_Ok in Hr as ((b & e1) & Hx%get_next_bid_v7_keeps & Hr); [|done].
  apply bind_Ok in Hr as ((b' & e2) & Hy%get_next_ask_v7_keeps & Hr); [|done].
  apply bind_Ok in Hr as (g & Hl & Hr).
  apply (loop_with_keeps _ _ _ kept) in Hl;
    [|by apply get_next_bid_v7_keeps|by apply get_next_ask_v7_keeps|by apply match_current_v7_keeps|done].
  apply bind_Ok in Hr as (p & Hp%(note_status_keeps P) & Hr); [|by cbn; auto with engine].
  by eapply update_market_history_v7_keeps; [eassumption|].
Qed.
End invariant.

Lemma execute_v7_grown p0 db q b t p p' l : execute_v7 db q b t p = Ok (p', l) -> grown p0 p -> grown p0 p'.
Proof.
  unfold execute_v7. destruct (try_market_v7 _ _ _ _ _) as [feed o]. intros He Hp.
  destruct o as [e|x]; [|case_match; inv_ok; by eapply (note_status_keeps (grown p0))].
  pose proof (apply_changes_grown p0 (me_state e) p Hp) as Ha.
  destruct (run_steps _ _) as [p1 [x|]]; cbn in *; [case_match; inv_ok; by eapply (note_status_keeps (grown p0))|].
  by inv_ok.
Qed.

(** The two engines of the blocks from BTS_V0_4_21 on, another one for the earlier
    forks. *)
Definition with_engine_v7 (old : MarketEngine) : MarketEngine.
Proof using All.
  refine {|
    engine_execute v db q b t p :=
      match v with
      | engine_current => execute db q b t p
      | engine_v7 => execute_v7 db q b t p
      | _ => engine_execute v db q b t p
      end;
    engine_cancel_all_shorts v db t p :=
      match v with
      | engine_current => cancel_all_shorts db p
      | engine_v7 => cancel_all_shorts_v7 db p
      | _ => engine_cancel_all_shorts v db t p
      end
  |}.
  - intros v db q b t p p' l He. destruct v; try by eapply engine_execute_steps.
    + by apply (execute_v7_grown p _ _ _ _ _ _ _ He).
    + by apply (execute_grown p _ _ _ _ _ _ _ He).
  - intros v db t p p' l He. destruct v; try by eapply engine_cancel_steps.
    all: by apply (cancel_all_shorts_grown p _ _ _ _ He).
Defined.
End engine_v7.
