(* ===== verification/EngineAgree.v ===== *)
(** * EngineAgree: two engines, one market of plain orders

    From BTS_V0_4_29 on markets are executed by market_engine.cpp and before by
    market_engine_v7.cpp.  [execute_v7_agrees] shows that the change of engines made
    no difference to a market of bids and asks between assets that are not market
    issued: both leave the same state and the same transactions. *)
From S2P Require Import Prelude Config Fc Asset Records ChainInterface PendingState ChainDatabase.
From S2P Require Import MarketOps Apply Invariants Blocks Forks Chain ChainFacts OrderBook BookFacts Engine EngineFacts.
From S2P Require Import EngineV7 EngineV7Facts.
From stdpp Require Import sorting.
Local Open Scope Z_scope.

(** The books the older engine has. *)
Definition erase_book (b : order_book) : order_book :=
  mk_book (ob_bids b) [] (ob_shorts b) (ob_asks b) (ob_covers b) [].
Definition erase (e : engine) : engine := set_me_book (erase_book (me_book e)) e.
Definition erase_matching (g : matching) : matching := set_mg_engine (erase (mg_engine g)) g.

(** Both return, with related values, or both throw the same. *)
Definition agree {A B} (R : A -> B -> Prop) (x : result A) (y : result B) : Prop :=
  match x, y with
  | Ok a, Ok b => R a b
  | Err e, Err e' => e = e'
  | _, _ => False
  end.

Lemma agree_bind {A B A' B'} (R : A -> B -> Prop) (S : A' -> B' -> Prop) x y k k' :
  agree R x y -> (forall a b, x = Ok a -> R a b -> agree S (k a) (k' b)) -> agree S (x ≫= k) (y ≫= k').
Proof. destruct x, y; cbn; intros Hr Hk; try done. by apply Hk. Qed.

Lemma agree_same {A A' B'} (S : A' -> B' -> Prop) (x : result A) k k' :
  (forall a, x = Ok a -> agree S (k a) (k' a)) -> agree S (x ≫= k) (x ≫= k').
Proof. destruct x; cbn; auto. Qed.

Lemma agree_eq {A} (x y : result A) : agree eq x y -> x = y.
Proof. destruct x, y; cbn; intros Ha; by rewrite ?Ha. Qed.

Section agree.
Context `{Crypto} `{FcNum} `{FcReal}.
Variable m : market.

(** No relative bids, and no positions of the market. *)
Record plain (e : engine) : Prop := {
  pl_relative : ob_relative_bids (me_book e) = [];
  pl_covers : Forall (fun kr => in_market m (mk_order_price kr.1) = false) (ob_covers (me_book e));
  pl_expired : Forall (fun x => x.1.1 <> mk_quote_id m) (ob_expired (me_book e));
  pl_bid : from_option (fun o => mo_type o = bid_order \/ mo_type o = short_order) True (me_bid e);
  pl_ask : from_option (fun o => mo_type o = ask_order) True (me_ask e)
}.

Definition next_related (x y : bool * engine) : Prop := y = (x.1, erase x.2) /\ plain x.2.

Lemma get_next_short_agrees e : plain e -> next_related (get_next_short m e) (get_next_short_v7 m (erase e)).
Proof.
  intros [? ? ? ? ?]. unfold get_next_short_v7, get_next_short, next_related. cbn.
  destruct (ob_shorts (me_book e)) as [|[k r] rest]; [by repeat split|].
  case_match; [|by repeat split]. repeat split; cbn; auto.
Qed.

Lemma take_bid_agrees e : plain e -> agree next_related (take_bid m e) (Ok (take_bid_v7 m (erase e))).
Proof.
  intros Hp. unfold take_bid, take_bid_v7, peek_bid, peek_relative_bid.
  change (set_me_bid None (set_me_filled (me_filled (erase e) + 1) (erase e)))
    with (erase (set_me_bid None (set_me_filled (me_filled e + 1) e))).
  assert (Hp1 : plain (set_me_bid None (set_me_filled (me_filled e + 1) e))) by by destruct Hp; split.
  revert Hp1. generalize (set_me_bid None (set_me_filled (me_filled e + 1) e)). clear e Hp.
  intros e Hp. pose proof (get_next_short_agrees _ Hp) as Hs. pose proof Hp as [Hrel Hcov Hexp Hbid Hask].
  rewrite Hrel. change (ob_bids (me_book (erase e))) with (ob_bids (me_book e)).
  cbn [mbind result_bind agree].
  destruct (ob_bids (me_book e)) as [|[k r] rest] eqn:Hb; [exact Hs|].
  change (mo_price (plain_order bid_order k r)) with (mk_order_price k).
  destruct (in_market m (mk_order_price k)); [|exact Hs].
  rewrite bool_decide_eq_false_2 by done. change (mo_price (plain_order bid_order k r)) with (mk_order_price k).
  assert (Ht : next_related
    (true, set_me_bid (Some (plain_order bid_order k r)) (upd_book (fun b => set_ob_bids (tail (ob_bids b)) b) e))
    (true, set_me_bid (Some (plain_order bid_order k r)) (upd_book (set_ob_bids rest) (erase e)))).
  { split; [|by split; cbn; auto]. unfold erase, erase_book, upd_book. cbn. rewrite Hb. done. }
  destruct (under_feed m (mk_order_price k)); [|exact Ht].
  destruct (get_next_short m e) as [[] e1]; destruct Hs as [Hs1 Hs2]; rewrite Hs1; [by split|exact Ht].
Qed.

Lemma get_next_bid_agrees e : plain e -> agree next_related (get_next_bid m e) (get_next_bid_v7 m (erase e)).
Proof.
  intros Hp. unfold get_next_bid, get_next_bid_v7. change (me_bid (erase e)) with (me_bid e).
  destruct (me_bid e) as [o|]; [|by apply take_bid_agrees].
  apply agree_same. intros q _. case_match; [by split|by apply take_bid_agrees].
Qed.

Lemma next_plain_ask_agrees e : plain e -> next_related (next_plain_ask m e) (next_plain_ask_v7 m (erase e)).
Proof.
  intros [? ? ? ? ?]. unfold next_plain_ask_v7, next_plain_ask, next_related. cbn.
  destruct (ob_asks (me_book e)) as [|[k r] rest]; [by repeat split|].
  case_match; repeat split; cbn; auto.
Qed.

Lemma next_expired_plain e : plain e ->
  next_expired m (pending_now (me_state e)) (ob_expired (me_book e)) e = Ok (false, e).
Proof.
  intros [_ _ He _ _]. destruct (ob_expired (me_book e)) as [|[[q t] k] l]; [done|]. cbn.
  apply Forall_cons in He as [Hq _]. cbn in Hq. by destruct (Z.eqb_spec q (mk_quote_id m)).
Qed.

Lemma take_ask_agrees e : plain e -> agree next_related (take_ask m e) (Ok (take_ask_v7 m (erase e))).
Proof.
  intros Hp. unfold take_ask, take_ask_v7.
  change (set_me_filled (me_filled (erase e) + 1) (set_me_ask None (erase e)))
    with (erase (set_me_filled (me_filled e + 1) (set_me_ask None e))).
  assert (Hp1 : plain (set_me_filled (me_filled e + 1) (set_me_ask None e))) by by destruct Hp; split.
  revert Hp1. generalize (set_me_filled (me_filled e + 1) (set_me_ask None e)). clear e Hp.
  intros e Hp. pose proof Hp as [Hrel Hcov Hexp Hbid Hask].
  assert (exists e1, plain e1 /\ next_margin_call m e = (false, e1) /\
    match me_bid (erase e) with
    | Some _ => next_cover_v7 m (ob_covers (me_book (erase e))) (erase e)
    | None => (false, erase e)
    end = (false, erase e1)) as (e1 & Hp1 & -> & ->).
  { unfold next_margin_call. change (me_bid (erase e)) with (me_bid e).
    change (ob_covers (me_book (erase e))) with (ob_covers (me_book e)).
    destruct (me_bid e) eqn:Hb; [|by exists e].
    destruct (ob_covers (me_book e)) as [|[k r] rest] eqn:Hc; cbn.
    - exists e. split; [done|]. split; [done|]. unfold erase, erase_book, upd_book, set_ob_covers. cbn. by rewrite Hc.
    - pose proof Hcov as [Hk _]%Forall_cons. cbn in Hk. rewrite Hk.
      exists (upd_book (set_ob_covers []) e). split; [by split; cbn; rewrite ?Hb; auto|done]. }
  rewrite next_expired_plain by done. cbn [mbind result_bind agree]. by apply next_plain_ask_agrees.
Qed.

Lemma get_next_ask_agrees e : plain e -> agree next_related (get_next_ask m e) (get_next_ask_v7 m (erase e)).
Proof.
  intros Hp. unfold get_next_ask, get_next_ask_v7. change (me_ask (erase e)) with (me_ask e).
  destruct (me_ask e) as [o|]; [|by apply take_ask_agrees].
  case_match; [by split|by apply take_ask_agrees].
Qed.
(** ** A match *)

(** A bid meets an ask. *)
Record pair_at_hand (bid ask : market_order) (e : engine) : Prop := {
  ph_bid : me_bid e = Some bid;
  ph_ask : me_ask e = Some ask;
  ph_bid_type : mo_type bid = bid_order;
  ph_ask_type : mo_type ask = ask_order
}.

(** The transaction of the two, at their own prices. *)
Definition own_prices (bid ask : market_order) (t : market_transaction) : Prop :=
  mt_bid_price t = mo_price bid /\ mt_ask_price t = mo_price ask /\ mt_bid_type t = 1 /\ mt_ask_type t = 2.

Lemma judge_agrees quote e bid ask :
  pair_at_hand bid ask e ->
  exists t, own_prices bid ask t /\
    judge m quote e bid ask = Ok (if price_ltb (mo_price bid) (mo_price ask) then no_match else matched t) /\
    judge_v7 m quote (erase e) bid ask
    = Ok (if price_ltb (mo_price bid) (mo_price ask) then no_match else matched t).
Proof.
  intros [_ _ Hb Ha]. eexists. unfold judge, judge_v7, open_transaction, open_transaction_v7, get_price.
  rewrite Hb, Ha. cbn [mbind result_bind]. unfold judge_bid, judge_bid_v7. rewrite Hb.
  rewrite (bool_decide_eq_false_2 (bid_order = short_order)) by done. cbn [mbind result_bind].
  unfold judge_ask, judge_ask_v7. rewrite Ha.
  rewrite (bool_decide_eq_false_2 (ask_order = relative_ask_order)) by done.
  rewrite (bool_decide_eq_false_2 (ask_order = cover_order)) by done.
  cbn. split; [|split; reflexivity]. done.
Qed.

(** Only the fees of an asset change. *)
Lemma add_fees_issued v r : is_market_issued (add_fees v r) = is_market_issued r.
Proof. done. Qed.

Lemma pay_current_bid_agrees t quote e bid ask :
  pair_at_hand bid ask e -> own_prices bid ask t -> plain e ->
  agree (fun x y => y = (x.1, erase x.2) /\ is_market_issued x.1 = is_market_issued quote /\ plain x.2 /\
           me_ask x.2 = Some ask)
    (pay_current_bid m t quote e) (pay_current_bid_v7 m t quote (erase e)).
Proof.
  intros [Hb Ha Tb Ta] (Pb & Pa & Nb & Na) Hp. unfold pay_current_bid, pay_current_bid_v7.
  change (me_bid (erase e)) with (me_bid e). rewrite Hb. cbn [require mbind result_bind].
  rewrite Tb, Nb, (bool_decide_eq_true_2 (bid_order = bid_order)) by done.
  cbn [fc_assert throw_if negb orb Z.eqb Pos.eqb mbind result_bind].
  apply agree_same. intros _ _. apply agree_same. intros left _.
  replace (get_price null_price _) with (Ok (mt_bid_price t)).
  2:{ unfold get_price. cbn. by rewrite Tb, Pb. }
  cbn [mbind result_bind]. apply agree_same. intros worth _.
  destruct Hp as [? ? ? ? ?].
  destruct (amount worth =? 0); cbn [agree fst snd mo_type set_mo_balance spend_bid]; rewrite Tb;
    rewrite (bool_decide_eq_true_2 (bid_order = bid_order)) by done;
    (split; [done|split; [done|split; [|done]]]); split; cbn; auto.
Qed.

Lemma pay_current_ask_agrees t dust e ask :
  me_ask e = Some ask -> mo_type ask = ask_order -> mt_ask_price t = mo_price ask -> mt_ask_type t = 2 ->
  plain e ->
  agree (fun x y => y = (x.1, erase x.2) /\ plain x.2)
    (pay_current_ask m t dust e) (pay_current_ask_v7 m t dust (erase e)).
Proof.
  intros Ha Ta Pa Na Hp. unfold pay_current_ask, pay_current_ask_v7.
  change (me_ask (erase e)) with (me_ask e). rewrite Ha. cbn [require mbind result_bind].
  rewrite Ta, Na, (bool_decide_eq_true_2 (ask_order = ask_order)) by done.
  cbn [fc_assert throw_if negb orb Z.eqb Pos.eqb mbind result_bind].
  apply agree_same. intros _ _. apply agree_same. intros left _.
  replace (get_price null_price _) with (Ok (mt_ask_price t)).
  2:{ unfold get_price. cbn. by rewrite Ta, Pa. }
  cbn [mbind result_bind]. apply agree_same. intros worth _.
  destruct Hp as [? ? ? ? ?].
  destruct (amount worth =? 0); cbn [agree fst snd mo_type set_mo_balance spend_bid]; rewrite Ta;
    rewrite (bool_decide_eq_false_2 (ask_order = relative_ask_order)) by done;
    (split; [done|]); split; cbn; auto.
Qed.

Definition matched_related (quote : asset_record)
    (x y : market_transaction * asset_record * asset_record * engine) : Prop :=
  let '(t, quote', base', e') := x in
  y = (t, quote', base', erase e') /\ is_market_issued quote' = is_market_issued quote /\ plain e'.

Lemma match_orders_agrees t quote base e bid ask :
  pair_at_hand bid ask e -> own_prices bid ask t -> plain e ->
  agree (matched_related quote) (match_orders m t quote base e bid ask)
    (match_orders_v7 m t quote base (erase e) bid ask).
Proof.
  intros Hh Ho Hp. pose proof Hh as [Hb Ha Tb Ta]. unfold match_orders, match_orders_v7. rewrite Tb, Ta.
  unfold match_ask_bid, match_ask_bid_v7. do 7 (apply agree_same; intros ? _).
  eapply agree_bind; [by apply (pay_current_bid_agrees _ _ _ bid ask)|].
  intros [q1 e1] y _ (-> & Hq & Hp1 & Ha1). cbn [fst snd] in *.
  eapply agree_bind; [apply (pay_current_ask_agrees _ _ _ ask); try done; apply Ho|].
  intros [b1 e2] y _ (-> & Hp2). done.
Qed.

Lemma settle_match_agrees t quote base e g :
  plain e ->
  agree (fun g1 g2 => g2 = erase_matching g1 /\ plain (mg_engine g1) /\
           is_market_issued (mg_quote g1) = is_market_issued quote)
    (settle_match t quote base e g) (settle_match t quote base (erase e) (erase_matching g)).
Proof.
  intros [? ? ? ? ?]. unfold settle_match, push_market_transaction.
  match goal with |- agree _ ((?c ≫= _) ≫= _) _ => destruct c end; cbn [mbind result_bind]; [|done].
  apply agree_same. intros v _.
  destruct (asset_id (mt_fees_collected t) =? as_id base); [|destruct (asset_id (mt_fees_collected t) =? as_id quote)];
    (split; [done|split; [by split; cbn; auto|done]]).
Qed.

(** ** The loop *)

Definition plain_matching (g : matching) : Prop :=
  plain (mg_engine g) /\ is_market_issued (mg_quote g) = false.

Definition turn_related (x y : matching + matching) : Prop :=
  match x, y with
  | inl g, inl g' | inr g, inr g' => g' = erase_matching g /\ plain_matching g
  | _, _ => False
  end.

Lemma match_current_agrees g :
  plain_matching g -> agree turn_related (match_current m g) (match_current_v7 m (erase_matching g)).
Proof.
  intros [Hp Hq]. unfold match_current, match_current_v7.
  change (me_bid (mg_engine (erase_matching g))) with (me_bid (mg_engine g)).
  change (me_ask (mg_engine (erase_matching g))) with (me_ask (mg_engine g)).
  change (mg_quote (erase_matching g)) with (mg_quote g).
  change (mg_base (erase_matching g)) with (mg_base g).
  change (mg_engine (erase_matching g)) with (erase (mg_engine g)).
  pose proof (pl_bid _ Hp) as Tb. pose proof (pl_ask _ Hp) as Ta.
  apply agree_same. intros bid Hb%require_Ok. apply agree_same. intros ask Ha%require_Ok.
  rewrite Hb in Tb. rewrite Ha in Ta. cbn in Tb, Ta. destruct Tb as [Tb|Tb].
  - assert (Hh : pair_at_hand bid ask (mg_engine g)) by done.
    destruct (judge_agrees (mg_quote g) _ _ _ Hh) as (t & Ht & -> & ->). cbn [mbind result_bind].
    destruct (price_ltb (mo_price bid) (mo_price ask)); [by split; [|split]|].
    eapply agree_bind; [by apply (match_orders_agrees _ _ _ _ _ _ Hh Ht)|].
    intros [[[t1 q1] b1] e1] y _ (-> & Hq1 & Hp1).
    eapply agree_bind; [by apply settle_match_agrees|].
    intros g1 g2 _ (-> & Hg & Hq2). split; [done|]. split; [done|]. by rewrite Hq2, Hq1.
  - unfold judge, judge_v7, open_transaction, open_transaction_v7, get_price. rewrite Tb, Ta.
    cbn [mbind result_bind]. unfold judge_bid, judge_bid_v7. rewrite Tb, Hq.
    rewrite (bool_decide_eq_true_2 (short_order = short_order)) by done.
    by destruct (price_eqb (default null_price (mk_feed m)) null_price).
Qed.

Lemma turn_agrees g :
  plain_matching g ->
  agree turn_related (turn m g)
    (turn_with (get_next_bid_v7 m) (get_next_ask_v7 m) (match_current_v7 m) (erase_matching g)).
Proof.
  intros [Hp Hq]. unfold turn, turn_with. change (mg_engine (erase_matching g)) with (erase (mg_engine g)).
  eapply agree_bind; [by apply get_next_bid_agrees|]. intros [b e1] y _ [-> Hp1]. cbn [fst snd] in *.
  destruct b; cbn [negb]; [|done].
  eapply agree_bind; [by apply get_next_ask_agrees|]. intros [b e2] y _ [-> Hp2]. cbn [fst snd] in *.
  destruct b; cbn [negb]; [|done].
  apply agree_same. intros _ _. by apply (match_current_agrees (mk_matching e2 _ _ _ _ _ _)).
Qed.

Definition loop_related (g g' : matching) : Prop := g' = erase_matching g /\ plain_matching g.

Lemma loops_agree g r r' :
  loop_runs m g r -> plain_matching g ->
  runs_with (get_next_bid_v7 m) (get_next_ask_v7 m) (match_current_v7 m) (erase_matching g) r' ->
  agree loop_related r r'.
Proof.
  intros Hr. revert r'. induction Hr as [g x Ht|g g1 Ht|g g1 r Ht Hr IH]; intros r' Hg Hr';
    pose proof (turn_agrees g Hg) as Ha; rewrite Ht in Ha; inversion Hr' as [x' Ht'|g2 Ht'|g2 r2 Ht' Hr2]; subst;
    rewrite Ht' in Ha; cbn in Ha; try done.
  destruct Ha as [-> Hg1]. by apply IH.
Qed.

Lemma match_loop_agrees g :
  plain_matching g ->
  agree loop_related (match_loop (loop_fuel g) m g)
    (match_loop_v7 (loop_fuel (erase_matching g)) m (erase_matching g)).
Proof.
  intros Hg. eapply loops_agree; [|done|apply matching_v7_terminates].
  apply match_loop_runs. unfold turns_left, loop_fuel. case_match; lia.
Qed.

Lemma update_market_history_agrees t g :
  plain (mg_engine g) ->
  agree (fun e e' => e' = erase e) (update_market_history m t g) (update_market_history_v7 m t (erase_matching g)).
Proof.
  intros Hp. unfold update_market_history, update_market_history_v7, history_with.
  change (mg_engine (erase_matching g)) with (erase (mg_engine g)).
  change (mg_volume (erase_matching g)) with (mg_volume g).
  change (mg_opening (erase_matching g)) with (mg_opening g).
  change (mg_closing (erase_matching g)) with (mg_closing g).
  destruct (amount (mg_volume g) <=? 0); [done|].
  eapply agree_bind; [by apply get_next_bid_agrees|]. intros [b e1] y _ [-> Hp1]. cbn [fst snd] in *.
  destruct b; cbn [negb]; [|done].
  eapply agree_bind; [by apply get_next_ask_agrees|]. intros [b e2] y _ [-> Hp2]. cbn [fst snd] in *.
  destruct b; cbn [negb]; [|done].
  change (me_bid (erase e2)) with (me_bid e2). change (me_ask (erase e2)) with (me_ask e2).
  do 4 (apply agree_same; intros ? _). done.
Qed.

Lemma run_market_agrees t quote base e :
  plain e -> is_market_issued quote = false ->
  agree (fun e e' => e' = erase e) (run_market m t quote base e) (run_market_v7 m t quote base (erase e)).
Proof.
  intros Hp Hq. unfold run_market, run_market_v7, needs_feed_v7. rewrite Hq. cbn [andb mbind result_bind].
  eapply agree_bind; [by apply get_next_bid_agrees|]. intros [b e1] y _ [-> Hp1]. cbn [fst snd] in *.
  eapply agree_bind; [by apply get_next_ask_agrees|]. intros [b' e2] y _ [-> Hp2]. cbn [fst snd] in *.
  eapply agree_bind; [by apply (match_loop_agrees (mk_matching e2 quote base _ _ _ _))|].
  intros g y _ [-> [Hg _]]. apply agree_same. intros p _.
  match goal with |- agree _ (update_market_history m t (set_mg_engine ?e3 g)) (update_market_history_v7 m t ?x) =>
    change x with (erase_matching (set_mg_engine e3 g)) end.
  apply update_market_history_agrees.
  destruct Hg as [? ? ? ? ?]. split; cbn; auto.
Qed.
End agree.

(** ** The market *)

Section execute.
Context `{Crypto} `{FcNum} `{FcReal}.
Variables (db : chain_database) (quote_id base_id : Z).

(** A market of bids and asks: there are no relative bids, and no positions of the
    market in the store or of its quote asset in the index of expirations. *)
Record plain_market : Prop := {
  pm_relative : db_relative_bids db = ∅;
  pm_collateral k : is_Some (db_collateral db !! k) ->
    ~ (quote_asset_id (mk_order_price k) = quote_id /\ base_asset_id (mk_order_price k) = base_id);
  pm_expiration x : x ∈ db_collateral_expiration db -> x.1.1 <> quote_id
}.

Lemma new_engine_asset prior book id :
  pending_get_asset_record (me_state (new_engine prior book)) id = pending_get_asset_record prior id.
Proof. done. Qed.

Lemma open_plain feed prior :
  plain_market -> plain (mk_market db quote_id base_id feed) (new_engine prior (open_book quote_id base_id db)).
Proof.
  intros [Hr Hc He]. split; cbn; [|apply Forall_forall..|done|done].
  - by rewrite Hr.
  - intros [k r] Hk. unfold entries_below in Hk.
    rewrite <- Permutation_rev, list_elem_of_filter, sorted_entries_elem in Hk. destruct Hk as [_ Hk].
    specialize (Hc k ltac:(eauto)). unfold in_market. cbn.
    destruct (Z.eqb_spec (quote_asset_id (mk_order_price k)) quote_id); [|done].
    destruct (Z.eqb_spec (base_asset_id (mk_order_price k)) base_id); [|done]. exfalso. auto.
  - intros x Hx. unfold expirations_from in Hx.
    rewrite list_elem_of_filter, merge_sort_Permutation, elem_of_elements in Hx. destruct Hx. by apply He.
Qed.

(** C30: a market of plain orders, whose assets are not market issued and not
    halted, is executed by the engine before BTS_V0_4_29 exactly as by its
    successor: the state of the block and the market transactions are the same, and
    so is an exception. *)
Theorem execute_v7_agrees timestamp prior :
  plain_market ->
  (forall r, pending_get_asset_record prior quote_id = Some r ->
     is_market_issued r = false /\ is_market_frozen r = false) ->
  (forall r, pending_get_asset_record prior base_id = Some r -> is_market_frozen r = false) ->
  execute_v7 db quote_id base_id timestamp prior = execute db quote_id base_id timestamp prior.
Proof.
  intros Hm Hq Hb. unfold execute_v7, execute, try_market_v7, try_market.
  change (new_engine prior (open_book_v7 quote_id base_id db))
    with (erase (new_engine prior (open_book quote_id base_id db))).
  change (me_state (erase (new_engine prior (open_book quote_id base_id db))))
    with (me_state (new_engine prior (open_book quote_id base_id db))).
  rewrite !new_engine_asset.
  destruct (pending_get_asset_record prior quote_id) as [q|]; [|done].
  destruct (pending_get_asset_record prior base_id) as [b|]; [|done].
  destruct (Hq q eq_refl) as [Hi Hf]. specialize (Hb b eq_refl). cbn [require mbind result_bind].
  rewrite Hf, Hb. cbn [fc_assert throw_if negb mbind result_bind].
  destruct (db_get_median_delegate_price db quote_id base_id) as [feed|x]; [|done]. cbn [mbind result_bind].
  pose proof (run_market_agrees _ timestamp q b _ (open_plain feed prior Hm) Hi) as Ha.
  destruct (run_market _ _ _ _ _), (run_market_v7 _ _ _ _ _); cbn in Ha; subst; done.
Qed.
End execute.
