(* ===== verification/Queries.v ===== *)
(** * Queries: reading the chain database (blockchain/chain_database.cpp)

    What the client, the wallet and the API ask of the chain beside single records:
    the orders of a market, orders by id, the order history, the accounts and assets
    from a name on, the balances of an owner, feeds, burns and slots.

    An iterator over a store is the list of its entries in the order of the keys.  The
    loops that stop at a limit are written as they stop: some test [size == limit]
    after they have added an element, so that a limit of 0 is no limit. *)
From S2P Require Import Prelude Config Fc Asset Records ChainInterface PendingState ChainDatabase EvalState.
From S2P Require Import Blocks Production Forks OrderBook BookFacts Chain ChainOps.
From stdpp Require Import sorting.
From Stdlib Require Import Ascii String.
#[local] Open Scope Z_scope.

(** ** Loops over a store *)

Section loops.
Context {A B : Type}.

(** Runs on while [p] holds and adds what it passes; [true] if it returned at the
    limit. *)
Fixpoint collect_while (p : A -> bool) (f : A -> B) (limit : Z) (l : list A) (results : list B)
    : list B * bool :=
  match l with
  | [] => (results, false)
  | x :: l =>
      if p x then
        let results := results ++ [f x] in
        if Z.of_nat (List.length results) =? limit then (results, true)
        else collect_while p f limit l results
      else (results, false)
  end.

(** Adds what passes the filter; [true] if it returned at the limit. *)
Fixpoint collect_matching (p : A -> bool) (limit : Z) (l : list A) (results : list A) : list A * bool :=
  match l with
  | [] => (results, false)
  | x :: l =>
      if p x then
        let results := results ++ [x] in
        if limit <=? Z.of_nat (List.length results) then (results, true)
        else collect_matching p limit l results
      else collect_matching p limit l results
  end.
End loops.

(** ** Orders *)

Section orders.
Implicit Types db : chain_database.

(** [chain_database::get_asset_id] *)
Definition db_get_asset_id db (symbol : string) : result Z :=
  r ← require (db_get_asset_record_by_symbol db symbol) assert_exception; Ok (as_id r).

Definition entry_in_market {V} (quote_id base_id : Z) (kv : market_index_key * V) : bool :=
  (quote_asset_id (mk_order_price kv.1) =? quote_id) && (base_asset_id (mk_order_price kv.1) =? base_id).
Definition as_order (t : order_type) (kv : market_index_key * order_record) : market_order :=
  plain_order t kv.1 kv.2.
Definition as_short (kv : market_index_key * order_record) : market_order := short_of kv.1 kv.2.
Definition as_cover (kv : market_index_key * collateral_record) : market_order := cover_of kv.1 kv.2.

(** From [lower_bound( k )] on. *)
Definition entries_at {V} (k : market_index_key) (m : gmap market_index_key V)
    : list (market_index_key * V) :=
  filter (fun kv => key_ltb kv.1 k = false) (sorted_entries m).

(** [chain_database::get_market_bid], [get_market_ask] and [get_market_short] *)
Definition get_market_bid db (k : market_index_key) : option market_order :=
  match db_bids db !! k with
  | Some r => Some (plain_order bid_order k r)
  | None => plain_order relative_bid_order k <$> db_relative_bids db !! k
  end.
Definition get_market_ask db (k : market_index_key) : option market_order :=
  match db_asks db !! k with
  | Some r => Some (plain_order ask_order k r)
  | None => plain_order relative_ask_order k <$> db_relative_asks db !! k
  end.
Definition get_market_short db (k : market_index_key) : option market_order :=
  plain_order short_order k <$> db_shorts db !! k.

(** Two books of a market, one after the other. *)
Definition two_books {V W} (quote_id base_id limit : Z) (f : market_index_key * V -> market_order)
    (g : market_index_key * W -> market_order) (l1 : list (market_index_key * V))
    (l2 : list (market_index_key * W)) : list market_order :=
  let '(results, full) := collect_while (entry_in_market quote_id base_id) f limit l1 [] in
  if full then results else (collect_while (entry_in_market quote_id base_id) g limit l2 results).1.

Definition check_market (quote_id base_id : Z) : result unit := throw_if (base_id >=? quote_id) invalid_market.

(** [chain_database::get_market_bids] *)
Definition get_market_bids db (quote_symbol base_symbol : string) (limit : Z) : result (list market_order) :=
  quote_id ← db_get_asset_id db quote_symbol;
  base_id ← db_get_asset_id db base_symbol;
  _ ← check_market quote_id base_id;
  Ok (two_books quote_id base_id limit (as_order bid_order) (as_order relative_bid_order)
        (entries_below (next_key quote_id base_id) (db_bids db))
        (entries_below (next_key quote_id base_id) (db_relative_bids db))).

(** [chain_database::get_market_asks] *)
Definition get_market_asks db (quote_symbol base_symbol : string) (limit : Z) : result (list market_order) :=
  quote_id ← db_get_asset_id db quote_symbol;
  base_id ← db_get_asset_id db base_symbol;
  _ ← check_market quote_id base_id;
  Ok (two_books quote_id base_id limit (as_order ask_order) (as_order relative_ask_order)
        (entries_at (start_key quote_id base_id) (db_asks db))
        (entries_at (start_key quote_id base_id) (db_relative_asks db))).

(** [chain_database::get_market_shorts] and [get_market_covers], in the base asset *)
Definition get_market_shorts db (quote_symbol : string) (limit : Z) : result (list market_order) :=
  quote_id ← db_get_asset_id db quote_symbol;
  _ ← check_market quote_id 0;
  Ok (collect_while (entry_in_market quote_id 0) as_short limit
        (entries_below (next_key quote_id 0) (db_shorts db)) []).1.
Definition get_market_covers db (quote_symbol : string) (limit : Z) : result (list market_order) :=
  quote_id ← db_get_asset_id db quote_symbol;
  _ ← check_market quote_id 0;
  Ok (collect_while (entry_in_market quote_id 0) as_cover limit
        (entries_at (start_key quote_id 0) (db_collateral db)) []).1.

(** [chain_database::get_asset_collateral] *)
Fixpoint sum_collateral (quote_id total : Z) (l : list (market_index_key * collateral_record)) : Z :=
  match l with
  | [] => total
  | kv :: l => if entry_in_market quote_id 0 kv
               then sum_collateral quote_id (wrap64 (total + cr_collateral_balance kv.2)) l else total
  end.
Definition get_asset_collateral db (symbol : string) : result Z :=
  quote_id ← db_get_asset_id db symbol;
  Ok (sum_collateral quote_id 0 (entries_at (start_key quote_id 0) (db_collateral db))).

(** [chain_database::get_lowest_ask_record] *)
Definition get_lowest_ask_record db (quote_id base_id : Z) : option market_order :=
  match entries_at (start_key quote_id base_id) (db_asks db) with
  | kv :: _ => if entry_in_market quote_id base_id kv then Some (as_order ask_order kv) else None
  | [] => None
  end.

(** [chain_database::scan_market_orders]: the stores in the order they are scanned. *)
Definition order_books db : list (order_type * list market_order) :=
  [ (ask_order, map (as_order ask_order) (sorted_entries (db_asks db)));
    (bid_order, map (as_order bid_order) (sorted_entries (db_bids db)));
    (relative_ask_order, map (as_order relative_ask_order) (sorted_entries (db_relative_asks db)));
    (relative_bid_order, map (as_order relative_bid_order) (sorted_entries (db_relative_bids db)));
    (short_order, map as_short (sorted_entries (db_shorts db)));
    (cover_order, map as_cover (sorted_entries (db_collateral db))) ].
Fixpoint scan_books (p : market_order -> bool) (limit : Z) (t : order_type)
    (books : list (order_type * list market_order)) (orders : list market_order) : list market_order :=
  match books with
  | [] => orders
  | (bt, book) :: books =>
      if bool_decide (t = null_order) || bool_decide (t = bt) then
        let '(orders, full) := collect_matching p limit book orders in
        if full then orders else scan_books p limit t books orders
      else scan_books p limit t books orders
  end.
Definition scan_market_orders db (p : market_order -> bool) (limit : Z) (t : order_type) : list market_order :=
  if limit =? 0 then [] else scan_books p limit t (order_books db) [].

(** [chain_database::get_market_order]; [order_id] is [market_order::get_id], a hash
    of the order's type, price and owner. *)
Definition get_market_order db (order_id : market_order -> Z) (id : Z) (t : order_type) : option market_order :=
  head (scan_market_orders db (fun o => order_id o =? id) 1 t).
End orders.

(** ** Order history *)

(** Keys of a store with numbers for keys, in order. *)
Definition sorted_keys {V} (m : gmap Z V) : list Z := merge_sort Z.le (elements (dom m)).

Section history.
Context `{Crypto} `{BlockHash}.
Implicit Types c : chain.

(** [chain_database::get_market_transactions] *)
Definition get_market_transactions (block_num : Z) c : result (list market_transaction) :=
  _ ← fc_assert (db_track_stats (ch_db c));
  Ok (default [] (db_market_transactions (ch_db c) !! block_num)).

(** [get_transactions_from_prior_block]: the iterator starts at [lower_bound], or at
    the last entry while the head is the current block, and goes back by one. *)
Definition prior_block c (current : Z) : Z * list market_transaction :=
  let m := db_market_transactions (ch_db c) in
  let keys := sorted_keys m in
  let before :=
    if current =? ch_head_num c then head (tail (rev keys))
    else if bool_decide (filter (fun k => current <= k) keys = []) then None
    else head (rev (filter (fun k => k < current) keys)) in
  match before with
  | Some k => (k, default [] (m !! k))
  | None => (1, [])
  end.

Definition interesting (quote base owner : Z) (t : market_transaction) : bool :=
  (base_asset_id (mt_ask_price t) =? base) && (quote_asset_id (mt_ask_price t) =? quote)
  && ((owner =? null_address) || (owner =? mt_bid_owner t) || (owner =? mt_ask_owner t)).

(** The loop that skips whole blocks of orders; the block number is decremented by
    the test. *)
Fixpoint skip_blocks (fuel : nat) (keep : market_transaction -> bool) c (skip_count current : Z)
    (orders : list market_transaction) : Z * Z * list market_transaction :=
  match fuel with
  | O => (skip_count, current, orders)
  | S fuel =>
      if skip_count >? 0 then
        let current := wrapu32 (current - 1) in
        if (current >? 0) && (Z.of_nat (List.length orders) <=? skip_count) then
          let '(next, prior) := prior_block c current in
          skip_blocks fuel keep c (skip_count - Z.of_nat (List.length orders)) next (List.filter keep prior)
        else (skip_count, current, orders)
      else (skip_count, current, orders)
  end.

(** The loop that fetches more orders: [found] is the number of orders of the first
    block, which the loop does not change. *)
Fixpoint more_blocks (fuel : nat) (keep : market_transaction -> bool) (limit found : Z) c (current : Z)
    (results : list (market_transaction * Z)) : result (list (market_transaction * Z)) :=
  match fuel with
  | O => Ok results
  | S fuel =>
      let current := wrapu32 (current - 1) in
      if (current >=? 1) && (found <? limit) then
        let '(current, prior) := prior_block c current in
        h ← get_block_header_at current c;
        let more := map (fun t => (t, bh_timestamp (sb_header h))) (List.filter keep prior) in
        let room := Z.to_nat (Z.max 0 (limit - Z.of_nat (List.length results))) in
        if Z.of_nat (List.length more) >? Z.of_nat room then Ok (results ++ firstn room more)
        else more_blocks fuel keep limit found c current (results ++ more)
      else Ok results
  end.

(** [chain_database::market_order_history] *)
Definition history_fuel c : nat := Z.to_nat (ch_head_num c) + 2.
Definition market_order_history c (quote base skip_count limit owner : Z)
    : result (list (market_transaction * Z)) :=
  _ ← fc_assert (limit <=? 10000);
  let current := ch_head_num c in
  _ ← fc_assert (current >? 0);
  let keep := interesting quote base owner in
  let '(current, prior) := prior_block c current in
  let '(skip_count, current, orders) :=
    skip_blocks (history_fuel c) keep c skip_count current (List.filter keep prior) in
  if (current =? 0) && (Z.of_nat (List.length orders) <=? skip_count) then Ok []
  else
    let orders := skipn (Z.to_nat skip_count) orders in
    h ← get_block_header_at current c;
    more_blocks (history_fuel c) keep limit (Z.of_nat (List.length orders)) c current
      (map (fun t => (t, bh_timestamp (sb_header h))) orders).

(** [chain_database::get_transactions_for_block] *)
Definition get_transactions_for_block (block_id : Z) c : result (list transaction_record) :=
  r ← fetch (bs_records (ch_blocks c)) block_id;
  fold_result (fun l id =>
    o ← db_get_transaction (ch_db c) id;
    t ← require o unknown_transaction;
    Ok (l ++ [t])) [] (dg_user_transaction_ids (bk_digest r)).

(** [chain_database::get_delegate_slot_records] *)
Definition get_delegate_slot_records (delegate_id start_block_num count : Z) c : result (list slot_record) :=
  _ ← fc_assert (db_track_stats (ch_db c));
  _ ← fc_assert (count >? 0);
  let start_block_num := if start_block_num <? 0 then ch_head_num c + start_block_num else start_block_num in
  _ ← fc_assert (start_block_num >=? 1);
  h ← get_block_header_at start_block_num c;
  let min_timestamp := bh_timestamp (sb_header h) in
  Ok (collect_matching
        (fun r => negb ((so_start_time r <? min_timestamp) || negb (so_block_producer_id r =? delegate_id)))
        count (omap (fun k => db_slots (ch_db c) !! k) (sorted_keys (db_slots (ch_db c)))) []).1.
End history.

(** ** Accounts, assets and balances *)

Section records.
Context `{Crypto} `{FcNum}.
Implicit Types db : chain_database.

(** The entries of a store with strings for keys, in order. *)
Definition string_le {V} (x y : string * V) : Prop := String.leb x.1 y.1 = true.
#[global] Instance string_le_dec {V} : RelDecision (@string_le V).
Proof. intros x y. unfold string_le. apply _. Defined.
Definition by_name {V} (m : gmap string V) : list (string * V) := merge_sort string_le (map_to_list m).
Definition from_name {V} (first : string) (m : gmap string V) : list (string * V) :=
  filter (fun kv => String.leb first kv.1 = true) (by_name m).

(** [atoi] of a string that starts with a digit. *)
Definition digit_value (ch : ascii) : option Z :=
  let n := Z.of_nat (nat_of_ascii ch) in if (48 <=? n) && (n <=? 57) then Some (n - 48) else None.
Fixpoint atoi_digits (acc : Z) (s : string) : Z :=
  match s with
  | String ch s => match digit_value ch with Some d => atoi_digits (10 * acc + d) s | None => acc end
  | EmptyString => acc
  end.
Definition starts_with_digit (s : string) : bool :=
  match s with String ch _ => bool_decide (is_Some (digit_value ch)) | EmptyString => false end.

(** Takes records while there are fewer than [limit]; an index that leads nowhere is a
    null optional. *)
Fixpoint records_at {V} (get : Z -> option V) (limit : Z) (l : list (string * Z)) (acc : list V)
    : result (list V) :=
  match l with
  | [] => Ok acc
  | kv :: l =>
      if Z.of_nat (List.length acc) <? limit then
        r ← require (get kv.2) assertion_abort; records_at get limit l (acc ++ [r])
      else Ok acc
  end.

(** [chain_database::get_accounts]: from a name, or from a number in the index; and
    [get_assets] *)
Definition get_accounts db (first : string) (limit : Z) : result (list account_record) :=
  let entries :=
    if starts_with_digit first
    then skipn (Z.to_nat (atoi_digits 0 first - 1)) (by_name (db_account_index db))
    else from_name first (db_account_index db) in
  records_at (fun id => db_accounts db !! id) limit entries [].
Definition get_assets db (first_symbol : string) (limit : Z) : result (list asset_record) :=
  records_at (db_get_asset_record db) limit (from_name first_symbol (db_symbol_index db)) [].

(** [chain_database::scan_balances]: what a callback sees *)
Definition scanned_balances db : list balance_record :=
  omap (fun k => db_balances db !! k) (sorted_keys (db_balances db)).

(** [chain_database::get_balances_for_address] and [get_balances_for_key] *)
Definition get_balances_for_address db (addr : Z) : result (gmap Z balance_record) :=
  fold_result (fun m r =>
    mine ← balance_is_owner addr r;
    Ok (if (mine : bool) || (addr =? balance_id r) then <[balance_id r := r]> m else m)) ∅ (scanned_balances db).
Definition is_owner_key (key : Z) (r : balance_record) : result bool :=
  os ← balance_owners r;
  Ok (existsb (fun a => bool_decide (a ∈ os)) (key_addresses key)).
Definition get_balances_for_key db (key : Z) : result (gmap Z balance_record) :=
  fold_result (fun m r =>
    mine ← is_owner_key key r;
    Ok (if (mine : bool) then <[balance_id r := r]> m else m)) ∅ (scanned_balances db).

(** [chain_database::unclaimed_genesis] *)
Definition unclaimed_genesis db : result Z :=
  base ← require (db_get_asset_record db 0) assertion_abort;
  Ok (foldl (fun total r => if br_last_update r <=? as_registration_date base
                            then wrap64 (total + br_balance r) else total) 0 (scanned_balances db)).

(** [chain_database::get_feeds_for_asset] and [get_feeds_from_delegate] *)
Definition get_feeds_for_asset db (asset_id base_id : Z) : result (list feed_record) :=
  fold_result (fun l d =>
    match db_feeds db !! mk_feed_index asset_id d with
    | Some r => p ← variant_as_price (fr_value r); Ok (if base_asset_id p =? base_id then l ++ [r] else l)
    | None => Ok l
    end) [] (merge_sort Z.le (omap (fun k => if fi_feed_id k =? asset_id then Some (fi_delegate_id k) else None)
                                (map fst (map_to_list (db_feeds db))))).
Definition get_feeds_from_delegate db (delegate_id : Z) : result (list feed_record) :=
  assets ← get_assets db EmptyString (2^32 - 1);
  Ok (omap (fun a => db_feeds db !! mk_feed_index (as_id a) delegate_id) (assets : list asset_record)).

(** [chain_database::get_asset_symbol] and [get_recent_operations] *)
Definition get_asset_symbol db (asset_id : Z) : result string :=
  r ← require (db_get_asset_record db asset_id) assert_exception; Ok (as_symbol r).
Definition get_recent_operations db (t : Z) : list operation := default [] (db_recent_operations db !! t).
End records.
