(* ===== verification/QueryFacts.v ===== *)
(** * QueryFacts: what the queries return

    The orders of a market are returned in the order of price up to the limit, and
    none is left out ([market_bids_spec], [market_asks_spec]); scans return the first
    orders that pass the filter, and an order is found by its id exactly if there is
    one ([market_order_found]); the balances of an address are those it owns
    ([balances_for_address_spec]).  The order history leaves out the orders of the
    last block that has any ([history_misses_last_block]). *)
From S2P Require Import Prelude Config Fc Asset Records ChainInterface PendingState ChainDatabase EvalState.
From S2P Require Import Blocks Production Forks OrderBook BookFacts Chain ChainOps Queries.
From stdpp Require Import sorting.
#[local] Open Scope Z_scope.

(** ** The loops *)

(** [limit] elements, or all where the limit is 0. *)
Definition up_to {A} (limit : Z) (l : list A) : list A := if limit =? 0 then l else take (Z.to_nat limit) l.

Lemma up_to_all {A} limit (l : list A) : Z.of_nat (List.length l) < limit -> up_to limit l = l.
Proof. intros Hl. unfold up_to. rewrite (proj2 (Z.eqb_neq _ _)), take_ge by lia. done. Qed.

Section loops.
Context {A B : Type}.

Lemma collect_while_spec (p : A -> bool) (f : A -> B) limit l rest results :
  0 <= limit -> (limit = 0 \/ Z.of_nat (List.length results) < limit) ->
  Forall (fun x => p x = true) l -> (forall x, head rest = Some x -> p x = false) ->
  let all := results ++ map f l in
  collect_while p f limit (l ++ rest) results
  = (up_to limit all, negb (limit =? 0) && (limit <=? Z.of_nat (List.length all))).
Proof.
  intros Hlim Hres Hl Hrest. revert results Hres. induction Hl as [|x l Hx Hl IH]; intros results Hres; cbv zeta.
  - cbn [map app]. rewrite app_nil_r. unfold up_to. destruct rest as [|y rest]; cbn [collect_while].
    + destruct (Z.eqb_spec limit 0); [done|]. rewrite take_ge, (proj2 (Z.leb_gt _ _)) by lia. done.
    + rewrite (Hrest y eq_refl). destruct (Z.eqb_spec limit 0); [done|].
      rewrite take_ge, (proj2 (Z.leb_gt _ _)) by lia. done.
  - cbn [collect_while app map]. rewrite Hx.
    replace (results ++ f x :: map f l) with ((results ++ [f x]) ++ map f l) by by rewrite <- app_assoc.
    destruct (Z.eqb_spec (Z.of_nat (List.length (results ++ [f x]))) limit) as [He|Hne].
    + unfold up_to. assert (limit <> 0) by (rewrite <- He, length_app; cbn; lia).
      rewrite (proj2 (Z.eqb_neq limit 0)) by done. rewrite take_app_length' by lia.
      cbn [negb andb]. rewrite (proj2 (Z.leb_le _ _)); [done|]. rewrite length_app. lia.
    + apply IH. rewrite length_app in *. cbn in *. lia.
Qed.

Lemma collect_matching_spec (p : A -> bool) limit l results :
  0 < limit -> Z.of_nat (List.length results) < limit ->
  let all := results ++ List.filter p l in
  collect_matching p limit l results
  = (take (Z.to_nat limit) all, limit <=? Z.of_nat (List.length all)).
Proof.
  intros Hlim. revert results. induction l as [|x l IH]; intros results Hres; cbv zeta; cbn [collect_matching List.filter].
  { rewrite app_nil_r, take_ge, (proj2 (Z.leb_gt _ _)) by lia. done. }
  destruct (p x); [|by apply IH].
  replace (results ++ x :: List.filter p l) with ((results ++ [x]) ++ List.filter p l) by by rewrite <- app_assoc.
  destruct (Z.leb_spec limit (Z.of_nat (List.length (results ++ [x])))) as [Hle|Hgt]; [|by apply IH].
  rewrite take_app_length' by (rewrite length_app in *; cbn in *; lia).
  rewrite (proj2 (Z.leb_le _ _)); [done|]. rewrite length_app. lia.
Qed.
End loops.

(** ** The orders of a market *)

Lemma filter_ext_in {A} (P Q : A -> Prop) `{!forall x, Decision (P x)} `{!forall x, Decision (Q x)} (l : list A) :
  (forall x, x ∈ l -> P x <-> Q x) -> filter P l = filter Q l.
Proof.
  induction l as [|x l IH]; intros HPQ; [done|]. rewrite !filter_cons.
  rewrite IH by (intros; apply HPQ; by right). pose proof (HPQ x ltac:(left)).
  destruct (decide (P x)), (decide (Q x)); tauto.
Qed.
Lemma filter_rev {A} (P : A -> Prop) `{!forall x, Decision (P x)} (l : list A) : filter P (rev l) = rev (filter P l).
Proof.
  induction l as [|x l IH]; [done|]. cbn [rev]. rewrite filter_app, IH, !filter_cons, filter_nil.
  case_decide; cbn; [done|by rewrite app_nil_r].
Qed.

Section market.
Context {V : Type} (m : gmap market_index_key V) (quote_id base_id : Z).
Hypothesis ids : 0 <= base_id < quote_id.
Hypothesis keys_ok : forall k v, m !! k = Some v -> key_ok k.

(** The entries of the market, in the order of their keys. *)
Definition market_entries : list (market_index_key * V) :=
  filter (fun kv => entry_in_market quote_id base_id kv = true) (sorted_entries m).

Lemma entry_in_market_of (kv : market_index_key * V) : entry_in_market quote_id base_id kv = true <-> of_market quote_id base_id kv.1.
Proof. unfold entry_in_market, of_market. rewrite andb_true_iff, !Z.eqb_eq. done. Qed.

Lemma sorted_keys_ok (kv : market_index_key * V) : kv ∈ sorted_entries m -> key_ok kv.1.
Proof using keys_ok. destruct kv as [k v]. rewrite sorted_entries_elem. apply keys_ok. Qed.

(** The entries between the start of the market and the start of the next. *)
Lemma market_entries_between :
  filter (fun kv => key_ltb kv.1 (start_key quote_id base_id) = false)
    (filter (fun kv => key_ltb kv.1 (next_key quote_id base_id) = true) (sorted_entries m)) = market_entries.
Proof using ids keys_ok.
  rewrite list_filter_filter. apply filter_ext_in. intros kv Hkv. cbn beta.
  rewrite entry_in_market_of, (market_keys _ _ _ ids (sorted_keys_ok _ Hkv)). tauto.
Qed.

Lemma below_split :
  exists rest, entries_below (next_key quote_id base_id) m = rev market_entries ++ rest /\
    forall x, head rest = Some x -> entry_in_market quote_id base_id x = false.
Proof using ids keys_ok.
  set (P := fun kv : market_index_key * V => key_ltb kv.1 (start_key quote_id base_id) = false).
  set (L := entries_below (next_key quote_id base_id) m).
  exists (filter (fun kv => ~ P kv) L). split.
  - rewrite <- market_entries_between, <- filter_rev. apply (sorted_split (flip entry_le)).
    + apply (StronglySorted_rev entry_le), StronglySorted_filter, sorted_entries_sorted.
    + intros [a ?] [b ?]. unfold P, entry_le. cbn. rewrite !key_ltb_ge, !key_ltb_lt. lia.
  - intros x Hx%head_Some_elem_of. apply list_elem_of_filter in Hx as [Hn Hx].
    apply not_true_iff_false. rewrite entry_in_market_of. intros Hm.
    unfold L, entries_below in Hx. rewrite <- Permutation_rev in Hx. apply list_elem_of_filter in Hx as [_ Hx].
    apply (market_keys _ _ _ ids (sorted_keys_ok _ Hx)) in Hm as [_ Hs]. by apply Hn.
Qed.

Lemma at_split :
  exists rest, entries_at (start_key quote_id base_id) m = market_entries ++ rest /\
    forall x, head rest = Some x -> entry_in_market quote_id base_id x = false.
Proof using ids keys_ok.
  set (P := fun kv : market_index_key * V => key_ltb kv.1 (next_key quote_id base_id) = true).
  set (L := entries_at (start_key quote_id base_id) m).
  exists (filter (fun kv => ~ P kv) L). split.
  - replace market_entries with (filter P L).
    + apply (sorted_split entry_le); [apply StronglySorted_filter, sorted_entries_sorted|].
      intros [a ?] [b ?]. unfold P, entry_le. cbn. rewrite !key_ltb_ge, !key_ltb_lt. lia.
    + rewrite <- market_entries_between. unfold L, entries_at. rewrite !list_filter_filter.
      apply list_filter_iff. intros kv. unfold P. tauto.
  - intros x Hx%head_Some_elem_of. apply list_elem_of_filter in Hx as [Hn Hx].
    apply not_true_iff_false. rewrite entry_in_market_of. intros Hm.
    apply list_elem_of_filter in Hx as [_ Hx].
    apply (market_keys _ _ _ ids (sorted_keys_ok _ Hx)) in Hm as [Hs _]. by apply Hn.
Qed.

Lemma market_entries_all : Forall (fun kv => entry_in_market quote_id base_id kv = true) market_entries.
Proof. apply Forall_forall. intros kv [? _]%list_elem_of_filter. done. Qed.
End market.

Lemma two_books_spec {V W} quote_id base_id limit (f : market_index_key * V -> market_order)
    (g : market_index_key * W -> market_order) l1 rest1 l2 rest2 :
  0 <= limit ->
  Forall (fun kv => entry_in_market quote_id base_id kv = true) l1 ->
  (forall x, head rest1 = Some x -> entry_in_market quote_id base_id x = false) ->
  Forall (fun kv => entry_in_market quote_id base_id kv = true) l2 ->
  (forall x, head rest2 = Some x -> entry_in_market quote_id base_id x = false) ->
  two_books quote_id base_id limit f g (l1 ++ rest1) (l2 ++ rest2) = up_to limit (map f l1 ++ map g l2).
Proof.
  intros Hlim H1 Hr1 H2 Hr2. unfold two_books.
  rewrite (collect_while_spec _ f limit l1 rest1 []) by (done || (cbn; lia)). cbn [app].
  destruct (Z.eqb_spec limit 0) as [->|Hne]; cbn [negb andb].
  { rewrite collect_while_spec by (done || (by left)). done. }
  destruct (Z.leb_spec limit (Z.of_nat (List.length (map f l1)))) as [Hle|Hgt].
  - unfold up_to. rewrite (proj2 (Z.eqb_neq limit 0)) by done. by rewrite take_app_le by lia.
  - rewrite up_to_all by lia. by rewrite collect_while_spec by (done || (right; lia)).
Qed.

Lemma one_book_spec {V} quote_id base_id limit (f : market_index_key * V -> market_order) l rest :
  0 <= limit ->
  Forall (fun kv => entry_in_market quote_id base_id kv = true) l ->
  (forall x, head rest = Some x -> entry_in_market quote_id base_id x = false) ->
  (collect_while (entry_in_market quote_id base_id) f limit (l ++ rest) []).1 = up_to limit (map f l).
Proof. intros Hlim Hl Hr. by rewrite collect_while_spec by (done || (cbn; lia)). Qed.

(** The keys of every book. *)
Definition all_keys_ok (db : chain_database) : Prop :=
  book_keys_ok db /\
  (forall k r, db_relative_bids db !! k = Some r -> key_ok k) /\
  (forall k r, db_relative_asks db !! k = Some r -> key_ok k) /\
  (forall k r, db_collateral db !! k = Some r -> key_ok k).

Lemma rev_market_entries_all {V} (m : gmap market_index_key V) quote_id base_id :
  Forall (fun kv => entry_in_market quote_id base_id kv = true) (rev (market_entries m quote_id base_id)).
Proof. apply Forall_rev, market_entries_all. Qed.

(** C31: The queries for the orders of a market return them all, up to the limit (0 is
    no limit): the bids from the highest price down and then the relative bids, the
    asks from the lowest price up and then the relative asks, the shorts from the
    highest interest down and the covers from the lowest price up, wherever the keys
    of the market lie among those of others. *)
Theorem market_orders_spec db quote_symbol base_symbol quote_id base_id limit :
  db_get_asset_id db quote_symbol = Ok quote_id -> db_get_asset_id db base_symbol = Ok base_id ->
  0 <= base_id < quote_id -> 0 <= limit -> all_keys_ok db ->
  get_market_bids db quote_symbol base_symbol limit
    = Ok (up_to limit (map (as_order bid_order) (rev (market_entries (db_bids db) quote_id base_id))
                       ++ map (as_order relative_bid_order) (rev (market_entries (db_relative_bids db) quote_id base_id)))) /\
  get_market_asks db quote_symbol base_symbol limit
    = Ok (up_to limit (map (as_order ask_order) (market_entries (db_asks db) quote_id base_id)
                       ++ map (as_order relative_ask_order) (market_entries (db_relative_asks db) quote_id base_id))) /\
  get_market_shorts db quote_symbol limit = Ok (up_to limit (map as_short (rev (market_entries (db_shorts db) quote_id 0)))) /\
  get_market_covers db quote_symbol limit = Ok (up_to limit (map as_cover (market_entries (db_collateral db) quote_id 0))).
Proof.
  intros Hq Hb Hid Hlim ((Hbk & Hak & Hsk) & Hrb & Hra & Hck).
  assert (Hid0 : 0 <= 0 < quote_id) by lia.
  assert (Hmk : forall b, b < quote_id -> check_market quote_id b = Ok tt).
  { intros b Hlt. unfold check_market. rewrite Z.geb_leb, (proj2 (Z.leb_gt _ _)) by lia. done. }
  destruct (below_split (db_bids db) quote_id base_id Hid Hbk) as (r1 & E1 & N1).
  destruct (below_split (db_relative_bids db) quote_id base_id Hid Hrb) as (r2 & E2 & N2).
  destruct (at_split (db_asks db) quote_id base_id Hid Hak) as (r3 & E3 & N3).
  destruct (at_split (db_relative_asks db) quote_id base_id Hid Hra) as (r4 & E4 & N4).
  destruct (below_split (db_shorts db) quote_id 0 Hid0 Hsk) as (r5 & E5 & N5).
  destruct (at_split (db_collateral db) quote_id 0 Hid0 Hck) as (r6 & E6 & N6).
  unfold get_market_bids, get_market_asks, get_market_shorts, get_market_covers.
  rewrite Hq, Hb. cbn [mbind result_bind]. rewrite !Hmk by lia. cbn [mbind result_bind].
  rewrite E1, E2, E3, E4, E5, E6.
  rewrite !two_books_spec, !one_book_spec by (done || apply market_entries_all || apply rev_market_entries_all).
  done.
Qed.

(** ** Orders by id *)

(** The books a scan for orders of the type [t] goes through. *)
Definition scanned (t : order_type) (books : list (order_type * list market_order)) : list market_order :=
  concat (map snd (filter (fun b => t = null_order \/ t = b.1) books)).

Lemma scan_books_spec p limit t books orders :
  0 < limit -> Z.of_nat (List.length orders) < limit ->
  scan_books p limit t books orders = take (Z.to_nat limit) (orders ++ List.filter p (scanned t books)).
Proof.
  intros Hlim. revert orders. induction books as [|[bt book] books IH]; intros orders Ho; cbn [scan_books].
  { unfold scanned. cbn. by rewrite app_nil_r, take_ge by lia. }
  unfold scanned. rewrite filter_cons. cbn [fst].
  destruct (decide (t = null_order \/ t = bt)) as [Ht|Ht].
  - replace (bool_decide (t = null_order) || bool_decide (t = bt)) with true.
    2:{ symmetry. apply orb_true_iff. rewrite !bool_decide_eq_true. done. }
    rewrite collect_matching_spec by done. cbn [map concat snd]. rewrite List.filter_app, app_assoc.
    destruct (Z.leb_spec limit (Z.of_nat (List.length (orders ++ List.filter p book)))) as [Hle|Hgt].
    + by rewrite (take_app_le (orders ++ List.filter p book)) by lia.
    + rewrite take_ge by lia. by rewrite IH.
  - replace (bool_decide (t = null_order) || bool_decide (t = bt)) with false.
    2:{ symmetry. apply orb_false_iff. rewrite !bool_decide_eq_false. tauto. }
    by apply IH.
Qed.

Lemma scan_market_orders_spec db p limit t :
  0 <= limit ->
  scan_market_orders db p limit t = take (Z.to_nat limit) (List.filter p (scanned t (order_books db))).
Proof.
  intros Hlim. unfold scan_market_orders. destruct (Z.eqb_spec limit 0) as [->|Hne]; [done|].
  by rewrite scan_books_spec by (cbn; lia).
Qed.

(** An order of one of the stores. *)
Definition stored_order (db : chain_database) (o : market_order) : Prop :=
  let k := mo_index o in
  match mo_type o with
  | ask_order => exists r, db_asks db !! k = Some r /\ o = plain_order ask_order k r
  | bid_order => exists r, db_bids db !! k = Some r /\ o = plain_order bid_order k r
  | relative_ask_order => exists r, db_relative_asks db !! k = Some r /\ o = plain_order relative_ask_order k r
  | relative_bid_order => exists r, db_relative_bids db !! k = Some r /\ o = plain_order relative_bid_order k r
  | short_order => exists r, db_shorts db !! k = Some r /\ o = short_of k r
  | cover_order => exists r, db_collateral db !! k = Some r /\ o = cover_of k r
  | null_order => False
  end.

Lemma book_elem {V} (m : gmap market_index_key V) (f : market_index_key -> V -> market_order) o :
  o ∈ map (fun kv => f kv.1 kv.2) (sorted_entries m) <-> exists k r, m !! k = Some r /\ o = f k r.
Proof.
  rewrite list_elem_of_fmap. split.
  - intros ([k r] & -> & Hin). exists k, r. by rewrite <- sorted_entries_elem.
  - intros (k & r & Hk & ->). exists (k, r). by rewrite sorted_entries_elem.
Qed.

Lemma scanned_elem db t o :
  o ∈ scanned t (order_books db) <-> stored_order db o /\ (t = null_order \/ t = mo_type o).
Proof.
  unfold scanned. rewrite list_elem_of_In, in_concat. setoid_rewrite <- list_elem_of_In. split.
  - intros (book & Hb & Ho). apply list_elem_of_fmap in Hb as ([bt b] & -> & Hb).
    apply list_elem_of_filter in Hb as [Ht Hb]. cbn [fst snd] in *. unfold order_books in Hb.
    repeat (apply elem_of_cons in Hb as [[= -> ->]|Hb];
      [apply book_elem in Ho as (k & r & Hk & ->); split; [by exists r|done]|]).
    by apply not_elem_of_nil in Hb.
  - intros [Ho Ht]. unfold stored_order in Ho.
    assert (Hin : exists b, (mo_type o, b) ∈ order_books db /\ o ∈ b).
    { unfold order_books. destruct (mo_type o); [done|..]; destruct Ho as (r & Hr & ->);
        (eexists; split; [repeat first [left|right]|apply book_elem; eauto]). }
    destruct Hin as (b & Hb & Hob). exists b. split; [|done]. apply list_elem_of_fmap.
    exists (mo_type o, b). split; [done|]. by apply list_elem_of_filter.
Qed.

(** An order is found by its id exactly when a store of the type asked for holds one
    with that id: what is returned is stored and has the id, and nothing is returned
    only if no stored order has it. *)
Theorem market_order_found db order_id id t :
  match get_market_order db order_id id t with
  | Some o => stored_order db o /\ (t = null_order \/ t = mo_type o) /\ order_id o = id
  | None => forall o, stored_order db o -> t = null_order \/ t = mo_type o -> order_id o <> id
  end.
Proof.
  unfold get_market_order. rewrite scan_market_orders_spec by lia.
  change (Z.to_nat 1) with 1%nat.
  destruct (List.filter _ _) as [|o l] eqn:Hf; cbn.
  - intros o Ho Ht Hid. assert (Hin : In o []); [|done]. rewrite <- Hf. apply filter_In.
    rewrite <- list_elem_of_In, scanned_elem, Z.eqb_eq. done.
  - assert (Hin : In o (o :: l)) by by left. rewrite <- Hf in Hin. apply filter_In in Hin as [Hin Hid].
    rewrite <- list_elem_of_In, scanned_elem in Hin. apply Z.eqb_eq in Hid. tauto.
Qed.

(** ** The balances of an address *)

Section balances.
Context `{Crypto}.
Implicit Types db : chain_database.

Lemma sorted_keys_elem {V} (m : gmap Z V) k : k ∈ sorted_keys m <-> is_Some (m !! k).
Proof. unfold sorted_keys. by rewrite merge_sort_Permutation, elem_of_elements, elem_of_dom. Qed.

Lemma scanned_balances_elem db r :
  r ∈ scanned_balances db <-> exists k, db_balances db !! k = Some r.
Proof.
  unfold scanned_balances. rewrite list_elem_of_omap. split.
  - intros (k & _ & Hk). eauto.
  - intros (k & Hk). exists k. split; [|done]. apply sorted_keys_elem. eauto.
Qed.

(** What the scan for an address selects. *)
Definition mine (addr : Z) (r : balance_record) : Prop :=
  balance_is_owner addr r = Ok true \/ addr = balance_id r.

Section scan.
Context (db : chain_database) (addr : Z).
Hypothesis keyed : forall id r, db_balances db !! id = Some r -> balance_id r = id.

Let add_mine (m : gmap Z balance_record) (r : balance_record) : result (gmap Z balance_record) :=
  mine ← balance_is_owner addr r;
  Ok (if (mine : bool) || (addr =? balance_id r) then <[balance_id r := r]> m else m).

Lemma add_mine_step m x m1 :
  (exists k, db_balances db !! k = Some x) -> (forall id r, m !! id = Some r -> db_balances db !! id = Some r) ->
  add_mine m x = Ok m1 ->
  (forall id r, m1 !! id = Some r -> db_balances db !! id = Some r) /\
  forall id r, m1 !! id = Some r <-> m !! id = Some r \/ r = x /\ balance_id r = id /\ mine addr r.
Proof using keyed.
  intros [k Hx] Hm. pose proof (keyed _ _ Hx) as Hid. subst k. unfold add_mine. intros Hr.
  apply bind_Ok in Hr as (b & Hb & Hr). injection Hr as <-.
  assert (Hmine : b || (addr =? balance_id x) = true <-> mine addr x).
  { unfold mine. rewrite Hb, orb_true_iff, Z.eqb_eq. split; (intros [E|E]; [left|by right]); [by rewrite E|by injection E]. }
  destruct (b || (addr =? balance_id x)).
  - assert (Hins : forall id r, <[balance_id x := x]> m !! id = Some r ->
               db_balances db !! id = Some r) by (intros id r; rewrite lookup_insert_Some; naive_solver).
    split; [done|]. intros id r. rewrite lookup_insert_Some. split; [naive_solver|].
    intros [Hr|(-> & <- & _)]; [|by left]. destruct (decide (balance_id x = id)) as [<-|Hne]; [|by right].
    left. split; [done|]. apply Hm in Hr. congruence.
  - split; [done|]. intros id r. split; [by left|]. intros [Hr|(-> & _ & Hx')]; [done|].
    by apply Hmine in Hx'.
Qed.

Lemma add_mine_all l m :
  (forall r, r ∈ l -> exists k, db_balances db !! k = Some r) ->
  (forall id r, m !! id = Some r -> db_balances db !! id = Some r) ->
  match fold_result add_mine m l with
  | Ok m1 => forall id r, m1 !! id = Some r <-> m !! id = Some r \/ r ∈ l /\ balance_id r = id /\ mine addr r
  | Err e => exists id r, db_balances db !! id = Some r /\ balance_is_owner addr r = Err e
  end.
Proof using keyed.
  revert m. induction l as [|x l IH]; intros m Hl Hm; cbn [fold_result].
  { intros id r. split; [by left|]. by intros [?|(?%not_elem_of_nil & _)]. }
  destruct (add_mine m x) as [m1|e] eqn:Hx; cbn [mbind result_bind].
  - destruct (add_mine_step m x m1) as [Hm1 Hs]; [apply Hl; left|done|done|].
    specialize (IH m1 ltac:(intros; apply Hl; by right) Hm1). destruct (fold_result add_mine m1 l); [|done].
    intros id r. rewrite IH, Hs, elem_of_cons. naive_solver.
  - destruct (Hl x ltac:(left)) as [k Hk]. exists k, x. split; [done|].
    unfold add_mine in Hx. by destruct (balance_is_owner addr x); simplify_eq/=.
Qed.
End scan.

(** The balances of an address are exactly the stored balances that it owns, alone
    or among the owners of a multisig balance, and the one it is the id of; the query
    fails only if the owners of some stored balance cannot be read. *)
Theorem balances_for_address_spec db addr :
  (forall id r, db_balances db !! id = Some r -> balance_id r = id) ->
  match get_balances_for_address db addr with
  | Ok m => forall id r, m !! id = Some r <-> db_balances db !! id = Some r /\ mine addr r
  | Err e => exists id r, db_balances db !! id = Some r /\ balance_is_owner addr r = Err e
  end.
Proof.
  intros Hkey. unfold get_balances_for_address.
  pose proof (add_mine_all db addr Hkey (scanned_balances db) ∅
    (fun r => proj1 (scanned_balances_elem db r)) ltac:(by intros id r; rewrite lookup_empty)) as Hall.
  destruct (fold_result _ _ _) as [m|e]; [|done]. intros id r. rewrite Hall, lookup_empty, scanned_balances_elem.
  split.
  - intros [?|((k & Hk) & <- & Hmi)]; [done|]. by rewrite (Hkey _ _ Hk).
  - intros [Hr Hmi]. right. split_and!; [by exists id|by apply Hkey|done].
Qed.
End balances.

(** ** The order history *)

Section history.
Context `{Crypto} `{BlockHash}.
Implicit Types c : chain.

Definition set_market_transactions (block_num : Z) (l : list market_transaction) c : chain :=
  set_ch_db (set_db_market_transactions (<[block_num := l]> (db_market_transactions (ch_db c))) (ch_db c)) c.

Section last_block.
Context (c : chain) (last : Z) (l : list market_transaction).
Hypothesis last_in : is_Some (db_market_transactions (ch_db c) !! last).
Hypothesis last_max : forall k, is_Some (db_market_transactions (ch_db c) !! k) -> k <= last.

Lemma prior_key_not_last current k :
  (if current =? ch_head_num c then head (tail (rev (sorted_keys (db_market_transactions (ch_db c)))))
   else if bool_decide (filter (fun k => current <= k) (sorted_keys (db_market_transactions (ch_db c))) = [])
   then None
   else head (rev (filter (fun k => k < current) (sorted_keys (db_market_transactions (ch_db c)))))) = Some k ->
  k <> last.
Proof using last_max.
  set (keys := sorted_keys _).
  assert (Hmax : forall x, x ∈ keys -> x <= last) by (intros x; unfold keys; rewrite sorted_keys_elem; apply last_max).
  destruct (current =? ch_head_num c).
  - assert (Hs : StronglySorted (flip Z.le) (rev keys)).
    { apply StronglySorted_rev. unfold keys, sorted_keys. apply (StronglySorted_merge_sort _). }
    assert (Hnd : NoDup (rev keys)).
    { rewrite <- Permutation_rev. unfold keys, sorted_keys. rewrite merge_sort_Permutation. apply NoDup_elements. }
    assert (Hin : forall x, x ∈ rev keys -> x <= last) by (intros x; rewrite <- Permutation_rev; apply Hmax).
    destruct (rev keys) as [|x t]; [done|]. cbn. intros Hk%head_Some_elem_of ->.
    apply StronglySorted_inv in Hs as [_ Hx]. rewrite Forall_forall in Hx. apply NoDup_cons in Hnd as [Hnin _].
    specialize (Hx last Hk). unfold flip in Hx. specialize (Hin x ltac:(left)).
    by replace x with last in Hnin by lia.
  - case_bool_decide as He; [done|].
    destruct (filter (fun k => current <= k) keys) as [|y t] eqn:Hy; [done|].
    assert (Hye : y ∈ filter (fun k => current <= k) keys) by (rewrite Hy; left).
    apply list_elem_of_filter in Hye as [Hcy Hyin]. intros Hk%head_Some_elem_of.
    rewrite <- Permutation_rev in Hk. apply list_elem_of_filter in Hk as [Hkc _]. specialize (Hmax y Hyin). lia.
Qed.

Lemma prior_block_same current :
  prior_block (set_market_transactions last l c) current = prior_block c current.
Proof using last_in last_max.
  unfold prior_block. change (ch_head_num (set_market_transactions last l c)) with (ch_head_num c).
  assert (Hkeys : sorted_keys (db_market_transactions (ch_db (set_market_transactions last l c)))
                  = sorted_keys (db_market_transactions (ch_db c))).
  { unfold sorted_keys. cbn. by rewrite dom_insert_lookup_L. }
  rewrite Hkeys. pose proof (prior_key_not_last current) as Hk.
  destruct (if current =? ch_head_num c then _ else _) as [k|]; [|done].
  specialize (Hk k eq_refl). cbn. by rewrite lookup_insert_ne by done.
Qed.

Lemma skip_blocks_same fuel keep skip current orders :
  skip_blocks fuel keep (set_market_transactions last l c) skip current orders
  = skip_blocks fuel keep c skip current orders.
Proof using last_in last_max.
  revert skip current orders. induction fuel as [|fuel IH]; intros skip current orders; cbn [skip_blocks]; [done|].
  rewrite prior_block_same. destruct (prior_block c (wrapu32 (current - 1))). by rewrite IH.
Qed.

Lemma more_blocks_same fuel keep limit found current results :
  more_blocks fuel keep limit found (set_market_transactions last l c) current results
  = more_blocks fuel keep limit found c current results.
Proof using last_in last_max.
  revert current results. induction fuel as [|fuel IH]; intros current results; cbn [more_blocks]; [done|].
  rewrite prior_block_same. destruct (prior_block c (wrapu32 (current - 1))) as [k prior].
  change (get_block_header_at k (set_market_transactions last l c)) with (get_block_header_at k c).
  destruct (get_block_header_at k c); cbn; [by rewrite IH|done].
Qed.
End last_block.

(** The loops end before their fuel does: each turn goes back to an earlier block. *)
Section fuel.
Context (c : chain).
Hypothesis head_small : 1 <= ch_head_num c < 2^32 - 1.
Hypothesis keys_in : forall k, is_Some (db_market_transactions (ch_db c) !! k) -> 1 <= k <= ch_head_num c.

Lemma prior_block_key current :
  (prior_block c current).1 = 1 \/ 1 <= (prior_block c current).1 <= ch_head_num c /\
    (current <> ch_head_num c -> (prior_block c current).1 < current /\ current <= ch_head_num c).
Proof using keys_in.
  unfold prior_block. set (keys := sorted_keys _).
  assert (Hin : forall x, x ∈ keys -> 1 <= x <= ch_head_num c) by (intros x; unfold keys; rewrite sorted_keys_elem; apply keys_in).
  destruct (Z.eqb_spec current (ch_head_num c)) as [He|Hne].
  - destruct (rev keys) as [|x t] eqn:Ht; cbn; [by left|]. destruct t as [|y t]; cbn; [by left|]. right. split; [|done].
    apply Hin. rewrite (Permutation_rev keys), Ht. right; left.
  - case_bool_decide as Hf; [by left|].
    destruct (filter (fun k => current <= k) keys) as [|y t] eqn:Hy; [done|].
    assert (Hye : y ∈ filter (fun k => current <= k) keys) by (rewrite Hy; left).
    apply list_elem_of_filter in Hye as [Hcy Hyin]. specialize (Hin y Hyin) as Hyr.
    destruct (head (rev (filter (fun k => k < current) keys))) as [k|] eqn:Hk; cbn; [|by left].
    apply head_Some_elem_of in Hk. rewrite <- Permutation_rev in Hk. apply list_elem_of_filter in Hk as [Hkc Hkin].
    right. split; [by apply Hin|]. intros _. lia.
Qed.

(** How many turns are left at a block. *)
Definition turns_left (current : Z) : nat := if current =? 0 then 1 else Z.to_nat (current - 1).

Lemma prior_turns current :
  0 <= current <= ch_head_num c -> wrapu32 (current - 1) >= 1 ->
  0 <= (prior_block c (wrapu32 (current - 1))).1 <= ch_head_num c /\
  (turns_left (prior_block c (wrapu32 (current - 1))).1 < turns_left current)%nat.
Proof using head_small keys_in.
  intros Hc. unfold turns_left. destruct (Z.eqb_spec current 0) as [->|Hne].
  - change (wrapu32 (0 - 1)) with (2^32 - 1). intros _.
    destruct (prior_block_key (2^32 - 1)) as [->|(Hk & Hlt)]; [cbn; lia|].
    destruct Hlt as [_ Hle]; lia.
  - unfold wrapu32. rewrite Z.mod_small by lia. intros Hge.
    destruct (prior_block_key (current - 1)) as [->|(Hk & Hlt)]; [cbn; lia|].
    destruct Hlt as [Hlt _]; [lia|]. rewrite (proj2 (Z.eqb_neq _ _)) by lia. lia.
Qed.

Lemma more_blocks_fuel n1 n2 keep limit found current results :
  0 <= current <= ch_head_num c -> (turns_left current <= n1)%nat -> (turns_left current <= n2)%nat ->
  more_blocks n1 keep limit found c current results = more_blocks n2 keep limit found c current results.
Proof using head_small keys_in.
  revert n2 current results.
  assert (Hend : forall n cur res, 0 <= cur <= ch_head_num c -> (turns_left cur <= 0)%nat ->
            more_blocks n keep limit found c cur res = Ok res).
  { intros n cur res Hcur Ht. destruct n as [|n]; [done|]. cbn [more_blocks].
    replace (wrapu32 (cur - 1)) with 0; [done|]. unfold turns_left in Ht.
    destruct (Z.eqb_spec cur 0); [lia|]. by replace cur with 1 by lia. }
  induction n1 as [|n1 IH]; intros n2 current results Hc H1 H2; [by rewrite !Hend|].
  destruct n2 as [|n2]; [by rewrite !Hend|]. cbn [more_blocks].
  destruct ((wrapu32 (current - 1) >=? 1) && (found <? limit)) eqn:Hgo; [|done].
  apply andb_true_iff in Hgo as [Hge%Z.geb_le _].
  destruct (prior_turns current Hc ltac:(lia)) as [Hr Ht].
  destruct (prior_block c (wrapu32 (current - 1))) as [k prior]. cbn [fst] in *.
  destruct (get_block_header_at k c) as [h|e]; cbn [mbind result_bind]; [|done].
  case_match; [done|]. apply IH; [done|lia|lia].
Qed.

Lemma skip_blocks_fuel n1 n2 keep skip current orders :
  0 <= current <= ch_head_num c -> (turns_left current < n1)%nat -> (turns_left current < n2)%nat ->
  skip_blocks n1 keep c skip current orders = skip_blocks n2 keep c skip current orders.
Proof using head_small keys_in.
  revert n2 skip current orders. induction n1 as [|n1 IH]; intros n2 skip current orders Hc H1 H2; [lia|].
  destruct n2 as [|n2]; [lia|]. cbn [skip_blocks]. destruct (skip >? 0); [|done].
  destruct ((wrapu32 (current - 1) >? 0) && (Z.of_nat (List.length orders) <=? skip)) eqn:Hgo; [|done].
  apply andb_true_iff in Hgo as [Hge%Z.gtb_lt _].
  destruct (prior_turns current Hc ltac:(lia)) as [Hr Ht].
  destruct (prior_block c (wrapu32 (current - 1))) as [k prior]. cbn [fst] in *. apply IH; [done|lia|lia].
Qed.

(** The fuel of the model is more than the turns from any block. *)
Lemma history_fuel_enough current :
  0 <= current <= ch_head_num c -> (turns_left current < history_fuel c)%nat.
Proof using head_small. intros Hc. unfold turns_left, history_fuel. destruct (current =? 0); lia. Qed.
End fuel.

(** The order history never shows the latest orders: whatever was matched in the
    last block that matched any, the history is the same. *)
Theorem history_misses_last_block c last l quote base skip_count limit owner :
  is_Some (db_market_transactions (ch_db c) !! last) ->
  (forall k, is_Some (db_market_transactions (ch_db c) !! k) -> k <= last) ->
  market_order_history (set_market_transactions last l c) quote base skip_count limit owner
  = market_order_history c quote base skip_count limit owner.
Proof.
  intros Hin Hmax. unfold market_order_history.
  change (ch_head_num (set_market_transactions last l c)) with (ch_head_num c).
  rewrite (prior_block_same c last l Hin Hmax). destruct (prior_block c (ch_head_num c)) as [current prior].
  change (history_fuel (set_market_transactions last l c)) with (history_fuel c).
  rewrite (skip_blocks_same c last l Hin Hmax).
  destruct (skip_blocks _ _ _ _ _ _) as [[skip1 current1] orders1].
  change (get_block_header_at current1 (set_market_transactions last l c)) with (get_block_header_at current1 c).
  destruct (get_block_header_at current1 c) as [h|e]; cbn; [|done].
  by rewrite (more_blocks_same c last l Hin Hmax).
Qed.
End history.
