(* ===== verification/Genesis.v ===== *)
(** * Genesis: the state before the first block (chain_database.cpp, genesis_config.hpp)

    [chain_database_impl::initialize_genesis] turns the genesis file into the first
    records: accounts and delegates, the balances of the two share drops, the base
    asset and the market issued assets, and the root of the block tree. *)
From S2P Require Import Prelude Config Fc Asset Records ChainInterface PendingState ChainDatabase.
From S2P Require Import Blocks Forks Chain.
From Stdlib Require Import String.

(** ** The genesis file *)

Record name_config := mk_name_config {
  nc_name : string;
  nc_owner : Z;
  nc_delegate_pay_rate : Z
}.
Record asset_config := mk_asset_config {
  cf_symbol : string;
  cf_name : string;
  cf_description : string;
  cf_precision : Z
}.
Record special_balance_config := mk_special_balance {
  sp_raw_address : string;
  sp_balance : Z
}.
Record genesis_block_config := mk_genesis {
  gc_timestamp : Z;
  gc_market_assets : list asset_config;
  gc_names : list name_config;
  gc_balances : list (Z * Z);
  gc_bts_sharedrop : list special_balance_config
}.

(** The address formats: [address( pts_address )], [string( pts_address )],
    [address( string )] and [pts_address( string )]. *)
Class AddressText := {
  address_of_pts : Z -> Z;
  text_of_pts : Z -> string;
  address_of_text : string -> result Z;
  pts_of_text : string -> result Z
}.

Definition BTS_BLOCKCHAIN_NAME : string := "BitShares".
Definition BTS_BLOCKCHAIN_DESCRIPTION : string := "The Future of Banking".
Definition BTS_BLOCKCHAIN_INITIAL_SHARES : Z := BTS_BLOCKCHAIN_MAX_SHARES / 5.
Definition BTS_EXPECTED_CHAIN_ID : Z :=
  0x7cca6e986e4df7263447c728f9094d8b157a5fc0d9e58e619cfaa5ecb75dd4e6.
Definition BTS_DESIRED_CHAIN_ID : Z :=
  0x75c11a81b7670bbaa721cc603eadb2313756f94a3bcbb9928e9101432701ac5f.
Definition last_object_id_prop : Z := 9.

(** The chain id that replaces the hash of the built-in file. *)
Definition adjust_chain_id (id : Z) : Z :=
  if id =? BTS_EXPECTED_CHAIN_ID then BTS_DESIRED_CHAIN_ID else id.

Section genesis.
Context `{Crypto} `{FcNum} `{AddressText}.
Implicit Types db : chain_database.

(** ** Accounts *)

Definition is_delegate_config (n : name_config) : bool := nc_delegate_pay_rate n <=? 100.

(** [account_record god; god.id = 0; god.name = "god";] *)
Definition god : account_record := mk_account 0 "god" v_null null_key ∅ 0 0 None None.

Definition genesis_account (timestamp id : Z) (n : name_config) : result account_record :=
  r ← account_set_active_key timestamp (nc_owner n)
        (mk_account id (nc_name n) v_null (nc_owner n) ∅ 0 0 None None);
  let r := mk_account id (nc_name n) v_null (nc_owner n) (ac_active_key_history r) timestamp timestamp None None in
  if is_delegate_config n
  then account_set_signing_key 0 (nc_owner n)
         (set_ac_delegate_info (Some (mk_delegate_stats 0 (nc_delegate_pay_rate n) ∅ 0 None 0 0 0 0 0)) r)
  else Ok r.

(** The loop over the names, with the next id. *)
Definition store_name (timestamp : Z) (acc : Z * chain_database) (n : name_config)
    : result (Z * chain_database) :=
  let '(id, db) := acc in
  r ← genesis_account timestamp id n;
  db ← db_store_account_record r db;
  Ok (id + 1, db).

(** ** Balances *)

(** [total_unscaled]: an amount becomes a 128-bit word. *)
Definition total_unscaled (l : list (Z * Z)) : Z :=
  foldl (fun t item => wrapu128 (t + Z.quot item.2 1000)) 0 l.

(** The part of the initial shares an entry stands for. *)
Definition initial_shares (total amt : Z) : result Z :=
  q ← uint128_div (wrapu128 (wrapu128 (Z.quot amt 1000) * BTS_BLOCKCHAIN_INITIAL_SHARES)) total;
  Ok (wrap64 (wrapu64 q)).

(** A balance is added to what is there under the same condition. *)
Definition add_to_balance (addr : string) (update : Z) (r : balance_record) db : chain_database :=
  let amt := match db_balances db !! balance_id r with
             | Some cur => wrap64 (br_balance r + br_balance cur) | None => br_balance r end in
  db_store_balance_record
    (mk_balance (br_condition r) amt (br_restricted_owner r) (Some (addr, amt)) (br_deposit_date r) update) db.

Definition store_balance (total timestamp : Z) db (item : Z * Z) : result chain_database :=
  initial ← initial_shares total item.2;
  Ok (add_to_balance (text_of_pts item.1) timestamp
        (balance_of_owner (address_of_pts item.1) (mk_asset initial 0) 0) db).

Definition sharedrop_timestamp : Z := 1415188800.
Definition sharedrop_vesting_duration : Z := 2 * 365 * 86400.

(** The address of a share drop entry, in either format. *)
Definition sharedrop_owner (raw : string) : result Z :=
  let addr := if String.prefix "KEY" raw
              then String.append BTS_ADDRESS_PREFIX (String.substring 3 (String.length raw - 3) raw) else raw in
  match address_of_text addr with
  | Ok a => Ok a
  | Err e => if is_abort e then Err e else p ← pts_of_text raw; Ok (address_of_pts p)
  end.

Definition store_sharedrop db (item : special_balance_config) : result chain_database :=
  owner ← sharedrop_owner (sp_raw_address item);
  let original := Z.quot (sp_balance item) 1000 in
  let c := mk_condition 0 0
             (wd_vesting owner sharedrop_timestamp sharedrop_vesting_duration original) in
  Ok (add_to_balance (sp_raw_address item) sharedrop_timestamp (mk_balance c original None None 0 0) db).

(** The sum of all balances; the loop asserts that none is negative. *)
Definition add_balance_to (total : asset) (r : balance_record) : result asset :=
  _ ← fc_assert (br_balance r >=? 0);
  asset_add total (mk_asset (br_balance r) (wc_asset_id (br_condition r))).
Definition sum_balances db : result asset :=
  fold_result add_balance_to (mk_asset 0 0) ((map_to_list (db_balances db)).*2).

(** ** Assets *)

Definition base_asset_record (timestamp supply : Z) : asset_record :=
  mk_asset_record 0 BTS_BLOCKCHAIN_SYMBOL BTS_BLOCKCHAIN_NAME BTS_BLOCKCHAIN_DESCRIPTION (v_string "")
    god_issuer_id BTS_BLOCKCHAIN_PRECISION timestamp timestamp supply BTS_BLOCKCHAIN_MAX_SHARES 0 0 0 0
    (mk_multisig 0 ∅) 0.

(** The flags and permissions of these records are not initialised: [unset] is
    what memory holds. *)
Definition market_asset_record (unset : Z -> Z * Z) (timestamp id : Z) (a : asset_config) : asset_record :=
  mk_asset_record id (cf_symbol a) (cf_name a) (cf_description a) (v_string "") market_issuer_id
    (cf_precision a) timestamp timestamp 0 BTS_BLOCKCHAIN_MAX_SHARES 0 (unset id).1 (unset id).2 0
    (mk_multisig 0 ∅) 0.

Definition store_market_asset (unset : Z -> Z * Z) (timestamp : Z) (acc : Z * chain_database) (a : asset_config)
    : Z * chain_database :=
  let id := acc.1 + 1 in (id, db_store_asset_record (market_asset_record unset timestamp id a) acc.2).

(** ** Sanity *)

(** [chain_database::sanity_check] *)
Definition sanity_balance (total : asset) (r : balance_record) : result asset :=
  if wc_asset_id (br_condition r) =? 0 then add_balance_to total r else Ok total.
Definition sanity_account (total : asset) (r : account_record) : result asset :=
  match ac_delegate_info r with
  | Some d => asset_add total (mk_asset (ds_pay_balance d) 0)
  | None => Ok total
  end.
Definition sanity_check db : result unit :=
  total ← fold_result sanity_balance (mk_asset 0 0) ((map_to_list (db_balances db)).*2);
  total ← fold_result sanity_account total ((map_to_list (db_accounts db)).*2);
  ar ← require (db_get_asset_record db 0) assert_exception;
  _ ← fc_assert (as_current_share_supply ar =? amount total);
  fc_assert (as_current_share_supply ar <=? as_maximum_share_supply ar).

(** ** The genesis state *)

Definition gen_fork : block_fork_data := mk_fork ∅ true (Some true) None true true.

(** The records of the file. *)
Definition genesis_records (unset : Z -> Z * Z) (config : genesis_block_config) db : result chain_database :=
  _ ← fc_assert (Z.of_nat (List.length (List.filter is_delegate_config (gc_names config)))
                 >=? BTS_BLOCKCHAIN_NUM_DELEGATES);
  db ← db_store_account_record god db;
  '(_, db) ← fold_result (store_name (gc_timestamp config)) (1, db) (gc_names config);
  let total := total_unscaled (gc_balances config) in
  db ← fold_result (store_balance total (gc_timestamp config)) db (gc_balances config);
  db ← fold_result store_sharedrop db (gc_bts_sharedrop config);
  supply ← sum_balances db;
  let db := db_store_asset_record (base_asset_record (gc_timestamp config) (amount supply)) db in
  Ok (foldl (store_market_asset unset (gc_timestamp config)) (0, db) (gc_market_assets config)).2.

(** The properties of the chain. *)
Definition genesis_properties (config : genesis_block_config) db : chain_database :=
  let db := db_set_property active_delegate_list_prop (v_ids (next_round_active_delegates db)) db in
  let db := db_set_property last_asset_id_prop (v_int (Z.of_nat (List.length (gc_market_assets config)))) db in
  let db := db_set_property last_account_id_prop (v_int (Z.of_nat (List.length (gc_names config)))) db in
  let db := db_set_property last_object_id_prop (v_int 1) db in
  let db := db_set_property last_random_seed_prop (v_int 0) db in
  db_set_property confirmation_requirement_prop (v_int (BTS_BLOCKCHAIN_NUM_DELEGATES * 2)) db.

(** [chain_database_impl::initialize_genesis] with the file and its hash at hand *)
Definition initialize_genesis (unset : Z -> Z * Z) (config : genesis_block_config) (config_hash : Z)
    (chain_id_only : bool) (c : chain) : result (chain * Z) :=
  let id := db_chain_id (ch_db c) in
  if negb (id =? 0) && negb chain_id_only then
    (_ ← sanity_check (ch_db c); Ok (c, adjust_chain_id id))
  else
    let id := adjust_chain_id config_hash in
    if chain_id_only then Ok (c, id)
    else
      let db := db_set_property chain_id_prop (v_int id) (set_db_chain_id id (ch_db c)) in
      db ← genesis_records unset config db;
      let blocks := set_bs_forks (<[null_block_id := gen_fork]> (bs_forks (ch_blocks c))) (ch_blocks c) in
      let db := genesis_properties config db in
      _ ← sanity_check db;
      Ok (set_ch_blocks blocks (set_ch_db db c), id).
End genesis.
