(* ===== verification/GenesisFacts.v ===== *)
(** * GenesisFacts: the invariants hold in the genesis state

    [genesis_establishes]: whatever the genesis file says, if the node starts from it
    then every invariant the other theorems keep holds: the records, the vote index
    and the block tree are well formed, and the supply of every asset is what
    [calculate_supply] counts.  [genesis_scales]: the first share drop hands out no
    more than the initial shares. *)
From S2P Require Import Prelude Config Fc Asset Records ChainInterface PendingState ChainDatabase.
From S2P Require Import DatabaseFacts Apply ApplyFacts Blocks Forks ForkFacts Chain Genesis.

(** ** Sums *)

Lemma map_sum_zero `{Countable K} {V} (f : V -> Z) (m : gmap K V) :
  (forall k v, m !! k = Some v -> f v = 0) -> map_sum f m = 0.
Proof.
  unfold map_sum. induction m as [|k v m Hk IH] using map_ind; intros Hf; [apply map_ksum_empty|].
  rewrite map_ksum_insert_None by done. rewrite (Hf k v) by apply lookup_insert_eq.
  rewrite IH; [done|]. intros k' v' Hk'. apply (Hf k'). rewrite lookup_insert_ne; [done|congruence].
Qed.

Lemma map_sum_list `{Countable K} {V} (f : V -> Z) (m : gmap K V) :
  map_sum f m = foldr Z.add 0 (f <$> (map_to_list m).*2).
Proof.
  unfold map_sum, map_ksum. rewrite map_fold_foldr. induction (map_to_list m) as [|[k v] l IH]; [done|].
  cbn. by rewrite IH.
Qed.

(** ** A database without records *)

(** The records other than accounts, balances and assets. *)
Definition other_records (db : chain_database) :=
  (db_bids db, db_asks db, db_relative_bids db, db_relative_asks db, db_shorts db, db_collateral db,
   db_slates db, db_feeds db, db_authorizations db, db_asset_proposals db).
Definition no_records := 
  (∅ : gmap market_index_key order_record, ∅ : gmap market_index_key order_record,
   ∅ : gmap market_index_key order_record, ∅ : gmap market_index_key order_record,
   ∅ : gmap market_index_key order_record, ∅ : gmap market_index_key collateral_record,
   ∅ : gmap Z delegate_slate, ∅ : gmap feed_index feed_record, ∅ : gmap (Z * Z) Z,
   ∅ : gmap (Z * Z) proposal_record).

Record fresh_db (db : chain_database) : Prop := {
  fresh_assets : db_assets db = ∅;
  fresh_accounts : db_accounts db = ∅;
  fresh_votes : db_delegate_votes db = ∅;
  fresh_balances : db_balances db = ∅;
  fresh_other : other_records db = no_records
}.

Section genesis.
Context `{Crypto} `{FcNum} `{AddressText}.
Implicit Types db : chain_database.

(** ** Accounts *)

(** The accounts stored so far have the ids below [id] and no pay. *)
Record accounts_ok (id : Z) db : Prop := {
  ga_ids : ids_ok db;
  ga_votes : votes_ok db;
  ga_null : no_null account_is_null (db_accounts db);
  ga_accounts k r : db_accounts db !! k = Some r -> k < id /\ pay_shares r = 0;
  ga_assets : db_assets db = ∅;
  ga_balances : db_balances db = ∅;
  ga_other : other_records db = no_records
}.

Lemma fresh_accounts_ok db : fresh_db db -> accounts_ok 1 db.
Proof.
  intros [Hs Ha Hv Hb Ho]. split; try done; unfold ids_ok, votes_ok, no_null; rewrite ?Ha, ?Hv.
  - by intros id r ?%lookup_empty_Some.
  - intros v id. rewrite lookup_empty. set_solver.
  - by intros id r ?%lookup_empty_Some.
  - by intros id r ?%lookup_empty_Some.
Qed.

Lemma genesis_account_spec t id n r :
  genesis_account t id n = Ok r -> ac_id r = id /\ pay_shares r = 0.
Proof.
  unfold genesis_account, account_set_active_key, account_set_signing_key. intros Hr. inv_ok.
  destruct (is_delegate_config n); inv_ok; cbn in *; [|done].
  match goal with Hd : Some _ = Some _ |- _ => injection Hd as <- end. done.
Qed.

Lemma store_new_account id r db db' :
  accounts_ok id db -> ac_id r = id -> pay_shares r = 0 ->
  db_store_account_record r db = Ok db' -> accounts_ok (id + 1) db'.
Proof.
  intros [Hi Hv Hn Ha Has Hb Ho] Hid Hpay Hs.
  assert (Hnew : db_accounts db !! ac_id r = None).
  { destruct (db_accounts db !! ac_id r) eqn:E; [|done]. apply Ha in E. lia. }
  pose proof (store_account_accounts _ _ _ Hs) as Hacc. rewrite Hnew in Hacc.
  split.
  - by eapply store_account_ids.
  - eapply store_account_votes; [done..| |done]. by rewrite Hnew.
  - intros k x. rewrite Hacc. destruct (account_is_null r) eqn:E; [by apply Hn|].
    rewrite lookup_insert_Some. intros [[_ <-]|[_ ?]]; [done|by eapply Hn].
  - intros k x. rewrite Hacc. destruct (account_is_null r).
    + intros Hk%Ha. split; [lia|by apply Hk].
    + rewrite lookup_insert_Some. intros [[<- <-]|[_ Hk%Ha]]; [split; [lia|done]|split; [lia|by apply Hk]].
  - rewrite <- Has. by apply (store_account_frame db_assets _ _ _ (fun _ _ _ _ _ => eq_refl) Hs).
  - rewrite <- Hb. by apply (store_account_frame db_balances _ _ _ (fun _ _ _ _ _ => eq_refl) Hs).
  - rewrite <- Ho. by apply (store_account_frame other_records _ _ _ (fun _ _ _ _ _ => eq_refl) Hs).
Qed.

Lemma store_names_ok t l id db id' db' :
  accounts_ok id db -> fold_result (store_name t) (id, db) l = Ok (id', db') -> accounts_ok id' db'.
Proof.
  intros Ha Hf.
  apply (fold_result_inv (fun x : Z * chain_database => accounts_ok x.1 x.2) (store_name t)) in Hf; [done| |done].
  intros [i d] n [i' d'] Hd Hs. cbn in *. unfold store_name in Hs. inv_ok.
  match goal with Hg : genesis_account _ _ _ = _ |- _ => apply genesis_account_spec in Hg as [? ?] end.
  by eapply store_new_account.
Qed.

(** ** Balances *)

(** Only balances of the base asset have been added. *)
Record drops_ok db0 db : Prop := {
  gb_accounts : db_accounts db = db_accounts db0;
  gb_votes : db_delegate_votes db = db_delegate_votes db0;
  gb_assets : db_assets db = db_assets db0;
  gb_other : other_records db = other_records db0;
  gb_keys : keyed balance_id (db_balances db);
  gb_asset k r : db_balances db !! k = Some r -> wc_asset_id (br_condition r) = 0
}.

Lemma add_to_balance_ok db0 addr t r db :
  drops_ok db0 db -> wc_asset_id (br_condition r) = 0 -> drops_ok db0 (add_to_balance addr t r db).
Proof.
  intros [? ? ? ? Hk Ha] Hr. unfold add_to_balance. split; cbn; try done.
  - intros k x. rewrite lookup_insert_Some. intros [[<- <-]|[_ ?]]; [done|by apply Hk].
  - intros k x. rewrite lookup_insert_Some. intros [[_ <-]|[_ ?]]; [done|by eapply Ha].
Qed.

Lemma store_balances_ok db0 total t l db db' :
  drops_ok db0 db -> fold_result (store_balance total t) db l = Ok db' -> drops_ok db0 db'.
Proof.
  intros Hd Hf. eapply (fold_result_inv (drops_ok db0)) in Hf; [done| |done].
  intros d item d' Hdd Hs. unfold store_balance in Hs. inv_ok. by apply add_to_balance_ok.
Qed.
Lemma store_sharedrops_ok db0 l db db' :
  drops_ok db0 db -> fold_result store_sharedrop db l = Ok db' -> drops_ok db0 db'.
Proof.
  intros Hd Hf. eapply (fold_result_inv (drops_ok db0)) in Hf; [done| |done].
  intros d item d' Hdd Hs. unfold store_sharedrop in Hs. inv_ok. by apply add_to_balance_ok.
Qed.

(** The sum wraps like a 64-bit word, and no balance is negative. *)
Lemma add_balances_spec l t t' :
  in_int64 (amount t) -> fold_result add_balance_to t l = Ok t' ->
  in_int64 (amount t') /\ amount t' ≡64 amount t + foldr Z.add 0 (br_balance <$> l) /\
  Forall (fun r => 0 <= br_balance r) l.
Proof.
  revert t. induction l as [|r l IH]; intros t Ht; cbn.
  - intros [= <-]. split; [done|]. split; [|constructor]. by rewrite Z.add_0_r.
  - intros (t1 & Ha & Hf)%bind_Ok. unfold add_balance_to in Ha. inv_ok.
    apply asset_add_Ok in Ha as [_ ->]. apply IH in Hf as (Hr & Hsum & Hall); [|apply wrap64_range].
    split; [done|]. split; [|constructor; [lia|done]].
    rewrite Hsum. cbn. rewrite wrap64_eqm. apply eq_eqm64. lia.
Qed.

Lemma sum_balances_spec db total :
  sum_balances db = Ok total ->
  amount total = wrap64 (map_sum br_balance (db_balances db)) /\
  forall k r, db_balances db !! k = Some r -> 0 <= br_balance r.
Proof.
  unfold sum_balances. intros (Hr & Hs & Hall)%add_balances_spec; [|by vm_compute]. cbn in Hs.
  rewrite <- map_sum_list in Hs. split.
  - apply eqm64_int64; [done|apply wrap64_range|]. by rewrite wrap64_eqm.
  - intros k r Hk. rewrite Forall_forall in Hall. apply Hall. apply list_elem_of_fmap.
    exists (k, r). split; [done|]. by apply elem_of_map_to_list.
Qed.

(** ** Assets *)

(** An asset record of the genesis state; market issued assets start without
    shares. *)
Record assets_ok (supply : Z) db0 db : Prop := {
  gs_accounts : db_accounts db = db_accounts db0;
  gs_votes : db_delegate_votes db = db_delegate_votes db0;
  gs_balances : db_balances db = db_balances db0;
  gs_other : other_records db = other_records db0;
  gs_null : no_null asset_is_null (db_assets db);
  gs_keys : keyed as_id (db_assets db);
  gs_base : exists r, db_assets db !! 0 = Some r;
  gs_supply k r : db_assets db !! k = Some r ->
    as_collected_fees r = 0 /\ as_current_share_supply r = if k =? 0 then supply else 0
}.

Lemma base_asset_ok t supply db :
  db_assets db = ∅ -> assets_ok supply db (db_store_asset_record (base_asset_record t supply) db).
Proof.
  intros Ha. unfold db_store_asset_record. cbn. rewrite Ha.
  split; cbn; try done.
  - intros k r. rewrite lookup_insert_Some, lookup_empty. intros [[_ <-]|[_ ?]]; done.
  - intros k r. rewrite lookup_insert_Some, lookup_empty. intros [[<- <-]|[_ ?]]; done.
  - rewrite lookup_insert_eq. eauto.
  - intros k r. rewrite lookup_insert_Some, lookup_empty. intros [[<- <-]|[_ ?]]; done.
Qed.

Lemma market_asset_ok supply db0 unset t id a db :
  0 < id -> assets_ok supply db0 db ->
  assets_ok supply db0 (db_store_asset_record (market_asset_record unset t id a) db).
Proof.
  intros Hid [? ? ? ? Hn Hk [r0 Hb] Hs]. unfold db_store_asset_record. cbn. split; cbn; try done.
  - intros k r. rewrite lookup_insert_Some. intros [[_ <-]|[_ ?]]; [done|by eapply Hn].
  - intros k r. rewrite lookup_insert_Some. intros [[<- <-]|[_ ?]]; [done|by eapply Hk].
  - rewrite lookup_insert_ne by (cbn; lia). eauto.
  - intros k r. rewrite lookup_insert_Some. intros [[<- <-]|[_ ?]]; [|by eapply Hs].
    cbn. by destruct (Z.eqb_spec id 0); [lia|].
Qed.

Lemma market_assets_ok supply db0 unset t l id db :
  0 <= id -> assets_ok supply db0 db ->
  assets_ok supply db0 (foldl (store_market_asset unset t) (id, db) l).2.
Proof.
  revert id db. induction l as [|a l IH]; intros id db Hid Hd; cbn; [done|].
  unfold store_market_asset at 2. cbn. apply IH; [lia|]. apply market_asset_ok; [lia|done].
Qed.

(** ** The records of the file *)

Record genesis_ok db : Prop := {
  gn_ids : ids_ok db;
  gn_votes : votes_ok db;
  gn_accounts : no_null account_is_null (db_accounts db);
  gn_pay k r : db_accounts db !! k = Some r -> pay_shares r = 0;
  gn_other : other_records db = no_records;
  gn_keys : keyed balance_id (db_balances db);
  gn_balances k r : db_balances db !! k = Some r -> wc_asset_id (br_condition r) = 0 /\ 0 <= br_balance r;
  gn_assets : no_null asset_is_null (db_assets db);
  gn_asset_keys : keyed as_id (db_assets db);
  gn_base : exists r, db_assets db !! 0 = Some r;
  gn_supply k r : db_assets db !! k = Some r ->
    as_collected_fees r = 0 /\
    as_current_share_supply r = if k =? 0 then wrap64 (map_sum br_balance (db_balances db)) else 0
}.

Lemma store_god db : fresh_db db -> db_store_account_record god db = Ok db.
Proof.
  intros Hf. unfold db_store_account_record, db_get_account_record. by rewrite (fresh_accounts _ Hf).
Qed.

Lemma genesis_records_ok unset config db db' :
  fresh_db db -> genesis_records unset config db = Ok db' -> genesis_ok db'.
Proof.
  intros Hfresh. unfold genesis_records. rewrite store_god by done. intros (_ & _ & Hg)%bind_Ok. cbn [mbind result_bind] in Hg.
  apply bind_Ok in Hg as ((n & db2) & Hnames & Hg).
  apply store_names_ok in Hnames as [Hi Hv Hn Ha Has Hb Ho]; [|by apply fresh_accounts_ok].
  apply bind_Ok in Hg as (db3 & Hbal & Hg). apply bind_Ok in Hg as (db4 & Hdrop & Hg).
  apply bind_Ok in Hg as (supply & [Hsum Hpos]%sum_balances_spec & [= <-]).
  apply (store_balances_ok db2) in Hbal.
  2:{ split; try done; rewrite Hb; by intros k r ?%lookup_empty_Some. }
  eapply store_sharedrops_ok in Hdrop as [Da Dv Ds Do Dk Dc]; [|exact Hbal].
  pose proof (market_assets_ok (amount supply) db4 unset (gc_timestamp config) (gc_market_assets config) 0 _ ltac:(lia)
    (base_asset_ok (gc_timestamp config) (amount supply) db4 ltac:(congruence))) as [Sa Sv Sb So Sn Sk Sr Ss].
  split; try done.
  - unfold ids_ok. by rewrite Sa, Da.
  - unfold votes_ok. by rewrite Sa, Da, Sv, Dv.
  - by rewrite Sa, Da.
  - intros k r. rewrite Sa, Da. intros Hk. by apply (Ha k r Hk).
  - by rewrite So, Do.
  - by rewrite Sb.
  - intros k r. rewrite Sb. intros Hk. eauto.
  - intros k r Hk. rewrite Sb, <- Hsum. by apply Ss.
Qed.

(** ** What the invariants say of them *)

Lemma no_records_maps db :
  other_records db = no_records ->
  db_bids db = ∅ /\ db_asks db = ∅ /\ db_relative_bids db = ∅ /\ db_relative_asks db = ∅ /\
  db_shorts db = ∅ /\ db_collateral db = ∅ /\ db_slates db = ∅ /\ db_feeds db = ∅ /\
  db_authorizations db = ∅ /\ db_asset_proposals db = ∅.
Proof. unfold other_records, no_records. intros [= -> -> -> -> -> -> -> -> -> ->]. done. Qed.

Lemma genesis_ok_db db : genesis_ok db -> db_ok db.
Proof.
  intros [Hi Hv Hn Hp Ho Hk Hb Ha Hak _ _].
  apply no_records_maps in Ho as (E1 & E2 & E3 & E4 & E5 & E6 & E7 & E8 & E9 & E10).
  split; rewrite ?E1, ?E2, ?E3, ?E4, ?E5, ?E6, ?E7, ?E8, ?E9, ?E10; try done;
    by intros k v ?%lookup_empty_Some.
Qed.

Lemma genesis_ok_supply db a r :
  genesis_ok db -> db_assets db !! a = Some r ->
  calculate_supply db a = Ok (mk_asset (as_current_share_supply r) a).
Proof.
  intros [Hi Hv Hn Hp Ho Hk Hb Ha Hak _ Hs] Hr. destruct (Hs a r Hr) as [Hfees Hsup].
  apply no_records_maps in Ho as (E1 & E2 & E3 & E4 & E5 & E6 & _).
  unfold calculate_supply, db_get_asset_record. rewrite Hr. cbn [require mbind result_bind].
  rewrite E1, E2, E3, E4, E5, E6, Hsup, Hfees. unfold order_shares. rewrite !map_ksum_empty.
  rewrite (map_sum_zero pay_shares (db_accounts db)) by done.
  assert (Hsum : map_sum (balance_shares a) (db_balances db) =
                 if a =? 0 then map_sum br_balance (db_balances db) else 0).
  { destruct (Z.eqb_spec a 0) as [->|Hne].
    - rewrite !map_sum_list. f_equal. apply list_fmap_ext. intros i x Hx.
      apply list_lookup_fmap_Some in Hx as ([k y] & -> & Hx). apply list_elem_of_lookup_2 in Hx.
      apply elem_of_map_to_list, Hb in Hx as [Hx _]. cbn. unfold balance_shares. by rewrite Hx.
    - apply map_sum_zero. intros k x [Hx _]%Hb. unfold balance_shares. rewrite Hx.
      by destruct (Z.eqb_spec 0 a); [lia|]. }
  rewrite Hsum. destruct (a =? 0); [|done]. unfold map_sum at 2 3. rewrite !map_ksum_empty.
  do 3 f_equal. lia.
Qed.

(** The block tree with its root only. *)
Definition empty_store : block_store := mk_store ∅ ∅ ∅ ∅.

Lemma root_tree_ok `{BlockHash} :
  tree_ok (set_bs_forks (<[null_block_id := gen_fork]> (bs_forks empty_store)) empty_store).
Proof.
  split; [split|..]; cbn.
  - exists gen_fork. by rewrite lookup_insert_eq.
  - by intros id b ?%lookup_empty_Some.
  - intros id [? ?%lookup_empty_Some]. done.
  - intros id f. rewrite lookup_insert_Some, lookup_empty. intros [[<- _]|[_ ?]]; done.
  - intros x f y. rewrite lookup_insert_Some, lookup_empty. intros [[_ <-]|[_ ?]]; [|done]. cbn.
    split; [by intros ?%elem_of_empty|]. intros (b & ?%lookup_empty_Some & _). done.
  - intros id n. unfold fetch_blocks_at_number. cbn. rewrite lookup_empty. cbn.
    split; [by intros ?%elem_of_nil|]. intros (b & ?%lookup_empty_Some & _). done.
  - exists gen_fork. by rewrite lookup_insert_eq.
  - intros id f. rewrite lookup_insert_Some, lookup_empty. intros [[_ <-]|[_ ?]]; [|done]. by split.
  - by intros c b fp fc ?%lookup_empty_Some.
Qed.

(** A fresh node. *)
Definition fresh_chain (c : chain) : Prop :=
  fresh_db (ch_db c) /\ db_chain_id (ch_db c) = 0 /\ ch_blocks c = empty_store.

(** C8: The genesis state has every invariant.  Whatever the genesis file contains, if a
    fresh node accepts it then no null record is stored and each is under its own key,
    the vote index lists exactly the delegates' votes, the block tree is well formed
    with the genesis block as its valid root, every balance is of the base asset and
    not negative, and the supply of every asset is what the chain counts of it. *)
Theorem genesis_establishes `{BlockHash} unset config config_hash c c' id :
  fresh_chain c -> initialize_genesis unset config config_hash false c = Ok (c', id) ->
  db_ok (ch_db c') /\ votes_ok (ch_db c') /\ tree_ok (ch_blocks c') /\
  (forall k r, db_balances (ch_db c') !! k = Some r -> wc_asset_id (br_condition r) = 0 /\ 0 <= br_balance r) /\
  (exists r, db_assets (ch_db c') !! 0 = Some r) /\
  (forall a r, db_assets (ch_db c') !! a = Some r ->
     calculate_supply (ch_db c') a = Ok (mk_asset (as_current_share_supply r) a)).
Proof.
  intros (Hf & Hid & Hb). unfold initialize_genesis. rewrite Hid. cbn [negb Z.eqb andb].
  intros (db & Hg & Hs)%bind_Ok. apply bind_Ok in Hs as (_ & _ & [= <- _]).
  assert (Hok : genesis_ok (genesis_properties config db)).
  { apply genesis_records_ok in Hg; [|by destruct Hf]. by destruct Hg. }
  cbn -[genesis_properties]. rewrite Hb. split_and!.
  - by apply genesis_ok_db.
  - apply Hok.
  - apply root_tree_ok.
  - apply Hok.
  - apply Hok.
  - intros a r. by apply genesis_ok_supply.
Qed.

(** ** Scaling *)

(** What the entries of the first share drop amount to. *)
Definition unscaled (l : list (Z * Z)) : list Z := (fun item => Z.quot item.2 1000) <$> l.
Definition zsum (l : list Z) : Z := foldr Z.add 0 l.

Lemma zsum_cons a l : zsum (a :: l) = a + zsum l.
Proof. done. Qed.
Lemma zsum_nonneg l : Forall (fun a => 0 <= a) l -> 0 <= zsum l.
Proof. induction 1; rewrite ?zsum_cons; [done|lia]. Qed.

Lemma fold_unscaled l t :
  0 <= t -> Forall (fun a => 0 <= a) (unscaled l) -> t + zsum (unscaled l) < 2^128 ->
  foldl (fun t item => wrapu128 (t + Z.quot item.2 1000)) t l = t + zsum (unscaled l).
Proof.
  revert t. induction l as [|x l IH]; intros t Ht Hl Hs; cbn [foldl]; [cbn; lia|].
  change (unscaled (x :: l)) with (Z.quot x.2 1000 :: unscaled l) in *. rewrite zsum_cons in *.
  apply Forall_cons in Hl as [Hx Hl]. pose proof (zsum_nonneg _ Hl).
  assert (Hw : wrapu128 (t + Z.quot x.2 1000) = t + Z.quot x.2 1000) by (apply Z.mod_small; lia).
  rewrite Hw, IH; [lia..|done|lia].
Qed.

(** Rounding down each of [n] parts of a whole loses less than [n]. *)
Lemma floor_parts (whole total : Z) (l shares : list Z) :
  0 < total -> Forall2 (fun a s => s = a * whole / total) l shares ->
  total * zsum shares <= zsum l * whole /\
  (l <> [] -> zsum l * whole < total * (zsum shares + Z.of_nat (length l))).
Proof.
  intros Ht Hl. induction Hl as [|a s l shares -> Hl IH]; [split; [cbn; lia|done]|].
  pose proof (Z.mul_div_le (a * whole) total Ht). pose proof (Z.mul_succ_div_gt (a * whole) total Ht).
  destruct IH as [IH1 IH2]. rewrite !zsum_cons. cbn [length]. rewrite Nat2Z.inj_succ. split; [lia|]. intros _.
  destruct (decide (l = [])) as [->|Hne]; [inversion Hl; subst; cbn; lia|].
  specialize (IH2 Hne). lia.
Qed.

Lemma initial_shares_floor total amt :
  0 <= amt <= INT64_MAX -> Z.quot amt 1000 <= total -> 0 < total ->
  initial_shares total amt = Ok (Z.quot amt 1000 * BTS_BLOCKCHAIN_INITIAL_SHARES / total) /\
  0 <= Z.quot amt 1000 * BTS_BLOCKCHAIN_INITIAL_SHARES / total.
Proof.
  intros Hamt Hle Ht. unfold initial_shares.
  change BTS_BLOCKCHAIN_INITIAL_SHARES with 200000000000000.
  assert (Ha : 0 <= Z.quot amt 1000 < 2^63).
  { unfold INT64_MAX in Hamt. rewrite Z.quot_div_nonneg by lia. split; [apply Z.div_pos; lia|].
    apply Z.div_lt_upper_bound; lia. }
  set (a := Z.quot amt 1000) in *.
  assert (Hq : 0 <= a * 200000000000000 / total <= 200000000000000).
  { split; [apply Z.div_pos; lia|]. apply Z.div_le_upper_bound; [lia|]. nia. }
  unfold wrapu128. rewrite (Z.mod_small a) by lia. rewrite Z.mod_small by lia.
  unfold uint128_div. destruct (Z.eqb_spec total 0); [lia|]. cbn. split; [|lia]. f_equal.
  unfold wrapu64, wrap64. rewrite (Z.mod_small (_ / _)) by lia. rewrite Z.mod_small by lia. lia.
Qed.

(** The first share drop hands out the initial shares in proportion: with entries
    that are not negative, each gets the part of [BTS_BLOCKCHAIN_INITIAL_SHARES] that
    its amount is of the whole, rounded down, no 128-bit product overflows, and
    together they get no more than the initial shares and less than one share per
    entry short of them. *)
Theorem genesis_scales l :
  Forall (fun item => 0 <= item.2 <= INT64_MAX) l -> 0 < zsum (unscaled l) < 2^128 ->
  exists shares,
    Forall2 (fun item s => initial_shares (total_unscaled l) item.2 = Ok s /\ 0 <= s /\
               s = Z.quot item.2 1000 * BTS_BLOCKCHAIN_INITIAL_SHARES / zsum (unscaled l)) l shares /\
    BTS_BLOCKCHAIN_INITIAL_SHARES - Z.of_nat (length l) < zsum shares <= BTS_BLOCKCHAIN_INITIAL_SHARES.
Proof.
  intros Hl Ht. set (T := zsum (unscaled l)) in *.
  assert (Hpos : Forall (fun a => 0 <= a) (unscaled l)).
  { apply Forall_fmap. eapply Forall_impl; [exact Hl|]. intros x Hx. cbn in *. apply Z.quot_pos; lia. }
  assert (HT : total_unscaled l = T).
  { unfold total_unscaled. rewrite fold_unscaled by (done || lia). done. }
  assert (Hle : Forall (fun a => a <= T) (unscaled l)).
  { subst T. clear - Hpos. induction Hpos as [|a l' Ha Hl IH]; [constructor|]. rewrite zsum_cons.
    pose proof (zsum_nonneg _ Hl). constructor; [lia|]. eapply Forall_impl; [exact IH|]. intros b Hb. cbn beta in Hb |- *. lia. }
  exists ((fun a => a * BTS_BLOCKCHAIN_INITIAL_SHARES / T) <$> unscaled l). split.
  - rewrite HT. unfold unscaled. rewrite <- list_fmap_compose. apply Forall2_fmap_r.
    apply Forall_Forall2_diag. rewrite Forall_forall in Hle. rewrite Forall_forall in Hl. apply Forall_forall. intros x Hx.
    destruct (initial_shares_floor T x.2) as [-> ?];
      [by apply Hl|by apply Hle, list_elem_of_fmap; exists x|lia|]. done.
  - destruct (floor_parts BTS_BLOCKCHAIN_INITIAL_SHARES T (unscaled l)
                ((fun a => a * BTS_BLOCKCHAIN_INITIAL_SHARES / T) <$> unscaled l)) as [H1' H2']; [lia| |].
    { apply Forall2_fmap_r, Forall_Forall2_diag, Forall_true. done. }
    fold T in H1', H2'. assert (Hlen : length (unscaled l) = length l) by apply length_fmap.
    rewrite Hlen in H2'.
    assert (Hne : unscaled l <> []) by (intros E; subst T; rewrite E in Ht; cbn in Ht; lia).
    specialize (H2' Hne). split; nia.
Qed.
End genesis.
