(* ===== verification/MarketWitnesses.v ===== *)
(** * MarketWitnesses: small markets and a genesis file

    Bids, a relative bid, asks and a position of a market among those of another,
    and a chain with two blocks of matched orders, for the theorems of QueryFacts.v;
    a genesis file of 101 delegates, two share drops and a market issued asset, for
    those of GenesisFacts.v; and markets for the engines to execute. *)
From S2P Require Import Prelude Config Fc Asset Records ChainInterface PendingState ChainDatabase.
From S2P Require Import DatabaseFacts Apply ApplyFacts EvalState Ledger Samples Blocks Production.
From S2P Require Import Forks ForkFacts Chain ChainOps ChainFacts OrderBook BookFacts Engine.
From S2P Require Import EngineFacts EngineLedger EngineV7 EngineV7Facts EngineAgree.
From S2P Require Import ChainWitnesses Queries QueryFacts Genesis GenesisFacts.
From Stdlib Require Import String.

(** ** A market to query *)

#[local] Open Scope Z_scope.

Definition at_price (r base quote owner : Z) : market_index_key := mk_market_key (mk_price r base quote) owner.
Definition resting (amt : Z) : order_record := mk_order amt None 0.

Definition query_db : chain_database :=
  set_db_assets (keyed_map as_id [ sample_asset 0 "BTS" 0 5000000 0 (mk_multisig 0 ∅);
                                   sample_asset 22 "USD" market_issuer_id 9000 40 (mk_multisig 0 ∅) ])
    (set_db_symbol_index {[ "BTS"%string := 0; "USD"%string := 22 ]}
      (set_db_bids (list_to_map [ (at_price 5 0 22 1, resting 50); (at_price 7 0 22 2, resting 70);
                                  (at_price 9 0 23 1, resting 90) ])
        (set_db_relative_bids {[ at_price 1 0 22 3 := resting 10 ]}
          (set_db_asks (list_to_map [ (at_price 8 0 22 4, resting 80); (at_price 3 0 21 4, resting 30) ])
            (set_db_balances (keyed_map balance_id [ sample_balance condition_3 700; sample_balance condition_4 100 ])
              (empty_db 100 sample_now 1)))))).

Lemma all_keys_ok_bool {V} (m : gmap market_index_key V) :
  forallb (fun kv => let k := kv.1 in
    (0 <=? base_asset_id (mk_order_price k)) && (base_asset_id (mk_order_price k) <? quote_asset_id (mk_order_price k))
    && (0 <=? ratio (mk_order_price k)) && (0 <=? mk_owner k)) (map_to_list m) = true ->
  forall k v, m !! k = Some v -> key_ok k.
Proof.
  rewrite forallb_forall. intros Hall k v Hk%elem_of_map_to_list%list_elem_of_In.
  specialize (Hall _ Hk). cbn in Hall. unfold key_ok. lia.
Qed.

Lemma query_db_keys : all_keys_ok query_db.
Proof. unfold all_keys_ok, book_keys_ok. split_and!; apply all_keys_ok_bool; vm_compute; reflexivity. Qed.

Lemma market_orders_spec_witness :
  get_market_bids query_db "USD" "BTS" 2
    = Ok [ plain_order bid_order (at_price 7 0 22 2) (resting 70); plain_order bid_order (at_price 5 0 22 1) (resting 50) ] /\
  get_market_asks query_db "USD" "BTS" 2 = Ok [ plain_order ask_order (at_price 8 0 22 4) (resting 80) ].
Proof.
  destruct (market_orders_spec query_db "USD" "BTS" 22 0 2) as (Hb & Ha & _);
    [vm_compute; reflexivity|vm_compute; reflexivity|lia|lia|exact query_db_keys|].
  split; [rewrite Hb|rewrite Ha]; vm_compute; reflexivity.
Defined.

Lemma balances_for_address_spec_witness :
  exists m, get_balances_for_address query_db (address_of_key 3) = Ok m /\
    forall id r, m !! id = Some r <-> db_balances query_db !! id = Some r /\ mine (address_of_key 3) r.
Proof.
  assert (Hk : forall id r, db_balances query_db !! id = Some r -> balance_id r = id)
    by (apply keyed_decide; vm_compute; reflexivity).
  pose proof (balances_for_address_spec query_db (address_of_key 3) Hk) as Hs.
  destruct (get_balances_for_address query_db (address_of_key 3)) as [m|e] eqn:Hg.
  - exists m. split; [reflexivity|exact Hs].
  - exfalso. assert (Ho : is_ok (get_balances_for_address query_db (address_of_key 3)) = true) by (vm_compute; reflexivity).
    rewrite Hg in Ho. discriminate Ho.
Defined.

(** A chain of six blocks, with orders matched in blocks 2, 3, 4 and 6. *)
Definition matched (owner : Z) : market_transaction :=
  mk_market_trx owner 4 (mk_price 7 0 22) (mk_price 7 0 22) (mk_asset 7 22) (mk_asset 1 0) None (mk_asset 1 0)
    (mk_asset 7 22) None 1 2 (mk_asset 0 22).
Definition header_of (num : Z) : signed_block_header := mk_signed_header (mk_header num num (1000 * num) 0 0 0) 1.
Definition market_chain : chain :=
  mk_chain (set_db_market_transactions
      {[ 2 := [matched 12]; 3 := [matched 13]; 4 := [matched 14]; 6 := [matched 16] ]} query_db)
    (header_of 6) 6
    (mk_store ∅ ∅ ∅ (list_to_map (map (fun n => (n, mk_block_record (mk_digest_block (header_of n) []) 0 0 0 0 0 0 0))
                                    [1; 2; 3; 4; 5; 6])))
    (list_to_map (map (fun n => (n, n)) [1; 2; 3; 4; 5; 6])) ∅ ∅ ∅ ∅ None false false 0.

(** The orders of block 6 are missing, and those of block 3, the one before block 4. *)
Lemma history_of_market_chain :
  market_order_history market_chain 22 0 0 100 0 = Ok [(matched 14, 4000); (matched 12, 2000)].
Proof. vm_compute. reflexivity. Qed.

Lemma history_misses_last_block_witness :
  market_order_history (set_market_transactions 6 [] market_chain) 22 0 0 100 0
  = Ok [(matched 14, 4000); (matched 12, 2000)].
Proof.
  rewrite (history_misses_last_block market_chain 6 [] 22 0 0 100 0).
  - exact history_of_market_chain.
  - eexists. vm_compute. reflexivity.
  - intros k Hk. assert (Hd : k ∈ dom (db_market_transactions (ch_db market_chain))) by by apply elem_of_dom.
    cbn in Hd. set_unfold in Hd. lia.
Defined.

(** ** A genesis file *)

#[local] Instance toy_text : AddressText := {|
  address_of_pts p := 7 * p + 3;
  text_of_pts _ := "P"%string;
  address_of_text s := if String.prefix "BTS" s then Ok (Z.of_nat (String.length s)) else Err bad_cast_exception;
  pts_of_text s := Ok (Z.of_nat (String.length s))
|}.

Definition genesis_file : genesis_block_config :=
  mk_genesis sample_now [mk_asset_config "USD" "Dollar" "" 10000]
    (map (fun i => mk_name_config "init" (1000 + Z.of_nat i) 3) (seq 0 101)
     ++ [mk_name_config "angel" 5000 255])
    [(11, 2500000); (12, 7000999); (11, 1300000)]
    [mk_special_balance "KEYabc" 4000000; mk_special_balance "PtsAddress" 700].

Definition fresh_node : chain :=
  mk_chain (empty_db 0 sample_now 0) sample_head 0 empty_store ∅ ∅ ∅ ∅ ∅ None false false 0.

Lemma fresh_node_fresh : fresh_chain fresh_node.
Proof. by split_and!. Qed.

Lemma genesis_establishes_witness :
  exists c' id, initialize_genesis (fun _ => (7, 7)) genesis_file 99 false fresh_node = Ok (c', id) /\
    db_ok (ch_db c') /\ votes_ok (ch_db c') /\ tree_ok (ch_blocks c') /\
    (forall k r, db_balances (ch_db c') !! k = Some r ->
       wc_asset_id (br_condition r) = 0 /\ 0 <= br_balance r) /\
    (exists r, db_assets (ch_db c') !! 0 = Some r) /\
    (forall a r, db_assets (ch_db c') !! a = Some r ->
       calculate_supply (ch_db c') a = Ok (mk_asset (as_current_share_supply r) a)).
Proof.
  destruct (is_ok_Some (initialize_genesis (fun _ => (7, 7)) genesis_file 99 false fresh_node)) as [[c' id] Hg].
  { vm_compute. reflexivity. }
  exists c', id. split; [exact Hg|].
  exact (genesis_establishes (fun _ => (7, 7)) genesis_file 99 fresh_node c' id fresh_node_fresh Hg).
Defined.

(** The three entries get 2500, 7000 and 1300 parts in 10800, rounded down. *)
Lemma genesis_scales_witness :
  exists shares,
    Forall2 (fun item s => initial_shares (total_unscaled (gc_balances genesis_file)) item.2 = Ok s /\ 0 <= s /\
               s = Z.quot item.2 1000 * BTS_BLOCKCHAIN_INITIAL_SHARES / zsum (unscaled (gc_balances genesis_file)))
      (gc_balances genesis_file) shares /\
    BTS_BLOCKCHAIN_INITIAL_SHARES - 3 < zsum shares <= BTS_BLOCKCHAIN_INITIAL_SHARES.
Proof.
  apply (genesis_scales (gc_balances genesis_file)).
  - repeat (constructor; [vm_compute; split; discriminate|]). constructor.
  - vm_compute. done.
Defined.

(** ** Markets to execute *)

(** Addresses that tell the conditions of different assets, slates and owners
    apart. *)
Definition paired_crypto : Crypto := {|
  address_of_key := @address_of_key toy_crypto;
  pts_address_of_key := @pts_address_of_key toy_crypto;
  condition_address c :=
    Zpos (encode (wc_asset_id c, (wc_slate_id c, match wc_data c with wd_signature o _ => o | _ => - wc_type c end)));
  slate_hash := @slate_hash toy_crypto;
  trx_id := @trx_id toy_crypto;
  trx_digest := @trx_digest toy_crypto;
  recover_key := @recover_key toy_crypto;
  ripemd160_hash := @ripemd160_hash toy_crypto
|}.
#[local] Existing Instance paired_crypto.

#[local] Instance paired_addresses : AssetAddresses.
Proof. intros c c' Hc. cbn in Hc. injection Hc as Hc. apply encode_inj in Hc. congruence. Qed.

Definition order_key (ratio quote owner : Z) : market_index_key := mk_market_key (mk_price ratio 0 quote) owner.

(** Bids of 600 at 2 and of 300 at 1 and a third, asks of 200 at 1.5 and of 100 at 3;
    the market's keys lie between those of other markets. *)
Definition market_db : chain_database :=
  set_db_assets (keyed_map as_id
      [ sample_asset 0 "BTS" 0 5000000 0 (mk_multisig 0 ∅);
        sample_asset 100 "CUSTOM" 1 900 0 (mk_multisig 0 ∅) ])
    (set_db_bids (list_to_map
        [ (order_key (2 * 10^18) 100 31, mk_order 600 None 0);
          (order_key (4 * 10^18 / 3) 100 41, mk_order 300 None 0);
          (order_key (9 * 10^18) 22 31, mk_order 70 None 0);
          (order_key (10^18) 101 31, mk_order 70 None 0) ])
      (set_db_asks (list_to_map
          [ (order_key (15 * 10^17) 100 51, mk_order 200 None 0);
            (order_key (3 * 10^18) 100 61, mk_order 100 None 0);
            (order_key (10^18) 22 51, mk_order 90 None 0) ])
        (set_db_properties {[ active_delegate_list_prop := v_ids [1; 2] ]}
          (empty_db (BTS_V0_4_29_FORK_BLOCK_NUM + 10) sample_now 1)))).

Definition market_prior : pending_chain_state := new_pending (Some (db_view market_db)).

Lemma market_prior_wf : pending_wf market_prior.
Proof.
  split; [apply new_pending_ok|]. intros v [= <-]. split_and!;
    [apply (keyed_decide as_id (db_assets market_db)) | apply (keyed_decide ac_id (db_accounts market_db))
    |apply (keyed_decide balance_id (db_balances market_db))]; vm_compute; reflexivity.
Qed.

Lemma market_orders_current : orders_current (mk_market market_db 100 0 None) market_prior.
Proof. intros k _. split; reflexivity. Qed.

(** The highest bid meets the lowest ask: one trade. *)
Lemma market_conserves_witness :
  exists prior' trxs, execute market_db 100 0 sample_now market_prior = Ok (prior', trxs) /\
    List.length trxs = 1%nat /\ pending_wf prior' /\
    forall id, pending_ledger id prior' ≡64 pending_ledger id market_prior.
Proof.
  destruct (is_ok_Some (execute market_db 100 0 sample_now market_prior)) as [[prior' trxs] He].
  { vm_compute. reflexivity. }
  exists prior', trxs. split; [exact He|]. split.
  - assert (Hl : (List.length ∘ snd <$> execute market_db 100 0 sample_now market_prior) = Ok 1%nat)
      by (vm_compute; reflexivity).
    rewrite He in Hl. by injection Hl.
  - apply (market_conserves market_db 100 0 sample_now market_prior prior' trxs market_prior_wf);
      [lia|by intros r [= <-]|reflexivity|exact market_orders_current|exact He].
Defined.

#[local] Instance key_ok_dec k : Decision (key_ok k).
Proof. unfold key_ok. apply _. Defined.

Lemma keys_decide {V} (m : gmap market_index_key V) :
  bool_decide (map_Forall (fun k _ => key_ok k) m) = true -> forall k v, m !! k = Some v -> key_ok k.
Proof. intros Hm k v Hk. apply bool_decide_eq_true in Hm. exact (Hm k v Hk). Qed.

Lemma books_list_market_witness :
  book_keys_ok market_db /\
  let book := open_book 100 0 market_db in
  lists_market (db_bids market_db) 100 0 (flip entry_le) (ob_bids book) /\
  lists_market (db_shorts market_db) 100 0 (flip entry_le) (ob_shorts book) /\
  lists_market (db_asks market_db) 100 0 entry_le (ob_asks book).
Proof.
  assert (Hk : book_keys_ok market_db).
  { split; [|split]; apply keys_decide; vm_compute; reflexivity. }
  split; [exact Hk|]. apply books_list_market; [lia|exact Hk].
Defined.

(** The same market at a block of the older engine. *)
Lemma execute_v7_agrees_witness :
  plain_market market_db 100 0 /\
  execute_v7 market_db 100 0 sample_now market_prior = execute market_db 100 0 sample_now market_prior.
Proof.
  assert (Hp : plain_market market_db 100 0).
  { split; [reflexivity| |].
    - intros k [r Hr]. change (db_collateral market_db) with (∅ : gmap market_index_key collateral_record) in Hr.
      by rewrite lookup_empty in Hr.
    - intros x Hx. change (db_collateral_expiration market_db) with (∅ : gset (Z * Z * market_index_key)) in Hx.
      set_solver. }
  split; [exact Hp|].
  apply (execute_v7_agrees market_db 100 0 sample_now market_prior Hp); [|by intros r [= <-]].
  by intros r [= <-].
Defined.
