(* ===== verification/LevelMap.v ===== *)
(** * LevelMap: the key-value stores (db/level_map.hpp, db/level_pod_map.hpp,
      db/cached_level_map.hpp)

    [level_map] is a store on disk behind LevelDB; [cached_level_map] keeps all of
    one in memory and writes changes through, or collects them and writes them in
    one batch when it is flushed.  LevelDB itself and the packing of keys and
    values are not part of the repository: [LevelDB] is what the code relies on.
    level_pod_map differs from level_map in the packing of keys only.

    An operation returns the state it leaves behind, whether or not it throws. *)
From S2P Require Import Prelude.
From stdpp Require Import sorting.
#[local] Open Scope Z_scope.

(** ** LevelDB *)

Inductive batch_op (K V : Type) :=
| batch_put (k : K) (v : V)
| batch_delete (k : K).
Arguments batch_put {K V} k v.
Arguments batch_delete {K V} k.

Section batch.
Context {K V : Type} `{Countable K}.

Definition apply_op (m : gmap K V) (o : batch_op K V) : gmap K V :=
  match o with
  | batch_put k v => <[k := v]> m
  | batch_delete k => delete k m
  end.
Definition apply_ops (l : list (batch_op K V)) (m : gmap K V) : gmap K V := foldl apply_op m l.
End batch.

(** A database that is open: [ldb_entries] is what an iterator runs through, in the
    order of the comparator.  A write that fails has written nothing, a batch
    included. *)
Class LevelDB (K V : Type) `{Countable K} (key_lt : relation K) (S : Type) := {
  ldb_entries : S -> list (K * V);
  ldb_get : K -> S -> result (option V);
  ldb_put : K -> V -> S -> S * result unit;
  ldb_delete : K -> S -> S * result unit;
  ldb_write : list (batch_op K V) -> S -> S * result unit;
  ldb_sorted s : StronglySorted key_lt (ldb_entries s).*1;
  ldb_get_Ok k s o : ldb_get k s = Ok o -> o = list_to_map (M := gmap K V) (ldb_entries s) !! k;
  ldb_put_contents k v s s' r : ldb_put k v s = (s', r) ->
    list_to_map (M := gmap K V) (ldb_entries s')
    = if is_ok r then <[k := v]> (list_to_map (ldb_entries s)) else list_to_map (ldb_entries s);
  ldb_delete_contents k s s' r : ldb_delete k s = (s', r) ->
    list_to_map (M := gmap K V) (ldb_entries s')
    = if is_ok r then delete k (list_to_map (ldb_entries s)) else list_to_map (ldb_entries s);
  ldb_write_contents l s s' r : ldb_write l s = (s', r) ->
    list_to_map (M := gmap K V) (ldb_entries s')
    = if is_ok r then apply_ops l (list_to_map (ldb_entries s)) else list_to_map (ldb_entries s)
}.

Section level_map.
Context {K V : Type} `{Countable K} {key_lt : relation K} `{!RelDecision key_lt}.
Context {S : Type} `{DB : !LevelDB K V key_lt S}.

(** ** level_map *)

(** [_db]: the database, if it is open. *)
Definition level_map : Type := option S.

Definition is_open (m : level_map) : bool := bool_decide (is_Some m).

(** What the store holds. *)
Definition contents (s : S) : gmap K V := list_to_map (ldb_entries s).

(** [Iterator::Seek]: the entries from the first key that is not below [k]. *)
Fixpoint seek (k : K) (l : list (K * V)) : list (K * V) :=
  match l with
  | [] => []
  | (k', v) :: l' => if decide (key_lt k' k) then seek k l' else l
  end.

(** [level_map::begin], [lower_bound] and [find]: the entries the iterator has
    before it; [find] returns an iterator that is not valid for another key. *)
Definition lm_begin (m : level_map) : result (list (K * V)) :=
  s ← require m assert_exception; Ok (ldb_entries s).
Definition lm_lower_bound (k : K) (m : level_map) : result (list (K * V)) :=
  s ← require m assert_exception; Ok (seek k (ldb_entries s)).
Definition lm_find (k : K) (m : level_map) : result (list (K * V)) :=
  itr ← lm_lower_bound k m;
  Ok (match itr with
      | (k', _) :: _ => if decide (k' = k) then itr else []
      | [] => []
      end).

(** [level_map::fetch_optional] *)
Definition lm_fetch_optional (k : K) (m : level_map) : result (option V) :=
  itr ← lm_find k m;
  Ok (match itr with (_, v) :: _ => Some v | [] => None end).

(** [level_map::fetch] *)
Definition lm_fetch (k : K) (m : level_map) : result V :=
  s ← require m assert_exception;
  value ← ldb_get k s;
  require value key_not_found_exception.

(** [level_map::last] *)
Definition lm_last (m : level_map) : result (option (K * V)) :=
  s ← require m assert_exception; Ok (list.last (ldb_entries s)).

(** [level_map::size] *)
Definition lm_size (m : level_map) : result Z :=
  itr ← lm_begin m; Ok (Z.of_nat (length itr)).

(** One call of LevelDB on an open database. *)
Definition on_db (f : S -> S * result unit) (m : level_map) : level_map * result unit :=
  match m with
  | None => (m, Err assert_exception)
  | Some s => let '(s, r) := f s in (Some s, r)
  end.

(** [level_map::store], [remove], [close] *)
Definition lm_store (k : K) (v : V) : level_map -> level_map * result unit := on_db (ldb_put k v).
Definition lm_remove (k : K) : level_map -> level_map * result unit := on_db (ldb_delete k).
Definition lm_close (m : level_map) : level_map := None.

(** [write_batch::commit] *)
Definition lm_commit (batch : list (batch_op K V)) : level_map -> level_map * result unit :=
  on_db (ldb_write batch).

(** [write_batch::~write_batch]: commits again what was not committed, and
    swallows the exception. *)
Definition lm_commit_at_exit (batch : list (batch_op K V)) (m : level_map) : level_map :=
  (lm_commit batch m).1.

(** ** cached_level_map *)

Record cached_level_map := mk_cached {
  cm_db : level_map;
  cm_cache : gmap K V;
  cm_dirty_store : gset K;
  cm_dirty_remove : gset K;
  cm_write_through : bool
}.

Definition set_cm_db (m : level_map) (c : cached_level_map) : cached_level_map :=
  mk_cached m (cm_cache c) (cm_dirty_store c) (cm_dirty_remove c) (cm_write_through c).
Definition set_cm_dirty (store remove : gset K) (c : cached_level_map) : cached_level_map :=
  mk_cached (cm_db c) (cm_cache c) store remove (cm_write_through c).
Definition set_cm_cache (cache : gmap K V) (c : cached_level_map) : cached_level_map :=
  mk_cached (cm_db c) cache (cm_dirty_store c) (cm_dirty_remove c) (cm_write_through c).

(** [cached_level_map::open] once LevelDB has opened the directory: an entry that
    is in the cache already is not replaced. *)
Definition cm_open (opened : S) (write_through : bool) (c : cached_level_map) : cached_level_map :=
  mk_cached (Some opened) (cm_cache c ∪ contents opened) (cm_dirty_store c) (cm_dirty_remove c)
    write_through.

(** The batch [flush] makes of the dirty keys; [_cache.at( key )] throws for a key
    that is not there, with the operations before it in the batch. *)
Fixpoint dirty_stores (cache : gmap K V) (keys : list K) : list (batch_op K V) * result unit :=
  match keys with
  | [] => ([], Ok tt)
  | k :: keys =>
      match cache !! k with
      | Some v => let '(batch, r) := dirty_stores cache keys in (batch_put k v :: batch, r)
      | None => ([], Err fc_exception)
      end
  end.

(** [cached_level_map::flush] *)
Definition cm_flush (c : cached_level_map) : cached_level_map * result unit :=
  let '(stores, r) := dirty_stores (cm_cache c) (elements (cm_dirty_store c)) in
  match r with
  | Err e => (set_cm_db (lm_commit_at_exit stores (cm_db c)) c, Err e)
  | Ok _ =>
      let batch := stores ++ (batch_delete <$> elements (cm_dirty_remove c)) in
      match lm_commit batch (cm_db c) with
      | (m, Ok _) => (set_cm_dirty ∅ ∅ (set_cm_db (lm_commit_at_exit [] m) c), Ok tt)
      | (m, Err e) => (set_cm_db (lm_commit_at_exit batch m) c, Err e)
      end
  end.

(** [cached_level_map::close] *)
Definition cm_close (c : cached_level_map) : cached_level_map * result unit :=
  match cm_flush c with
  | (c, Ok _) => (mk_cached (lm_close (cm_db c)) ∅ ∅ ∅ (cm_write_through c), Ok tt)
  | (c, Err e) => (c, Err e)
  end.

(** [cached_level_map::set_write_through] *)
Definition cm_set_write_through (write_through : bool) (c : cached_level_map)
    : cached_level_map * result unit :=
  if Bool.eqb write_through (cm_write_through c) then (c, Ok tt)
  else
    match (if write_through then cm_flush c else (c, Ok tt)) with
    | (c, Ok _) => (mk_cached (cm_db c) (cm_cache c) (cm_dirty_store c) (cm_dirty_remove c) write_through, Ok tt)
    | (c, Err e) => (c, Err e)
    end.

(** [_cache] in the order of its keys, as [begin] and [lower_bound] run through it. *)
Definition entry_le (a b : K * V) : Prop := ~ key_lt b.1 a.1.
#[local] Instance level_entry_le_dec : RelDecision entry_le.
Proof using All. intros a b. unfold entry_le. apply _. Defined.
Definition cm_begin (c : cached_level_map) : list (K * V) := merge_sort entry_le (map_to_list (cm_cache c)).
Definition cm_lower_bound (k : K) (c : cached_level_map) : list (K * V) := seek k (cm_begin c).

(** [cached_level_map::last] *)
Definition cm_last (c : cached_level_map) : option (K * V) := list.last (cm_begin c).

(** [cached_level_map::fetch_optional], [fetch], [size] *)
Definition cm_fetch_optional (k : K) (c : cached_level_map) : option V := cm_cache c !! k.
Definition cm_fetch (k : K) (c : cached_level_map) : result V :=
  require (cm_cache c !! k) key_not_found_exception.
Definition cm_size (c : cached_level_map) : Z := Z.of_nat (size (cm_cache c)).

(** [cached_level_map::store] *)
Definition cm_store (k : K) (v : V) (c : cached_level_map) : cached_level_map * result unit :=
  let c := set_cm_cache (<[k := v]> (cm_cache c)) c in
  if cm_write_through c
  then let '(m, r) := lm_store k v (cm_db c) in (set_cm_db m c, r)
  else (set_cm_dirty ({[ k ]} ∪ cm_dirty_store c) (cm_dirty_remove c ∖ {[ k ]}) c, Ok tt).

(** [cached_level_map::remove] *)
Definition cm_remove (k : K) (c : cached_level_map) : cached_level_map * result unit :=
  let c := set_cm_cache (delete k (cm_cache c)) c in
  if cm_write_through c
  then let '(m, r) := lm_remove k (cm_db c) in (set_cm_db m c, r)
  else (set_cm_dirty (cm_dirty_store c ∖ {[ k ]}) ({[ k ]} ∪ cm_dirty_remove c) c, Ok tt).
End level_map.
Arguments level_map : clear implicits.
Arguments cached_level_map K V {_ _} S : rename.
