(* ===== verification/LevelFacts.v ===== *)
(** * LevelFacts: the cached store is a map in memory and a map on disk

    [coherent] relates the cache to the disk through the dirty keys.  Every
    sequence of operations on a [cached_level_map] acts on the pair of maps as
    [store_step] says: reads see the memory, and the disk is the memory as of the
    last flush. *)
From S2P Require Import Prelude LevelMap.
From stdpp Require Import sorting.
#[local] Open Scope Z_scope.

Section facts.
Context {K V : Type} `{Countable K} {key_lt : relation K} `{!RelDecision key_lt}.
Context {S : Type} `{DB : !LevelDB K V key_lt S}.

(** ** Lookups by an iterator *)

Lemma find_in_sorted `{!Irreflexive key_lt} k (l : list (K * V)) :
  StronglySorted key_lt l.*1 ->
  match seek (key_lt := key_lt) k l with
  | (k', v) :: _ => if decide (k' = k) then Some v else None
  | [] => None
  end = list_to_map (M := gmap K V) l !! k.
Proof.
  induction l as [|[k0 v0] l IH]; cbn; [done|]. intros Hs. apply StronglySorted_inv in Hs as [Hs Hall].
  case_decide as Hlt.
  - rewrite lookup_insert_ne; [by apply IH|]. intros ->. by apply irreflexivity in Hlt.
  - case_decide as E; [subst; by rewrite lookup_insert_eq|]. rewrite lookup_insert_ne by done.
    symmetry. apply not_elem_of_list_to_map_1. intros Hin. rewrite Forall_forall in Hall. by apply Hlt, Hall.
Qed.

(** [fetch_optional], which positions an iterator at the first key that is not
    below the one it looks for, returns what the store holds for the key, and so
    does [fetch] if it returns. *)
Theorem level_map_fetch_spec `{!Irreflexive key_lt} k s :
  lm_fetch_optional k (Some s) = Ok (contents s !! k) /\
  (forall v, lm_fetch k (Some s) = Ok v -> contents s !! k = Some v).
Proof.
  split.
  - unfold lm_fetch_optional, lm_find, lm_lower_bound. cbn. unfold contents.
    rewrite <- find_in_sorted by apply ldb_sorted.
    destruct (seek k (ldb_entries s)) as [|[k' v] l]; [done|]. by case_decide.
  - intros v. unfold lm_fetch. cbn. intros (o & Ho%ldb_get_Ok & Hv)%bind_Ok.
    apply require_Ok in Hv. unfold contents. congruence.
Qed.

(** ** The cache and the disk *)

Record coherent (c : cached_level_map K V S) : Prop := mk_coherent {
  co_open : is_Some (cm_db c);
  co_store k : k ∈ cm_dirty_store c -> is_Some (cm_cache c !! k);
  co_remove k : k ∈ cm_dirty_remove c -> cm_cache c !! k = None;
  co_clean s k : cm_db c = Some s -> k ∉ cm_dirty_store c -> k ∉ cm_dirty_remove c ->
    cm_cache c !! k = contents s !! k;
  co_through : cm_write_through c = true -> cm_dirty_store c = ∅ /\ cm_dirty_remove c = ∅
}.

Lemma dirty_stores_spec (cache : gmap K V) keys :
  (forall k, k ∈ keys -> is_Some (cache !! k)) ->
  exists ops, dirty_stores cache keys = (ops, Ok tt) /\
    forall m k, apply_ops ops m !! k = if decide (k ∈ keys) then cache !! k else m !! k.
Proof.
  induction keys as [|k0 keys IH]; intros Hk.
  - exists []. split; [done|]. intros m k. by rewrite decide_False by apply not_elem_of_nil.
  - destruct IH as (ops & E & Hops); [set_solver|]. destruct (Hk k0) as [v0 Hv]; [set_solver|].
    exists (batch_put k0 v0 :: ops). cbn. rewrite Hv, E. split; [done|]. intros m k.
    change (apply_ops ops (<[k0 := v0]> m) !! k = if decide (k ∈ k0 :: keys) then cache !! k else m !! k).
    rewrite Hops. destruct (decide (k = k0)) as [->|Hne].
    + rewrite lookup_insert_eq, (decide_True (P := k0 ∈ k0 :: keys)) by set_solver.
      by case_decide; [|symmetry].
    + rewrite lookup_insert_ne by done. repeat case_decide; set_solver.
Qed.

Lemma apply_deletes keys (m : gmap K V) k :
  apply_ops (batch_delete <$> keys) m !! k = if decide (k ∈ keys) then None else m !! k.
Proof.
  revert m. induction keys as [|k0 keys IH]; intros m; cbn.
  - by rewrite decide_False by apply not_elem_of_nil.
  - change (apply_ops (batch_delete <$> keys) (delete k0 m) !! k
            = if decide (k ∈ k0 :: keys) then None else m !! k).
    rewrite IH. destruct (decide (k = k0)) as [->|Hne].
    + rewrite lookup_delete_eq, (decide_True (P := k0 ∈ k0 :: keys)) by set_solver. by case_decide.
    + rewrite lookup_delete_ne by done. repeat case_decide; set_solver.
Qed.

(** The contents of the disk. *)
Definition disk (c : cached_level_map K V S) : gmap K V := from_option contents ∅ (cm_db c).

Lemma lm_commit_contents l s m r :
  lm_commit l (Some s) = (m, r) ->
  exists s', m = Some s' /\ contents s' = if is_ok r then apply_ops l (contents s) else contents s.
Proof.
  unfold lm_commit, on_db. destruct (ldb_write l s) as [s' r'] eqn:E. intros [= <- <-].
  exists s'. split; [done|]. by apply ldb_write_contents.
Qed.

Lemma flush_spec c c' :
  coherent c -> cm_flush c = (c', Ok tt) ->
  coherent c' /\ cm_cache c' = cm_cache c /\ disk c' = cm_cache c /\
  cm_write_through c' = cm_write_through c /\ cm_dirty_store c' = ∅ /\ cm_dirty_remove c' = ∅.
Proof.
  intros Hc. destruct (co_open _ Hc) as [s Hs]. unfold cm_flush.
  destruct (dirty_stores_spec (cm_cache c) (elements (cm_dirty_store c))) as (ops & -> & Hops).
  { intros k Hk%elem_of_elements. by apply (co_store _ Hc). }
  rewrite Hs. destruct (lm_commit (K := K) _ (Some s)) as [m [[]|e]] eqn:E; [|done].
  apply lm_commit_contents in E as (s1 & -> & E1). cbn [is_ok] in E1. intros [= <-].
  unfold lm_commit_at_exit. destruct (lm_commit (K := K) [] (Some s1)) as [m r] eqn:E2.
  apply lm_commit_contents in E2 as (s2 & -> & E2).
  assert (Hd : contents s2 = cm_cache c).
  { transitivity (contents s1); [by destruct (is_ok r)|]. rewrite E1. apply map_eq. intros k.
    unfold apply_ops. rewrite foldl_app. fold (apply_ops ops (contents s)).
    fold (apply_ops (batch_delete <$> elements (cm_dirty_remove c)) (apply_ops ops (contents s))).
    rewrite apply_deletes, Hops. repeat case_decide; rewrite ?elem_of_elements in *;
      [by symmetry; apply (co_remove _ Hc)|done|by symmetry; apply (co_clean _ Hc)]. }
  split_and!; try done. split; cbn; try done; [set_solver..|].
  intros s0 k [= <-] _ _. by rewrite Hd.
Qed.

(** ** The operations *)

Inductive store_op :=
| op_store (k : K) (v : V)
| op_remove (k : K)
| op_flush
| op_set_write_through (write_through : bool).

Definition run_op (o : store_op) (c : cached_level_map K V S) : cached_level_map K V S * result unit :=
  match o with
  | op_store k v => cm_store k v c
  | op_remove k => cm_remove k c
  | op_flush => cm_flush c
  | op_set_write_through w => cm_set_write_through w c
  end.

Fixpoint run_ops (l : list store_op) (c : cached_level_map K V S) : cached_level_map K V S * result unit :=
  match l with
  | [] => (c, Ok tt)
  | o :: l => match run_op o c with
              | (c, Ok _) => run_ops l c
              | (c, Err e) => (c, Err e)
              end
  end.

(** What the store promises: a map in memory, a map on disk, and whether the disk
    follows at once. *)
Record promised := mk_promised {
  pr_memory : gmap K V;
  pr_disk : gmap K V;
  pr_through : bool
}.

Definition store_step (p : promised) (o : store_op) : promised :=
  let write (f : gmap K V -> gmap K V) :=
    mk_promised (f (pr_memory p)) (if pr_through p then f (pr_disk p) else pr_disk p) (pr_through p) in
  match o with
  | op_store k v => write (<[k := v]>)
  | op_remove k => write (delete k)
  | op_flush => mk_promised (pr_memory p) (pr_memory p) (pr_through p)
  | op_set_write_through w => mk_promised (pr_memory p) (if w then pr_memory p else pr_disk p) w
  end.

Definition abstract (c : cached_level_map K V S) : promised :=
  mk_promised (cm_cache c) (disk c) (cm_write_through c).

Lemma coherent_through c : coherent c -> cm_write_through c = true -> disk c = cm_cache c.
Proof.
  intros Hc Hw. destruct (co_open _ Hc) as [s Hs], (co_through _ Hc Hw) as [Hd Hr].
  unfold disk. rewrite Hs. cbn. apply map_eq. intros k. symmetry. apply (co_clean _ Hc); set_solver.
Qed.

(** A write that goes through keeps disk and memory equal. *)
Lemma write_through_step c c' (f : gmap K V -> gmap K V) g :
  coherent c -> cm_write_through c = true ->
  (forall s s', g s = (s', Ok tt) -> contents s' = f (contents s)) ->
  (let '(m, r) := on_db g (cm_db c) in (set_cm_db m (set_cm_cache (f (cm_cache c)) c), r)) = (c', Ok tt) ->
  coherent c' /\ abstract c' = mk_promised (f (cm_cache c)) (f (disk c)) true.
Proof.
  intros Hc Hw Hg Hrun. pose proof (coherent_through _ Hc Hw) as Hdisk.
  destruct (co_open _ Hc) as [s Hs], (co_through _ Hc Hw) as [Hd Hr].
  rewrite Hs in Hrun. cbn in Hrun. destruct (g s) as [s' r] eqn:E. injection Hrun as <- ->.
  apply Hg in E. unfold disk in Hdisk. rewrite Hs in Hdisk. cbn in Hdisk.
  split; [|unfold abstract, disk; cbn; rewrite Hs; cbn; by rewrite E, Hw].
  split; cbn; rewrite ?Hd, ?Hr; try done; [set_solver..|].
  intros s0 k [= <-] _ _. by rewrite E, Hdisk.
Qed.

Lemma store_op_step k v c c' :
  coherent c -> cm_store k v c = (c', Ok tt) -> coherent c' /\ abstract c' = store_step (abstract c) (op_store k v).
Proof.
  intros Hc. unfold cm_store. cbv zeta. cbn [cm_write_through set_cm_cache].
  destruct (cm_write_through c) eqn:Hw.
  - intros Hrun. cbn [store_step abstract pr_through pr_memory pr_disk]. rewrite Hw.
    eapply write_through_step; [done..| |exact Hrun]. intros s s' E%ldb_put_contents. exact E.
  - intros [= <-]. split; [|unfold abstract, disk; cbn; by rewrite Hw].
    split; cbn; [apply Hc| | | |by rewrite Hw].
    + intros k' Hk. destruct (decide (k' = k)) as [->|]; [rewrite lookup_insert_eq; eauto|].
      rewrite lookup_insert_ne by done. apply (co_store _ Hc). set_solver.
    + intros k' Hk. rewrite lookup_insert_ne by set_solver. apply (co_remove _ Hc). set_solver.
    + intros s k' Hs Hk1 Hk2. rewrite lookup_insert_ne by set_solver. apply (co_clean _ Hc); set_solver.
Qed.

Lemma remove_op_step k c c' :
  coherent c -> cm_remove k c = (c', Ok tt) -> coherent c' /\ abstract c' = store_step (abstract c) (op_remove k).
Proof.
  intros Hc. unfold cm_remove. cbv zeta. cbn [cm_write_through set_cm_cache].
  destruct (cm_write_through c) eqn:Hw.
  - intros Hrun. cbn [store_step abstract pr_through pr_memory pr_disk]. rewrite Hw.
    eapply write_through_step; [done..| |exact Hrun]. intros s s' E%ldb_delete_contents. exact E.
  - intros [= <-]. split; [|unfold abstract, disk; cbn; by rewrite Hw].
    split; cbn; [apply Hc| | | |by rewrite Hw].
    + intros k' Hk. rewrite lookup_delete_ne by set_solver. apply (co_store _ Hc). set_solver.
    + intros k' Hk. destruct (decide (k' = k)) as [->|]; [by rewrite lookup_delete_eq|].
      rewrite lookup_delete_ne by done. apply (co_remove _ Hc). set_solver.
    + intros s k' Hs Hk1 Hk2. rewrite lookup_delete_ne by set_solver. apply (co_clean _ Hc); set_solver.
Qed.

Lemma flush_op_step c c' :
  coherent c -> cm_flush c = (c', Ok tt) -> coherent c' /\ abstract c' = store_step (abstract c) op_flush.
Proof.
  intros Hc (Hc' & E1 & E2 & E3 & _)%flush_spec; [|done]. split; [done|].
  unfold abstract. cbn. by rewrite E1, E2, E3.
Qed.

Lemma write_through_op_step w c c' :
  coherent c -> cm_set_write_through w c = (c', Ok tt) ->
  coherent c' /\ abstract c' = store_step (abstract c) (op_set_write_through w).
Proof.
  intros Hc. unfold cm_set_write_through. destruct (Bool.eqb_spec w (cm_write_through c)) as [->|Hne].
  - intros [= <-]. split; [done|]. unfold abstract. cbn.
    destruct (cm_write_through c) eqn:Hw; [by rewrite coherent_through|done].
  - destruct w.
    + destruct (cm_flush c) as [c1 [[]|e]] eqn:Hf; [|done]. intros [= <-].
      apply flush_spec in Hf as (Hc1 & E1 & E2 & _ & E3 & E4); [|done].
      split; [|unfold abstract, disk in *; cbn; by rewrite E2, E1].
      destruct Hc1. by split.
    + intros [= <-]. split; [|done]. destruct Hc. by split.
Qed.

(** C16: However stores, removals, flushes and changes of mode are mixed, a cached
    store that returns from all of them is a map in memory and a map on disk: reads
    see every change, the disk sees it at once when writing through and else at the
    next flush, and the changes of a batch reach the disk together. *)
Theorem cached_map_refines l c c' :
  coherent c -> run_ops l c = (c', Ok tt) ->
  coherent c' /\ abstract c' = foldl store_step (abstract c) l /\
  (forall k, cm_fetch_optional k c' = pr_memory (foldl store_step (abstract c) l) !! k).
Proof.
  intros Hc Hrun. enough (coherent c' /\ abstract c' = foldl store_step (abstract c) l) as [Hc' E].
  { split_and!; [done..|]. intros k. by rewrite <- E. }
  revert c Hc Hrun. induction l as [|o l IH]; intros c Hc; cbn; [by intros [= <-]|].
  destruct (run_op o c) as [c1 [[]|e]] eqn:Ho; [|done]. intros Hrun.
  assert (coherent c1 /\ abstract c1 = store_step (abstract c) o) as [Hc1 <-].
  { destruct o; [by apply store_op_step|by apply remove_op_step|by apply flush_op_step|
      by apply write_through_op_step]. }
  by apply IH.
Qed.

(** Closing a cached store and opening its files again gives the same records. *)
Theorem close_reopen_roundtrip c c' w :
  coherent c -> cm_close c = (c', Ok tt) ->
  exists s, disk (set_cm_db (Some s) c') = cm_cache c /\ coherent (cm_open s w c') /\
    cm_cache (cm_open s w c') = cm_cache c /\
    exists c1, cm_flush c = (c1, Ok tt) /\ cm_db c1 = Some s.
Proof.
  intros Hc. unfold cm_close. destruct (cm_flush c) as [c1 [[]|e]] eqn:Hf; [|done]. intros [= <-].
  pose proof (flush_spec _ _ Hc Hf) as (Hc1 & _ & Hdisk & _).
  destruct (co_open _ Hc1) as [s Hs]. unfold disk in Hdisk. rewrite Hs in Hdisk. cbn in Hdisk.
  exists s. unfold cm_open. cbn. rewrite (left_id_L ∅ (∪)). split_and!; [by unfold disk|..].
  - split; cbn; try done; [set_solver..|]. by intros s0 k [= <-].
  - done.
  - eauto.
Qed.

(** A store that writes through and whose write fails keeps the new value in
    memory and nowhere else: reads return it, the disk does not have it, and no
    later flush writes it. *)
Theorem failed_store_diverges k v c c1 e :
  coherent c -> cm_write_through c = true -> cm_store k v c = (c1, Err e) ->
  cm_fetch_optional k c1 = Some v /\ disk c1 = cm_cache c /\
  forall c2, cm_flush c1 = (c2, Ok tt) -> disk c2 = cm_cache c.
Proof.
  intros Hc Hw. pose proof (coherent_through _ Hc Hw) as Hdisk.
  destruct (co_open _ Hc) as [s Hs], (co_through _ Hc Hw) as [Hd Hr].
  unfold cm_store. cbv zeta. cbn [cm_write_through set_cm_cache cm_db]. rewrite Hw, Hs.
  unfold lm_store, on_db. destruct (ldb_put k v s) as [s' r] eqn:E. intros [= <- ->].
  apply ldb_put_contents in E. cbn [is_ok] in E.
  unfold disk in Hdisk. rewrite Hs in Hdisk. cbn in Hdisk.
  assert (Es : contents s' = cm_cache c) by (rewrite <- Hdisk; exact E).
  split_and!; [apply lookup_insert_eq|exact Es|]. intros c2.
  unfold cm_flush. cbn [cm_cache cm_dirty_store cm_dirty_remove cm_db set_cm_db set_cm_cache].
  rewrite Hd, Hr, !elements_empty. cbn [dirty_stores app fmap list_fmap].
  destruct (lm_commit (K := K) [] (Some s')) as [m [[]|e2]] eqn:E1; [|done].
  apply lm_commit_contents in E1 as (s1 & -> & E1). intros [= <-].
  unfold lm_commit_at_exit. destruct (lm_commit (K := K) [] (Some s1)) as [m r2] eqn:E2.
  apply lm_commit_contents in E2 as (s2 & -> & E2).
  unfold disk. cbn. rewrite <- Es. transitivity (contents s1); [by destruct (is_ok r2)|exact E1].
Qed.
End facts.

(** ** A concrete disk *)

(** A sorted table that refuses writes when it is full. *)
Module Table.
Record disk := mk_disk { rows : gmap Z Z; full : bool }.

Definition row_le (a b : Z * Z) : Prop := a.1 <= b.1.
#[export] Instance row_le_dec : RelDecision row_le.
Proof. intros a b. unfold row_le. apply _. Defined.
#[export] Instance row_le_trans : Transitive row_le.
Proof. intros a b c. unfold row_le. lia. Qed.
#[export] Instance row_le_total : Total row_le.
Proof. intros a b. unfold row_le. lia. Qed.

Definition entries (d : disk) : list (Z * Z) := merge_sort row_le (map_to_list (rows d)).
Definition write (f : gmap Z Z -> gmap Z Z) (d : disk) : disk * result unit :=
  if full d then (d, Err db_exception) else (mk_disk (f (rows d)) false, Ok tt).

Lemma entries_rows d : list_to_map (M := gmap Z Z) (entries d) = rows d.
Proof.
  rewrite <- (list_to_map_to_list (rows d)). apply list_to_map_proper.
  - unfold entries. rewrite merge_sort_Permutation. apply NoDup_fst_map_to_list.
  - apply merge_sort_Permutation.
Qed.

Lemma sorted_strict (l : list (Z * Z)) : StronglySorted row_le l -> NoDup l.*1 -> StronglySorted Z.lt l.*1.
Proof.
  induction 1 as [|a l Hs IH Ha]; cbn; intros Hn; [constructor|].
  apply NoDup_cons in Hn as [Hna Hn]. constructor; [by apply IH|].
  rewrite Forall_forall in Ha. apply Forall_forall. intros k ([k' v] & -> & Hin)%list_elem_of_fmap.
  specialize (Ha _ Hin). unfold row_le in Ha. cbn in *.
  assert (a.1 <> k'); [|lia]. intros E. apply Hna. rewrite E. apply list_elem_of_fmap. by exists (k', v).
Qed.

#[global] Program Instance table_db : LevelDB Z Z Z.lt disk := {|
  ldb_entries := entries;
  ldb_get k d := Ok (rows d !! k);
  ldb_put k v := write (<[k := v]>);
  ldb_delete k := write (delete k);
  ldb_write l := write (apply_ops l)
|}.
Next Obligation.
  intros d. apply sorted_strict; [apply StronglySorted_merge_sort; apply _|].
  unfold entries. rewrite merge_sort_Permutation. apply NoDup_fst_map_to_list.
Qed.
Next Obligation. intros k d o [= <-]. by rewrite entries_rows. Qed.
Next Obligation. intros k v d d' r. rewrite !entries_rows. unfold write. by destruct (full d); intros [= <- <-]. Qed.
Next Obligation. intros k d d' r. rewrite !entries_rows. unfold write. by destruct (full d); intros [= <- <-]. Qed.
Next Obligation. intros l d d' r. rewrite !entries_rows. unfold write. by destruct (full d); intros [= <- <-]. Qed.

Definition sample : cached_level_map Z Z disk := mk_cached (Some (mk_disk {[ 1 := 10 ]} false)) {[ 1 := 10 ]} ∅ ∅ false.

Lemma sample_coherent (w f : bool) :
  coherent (key_lt := Z.lt) (mk_cached (Some (mk_disk {[ 1 := 10 ]} f)) {[ 1 := 10 ]} ∅ ∅ w).
Proof.
  split; cbn; try done; [set_solver..|]. intros s k [= <-] _ _. unfold contents. cbn. by rewrite entries_rows.
Qed.
End Table.

Lemma level_map_fetch_spec_witness :
  lm_fetch_optional (key_lt := Z.lt) 1 (Some (Table.mk_disk {[ 1 := 10 ]} false)) = Ok (Some 10).
Proof.
  rewrite (proj1 (level_map_fetch_spec (key_lt := Z.lt) 1 (Table.mk_disk {[ 1 := 10 ]} false))).
  vm_compute. reflexivity.
Defined.

Lemma cached_map_refines_witness :
  exists c, run_ops (key_lt := Z.lt) [op_store 2 20; op_remove 1; op_flush; op_store 3 30] Table.sample
      = (c, Ok tt) /\
    disk (key_lt := Z.lt) c = {[ 2 := 20 ]} /\ cm_cache c = {[ 2 := 20; 3 := 30 ]}.
Proof.
  eexists. split; [vm_compute; reflexivity|].
  match goal with |- disk ?c = _ /\ _ =>
    destruct (cached_map_refines (key_lt := Z.lt) [op_store 2 20; op_remove 1; op_flush; op_store 3 30] Table.sample c
      (Table.sample_coherent false false) ltac:(vm_compute; reflexivity)) as (_ & Ha & _) end.
  split; vm_compute; reflexivity.
Defined.

Lemma close_reopen_roundtrip_witness :
  exists c s, cm_close (key_lt := Z.lt) (cm_store (key_lt := Z.lt) 2 20 Table.sample).1 = (c, Ok tt) /\
    cm_cache (cm_open s true c) = cm_cache (cm_store (key_lt := Z.lt) 2 20 Table.sample).1.
Proof.
  destruct (cm_close (key_lt := Z.lt) (cm_store (key_lt := Z.lt) 2 20 Table.sample).1) as [c [[]|e]] eqn:E;
    [|vm_compute in E; discriminate E].
  destruct (close_reopen_roundtrip (key_lt := Z.lt) (cm_store (key_lt := Z.lt) 2 20 Table.sample).1 c true)
    as (s & _ & _ & Hs & _); [|exact E|exists c, s; split; [reflexivity|exact Hs]].
  refine (proj1 (store_op_step (key_lt := Z.lt) 2 20 Table.sample _ (Table.sample_coherent false false) _)).
  vm_compute. reflexivity.
Defined.

Lemma failed_store_diverges_witness :
  exists c1, cm_store (key_lt := Z.lt) 2 20
      (mk_cached (Some (Table.mk_disk {[ 1 := 10 ]} true)) {[ 1 := 10 ]} ∅ ∅ true) = (c1, Err db_exception) /\
    cm_fetch_optional 2 c1 = Some 20 /\ disk (key_lt := Z.lt) c1 = {[ 1 := 10 ]}.
Proof.
  eexists. split; [vm_compute; reflexivity|].
  match goal with |- cm_fetch_optional _ ?c = _ /\ _ =>
    destruct (failed_store_diverges (key_lt := Z.lt) 2 20
      (mk_cached (Some (Table.mk_disk {[ 1 := 10 ]} true)) {[ 1 := 10 ]} ∅ ∅ true) c db_exception
      (Table.sample_coherent true true) eq_refl ltac:(vm_compute; reflexivity)) as (Hf & Hd & _) end.
  split; [exact Hf|exact Hd].
Defined.
