(* ===== verification/Framing.v ===== *)
(** * Framing: messages over an encrypted stream (net/message.hpp,
      net/stcp_socket.cpp, net/message_oriented_connection.cpp)

    A message is a header of 8 bytes and its data, padded to a multiple of 16
    bytes and encrypted in blocks of 16; TCP delivers the stream in pieces of any
    size.  A byte is a Z from 0 to 255.  fc's ciphers and keys are the class
    [ChannelCrypto]; a TCP socket is the list of the pieces that will arrive. *)
From S2P Require Import Prelude.

Definition byte_ok (b : Z) : Prop := 0 <= b < 256.

(** ** message.hpp *)

Definition MAX_MESSAGE_SIZE : Z := 512 * 1024.
Definition message_header_size : nat := 8.

Record message := mk_message {
  msg_size : Z;
  msg_type : Z;
  msg_data : list Z
}.

(** A uint32_t in memory, least significant byte first. *)
Definition le32 (z : Z) : list Z :=
  [z mod 256; (z / 2^8) mod 256; (z / 2^16) mod 256; (z / 2^24) mod 256].
Definition le32_value (l : list Z) : Z := foldr (fun b acc => b + 256 * acc) 0 l.

(** The header as it is copied from memory. *)
Definition header_bytes (m : message) : list Z := le32 (msg_size m) ++ le32 (msg_type m).

(** ** The cipher and the key exchange *)

(** Whole blocks of 16 bytes. *)
Definition aligned (l : list Z) : Prop := (length l `mod` 16)%nat = 0%nat.

Class ChannelCrypto := {
  aes_encoder : Type;
  aes_decoder : Type;
  aes_encoder_init : Z -> aes_encoder;
  aes_decoder_init : Z -> aes_decoder;
  aes_encode : aes_encoder -> list Z -> aes_encoder * list Z;
  aes_decode : aes_decoder -> list Z -> aes_decoder * list Z;
  public_key_of : Z -> list Z;
  get_shared_secret : Z -> list Z -> result Z;

  aes_encode_length e l : aligned l -> length (aes_encode e l).2 = length l;
  aes_decode_length d l : aligned l -> length (aes_decode d l).2 = length l;
  aes_encode_app e l1 l2 : aligned l1 ->
    aes_encode e (l1 ++ l2)
    = ((aes_encode (aes_encode e l1).1 l2).1, (aes_encode e l1).2 ++ (aes_encode (aes_encode e l1).1 l2).2);
  aes_decode_app d l1 l2 : aligned l1 ->
    aes_decode d (l1 ++ l2)
    = ((aes_decode (aes_decode d l1).1 l2).1, (aes_decode d l1).2 ++ (aes_decode (aes_decode d l1).1 l2).2);
  public_key_length k : length (public_key_of k) = 33%nat;
  shared_secret_agree a b : exists secret,
    get_shared_secret a (public_key_of b) = Ok secret /\ get_shared_secret b (public_key_of a) = Ok secret
}.

(** ** TCP *)

(** What will arrive, in the pieces it will arrive in. *)
Definition tcp_stream : Type := list (list Z).

(** [tcp_socket::readsome]: what has arrived, at least one byte and at most [len]. *)
Fixpoint tcp_readsome (len : nat) (s : tcp_stream) : result (list Z * tcp_stream) :=
  match s with
  | [] => Err eof_exception
  | [] :: s => tcp_readsome len s
  | piece :: s =>
      Ok (take len piece, if (length piece <=? len)%nat then s else drop len piece :: s)
  end.

(** [tcp_socket::read]: exactly [len] bytes. *)
Fixpoint tcp_read (len : nat) (s : tcp_stream) : result (list Z * tcp_stream) :=
  match s with
  | [] => if (len =? 0)%nat then Ok ([], []) else Err eof_exception
  | piece :: s =>
      if (length piece <=? len)%nat
      then '(l, s) ← tcp_read (len - length piece) s; Ok (piece ++ l, s)
      else Ok (take len piece, drop len piece :: s)
  end.

Section stcp.
Context `{ChannelCrypto}.

(** ** stcp_socket.cpp *)

Record stcp_socket := mk_stcp {
  st_send_aes : aes_encoder;
  st_recv_aes : aes_decoder;
  st_incoming : tcp_stream;
  st_outgoing : list Z
}.

Definition set_receive (d : aes_decoder) (s : tcp_stream) (k : stcp_socket) : stcp_socket :=
  mk_stcp (st_send_aes k) d s (st_outgoing k).
Definition set_send (e : aes_encoder) (out : list Z) (k : stcp_socket) : stcp_socket :=
  mk_stcp e (st_recv_aes k) (st_incoming k) out.

(** [stcp_socket::do_key_exchange] with the private key that was generated. *)
Definition do_key_exchange (priv_key : Z) (incoming : tcp_stream) : result (list Z * stcp_socket) :=
  let serialized_key := public_key_of priv_key in
  '(rpub, incoming) ← tcp_read 33 incoming;
  shared_secret ← get_shared_secret priv_key rpub;
  Ok (serialized_key,
      mk_stcp (aes_encoder_init shared_secret) (aes_decoder_init shared_secret) incoming []).

Definition read_buffer_length : nat := 4096.
Definition write_buffer_length : nat := 4096.

(** [stcp_socket::readsome] *)
Definition stcp_readsome (len : nat) (k : stcp_socket) : result (list Z * stcp_socket) :=
  _ ← throw_if (negb ((0 <? len) && (len `mod` 16 =? 0))%nat) assertion_abort;
  let len := Nat.min read_buffer_length len in
  '(l, incoming) ← tcp_readsome len (st_incoming k);
  let s := length l in
  '(l, incoming) ←
    (if (s `mod` 16 =? 0)%nat then Ok (l, incoming)
     else '(rest, incoming) ← tcp_read (16 - s `mod` 16) incoming; Ok (l ++ rest, incoming));
  let '(d, plain) := aes_decode (st_recv_aes k) l in
  Ok (plain, set_receive d incoming k).

(** [fc::istream::read] on top of it; every turn returns at least 16 bytes. *)
Fixpoint stcp_read_loop (fuel len : nat) (k : stcp_socket) : result (list Z * stcp_socket) :=
  match fuel with
  | O => Ok ([], k)
  | S fuel =>
      if (len =? 0)%nat then Ok ([], k)
      else
        ('(l, k) ← stcp_readsome len k;
         '(rest, k) ← stcp_read_loop fuel (len - length l) k;
         Ok (l ++ rest, k))
  end.
Definition stcp_read (len : nat) : stcp_socket -> result (list Z * stcp_socket) := stcp_read_loop len len.

(** [stcp_socket::writesome]: the number of bytes written. *)
Definition stcp_writesome (buffer : list Z) (k : stcp_socket) : result (nat * stcp_socket) :=
  let len := length buffer in
  _ ← throw_if (negb ((0 <? len) && (len `mod` 16 =? 0))%nat) assertion_abort;
  let len := Nat.min write_buffer_length len in
  let '(e, cipher) := aes_encode (st_send_aes k) (take len buffer) in
  _ ← throw_if (negb (length cipher =? len)%nat) assertion_abort;
  Ok (len, set_send e (st_outgoing k ++ cipher) k).

(** [fc::ostream::write] on top of it. *)
Fixpoint stcp_write_loop (fuel : nat) (buffer : list Z) (k : stcp_socket) : result stcp_socket :=
  match fuel with
  | O => Ok k
  | S fuel =>
      if (length buffer =? 0)%nat then Ok k
      else
        ('(n, k) ← stcp_writesome buffer k;
         stcp_write_loop fuel (drop n buffer) k)
  end.
Definition stcp_write (buffer : list Z) : stcp_socket -> result stcp_socket :=
  stcp_write_loop (length buffer) buffer.

(** ** message_oriented_connection.cpp *)

Record connection := mk_connection {
  co_sock : stcp_socket;
  co_bytes_received : Z;
  co_bytes_sent : Z
}.

(** The padding is whatever the buffer of [new char[]] holds. *)
Definition pad_length (size : nat) : nat := 16 * ((message_header_size + size + 15) / 16) - (message_header_size + size).

(** [message_oriented_connection_impl::send_message] *)
Definition send_message (m : message) (garbage : list Z) (c : connection) : result connection :=
  let size := Z.to_nat (msg_size m) in
  let padded_message := header_bytes m ++ take size (msg_data m) ++ take (pad_length size) garbage in
  sock ← stcp_write padded_message (co_sock c);
  Ok (mk_connection sock (co_bytes_received c)
        (wrapu64 (co_bytes_sent c + Z.of_nat (length padded_message)))).

Definition BUFFER_SIZE : nat := 16.
Definition LEFTOVER : nat := 8.

(** [16 * ((m.size - LEFTOVER + 15) / 16)] in 32 bits *)
Definition remaining_bytes_with_padding (size : Z) : nat :=
  Z.to_nat (wrapu32 (16 * (wrapu32 (size - Z.of_nat LEFTOVER + 15) / 16))).

Definition add_received (n : nat) (sock : stcp_socket) (c : connection) : connection :=
  mk_connection sock (wrapu64 (co_bytes_received c + Z.of_nat n)) (co_bytes_sent c).

(** One turn of [read_loop]. *)
Definition read_message (c : connection) : connection * result message :=
  match stcp_read BUFFER_SIZE (co_sock c) with
  | Err e => (c, Err e)
  | Ok (buffer, sock) =>
      let c := add_received BUFFER_SIZE sock c in
      let size := le32_value (take 4 buffer) in
      let type := le32_value (take 4 (drop 4 buffer)) in
      if size >? MAX_MESSAGE_SIZE then (c, Err assert_exception)
      else
        let remaining := remaining_bytes_with_padding size in
        let first := drop message_header_size buffer in
        if (remaining =? 0)%nat then (c, Ok (mk_message size type (take (Z.to_nat size) first)))
        else
          match stcp_read remaining (co_sock c) with
          | Err e => (c, Err e)
          | Ok (rest, sock) =>
              (add_received remaining sock c,
               Ok (mk_message size type (take (Z.to_nat size) (first ++ rest))))
          end
  end.

(** [message_oriented_connection_impl::read_loop]: the messages passed to the
    delegate, whose handler is [on_message], and the exception that ended the
    loop.  Each turn reads 16 bytes. *)
Fixpoint read_loop (fuel : nat) (on_message : message -> result unit) (c : connection)
    : list message * connection * error :=
  match fuel with
  | O => ([], c, eof_exception)
  | S fuel =>
      match read_message c with
      | (c, Err e) => ([], c, e)
      | (c, Ok m) =>
          match on_message m with
          | Err e => ([m], c, e)
          | Ok _ => let '(ms, c, e) := read_loop fuel on_message c in (m :: ms, c, e)
          end
      end
  end.
End stcp.
