(* ===== verification/FramingFacts.v ===== *)
(** * FramingFacts: what is sent is what is received

    However TCP cuts the stream, the messages a connection sends are delivered at
    the other end, the same and in order. *)
From S2P Require Import Prelude Framing.
#[local] Arguments Nat.modulo : simpl never.
#[local] Arguments Nat.div : simpl never.
#[local] Arguments Nat.min : simpl never.

(** ** TCP *)

Lemma tcp_readsome_spec len s :
  (0 < len)%nat -> concat s <> [] ->
  exists l s', tcp_readsome len s = Ok (l, s') /\ (0 < length l <= len)%nat /\ concat s = l ++ concat s'.
Proof.
  intros Hlen. induction s as [|piece s IH]; [done|]. destruct piece as [|b piece]; [exact IH|].
  intros _. cbn [tcp_readsome]. eexists _, _. split; [done|].
  destruct (Nat.leb_spec (length (b :: piece)) len) as [Hle|Hgt].
  - rewrite take_ge by done. split; [cbn in *; lia|done].
  - split; [rewrite length_take; cbn in *; lia|]. cbn [concat]. rewrite app_assoc, take_drop. done.
Qed.

Lemma tcp_read_spec len s :
  (len <= length (concat s))%nat ->
  exists s', tcp_read len s = Ok (take len (concat s), s') /\ concat s' = drop len (concat s).
Proof.
  revert len. induction s as [|piece s IH]; intros len Hlen; cbn in *.
  - replace len with 0%nat by lia. by exists [].
  - rewrite length_app in Hlen. destruct (Nat.leb_spec (length piece) len) as [Hle|Hgt].
    + destruct (IH (len - length piece)%nat) as (s' & -> & Hs); [lia|]. exists s'. cbn.
      rewrite take_app_ge, drop_app_ge by done. done.
    + eexists. split; [by rewrite take_app_le by lia|]. cbn. by rewrite drop_app_le by lia.
Qed.

Section stcp.
Context `{ChannelCrypto}.

Lemma aligned_app l1 l2 : aligned l1 -> aligned l2 -> aligned (l1 ++ l2).
Proof. unfold aligned. rewrite length_app. intros H1 H2. by rewrite Nat.Div0.add_mod, H1, H2. Qed.

Lemma aligned_take n l : (n `mod` 16 = 0)%nat -> (n <= length l)%nat -> aligned (take n l).
Proof. intros Hn Hl. unfold aligned. by rewrite length_take_le. Qed.

Lemma aligned_sub n m : (n `mod` 16 = 0)%nat -> (m `mod` 16 = 0)%nat -> ((n - m) `mod` 16 = 0)%nat.
Proof.
  intros Hn Hm. pose proof (Nat.div_mod_eq n 16). pose proof (Nat.div_mod_eq m 16).
  replace (n - m)%nat with ((n / 16 - m / 16) * 16)%nat by lia. apply Nat.Div0.mod_mul.
Qed.

Lemma aligned_drop n l : (n `mod` 16 = 0)%nat -> aligned l -> aligned (drop n l).
Proof. intros Hn Hl. unfold aligned. rewrite length_drop. by apply aligned_sub. Qed.

(** The socket after [n] bytes were taken from the stream. *)
Definition received (n : nat) (k k' : stcp_socket) : Prop :=
  st_send_aes k' = st_send_aes k /\ st_outgoing k' = st_outgoing k /\
  st_recv_aes k' = (aes_decode (st_recv_aes k) (take n (concat (st_incoming k)))).1 /\
  concat (st_incoming k') = drop n (concat (st_incoming k)).

Lemma stcp_readsome_spec len k :
  (0 < len)%nat -> (len `mod` 16 = 0)%nat -> (len <= length (concat (st_incoming k)))%nat ->
  exists n k', (0 < n <= len)%nat /\ (n `mod` 16 = 0)%nat /\
    stcp_readsome len k = Ok ((aes_decode (st_recv_aes k) (take n (concat (st_incoming k)))).2, k') /\
    received n k k'.
Proof.
  intros Hpos Hal Hlen. unfold stcp_readsome. rewrite (proj2 (Nat.ltb_lt _ _) Hpos), Hal. cbn -[Nat.min].
  set (L := Nat.min read_buffer_length len).
  assert (HL : (L `mod` 16 = 0 /\ 0 < L <= len)%nat).
  { unfold L, read_buffer_length. destruct (Nat.min_spec 4096 len) as [[? ->]|[? ->]]; (split; [done|lia]). }
  destruct HL as [HL HLle].
  destruct (tcp_readsome_spec L (st_incoming k)) as (l & s' & -> & Hl & Hc); [lia|intros E; rewrite E in Hlen; cbn in Hlen; lia|].
  cbn -[Nat.min]. pose proof (Nat.div_mod_eq (length l) 16) as Hdm.
  pose proof (Nat.mod_upper_bound (length l) 16 ltac:(lia)) as Hub.
  pose proof (Nat.div_mod_eq L 16) as HdmL. rewrite HL in HdmL.
  destruct (Nat.eqb_spec (length l `mod` 16) 0) as [Hz|Hnz].
  - exists (length l). cbn. rewrite Hc, take_app_length.
    destruct (aes_decode (st_recv_aes k) l) as [d plain] eqn:E. eexists.
    split; [lia|]. split; [done|]. split; [done|]. unfold received. cbn. rewrite Hc, take_app_length, drop_app_length, E. done.
  - assert (Hr : (16 - length l `mod` 16 <= length (concat s'))%nat).
    { rewrite Hc, length_app in Hlen. lia. }
    destruct (tcp_read_spec _ _ Hr) as (s2 & -> & Hs2). cbn.
    set (n := (length l + (16 - length l `mod` 16))%nat).
    assert (Ht : take n (concat (st_incoming k)) = l ++ take (16 - length l `mod` 16) (concat s')).
    { rewrite Hc. unfold n. by rewrite take_app_add. }
    exists n. rewrite Ht. destruct (aes_decode (st_recv_aes k) _) as [d plain] eqn:E.
    eexists. split; [unfold n; lia|]. split; [|split; [done|]].
    + unfold n. rewrite Hdm at 1. replace (16 * (length l / 16) + length l `mod` 16 + (16 - length l `mod` 16))%nat
        with ((length l / 16 + 1) * 16)%nat by lia. apply Nat.Div0.mod_mul.
    + unfold received. cbn. rewrite Ht, E. split_and!; try done.
      rewrite Hs2, Hc. unfold n. by rewrite drop_app_add.
Qed.

Lemma received_trans n m k k1 k2 :
  (n `mod` 16 = 0)%nat -> (n <= length (concat (st_incoming k)))%nat ->
  received n k k1 -> received m k1 k2 -> received (n + m) k k2.
Proof.
  intros Hn Hl (Hs1 & Ho1 & Hd1 & Hi1) (Hs2 & Ho2 & Hd2 & Hi2).
  unfold received. rewrite Hs2, Ho2, Hd2, Hi2, Hi1, Hd1, drop_drop. split_and!; try done.
  rewrite <- take_take_drop, aes_decode_app by by apply aligned_take. done.
Qed.

(** Reading is decoding the next bytes of the stream, whatever its pieces. *)
Lemma stcp_read_loop_spec fuel len k :
  (0 < len <= fuel)%nat -> (len `mod` 16 = 0)%nat -> (len <= length (concat (st_incoming k)))%nat ->
  exists k', stcp_read_loop fuel len k
      = Ok ((aes_decode (st_recv_aes k) (take len (concat (st_incoming k)))).2, k') /\
    received len k k'.
Proof.
  revert len k. induction fuel as [|fuel IH]; intros len k Hf Hal Hlen; [lia|].
  cbn [stcp_read_loop]. rewrite (proj2 (Nat.eqb_neq len 0)) by lia.
  destruct (stcp_readsome_spec len k ltac:(lia) Hal Hlen) as (n & k1 & Hn & Hn16 & -> & Hr). cbn.
  assert (Ht : aligned (take n (concat (st_incoming k)))) by (apply aligned_take; [done|lia]).
  rewrite aes_decode_length, length_take_le by (done || lia).
  destruct (decide (len = n)) as [->|Hne].
  - exists k1. rewrite Nat.sub_diag. destruct fuel; cbn; by rewrite app_nil_r.
  - pose proof Hr as (_ & _ & Hd & Hi).
    destruct (IH (len - n)%nat k1) as (k2 & -> & Hr2).
    + lia.
    + by apply aligned_sub.
    + rewrite Hi, length_drop. lia.
    + exists k2. cbn. replace len with (n + (len - n))%nat at 2 3 by lia. split.
      * rewrite <- take_take_drop, aes_decode_app by done. cbn. by rewrite Hd, Hi.
      * eapply received_trans; [done|lia|done|done].
Qed.

(** The decoder gives back what the encoder was given, for this plain text. *)
Definition decrypts (e : aes_encoder) (d : aes_decoder) (plain : list Z) : Prop :=
  (aes_decode d (aes_encode e plain).2).2 = plain.

(** Then it does so for the first blocks, and for the rest from there. *)
Lemma decrypts_app e d l1 l2 :
  aligned l1 -> decrypts e d (l1 ++ l2) ->
  (aes_decode d (aes_encode e l1).2).2 = l1 /\
  decrypts (aes_encode e l1).1 (aes_decode d (aes_encode e l1).2).1 l2.
Proof.
  intros Hl. unfold decrypts. rewrite aes_encode_app by done. cbn [fst snd].
  assert (Ha : aligned (aes_encode e l1).2) by (unfold aligned in *; by rewrite aes_encode_length).
  rewrite aes_decode_app by done. cbn [fst snd].
  apply app_inj_1. by rewrite aes_decode_length, aes_encode_length.
Qed.

(** The receiver's stream is the encryption of [plain], and is decrypted properly. *)
Definition carries (e : aes_encoder) (plain : list Z) (k : stcp_socket) : Prop :=
  decrypts e (st_recv_aes k) plain /\ aligned plain /\ concat (st_incoming k) = (aes_encode e plain).2.

Lemma stcp_read_plain len e plain k :
  (0 < len)%nat -> (len `mod` 16 = 0)%nat -> (len <= length plain)%nat -> carries e plain k ->
  exists k' e', stcp_read len k = Ok (take len plain, k') /\ carries e' (drop len plain) k' /\
    st_send_aes k' = st_send_aes k /\ st_outgoing k' = st_outgoing k.
Proof.
  intros Hpos Hal Hlen (Hsync & Hp & Hi).
  assert (Ht : aligned (take len plain)) by by apply aligned_take.
  assert (Hd : aligned (drop len plain)) by by apply aligned_drop.
  pose proof (aes_encode_app e (take len plain) (drop len plain) Ht) as Happ. rewrite take_drop in Happ.
  assert (El : length (aes_encode e (take len plain)).2 = len).
  { rewrite aes_encode_length by done. by apply length_take_le. }
  rewrite Happ in Hi. cbn in Hi.
  destruct (stcp_read_loop_spec len len k) as (k' & Hrd & Hs & Ho & Hdec & Hinc).
  { lia. } { done. } { rewrite Hi, length_app, El. lia. }
  rewrite <- (take_drop len plain) in Hsync. destruct (decrypts_app _ _ _ _ Ht Hsync) as [Hde Hsync'].
  rewrite Hi, take_app_length', Hde in Hrd by done. rewrite Hi, take_app_length' in Hdec by done.
  rewrite Hi, drop_app_length' in Hinc by done.
  exists k', (aes_encode e (take len plain)).1. split_and!; try done.
  unfold carries. by rewrite Hdec.
Qed.

Lemma stcp_write_loop_spec fuel buffer k :
  (length buffer <= fuel)%nat -> aligned buffer -> buffer <> [] ->
  stcp_write_loop fuel buffer k
  = Ok (set_send (aes_encode (st_send_aes k) buffer).1
          (st_outgoing k ++ (aes_encode (st_send_aes k) buffer).2) k).
Proof.
  revert buffer k. induction fuel as [|fuel IH]; intros buffer k Hf Hal Hne.
  { destruct buffer; [done|cbn in Hf; lia]. }
  assert (Hpos : (0 < length buffer)%nat) by (destruct buffer; [done|cbn; lia]).
  cbn [stcp_write_loop]. rewrite (proj2 (Nat.eqb_neq _ _)) by lia. unfold stcp_writesome.
  rewrite (proj2 (Nat.ltb_lt _ _) Hpos), Hal. cbn -[Nat.min].
  set (L := Nat.min write_buffer_length (length buffer)).
  assert (HL : (L `mod` 16 = 0 /\ 0 < L <= length buffer)%nat).
  { unfold L, write_buffer_length. destruct (Nat.min_spec 4096 (length buffer)) as [[? ->]|[? ->]];
      (split; [done|lia]). }
  destruct HL as [HL16 HL].
  assert (Ht : aligned (take L buffer)) by (apply aligned_take; [done|lia]).
  pose proof (aes_encode_app (st_send_aes k) (take L buffer) (drop L buffer) Ht) as Happ.
  rewrite take_drop in Happ.
  pose proof (aes_encode_length (st_send_aes k) _ Ht) as Hlen. rewrite length_take_le in Hlen by lia.
  destruct (aes_encode (st_send_aes k) (take L buffer)) as [e1 cipher1] eqn:E1. cbn in Hlen, Happ.
  rewrite Hlen, Nat.eqb_refl. cbn.
  destruct (decide (drop L buffer = [])) as [Hd|Hd].
  - assert (take L buffer = buffer) as Hb by (rewrite <- (take_drop L buffer) at 2; by rewrite Hd, app_nil_r).
    rewrite Hb in E1. rewrite E1, Hd. by destruct fuel.
  - rewrite IH; [|rewrite length_drop; lia| |done].
    + cbn. rewrite Happ. cbn. by rewrite app_assoc.
    + by apply aligned_drop.
Qed.

(** ** Frames *)

Lemma le32_roundtrip z : 0 <= z < 2^32 -> le32_value (le32 z) = z.
Proof.
  intros Hz. unfold le32, le32_value. cbn [foldr].
  replace (z / 2^16) with (z / 2^8 / 2^8) by (rewrite Z.div_div by lia; f_equal).
  replace (z / 2^24) with (z / 2^8 / 2^8 / 2^8) by (rewrite !Z.div_div by lia; f_equal).
  change (2^8) with 256. set (a := z / 256). set (b := a / 256). set (d := b / 256).
  pose proof (Z.div_mod z 256 ltac:(lia)). pose proof (Z.div_mod a 256 ltac:(lia)).
  pose proof (Z.div_mod b 256 ltac:(lia)). fold a in H0. fold b in H1. fold d in H2.
  assert (d mod 256 = d); [|lia]. apply Z.mod_small. subst d b a. rewrite !Z.div_div by lia.
  split; [apply Z.div_pos; lia|]. apply Z.div_lt_upper_bound; lia.
Qed.

(** A message that fits: its size is that of its data and within the limit. *)
Record message_ok (m : message) : Prop := mk_message_ok {
  mo_size : msg_size m = Z.of_nat (length (msg_data m));
  mo_small : msg_size m <= MAX_MESSAGE_SIZE;
  mo_type : 0 <= msg_type m < 2^32
}.

Definition frame_length (m : message) : nat := 16 * ((length (msg_data m) + 23) / 16).

#[local] Arguments frame_length : simpl never.

(** The bytes of a message on the wire, before encryption. *)
Definition frame (m : message) (garbage : list Z) : list Z :=
  header_bytes m ++ msg_data m ++ take (pad_length (length (msg_data m))) garbage.

Lemma frame_length_spec m garbage :
  (15 <= length garbage)%nat -> length (frame m garbage) = frame_length m.
Proof.
  intros Hg. unfold frame, frame_length, pad_length, header_bytes, message_header_size.
  rewrite !length_app, length_take. cbn [length le32].
  replace (8 + length (msg_data m) + 15)%nat with (length (msg_data m) + 23)%nat by lia.
  pose proof (Nat.div_mod_eq (length (msg_data m) + 23) 16).
  pose proof (Nat.mod_upper_bound (length (msg_data m) + 23) 16 ltac:(lia)). lia.
Qed.

Lemma frame_aligned m garbage : (15 <= length garbage)%nat -> aligned (frame m garbage).
Proof.
  intros Hg. unfold aligned. rewrite frame_length_spec by done. unfold frame_length.
  rewrite Nat.mul_comm. apply Nat.Div0.mod_mul.
Qed.

Lemma remaining_spec m :
  message_ok m -> (remaining_bytes_with_padding (msg_size m) = frame_length m - 16)%nat.
Proof.
  intros Hm. unfold remaining_bytes_with_padding, frame_length, LEFTOVER.
  pose proof (mo_size _ Hm) as Hs. pose proof (mo_small _ Hm) as Hmax. unfold MAX_MESSAGE_SIZE in Hmax.
  set (n := length (msg_data m)) in *.
  replace (n + 23)%nat with (n + 7 + 1 * 16)%nat by lia. rewrite Nat.div_add by lia.
  replace (msg_size m - Z.of_nat 8 + 15) with (Z.of_nat (n + 7)) by lia.
  rewrite (wrapu32_id (Z.of_nat (n + 7))) by lia. change 16 with (Z.of_nat 16) at 2.
  rewrite <- Nat2Z.inj_div.
  assert ((n + 7) / 16 <= n + 7)%nat by (apply Nat.Div0.div_le_upper_bound; lia).
  rewrite wrapu32_id by lia. lia.
Qed.

Lemma read_message_spec m garbage rest e c :
  message_ok m -> (15 <= length garbage)%nat -> carries e (frame m garbage ++ rest) (co_sock c) ->
  exists c' e', read_message c = (c', Ok m) /\ carries e' rest (co_sock c') /\
    co_bytes_received c' = wrapu64 (co_bytes_received c + Z.of_nat (frame_length m)) /\
    co_bytes_sent c' = co_bytes_sent c /\ st_outgoing (co_sock c') = st_outgoing (co_sock c).
Proof.
  intros Hm Hg Hc. pose proof (frame_length_spec m garbage Hg) as Hfl.
  pose proof (mo_size _ Hm) as Hs. pose proof (mo_small _ Hm) as Hmax.
  pose proof (remaining_spec m Hm) as Hrem.
  assert (HF : (16 <= frame_length m)%nat).
  { unfold frame_length. replace (length (msg_data m) + 23)%nat with (length (msg_data m) + 7 + 1 * 16)%nat by lia.
    rewrite Nat.div_add by lia. lia. }
  set (plain := frame m garbage ++ rest) in *.
  assert (Hpl : (frame_length m <= length plain)%nat) by (unfold plain; rewrite length_app; lia).
  destruct (stcp_read_plain 16 e plain (co_sock c)) as (k1 & e1 & Hr1 & Hc1 & _ & Ho1);
    [lia|done|lia|exact Hc|].
  assert (Hhead : take 4 (take 16 plain) = le32 (msg_size m) /\
                  take 4 (drop 4 (take 16 plain)) = le32 (msg_type m)).
  { unfold plain, frame, header_bytes. rewrite take_take. by destruct rest. }
  destruct Hhead as [Hh1 Hh2].
  assert (Hbody : forall n, (length (msg_data m) + 8 <= n)%nat ->
            take (length (msg_data m)) (drop 8 (take n plain)) = msg_data m).
  { intros n Hn. rewrite take_drop_commute, take_take, Nat.min_l by lia.
    rewrite <- take_drop_commute. unfold plain, frame, header_bytes. rewrite <- !app_assoc.
    change (drop 8 (le32 (msg_size m) ++ le32 (msg_type m) ++ ?l)) with l. apply take_app_length. }
  assert (HL : (length (msg_data m) + 8 <= frame_length m)%nat).
  { rewrite <- Hfl. unfold frame, header_bytes. rewrite !length_app. cbn. lia. }
  unfold read_message, BUFFER_SIZE, message_header_size. rewrite Hr1. cbv zeta.
  rewrite Hh1, Hh2, !le32_roundtrip by (try apply (mo_type _ Hm); unfold MAX_MESSAGE_SIZE in Hmax; lia).
  replace (msg_size m >? MAX_MESSAGE_SIZE) with false by lia. rewrite Hrem, Hs, Nat2Z.id.
  destruct (Nat.eqb_spec (frame_length m - 16) 0) as [Hz|Hnz].
  - rewrite Hbody by lia. eexists _, e1. split; [rewrite <- Hs; by destruct m|]. cbn.
    unfold plain in Hc1. rewrite drop_app_length' in Hc1 by lia.
    split_and!; [done| |done|done]. f_equal. lia.
  - destruct (stcp_read_plain (frame_length m - 16) e1 (drop 16 plain) k1) as (k2 & e2 & Hr2 & Hc2 & _ & Ho2);
      [lia| |rewrite length_drop; lia|exact Hc1|].
    { apply aligned_sub; [|done]. rewrite <- Hfl. by apply frame_aligned. }
    cbn [co_sock add_received]. rewrite Hr2.
    assert (Eb : drop 8 (take 16 plain) ++ take (frame_length m - 16) (drop 16 plain)
                 = drop 8 (take (frame_length m) plain)).
    { rewrite <- drop_app_le by (rewrite length_take_le; lia). rewrite take_take_drop. do 2 f_equal. lia. }
    rewrite Eb, Hbody by lia. eexists _, e2. split; [rewrite <- Hs; by destruct m|]. cbn.
    rewrite drop_drop in Hc2. unfold plain in Hc2. rewrite drop_app_length' in Hc2 by lia.
    split_and!; [done| |done|by rewrite Ho2, Ho1]. unfold wrapu64.
    rewrite Zplus_mod_idemp_l. f_equal. lia.
Qed.

(** ** A conversation *)

(** The messages sent one after the other, each with the padding its buffer held. *)
Fixpoint send_all (ms : list (message * list Z)) (c : connection) : result connection :=
  match ms with
  | [] => Ok c
  | (m, garbage) :: ms => c ← send_message m garbage c; send_all ms c
  end.

Definition wire (ms : list (message * list Z)) : list Z := concat (map (fun mg => frame mg.1 mg.2) ms).
Definition wire_length (ms : list (message * list Z)) : Z :=
  foldr (fun mg n => Z.of_nat (frame_length mg.1) + n) 0 ms.

Definition sendable (mg : message * list Z) : Prop := message_ok mg.1 /\ (15 <= length mg.2)%nat.

Lemma wire_aligned ms : Forall sendable ms -> aligned (wire ms).
Proof.
  induction 1 as [|[m g] ms [_ Hg] _ IH]; [done|]. apply aligned_app; [by apply frame_aligned|done].
Qed.

Lemma send_message_spec m garbage c :
  sendable (m, garbage) ->
  send_message m garbage c
  = Ok (mk_connection
          (set_send (aes_encode (st_send_aes (co_sock c)) (frame m garbage)).1
             (st_outgoing (co_sock c) ++ (aes_encode (st_send_aes (co_sock c)) (frame m garbage)).2) (co_sock c))
          (co_bytes_received c) (wrapu64 (co_bytes_sent c + Z.of_nat (frame_length m)))).
Proof.
  intros [Hm Hg]. cbn in Hm, Hg. unfold send_message. cbv zeta.
  rewrite (mo_size _ Hm), Nat2Z.id, take_ge by done.
  change (header_bytes m ++ msg_data m ++ take (pad_length (length (msg_data m))) garbage) with (frame m garbage).
  unfold stcp_write. rewrite stcp_write_loop_spec; [|done|by apply frame_aligned|done].
  by rewrite frame_length_spec.
Qed.

Lemma encode_nil e : (aes_encode e []).2 = [].
Proof. apply nil_length_inv. by rewrite aes_encode_length. Qed.

Lemma send_all_spec ms c :
  Forall sendable ms -> 0 <= co_bytes_sent c < 2^64 ->
  exists c', send_all ms c = Ok c' /\
    st_outgoing (co_sock c') = st_outgoing (co_sock c) ++ (aes_encode (st_send_aes (co_sock c)) (wire ms)).2 /\
    co_bytes_sent c' = wrapu64 (co_bytes_sent c + wire_length ms).
Proof.
  intros Hms. revert c. induction Hms as [|[m g] ms Hm Hms IH]; intros c Hb; cbn [send_all].
  - exists c. split; [done|]. unfold wire. cbn. rewrite encode_nil, app_nil_r. split; [done|].
    rewrite wrapu64_id; lia.
  - rewrite send_message_spec by done. cbn [mbind result_bind].
    edestruct IH as (c' & -> & Ho & Hs); [cbn; apply Z.mod_pos_bound; lia|]. exists c'. split; [done|].
    split.
    + rewrite Ho. cbn [co_sock set_send st_outgoing st_send_aes].
      change (wire ((m, g) :: ms)) with (frame m g ++ wire ms).
      rewrite aes_encode_app by (apply frame_aligned, Hm). cbn [snd]. by rewrite app_assoc.
    + rewrite Hs. cbn [co_bytes_sent]. unfold wrapu64. rewrite Zplus_mod_idemp_l. f_equal.
      change (wire_length ((m, g) :: ms)) with (Z.of_nat (frame_length m) + wire_length ms). lia.
Qed.

Lemma read_loop_spec ms e c fuel :
  Forall sendable ms -> (length ms < fuel)%nat -> carries e (wire ms) (co_sock c) ->
  0 <= co_bytes_received c < 2^64 ->
  exists c', read_loop fuel (fun _ => Ok tt) c = (map fst ms, c', eof_exception) /\
    co_bytes_received c' = wrapu64 (co_bytes_received c + wire_length ms).
Proof.
  intros Hms. revert e c fuel. induction Hms as [|[m g] ms [Hm Hg] Hms IH]; intros e c fuel Hf Hc Hb;
    (destruct fuel as [|fuel]; [cbn in Hf; lia|]); cbn [read_loop].
  - assert (Hr : read_message c = (c, Err eof_exception)).
    { destruct Hc as (_ & _ & Hi). unfold wire in Hi. cbn in Hi. rewrite encode_nil in Hi.
      unfold read_message, stcp_read, BUFFER_SIZE. cbn [stcp_read_loop Nat.eqb].
      unfold stcp_readsome. cbn -[tcp_readsome].
      assert (Hn : forall len s, concat s = [] -> tcp_readsome len s = Err eof_exception).
      { clear. intros len s. induction s as [|[|b p] s IH]; [done|exact IH|done]. }
      rewrite Hn by done. done. }
    rewrite Hr. exists c. split; [done|]. cbn. rewrite wrapu64_id; lia.
  - change (wire ((m, g) :: ms)) with (frame m g ++ wire ms) in Hc.
    destruct (read_message_spec m g (wire ms) e c Hm Hg Hc) as (c1 & e1 & -> & Hc1 & Hb1 & _).
    destruct (IH e1 c1 fuel) as (c' & -> & Hb'); [cbn in Hf; lia|done| |].
    { rewrite Hb1. apply Z.mod_pos_bound. lia. }
    exists c'. split; [done|]. rewrite Hb', Hb1. unfold wrapu64. rewrite Zplus_mod_idemp_l. f_equal.
    change (wire_length ((m, g) :: ms)) with (Z.of_nat (frame_length m) + wire_length ms). lia.
Qed.

(** Two sockets that have exchanged keys. *)
Lemma key_exchange_agree a b ina inb resta restb :
  concat ina = public_key_of b ++ resta -> concat inb = public_key_of a ++ restb ->
  exists ka kb, do_key_exchange a ina = Ok (public_key_of a, ka) /\
    do_key_exchange b inb = Ok (public_key_of b, kb) /\
    (exists secret, get_shared_secret a (public_key_of b) = Ok secret /\
       st_send_aes ka = aes_encoder_init secret /\ st_recv_aes kb = aes_decoder_init secret) /\
    concat (st_incoming ka) = resta /\ concat (st_incoming kb) = restb /\
    st_outgoing ka = [] /\ st_outgoing kb = [].
Proof.
  intros Ha Hb. destruct (shared_secret_agree a b) as (secret & Hsa & Hsb).
  unfold do_key_exchange.
  destruct (tcp_read_spec 33 ina) as (sa & -> & Hra); [rewrite Ha, length_app, public_key_length; lia|].
  destruct (tcp_read_spec 33 inb) as (sb & -> & Hrb); [rewrite Hb, length_app, public_key_length; lia|].
  rewrite Ha, take_app_length', Hb, take_app_length' by (by rewrite public_key_length). cbn.
  rewrite Hsa, Hsb. cbn. eexists _, _. split; [done|]. split; [done|]. cbn.
  rewrite Hra, Hrb, Ha, Hb, !drop_app_length' by (by rewrite public_key_length).
  split_and!; try done. by exists secret.
Qed.

(** C17: Two nodes exchange keys and one sends messages, each within the size limit,
    with whatever the padding holds.  However TCP cuts what arrives, the read loop
    of the other delivers exactly these messages, in order, before it meets the end
    of the stream, and it counts as many bytes as were sent, provided that fc's AES
    channel decrypts this stream of frames properly (a comment in stcp_socket.cpp says
    that it does not always). *)
Theorem messages_delivered a b ms ina resta fuel :
  Forall sendable ms -> concat ina = public_key_of b ++ resta -> (length ms < fuel)%nat ->
  (forall secret, get_shared_secret a (public_key_of b) = Ok secret ->
     decrypts (aes_encoder_init secret) (aes_decoder_init secret) (wire ms)) ->
  exists ka ca, do_key_exchange a ina = Ok (public_key_of a, ka) /\
    send_all ms (mk_connection ka 0 0) = Ok ca /\
    forall inb, concat inb = public_key_of a ++ st_outgoing (co_sock ca) ->
    exists kb cb, do_key_exchange b inb = Ok (public_key_of b, kb) /\
      read_loop fuel (fun _ => Ok tt) (mk_connection kb 0 0) = (map fst ms, cb, eof_exception) /\
      co_bytes_received cb = co_bytes_sent ca.
Proof.
  intros Hms Ha Hf Haes.
  destruct (key_exchange_agree a b ina [public_key_of a] resta []) as (ka & _ & Hka & _ & _ & _ & _ & Ho & _);
    [done|by cbn; rewrite !app_nil_r|].
  destruct (send_all_spec ms (mk_connection ka 0 0) Hms) as (ca & Hca & Hout & Hsent); [cbn; lia|].
  exists ka, ca. split; [done|]. split; [done|]. intros inb Hinb.
  destruct (key_exchange_agree a b ina inb resta _ Ha Hinb) as (ka' & kb & Hka' & Hkb & Hsync & _ & Hib & _).
  rewrite Hka in Hka'. injection Hka' as <-. destruct Hsync as (secret & Hsecret & Hsend & Hrecv). cbn in Hout. rewrite Ho in Hout. cbn in Hout.
  destruct (read_loop_spec ms (st_send_aes ka) (mk_connection kb 0 0) fuel) as (cb & Hcb & Hrec);
    [done|done| |cbn; lia|].
  - cbn. split_and!; [rewrite Hsend, Hrecv; by apply Haes|by apply wire_aligned|by rewrite Hib].
  - exists kb, cb. split_and!; [done|done|by rewrite Hrec, Hsent].
Qed.

(** A header that announces too much ends the connection. *)
Lemma oversized_message_refused c e plain :
  carries e plain (co_sock c) -> (16 <= length plain)%nat -> le32_value (take 4 plain) > MAX_MESSAGE_SIZE ->
  exists c', read_message c = (c', Err assert_exception).
Proof.
  intros Hc Hl Hs. destruct (stcp_read_plain 16 e plain (co_sock c)) as (k & e' & Hr & _); [lia|done|done|done|].
  unfold read_message, BUFFER_SIZE. rewrite Hr. cbv zeta. rewrite take_take. change (Nat.min 4 16) with 4%nat.
  replace (le32_value (take 4 plain) >? MAX_MESSAGE_SIZE) with true by lia. eauto.
Qed.
End stcp.

(** ** A concrete channel *)

Module Toy.
(** Every number is added to the one before it. *)
Fixpoint chained (s : Z) (l : list Z) : Z * list Z :=
  match l with
  | [] => (s, [])
  | x :: l => let '(s', l') := chained (x + s) l in (s', x + s :: l')
  end.
Fixpoint unchain (s : Z) (l : list Z) : Z * list Z :=
  match l with
  | [] => (s, [])
  | y :: l => let '(s', l') := unchain y l in (s', y - s :: l')
  end.

Lemma chain_app s l1 l2 :
  chained s (l1 ++ l2) = ((chained (chained s l1).1 l2).1, (chained s l1).2 ++ (chained (chained s l1).1 l2).2).
Proof.
  revert s. induction l1 as [|x l1 IH]; intros s; cbn; [by destruct (chained s l2)|].
  rewrite IH. by destruct (chained (x + s) l1).
Qed.
Lemma unchain_app s l1 l2 :
  unchain s (l1 ++ l2) = ((unchain (unchain s l1).1 l2).1, (unchain s l1).2 ++ (unchain (unchain s l1).1 l2).2).
Proof.
  revert s. induction l1 as [|x l1 IH]; intros s; cbn; [by destruct (unchain s l2)|].
  rewrite IH. by destruct (unchain x l1).
Qed.
Lemma chain_length s l : length (chained s l).2 = length l.
Proof. revert s. induction l as [|x l IH]; intros s; cbn; [done|]. specialize (IH (x + s)). destruct (chained (x + s) l). cbn in *. by rewrite IH. Qed.
Lemma unchain_length s l : length (unchain s l).2 = length l.
Proof. revert s. induction l as [|x l IH]; intros s; cbn; [done|]. specialize (IH x). destruct (unchain x l). cbn in *. by rewrite IH. Qed.
Lemma unchain_chain s l : unchain s (chained s l).2 = ((chained s l).1, l).
Proof.
  revert s. induction l as [|x l IH]; intros s; cbn; [done|].
  specialize (IH (x + s)). destruct (chained (x + s) l) as [s' l']. cbn in *. rewrite IH. f_equal. f_equal. lia.
Qed.

#[global] Program Instance channel : ChannelCrypto := {|
  aes_encoder := Z; aes_decoder := Z;
  aes_encoder_init s := s; aes_decoder_init s := s;
  aes_encode := chained; aes_decode := unchain;
  public_key_of k := k :: replicate 32 0;
  get_shared_secret k l := Ok (k + hd 0 l)
|}.
Next Obligation. intros e l _. apply chain_length. Qed.
Next Obligation. intros d l _. apply unchain_length. Qed.
Next Obligation. intros e l1 l2 _. apply chain_app. Qed.
Next Obligation. intros d l1 l2 _. apply unchain_app. Qed.
Next Obligation. done. Qed.
Next Obligation. intros a b. exists (a + b). cbn. split; f_equal; lia. Qed.

Definition hello : message := mk_message 3 5006 [104; 105; 33].
Definition sample : list (message * list Z) :=
  [(hello, replicate 15 7); (mk_message 0 5007 [], replicate 15 0); (mk_message 20 1001 (replicate 20 1), replicate 15 9)].
Lemma sample_sendable : Forall sendable sample.
Proof. repeat constructor; cbn; unfold MAX_MESSAGE_SIZE; lia. Qed.
End Toy.

Lemma messages_delivered_witness :
  exists ka ca, do_key_exchange 12 [public_key_of 30] = Ok (public_key_of 12, ka) /\
    send_all Toy.sample (mk_connection ka 0 0) = Ok ca /\
    exists kb cb, do_key_exchange 30 [public_key_of 12 ++ st_outgoing (co_sock ca)] = Ok (public_key_of 30, kb) /\
      read_loop 4 (fun _ => Ok tt) (mk_connection kb 0 0) = (map fst Toy.sample, cb, eof_exception).
Proof.
  destruct (messages_delivered 12 30 Toy.sample [public_key_of 30] [] 4 Toy.sample_sendable eq_refl ltac:(cbn; lia))
    as (ka & ca & Hk & Hs & Hr).
  { intros secret _. exact (f_equal snd (Toy.unchain_chain secret (wire Toy.sample))). }
  destruct (Hr [public_key_of 12 ++ st_outgoing (co_sock ca)] (app_nil_r _)) as (kb & cb & Hkb & Hcb & _).
  exists ka, ca. split_and!; [exact Hk|exact Hs|]. exists kb, cb. split; [exact Hkb|exact Hcb].
Defined.

(** The stream in pieces of seven bytes. *)
Fixpoint pieces (fuel : nat) (l : list Z) : tcp_stream :=
  match fuel with
  | O => [l]
  | S fuel => if (length l <=? 7)%nat then [l] else take 7 l :: pieces fuel (drop 7 l)
  end.

Example pieces_delivered :
  match do_key_exchange 12 [public_key_of 30] with
  | Ok (_, ka) =>
      match send_all Toy.sample (mk_connection ka 0 0) with
      | Ok ca =>
          match do_key_exchange 30 (pieces 100 (public_key_of 12 ++ st_outgoing (co_sock ca))) with
          | Ok (_, kb) => (read_loop 9 (fun _ => Ok tt) (mk_connection kb 0 0)).1.1 = map fst Toy.sample
          | Err _ => False
          end
      | Err _ => False
      end
  | Err _ => False
  end.
Proof. vm_compute. reflexivity. Qed.
