(* ===== verification/Eff.v ===== *)
(** * Eff: code that changes a state and may throw

    [eff S A] is a computation over a shared state: it returns the state it leaves
    behind whether or not it throws, because an exception does not undo the
    changes made before it.  [keeps R m] says that [m] relates the state before to
    the state after by [R] on every path, and [triple] is a Hoare triple whose
    postcondition speaks of the result, an exception included. *)
From S2P Require Import Prelude.

Definition eff (S A : Type) : Type := S -> S * result A.

Section eff.
Context {S : Type}.

#[global] Instance eff_mret : MRet (eff S) := fun A a s => (s, Ok a).
#[global] Instance eff_mbind : MBind (eff S) := fun A B k m s =>
  match m s with
  | (s', Ok a) => k a s'
  | (s', Err e) => (s', Err e)
  end.

(** A computation that reads the state, one that may throw and does not look at it,
    and one that replaces it. *)
Definition reads {A} (f : S -> result A) : eff S A := fun s => (s, f s).
Definition lift {A} (r : result A) : eff S A := fun s => (s, r).
Definition update (f : S -> S) : eff S unit := fun s => (f s, Ok tt).

(** [FC_ASSERT( c )] and a thrown exception. *)
Definition ensure (c : bool) : eff S unit := lift (fc_assert c).
Definition throw {A} (e : error) : eff S A := lift (Err e).

(** [for( x : l ) f( x )] with a local variable the body assigns. *)
Fixpoint eff_fold {X A} (f : A -> X -> eff S A) (a : A) (l : list X) : eff S A :=
  match l with
  | [] => mret a
  | x :: l => a' ← f a x; eff_fold f a' l
  end.

Definition eff_each {X} (f : X -> eff S unit) (l : list X) : eff S unit :=
  eff_fold (fun _ => f) tt l.

(** [try { m } catch( ... ) {}]: what ends the process is not caught. *)
Definition uncaught (e : error) : bool :=
  match e with assertion_abort | arithmetic_fault | stack_overflow | memory_fault => true | _ => false end.
Definition ignoring (m : eff S unit) : eff S unit := fun s =>
  match m s with
  | (s', Err e) => if uncaught e then (s', Err e) else (s', Ok tt)
  | r => r
  end.

(** [try { a = m; } catch( ... ) {}]: [None] where it threw. *)
Definition attempt {A} (m : eff S A) : eff S (option A) := fun s =>
  match m s with
  | (s', Ok a) => (s', Ok (Some a))
  | (s', Err e) => if uncaught e then (s', Err e) else (s', Ok None)
  end.

(** ** Successful runs *)

Lemma eff_bind_Ok {A B} (m : eff S A) (k : A -> eff S B) s s' b :
  (m ≫= k) s = (s', Ok b) <-> exists s1 a, m s = (s1, Ok a) /\ k a s1 = (s', Ok b).
Proof.
  unfold mbind, eff_mbind. split.
  - destruct (m s) as [s1 [a|e]]; [eauto|done].
  - by intros (s1 & a & -> & ?).
Qed.

Lemma eff_reads_Ok {A} (f : S -> result A) s s' a : reads f s = (s', Ok a) <-> s' = s /\ f s = Ok a.
Proof. unfold reads. split; [by intros [= <- ?]|by intros [-> ->]]. Qed.

Lemma lift_Ok {A} (r : result A) s s' a : lift r s = (s', Ok a) <-> s' = s /\ r = Ok a.
Proof. unfold lift. split; [by intros [= <- ?]|by intros [-> ->]]. Qed.

Lemma ensure_Ok c s s' u : ensure c s = (s', Ok u) <-> s' = s /\ c = true.
Proof. unfold ensure. by rewrite lift_Ok, fc_assert_Ok. Qed.

Lemma mret_Ok {A} (a b : A) (s s' : S) : (mret a : eff S A) s = (s', Ok b) <-> s' = s /\ a = b.
Proof. unfold mret, eff_mret. split; [by intros [= <- <-]|by intros [-> ->]]. Qed.

Lemma update_Ok (f : S -> S) s s' u : update f s = (s', Ok u) <-> s' = f s.
Proof. unfold update. split; [by intros [= <- _]|by intros ->; destruct u]. Qed.

(** ** Relations every path keeps *)

Definition keeps (R : S -> S -> Prop) {A} (m : eff S A) : Prop := forall s, R s (m s).1.

Section keeps.
Context (R : S -> S -> Prop) `{!Reflexive R} `{!Transitive R}.

Lemma keeps_ret {A} (a : A) : keeps R (mret a).
Proof using All. intros s. cbn. reflexivity. Qed.
Lemma keeps_reads {A} (f : S -> result A) : keeps R (reads f).
Proof using All. intros s. cbn. reflexivity. Qed.
Lemma keeps_lift {A} (r : result A) : keeps R (lift r).
Proof using All. intros s. cbn. reflexivity. Qed.
Lemma keeps_update (f : S -> S) : (forall s, R s (f s)) -> keeps R (update f).
Proof using All. intros Hf s. apply Hf. Qed.

(** What follows a step may rely on what the step returned. *)
Lemma keeps_bind_run {A B} (m : eff S A) (k : A -> eff S B) :
  keeps R m -> (forall s a s', m s = (s', Ok a) -> R s' (k a s').1) -> keeps R (m ≫= k).
Proof using All.
  intros Hm Hk s. unfold mbind, eff_mbind. specialize (Hm s).
  destruct (m s) as [s1 [a|e]] eqn:E; cbn in *; [|done]. etrans; [exact Hm|]. by apply (Hk s).
Qed.

Lemma keeps_bind {A B} (m : eff S A) (k : A -> eff S B) :
  keeps R m -> (forall a, keeps R (k a)) -> keeps R (m ≫= k).
Proof using All. intros Hm Hk. apply keeps_bind_run; [done|]. intros s a s' _. apply Hk. Qed.

Lemma keeps_fold {X A} (f : A -> X -> eff S A) l :
  (forall a x, x ∈ l -> keeps R (f a x)) -> forall a, keeps R (eff_fold f a l).
Proof using All.
  induction l as [|x l IH]; intros Hf a; cbn; [apply keeps_ret|].
  apply keeps_bind; [apply Hf; left|]. intros a'. apply IH. intros; apply Hf; by right.
Qed.

Lemma keeps_each {X} (f : X -> eff S unit) l :
  (forall x, x ∈ l -> keeps R (f x)) -> keeps R (eff_each f l).
Proof using All. intros Hf. apply keeps_fold. auto. Qed.

Lemma keeps_ignoring (m : eff S unit) : keeps R m -> keeps R (ignoring m).
Proof using All.
  intros Hm s. unfold ignoring. specialize (Hm s). destruct (m s) as [s' [u|e]]; cbn in *; [done|].
  by destruct (uncaught e).
Qed.
End keeps.

(** ** Hoare triples *)

Definition triple (P : S -> Prop) {A} (m : eff S A) (Q : result A -> S -> Prop) : Prop :=
  forall s, P s -> let '(s', r) := m s in Q r s'.

(** An exception leaves [E]. *)
Definition on_result {A} (Q : A -> S -> Prop) (E : error -> S -> Prop) (r : result A) (s : S) : Prop :=
  match r with Ok a => Q a s | Err e => E e s end.

Section triple.
Context (E : error -> S -> Prop).

Lemma triple_ret {A} (P : S -> Prop) (a : A) (Q : A -> S -> Prop) :
  (forall s, P s -> Q a s) -> triple P (mret a) (on_result Q E).
Proof. intros HQ s HP. cbn. auto. Qed.

Lemma triple_bind {A B} (P : S -> Prop) (m : eff S A) (k : A -> eff S B) (Q : A -> S -> Prop) T :
  triple P m (on_result Q E) -> (forall a, triple (Q a) (k a) (on_result T E)) ->
  triple P (m ≫= k) (on_result T E).
Proof.
  intros Hm Hk s HP. unfold mbind, eff_mbind. specialize (Hm s HP).
  destruct (m s) as [s1 [a|e]]; cbn in *; [|done]. apply (Hk a s1 Hm).
Qed.

Lemma triple_reads {A} (P : S -> Prop) (f : S -> result A) (Q : A -> S -> Prop) :
  (forall s a, P s -> f s = Ok a -> Q a s) -> (forall s e, P s -> f s = Err e -> E e s) ->
  triple P (reads f) (on_result Q E).
Proof. intros HQ HE s HP. cbn. destruct (f s) eqn:Hf; cbn; eauto. Qed.

Lemma triple_update (P : S -> Prop) (f : S -> S) (Q : unit -> S -> Prop) :
  (forall s, P s -> Q tt (f s)) -> triple P (update f) (on_result Q E).
Proof. intros HQ s HP. cbn. auto. Qed.

(** A loop invariant over the local variable and the state. *)
Lemma triple_fold {X A} (I : A -> S -> Prop) (f : A -> X -> eff S A) l :
  (forall a x, x ∈ l -> triple (I a) (f a x) (on_result I E)) ->
  forall a, triple (I a) (eff_fold f a l) (on_result I E).
Proof.
  induction l as [|x l IH]; intros Hf a; cbn; [by apply triple_ret|].
  eapply triple_bind; [apply Hf; left|]. intros a'. apply IH. intros; apply Hf; by right.
Qed.

Lemma triple_weaken {A} (P P' : S -> Prop) (m : eff S A) (Q Q' : A -> S -> Prop) :
  (forall s, P s -> P' s) -> (forall a s, Q' a s -> Q a s) ->
  triple P' m (on_result Q' E) -> triple P m (on_result Q E).
Proof.
  intros HP HQ Hm s H. specialize (Hm s (HP s H)). destruct (m s) as [s1 [a|e]]; cbn in *; auto.
Qed.
End triple.
End eff.

(** Inverts a successful run into the facts its steps establish. *)
Ltac inv_eff_step :=
  match goal with
  | H : (_ ≫= _) _ = (_, Ok _) |- _ => apply eff_bind_Ok in H as (? & ? & ? & H)
  | H : reads _ _ = (_, Ok _) |- _ => apply eff_reads_Ok in H as [-> ?]
  | H : lift _ _ = (_, Ok _) |- _ => apply lift_Ok in H as [-> ?]
  | H : ensure _ _ = (_, Ok _) |- _ => apply ensure_Ok in H as [-> ?]
  | H : throw _ _ = (_, Ok _) |- _ => discriminate H
  | H : mret _ _ = (_, Ok _) |- _ => apply mret_Ok in H as [-> H]; simplify_eq
  | H : update _ _ = (_, Ok _) |- _ => apply update_Ok in H as ->
  end.
Ltac inv_eff := repeat inv_eff_step.

Create HintDb keeps.
#[export] Hint Resolve keeps_ret keeps_reads keeps_lift : keeps.
