(* ===== verification/WalletDb.v ===== *)
(** * WalletDb: the wallet's records (wallet/wallet_db.hpp, wallet/wallet_db.cpp,
      wallet/wallet_records.hpp, wallet/wallet_records.cpp)

    [wallet_db] keeps every record of the wallet in one store on disk, indexed by
    record number, and a copy of each in maps by what it is looked up with.  Each
    change goes through [store_and_reload_record]: to disk, then to the maps.

    The store on disk is a map from record numbers: LevelFacts.v proves that a
    [level_map] is one.  Keys are the integers their bytes spell, as in Records.v;
    an encrypted key is a list of bytes.  AES, SHA-512 and the derivation of keys
    are fc's and secp256k1's: [WalletCrypto] is what the wallet calls.

    The member functions that throw part-way leave the changes made before: they
    are [eff wallet_db] computations (Eff.v).  [store_account] and [store_key] call
    each other; their first argument bounds the depth of that recursion. *)
From S2P Require Import Prelude Config Fc Asset Records Eff.
From stdpp Require Import sorting.
#[local] Open Scope Z_scope.

(** ** Records (wallet_records.hpp) *)

(** [base_record] and [wallet_record<RecordTypeName, RecordTypeNumber>] *)
Record wallet_record (T : Type) := mk_record { wallet_record_index : Z; wr_data : T }.
Arguments mk_record {T}.
Arguments wallet_record_index {T}.
Arguments wr_data {T}.

Record master_key := mk_master_key {
  mk_encrypted_key : list Z;
  mk_checksum : Z
}.

Record account_data := mk_account_data {
  ad_account : account_record;
  ad_is_my_account : bool;
  ad_approved : Z;
  ad_is_favorite : bool;
  ad_block_production_enabled : bool;
  ad_last_used_gen_sequence : Z;
  ad_private_data : variant
}.

Record key_data := mk_key_data {
  kd_account_address : Z;
  kd_public_key : Z;
  kd_encrypted_private_key : list Z;
  kd_valid_from_signature : bool;
  kd_memo : option string;
  kd_gen_seq_number : Z
}.

Record ledger_entry := mk_ledger_entry {
  le_from_account : option Z;
  le_to_account : option Z;
  le_amount : asset;
  le_memo : string;
  le_memo_from_account : option Z
}.

Record transaction_data := mk_transaction_data {
  td_record_id : Z;
  td_block_num : Z;
  td_is_virtual : bool;
  td_is_confirmed : bool;
  td_is_market : bool;
  td_trx : signed_transaction;
  td_ledger_entries : list ledger_entry;
  td_fee : asset;
  td_created_time : Z;
  td_received_time : Z;
  td_extra_addresses : list Z
}.

Record wallet_property := mk_property { wp_key : Z; wp_value : variant }.
Record setting := mk_setting { st_name : string; st_value : variant }.

(** [property_enum] *)
Definition next_record_number : Z := 1.
Definition next_child_key_index : Z := 2.
Definition default_transaction_priority_fee : Z := 6.

(** Assignments to members. *)
Definition set_ad_is_my_account (a : account_data) : account_data :=
  mk_account_data (ad_account a) true (ad_approved a) (ad_is_favorite a)
    (ad_block_production_enabled a) (ad_last_used_gen_sequence a) (ad_private_data a).
Definition set_ad_last_used_gen_sequence (n : Z) (a : account_data) : account_data :=
  mk_account_data (ad_account a) (ad_is_my_account a) (ad_approved a) (ad_is_favorite a)
    (ad_block_production_enabled a) n (ad_private_data a).
Definition set_ad_account (r : account_record) (a : account_data) : account_data :=
  mk_account_data r (ad_is_my_account a) (ad_approved a) (ad_is_favorite a)
    (ad_block_production_enabled a) (ad_last_used_gen_sequence a) (ad_private_data a).
Definition set_ad_approved (v : Z) (a : account_data) : account_data :=
  mk_account_data (ad_account a) (ad_is_my_account a) v (ad_is_favorite a)
    (ad_block_production_enabled a) (ad_last_used_gen_sequence a) (ad_private_data a).
Definition set_kd_account_address (addr : Z) (k : key_data) : key_data :=
  mk_key_data addr (kd_public_key k) (kd_encrypted_private_key k) (kd_valid_from_signature k)
    (kd_memo k) (kd_gen_seq_number k).
Definition set_kd_private (pub : Z) (encrypted : list Z) (k : key_data) : key_data :=
  mk_key_data (kd_account_address k) pub encrypted (kd_valid_from_signature k)
    (kd_memo k) (kd_gen_seq_number k).
Definition set_data {T} (d : T) (r : wallet_record T) : wallet_record T :=
  mk_record (wallet_record_index r) d.

(** [account_data()], [key_data()] *)
Definition null_account_record : account_record := mk_account 0 EmptyString v_null 0 ∅ 0 0 None None.
Definition null_account_data : account_data :=
  mk_account_data null_account_record false 0 false false 0 v_null.
Definition null_key_data : key_data := mk_key_data 0 0 [] false None 0.

(** [generic_wallet_record]: the type tag and the record it selects.
    [gr_malformed] is a record that does not convert to the type its tag names, or
    whose tag is unknown ([known = false]). *)
Inductive generic_wallet_record :=
| gr_master_key (r : wallet_record master_key)
| gr_account (r : wallet_record account_data)
| gr_key (r : wallet_record key_data)
| gr_transaction (r : wallet_record transaction_data)
| gr_property (r : wallet_record wallet_property)
| gr_setting (r : wallet_record setting)
| gr_malformed (index : Z) (known : bool).

(** [generic_wallet_record::get_wallet_record_index] *)
Definition get_wallet_record_index (g : generic_wallet_record) : Z :=
  match g with
  | gr_master_key r => wallet_record_index r
  | gr_account r => wallet_record_index r
  | gr_key r => wallet_record_index r
  | gr_transaction r => wallet_record_index r
  | gr_property r => wallet_record_index r
  | gr_setting r => wallet_record_index r
  | gr_malformed i _ => i
  end.

(** ** Private keys *)

(** The public key of a private key, AES (a packed key under a password; decryption
    may fail), the hash of a password, and the keys derived from another by number. *)
Class WalletCrypto := {
  public_key_of : Z -> Z;
  aes_encrypt : Z -> Z -> list Z;
  aes_decrypt : Z -> list Z -> option Z;
  sha512_hash : Z -> Z;
  master_child : Z -> Z -> Z;
  key_child : Z -> Z -> Z
}.

Section wallet_db.
Context `{Crypto} `{WalletCrypto}.

(** [key_data::has_private_key], [decrypt_private_key] and [encrypt_private_key]. *)
Definition has_private_key (k : key_data) : bool :=
  match kd_encrypted_private_key k with [] => false | _ => true end.

Definition decrypt_private_key (password : Z) (k : key_data) : result Z :=
  _ ← fc_assert (negb (password =? 0));
  require (aes_decrypt password (kd_encrypted_private_key k)) fc_exception.

Definition encrypt_private_key (password key_to_encrypt : Z) (k : key_data) : result key_data :=
  _ ← fc_assert (negb (password =? 0));
  let k' := set_kd_private (public_key_of key_to_encrypt) (aes_encrypt password key_to_encrypt) k in
  key ← decrypt_private_key password k';
  _ ← fc_assert (key_to_encrypt =? key);
  Ok k'.

Definition get_address (k : key_data) : Z := address_of_key (kd_public_key k).

(** [master_key::decrypt_key], [validate_password] and [encrypt_key]. *)
Definition decrypt_key (password : Z) (m : master_key) : result Z :=
  _ ← fc_assert (negb (password =? 0));
  _ ← fc_assert (match mk_encrypted_key m with [] => false | _ => true end);
  require (aes_decrypt password (mk_encrypted_key m)) fc_exception.
Definition key_validate_password (password : Z) (m : master_key) : bool :=
  mk_checksum m =? sha512_hash password.
Definition encrypt_key (password k : Z) : result master_key :=
  _ ← fc_assert (negb (password =? 0));
  let m := mk_master_key (aes_encrypt password k) (sha512_hash password) in
  k_dec ← decrypt_key password m;
  _ ← fc_assert (k_dec =? k);
  Ok m.

(** The keys an account has ever been known by: its owner key, and the active and
    signing keys that are not null. *)
Definition history_keys (h : gmap Z Z) : list Z :=
  filter (fun k => k <> null_key) (map_to_list h).*2.
Definition account_keys (a : account_record) : list Z :=
  ac_owner_key a :: history_keys (ac_active_key_history a)
    ++ match ac_delegate_info a with
       | Some d => history_keys (ds_signing_key_history d)
       | None => []
       end.

Definition owner_address (a : account_data) : Z := account_owner_address (ad_account a).

(** ** The state *)

Record wallet_db := mk_wallet_db {
  wd_records : option (gmap Z generic_wallet_record);
  wd_master_key : option (wallet_record master_key);
  wd_accounts : gmap Z (wallet_record account_data);
  wd_keys : gmap Z (wallet_record key_data);
  wd_transactions : gmap Z (wallet_record transaction_data);
  wd_properties : gmap Z (wallet_record wallet_property);
  wd_settings : gmap string (wallet_record setting);
  address_to_account : gmap Z Z;
  name_to_account : gmap string Z;
  id_to_account : gmap Z Z;
  btc_to_bts_address : gmap Z Z;
  id_to_transaction : gmap Z Z
}.

Definition set_wd_records (v : gmap Z generic_wallet_record) (w : wallet_db) : wallet_db :=
  mk_wallet_db (Some v) (wd_master_key w) (wd_accounts w) (wd_keys w) (wd_transactions w)
    (wd_properties w) (wd_settings w) (address_to_account w) (name_to_account w) (id_to_account w)
    (btc_to_bts_address w) (id_to_transaction w).
Definition set_wd_master_key (v : wallet_record master_key) (w : wallet_db) : wallet_db :=
  mk_wallet_db (wd_records w) (Some v) (wd_accounts w) (wd_keys w) (wd_transactions w)
    (wd_properties w) (wd_settings w) (address_to_account w) (name_to_account w) (id_to_account w)
    (btc_to_bts_address w) (id_to_transaction w).
Definition set_accounts (accounts : gmap Z (wallet_record account_data)) (by_address : gmap Z Z)
    (by_name : gmap string Z) (by_id : gmap Z Z) (w : wallet_db) : wallet_db :=
  mk_wallet_db (wd_records w) (wd_master_key w) accounts (wd_keys w) (wd_transactions w)
    (wd_properties w) (wd_settings w) by_address by_name by_id
    (btc_to_bts_address w) (id_to_transaction w).
Definition set_keys (keys : gmap Z (wallet_record key_data)) (by_address : gmap Z Z)
    (w : wallet_db) : wallet_db :=
  mk_wallet_db (wd_records w) (wd_master_key w) (wd_accounts w) keys (wd_transactions w)
    (wd_properties w) (wd_settings w) (address_to_account w) (name_to_account w) (id_to_account w)
    by_address (id_to_transaction w).
Definition set_transactions (transactions : gmap Z (wallet_record transaction_data))
    (by_id : gmap Z Z) (w : wallet_db) : wallet_db :=
  mk_wallet_db (wd_records w) (wd_master_key w) (wd_accounts w) (wd_keys w) transactions
    (wd_properties w) (wd_settings w) (address_to_account w) (name_to_account w) (id_to_account w)
    (btc_to_bts_address w) by_id.
Definition set_properties (v : gmap Z (wallet_record wallet_property)) (w : wallet_db) : wallet_db :=
  mk_wallet_db (wd_records w) (wd_master_key w) (wd_accounts w) (wd_keys w) (wd_transactions w)
    v (wd_settings w) (address_to_account w) (name_to_account w) (id_to_account w)
    (btc_to_bts_address w) (id_to_transaction w).
Definition set_settings (v : gmap string (wallet_record setting)) (w : wallet_db) : wallet_db :=
  mk_wallet_db (wd_records w) (wd_master_key w) (wd_accounts w) (wd_keys w) (wd_transactions w)
    (wd_properties w) v (address_to_account w) (name_to_account w) (id_to_account w)
    (btc_to_bts_address w) (id_to_transaction w).

(** ** Loading a record into the maps *)

Definition index_all {A} `{Countable A} (l : list A) (i : Z) (m : gmap A Z) : gmap A Z :=
  foldr (fun a => <[a := i]>) m l.

Definition load_account_record (r : wallet_record account_data) (w : wallet_db) : wallet_db :=
  let i := wallet_record_index r in
  let a := ad_account (wr_data r) in
  set_accounts (<[i := r]> (wd_accounts w))
    (index_all (address_of_key <$> account_keys a) i (address_to_account w))
    (<[ac_name a := i]> (name_to_account w))
    (if ac_id a =? 0 then id_to_account w else <[ac_id a := i]> (id_to_account w)) w.

Definition load_key_record (r : wallet_record key_data) (w : wallet_db) : wallet_db :=
  let key_address := get_address (wr_data r) in
  set_keys (<[key_address := r]> (wd_keys w))
    (index_all (key_addresses (kd_public_key (wr_data r))) key_address (btc_to_bts_address w)) w.

Definition load_transaction_record (r : wallet_record transaction_data) (w : wallet_db) : wallet_db :=
  let record_id := td_record_id (wr_data r) in
  let transaction_id := trx_id (td_trx (wr_data r)) in
  let by_id := <[record_id := record_id]> (id_to_transaction w) in
  set_transactions (<[record_id := r]> (wd_transactions w))
    (if transaction_id =? trx_id null_trx then by_id else <[transaction_id := record_id]> by_id) w.

Definition load_property_record (r : wallet_record wallet_property) (w : wallet_db) : wallet_db :=
  set_properties (<[wp_key (wr_data r) := r]> (wd_properties w)) w.
Definition load_setting_record (r : wallet_record setting) (w : wallet_db) : wallet_db :=
  set_settings (<[st_name (wr_data r) := r]> (wd_settings w)) w.

Definition load_generic_record (g : generic_wallet_record) : eff wallet_db unit :=
  match g with
  | gr_master_key r => update (set_wd_master_key r)
  | gr_account r => update (load_account_record r)
  | gr_key r => update (load_key_record r)
  | gr_transaction r => update (load_transaction_record r)
  | gr_property r => update (load_property_record r)
  | gr_setting r => update (load_setting_record r)
  | gr_malformed _ known => if known then throw bad_cast_exception else mret tt
  end.

(** [wallet_db_impl::store_and_reload_generic_record] *)
Definition store_and_reload_generic_record (g : generic_wallet_record) : eff wallet_db unit :=
  let index := get_wallet_record_index g in
  records ← reads (fun w => require (wd_records w) assert_exception);
  _ ← ensure (negb (index =? 0));
  _ ← update (set_wd_records (<[index := g]> records));
  load_generic_record g.

(** ** Opening and closing *)

(** [wallet_db::close], which clears every map. *)
Definition close : wallet_db := mk_wallet_db None None ∅ ∅ ∅ ∅ ∅ ∅ ∅ ∅ ∅ ∅.

(** [wallet_db::open], once the store has been opened: the records in the order of
    their numbers, those that fail to load passed over. *)
Definition record_le (x y : Z * generic_wallet_record) : Prop := x.1 <= y.1.
#[global] Instance record_le_dec : RelDecision record_le.
Proof. intros x y. unfold record_le. apply _. Defined.
Definition records_in_order (records : gmap Z generic_wallet_record)
    : list (Z * generic_wallet_record) := merge_sort record_le (map_to_list records).

Definition open (records : gmap Z generic_wallet_record) : eff wallet_db unit :=
  _ ← update (set_wd_records records);
  eff_each (fun ir => ignoring (load_generic_record ir.2)) (records_in_order records).

Definition is_open (w : wallet_db) : bool :=
  bool_decide (is_Some (wd_records w)) && bool_decide (is_Some (wd_master_key w)).

Definition ensure_open : eff wallet_db unit := reads (fun w => fc_assert (is_open w)).

(** ** Properties and record numbers *)

(** [wallet_db::get_property] *)
Definition get_property (id : Z) (w : wallet_db) : variant :=
  from_option (fun r => wp_value (wr_data r)) v_null (wd_properties w !! id).

(** [set_property( next_record_number, v )]: the record has number 1. *)
Definition set_next_record_number (v : Z) : eff wallet_db unit :=
  r ← reads (fun w => Ok (
    match wd_properties w !! next_record_number with
    | Some r => set_data (mk_property (wp_key (wr_data r)) (v_int v)) r
    | None => mk_record 1 (mk_property next_record_number (v_int v))
    end));
  store_and_reload_generic_record (gr_property r).

(** [wallet_db::new_wallet_record_index]; the [int32_t] increment must not
    overflow. *)
Definition new_wallet_record_index : eff wallet_db Z :=
  next ← reads (fun w =>
    let v := get_property next_record_number w in
    if variant_is_null v then Ok 2 else variant_as_int v);
  _ ← lift (throw_if (next >=? 2^31 - 1) arithmetic_fault);
  _ ← set_next_record_number (next + 1);
  mret next.

(** [store_and_reload_record]: a record that has no number yet gets the next. *)
Definition store_and_reload_record {T} (wrap : wallet_record T -> generic_wallet_record)
    (r : wallet_record T) : eff wallet_db (wallet_record T) :=
  r ← (if wallet_record_index r =? 0
       then index ← new_wallet_record_index; mret (mk_record index (wr_data r))
       else mret r);
  _ ← store_and_reload_generic_record (wrap r);
  mret r.

(** [wallet_db::set_property] *)
Definition set_property (id : Z) (v : variant) : eff wallet_db unit :=
  found ← reads (fun w => Ok (wd_properties w !! id));
  r ← match found with
      | Some r => mret (set_data (mk_property (wp_key (wr_data r)) v) r)
      | None =>
          if id =? next_record_number then mret (mk_record 1 (mk_property id v))
          else index ← new_wallet_record_index; mret (mk_record index (mk_property id v))
      end;
  _ ← store_and_reload_record gr_property r;
  mret tt.

(** [wallet_db::lookup_setting] and [store_setting] *)
Definition lookup_setting (name : string) (w : wallet_db) : option (wallet_record setting) :=
  wd_settings w !! name.
Definition store_setting (name : string) (value : variant) : eff wallet_db unit :=
  found ← reads (fun w => Ok (lookup_setting name w));
  r ← match found with
      | Some r => mret (set_data (mk_setting (st_name (wr_data r)) value) r)
      | None => index ← new_wallet_record_index; mret (mk_record index (mk_setting name value))
      end;
  _ ← update (fun w => set_settings (<[name := r]> (wd_settings w)) w);
  _ ← store_and_reload_record gr_setting r;
  mret tt.

(** ** Looking up accounts, keys and transactions *)

(** [wallet_db::lookup_account], by address, name and account id. *)
Definition account_at (index : option Z) (w : wallet_db) : option (wallet_record account_data) :=
  i ← index; wd_accounts w !! i.
Definition lookup_account (addr : Z) (w : wallet_db) : result (option (wallet_record account_data)) :=
  _ ← fc_assert (is_open w); Ok (account_at (address_to_account w !! addr) w).
Definition lookup_account_name (name : string) (w : wallet_db)
    : result (option (wallet_record account_data)) :=
  _ ← fc_assert (is_open w); Ok (account_at (name_to_account w !! name) w).
Definition lookup_account_id (id : Z) (w : wallet_db)
    : result (option (wallet_record account_data)) :=
  _ ← fc_assert (is_open w); Ok (account_at (id_to_account w !! id) w).

(** [wallet_db::lookup_key] *)
Definition key_at (addr : Z) (w : wallet_db) : option (wallet_record key_data) :=
  a ← btc_to_bts_address w !! addr; wd_keys w !! a.
Definition lookup_key (addr : Z) (w : wallet_db) : result (option (wallet_record key_data)) :=
  _ ← fc_assert (is_open w); Ok (key_at addr w).

(** [wallet_db::lookup_transaction] *)
Definition transaction_at (id : Z) (w : wallet_db) : option (wallet_record transaction_data) :=
  record_id ← id_to_transaction w !! id; wd_transactions w !! record_id.
Definition lookup_transaction (id : Z) (w : wallet_db)
    : result (option (wallet_record transaction_data)) :=
  _ ← fc_assert (is_open w); Ok (transaction_at id w).

(** [wallet_db::has_private_key], [get_account_name] and [get_pending_transactions] *)
Definition db_has_private_key (addr : Z) (w : wallet_db) : bool :=
  from_option (fun r => has_private_key (wr_data r)) false (wd_keys w !! addr).
Definition get_account_name (addr : Z) (w : wallet_db) : result string :=
  o ← lookup_account addr w;
  Ok (from_option (fun r => ac_name (ad_account (wr_data r))) "?"%string o).
Definition get_pending_transactions (w : wallet_db) : list (wallet_record transaction_data) :=
  filter (fun r => negb (td_is_virtual (wr_data r)) && negb (td_is_confirmed (wr_data r)) = true)
    (map_to_list (wd_transactions w)).*2.

(** ** Storing accounts and keys *)

(** The number of the record that is replaced, 0 for a new one. *)
Definition index_of {T} (o : option (wallet_record T)) : Z := from_option wallet_record_index 0 o.

(** [account_public_keys]: a [std::set], in the order of the keys. *)
Definition account_public_keys (a : account_record) : list Z :=
  merge_sort Z.le (elements (list_to_set (account_keys a) : gset Z)).

(** The loop body of [store_account], for one of the account's keys. *)
Definition store_account_key (store_key : key_data -> eff wallet_db unit)
    (account_record : wallet_record account_data) (account_public_key : Z)
    : eff wallet_db (wallet_record account_data) :=
  let account_address := address_of_key account_public_key in
  key_record ← reads (lookup_key account_address);
  match key_record with
  | None =>
      _ ← store_key (mk_key_data account_address account_public_key [] false None 0);
      mret account_record
  | Some key_record =>
      if has_private_key (wr_data key_record) then
        account_record ←
          (if ad_is_my_account (wr_data account_record) then mret account_record
           else store_and_reload_record gr_account
                  (set_data (set_ad_is_my_account (wr_data account_record)) account_record));
        let owner := owner_address (wr_data account_record) in
        _ ← (if kd_account_address (wr_data key_record) =? owner then mret tt
             else store_key (set_kd_account_address owner (wr_data key_record)));
        mret account_record
      else mret account_record
  end.

(** What [store_key] does with a key record it has stored: the account it belongs to
    is looked up, the record points to its owner address, and the account is the
    wallet's own. *)
Definition settle_key (store_account : account_data -> eff wallet_db unit) (key : key_data)
    (key_record : wallet_record key_data) : eff wallet_db unit :=
  if has_private_key (wr_data key_record) then
    by_key ← reads (lookup_account (address_of_key (kd_public_key key)));
    account_record ← match by_key with
                     | Some _ => mret by_key
                     | None => reads (lookup_account (kd_account_address key))
                     end;
    match account_record with
    | None => mret tt
    | Some account_record =>
        let owner := owner_address (wr_data account_record) in
        _ ← (if kd_account_address (wr_data key_record) =? owner then mret key_record
             else store_and_reload_record gr_key
                    (set_data (set_kd_account_address owner (wr_data key_record)) key_record));
        if ad_is_my_account (wr_data account_record) then mret tt
        else store_account (set_ad_is_my_account (wr_data account_record))
    end
  else mret tt.

Fixpoint store_account_n (depth : nat) (account : account_data) : eff wallet_db unit :=
  match depth with
  | O => throw stack_overflow
  | S depth =>
      _ ← ensure_open;
      _ ← ensure (negb (String.eqb (ac_name (ad_account account)) EmptyString));
      _ ← ensure (negb (ac_owner_key (ad_account account) =? null_key));
      found ← reads (lookup_account (owner_address account));
      account_record ← store_and_reload_record gr_account (mk_record (index_of found) account);
      _ ← eff_fold (store_account_key (store_key_n depth)) account_record
            (account_public_keys (ad_account account));
      mret tt
  end
with store_key_n (depth : nat) (key : key_data) : eff wallet_db unit :=
  match depth with
  | O => throw stack_overflow
  | S depth =>
      _ ← ensure_open;
      _ ← ensure (negb (kd_public_key key =? null_key));
      found ← reads (lookup_key (get_address key));
      key_record ← store_and_reload_record gr_key (mk_record (index_of found) key);
      settle_key (store_account_n depth) key key_record
  end.

(** The recursion is never deeper than this ([store_recursion_ends] in WalletSafety.v). *)
Definition max_depth : nat := 3.
Definition store_account : account_data -> eff wallet_db unit := store_account_n max_depth.
Definition store_key : key_data -> eff wallet_db unit := store_key_n max_depth.

(** [wallet_db::store_account( const blockchain::account_record& )] *)
Definition store_blockchain_account (r : account_record) : eff wallet_db unit :=
  _ ← ensure_open;
  found ← reads (lookup_account (account_owner_address r));
  store_account (set_ad_account r (from_option wr_data null_account_data found)).

(** [wallet_db::add_contact_account]; the code converts the public key to an
    address where it looks it up. *)
Definition add_contact_account (r : account_record) (private_data : variant) : eff wallet_db unit :=
  _ ← ensure_open;
  record ← reads (lookup_account_name (ac_name r));
  _ ← ensure (bool_decide (record = None));
  key_record ← reads (lookup_key (address_of_key (ac_owner_key r)));
  _ ← ensure (bool_decide (key_record = None));
  store_account (mk_account_data r false 0 false false 0 private_data).

(** [wallet_db::import_key] *)
Definition import_key (password : Z) (account_name : string) (private_key : Z) (move_existing : bool)
    : eff wallet_db unit :=
  _ ← ensure_open;
  found ← reads (lookup_account_name account_name);
  account_record ← lift (require found assert_exception);
  let owner := owner_address (wr_data account_record) in
  let public_key := public_key_of private_key in
  key_record ← reads (lookup_key (address_of_key public_key));
  _ ← match key_record with
      | Some k => if move_existing then mret tt
                  else ensure (kd_account_address (wr_data k) =? owner)
      | None => mret tt
      end;
  key ← lift (encrypt_private_key password private_key
                (set_kd_account_address owner (from_option wr_data null_key_data key_record)));
  store_key key.

(** [wallet_db::store_transaction] *)
Definition store_transaction (t : transaction_data) : eff wallet_db unit :=
  _ ← ensure_open;
  _ ← ensure (negb (td_record_id t =? 0));
  _ ← ensure (td_is_virtual t || negb (trx_id (td_trx t) =? trx_id null_trx));
  found ← reads (lookup_transaction (td_record_id t));
  _ ← store_and_reload_record gr_transaction (mk_record (index_of found) t);
  mret tt.

(** ** Generating keys *)

(** [get_last_wallet_child_key_index], [set_last_wallet_child_key_index] *)
Definition get_last_wallet_child_key_index (w : wallet_db) : result Z :=
  _ ← fc_assert (is_open w);
  Ok (match variant_as_int (get_property next_child_key_index w) with Ok i => i | Err _ => 0 end).
Definition set_last_wallet_child_key_index (key_index : Z) : eff wallet_db unit :=
  _ ← ensure_open; set_property next_child_key_index (v_int key_index).

(** [get_wallet_child_key], [get_account_child_key] *)
Definition get_wallet_child_key (password key_index : Z) (w : wallet_db) : result Z :=
  _ ← fc_assert (is_open w);
  m ← require (wd_master_key w) assert_exception;
  master_private_key ← decrypt_key password (wr_data m);
  Ok (master_child master_private_key key_index).
Definition get_account_child_key (private_key seq_num : Z) (w : wallet_db) : result Z :=
  _ ← fc_assert (is_open w); Ok (key_child private_key seq_num).

(** The loop [while( true ) { ++i; FC_ASSERT( i != 0 ); ... continue; ... break; }]
    over a [uint32_t]: [tries n] makes at most [n] rounds, [upwards] as many as
    there are numbers above [i]. *)
Fixpoint tries {A} (body : Z -> result (option A)) (n : positive) (i : Z) : result (A + Z) :=
  let again p r := match r with inl a => Ok (inl a) | inr i => tries body p i end in
  match n with
  | xH => o ← body (i + 1); Ok (match o with Some a => inl a | None => inr (i + 1) end)
  | xO p => r ← tries body p i; again p r
  | xI p => o ← body (i + 1);
            match o with
            | Some a => Ok (inl a)
            | None => r ← tries body p (i + 1); again p r
            end
  end.
Definition upwards {A} (body : Z -> result (option A)) (i : Z) : result A :=
  if 2^32 - 1 <=? i then Err assert_exception
  else r ← tries body (Z.to_pos (2^32 - 1 - i)) i;
       match r with inl a => Ok a | inr _ => Err assert_exception end.

(** An address no account of the wallet has and the wallet has no private key of. *)
Definition key_taken (addr : Z) (w : wallet_db) : result bool :=
  key_record ← lookup_key addr w;
  Ok (from_option (fun k => has_private_key (wr_data k)) false key_record).
Definition address_taken (addr : Z) (w : wallet_db) : result bool :=
  account_record ← lookup_account addr w;
  match account_record with Some _ => Ok true | None => key_taken addr w end.

(** One round of [generate_new_account]: the owner and active private keys. *)
Definition account_key_pair (password : Z) (w : wallet_db) (key_index : Z)
    : result (option (Z * Z * Z)) :=
  owner ← get_wallet_child_key password key_index w;
  owner_taken ← address_taken (address_of_key (public_key_of owner)) w;
  if (owner_taken : bool) then Ok None
  else
    active ← get_account_child_key owner 0 w;
    active_taken ← address_taken (address_of_key (public_key_of active)) w;
    Ok (if (active_taken : bool) then None else Some (key_index, owner, active)).

(** [wallet_db::generate_new_account]; [clock] is [blockchain::now()]. *)
Definition generate_new_account (clock password : Z) (account_name : string) (private_data : variant)
    : eff wallet_db Z :=
  _ ← ensure_open;
  account_record ← reads (lookup_account_name account_name);
  _ ← ensure (bool_decide (account_record = None));
  start ← reads get_last_wallet_child_key_index;
  found ← reads (fun w => upwards (account_key_pair password w) start);
  let '(key_index, owner_private_key, active_private_key) := found in
  let owner_public_key := public_key_of owner_private_key in
  let owner_address := address_of_key owner_public_key in
  active_key ← lift (encrypt_private_key password active_private_key
    (mk_key_data owner_address (public_key_of active_private_key) [] false None 0));
  owner_key ← lift (encrypt_private_key password owner_private_key
    (mk_key_data owner_address owner_public_key [] false None 0));
  let owner_key := mk_key_data (kd_account_address owner_key) (kd_public_key owner_key)
    (kd_encrypted_private_key owner_key) false None key_index in
  account ← lift (account_set_active_key clock (public_key_of active_private_key)
    (mk_account 0 account_name v_null owner_public_key ∅ 0 0 None None));
  let account := mk_account_data (set_ac_last_update clock account) true 0 false false 0 private_data in
  _ ← store_key active_key;
  _ ← set_last_wallet_child_key_index key_index;
  _ ← store_key owner_key;
  _ ← store_account account;
  mret owner_public_key.

(** [wallet_db::generate_new_account_child_key] *)
Definition account_child_key (active_private_key : Z) (w : wallet_db) (seq_num : Z)
    : result (option (Z * Z)) :=
  child ← get_account_child_key active_private_key seq_num w;
  taken ← key_taken (address_of_key (public_key_of child)) w;
  Ok (if (taken : bool) then None else Some (seq_num, child)).

Definition generate_new_account_child_key (password : Z) (account_name : string) : eff wallet_db Z :=
  _ ← ensure_open;
  found ← reads (lookup_account_name account_name);
  account_record ← lift (require found assert_exception);
  let account := wr_data account_record in
  _ ← ensure (negb (account_is_retracted (ad_account account)));
  _ ← ensure (ad_is_my_account account);
  found ← reads (lookup_key (account_active_address (ad_account account)));
  key_record ← lift (require found assert_exception);
  _ ← ensure (has_private_key (wr_data key_record));
  active_private_key ← lift (decrypt_private_key password (wr_data key_record));
  found ← reads (fun w => upwards (account_child_key active_private_key w)
                            (ad_last_used_gen_sequence account));
  let '(seq_num, child) := found in
  key ← lift (encrypt_private_key password child
                (mk_key_data (owner_address account) (public_key_of child) [] false None seq_num));
  _ ← store_account (set_ad_last_used_gen_sequence seq_num account);
  _ ← store_key key;
  mret child.

(** [wallet_db::generate_new_one_time_key]; [generated] is the random key. *)
Definition generate_new_one_time_key (generated password : Z) : eff wallet_db Z :=
  _ ← ensure_open;
  key_record ← reads (lookup_key (address_of_key (public_key_of generated)));
  _ ← ensure (bool_decide (key_record = None));
  key ← lift (encrypt_private_key password generated null_key_data);
  _ ← store_key key;
  mret generated.

(** [wallet_db::cache_memo] *)
Definition cache_memo (memo_private_key account_key : Z) (has_valid_signature : bool) (password : Z)
    : eff wallet_db unit :=
  key ← lift (encrypt_private_key password memo_private_key
                (mk_key_data (address_of_key (public_key_of account_key)) 0 [] false None 0));
  store_key (mk_key_data (kd_account_address key) (kd_public_key key) (kd_encrypted_private_key key)
               has_valid_signature None 0).

(** ** Passwords *)

(** [validate_password], [set_master_key] (record number -1) and [change_password] *)
Definition validate_password (password : Z) (w : wallet_db) : result bool :=
  m ← require (wd_master_key w) assert_exception;
  Ok (key_validate_password password (wr_data m)).

Definition set_master_key (extended_key new_password : Z) : eff wallet_db unit :=
  key ← lift (encrypt_key new_password extended_key);
  _ ← store_and_reload_record gr_master_key (mk_record (-1) key);
  mret tt.

Definition reencrypt (old_password new_password : Z) (r : wallet_record key_data)
    : eff wallet_db unit :=
  if has_private_key (wr_data r) then
    priv_key ← lift (decrypt_private_key old_password (wr_data r));
    key ← lift (encrypt_private_key new_password priv_key (wr_data r));
    _ ← store_and_reload_record gr_key (set_data key r);
    mret tt
  else mret tt.

Definition change_password (old_password new_password : Z) : eff wallet_db unit :=
  _ ← ensure_open;
  m ← reads (fun w => require (wd_master_key w) assert_exception);
  master_private_key ← lift (decrypt_key old_password (wr_data m));
  _ ← set_master_key master_private_key new_password;
  keys ← reads (fun w => Ok (map_to_list (wd_keys w)).*2);
  eff_each (reencrypt old_password new_password) keys.

(** ** Renaming and removing *)

Definition unindex_all {A} `{Countable A} {B} (l : list A) (m : gmap A B) : gmap A B :=
  foldr delete m l.

(** [wallet_db::remove_contact_account] *)
Definition remove_contact_account (account_name : string) : eff wallet_db unit :=
  found ← reads (lookup_account_name account_name);
  account_record ← lift (require found assert_exception);
  _ ← ensure (negb (ad_is_my_account (wr_data account_record)));
  let a := ad_account (wr_data account_record) in
  let keys := ac_owner_key a :: (map_to_list (ac_active_key_history a)).*2
                ++ match ac_delegate_info a with
                   | Some d => (map_to_list (ds_signing_key_history d)).*2
                   | None => []
                   end in
  update (fun w => set_accounts (delete (wallet_record_index account_record) (wd_accounts w))
                     (unindex_all (address_of_key <$> keys) (address_to_account w))
                     (delete (ac_name a) (name_to_account w)) (delete (ac_id a) (id_to_account w)) w).

(** [wallet_db::rename_account]; reading the old name's index creates it. *)
Definition set_ac_name (name : string) (a : account_record) : account_record :=
  mk_account (ac_id a) name (ac_public_data a) (ac_owner_key a) (ac_active_key_history a)
    (ac_registration_date a) (ac_last_update a) (ac_delegate_info a) (ac_meta_data a).
Definition rename_account (old_account_key : Z) (new_account_name : string) : eff wallet_db unit :=
  _ ← ensure_open;
  found ← reads (lookup_account (address_of_key old_account_key));
  old ← lift (require found assert_exception);
  let a := set_ac_name new_account_name (ad_account (wr_data old)) in
  let old_name := ac_name (ad_account (wr_data old)) in
  let i := wallet_record_index old in
  let acct := mk_record i (set_ad_account a (wr_data old)) in
  _ ← update (fun w =>
        let names := <[new_account_name := i]> (name_to_account w) in
        let names := match names !! old_name with
                     | Some j => if j =? i then delete old_name names else names
                     | None => if 0 =? i then names else <[old_name := 0]> names
                     end in
        set_accounts (<[i := acct]> (wd_accounts w))
          (index_all (address_of_key <$> ac_owner_key a :: (map_to_list (ac_active_key_history a)).*2) i
             (address_to_account w)) names (id_to_account w) w);
  _ ← store_and_reload_record gr_account acct;
  mret tt.

(** [wallet_db::remove_item] and [remove_transaction] *)
Definition remove_item (index : Z) : eff wallet_db unit :=
  records ← reads (fun w => require (wd_records w) assert_exception);
  update (set_wd_records (delete index records)).
Definition remove_transaction (record_id : Z) : eff wallet_db unit :=
  rec ← reads (lookup_transaction record_id);
  match rec with
  | None => mret tt
  | Some r =>
      _ ← remove_item (wallet_record_index r);
      update (fun w => set_transactions (delete record_id (wd_transactions w)) (id_to_transaction w) w)
  end.

(** ** Listing and repairing *)

(** [wallet_db::get_account_private_keys]: the private keys of the owner and active
    keys, with the names of their accounts. *)
Definition account_name_keys (accounts : gmap Z (wallet_record account_data)) : gmap Z string :=
  foldr (fun r m =>
    let a := ad_account (wr_data r) in
    foldr (fun k => <[k := ac_name a]>) m (history_keys (ac_active_key_history a) ++ [ac_owner_key a]))
    ∅ (map_to_list accounts).*2.

Definition get_account_private_keys (password : Z) (w : wallet_db) : result (gmap Z string) :=
  fold_result (fun private_keys kn =>
    key_record ← lookup_key (address_of_key kn.1) w;
    Ok (match key_record with
        | Some k =>
            if has_private_key (wr_data k) then
              match decrypt_private_key password (wr_data k) with
              | Ok private_key => <[private_key := kn.2]> private_keys
              | Err _ => private_keys
              end
            else private_keys
        | None => private_keys
        end)) ∅ (map_to_list (account_name_keys (wd_accounts w))).

(** The three passes of [wallet_db::repair_records], each over the records as they
    were when it started; a record that fails is passed over. *)
Definition repair_account (g : generic_wallet_record) : eff wallet_db unit :=
  match g with
  | gr_account r => store_account (wr_data r)
  | _ => mret tt
  end.

Definition repair_key (password : Z) (g : generic_wallet_record) : eff wallet_db unit :=
  match g with
  | gr_key r =>
      let k := wr_data r in
      if has_private_key k then
        private_key ← lift (decrypt_private_key password k);
        let public_key := public_key_of private_key in
        if kd_public_key k =? public_key then store_key k
        else
          let k' := set_kd_private public_key (kd_encrypted_private_key k) k in
          _ ← update (fun w => set_keys (delete (get_address k) (wd_keys w))
                                 (unindex_all (key_addresses (kd_public_key k)) (btc_to_bts_address w)) w);
          _ ← update (load_key_record (set_data k' r));
          store_key k'
      else store_key k
  | _ => mret tt
  end.

Definition repair_transaction (g : generic_wallet_record) : eff wallet_db unit :=
  match g with
  | gr_transaction r =>
      let t := wr_data r in
      let id := trx_id (td_trx t) in
      if (id =? trx_id null_trx) || (td_record_id t =? id) then store_transaction t
      else
        let t' := mk_transaction_data id (td_block_num t) (td_is_virtual t) (td_is_confirmed t)
          (td_is_market t) (td_trx t) (td_ledger_entries t) (td_fee t) (td_created_time t)
          (td_received_time t) (td_extra_addresses t) in
        _ ← update (fun w => set_transactions (delete (td_record_id t) (wd_transactions w))
                               (delete (td_record_id t) (id_to_transaction w)) w);
        _ ← update (load_transaction_record (set_data t' r));
        store_transaction t'
  | _ => mret tt
  end.

Definition repair_records (password : Z) : eff wallet_db unit :=
  _ ← ensure_open;
  records ← reads (fun w => require (wd_records w) assert_exception);
  let records := (records_in_order records).*2 in
  _ ← eff_each (fun g => ignoring (repair_account g)) records;
  _ ← eff_each (fun g => ignoring (repair_key password g)) records;
  eff_each (fun g => ignoring (repair_transaction g)) records.
End wallet_db.
