(* ===== verification/WalletFacts.v ===== *)
(** * WalletFacts: the wallet's records in memory and on disk

    [wallet_ok] relates the maps of [wallet_db] to its store: what is in memory
    under a name is what is on disk under that name, nothing on disk is missing from
    memory but the accounts that were removed, record numbers are those of the
    records and lie below the next one, and the addresses of a key lead to it.  Every operation that stores records keeps it, and keeps the
    private keys the wallet has. *)
From S2P Require Import Prelude Config Fc Asset Records Eff WalletDb.
From stdpp Require Import sorting.
#[local] Open Scope Z_scope.

(** ** What a record is known by *)

Inductive record_name :=
| nm_master
| nm_account (index : Z)
| nm_key (addr : Z)
| nm_transaction (id : Z)
| nm_property (id : Z)
| nm_setting (name : string)
| nm_none.

#[global] Instance record_name_eq_dec : EqDecision record_name.
Proof. solve_decision. Defined.

(** No two keys share an address, in any of the five forms. *)
Class NoCollision `{Crypto} : Prop :=
  no_collision k k' a : a ∈ key_addresses k -> a ∈ key_addresses k' -> k = k'.

Section facts.
Context `{Crypto} `{WalletCrypto}.

Definition name_of (g : generic_wallet_record) : record_name :=
  match g with
  | gr_master_key _ => nm_master
  | gr_account r => nm_account (wallet_record_index r)
  | gr_key r => nm_key (get_address (wr_data r))
  | gr_transaction r => nm_transaction (td_record_id (wr_data r))
  | gr_property r => nm_property (wp_key (wr_data r))
  | gr_setting r => nm_setting (st_name (wr_data r))
  | gr_malformed _ _ => nm_none
  end.

Definition loadable (g : generic_wallet_record) : bool :=
  match g with gr_malformed _ _ => false | _ => true end.

Definition is_account (g : generic_wallet_record) : bool :=
  match g with gr_account _ => true | _ => false end.

(** The record the maps hold under a name. *)
Definition memory (nm : record_name) (w : wallet_db) : option generic_wallet_record :=
  match nm with
  | nm_master => gr_master_key <$> wd_master_key w
  | nm_account i => gr_account <$> wd_accounts w !! i
  | nm_key a => gr_key <$> wd_keys w !! a
  | nm_transaction id => gr_transaction <$> wd_transactions w !! id
  | nm_property id => gr_property <$> wd_properties w !! id
  | nm_setting s => gr_setting <$> wd_settings w !! s
  | nm_none => None
  end.

(** What [load_generic_record] does with a record that converts. *)
Definition loaded (g : generic_wallet_record) (w : wallet_db) : wallet_db :=
  match g with
  | gr_master_key r => set_wd_master_key r w
  | gr_account r => load_account_record r w
  | gr_key r => load_key_record r w
  | gr_transaction r => load_transaction_record r w
  | gr_property r => load_property_record r w
  | gr_setting r => load_setting_record r w
  | gr_malformed _ _ => w
  end.

Lemma load_generic g w : loadable g = true -> load_generic_record g w = (loaded g w, Ok tt).
Proof. by destruct g. Qed.

Lemma memory_loaded g w nm :
  loadable g = true ->
  memory nm (loaded g w) = if decide (nm = name_of g) then Some g else memory nm w.
Proof.
  intros Hl. destruct g as [r|r|r|r|r|r|?]; try discriminate Hl;
    destruct nm as [|i|a|a|a|a|]; cbn;
    repeat case_decide; simplify_eq; try done;
    first [by rewrite lookup_insert_eq|rewrite lookup_insert_ne by congruence; done].
Qed.

Lemma memory_set_records rs nm w : memory nm (set_wd_records rs w) = memory nm w.
Proof. by destruct nm. Qed.

Definition disk (w : wallet_db) : gmap Z generic_wallet_record := default ∅ (wd_records w).

(** The number the next new record gets. *)
Definition next_index (w : wallet_db) : Z :=
  match get_property next_record_number w with v_int n => n | _ => 2 end.

Lemma get_property_memory id w :
  get_property id w = match memory (nm_property id) w with
                      | Some (gr_property r) => wp_value (wr_data r)
                      | _ => v_null
                      end.
Proof. unfold get_property. cbn. by destruct (wd_properties w !! id). Qed.

Record wallet_ok (w : wallet_db) : Prop := {
  ok_disk i g : disk w !! i = Some g -> get_wallet_record_index g = i /\ i <> 0;
  ok_memory nm g : memory nm w = Some g ->
    name_of g = nm /\ loadable g = true /\ disk w !! get_wallet_record_index g = Some g;
  ok_loaded i g : disk w !! i = Some g -> loadable g = true -> is_account g = false ->
    memory (name_of g) w = Some g;
  ok_next i g : disk w !! i = Some g -> i < next_index w;
  ok_counter g : memory (nm_property next_record_number) w = Some g ->
    exists n, 2 <= n /\ g = gr_property (mk_record 1 (mk_property next_record_number (v_int n)));
  ok_one g : disk w !! 1 = Some g -> name_of g = nm_property next_record_number;
  ok_master i g : disk w !! i = Some g -> i = -1 <-> name_of g = nm_master;
  ok_addresses a b : btc_to_bts_address w !! a = Some b <->
    exists r, wd_keys w !! b = Some r /\ a ∈ key_addresses (kd_public_key (wr_data r))
}.

(** No account on disk is missing from the maps: none was removed since the file was
    opened. *)
Definition complete (w : wallet_db) : Prop :=
  forall i r, disk w !! i = Some (gr_account r) -> wd_accounts w !! i = Some r.

(** Two records of one name have one number. *)
Lemma one_per_name w i g i' g' :
  wallet_ok w -> disk w !! i = Some g -> disk w !! i' = Some g' -> loadable g = true ->
  loadable g' = true -> name_of g = name_of g' -> i = i' /\ g = g'.
Proof.
  intros Hw Hg Hg' Hl Hl' Hn. destruct (ok_disk w Hw i g Hg) as [Hi _], (ok_disk w Hw i' g' Hg') as [Hi' _].
  assert (Hsame : i = i' -> i = i' /\ g = g') by (intros ->; split; [done|congruence]).
  destruct (is_account g) eqn:Ha, (is_account g') eqn:Ha'.
  - apply Hsame. destruct g, g'; try done. cbn in *. congruence.
  - by destruct g, g'.
  - by destruct g, g'.
  - apply (ok_loaded w Hw) in Hg, Hg'; [|done..]. apply Hsame. congruence.
Qed.

Lemma next_index_ge w : wallet_ok w -> 2 <= next_index w.
Proof.
  intros Hw. unfold next_index. rewrite get_property_memory.
  destruct (memory (nm_property next_record_number) w) as [g|] eqn:Hm; [|done].
  apply (ok_counter w Hw) in Hm as (n & Hn & ->). cbn. done.
Qed.

(** ** Storing one record *)

(** The state after [g] has gone to disk and into the maps. *)
Definition stored (g : generic_wallet_record) (w : wallet_db) : wallet_db :=
  loaded g (set_wd_records (<[get_wallet_record_index g := g]> (disk w)) w).

Lemma memory_stored g w nm :
  loadable g = true ->
  memory nm (stored g w) = if decide (nm = name_of g) then Some g else memory nm w.
Proof. intros Hl. unfold stored. rewrite memory_loaded by done. by rewrite memory_set_records. Qed.

Lemma disk_stored g w : disk (stored g w) = <[get_wallet_record_index g := g]> (disk w).
Proof. by destruct g. Qed.

Lemma open_stored g w : is_open w = true -> is_open (stored g w) = true.
Proof.
  unfold is_open, stored. rewrite !andb_true_iff, !bool_decide_eq_true. intros [_ Hm].
  by destruct g.
Qed.

(** Where [g] may be stored: its number is in use by the record of its name, or by
    none and so is its name. *)
Definition fits (g : generic_wallet_record) (w : wallet_db) : Prop :=
  get_wallet_record_index g <> 0 /\
  (get_wallet_record_index g = -1 <-> name_of g = nm_master) /\
  (forall g0, disk w !! get_wallet_record_index g = Some g0 -> name_of g0 = name_of g) /\
  (forall g0, memory (name_of g) w = Some g0 -> get_wallet_record_index g0 = get_wallet_record_index g).

Lemma index_all_lookup {A} `{Countable A} (l : list A) i (m : gmap A Z) a :
  index_all l i m !! a = if decide (a ∈ l) then Some i else m !! a.
Proof.
  unfold index_all. induction l as [|b l IH]; cbn.
  - case_decide as Hin; [by apply elem_of_nil in Hin|done].
  - destruct (decide (a = b)) as [->|Hne].
    + rewrite lookup_insert_eq. by rewrite decide_True by left.
    + rewrite lookup_insert_ne by done. rewrite IH.
      by destruct (decide (a ∈ l)) as [Hl|Hl];
        [rewrite decide_True by (by right)|rewrite decide_False by (rewrite elem_of_cons; tauto)].
Qed.

(** The addresses of the keys lead to them. *)
Definition addresses_ok (w : wallet_db) : Prop :=
  (forall b r, wd_keys w !! b = Some r -> get_address (wr_data r) = b) /\
  forall a b, btc_to_bts_address w !! a = Some b <->
    exists r, wd_keys w !! b = Some r /\ a ∈ key_addresses (kd_public_key (wr_data r)).

Lemma addresses_loaded `{!NoCollision} g w : addresses_ok w -> addresses_ok (loaded g w).
Proof.
  intros [Hk Hb]. destruct g as [r|r|r|r|r|r|?]; try done.
  set (pub := kd_public_key (wr_data r)). set (addr := get_address (wr_data r)).
  assert (Hself : addr ∈ key_addresses pub) by (left).
  unfold addresses_ok. cbn -[key_addresses index_all]. split.
  { intros b r0 [[<- <-]|[_ Hr0]]%lookup_insert_Some; [done|by apply Hk]. }
  intros a b. rewrite index_all_lookup. split.
  - case_decide as Hin.
    + intros [= <-]. exists r. by rewrite lookup_insert_eq.
    + intros (r0 & Hr0 & Ha)%Hb. exists r0. split; [|done].
      rewrite lookup_insert_ne; [done|]. intros <-. apply Hk in Hr0.
      assert (kd_public_key (wr_data r0) = pub) as Hp.
      { apply (no_collision _ _ addr); [|done]. change addr with (get_address (wr_data r)).
        rewrite <- Hr0. left. }
      apply Hin. by rewrite Hp in Ha.
  - intros (r0 & Hr0 & Ha). destruct (decide (addr = b)) as [<-|Hne].
    + rewrite lookup_insert_eq in Hr0. simplify_eq. by rewrite decide_True.
    + rewrite lookup_insert_ne in Hr0 by done. case_decide as Hin.
      * exfalso. apply Hne. pose proof (no_collision _ _ a Ha Hin) as Hp. apply Hk in Hr0.
        unfold addr, pub, get_address in *. congruence.
      * apply Hb. eauto.
Qed.

Lemma ok_addresses_ok w : wallet_ok w -> addresses_ok w.
Proof.
  intros Hw. split; [|apply (ok_addresses w Hw)]. intros b r Hr.
  assert (Hm : memory (nm_key b) w = Some (gr_key r)) by (cbn; by rewrite Hr).
  by apply (ok_memory w Hw) in Hm as ([= Hn] & _).
Qed.

Lemma addresses_stored `{!NoCollision} g w : wallet_ok w -> addresses_ok (stored g w).
Proof. intros Hw. apply addresses_loaded. apply (ok_addresses_ok w Hw). Qed.

(** Storing a record that fits keeps the wallet's records in order, provided the
    counter does. *)
Lemma stored_ok `{!NoCollision} g w :
  wallet_ok w -> loadable g = true -> fits g w ->
  (forall i, is_Some (disk (stored g w) !! i) -> i < next_index (stored g w)) ->
  (get_wallet_record_index g = 1 -> name_of g = nm_property next_record_number) ->
  (name_of g = nm_property next_record_number -> exists n, 2 <= n /\
     g = gr_property (mk_record 1 (mk_property next_record_number (v_int n)))) ->
  wallet_ok (stored g w).
Proof.
  intros Hw Hl (Hz & Hm1 & Hd & Hmem) Hnext Hone Hc.
  constructor.
  - intros i g0. rewrite disk_stored.
    intros [[<- <-]|[_ Hg]]%lookup_insert_Some; [done|by apply (ok_disk w Hw)].
  - intros nm g0. rewrite disk_stored, memory_stored by done. case_decide as Hnm.
    + intros [= <-]. split_and!; [done..|apply lookup_insert_eq].
    + intros (Hn0 & Hl0 & Hg0)%(ok_memory w Hw). split_and!; [done..|].
      rewrite lookup_insert_ne; [done|]. intros Hi. apply Hnm. rewrite <- Hn0. apply Hd. by rewrite Hi.
  - intros i g0. rewrite disk_stored, memory_stored by done.
    intros [[_ <-]|[Hne Hg0]]%lookup_insert_Some Hl0 Ha0; [by rewrite decide_True|].
    destruct (ok_disk w Hw i g0 Hg0) as [Hi0 _]. apply (ok_loaded w Hw) in Hg0; [|done..].
    rewrite decide_False; [done|]. intros Hn0. apply Hne. rewrite Hn0 in Hg0. rewrite <- Hi0.
    symmetry. by apply Hmem.
  - intros i g0 Hg. apply Hnext. eauto.
  - intros g0. rewrite memory_stored by done. case_decide as Hn.
    + intros [= <-]. by apply Hc.
    + apply (ok_counter w Hw).
  - intros g0. rewrite disk_stored. intros [[Hi <-]|[_ Hg0]]%lookup_insert_Some; [by apply Hone|].
    by apply (ok_one w Hw).
  - intros i g0. rewrite disk_stored.
    intros [[<- <-]|[_ Hg0]]%lookup_insert_Some; [done|by apply (ok_master w Hw)].
  - by apply addresses_stored.
Qed.

(** ** Record numbers *)

Definition counter (n : Z) : generic_wallet_record :=
  gr_property (mk_record 1 (mk_property next_record_number (v_int n))).

(** The state after the next record number has been taken. *)
Definition bumped (w : wallet_db) : wallet_db := stored (counter (next_index w + 1)) w.

Lemma next_index_stored g w :
  loadable g = true -> name_of g <> nm_property next_record_number ->
  next_index (stored g w) = next_index w.
Proof.
  intros Hl Hn. unfold next_index. rewrite !get_property_memory, memory_stored by done.
  by rewrite decide_False by congruence.
Qed.

Lemma next_index_bumped w : next_index (bumped w) = next_index w + 1.
Proof. unfold next_index at 1, bumped. by rewrite get_property_memory, memory_stored. Qed.

Lemma bumped_ok `{!NoCollision} w : wallet_ok w -> wallet_ok (bumped w).
Proof.
  intros Hw. pose proof (next_index_ge w Hw) as Hge. apply stored_ok; try done.
  - split_and!; [done|done| |].
    + intros g0 Hg0. by apply (ok_one w Hw).
    + intros g0 Hg0. by apply (ok_counter w Hw) in Hg0 as (n & _ & ->).
  - fold (bumped w). intros i [g Hg]. rewrite next_index_bumped. unfold bumped in Hg.
    rewrite disk_stored in Hg.
    apply lookup_insert_Some in Hg as [[<- _]|[_ Hg]]; [cbn; lia|]. apply (ok_next w Hw) in Hg. lia.
  - intros _. exists (next_index w + 1). split; [lia|done].
Qed.

Lemma set_next_record_number_run w n :
  wallet_ok w ->
  set_next_record_number n w
  = match wd_records w with
    | Some _ => (stored (counter n) w, Ok tt)
    | None => (w, Err assert_exception)
    end.
Proof.
  intros Hw. unfold set_next_record_number, reads, mbind, eff_mbind.
  assert (Hr : match wd_properties w !! next_record_number with
    | Some r => set_data (mk_property (wp_key (wr_data r)) (v_int n)) r
    | None => mk_record 1 (mk_property next_record_number (v_int n))
    end = mk_record 1 (mk_property next_record_number (v_int n))).
  { destruct (wd_properties w !! next_record_number) as [r|] eqn:Hp; [|done].
    destruct (ok_counter w Hw (gr_property r)) as (m & _ & [= ->]); [cbn; by rewrite Hp|done]. }
  rewrite Hr. unfold store_and_reload_generic_record, stored, disk, mbind, eff_mbind. cbn.
  by destruct (wd_records w).
Qed.

Lemma new_wallet_record_index_run w :
  wallet_ok w ->
  new_wallet_record_index w
  = if next_index w >=? 2^31 - 1 then (w, Err arithmetic_fault)
    else match wd_records w with
         | Some _ => (bumped w, Ok (next_index w))
         | None => (w, Err assert_exception)
         end.
Proof.
  intros Hw. unfold new_wallet_record_index.
  assert (Hv : (if variant_is_null (get_property next_record_number w) then Ok 2
                else variant_as_int (get_property next_record_number w)) = Ok (next_index w)).
  { unfold next_index. rewrite get_property_memory.
    destruct (memory (nm_property next_record_number) w) as [g|] eqn:Hm; [|done].
    by apply (ok_counter w Hw) in Hm as (m & _ & ->). }
  unfold reads, mbind at 1, eff_mbind at 1. rewrite Hv.
  destruct (next_index w >=? 2^31 - 1) eqn:Hov.
  - done.
  - unfold mbind, eff_mbind, lift. cbn [throw_if].
    rewrite set_next_record_number_run by done. by destruct (wd_records w).
Qed.

(** ** [store_and_reload_record] *)

(** A kind of record other than the master key and the counter. *)
Definition ordinary {T} (wrap : wallet_record T -> generic_wallet_record) (d : T) : Prop :=
  forall i, get_wallet_record_index (wrap (mk_record i d)) = i /\
            loadable (wrap (mk_record i d)) = true /\
            name_of (wrap (mk_record i d)) <> nm_master /\
            name_of (wrap (mk_record i d)) <> nm_property next_record_number.

(** The record is new, or replaces the one of its name. *)
Definition has_slot {T} (wrap : wallet_record T -> generic_wallet_record) (r : wallet_record T)
    (w : wallet_db) : Prop :=
  if wallet_record_index r =? 0
  then forall i, disk w !! i = None -> memory (name_of (wrap (mk_record i (wr_data r)))) w = None
  else exists g0, memory (name_of (wrap r)) w = Some g0 /\
                  get_wallet_record_index g0 = wallet_record_index r.

Lemma store_generic_run g w :
  loadable g = true -> get_wallet_record_index g <> 0 ->
  store_and_reload_generic_record g w
  = match wd_records w with
    | Some _ => (stored g w, Ok tt)
    | None => (w, Err assert_exception)
    end.
Proof.
  intros Hl Hi. unfold store_and_reload_generic_record, stored, disk, mbind, eff_mbind, reads.
  destruct (wd_records w) as [rs|]; cbn; [|done].
  unfold ensure, lift, fc_assert. rewrite (proj2 (Z.eqb_neq _ _) Hi). cbn.
  by rewrite load_generic.
Qed.

Lemma store_record_run `{!NoCollision} {T} (wrap : wallet_record T -> generic_wallet_record) r w w' res :
  wallet_ok w -> ordinary wrap (wr_data r) -> has_slot wrap r w ->
  store_and_reload_record wrap r w = (w', res) ->
  match res with
  | Ok r' => wr_data r' = wr_data r /\
             (wallet_record_index r <> 0 -> r' = r) /\
             (w' = stored (wrap r') w \/
              wallet_record_index r = 0 /\ wallet_record_index r' = next_index w /\
              w' = stored (wrap r') (bumped w)) /\
             wallet_ok w'
  | Err e => w' = w /\ (e = assert_exception \/ e = arithmetic_fault)
  end.
Proof.
  intros Hw Hk Hs. unfold store_and_reload_record, has_slot in *. destruct r as [i d].
  cbn [wallet_record_index wr_data] in *. destruct (Z.eqb_spec i 0) as [->|Hi].
  - unfold mbind, eff_mbind. rewrite new_wallet_record_index_run by done.
    destruct (next_index w >=? 2^31 - 1); [intros [= <- <-]; auto|].
    destruct (wd_records w) as [rs|] eqn:Hrs; [|intros [= <- <-]; auto].
    destruct (Hk (next_index w)) as (Hix & Hl & Hnm & Hnc). pose proof (next_index_ge w Hw) as Hge.
    set (r' := mk_record (next_index w) d) in *. unfold mret, eff_mret.
    rewrite store_generic_run by (done || lia). intros [= <- <-].
    split_and!; [done|done|by right|].
    pose proof (bumped_ok w Hw) as Hb.
    assert (Hfree : disk (bumped w) !! next_index w = None).
    { unfold bumped. rewrite disk_stored. rewrite lookup_insert_ne by (cbn; lia).
      apply eq_None_not_Some. intros [g Hg]. apply (ok_next w Hw) in Hg. lia. }
    apply stored_ok; try done.
    + split_and!; [lia|split; [lia|done]| |].
      * intros g0 Hg0. rewrite Hix, Hfree in Hg0. done.
      * intros g0. unfold bumped. rewrite memory_stored by done. rewrite decide_False by done.
        unfold r'. rewrite Hs; [done|]. apply eq_None_not_Some. intros [g Hg]. apply (ok_next w Hw) in Hg. lia.
    + intros j [g Hg]. rewrite next_index_stored, next_index_bumped by done.
      rewrite disk_stored in Hg. apply lookup_insert_Some in Hg as [[<- _]|[_ Hg]]; [lia|].
      apply (ok_next _ Hb) in Hg. rewrite next_index_bumped in Hg. lia.
    + lia.
  - destruct Hs as (g0 & Hm & Hg0). destruct (Hk i) as (Hix & Hl & Hnm & Hnc).
    unfold mret, eff_mret, mbind, eff_mbind. rewrite store_generic_run by (done || lia).
    destruct (wd_records w) as [rs|] eqn:Hrs; [|intros [= <- <-]; auto].
    intros [= <- <-]. split_and!; [done|done|by left|].
    assert (Hm0 := Hm). apply (ok_memory w Hw) in Hm0 as (Hn0 & Hl0 & Hd0). rewrite Hg0 in Hd0.
    apply stored_ok; try done.
    + split_and!; [lia| | |].
      * rewrite Hix, <- Hn0. by apply (ok_master w Hw).
      * intros g1. rewrite Hix, Hd0. by intros [= <-].
      * intros g1 Hg1. rewrite Hix. congruence.
    + intros j [g Hg]. rewrite next_index_stored by done. rewrite disk_stored in Hg.
      apply lookup_insert_Some in Hg as [[<- _]|[_ Hg]]; [|by apply (ok_next w Hw) in Hg].
      rewrite Hix. by apply (ok_next w Hw) in Hd0.
    + intros Hi1. rewrite <- Hn0. apply (ok_one w Hw). rewrite <- Hi1. by rewrite Hix.
Qed.

(** ** Keys that can be used *)

(** [r] holds the private key of its public key, under [password]. *)
Definition usable (password : Z) (k : key_data) : Prop :=
  exists key, decrypt_private_key password k = Ok key /\ public_key_of key = kd_public_key k.

(** Every key of [w] that can be used is one of [w'] that can be used. *)
Definition keys_kept (password : Z) (w w' : wallet_db) : Prop :=
  forall a r, wd_keys w !! a = Some r -> usable password (wr_data r) ->
  exists r', wd_keys w' !! a = Some r' /\ usable password (wr_data r').

#[global] Instance keys_kept_preorder password : PreOrder (keys_kept password).
Proof.
  split.
  - intros w a r Hr Hu. eauto.
  - intros w1 w2 w3 H12 H23 a r Hr Hu. destruct (H12 a r Hr Hu) as (r' & Hr' & Hu'). eauto.
Qed.

Lemma usable_ext password k k' :
  kd_encrypted_private_key k' = kd_encrypted_private_key k -> kd_public_key k' = kd_public_key k ->
  usable password k -> usable password k'.
Proof.
  intros He Hp (key & Hd & Hk). exists key. unfold decrypt_private_key in *. rewrite He, Hp. done.
Qed.

(** What [encrypt_private_key] returns can be used. *)
Lemma encrypted_usable password key k k' :
  encrypt_private_key password key k = Ok k' -> usable password k'.
Proof.
  unfold encrypt_private_key. intros Hr. repeat inv_ok_step.
  match goal with Hd : decrypt_private_key _ _ = Ok ?x, He : (_ =? ?x) = true |- _ =>
    apply Z.eqb_eq in He; subst; exists x; done end.
Qed.

Lemma encrypted_public password key k k' :
  encrypt_private_key password key k = Ok k' ->
  kd_public_key k' = public_key_of key /\ kd_account_address k' = kd_account_address k.
Proof. unfold encrypt_private_key. intros Hr. by repeat inv_ok_step. Qed.

(** Storing [k] does not cost the wallet a key. *)
Definition harmless (password : Z) (k : key_data) (w : wallet_db) : Prop :=
  forall r, wd_keys w !! get_address k = Some r -> usable password (wr_data r) -> usable password k.

Lemma keys_stored g w :
  wd_keys (stored g w)
  = match g with gr_key r => <[get_address (wr_data r) := r]> (wd_keys w) | _ => wd_keys w end.
Proof. by destruct g. Qed.

Lemma keys_kept_stored password g w :
  (forall r, g = gr_key r -> harmless password (wr_data r) w) -> keys_kept password w (stored g w).
Proof.
  intros Hg a r Hr Hu. rewrite keys_stored. destruct g as [?|?|rk|?|?|?|?]; eauto.
  destruct (decide (get_address (wr_data rk) = a)) as [<-|Hne].
  - rewrite lookup_insert_eq. exists rk. split; [done|]. by apply (Hg rk eq_refl r).
  - rewrite lookup_insert_ne by done. eauto.
Qed.

(** ** Looking up keys and accounts *)

Lemma key_in_memory w a r :
  wallet_ok w -> wd_keys w !! a = Some r -> get_address (wr_data r) = a.
Proof. intros Hw. apply (ok_addresses_ok w Hw). Qed.

Lemma account_in_memory w i r :
  wallet_ok w -> wd_accounts w !! i = Some r -> wallet_record_index r = i.
Proof.
  intros Hw Hr. assert (Hm : memory (nm_account i) w = Some (gr_account r)) by (cbn; by rewrite Hr).
  by apply (ok_memory w Hw) in Hm as ([= Hn] & _).
Qed.

Lemma key_at_found w a r :
  addresses_ok w ->
  key_at a w = Some r <-> exists b, wd_keys w !! b = Some r /\ a ∈ key_addresses (kd_public_key (wr_data r)).
Proof.
  intros [_ Hw]. unfold key_at. rewrite bind_Some. split.
  - intros (b & Hb & Hr). apply Hw in Hb as (r' & Hr' & Ha). simplify_eq. eauto.
  - intros (b & Hr & Ha). exists b. split; [|done]. apply Hw. eauto.
Qed.

Lemma key_at_spec w a r :
  wallet_ok w ->
  key_at a w = Some r <-> exists b, wd_keys w !! b = Some r /\ a ∈ key_addresses (kd_public_key (wr_data r)).
Proof. intros Hw. by apply key_at_found, ok_addresses_ok. Qed.

(** A key is found by its address. *)
Lemma key_at_address `{!NoCollision} w p :
  wallet_ok w -> key_at (address_of_key p) w = wd_keys w !! address_of_key p.
Proof.
  intros Hw. apply option_eq. intros r. rewrite key_at_spec by done. split.
  - intros (b & Hr & Ha). pose proof (key_in_memory w b r Hw Hr) as Hb.
    pose proof (no_collision _ p _ Ha ltac:(left)) as Hp. unfold get_address in Hb. congruence.
  - intros Hr. exists (address_of_key p). split; [done|].
    pose proof (key_in_memory w _ r Hw Hr) as Hb. unfold get_address in Hb. rewrite <- Hb. left.
Qed.

(** It has the public key it is looked up with. *)
Lemma key_at_public `{!NoCollision} w p r :
  wallet_ok w -> key_at (address_of_key p) w = Some r -> kd_public_key (wr_data r) = p.
Proof.
  intros Hw (b & Hr & Ha)%key_at_spec; [|done]. apply (no_collision _ _ _ Ha). left.
Qed.

Lemma ordinary_account d : ordinary gr_account d.
Proof. by intros i. Qed.
Lemma ordinary_key d : ordinary gr_key d.
Proof. by intros i. Qed.
Lemma ordinary_transaction d : ordinary gr_transaction d.
Proof. by intros i. Qed.
Lemma ordinary_setting d : ordinary gr_setting d.
Proof. by intros i. Qed.

(** The record found by an address, or a new one, has a slot. *)
Lemma account_slot w o a :
  wallet_ok w -> has_slot gr_account (mk_record (index_of (account_at o w)) a) w.
Proof.
  intros Hw. unfold has_slot. cbn [wallet_record_index wr_data].
  assert (Hnew : forall i, disk w !! i = None -> memory (nm_account i) w = None).
  { intros i Hi. apply eq_None_not_Some. intros [g Hg].
    assert (Hx := Hg). apply (ok_memory w Hw) in Hx as (Hn & _ & Hd).
    destruct g; try discriminate Hn. injection Hn as Hn. cbn in Hd. congruence. }
  destruct (account_at o w) as [r|] eqn:Hat; cbn; [|exact Hnew].
  destruct o as [i|]; [|done]. cbn in Hat. pose proof (account_in_memory w i r Hw Hat) as Hi.
  assert (Hm : memory (nm_account i) w = Some (gr_account r)) by (cbn; by rewrite Hat).
  apply (ok_memory w Hw) in Hm as (_ & _ & Hd). cbn in Hd.
  destruct (Z.eqb_spec (wallet_record_index r) 0) as [Hz|Hz].
  - apply (ok_disk w Hw) in Hd as [_ ?]. congruence.
  - exists (gr_account r). cbn. by rewrite Hi, Hat.
Qed.

Lemma key_slot `{!NoCollision} w k :
  wallet_ok w -> has_slot gr_key (mk_record (index_of (key_at (get_address k) w)) k) w.
Proof.
  intros Hw. unfold has_slot, get_address. cbn [wallet_record_index wr_data].
  rewrite key_at_address by done. cbn. unfold get_address.
  destruct (wd_keys w !! address_of_key (kd_public_key k)) as [r|] eqn:Hr; cbn; [|done].
  assert (Hm : memory (nm_key (address_of_key (kd_public_key k))) w = Some (gr_key r)) by (cbn; by rewrite Hr).
  apply (ok_memory w Hw) in Hm as (_ & _ & Hd). cbn in Hd.
  destruct (Z.eqb_spec (wallet_record_index r) 0) as [Hz|Hz].
  - apply (ok_disk w Hw) in Hd as [_ ?]. congruence.
  - exists (gr_key r). done.
Qed.

Lemma key_slot_found `{!NoCollision} w r d :
  wallet_ok w -> wd_keys w !! get_address d = Some r -> has_slot gr_key (set_data d r) w.
Proof.
  intros Hw Hr. pose proof (key_slot w d Hw) as Hs. unfold get_address in Hs, Hr.
  rewrite key_at_address, Hr in Hs by done. exact Hs.
Qed.

(** ** Storing accounts and keys *)

Section storing.
Context `{!NoCollision} (password : Z) (w0 : wallet_db).
#[local] Set Default Proof Using "All".

(** The records are in order and no key of [w0] has been lost. *)
Definition sound (w : wallet_db) : Prop := wallet_ok w /\ keys_kept password w0 w.

(** An exception leaves such a state too, and is not the recursion's end. *)
Definition fine (e : error) (w : wallet_db) : Prop := e <> stack_overflow /\ sound w.

(** The account record [r] is in memory, under the addresses of its keys and its
    name. *)
Definition owns (r : wallet_record account_data) (w : wallet_db) : Prop :=
  wd_accounts w !! wallet_record_index r = Some r /\
  (forall pk, pk ∈ account_keys (ad_account (wr_data r)) ->
   address_to_account w !! address_of_key pk = Some (wallet_record_index r)) /\
  name_to_account w !! ac_name (ad_account (wr_data r)) = Some (wallet_record_index r).

Lemma owns_stored r g w :
  (forall r', g <> gr_account r') -> owns r w -> owns r (stored g w).
Proof. intros Hg. destruct g; try done. by destruct (Hg r0). Qed.

Lemma owns_bumped r w : owns r w -> owns r (bumped w).
Proof. by apply owns_stored. Qed.

Lemma owns_loaded r w : owns r (stored (gr_account r) w).
Proof.
  split_and!; cbn -[index_all account_keys].
  - apply lookup_insert_eq.
  - intros pk Hpk. rewrite index_all_lookup. by rewrite decide_True by (by apply list_elem_of_fmap_2).
  - apply lookup_insert_eq.
Qed.

Lemma sound_bumped w : sound w -> sound (bumped w).
Proof.
  intros [Hw Hk]. split; [by apply bumped_ok|]. etrans; [exact Hk|].
  by apply keys_kept_stored.
Qed.

Lemma slot_owned r d w : wallet_ok w -> owns r w -> has_slot gr_account (set_data d r) w.
Proof.
  intros Hw [Hr _]. pose proof (account_slot w (Some (wallet_record_index r)) d Hw) as Hs.
  cbn [account_at mbind option_bind] in Hs. rewrite Hr in Hs. exact Hs.
Qed.

(** Storing an account record leaves the keys alone. *)
Lemma triple_store_account_record (P F : wallet_db -> Prop) r :
  (forall w, P w -> sound w /\ has_slot gr_account r w /\ F w) ->
  (forall g w, (forall r', g <> gr_key r') -> F w -> F (stored g w)) ->
  triple P (store_and_reload_record gr_account r)
    (on_result (fun r' w => sound w /\ F w /\ owns r' w /\ wr_data r' = wr_data r) fine).
Proof.
  intros HP HF w Hw. destruct (HP w Hw) as ([Hok Hk] & Hs & Hf).
  destruct (store_and_reload_record gr_account r w) as [w' res] eqn:Hrun.
  apply store_record_run in Hrun; [|done|apply ordinary_account|done]. destruct res as [r'|e]; cbn.
  - destruct Hrun as (Hd & _ & Hw' & Hok'). assert (keys_kept password w0 w') as Hk'.
    { destruct Hw' as [->|(_ & _ & ->)]; (etrans; [exact Hk|]); [by apply keys_kept_stored|].
      etrans; [by apply (keys_kept_stored password (counter (next_index w + 1)))|].
      by apply keys_kept_stored. }
    split_and!; [done..| | |done].
    + destruct Hw' as [->|(_ & _ & ->)]; [by apply HF|]. apply HF; [done|]. by apply HF.
    + destruct Hw' as [->|(_ & _ & ->)]; apply owns_loaded.
  - destruct Hrun as [-> [-> | ->]]; done.
Qed.

(** Storing a key record leaves the accounts alone. *)
Lemma triple_store_key_record (P F : wallet_db -> Prop) r :
  (forall w, P w -> sound w /\ has_slot gr_key r w /\ harmless password (wr_data r) w /\ F w) ->
  (forall g w, (forall r', g <> gr_account r') -> F w -> F (stored g w)) ->
  triple P (store_and_reload_record gr_key r)
    (on_result (fun r' w => sound w /\ F w /\ wr_data r' = wr_data r /\
                            wd_keys w !! get_address (wr_data r) = Some r') fine).
Proof.
  intros HP HF w Hw. destruct (HP w Hw) as ([Hok Hk] & Hs & Hh & Hf).
  destruct (store_and_reload_record gr_key r w) as [w' res] eqn:Hrun.
  apply store_record_run in Hrun; [|done|apply ordinary_key|done]. destruct res as [r'|e]; cbn.
  - destruct Hrun as (Hd & _ & Hw' & Hok'). assert (keys_kept password w0 w') as Hk'.
    { destruct Hw' as [->|(_ & _ & ->)]; (etrans; [exact Hk|]).
      - apply keys_kept_stored. intros ? [= <-]. by rewrite Hd.
      - etrans; [by apply (keys_kept_stored password (counter (next_index w + 1)))|].
        apply keys_kept_stored. intros ? [= <-]. by rewrite Hd. }
    split_and!; [done..| |done|].
    + destruct Hw' as [->|(_ & _ & ->)]; [by apply HF|]. apply HF; [done|]. by apply HF.
    + rewrite <- Hd. destruct Hw' as [->|(_ & _ & ->)]; apply lookup_insert_eq.
  - destruct Hrun as [-> [-> | ->]]; done.
Qed.

Lemma triple_read {A} (P : wallet_db -> Prop) (f : wallet_db -> result A) :
  (forall w, P w -> sound w) -> (forall w, f w <> Err stack_overflow) ->
  triple P (reads f) (on_result (fun a w => P w /\ f w = Ok a) fine).
Proof.
  intros HP Hf. apply triple_reads; [done|]. intros w e Hw He. split; [|by apply HP].
  intros ->. by apply (Hf w).
Qed.

Lemma triple_ensure (P : wallet_db -> Prop) c :
  (forall w, P w -> sound w) ->
  triple P (ensure c) (on_result (fun _ w => P w /\ c = true) fine).
Proof. intros HP w Hw. destruct c; cbn; [done|]. split; [done|by apply HP]. Qed.

Lemma triple_ensure_open (P : wallet_db -> Prop) :
  (forall w, P w -> sound w) ->
  triple P ensure_open (on_result (fun _ w => P w /\ is_open w = true) fine).
Proof.
  intros HP w Hw. unfold ensure_open, reads. destruct (is_open w) eqn:Ho; cbn; [by rewrite Ho|].
  split; [done|by apply HP].
Qed.

Lemma lookup_account_err a w : lookup_account a w <> Err stack_overflow.
Proof using Type. unfold lookup_account. by destruct (is_open w). Qed.
Lemma lookup_key_err a w : lookup_key a w <> Err stack_overflow.
Proof using Type. unfold lookup_key. by destruct (is_open w). Qed.

Lemma lookup_account_at a w o : lookup_account a w = Ok o -> o = account_at (address_to_account w !! a) w.
Proof using Type. unfold lookup_account. by intros ?; repeat inv_ok_step. Qed.
Lemma lookup_key_at a w o : lookup_key a w = Ok o -> o = key_at a w.
Proof using Type. unfold lookup_key. by intros ?; repeat inv_ok_step. Qed.

(** A key record with another account address is as usable as it was. *)
Lemma harmless_address k r addr w :
  wd_keys w !! get_address k = Some r -> wr_data r = k ->
  harmless password (set_kd_account_address addr k) w.
Proof.
  intros Hr Hk r' Hr' Hu. change (get_address (set_kd_account_address addr k)) with (get_address k) in Hr'.
  simplify_eq. by apply (usable_ext password (wr_data r)).
Qed.

(** [store_key] of a key that is not the wallet's own, or whose account is known to
    be. *)
Lemma triple_store_key_shallow (P : wallet_db -> Prop) n k ar :
  (forall w, P w -> sound w /\ harmless password k w /\ owns ar w) ->
  (has_private_key k = false \/
   ad_is_my_account (wr_data ar) = true /\ kd_public_key k ∈ account_keys (ad_account (wr_data ar))) ->
  triple P (store_key_n (S n) k) (on_result (fun _ w => sound w /\ owns ar w) fine).
Proof.
  intros HP Hk. cbn [store_key_n]. unfold settle_key.
  eapply triple_bind; [apply triple_ensure_open; intros w Hw; by apply HP in Hw as (? & _)|intros ?].
  eapply triple_bind; [apply triple_ensure; intros w [Hw _]; by apply HP in Hw as (? & _)|intros ?].
  eapply triple_bind.
  { apply triple_read; [intros w [[Hw _] _]; by apply HP in Hw as (? & _)|].
    intros w. apply lookup_key_err. }
  intros found. eapply triple_bind.
  { apply (triple_store_key_record _ (owns ar)); [|intros g w; apply owns_stored].
    intros w [[[Hw _] _] Hf%lookup_key_at]. destruct (HP w Hw) as ([Hok ?] & ? & ?).
    split_and!; try done. rewrite Hf. by apply key_slot. }
  intros r'. destruct Hk as [Hk|[Hmy Hin]].
  { intros w (Hs & Ho & Hd & _). cbn in Hd. rewrite Hd, Hk. cbn. done. }
  intros w (Hs & Ho & Hd & Hr'). cbn [wr_data] in *. destruct (has_private_key (wr_data r')); [|done].
  unfold mbind at 1, eff_mbind at 1, reads at 1. destruct (lookup_account _ w) as [o|e] eqn:Hl.
  2:{ split; [|done]. intros ->. by apply lookup_account_err in Hl. }
  apply lookup_account_at in Hl as ->. rewrite (proj1 (proj2 Ho) _ Hin). cbn [account_at mbind option_bind].
  rewrite (proj1 Ho). unfold mbind at 1, eff_mbind at 1, mret at 1, eff_mret at 1. rewrite Hmy.
  revert w Hs Ho Hr'. intros w Hs Ho Hr'.
  destruct (kd_account_address (wr_data r') =? owner_address (wr_data ar)); [done|].
  refine ((_ : triple (fun w => sound w /\ owns ar w /\ wd_keys w !! get_address k = Some r') _
                 (on_result (fun _ w => sound w /\ owns ar w) fine)) w (conj Hs (conj Ho Hr'))).
  eapply (triple_bind _ _ _ _ (fun _ w => sound w /\ owns ar w)); [|intros ?; by apply triple_ret].
  eapply triple_weaken; [| |apply (triple_store_key_record _ (owns ar))]; cbn.
  - intros w1 Hw1. exact Hw1.
  - intros ? w1 (? & ? & _). done.
  - intros w1 ([Hok ?] & Ho1 & Hk1). split_and!; [done..| | |done].
    + apply key_slot_found; [done|]. by rewrite Hd.
    + apply (harmless_address _ r'); [by rewrite Hd|done].
  - intros g w1. apply owns_stored.
Qed.

Lemma account_public_keys_elem a pk : pk ∈ account_public_keys a <-> pk ∈ account_keys a.
Proof using Type.
  unfold account_public_keys. by rewrite merge_sort_Permutation, elem_of_elements, elem_of_list_to_set.
Qed.

(** One key of the account the loop of [store_account] is at: the record it stores
    is [a], which may become the wallet's own. *)
Definition same_account (a a' : account_data) : Prop := set_ad_is_my_account a = set_ad_is_my_account a'.
Definition storing_account (a : account_data) (ar : wallet_record account_data) (w : wallet_db) : Prop :=
  sound w /\ owns ar w /\ same_account (wr_data ar) a.

Lemma same_account_record a a' : same_account a a' -> ad_account a = ad_account a'.
Proof using Type. unfold same_account, set_ad_is_my_account. congruence. Qed.

Lemma triple_own_account a pk kr ar :
  triple (fun w => storing_account a ar w /\ wd_keys w !! address_of_key pk = Some kr)
    (if ad_is_my_account (wr_data ar) then mret ar
     else store_and_reload_record gr_account (set_data (set_ad_is_my_account (wr_data ar)) ar))
    (on_result (fun ar w => storing_account a ar w /\ ad_is_my_account (wr_data ar) = true /\
                            wd_keys w !! address_of_key pk = Some kr) fine).
Proof.
  destruct (ad_is_my_account (wr_data ar)) eqn:Hmy; [apply triple_ret; tauto|].
  eapply triple_weaken; [| |apply (triple_store_account_record
    (fun w => storing_account a ar w /\ wd_keys w !! address_of_key pk = Some kr)
    (fun w => wd_keys w !! address_of_key pk = Some kr /\ same_account (wr_data ar) a))].
  - done.
  - intros ar' w1 (? & [? Ha] & ? & Hd). unfold storing_account. rewrite Hd. cbn. done.
  - intros w1 (([? ?] & ? & ?) & ?). split_and!; [done..| |done|done]. by apply slot_owned.
  - intros g w1 Hg [Hk ?]. rewrite keys_stored. destruct g; try done. by destruct (Hg r).
Qed.

Lemma triple_store_account_key n a ar pk :
  pk ∈ account_keys (ad_account a) ->
  triple (storing_account a ar) (store_account_key (store_key_n (S n)) ar pk)
    (on_result (storing_account a) fine).
Proof.
  intros Hpk. unfold store_account_key. eapply triple_bind.
  { apply triple_read; [by intros w [? _]|]. intros w. apply lookup_key_err. }
  intros [kr|].
  - destruct (has_private_key (wr_data kr)); [|apply triple_ret; by intros w [? _]].
    eapply triple_bind.
    { eapply triple_weaken; [| |apply (triple_own_account a pk kr)]; [|done].
      intros w (Hs & Hl%lookup_key_at). rewrite key_at_address in Hl by apply Hs. done. }
    intros ar'. eapply (triple_bind _ _ _ _ (fun _ => storing_account a ar')); [|intros ?; by apply triple_ret].
    destruct (_ =? _); [apply triple_ret; tauto|].
    intros w (Hs & Hmy & Hk). assert (Hpub : kd_public_key (wr_data kr) = pk).
    { apply (key_at_public w); [apply Hs|]. by rewrite key_at_address by apply Hs. }
    refine (_ w (conj Hs Hk)).
    eapply triple_weaken; [| |apply (triple_store_key_shallow
      (fun w => storing_account a ar' w /\ wd_keys w !! address_of_key pk = Some kr) n _ ar')].
    + done.
    + intros ? w1 [? ?]. split_and!; [done..|]. apply Hs.
    + intros w1 ((? & ? & ?) & ?). split_and!; [done..| |done]. apply (harmless_address _ kr); [|done].
      unfold get_address. by rewrite Hpub.
    + right. split; [done|]. cbn. rewrite Hpub. by rewrite (same_account_record _ a) by apply Hs.
  - eapply (triple_bind _ _ _ _ (fun _ => storing_account a ar)); [|intros ?; by apply triple_ret].
    intros w (Hs & Hl%lookup_key_at). rewrite key_at_address in Hl by apply Hs.
    refine (_ w (conj Hs (eq_sym Hl))).
    eapply triple_weaken; [| |apply (triple_store_key_shallow
      (fun w => storing_account a ar w /\ wd_keys w !! address_of_key pk = None) n _ ar)].
    + done.
    + intros ? w1 [? ?]. split_and!; [done..|]. apply Hs.
    + intros w1 ((? & ? & ?) & Hn). split_and!; [done..| |done]. intros r Hr.
      change (wd_keys w1 !! address_of_key pk = Some r) in Hr. congruence.
    + by left.
Qed.

Lemma triple_store_account_found (P : wallet_db -> Prop) n a :
  (forall w, P w -> sound w) ->
  triple P (store_account_n (S (S n)) a) (on_result (fun _ w => exists ar, storing_account a ar w) fine).
Proof.
  intros HP. cbn [store_account_n].
  eapply triple_bind; [by apply triple_ensure_open|intros ?].
  eapply triple_bind; [apply triple_ensure; intros w [Hw _]; by apply HP|intros ?].
  eapply triple_bind; [apply triple_ensure; intros w [[Hw _] _]; by apply HP|intros ?].
  eapply triple_bind.
  { apply triple_read; [intros w [[[Hw _] _] _]; by apply HP|]. intros w. apply lookup_account_err. }
  intros found. eapply triple_bind.
  { apply (triple_store_account_record _ (fun _ => True)); [|done].
    intros w [[[[Hw _] _] _] Hf%lookup_account_at]. destruct (HP w Hw) as [Hok ?].
    split_and!; [done..| |done]. rewrite Hf. by apply account_slot. }
  intros ar. eapply (triple_bind _ _ _ _ (storing_account a));
    [|intros ar'; apply triple_ret; by exists ar'].
  eapply triple_weaken; [| |apply (triple_fold _ (storing_account a))].
  - intros w (Hs & _ & Ho & Hd). split_and!; [done..|]. by rewrite Hd.
  - done.
  - intros ar' pk Hpk. apply triple_store_account_key. by apply account_public_keys_elem.
Qed.

Lemma triple_store_account_n (P : wallet_db -> Prop) n a :
  (forall w, P w -> sound w) ->
  triple P (store_account_n (S (S n)) a) (on_result (fun _ w => sound w) fine).
Proof.
  intros HP. apply (triple_weaken _ P P _ _ (fun _ w => exists ar, storing_account a ar w));
    [done|by intros ? w (? & ? & _)|by apply triple_store_account_found].
Qed.

(** Once a key record is stored. *)
Lemma triple_settle_key (P : wallet_db -> Prop) n k r' :
  (forall w, P w -> sound w /\ wr_data r' = k /\ wd_keys w !! get_address k = Some r') ->
  triple P (settle_key (store_account_n (S (S n))) k r') (on_result (fun _ w => sound w) fine).
Proof.
  intros HP. unfold settle_key.
  destruct (has_private_key (wr_data r')); [|apply triple_ret; apply HP].
  eapply triple_bind.
  { apply triple_read; [apply HP|]. intros w. apply lookup_account_err. }
  intros by_key. eapply (triple_bind _ _ _ _ (fun _ => P)).
  { destruct by_key; [apply triple_ret; tauto|]. eapply triple_weaken; [| |apply (triple_read P)].
    - tauto.
    - by intros o w [? _].
    - apply HP.
    - intros w. apply lookup_account_err. }
  intros [ar|]; [|apply triple_ret; apply HP].
  eapply (triple_bind _ _ _ _ (fun _ => sound)).
  { destruct (_ =? _); [apply triple_ret; apply HP|].
    eapply triple_weaken; [| |apply (triple_store_key_record P (fun _ => True))]; [done| | |done].
    - intros ? w [? _]. done.
    - intros w Hw. destruct (HP w Hw) as ([? ?] & Hd & Hr). split_and!; [done..| | |done].
      + apply key_slot_found; [done|]. by rewrite Hd.
      + apply (harmless_address _ r'); [by rewrite Hd|done]. }
  intros ?. destruct (ad_is_my_account (wr_data ar)); [by apply triple_ret|].
  by apply triple_store_account_n.
Qed.

(** [store_key] of any key that costs the wallet none. *)
Lemma triple_store_key_n (P : wallet_db -> Prop) n k :
  (forall w, P w -> sound w /\ harmless password k w) ->
  triple P (store_key_n (S (S (S n))) k) (on_result (fun _ w => sound w) fine).
Proof.
  intros HP. change (store_key_n (S (S (S n))) k) with
    (_ ← ensure_open; _ ← ensure (negb (kd_public_key k =? null_key));
     found ← reads (lookup_key (get_address k));
     key_record ← store_and_reload_record gr_key (mk_record (index_of found) k);
     settle_key (store_account_n (S (S n))) k key_record).
  eapply triple_bind; [apply triple_ensure_open; intros w Hw; by apply HP|intros ?].
  eapply triple_bind; [apply triple_ensure; intros w [Hw _]; by apply HP|intros ?].
  eapply triple_bind.
  { apply triple_read; [intros w [[Hw _] _]; by apply HP|]. intros w. apply lookup_key_err. }
  intros found. eapply triple_bind.
  { apply (triple_store_key_record _ (fun _ => True)); [|done].
    intros w [[[Hw _] _] Hf%lookup_key_at]. destruct (HP w Hw) as ([Hok ?] & ?).
    split_and!; try done. rewrite Hf. by apply key_slot. }
  intros r'. apply triple_settle_key. intros w (? & _ & ? & ?). done.
Qed.
End storing.
End facts.
