(* ===== verification/WalletSafety.v ===== *)
(** * WalletSafety: what the wallet's operations keep

    Every operation that stores or removes accounts, keys, properties, settings or
    transactions keeps the records in order and every usable key usable, whether or
    not it throws ([wallet_step], [wallet_step_sound]); the recursion of [store_key]
    and [store_account] ends ([store_recursion_ends]). *)
From S2P Require Import Prelude Config Fc Asset Records Eff WalletDb WalletFacts.
From stdpp Require Import sorting.
#[local] Open Scope Z_scope.

Section safety.
Context `{Crypto} `{WalletCrypto} `{!NoCollision}.
#[local] Set Default Proof Using "All".

Section ops.
Context (password : Z).

(** [m] keeps the wallet sound and does not recurse without end. *)
Definition safe {A} (P : wallet_db -> Prop) (m : eff wallet_db A) : Prop :=
  forall w0, triple (fun w => sound password w0 w /\ P w) m
               (on_result (fun _ w => sound password w0 w) (fine password w0)).


Lemma safe_store_account P a : safe P (store_account a).
Proof. intros w0. apply triple_store_account_n. by intros w [? _]. Qed.

Lemma safe_store_key (P : wallet_db -> Prop) k :
  (forall w, P w -> harmless password k w) -> safe P (store_key k).
Proof. intros HP w0. apply triple_store_key_n. intros w [? ?]. auto. Qed.

Lemma safe_bind {A B} (P : wallet_db -> Prop) (m : eff wallet_db A) (k : A -> eff wallet_db B) :
  safe P m -> (forall a, safe (fun _ => True) (k a)) -> safe P (m ≫= k).
Proof.
  intros Hm Hk w0. eapply triple_bind; [apply Hm|]. intros a. eapply triple_weaken; [| |apply Hk]; done.
Qed.

(** A step that only looks. *)
Lemma safe_reads {A B} (P : wallet_db -> Prop) (f : wallet_db -> result A) (k : A -> eff wallet_db B) :
  (forall w, f w <> Err stack_overflow) ->
  (forall a, safe (fun w => P w /\ f w = Ok a) (k a)) -> safe P (reads f ≫= k).
Proof.
  intros Hf Hk w0. eapply triple_bind; [apply triple_read; [by intros w [? _]|done]|].
  intros a. eapply triple_weaken; [| |apply Hk]; cbn; tauto.
Qed.

Lemma safe_lift {A B} (P : wallet_db -> Prop) (r : result A) (k : A -> eff wallet_db B) :
  r <> Err stack_overflow ->
  (forall a, r = Ok a -> safe P (k a)) -> safe P (lift r ≫= k).
Proof.
  intros Hr Hk w0 w [Hs HP]. unfold mbind, eff_mbind, lift. destruct r as [a|e].
  - by apply (Hk a eq_refl w0).
  - cbn. split; [congruence|done].
Qed.

Lemma safe_ensure {B} (P : wallet_db -> Prop) c (k : unit -> eff wallet_db B) :
  (c = true -> safe P (k tt)) -> safe P (ensure c ≫= k).
Proof.
  intros Hk. apply safe_lift; [by destruct c|]. intros [] Hc%fc_assert_Ok. by apply Hk.
Qed.

Lemma safe_ensure_open {B} (P : wallet_db -> Prop) (k : unit -> eff wallet_db B) :
  safe P (k tt) -> safe P (ensure_open ≫= k).
Proof.
  intros Hk. apply safe_reads; [intros w; by destruct (is_open w)|].
  intros [] w0. eapply triple_weaken; [| |apply Hk]; cbn; tauto.
Qed.

Lemma safe_ret {A} P (a : A) : safe P (mret a).
Proof. intros w0. apply triple_ret. by intros w [? _]. Qed.

Lemma decrypt_err pw k : decrypt_private_key pw k <> Err stack_overflow.
Proof using Type. unfold decrypt_private_key. destruct (pw =? 0); [done|]. cbn. by destruct (aes_decrypt _ _). Qed.

Lemma encrypt_err pw key k : encrypt_private_key pw key k <> Err stack_overflow.
Proof using Type.
  unfold encrypt_private_key. destruct (pw =? 0); [done|]. cbn -[decrypt_private_key].
  pose proof (decrypt_err pw (set_kd_private (public_key_of key) (aes_encrypt pw key) k)) as Hd.
  destruct (decrypt_private_key _ _) as [x|e]; cbn; [by destruct (key =? x)|congruence].
Qed.

Lemma decrypt_key_err pw m : decrypt_key pw m <> Err stack_overflow.
Proof using Type.
  unfold decrypt_key. destruct (pw =? 0), (mk_encrypted_key m); try done. cbn.
  by destruct (aes_decrypt _ _).
Qed.

Lemma bind_err {A B} (r : result A) (k : A -> result B) :
  r <> Err stack_overflow -> (forall a, k a <> Err stack_overflow) -> r ≫= k <> Err stack_overflow.
Proof using Type. intros Hr Hk. destruct r; cbn; [apply Hk|congruence]. Qed.

Lemma assert_err c : fc_assert c <> Err stack_overflow.
Proof using Type. by destruct c. Qed.
Lemma require_err {A} (o : option A) : require o assert_exception <> Err stack_overflow.
Proof using Type. by destruct o. Qed.

Lemma tries_err {A} (body : Z -> result (option A)) n i :
  (forall j, body j <> Err stack_overflow) -> tries body n i <> Err stack_overflow.
Proof using Type.
  intros Hb. revert i. induction n as [p IH|p IH|]; intros i; cbn.
  - apply bind_err; [apply Hb|]. intros [a|]; [done|]. apply bind_err; [apply IH|]. intros [a|j]; [done|apply IH].
  - apply bind_err; [apply IH|]. intros [a|j]; [done|apply IH].
  - apply bind_err; [apply Hb|done].
Qed.

Lemma upwards_err {A} (body : Z -> result (option A)) i :
  (forall j, body j <> Err stack_overflow) -> upwards body i <> Err stack_overflow.
Proof using Type.
  intros Hb. unfold upwards. destruct (_ <=? i); [done|]. apply bind_err; [by apply tries_err|].
  by intros [a|j].
Qed.

Lemma lookup_account_name_err a w : lookup_account_name a w <> Err stack_overflow.
Proof using Type. unfold lookup_account_name. by destruct (is_open w). Qed.
Lemma lookup_transaction_err a w : lookup_transaction a w <> Err stack_overflow.
Proof using Type. unfold lookup_transaction. by destruct (is_open w). Qed.
Lemma last_index_err w : get_last_wallet_child_key_index w <> Err stack_overflow.
Proof using Type. unfold get_last_wallet_child_key_index. by destruct (is_open w). Qed.
Lemma child_key_err k n w : get_account_child_key k n w <> Err stack_overflow.
Proof using Type. unfold get_account_child_key. by destruct (is_open w). Qed.
Lemma wallet_child_key_err n w : get_wallet_child_key password n w <> Err stack_overflow.
Proof using Type.
  apply bind_err; [apply assert_err|intros ?]. apply bind_err; [apply require_err|intros ?].
  apply bind_err; [apply decrypt_key_err|done].
Qed.
Lemma key_taken_err a w : key_taken a w <> Err stack_overflow.
Proof using Type. apply bind_err; [apply lookup_key_err|done]. Qed.
Lemma address_taken_err a w : address_taken a w <> Err stack_overflow.
Proof using Type. apply bind_err; [apply lookup_account_err|]. intros [?|]; [done|apply key_taken_err]. Qed.
Lemma account_key_pair_err w i : account_key_pair password w i <> Err stack_overflow.
Proof using Type.
  apply bind_err; [apply wallet_child_key_err|intros ?].
  apply bind_err; [apply address_taken_err|intros [|]; [done|]].
  apply bind_err; [apply child_key_err|intros ?]. by apply bind_err; [apply address_taken_err|].
Qed.
Lemma account_child_key_err k w i : account_child_key k w i <> Err stack_overflow.
Proof using Type. apply bind_err; [apply child_key_err|intros ?]. by apply bind_err; [apply key_taken_err|]. Qed.
Lemma set_active_key_err t k r : account_set_active_key t k r <> Err stack_overflow.
Proof using Type. by apply bind_err; [apply assert_err|]. Qed.

Create HintDb errs.
#[local] Hint Resolve decrypt_err encrypt_err decrypt_key_err assert_err require_err upwards_err
  lookup_account_err lookup_key_err lookup_account_name_err lookup_transaction_err last_index_err
  account_key_pair_err account_child_key_err set_active_key_err : errs.

#[local] Opaque store_account store_key.

(** Takes the steps that only look and check. *)
Ltac safe_looks :=
  repeat first
    [ apply safe_ensure_open
    | apply safe_ensure; intros ?
    | apply safe_lift; [by eauto with errs|intros ? ?]
    | apply safe_reads; [by eauto with errs|intros ?] ].

(** Storing an encrypted key costs no key. *)
Lemma safe_store_encrypted P key k k' :
  encrypt_private_key password key k = Ok k' -> safe P (store_key k').
Proof. intros Hk%encrypted_usable. apply safe_store_key. by intros w _ r _ _. Qed.

Lemma safe_add_contact_account P r v : safe P (add_contact_account r v).
Proof. unfold add_contact_account. safe_looks. apply safe_store_account. Qed.

Lemma safe_store_blockchain_account P r : safe P (store_blockchain_account r).
Proof. unfold store_blockchain_account. safe_looks. apply safe_store_account. Qed.

Lemma safe_import_key P name key move : safe P (import_key password name key move).
Proof.
  unfold import_key. safe_looks.
  match goal with |- safe _ (match ?o with _ => _ end ≫= ?k) => assert (Hk : forall a, safe (fun _ => True) (k a)) end.
  { intros ?. safe_looks. by eapply safe_store_encrypted. }
  case_match; [case_match|]; (apply safe_bind; [|exact Hk]); try apply safe_ret.
  intros w0 w1 [Hs _]. cbn. destruct (_ =? _); done.
Qed.

Lemma safe_generate_new_one_time_key P key : safe P (generate_new_one_time_key key password).
Proof.
  unfold generate_new_one_time_key. safe_looks.
  apply safe_bind; [by eapply safe_store_encrypted|intros ?; apply safe_ret].
Qed.

Lemma safe_cache_memo P memo key valid : safe P (cache_memo memo key valid password).
Proof.
  unfold cache_memo. safe_looks. apply safe_store_key. intros w _ r _ _.
  match goal with He : _ = Ok ?k |- _ => apply (usable_ext password k); [done..|] end.
  by eapply encrypted_usable.
Qed.

Lemma safe_generate_new_account_child_key P name :
  safe P (generate_new_account_child_key password name).
Proof.
  unfold generate_new_account_child_key. safe_looks. case_match. safe_looks.
  apply safe_bind; [apply safe_store_account|intros ?].
  apply safe_bind; [by eapply safe_store_encrypted|intros ?; apply safe_ret].
Qed.

(** ** Records that are not keys *)

Lemma safe_store_record {T} (wrap : wallet_record T -> generic_wallet_record) r P :
  ordinary wrap (wr_data r) -> (forall i k, wrap (mk_record i (wr_data r)) <> gr_key k) ->
  (forall w, P w -> wallet_ok w -> has_slot wrap r w) ->
  safe P (store_and_reload_record wrap r).
Proof.
  intros Ho Hk HP w0 w [[Hok Hkk] Hw]. specialize (HP w Hw Hok).
  destruct (store_and_reload_record wrap r w) as [w' res] eqn:Hrun.
  apply store_record_run in Hrun; [|done..]. destruct res as [r'|e]; cbn.
  - destruct Hrun as (Hd & _ & Hw' & Hok'). split; [done|]. etrans; [exact Hkk|].
    assert (Hg : forall k, wrap r' <> gr_key k) by (destruct r'; cbn in Hd; subst; apply Hk).
    destruct Hw' as [->|(_ & _ & ->)].
    + apply keys_kept_stored. intros k Hr'. by destruct (Hg k).
    + etrans; [by apply (keys_kept_stored password (counter (next_index w + 1)))|].
      apply keys_kept_stored. intros k Hr'. by destruct (Hg k).
  - destruct Hrun as [-> [-> | ->]]; done.
Qed.

(** A number taken first and used at once. *)
Lemma new_then_store {T A} (wrap : wallet_record T -> generic_wallet_record) d
    (k : wallet_record T -> eff wallet_db A) w :
  wallet_ok w ->
  ((new_wallet_record_index ≫= fun i => mret (mk_record i d)) ≫= fun r =>
     store_and_reload_record wrap r ≫= k) w
  = (store_and_reload_record wrap (mk_record 0 d) ≫= k) w.
Proof using Type.
  intros Hw. unfold store_and_reload_record, mbind, eff_mbind, mret, eff_mret.
  cbn [wallet_record_index Z.eqb]. rewrite !new_wallet_record_index_run by done.
  destruct (next_index w >=? 2^31 - 1); [done|]. destruct (wd_records w); [|done].
  pose proof (next_index_ge w Hw). cbn [wallet_record_index wr_data].
  by rewrite (proj2 (Z.eqb_neq (next_index w) 0)) by lia.
Qed.

Lemma property_slot w r d :
  wallet_ok w -> wd_properties w !! wp_key d = Some r -> has_slot gr_property (set_data d r) w.
Proof using Type.
  intros Hw Hr. assert (Hm : memory (nm_property (wp_key d)) w = Some (gr_property r)) by (cbn; by rewrite Hr).
  unfold has_slot. cbn [set_data wallet_record_index wr_data name_of].
  destruct (Z.eqb_spec (wallet_record_index r) 0) as [Hz|Hz].
  - apply (ok_memory w Hw) in Hm as (_ & _ & Hd). apply (ok_disk w Hw) in Hd as [_ Hn]. by destruct Hn.
  - exists (gr_property r). done.
Qed.

(** [set_property], but for the counter's. *)
Lemma safe_set_property P id v : id <> next_record_number -> safe P (set_property id v).
Proof.
  intros Hid. unfold set_property. apply safe_reads; [done|]. intros [r|].
  - intros w0 w [[Hok Hk] [_ [= Hr]]].
    assert (Hm : memory (nm_property id) w = Some (gr_property r)) by (cbn; by rewrite Hr).
    apply (ok_memory w Hok) in Hm as ([= Hid'] & _).
    unfold mbind at 1, eff_mbind at 1, mret at 1, eff_mret at 1.
    refine (safe_bind (fun w => wd_properties w !! id = Some r) _ _ _ (fun _ => safe_ret _ tt) w0 w _);
      [|done].
    apply safe_store_record; [by intros i; rewrite Hid'; split_and!; try done; intros [= ?]|done|].
    intros w1 Hr1 Hok1. apply property_slot; [done|]. cbn. by rewrite Hid'.
  - rewrite (proj2 (Z.eqb_neq _ _) Hid). intros w0 w [[Hok Hk] [_ [= Hr]]].
    rewrite new_then_store by done.
    refine (safe_bind (fun w => wd_properties w !! id = None) _ _ _ (fun _ => safe_ret _ tt) w0 w _);
      [|done].
    apply safe_store_record; [by intros i; split_and!; try done; intros [= ?]|done|].
    intros w1 Hr1 Hok1 i Hi. cbn. by rewrite Hr1.
Qed.

#[local] Opaque set_property.

Lemma safe_generate_new_account P clock name v :
  safe P (generate_new_account clock password name v).
Proof.
  unfold generate_new_account. safe_looks. do 2 case_match. safe_looks.
  apply safe_bind; [by eapply safe_store_encrypted|intros ?].
  apply safe_bind; [|intros ?].
  { unfold set_last_wallet_child_key_index. safe_looks. by apply safe_set_property. }
  apply safe_bind; [|intros ?].
  { apply safe_store_key. intros w _ r _ _.
    match goal with He : encrypt_private_key _ ?o _ = Ok ?k |- usable _ (mk_key_data _ (kd_public_key ?k) _ _ _ _) =>
      apply (usable_ext password k); [done..|] end.
    by eapply encrypted_usable. }
  apply safe_bind; [apply safe_store_account|intros ?; apply safe_ret].
Qed.

(** [store_transaction], when the record id is not the transaction id of another
    record. *)
Lemma safe_store_transaction (P : wallet_db -> Prop) t :
  (forall w, P w -> transaction_at (td_record_id t) w = wd_transactions w !! td_record_id t) ->
  safe P (store_transaction t).
Proof.
  intros HP. unfold store_transaction. safe_looks. intros w0 w [Hs [Hw Hf]].
  unfold lookup_transaction in Hf. repeat inv_ok_step.
  refine (safe_bind (fun w' => w' = w) _ _ _ (fun _ => safe_ret _ tt) w0 w _); [|done].
  apply safe_store_record; [apply ordinary_transaction|done|].
  intros w1 -> Hok. rewrite HP by done. unfold has_slot. cbn [wallet_record_index wr_data name_of].
  destruct (wd_transactions w !! td_record_id t) as [r|] eqn:Hr; cbn; [|by rewrite Hr].
  assert (Hm : memory (nm_transaction (td_record_id t)) w = Some (gr_transaction r)) by (cbn; by rewrite Hr).
  destruct (Z.eqb_spec (wallet_record_index r) 0) as [Hz|Hz].
  - apply (ok_memory w Hok) in Hm as (_ & _ & Hd). apply (ok_disk w Hok) in Hd as [_ Hn]. by destruct Hn.
  - exists (gr_transaction r). cbn. by rewrite Hr.
Qed.

(** Only the records, the store and the addresses of the keys matter. *)
Lemma wallet_ok_ext w w' :
  disk w' = disk w -> (forall nm, memory nm w' = memory nm w) ->
  btc_to_bts_address w' = btc_to_bts_address w -> wd_keys w' = wd_keys w ->
  wallet_ok w -> wallet_ok w'.
Proof using Type.
  intros Hd Hm Hb Hk Hw. assert (Hn : next_index w' = next_index w).
  { unfold next_index. by rewrite !get_property_memory, Hm. }
  constructor; intros *; rewrite ?Hd, ?Hm, ?Hb, ?Hk, ?Hn; apply Hw.
Qed.

Lemma sound_ext w0 w w' :
  disk w' = disk w -> (forall nm, memory nm w' = memory nm w) ->
  btc_to_bts_address w' = btc_to_bts_address w -> wd_keys w' = wd_keys w ->
  sound password w0 w -> sound password w0 w'.
Proof using Type.
  intros Hd Hm Hb Hk [Hw Hs]. split; [by apply (wallet_ok_ext w)|].
  intros a r Hr Hu. rewrite Hk. by apply (Hs a r).
Qed.

(** A record that replaces the one of its number, stored over a state whose maps
    already show it. *)
Lemma sound_stored w0 (g : generic_wallet_record) r w :
  sound password w0 w -> (forall k, g <> gr_key k) -> memory (name_of g) w = Some r ->
  get_wallet_record_index r = get_wallet_record_index g -> loadable g = true ->
  name_of g <> nm_property next_record_number -> sound password w0 (stored g w).
Proof.
  intros [Hw Hk] Hg Hm Hi Hl Hn. split.
  - assert (Hx := Hm). apply (ok_memory w Hw) in Hx as (Hnm & _ & Hd). rewrite Hi in Hd.
    apply stored_ok; try done.
    + split_and!.
      * by apply (ok_disk w Hw) in Hd as [_ ?].
      * rewrite <- Hnm. by apply (ok_master w Hw).
      * intros g0 Hg0. congruence.
      * intros g0 Hg0. congruence.
    + intros i [g0 Hg0]. rewrite next_index_stored by done. rewrite disk_stored in Hg0.
      apply lookup_insert_Some in Hg0 as [[<- _]|[_ Hg0]]; by eapply (ok_next w Hw).
    + intros H1i. rewrite <- Hnm. apply (ok_one w Hw). by rewrite <- H1i.
  - etrans; [exact Hk|]. apply keys_kept_stored. intros k ->. by destruct (Hg k).
Qed.

Lemma safe_rename_account P key name : safe P (rename_account key name).
Proof.
  unfold rename_account. intros w0 w [Hs _]. unfold mbind at 1, eff_mbind at 1, ensure_open, reads at 1.
  destruct (is_open w) eqn:Hopen; [|by cbn].
  unfold mbind at 1, eff_mbind at 1, reads at 1. destruct (lookup_account _ w) as [o|e] eqn:Hl.
  2:{ cbn. split; [|done]. intros ->. by apply lookup_account_err in Hl. }
  apply lookup_account_at in Hl. destruct o as [old|]; [|by cbn]. cbn [fc_assert throw_if negb].
  unfold mbind at 1, eff_mbind at 1, lift, require. symmetry in Hl.
  apply bind_Some in Hl as (i & _ & Hi). assert (Hix : wallet_record_index old = i)
    by (by apply (account_in_memory w); [apply Hs|]).
  set (acct := mk_record _ _). unfold mbind, eff_mbind at 1, update. unfold eff_mbind.
  unfold store_and_reload_record, mbind, eff_mbind. assert (Hz : i <> 0).
  { assert (Hm : memory (nm_account i) w = Some (gr_account old)) by (cbn; by rewrite Hi).
    apply (ok_memory w (proj1 Hs)) in Hm as (_ & _ & Hd). cbn in Hd. rewrite Hix in Hd.
    by apply (ok_disk w (proj1 Hs)) in Hd as [_ ?]. }
  replace (wallet_record_index acct =? 0) with false by (cbn; rewrite Hix; symmetry; by apply Z.eqb_neq).
  unfold mret, eff_mret. rewrite store_generic_run by (cbn; congruence).
  match goal with |- context [wd_records ?w1] => set (w1' := w1) end.
  assert (Hrs : exists rs, wd_records w1' = Some rs).
  { unfold is_open in Hopen. apply andb_true_iff in Hopen as [Hr%bool_decide_eq_true _]. exact Hr. }
  destruct Hrs as [rs ->]. cbn [on_result].
  eapply (sound_ext _ (stored (gr_account acct) w)).
  - by rewrite !disk_stored.
  - intros nm. rewrite !memory_stored by done. case_decide as Hnm; [done|].
    destruct nm as [|j|?|?|?|?|]; try done. cbn. rewrite lookup_insert_ne; [done|].
    intros <-. by destruct Hnm.
  - done.
  - done.
  - apply (sound_stored _ _ (gr_account old)); try done. cbn. by rewrite Hix, Hi.
Qed.

(** A setting shown in the maps before it goes to disk. *)
Lemma setting_shown w name (r : wallet_record setting) :
  st_name (wr_data r) = name ->
  stored (gr_setting r) (set_settings (<[name := r]> (wd_settings w)) w) = stored (gr_setting r) w.
Proof using Type. intros <-. cbn. unfold load_setting_record. cbn. by rewrite insert_insert_eq. Qed.

Lemma disk_open w i g : disk w !! i = Some g -> exists rs, wd_records w = Some rs.
Proof using Type. unfold disk. destruct (wd_records w); cbn; [eauto|]. by rewrite lookup_empty. Qed.

Lemma setting_in_memory w name r :
  wallet_ok w -> wd_settings w !! name = Some r ->
  st_name (wr_data r) = name /\ wallet_record_index r <> 0 /\ exists rs, wd_records w = Some rs.
Proof using Type.
  intros Hw Hr. assert (Hm : memory (nm_setting name) w = Some (gr_setting r)) by (cbn; by rewrite Hr).
  apply (ok_memory w Hw) in Hm as ([= Hn] & _ & Hd). split_and!; [done| |by eapply disk_open].
  by apply (ok_disk w Hw) in Hd as [_ ?].
Qed.

Lemma store_setting_run w name v :
  wallet_ok w ->
  store_setting name v w
  = (store_and_reload_record gr_setting
       (mk_record (index_of (wd_settings w !! name)) (mk_setting name v)) ≫= fun _ => mret tt) w.
Proof using Type.
  intros Hw. unfold store_setting, reads, lookup_setting, mbind, eff_mbind.
  destruct (wd_settings w !! name) as [r|] eqn:Hr; cbn [index_of from_option].
  - destruct (setting_in_memory w name r Hw Hr) as (Hn & Hz & rs & Hrs).
    unfold set_data, store_and_reload_record, mret, eff_mret, update, mbind, eff_mbind.
    cbn [wallet_record_index]. rewrite (proj2 (Z.eqb_neq _ _) Hz), Hn. unfold mret, eff_mret.
    rewrite !store_generic_run by done. cbn [wd_records set_settings]. rewrite Hrs.
    by rewrite setting_shown.
  - unfold store_and_reload_record, mbind, eff_mbind, mret, eff_mret, update.
    cbn [wallet_record_index Z.eqb]. rewrite !new_wallet_record_index_run by done.
    destruct (next_index w >=? 2^31 - 1); [done|]. destruct (wd_records w) as [rs|] eqn:Hrs; [|done].
    pose proof (next_index_ge w Hw). cbn [wallet_record_index wr_data].
    rewrite (proj2 (Z.eqb_neq (next_index w) 0)) by lia.
    rewrite !store_generic_run by (cbn; done || lia). cbn [wd_records set_settings].
    destruct (wd_records (bumped w)) eqn:Hb; [|done]. by rewrite setting_shown.
Qed.

Lemma safe_store_setting P name v : safe P (store_setting name v).
Proof.
  intros w0 w [Hs _]. rewrite store_setting_run by apply Hs.
  refine (safe_bind (fun w' => w' = w) _ _ _ (fun _ => safe_ret _ tt) w0 w _); [|done].
  apply safe_store_record; [apply ordinary_setting|done|]. intros w1 -> Hw. unfold has_slot.
  cbn [wallet_record_index wr_data name_of st_name].
  destruct (wd_settings w !! name) as [r|] eqn:Hr; cbn; [|by rewrite Hr].
  destruct (setting_in_memory w name r Hw Hr) as (_ & Hz & _). rewrite (proj2 (Z.eqb_neq _ _) Hz).
  exists (gr_setting r). by rewrite Hr.
Qed.

(** [set_master_key], in its place. *)
Lemma safe_set_master_key P key new_password : safe P (set_master_key key new_password).
Proof.
  unfold set_master_key. apply safe_lift.
  { unfold encrypt_key. destruct (new_password =? 0); [done|]. cbn -[decrypt_key].
    apply bind_err; [apply decrypt_key_err|]. intros k. by destruct (k =? key). }
  intros m _ w0 w [[Hw Hk] _]. unfold store_and_reload_record, mbind, eff_mbind, mret, eff_mret.
  cbn [wallet_record_index Z.eqb]. rewrite store_generic_run by done.
  destruct (wd_records w) as [rs|]; [|done]. cbn [on_result]. split.
  - apply stored_ok; try done.
    + split_and!; [done..| |].
      * intros g0 Hg0. by apply (ok_master w Hw (-1) g0).
      * intros g0 Hg0. apply (ok_memory w Hw) in Hg0 as (Hn & _ & Hd). cbn.
        by apply (ok_master w Hw _ g0).
    + intros i [g Hg]. rewrite next_index_stored by done. rewrite disk_stored in Hg.
      pose proof (next_index_ge w Hw).
      apply lookup_insert_Some in Hg as [[<- _]|[_ Hg]]; [cbn; lia|]. by eapply (ok_next w Hw).
  - etrans; [exact Hk|]. by apply keys_kept_stored.
Qed.

(** Removing a contact takes its account out of the maps only. *)
Lemma contact_removed_ok accounts by_address by_name by_id w :
  (forall i r, accounts !! i = Some r -> wd_accounts w !! i = Some r) -> wallet_ok w ->
  wallet_ok (set_accounts accounts by_address by_name by_id w).
Proof using Type.
  intros Ha Hw. constructor; try apply Hw.
  - intros nm g Hm. apply (ok_memory w Hw). destruct nm as [|i|?|?|?|?|]; try done. cbn in Hm |- *.
    destruct (accounts !! i) as [r|] eqn:Hr; [|done]. by rewrite (Ha i r Hr).
  - intros i g Hg Hl Hc. apply (ok_loaded w Hw) in Hg; [|done..]. by destruct g.
Qed.

Lemma safe_remove_contact_account P name : safe P (remove_contact_account name).
Proof.
  unfold remove_contact_account. safe_looks. intros w0 w [[Hw Hk] _]. cbn. split; [|done].
  apply contact_removed_ok; [|done]. by intros i r [_ ?]%lookup_delete_Some.
Qed.

(** A transaction that goes from the disk and from the maps. *)
Lemma transaction_removed_ok id r w :
  wallet_ok w -> wd_transactions w !! id = Some r ->
  wallet_ok (set_transactions (delete id (wd_transactions w)) (id_to_transaction w)
               (set_wd_records (delete (wallet_record_index r) (disk w)) w)).
Proof using Type.
  intros Hw Hr. assert (Hm : memory (nm_transaction id) w = Some (gr_transaction r)) by (cbn; by rewrite Hr).
  assert (Hx := Hm). apply (ok_memory w Hw) in Hx as ([= Hid] & _ & Hd). cbn in Hd.
  set (w' := set_transactions _ _ _).
  assert (Hdisk : disk w' = delete (wallet_record_index r) (disk w)) by done.
  assert (Hmem : forall nm, nm <> nm_transaction id -> memory nm w' = memory nm w).
  { intros [|?|?|j|?|?|] Hne; try done. cbn. rewrite lookup_delete_ne; [done|congruence]. }
  assert (Hgone : memory (nm_transaction id) w' = None) by (cbn; by rewrite lookup_delete_eq).
  assert (Hin : forall i g, disk w' !! i = Some g -> disk w !! i = Some g)
    by (intros i g; rewrite Hdisk; by intros [_ ?]%lookup_delete_Some).
  assert (Hnext : next_index w' = next_index w) by done.
  constructor.
  - intros i g Hg%Hin. by apply (ok_disk w Hw).
  - intros nm g Hg. assert (Hne : nm <> nm_transaction id) by (intros ->; congruence).
    rewrite Hmem in Hg by done. apply (ok_memory w Hw) in Hg as (Hn & Hl & Hg). split_and!; [done..|].
    rewrite Hdisk, lookup_delete_ne; [done|]. intros Hi. rewrite Hi, Hg in Hd. injection Hd as ->.
    apply Hne. rewrite <- Hn. cbn. congruence.
  - intros i g Hg. rewrite Hdisk in Hg. apply lookup_delete_Some in Hg as [Hi Hg]. intros Hl Ha. destruct (ok_disk w Hw i g Hg) as [Hig _].
    apply (ok_loaded w Hw) in Hg; [|done..]. rewrite Hmem; [done|]. intros Hn. rewrite Hn, Hm in Hg.
    injection Hg as <-. by apply Hi.
  - intros i g Hg%Hin. rewrite Hnext. by eapply (ok_next w Hw).
  - intros g Hg. apply (ok_counter w Hw). by rewrite Hmem in Hg.
  - intros g Hg%Hin. by apply (ok_one w Hw).
  - intros i g Hg%Hin. by apply (ok_master w Hw).
  - apply (ok_addresses w Hw).
Qed.

(** [remove_transaction], by the id its record is filed under. *)
Lemma safe_remove_transaction (P : wallet_db -> Prop) id :
  (forall w, P w -> transaction_at id w = wd_transactions w !! id) -> safe P (remove_transaction id).
Proof.
  intros HP. unfold remove_transaction. safe_looks.
  match goal with |- safe _ (match ?o with _ => _ end) => destruct o as [r|]; [|apply safe_ret] end.
  intros w0 w [[Hw Hk] [Hp Hf]]. unfold lookup_transaction in Hf. repeat inv_ok_step.
  match goal with Ht : transaction_at _ _ = Some _ |- _ => rewrite HP in Ht by done; rename Ht into Hr end.
  unfold remove_item, mbind, eff_mbind, reads, update.
  destruct (wd_records w) as [rs|] eqn:Hrs; [|by cbn]. cbn [require on_result].
  pose proof (transaction_removed_ok id _ w Hw Hr) as Hok. unfold disk in Hok. rewrite Hrs in Hok. by split.
Qed.
End ops.

(** ** Every run of the wallet *)

(** The operations of an open wallet whose keys are encrypted under [password], with
    the state each leaves behind, exceptions included.  A key given to [store_key]
    must not replace a usable one by one that is not; a transaction is stored and
    removed under the id it is filed under ([remove_transaction] by another id
    leaves the record in the maps); [set_property] does not write the counter of
    record numbers.  [repair_records], for a file whose records are not in order, is
    not among them. *)
Inductive wallet_step (password : Z) (w w' : wallet_db) : Prop :=
| step_store_account a r : store_account a w = (w', r) -> wallet_step password w w'
| step_store_blockchain_account a r : store_blockchain_account a w = (w', r) -> wallet_step password w w'
| step_add_contact_account a v r : add_contact_account a v w = (w', r) -> wallet_step password w w'
| step_rename_account key name r : rename_account key name w = (w', r) -> wallet_step password w w'
| step_store_key k r : harmless password k w -> store_key k w = (w', r) -> wallet_step password w w'
| step_import_key name key move r :
    import_key password name key move w = (w', r) -> wallet_step password w w'
| step_generate_new_account clock name v r :
    generate_new_account clock password name v w = (w', r) -> wallet_step password w w'
| step_generate_new_account_child_key name r :
    generate_new_account_child_key password name w = (w', r) -> wallet_step password w w'
| step_generate_new_one_time_key key r :
    generate_new_one_time_key key password w = (w', r) -> wallet_step password w w'
| step_cache_memo memo key valid r : cache_memo memo key valid password w = (w', r) -> wallet_step password w w'
| step_set_property id v r :
    id <> next_record_number -> set_property id v w = (w', r) -> wallet_step password w w'
| step_store_setting name v r : store_setting name v w = (w', r) -> wallet_step password w w'
| step_store_transaction t r :
    transaction_at (td_record_id t) w = wd_transactions w !! td_record_id t ->
    store_transaction t w = (w', r) -> wallet_step password w w'
| step_remove_contact_account name r :
    remove_contact_account name w = (w', r) -> wallet_step password w w'
| step_remove_transaction id r :
    transaction_at id w = wd_transactions w !! id ->
    remove_transaction id w = (w', r) -> wallet_step password w w'
| step_set_master_key key new_password r :
    set_master_key key new_password w = (w', r) -> wallet_step password w w'.

(** One application of a safe operation. *)
Lemma safe_run {A} password P (m : eff wallet_db A) w w' r :
  safe password P m -> P w -> m w = (w', r) -> wallet_ok w ->
  wallet_ok w' /\ keys_kept password w w' /\ r <> Err stack_overflow.
Proof.
  intros Hm HP Hrun Hw. specialize (Hm w w (conj (conj Hw (reflexivity w)) HP)). rewrite Hrun in Hm.
  destruct r as [a|e]; cbn in Hm; [by destruct Hm|]. destruct Hm as (He & ? & ?). split_and!; [done..|].
  congruence.
Qed.

Lemma wallet_step_sound password w w' :
  wallet_step password w w' -> wallet_ok w -> wallet_ok w' /\ keys_kept password w w'.
Proof.
  assert (Hrun : forall A (P : wallet_db -> Prop) (m : eff wallet_db A) r,
    safe password P m -> P w -> m w = (w', r) -> wallet_ok w -> wallet_ok w' /\ keys_kept password w w').
  { intros A P m r Hm HP Hr Hw. destruct (safe_run password P m w w' r Hm HP Hr Hw) as (? & ? & _). done. }
  intros []; try (eapply (Hrun _ (fun _ => True)); [|done..]; solve [
    eauto using safe_store_account, safe_store_blockchain_account, safe_add_contact_account,
      safe_rename_account, safe_import_key, safe_generate_new_account,
      safe_generate_new_account_child_key, safe_generate_new_one_time_key, safe_cache_memo,
      safe_set_property, safe_store_setting, safe_remove_contact_account, safe_set_master_key]).
  - eapply (Hrun _ (harmless password k)); [apply safe_store_key|done..]. done.
  - eapply (Hrun _ (fun w => transaction_at (td_record_id t) w = wd_transactions w !! td_record_id t));
      [by apply safe_store_transaction|done..].
  - eapply (Hrun _ (fun w => transaction_at id w = wd_transactions w !! id));
      [by apply safe_remove_transaction|done..].
Qed.

(** [store_key] and [store_account], which call each other, end: neither recurses
    more than three calls deep, whatever the account and the key. *)
Theorem store_recursion_ends w a k :
  wallet_ok w ->
  (store_account a w).2 <> Err stack_overflow /\ (store_key k w).2 <> Err stack_overflow.
Proof.
  intros Hw. split.
  - destruct (store_account a w) as [w' r] eqn:Hr.
    by destruct (safe_run 0 (fun _ => True) _ w w' r (safe_store_account 0 _ a) I Hr Hw) as (_ & _ & ?).
  - destruct (store_key k w) as [w' r] eqn:Hr.
    assert (Hh : safe 0 (fun _ => True) (store_key k))
      by (apply safe_store_key; intros w1 _ r1 _ (key & Hd & _); discriminate Hd).
    by destruct (safe_run 0 (fun _ => True) _ w w' r Hh I Hr Hw) as (_ & _ & ?).
Qed.
End safety.
