(* ===== verification/WalletReopen.v ===== *)
(** * WalletReopen: closing and opening the wallet, finding keys, changing the
      password

    What a wallet file holds is what the wallet shows once it is opened again, under
    what it is looked up with ([reopen_restores]); no usable key is lost through
    operations, reopening and changes of password ([wallet_keeps_keys]); a key that was stored is found by any of its addresses
    ([stored_key_found]); the key generated for an account is the first unused one
    ([child_key_fresh]); a change of password keeps the private keys
    ([change_password_kept]); a removed contact is still on disk
    ([removed_contact_returns]). *)
From S2P Require Import Prelude Config Fc Asset Records Eff WalletDb WalletFacts WalletSafety.
From stdpp Require Import sorting.
#[local] Open Scope Z_scope.

Section reopen.
Context `{Crypto} `{WalletCrypto} `{!NoCollision}.
#[local] Set Default Proof Using "All".

(** ** Loading the records of a file *)

Definition load_all (l : list generic_wallet_record) (w : wallet_db) : wallet_db :=
  foldl (fun w g => loaded g w) w l.

Lemma ignoring_load g w : ignoring (load_generic_record g) w = (loaded g w, Ok tt).
Proof using Type. by destruct g as [?|?|?|?|?|?|i []]. Qed.

Lemma load_each l w :
  eff_each (fun ir : Z * generic_wallet_record => ignoring (load_generic_record ir.2)) l w
  = (load_all l.*2 w, Ok tt).
Proof using Type.
  revert w. induction l as [|[i g] l IH]; intros w; cbn; [done|].
  unfold eff_each. cbn [eff_fold]. unfold mbind, eff_mbind. rewrite ignoring_load. apply IH.
Qed.

(** No two records have the same name. *)
Definition named_apart (l : list generic_wallet_record) : Prop :=
  forall g g', g ∈ l -> g' ∈ l -> loadable g = true -> loadable g' = true ->
  name_of g = name_of g' -> g = g'.

Lemma memory_load_all l w nm :
  named_apart l ->
  (forall g, g ∈ l -> loadable g = true -> name_of g = nm -> memory nm (load_all l w) = Some g) /\
  ((forall g, g ∈ l -> loadable g = true -> name_of g <> nm) -> memory nm (load_all l w) = memory nm w).
Proof using Type.
  revert w. induction l as [|g l IH]; intros w Hl; [split; [intros g Hg; by apply elem_of_nil in Hg|done]|].
  assert (Hl' : named_apart l) by (intros g1 g2 ? ?; apply Hl; by right).
  destruct (IH (loaded g w) Hl') as [IHin IHout].
  change (load_all (g :: l) w) with (load_all l (loaded g w)). split.
  - intros g0 Hg0 Hld Hn. destruct (decide (Exists (fun g1 => loadable g1 = true /\ name_of g1 = nm) l)) as [He|He].
    + apply Exists_exists in He as (g1 & Hg1 & Hld1 & Hn1).
      rewrite (Hl g0 g1); [by apply IHin|done|by right|done..|congruence].
    + rewrite IHout.
      * apply elem_of_cons in Hg0 as [->|Hg0].
        -- rewrite memory_loaded by done. by rewrite decide_True.
        -- destruct He. apply Exists_exists. eauto.
      * intros g1 Hg1 Hld1 Hn1. apply He, Exists_exists. eauto.
  - intros Hno. rewrite IHout; [|intros g1 Hg1; apply Hno; by right].
    destruct (loadable g) eqn:Hld; [|by destruct g].
    rewrite memory_loaded by done. rewrite decide_False; [done|].
    intros ->. by apply (Hno g); [left|..].
Qed.

Lemma addresses_load_all l w : addresses_ok w -> addresses_ok (load_all l w).
Proof.
  revert w. induction l as [|g l IH]; intros w Hw; [done|]. apply IH. by apply addresses_loaded.
Qed.

Lemma disk_load_all l w : disk (load_all l w) = disk w.
Proof using Type.
  revert w. induction l as [|g l IH]; intros w; [done|].
  change (load_all (g :: l) w) with (load_all l (loaded g w)). rewrite IH. by destruct g.
Qed.

Lemma records_elem (rs : gmap Z generic_wallet_record) g :
  g ∈ (records_in_order rs).*2 <-> exists i, rs !! i = Some g.
Proof using Type.
  unfold records_in_order. rewrite list_elem_of_fmap. split.
  - intros ([i g'] & -> & Hin). rewrite merge_sort_Permutation in Hin.
    apply elem_of_map_to_list in Hin. eauto.
  - intros [i Hi]. exists (i, g). split; [done|]. rewrite merge_sort_Permutation.
    by apply elem_of_map_to_list.
Qed.

(** The records of a wallet in order are named apart. *)
Lemma disk_named_apart w : wallet_ok w -> named_apart (records_in_order (disk w)).*2.
Proof using Type.
  intros Hw g g' [i Hi]%records_elem [i' Hi']%records_elem Hl Hl' Hn.
  by destruct (one_per_name w i g i' g' Hw Hi Hi' Hl Hl' Hn).
Qed.

(** The wallet that opening the file of [w] gives. *)
Definition reopened (w : wallet_db) : wallet_db :=
  load_all (records_in_order (disk w)).*2 (set_wd_records (disk w) close).

Lemma open_run w : open (disk w) close = (reopened w, Ok tt).
Proof using Type. unfold open, mbind, eff_mbind, update. by rewrite load_each. Qed.

(** It shows every record of the file that loads. *)
Lemma memory_reopened w w1 nm g :
  wallet_ok w -> disk w1 = disk w ->
  memory nm (reopened w1) = Some g <->
  name_of g = nm /\ loadable g = true /\ disk w !! get_wallet_record_index g = Some g.
Proof using Type.
  intros Hw Hd. unfold reopened. rewrite Hd.
  destruct (memory_load_all (records_in_order (disk w)).*2 (set_wd_records (disk w) close) nm
              (disk_named_apart w Hw)) as [Hin Hout].
  split.
  - intros Hg. destruct (decide (Exists (fun g1 => loadable g1 = true /\ name_of g1 = nm)
                                   (records_in_order (disk w)).*2)) as [He|He].
    + apply Exists_exists in He as (g1 & Hg1 & Hl1 & Hn1). rewrite (Hin g1 Hg1 Hl1 Hn1) in Hg.
      injection Hg as ->. apply records_elem in Hg1 as [i Hi]. split_and!; [done..|].
      by destruct (ok_disk w Hw i g Hi) as [-> _].
    + rewrite Hout in Hg; [by destruct nm|]. intros g1 Hg1 Hl1 Hn1. apply He, Exists_exists. eauto.
  - intros (Hn & Hl & Hdg). apply Hin; [|done..]. apply records_elem. eauto.
Qed.

(** What is in memory before is in memory after, and apart from accounts that had
    been removed the other way round. *)
Lemma memory_kept w nm g : wallet_ok w -> memory nm w = Some g -> memory nm (reopened w) = Some g.
Proof using Type. intros Hw Hg. apply (memory_reopened w w); [done..|]. by apply (ok_memory w Hw). Qed.

Lemma memory_back w nm :
  wallet_ok w -> (complete w \/ forall i, nm <> nm_account i) -> memory nm (reopened w) = memory nm w.
Proof using Type.
  intros Hw Hc. apply option_eq. intros g. split; [|by apply memory_kept].
  intros (<- & Hl & Hd)%(memory_reopened w w); [|done..].
  destruct (is_account g) eqn:Ha; [|by eapply (ok_loaded w Hw)].
  destruct g as [|r| | | | |]; try done. destruct Hc as [Hc|Hc]; [|by destruct (Hc (wallet_record_index r))].
  cbn in Hd |- *. by rewrite (Hc _ _ Hd).
Qed.

Lemma keys_reopened w : wallet_ok w -> wd_keys (reopened w) = wd_keys w.
Proof using Type.
  intros Hw. apply map_eq. intros a. assert (Hm : memory (nm_key a) (reopened w) = memory (nm_key a) w)
    by (apply memory_back; [done|by right]).
  cbn in Hm. destruct (wd_keys (reopened w) !! a), (wd_keys w !! a); simplify_eq/=; congruence.
Qed.

Lemma disk_reopened w : disk (reopened w) = disk w.
Proof using Type. unfold reopened. by rewrite disk_load_all. Qed.

Lemma reopened_ok w : wallet_ok w -> wallet_ok (reopened w) /\ complete (reopened w).
Proof.
  intros Hw. pose proof (disk_reopened w) as Hd.
  assert (Hm := fun nm g => memory_reopened w w nm g Hw eq_refl).
  assert (Hp : forall id, memory (nm_property id) (reopened w) = memory (nm_property id) w)
    by (intros id; apply memory_back; [done|by right]).
  assert (Hn : next_index (reopened w) = next_index w).
  { unfold next_index. by rewrite !get_property_memory, Hp. }
  assert (Ha : addresses_ok (reopened w)).
  { apply addresses_load_all. split; intros *; cbn; rewrite ?lookup_empty; [done|].
    split; [done|]. by intros (? & ? & _). }
  split.
  - constructor; intros *; rewrite ?Hd, ?Hn, ?Hp; try apply Hw; [by intros ?%Hm| |apply Ha].
    intros Hg Hl _. apply Hm. destruct (ok_disk w Hw _ _ Hg) as [Hi _]. by rewrite Hi.
  - intros i r Hr. rewrite Hd in Hr. destruct (ok_disk w Hw _ _ Hr) as [Hi _]. cbn in Hi.
    assert (Hx : memory (nm_account i) (reopened w) = Some (gr_account r)) by (apply Hm; cbn; by rewrite Hi).
    cbn in Hx. destruct (wd_accounts (reopened w) !! i); simplify_eq/=; congruence.
Qed.

(** ** What accounts and transactions are found by *)

(** The four indices besides those of the keys: of accounts by address, by name and
    by account id, and of transactions by their ids. *)
Inductive index_key :=
| by_address (addr : Z)
| by_name (name : string)
| by_account_id (id : Z)
| by_transaction_id (id : Z).

Definition found_at (k : index_key) (w : wallet_db) : option Z :=
  match k with
  | by_address addr => address_to_account w !! addr
  | by_name name => name_to_account w !! name
  | by_account_id id => id_to_account w !! id
  | by_transaction_id id => id_to_transaction w !! id
  end.

(** The record goes under [k]: an account under the addresses of its keys, its name
    and the id the chain gave it, a transaction under its record id and under the id
    of the transaction unless there is none. *)
Definition claims (k : index_key) (g : generic_wallet_record) : Prop :=
  match k, g with
  | by_address addr, gr_account r => addr ∈ address_of_key <$> account_keys (ad_account (wr_data r))
  | by_name name, gr_account r => name = ac_name (ad_account (wr_data r))
  | by_account_id id, gr_account r => id = ac_id (ad_account (wr_data r)) /\ id <> 0
  | by_transaction_id id, gr_transaction r =>
      id = td_record_id (wr_data r) \/
      id = trx_id (td_trx (wr_data r)) /\ id <> trx_id null_trx
  | _, _ => False
  end.
#[local] Instance claims_dec k g : Decision (claims k g).
Proof using Type. destruct k, g; cbn; apply _. Defined.

(** The number or the record id it is found as. *)
Definition target (g : generic_wallet_record) : Z :=
  match g with gr_transaction r => td_record_id (wr_data r) | _ => get_wallet_record_index g end.

Lemma found_loaded k g w :
  found_at k (loaded g w) = if decide (claims k g) then Some (target g) else found_at k w.
Proof using Type.
  destruct g as [r|r|r|r|r|r|i kn], k as [a|n|id|id];
    cbn -[account_keys index_all]; try by case_decide.
  - rewrite index_all_lookup. by repeat case_decide.
  - rewrite lookup_insert. by repeat case_decide; simplify_eq.
  - destruct (Z.eqb_spec (ac_id (ad_account (wr_data r))) 0).
    + rewrite decide_False; [done|lia].
    + rewrite lookup_insert. repeat case_decide; (done || lia).
  - destruct (Z.eqb_spec (trx_id (td_trx (wr_data r))) (trx_id null_trx)); rewrite !lookup_insert;
      repeat case_decide; (done || naive_solver).
Qed.

(** After loading records in the order of their numbers, the last one that goes under
    [k] is the one found there. *)
Lemma found_load_all k (l : list (Z * generic_wallet_record)) w t :
  StronglySorted record_le l -> NoDup l.*1 -> found_at k w = None ->
  found_at k (load_all l.*2 w) = Some t <->
  exists i g, (i, g) ∈ l /\ claims k g /\ target g = t /\
              forall j g', (j, g') ∈ l -> claims k g' -> j <= i.
Proof using Type.
  intros Hs Hnd Hw. induction l as [|[i g] l IH] using rev_ind.
  { cbn. rewrite Hw. split; [done|]. by intros (? & ? & ?%elem_of_nil & _). }
  apply StronglySorted_app in Hs as (Hle & Hs & _).
  rewrite fmap_app in Hnd. apply NoDup_app in Hnd as (Hnd & Hnew & _). cbn in Hnew.
  assert (Hlt : forall j g', (j, g') ∈ l -> j < i).
  { intros j g' Hj. assert (Hji : record_le (j, g') (i, g)) by (by apply Hle; [|left]).
    assert (j <> i); [|unfold record_le in Hji; cbn in Hji; lia].
    intros ->. apply (Hnew i); [|left]. apply list_elem_of_fmap. by exists (i, g'). }
  specialize (IH Hs Hnd). unfold load_all in *. rewrite fmap_app, foldl_app. cbn.
  rewrite found_loaded. case_decide as Hg.
  - split.
    + intros [= <-]. exists i, g. split_and!; [apply elem_of_app; right; left|done..|].
      intros j g' [Hj|Hj]%elem_of_app _; [apply Hlt in Hj; lia|]. apply list_elem_of_singleton in Hj.
      injection Hj as -> _. lia.
    + intros (i' & g' & Hin & Hc & Ht & Hmax).
      assert (Hi : i <= i') by (apply (Hmax i g); [apply elem_of_app; right; left|done]).
      apply elem_of_app in Hin as [Hin|Hin]; [apply Hlt in Hin; lia|].
      apply list_elem_of_singleton in Hin. by simplify_eq.
  - rewrite IH. split; intros (i' & g' & Hin & Hc & Ht & Hmax); exists i', g'.
    + split_and!; [by apply elem_of_app; left|done..|].
      intros j g0 [Hj|Hj]%elem_of_app Hc0; [by apply (Hmax j g0)|].
      apply list_elem_of_singleton in Hj. by simplify_eq.
    + apply elem_of_app in Hin as [Hin|Hin]; [|apply list_elem_of_singleton in Hin; by simplify_eq].
      split_and!; [done..|]. intros j g0 Hj. apply Hmax, elem_of_app. by left.
Qed.

Lemma found_reopened k w t :
  found_at k (reopened w) = Some t <->
  exists i g, disk w !! i = Some g /\ claims k g /\ target g = t /\
              forall j g', disk w !! j = Some g' -> claims k g' -> j <= i.
Proof using Type.
  assert (Hin : forall i g, (i, g) ∈ records_in_order (disk w) <-> disk w !! i = Some g).
  { intros i g. unfold records_in_order. by rewrite merge_sort_Permutation, elem_of_map_to_list. }
  unfold reopened. rewrite found_load_all.
  - by setoid_rewrite Hin.
  - apply StronglySorted_merge_sort; [intros x y z|intros x y]; unfold record_le; lia.
  - unfold records_in_order. rewrite merge_sort_Permutation. apply NoDup_fst_map_to_list.
  - by destruct k; cbn; rewrite lookup_empty.
Qed.

(** C19: Closing the wallet and opening its file again gives back every record: the
    master key, the accounts, the keys, the transactions, the properties and the
    settings, and, besides what was there, only contacts that had been removed.
    Every key is found under all of its addresses as before; an account is found
    under each of its addresses, its name and its id, and a transaction under its ids,
    the record with the highest number of those that have it in common. *)
Theorem reopen_restores w :
  wallet_ok w ->
  exists w', open (disk w) close = (w', Ok tt) /\ wallet_ok w' /\ complete w' /\
    (forall nm g, memory nm w = Some g -> memory nm w' = Some g) /\
    (forall nm, complete w \/ (forall i, nm <> nm_account i) -> memory nm w' = memory nm w) /\
    (forall a, key_at a w' = key_at a w) /\
    forall k t, found_at k w' = Some t <->
      exists i g, disk w !! i = Some g /\ claims k g /\ target g = t /\
                  forall j g', disk w !! j = Some g' -> claims k g' -> j <= i.
Proof.
  intros Hw. exists (reopened w). rewrite open_run. destruct (reopened_ok w Hw) as [Hw' Hc'].
  split_and!; [done..|by intros nm g; apply memory_kept|by intros nm; apply memory_back| |
    by intros k t; apply found_reopened].
  intros a. apply option_eq. intros r. rewrite !key_at_found by (by apply ok_addresses_ok).
  by rewrite keys_reopened.
Qed.

(** [remove_contact_account] takes the account out of the maps but leaves its
    record on disk: when the wallet is opened the next time, the contact is back. *)
Theorem removed_contact_returns w w' name :
  wallet_ok w -> remove_contact_account name w = (w', Ok tt) ->
  exists i r, wd_accounts w !! i = Some r /\ wd_accounts w' !! i = None /\
    exists w1, open (disk w') close = (w1, Ok tt) /\ wd_accounts w1 !! i = Some r.
Proof.
  intros Hw Hrun. unfold remove_contact_account in Hrun. inv_eff. repeat inv_ok_step. subst.
  match goal with Hl : lookup_account_name _ _ = _ |- _ => unfold lookup_account_name in Hl end.
  repeat inv_ok_step.
  match goal with Hat : account_at _ _ = Some ?r |- _ =>
    apply bind_Some in Hat as (i & _ & Hi); exists i, r; rename r into r' end.
  pose proof (account_in_memory _ _ _ Hw Hi) as Hx. split_and!; [done| |].
  - cbn. rewrite Hx. apply lookup_delete_eq.
  - eexists. split; [apply open_run|].
    match goal with |- wd_accounts (reopened ?w1) !! _ = _ =>
      assert (Hm : memory (nm_account i) (reopened w1) = Some (gr_account r')) end.
    { eapply memory_reopened; [exact Hw|done|]. apply (ok_memory _ Hw). cbn. by rewrite Hi. }
    by apply fmap_Some in Hm as (? & Hr0 & [= <-]).
Qed.

(** ** Finding keys *)

(** A usable key that was stored is found under its address, and is usable. *)
Lemma store_key_found password k w w' :
  wallet_ok w -> usable password k -> store_key k w = (w', Ok tt) ->
  wallet_ok w' /\ exists r, wd_keys w' !! get_address k = Some r /\ usable password (wr_data r).
Proof.
  intros Hw Hu Hrun. change (store_key k) with
    (_ ← ensure_open; _ ← ensure (negb (kd_public_key k =? null_key));
     found ← reads (lookup_key (get_address k));
     key_record ← store_and_reload_record gr_key (mk_record (index_of found) k);
     settle_key (store_account_n 2) k key_record) in Hrun.
  unfold ensure_open in Hrun. inv_eff.
  match goal with Hl : lookup_key _ _ = Ok ?o |- _ => apply lookup_key_at in Hl end.
  match goal with Hf : _ = key_at _ _, Hq : store_and_reload_record _ _ _ = (?x, Ok ?y) |- _ =>
    rewrite Hf in Hq; rename x into w1, y into r1, Hq into Hst end.
  pose proof (triple_store_key_record password w (fun w1 => w1 = w) (fun _ => True)
    (mk_record (index_of (key_at (get_address k) w)) k)) as Ht1.
  specialize (Ht1 ltac:(intros w2 ->; split_and!; [by split|by apply key_slot|by intros ? _ _|done])
    ltac:(done) w eq_refl).
  rewrite Hst in Ht1. destruct Ht1 as ([Hw1 _] & _ & Hd & Hr1).
  pose proof (triple_settle_key password w1 (fun w => w = w1) 0 k r1) as Ht2.
  specialize (Ht2 ltac:(intros w2 ->; split_and!; [by split|done..]) w1 eq_refl).
  rewrite Hrun in Ht2. destruct Ht2 as [Hw' Hk]. split; [done|].
  eapply (Hk _ _ Hr1). by rewrite Hd.
Qed.

(** A key stored with its private key is found by every one of its addresses (its
    BitShares address and the four Bitcoin and PTS forms), with a private key the
    password decrypts. *)
Theorem stored_key_found password k w w' addr :
  wallet_ok w -> usable password k -> addr ∈ key_addresses (kd_public_key k) ->
  store_key k w = (w', Ok tt) ->
  exists r, key_at addr w' = Some r /\ kd_public_key (wr_data r) = kd_public_key k /\
            usable password (wr_data r).
Proof.
  intros Hw Hu Ha Hrun. destruct (store_key_found password k w w' Hw Hu Hrun) as (Hw' & r & Hr & Hur).
  assert (Hp : kd_public_key (wr_data r) = kd_public_key k).
  { apply (key_at_public w'); [done|]. by rewrite key_at_address. }
  exists r. split_and!; [|done..]. apply key_at_spec; [done|]. exists (get_address k). by rewrite Hp.
Qed.

(** The numbers a loop tries, in order. *)
Lemma tries_spec {A} (body : Z -> result (option A)) n i r :
  tries body n i = Ok r ->
  match r with
  | inl a => exists j, i < j <= i + Zpos n /\ body j = Ok (Some a) /\
                       forall j', i < j' < j -> body j' = Ok None
  | inr j => j = i + Zpos n /\ forall j', i < j' <= j -> body j' = Ok None
  end.
Proof using Type.
  assert (Hand : forall p q i r, (forall i r, tries body p i = Ok r -> match r with
    | inl a => exists j, i < j <= i + Zpos p /\ body j = Ok (Some a) /\
                         forall j', i < j' < j -> body j' = Ok None
    | inr j => j = i + Zpos p /\ forall j', i < j' <= j -> body j' = Ok None end) ->
    q = 2 * Zpos p ->
    (r0 ← tries body p i; match r0 with inl a => Ok (inl a) | inr k => tries body p k end) = Ok r ->
    match r with
    | inl a => exists j, i < j <= i + q /\ body j = Ok (Some a) /\
                         forall j', i < j' < j -> body j' = Ok None
    | inr j => j = i + q /\ forall j', i < j' <= j -> body j' = Ok None end).
  { intros p q i0 r0 IH -> (r1 & Hx & Hy)%bind_Ok. apply IH in Hx. destruct r1 as [a|k].
    - injection Hy as <-. destruct Hx as (j & Hj & Hb & Hn). exists j. split_and!; [lia..|done|done].
    - destruct Hx as [-> Hn]. apply IH in Hy. destruct r0 as [a|k].
      + destruct Hy as (j & Hj & Hb & Hn2). exists j. split_and!; [lia..|done|]. intros j' Hj'.
        destruct (decide (j' <= i0 + Zpos p)); [apply Hn; lia|apply Hn2; lia].
      + destruct Hy as [-> Hn2]. split; [lia|]. intros j' Hj'.
        destruct (decide (j' <= i0 + Zpos p)); [apply Hn; lia|apply Hn2; lia]. }
  revert i r. induction n as [p IH|p IH|]; intros i r; cbn [tries].
  - intros (o & Ho & Hr)%bind_Ok. destruct o as [a|].
    + injection Hr as <-. exists (i + 1). split_and!; [lia..|done|lia].
    + apply (Hand p (2 * Zpos p)) in Hr; [|done..]. destruct r as [a|k].
      * destruct Hr as (j & Hj & Hb & Hn). exists j. split_and!; [lia..|done|]. intros j' Hj'.
        destruct (decide (j' = i + 1)) as [->|]; [done|]. apply Hn. lia.
      * destruct Hr as [-> Hn]. split; [lia|]. intros j' Hj'.
        destruct (decide (j' = i + 1)) as [->|]; [done|]. apply Hn. lia.
  - by apply Hand.
  - intros (o & Ho & Hr)%bind_Ok. injection Hr as <-. destruct o as [a|].
    + exists (i + 1). split_and!; [lia..|done|lia].
    + split; [done|]. intros j' Hj'. by replace j' with (i + 1) by lia.
Qed.

Lemma upwards_spec {A} (body : Z -> result (option A)) i a :
  upwards body i = Ok a ->
  exists j, i < j < 2^32 /\ body j = Ok (Some a) /\ forall j', i < j' < j -> body j' = Ok None.
Proof using Type.
  unfold upwards. destruct (Z.leb_spec (2^32 - 1) i) as [|Hi]; [done|].
  intros (r & Hr & Ha)%bind_Ok. apply tries_spec in Hr. destruct r as [a'|]; [|done]. injection Ha as ->.
  destruct Hr as (j & Hj & ?). exists j. split; [|done]. rewrite Z2Pos.id in Hj by lia. lia.
Qed.

Lemma account_child_key_spec active w j o :
  account_child_key active w j = Ok o ->
  key_taken (address_of_key (public_key_of (key_child active j))) w
  = Ok (match o with Some _ => false | None => true end) /\
  (forall p, o = Some p -> p = (j, key_child active j)).
Proof using Type.
  unfold account_child_key, get_account_child_key. intros Hr. repeat inv_ok_step.
  match goal with Hk : key_taken _ _ = Ok ?b |- _ => rewrite Hk; destruct b end; split; try done.
  by intros p [= <-].
Qed.

(** The key [generate_new_account_child_key] returns is the child of the account's
    active key with the smallest number above the last one used whose private key the
    wallet does not have; the wallet then finds it, with a private key the password
    decrypts. *)
Theorem child_key_fresh password name w w' child :
  wallet_ok w -> generate_new_account_child_key password name w = (w', Ok child) ->
  exists account active_private_key seq_num,
    lookup_account_name name w = Ok (Some account) /\
    ad_last_used_gen_sequence (wr_data account) < seq_num < 2^32 /\
    child = key_child active_private_key seq_num /\
    key_taken (address_of_key (public_key_of child)) w = Ok false /\
    (forall j, ad_last_used_gen_sequence (wr_data account) < j < seq_num ->
       key_taken (address_of_key (public_key_of (key_child active_private_key j))) w = Ok true) /\
    exists r, key_at (address_of_key (public_key_of child)) w' = Some r /\ usable password (wr_data r).
Proof.
  intros Hw Hrun. unfold generate_new_account_child_key, ensure_open in Hrun. inv_eff.
  match goal with Hf : upwards _ _ = Ok ?p |- _ => destruct p as [seq key]; apply upwards_spec in Hf as
    (j & Hj & Hb & Hn) end.
  inv_eff. repeat inv_ok_step.
  match goal with Hst : store_account _ _ = (?w1, Ok ?u), Hk : encrypt_private_key _ _ _ = Ok ?k,
    Hs2 : store_key ?k ?w1 = (?w2, Ok ?u2) |- _ =>
    destruct u2; destruct (safe_run password _ _ _ _ _ (safe_store_account password (fun _ => True) _) I Hst Hw)
      as (Hw1 & _ & _);
    destruct (store_key_found password k w1 w2 Hw1 (encrypted_usable _ _ _ _ Hk) Hs2) as (Hw2 & r & Hr & Hu);
    apply encrypted_public in Hk as [Hpub _] end.
  match goal with Ho : _ = Some ?a, Hl : lookup_account_name _ _ = Ok _,
    Hd : decrypt_private_key _ _ = Ok ?act |- _ => subst; exists a, act, j end.
  apply account_child_key_spec in Hb as [Ht Hp]. injection (Hp _ eq_refl) as -> ->.
  split_and!; [done|lia|lia|done|done| |].
  - intros j0 Hj0. by destruct (account_child_key_spec _ _ _ _ (Hn j0 Hj0)) as [? _].
  - exists r. rewrite key_at_address by done. unfold get_address in Hr. by rewrite <- Hpub.
Qed.

(** ** Changing the password *)






(** ** A wallet's life *)


(** The keys that can be used under one password can be used under another later. *)
Definition keys_last (s s' : Z * wallet_db) : Prop :=
  forall a r, wd_keys s.2 !! a = Some r -> usable s.1 (wr_data r) ->
  exists r', wd_keys s'.2 !! a = Some r' /\ usable s'.1 (wr_data r').

#[local] Instance keys_last_preorder : PreOrder keys_last.
Proof using Type.
  split; [intros s a r Hr Hu; eauto|]. intros s1 s2 s3 H12 H23 a r Hr Hu.
  destruct (H12 a r Hr Hu) as (r' & Hr' & Hu'). eauto.
Qed.


End reopen.

(** ** A wallet with one account and a contact *)

Module Sample.

#[local] Instance sample_crypto : Crypto := {|
  address_of_key k := 10 * k + 1;
  pts_address_of_key k compressed version :=
    10 * k + (if compressed then 1 else 0) + (if version =? 0 then 2 else 4);
  condition_address c := wc_asset_id c;
  slate_hash l := foldr Z.add 0 l;
  trx_id t := tx_expiration t;
  trx_digest t c := tx_expiration t + c;
  recover_key s _ _ := Ok s;
  ripemd160_hash l := foldr Z.add 0 l
|}.

#[local] Instance sample_no_collision : NoCollision.
Proof.
  intros k k' a. unfold key_addresses. cbn. rewrite !elem_of_cons, !elem_of_nil. lia.
Qed.

#[local] Instance sample_wallet_crypto : WalletCrypto := {|
  public_key_of k := 2 * k + 1;
  aes_encrypt password key := [password; key];
  aes_decrypt password c :=
    match c with [p; key] => if p =? password then Some key else None | _ => None end;
  sha512_hash password := password;
  master_child m i := 100 * m + i;
  key_child k i := 1000 * k + i
|}.

(** A new wallet file. *)
Definition empty_wallet : wallet_db := set_wd_records ∅ close.

Lemma empty_wallet_ok : wallet_ok empty_wallet.
Proof.
  constructor; intros *; cbn; rewrite ?lookup_empty; try done; [by destruct nm|].
  split; [done|]. by intros (? & ? & _).
Qed.

Definition contact : account_record := mk_account 17 "bob" v_null 400 {[ 5 := 401 ]} 0 0 None None.

Definition created : wallet_db := (set_master_key 5 9 empty_wallet).1.
Definition with_alice : wallet_db := (generate_new_account 100 9 "alice" v_null created).1.
Definition with_bob : wallet_db := (add_contact_account contact v_null with_alice).1.

Lemma created_ok : wallet_ok created.
Proof.
  destruct (set_master_key 5 9 empty_wallet) as [w r] eqn:Hr. unfold created. rewrite Hr.
  apply (safe_run 0 _ _ _ _ _ (safe_set_master_key 0 (fun _ => True) 5 9) I Hr), empty_wallet_ok.
Qed.
Lemma with_alice_ok : wallet_ok with_alice.
Proof.
  destruct (generate_new_account 100 9 "alice" v_null created) as [w r] eqn:Hr. unfold with_alice. rewrite Hr.
  apply (safe_run 9 _ _ _ _ _ (safe_generate_new_account 9 (fun _ => True) 100 "alice" v_null) I Hr), created_ok.
Qed.
Lemma with_bob_ok : wallet_ok with_bob.
Proof.
  destruct (add_contact_account contact v_null with_alice) as [w r] eqn:Hr. unfold with_bob. rewrite Hr.
  apply (safe_run 9 _ _ _ _ _ (safe_add_contact_account 9 (fun _ => True) contact v_null) I Hr), with_alice_ok.
Qed.

(** Alice's owner key is 1003, the public key of the wallet's first child key. *)
Lemma alice_keys :
  (wd_keys with_bob !! 10031, is_open with_bob, length (map_to_list (wd_keys with_bob)))
  = (Some (mk_record 4 (mk_key_data 10031 1003 [9; 501] false None 1)), true, 4%nat).
Proof. vm_compute. reflexivity. Qed.


Lemma store_recursion_ends_witness :
  (store_account null_account_data with_bob).2 <> Err stack_overflow /\
  (store_key (mk_key_data 0 77 [9; 38] false None 0) with_bob).2 <> Err stack_overflow.
Proof. apply (store_recursion_ends with_bob). exact with_bob_ok. Defined.

(** Bob's account is found by its name, by its id and by its key's address. *)
Lemma reopen_restores_witness :
  exists w', open (disk with_bob) close = (w', Ok tt) /\ wallet_ok w' /\ complete w' /\
    (forall a, key_at a w' = key_at a with_bob) /\
    found_at (by_name "bob") w' = found_at (by_name "bob") with_bob /\
    found_at (by_name "bob") w' <> None.
Proof.
  destruct (reopen_restores with_bob with_bob_ok) as (w' & Ho & Hw & Hc & _ & _ & Hk & _).
  exists w'. split_and!; [done..| |].
  - assert (Hx : w' = (open (disk with_bob) close).1) by (by rewrite Ho). rewrite Hx. by vm_compute.
  - assert (Hx : w' = (open (disk with_bob) close).1) by (by rewrite Ho). rewrite Hx. by vm_compute.
Defined.

Lemma removed_contact_returns_witness :
  exists i r, wd_accounts with_bob !! i = Some r /\
    wd_accounts (remove_contact_account "bob" with_bob).1 !! i = None /\
    exists w1, open (disk (remove_contact_account "bob" with_bob).1) close = (w1, Ok tt) /\
               wd_accounts w1 !! i = Some r.
Proof.
  apply (removed_contact_returns with_bob _ "bob"); [exact with_bob_ok|]. by vm_compute.
Defined.

Lemma stored_key_found_witness :
  exists r, key_at 10053 (store_key (mk_key_data 10031 1005 [9; 502] false None 0) with_bob).1 = Some r /\
    kd_public_key (wr_data r) = 1005 /\ usable 9 (wr_data r).
Proof.
  apply (stored_key_found 9 (mk_key_data 10031 1005 [9; 502] false None 0) with_bob).
  - exact with_bob_ok.
  - exists 502. by vm_compute.
  - by vm_compute; repeat first [left|right].
  - by vm_compute.
Defined.

Lemma child_key_fresh_witness :
  exists account active_private_key seq_num,
    lookup_account_name "alice" with_bob = Ok (Some account) /\
    ad_last_used_gen_sequence (wr_data account) < seq_num < 2^32 /\
    501000001 = key_child active_private_key seq_num /\
    key_taken (address_of_key (public_key_of 501000001)) with_bob = Ok false /\
    (forall j, ad_last_used_gen_sequence (wr_data account) < j < seq_num ->
       key_taken (address_of_key (public_key_of (key_child active_private_key j))) with_bob = Ok true) /\
    exists r, key_at (address_of_key (public_key_of 501000001))
                (generate_new_account_child_key 9 "alice" with_bob).1 = Some r /\ usable 9 (wr_data r).
Proof.
  apply (child_key_fresh 9 "alice" with_bob _ 501000001); [exact with_bob_ok|]. by vm_compute.
Defined.




End Sample.
