(* ===== verification/Builder.v ===== *)
(** * Builder: assembling transactions (blockchain/transaction.cpp,
      wallet/transaction_builder.hpp, wallet/transaction_builder.cpp, and the parts
      of wallet/wallet.cpp they call)

    The wallet's transaction builder appends operations to a transaction and notes
    what each costs or returns to which account in [outstanding_balances]; [finalize]
    charges a fee to these balances and then levels each with a withdrawal or a
    deposit.

    A step works on the builder and on the wallet's records (it creates keys), and
    leaves its changes behind when it throws.  [wallet_env] is what the builder reads
    of the rest of the system: the block chain and its pending state, the clock, the
    wallet's password, the conversions to text.  A slate that [select_delegate_vote]
    drew at random is an argument of the step that uses it.  [std::map]s are walked
    in the order of their keys.

    Operations whose evaluation is disabled keep only their type (Records.v);
    releasing escrow, objects, edges and asset updates are not built here. *)
From S2P Require Import Prelude Config Fc Asset Records ChainInterface OrderBook MarketOps PriceText.
From S2P Require Import Eff WalletDb.
From stdpp Require Import sorting.
#[local] Open Scope Z_scope.

(** ** Appending operations (transaction.cpp) *)

Definition push_op (o : operation) (t : signed_transaction) : signed_transaction :=
  mk_trx (tx_expiration t) (tx_delegate_slate_id t) (tx_operations t ++ [o]) (tx_signatures t).

Definition tx_define_delegate_slate (s : delegate_slate) (t : signed_transaction)
    : result signed_transaction :=
  _ ← fc_assert (bool_decide (sl_supported_delegates s <> []));
  Ok (push_op (Op_define_slate (mk_define_slate s)) t).

Definition tx_bid (quantity : asset) (price_per_unit : price) (owner : Z) : signed_transaction -> signed_transaction :=
  push_op (Op_bid (mk_bid (amount quantity) (mk_market_key price_per_unit owner))).
Definition tx_ask (quantity : asset) (price_per_unit : price) (owner : Z) : signed_transaction -> signed_transaction :=
  push_op (Op_ask (mk_ask (amount quantity) (mk_market_key price_per_unit owner))).
Definition tx_relative_bid : signed_transaction -> signed_transaction := push_op (Op_disabled 25).
Definition tx_relative_ask : signed_transaction -> signed_transaction := push_op (Op_disabled 26).
Definition tx_short_sell (quantity : asset) (interest_rate : price) (owner : Z) (limit_price : option price)
    : signed_transaction -> signed_transaction :=
  push_op (Op_short (mk_short (amount quantity) (mk_market_key interest_rate owner) limit_price)).

Definition tx_withdraw (account amt : Z) (t : signed_transaction) : result signed_transaction :=
  _ ← fc_assert (amt >? 0); Ok (push_op (Op_withdraw (mk_withdraw account amt [])) t).
Definition tx_withdraw_pay (account amt : Z) (t : signed_transaction) : result signed_transaction :=
  _ ← fc_assert (amt >? 0); Ok (push_op (Op_withdraw_pay (mk_withdraw_pay amt account)) t).

(** [withdraw_condition( withdraw_with_signature( owner ), asset_id, slate_id )] *)
Definition signature_condition (owner asset_id slate_id : Z) (memo : option Z) : withdraw_condition :=
  mk_condition asset_id slate_id (wd_signature owner memo).

Definition tx_deposit (owner : Z) (amt : asset) (slate_id : Z) (t : signed_transaction)
    : result signed_transaction :=
  _ ← fc_assert (amount amt >? 0);
  Ok (push_op (Op_deposit (mk_deposit (amount amt)
                (signature_condition owner (asset_id amt) slate_id None))) t).
Definition tx_deposit_multisig (info : multisig_meta_info) (amt : asset) (slate_id : Z)
    (t : signed_transaction) : result signed_transaction :=
  _ ← fc_assert (amount amt >? 0);
  Ok (push_op (Op_deposit (mk_deposit (amount amt) (mk_condition (asset_id amt) slate_id
                (wd_multisig (ms_required info) (ms_owners info) None)))) t).
(** The memo's owner address and contents come from [encrypt_memo_data]. *)
Definition tx_deposit_to_account (owner memo : Z) (amt : asset) (slate_id : Z)
    : signed_transaction -> signed_transaction :=
  push_op (Op_deposit (mk_deposit (amount amt)
             (signature_condition owner (asset_id amt) slate_id (Some memo)))).

Definition tx_update_account (account_id delegate_pay_rate : Z) (public_data : option variant)
    (active : option Z) : signed_transaction -> signed_transaction :=
  push_op (Op_update_account (mk_update_account account_id public_data active delegate_pay_rate)).
Definition tx_cover (cover_amount : asset) (order_idx : market_index_key)
    : signed_transaction -> signed_transaction :=
  push_op (Op_cover (mk_cover (amount cover_amount) order_idx None)).
Definition tx_update_signing_key (account_id block_signing_key : Z)
    : signed_transaction -> signed_transaction :=
  push_op (Op_update_signing_key (mk_update_signing_key account_id block_signing_key)).

(** [transaction::is_cancel] *)
Definition is_cancel (t : signed_transaction) : bool :=
  existsb (fun o => match o with
                    | Op_bid b => bo_amount b <? 0
                    | Op_ask a => ao_amount a <? 0
                    | Op_short_v1 s => s1_amount s <? 0
                    | Op_short s => sh_amount s <? 0
                    | _ => false
                    end) (tx_operations t).

(** ** The builder and what it reads *)

(** A [mail::transaction_notice_message] and the key it is for. *)
Record notice := mk_notice {
  nt_memo : string;
  nt_titan_one_time_key : option Z;
  nt_memo_signature : Z;
  nt_recipient : Z
}.

Record builder := mk_builder {
  tb_record : transaction_data;
  tb_required_signatures : gset Z;
  tb_accounts_with_covers : gset Z;
  tb_outstanding : gmap (Z * Z) Z;
  tb_order_keys : gmap Z Z;
  tb_notices : list notice
}.

Definition null_transaction_data : transaction_data :=
  mk_transaction_data 0 0 false false false null_trx [] (mk_asset 0 0) 0 0 [].
Definition new_builder : builder := mk_builder null_transaction_data ∅ ∅ ∅ ∅ [].

Record building := mk_building { bg_builder : builder; bg_wallet : wallet_db }.

Definition tb_trx (b : builder) : signed_transaction := td_trx (tb_record b).

Definition set_td_trx (t : signed_transaction) (r : transaction_data) : transaction_data :=
  mk_transaction_data (td_record_id r) (td_block_num r) (td_is_virtual r) (td_is_confirmed r)
    (td_is_market r) t (td_ledger_entries r) (td_fee r) (td_created_time r) (td_received_time r)
    (td_extra_addresses r).
Definition set_td_fee (fee : asset) (r : transaction_data) : transaction_data :=
  mk_transaction_data (td_record_id r) (td_block_num r) (td_is_virtual r) (td_is_confirmed r)
    (td_is_market r) (td_trx r) (td_ledger_entries r) fee (td_created_time r) (td_received_time r)
    (td_extra_addresses r).
Definition set_td_market (r : transaction_data) : transaction_data :=
  mk_transaction_data (td_record_id r) (td_block_num r) (td_is_virtual r) (td_is_confirmed r)
    true (td_trx r) (td_ledger_entries r) (td_fee r) (td_created_time r) (td_received_time r)
    (td_extra_addresses r).
Definition add_td_entry (e : ledger_entry) (r : transaction_data) : transaction_data :=
  mk_transaction_data (td_record_id r) (td_block_num r) (td_is_virtual r) (td_is_confirmed r)
    (td_is_market r) (td_trx r) (td_ledger_entries r ++ [e]) (td_fee r) (td_created_time r)
    (td_received_time r) (td_extra_addresses r).
Definition set_td_created (record_id time : Z) (r : transaction_data) : transaction_data :=
  mk_transaction_data record_id (td_block_num r) (td_is_virtual r) (td_is_confirmed r)
    (td_is_market r) (td_trx r) (td_ledger_entries r) (td_fee r) time time (td_extra_addresses r).

Definition set_tb_record (r : transaction_data) (b : builder) : builder :=
  mk_builder r (tb_required_signatures b) (tb_accounts_with_covers b) (tb_outstanding b)
    (tb_order_keys b) (tb_notices b).
Definition set_tb_required (v : gset Z) (b : builder) : builder :=
  mk_builder (tb_record b) v (tb_accounts_with_covers b) (tb_outstanding b) (tb_order_keys b) (tb_notices b).
Definition set_tb_covers (v : gset Z) (b : builder) : builder :=
  mk_builder (tb_record b) (tb_required_signatures b) v (tb_outstanding b) (tb_order_keys b) (tb_notices b).
Definition set_tb_outstanding (v : gmap (Z * Z) Z) (b : builder) : builder :=
  mk_builder (tb_record b) (tb_required_signatures b) (tb_accounts_with_covers b) v
    (tb_order_keys b) (tb_notices b).
Definition set_tb_order_keys (v : gmap Z Z) (b : builder) : builder :=
  mk_builder (tb_record b) (tb_required_signatures b) (tb_accounts_with_covers b) (tb_outstanding b)
    v (tb_notices b).
Definition add_tb_notice (n : notice) (b : builder) : builder :=
  mk_builder (tb_record b) (tb_required_signatures b) (tb_accounts_with_covers b) (tb_outstanding b)
    (tb_order_keys b) (tb_notices b ++ [n]).

(** [we_balances] are the records [scan_balances] visits; [we_password] is empty
    while the wallet is locked. *)
Record wallet_env := mk_env {
  we_chain : chain_view;
  we_pending : chain_view;
  we_balances : list balance_record;
  we_market_order : Z -> option market_order;
  we_pending_transactions : list signed_transaction;
  we_clock : Z;
  we_password : option Z;
  we_as_asset : variant -> option asset;
  we_key_string : Z -> string;
  we_asset_symbol : Z -> string;
  we_pretty_price : price -> string;
  we_small_id : market_order -> string
}.

(** Memos are encrypted and signed with fc's keys: the address and contents of a
    TITAN deposit's memo, and the signatures. *)
Class BuilderCrypto := {
  encrypt_memo_data : Z -> Z -> Z -> string -> Z -> Z * Z;
  sign_memo : Z -> string -> Z;
  sign_digest : Z -> Z -> Z
}.

Definition BTS_WALLET_DEFAULT_TRANSACTION_FEE : Z := 50000.
Definition BTS_BLOCKCHAIN_MAX_MEMO_SIZE : Z := 19.
Definition transaction_expiration_sec : Z := 7.

Section builder.
Context `{Crypto} `{WalletCrypto} `{FcNum} `{FcReal} `{BuilderCrypto}.
Context (env : wallet_env).

(** ** The wallet's queries (wallet.cpp) *)

(** [balance_record::owner] *)
Definition balance_owner (r : balance_record) : result Z :=
  os ← balance_owners r;
  require (head (merge_sort Z.le (elements os))) assert_exception.

(** [wallet::get_transaction_fee]; the price is applied to three times the fee. *)
Definition get_transaction_fee (desired_fee_asset_id : Z) (w : wallet_db) : result asset :=
  _ ← fc_assert (is_open w);
  let xts_fee := default (mk_asset BTS_WALLET_DEFAULT_TRANSACTION_FEE 0)
                   (we_as_asset env (get_property default_transaction_priority_fee w)) in
  if desired_fee_asset_id =? 0 then Ok xts_fee
  else
    asset_rec ← require (cv_asset (we_chain env) desired_fee_asset_id) assert_exception;
    if is_market_issued asset_rec then
      median_price ← cv_median_price (we_chain env) desired_fee_asset_id 0;
      match median_price with
      | Some p =>
          twice ← asset_add xts_fee xts_fee;
          fee ← asset_add xts_fee twice;
          asset_mul fee p
      | None => Ok xts_fee
      end
    else Ok xts_fee.

(** [wallet::asset_can_pay_fee] *)
Definition asset_can_pay_fee (desired_fee_asset_id : Z) (w : wallet_db) : result bool :=
  fee ← get_transaction_fee desired_fee_asset_id w; Ok (asset_id fee =? desired_fee_asset_id).

(** [wallet::get_account_balance_records]: the pending balances of the wallet's keys,
    by the name of the account they belong to; one account if a name is given. *)
Definition signature_mask : Z := Z.shiftl 1 1.
Definition scan_balance (account_name : string) (include_empty : bool) (withdraw_type_mask : Z)
    (w : wallet_db) (m : gmap string (list balance_record)) (record : balance_record)
    : result (gmap string (list balance_record)) :=
  if Z.land (Z.shiftl 1 (wc_type (br_condition record))) withdraw_type_mask =? 0 then Ok m
  else
    owner ← balance_owner record;
    key_record ← lookup_key owner w;
    match key_record with
    | None => Ok m
    | Some k =>
        if negb (has_private_key (wr_data k)) then Ok m
        else
          account ← lookup_account (kd_account_address (wr_data k)) w;
          let name := from_option (fun r => ac_name (ad_account (wr_data r)))
                        (we_key_string env (kd_public_key (wr_data k))) account in
          if negb (String.eqb account_name EmptyString) && negb (String.eqb name account_name) then Ok m
          else
            match cv_balance (we_pending env) (balance_id record) with
            | None => Ok m
            | Some pending =>
                skip ← (if include_empty then Ok false
                        else b ← get_spendable_balance pending (cv_now (we_pending env));
                             Ok (amount b =? 0));
                Ok (if (skip : bool) then m
                    else <[name := default [] (m !! name) ++ [pending]]> m)
            end
    end.
Definition get_account_balance_records (account_name : string) (include_empty : bool)
    (withdraw_type_mask : Z) (w : wallet_db) : result (gmap string (list balance_record)) :=
  _ ← throw_if (negb (is_open w)) wallet_closed;
  fold_result (scan_balance account_name include_empty withdraw_type_mask w) ∅ (we_balances env).

(** [wallet::get_account_balances] *)
Definition add_spendable (m : gmap Z Z) (r : balance_record) : result (gmap Z Z) :=
  b ← get_spendable_balance r (cv_now (we_pending env));
  Ok (<[asset_id b := wrap64 (default 0 (m !! asset_id b) + amount b)]> m).
Definition get_account_balances (account_name : string) (include_empty : bool) (w : wallet_db)
    : result (gmap string (gmap Z Z)) :=
  items ← get_account_balance_records account_name include_empty signature_mask w;
  each (fun name records m =>
    b ← fold_result add_spendable ∅ records;
    Ok (match records with [] => m | _ => <[name := b]> m end)) items ∅.

(** [wallet_impl::is_receive_account] *)
Definition is_receive_account (account_name : string) (w : wallet_db) : result bool :=
  _ ← fc_assert (is_open w);
  if negb (is_valid_account_name account_name) then Ok false
  else
    account ← lookup_account_name account_name w;
    match account with
    | None => Ok false
    | Some a =>
        key ← lookup_key (account_active_address (ad_account (wr_data a))) w;
        Ok (from_option (fun k => has_private_key (wr_data k)) false key)
    end.

(** [wallet_impl::get_new_private_key] and [get_new_public_key] *)
Definition get_new_private_key (account_name : string) : eff wallet_db Z :=
  _ ← reads (fun w => throw_if (negb (is_open w)) wallet_closed);
  password ← lift (require (we_password env) wallet_locked);
  receive ← reads (is_receive_account account_name);
  _ ← lift (throw_if (negb receive) unknown_receive_account);
  current_account ← reads (lookup_account_name account_name);
  _ ← ensure (bool_decide (is_Some current_account));
  generate_new_account_child_key password account_name.
Definition get_new_public_key (account_name : string) : eff wallet_db Z :=
  key ← get_new_private_key account_name; mret (public_key_of key).

(** [wallet::get_private_key] *)
Definition get_private_key (addr : Z) (w : wallet_db) : result Z :=
  _ ← fc_assert (is_open w);
  password ← require (we_password env) assert_exception;
  key ← lookup_key addr w;
  k ← require key assert_exception;
  _ ← fc_assert (has_private_key (wr_data k));
  decrypt_private_key password (wr_data k).

(** ** Steps of the builder *)

Definition on_wallet {A} (m : eff wallet_db A) : eff building A := fun s =>
  let '(w, r) := m (bg_wallet s) in (mk_building (bg_builder s) w, r).
Definition wallet_reads {A} (f : wallet_db -> result A) : eff building A :=
  reads (fun s => f (bg_wallet s)).
Definition on_builder (f : builder -> builder) : eff building unit :=
  update (fun s => mk_building (f (bg_builder s)) (bg_wallet s)).
Definition builder_reads {A} (f : builder -> A) : eff building A := reads (fun s => Ok (f (bg_builder s))).

(** A change of the transaction's record, one of the transaction, and one that may
    throw. *)
Definition on_record (f : transaction_data -> transaction_data) : eff building unit :=
  on_builder (fun b => set_tb_record (f (tb_record b)) b).
Definition on_trx (f : signed_transaction -> signed_transaction) : eff building unit :=
  on_record (fun r => set_td_trx (f (td_trx r)) r).
Definition try_trx (f : signed_transaction -> result signed_transaction) : eff building unit :=
  t ← reads (fun s => f (tb_trx (bg_builder s)));
  on_trx (fun _ => t).
Definition add_entry (e : ledger_entry) : eff building unit := on_record (add_td_entry e).
Definition require_signature (addr : Z) : eff building unit :=
  on_builder (fun b => set_tb_required ({[ addr ]} ∪ tb_required_signatures b) b).

(** [transaction_builder::deduct_balance] and [credit_balance] *)
Definition change_balance (account : Z) (id delta : Z) : eff building unit :=
  on_builder (fun b => set_tb_outstanding
    (<[(account, id) := wrap64 (default 0 (tb_outstanding b !! (account, id)) + delta)]>
       (tb_outstanding b)) b).
Definition deduct_balance (account_to_charge : Z) (amt : asset) : eff building unit :=
  _ ← ensure (amount amt >=? 0); change_balance account_to_charge (asset_id amt) (- amount amt).
Definition credit_balance (account_to_credit : Z) (amt : asset) : eff building unit :=
  _ ← ensure (amount amt >=? 0); change_balance account_to_credit (asset_id amt) (amount amt).

(** [transaction_builder::order_key_for_account]: reading [order_keys] creates the
    entry. *)
Definition set_order_key (account_address key : Z) : eff building unit :=
  on_builder (fun b => set_tb_order_keys (<[account_address := key]> (tb_order_keys b)) b).
Definition order_key_for_account (account_address : Z) (account_name : string) : eff building Z :=
  order_key ← builder_reads (fun b => default null_key (tb_order_keys b !! account_address));
  if order_key =? null_key then
    _ ← set_order_key account_address null_key;
    order_key ← on_wallet (get_new_public_key account_name);
    _ ← set_order_key account_address order_key;
    mret order_key
  else mret order_key.
Definition set_order_key_once (account_address key : Z) : eff building unit :=
  known ← builder_reads (fun b => bool_decide (is_Some (tb_order_keys b !! account_address)));
  if (known : bool) then mret tt else set_order_key account_address key.

(** [validate_market] *)
Definition validate_market (quote base : Z) : eff building unit := lift (throw_if (quote <? base) invalid_market).

(** [wallet_impl::select_slate]; [slate] is what [select_delegate_vote] returned. *)
Definition select_slate (slate : delegate_slate) (deposit_asset_id : Z) : eff building Z :=
  if negb (deposit_asset_id =? 0) then mret 0
  else
    let id := slate_id slate in
    _ ← (if negb (id =? 0) && bool_decide (cv_slate (we_chain env) id = None)
         then try_trx (tx_define_delegate_slate slate) else mret tt);
    mret id.

(** [wallet_impl::withdraw_to_transaction] *)
Fixpoint withdraw_records (l : list balance_record) (amount_remaining : asset) : eff building bool :=
  match l with
  | [] => mret false
  | record :: l =>
      balance ← lift (get_spendable_balance record (cv_now (we_pending env)));
      if (amount balance <=? 0) || negb (asset_id balance =? asset_id amount_remaining)
      then withdraw_records l amount_remaining
      else if amount amount_remaining >? amount balance then
        _ ← try_trx (tx_withdraw (balance_id record) (amount balance));
        owner ← lift (balance_owner record);
        _ ← require_signature owner;
        amount_remaining ← lift (asset_sub amount_remaining balance);
        withdraw_records l amount_remaining
      else
        _ ← try_trx (tx_withdraw (balance_id record) (amount amount_remaining));
        owner ← lift (balance_owner record);
        _ ← require_signature owner;
        mret true
  end.
Definition withdraw_to_transaction (amount_to_withdraw : asset) (from_account_name : string)
    : eff building unit :=
  _ ← ensure (negb (String.eqb from_account_name EmptyString));
  balance_records ← wallet_reads (get_account_balance_records from_account_name true signature_mask);
  records ← lift (require (balance_records !! from_account_name) insufficient_funds);
  paid ← withdraw_records records amount_to_withdraw;
  if (paid : bool) then mret tt else throw insufficient_funds.

(** ** Builder functions: transfers *)

Definition entry (from to : option Z) (amt : asset) (memo : string) : ledger_entry :=
  mk_ledger_entry from to amt memo None.
Definition entry_from (from to : option Z) (amt : asset) (memo : string) (memo_sender : option Z)
    : ledger_entry := mk_ledger_entry from to amt memo memo_sender.

Definition owner_key (a : account_data) : Z := ac_owner_key (ad_account a).
Definition active_key (a : account_data) : Z := account_active_key (ad_account a).

(** [transaction_builder::deposit_asset] *)
Definition deposit_asset (slate : delegate_slate) (payer : account_data) (recipient : account_record)
    (amt : asset) (memo : string) (memo_sender : option Z) : eff building unit :=
  _ ← lift (throw_if (account_is_retracted recipient) account_retracted);
  _ ← lift (throw_if (amount amt <=? 0) invalid_asset_amount);
  _ ← lift (throw_if (Z.of_nat (String.length memo) >? BTS_BLOCKCHAIN_MAX_MEMO_SIZE) memo_too_long);
  let memo_sender := default (active_key payer) memo_sender in
  let recipient_key := account_active_key recipient in
  titan_one_time_key ←
    (if account_is_public recipient then
       slate_id ← select_slate slate (asset_id amt);
       _ ← try_trx (tx_deposit (address_of_key recipient_key) amt slate_id);
       mret None
     else
       one_time_key ← on_wallet (get_new_private_key (ac_name (ad_account payer)));
       from_key ← wallet_reads (get_private_key (address_of_key memo_sender));
       slate_id ← select_slate slate (asset_id amt);
       let '(owner, data) := encrypt_memo_data one_time_key recipient_key from_key memo memo_sender in
       _ ← on_trx (tx_deposit_to_account owner data amt slate_id);
       mret (Some (public_key_of one_time_key)));
  _ ← deduct_balance (address_of_key (owner_key payer)) amt;
  _ ← add_entry (entry_from (Some (owner_key payer)) (Some (ac_owner_key recipient)) amt memo
        (if memo_sender =? active_key payer then None else Some memo_sender));
  signer ← wallet_reads (get_private_key (address_of_key memo_sender));
  on_builder (add_tb_notice (mk_notice memo titan_one_time_key (sign_memo signer memo) recipient_key)).

(** [transaction_builder::deposit_asset_to_address] *)
Definition deposit_asset_to_address (slate : delegate_slate) (payer : account_data) (to_addr : Z)
    (amt : asset) (memo : string) : eff building unit :=
  _ ← lift (throw_if (amount amt <=? 0) invalid_asset_amount);
  slate_id ← select_slate slate (asset_id amt);
  _ ← try_trx (tx_deposit to_addr amt slate_id);
  _ ← deduct_balance (address_of_key (owner_key payer)) amt;
  add_entry (entry (Some (owner_key payer)) None amt memo).

(** [transaction_builder::deposit_asset_to_multisig] *)
Definition deposit_asset_to_multisig (slate : delegate_slate) (amt : asset) (from_name : string)
    (m : Z) (addresses : list Z) : eff building unit :=
  _ ← lift (throw_if (amount amt <=? 0) invalid_asset_amount);
  found ← wallet_reads (lookup_account_name from_name);
  fee ← wallet_reads (get_transaction_fee 0);
  payer ← lift (require found assert_exception);
  slate_id ← select_slate slate (asset_id amt);
  _ ← try_trx (tx_deposit_multisig (mk_multisig m (list_to_set addresses)) amt slate_id);
  total ← lift (asset_add amt fee);
  _ ← deduct_balance (address_of_key (owner_key (wr_data payer))) total;
  add_entry (entry (Some (owner_key (wr_data payer))) None amt EmptyString).

(** [transaction_builder::withdraw_from_balance]; [by_owner] is what
    [get_balances_for_address] finds for the balance id taken as an address. *)
Definition withdraw_from_balance (by_owner : list balance_record) (from amt : Z) : eff building unit :=
  let take id r :=
    _ ← try_trx (tx_withdraw id amt);
    owners ← lift (balance_owners r);
    eff_each require_signature (elements owners) in
  match cv_balance (we_chain env) from with
  | Some r => take from r
  | None =>
      r ← lift (require (head by_owner) assert_exception);
      take (balance_id r) r
  end.

(** [transaction_builder::deposit_to_balance]: the vote selection method is passed
    where the slate id goes. *)
Definition deposit_to_balance (to : Z) (amt : asset) (vote_method : Z) : eff building unit :=
  try_trx (tx_deposit to amt vote_method).

(** ** Builder functions: accounts *)

(** [wallet_impl::authorize_update]: the address of the first key of the account or
    of its parents that the wallet has the private key of. *)
Definition own_key (addr : Z) (w : wallet_db) : result (option Z) :=
  k ← lookup_key addr w;
  Ok (match k with
      | Some k => if has_private_key (wr_data k) then Some (get_address (wr_data k)) else None
      | None => None
      end).
Fixpoint authorize_parents (fuel : nat) (name : string) (w : wallet_db) : result (option Z) :=
  match fuel, get_parent_account_name name with
  | S fuel, Some parent =>
      account ← require (cv_account_by_name (we_chain env) parent) assert_exception;
      active ← own_key (account_active_address account) w;
      match active with
      | Some a => Ok (Some a)
      | None =>
          owner ← own_key (account_owner_address account) w;
          match owner with
          | Some a => Ok (Some a)
          | None => authorize_parents fuel (ac_name account) w
          end
      end
  | _, _ => Ok None
  end.
Definition authorize_update (account : account_record) (need_owner_key : bool) (w : wallet_db)
    : result (option Z) :=
  owner ← own_key (account_owner_address account) w;
  match owner with
  | Some a => Ok (Some a)
  | None =>
      active ← (if need_owner_key then Ok None else own_key (account_active_address account) w);
      match active with
      | Some a => Ok (Some a)
      | None => authorize_parents (S (String.length (ac_name account))) (ac_name account) w
      end
  end.

(** [transaction_builder::update_account_registration] *)
Definition pay_rate_fee (account : account_data) (paying_account : account_data) (rate : Z)
    (working : gset Z) : eff building (gset Z) :=
  let acc := ad_account account in
  let payer := ad_account paying_account in
  _ ← ensure (negb (account_is_delegate acc) || (rate <=? account_delegate_pay_rate acc));
  if (negb (account_is_delegate acc) && (rate <=? 100))
     || (account_is_delegate acc && negb (rate =? account_delegate_pay_rate acc))
  then
    _ ← lift (throw_if (negb (ad_is_my_account paying_account)) unknown_account);
    fee_amount ← lift (get_delegate_registration_fee (we_chain env) rate);
    let fee := mk_asset fee_amount 0 in
    from_pay ← lift (if account_is_delegate payer
                     then b ← account_delegate_pay_balance payer; Ok (b >=? fee_amount) else Ok false);
    working ← (if (from_pay : bool) then
                 _ ← try_trx (tx_withdraw_pay (ac_id payer) fee_amount);
                 mret ({[ address_of_key (active_key paying_account) ]} ∪ working)
               else
                 _ ← deduct_balance (account_owner_address payer) fee;
                 mret working);
    _ ← add_entry (entry (Some (ac_owner_key payer)) (Some (ac_owner_key acc)) fee
          (if account_is_delegate acc
           then "Fee to update " +:+ ac_name acc +:+ "'s delegate pay"
           else "Fee to promote " +:+ ac_name acc +:+ " to a delegate"));
    mret working
  else mret working.

Definition update_account_registration (account : account_data) (public_data : option variant)
    (new_active_key : option Z) (delegate_pay : option Z) (paying_account : option account_data)
    : eff building unit :=
  let acc := ad_account account in
  _ ← lift (throw_if (ac_registration_date acc =? 0) unknown_account);
  _ ← ensure (bool_decide (is_Some public_data) || bool_decide (is_Some new_active_key)
              || bool_decide (is_Some delegate_pay));
  working ← builder_reads tb_required_signatures;
  authority ← wallet_reads (authorize_update acc (bool_decide (is_Some new_active_key)));
  let working := from_option (fun a => {[ a ]} ∪ working) working authority in
  let paying_account := default account paying_account in
  let payer := ad_account paying_account in
  let note memo := add_entry (entry (Some (ac_owner_key payer)) (Some (ac_owner_key acc))
                                (mk_asset 0 0) memo) in
  _ ← deduct_balance (account_owner_address payer) (mk_asset 0 0);
  working ← match delegate_pay with
            | Some rate => pay_rate_fee account paying_account rate working
            | None => mret working
            end;
  _ ← match new_active_key with
      | Some key =>
          known ← wallet_reads (lookup_account (address_of_key key));
          _ ← lift (throw_if (bool_decide (is_Some (cv_account_by_address (we_chain env) (address_of_key key)))
                              || bool_decide (is_Some known)) key_already_registered);
          note ("Update " +:+ ac_name acc +:+ "'s active key")
      | None => mret tt
      end;
  _ ← on_trx (tx_update_account (ac_id acc) (default (account_delegate_pay_rate acc) delegate_pay)
                public_data new_active_key);
  _ ← match public_data with
      | Some _ => note ("Update " +:+ ac_name acc +:+ "'s public data")
      | None => mret tt
      end;
  on_builder (set_tb_required working).

(** [transaction_builder::update_block_signing_key] *)
Definition update_signing_key (authorizing_account_name delegate_name : string) (block_signing_key : Z)
    : eff building unit :=
  found ← wallet_reads (lookup_account_name authorizing_account_name);
  authorizing ← lift (require found unknown_account);
  delegate ← lift (require (cv_account_by_name (we_chain env) delegate_name) unknown_account);
  let a := wr_data authorizing in
  _ ← on_trx (tx_update_signing_key (ac_id delegate) block_signing_key);
  _ ← deduct_balance (owner_address a) (mk_asset 0 0);
  _ ← add_entry (entry (Some (active_key a)) (Some (ac_owner_key delegate)) (mk_asset 0 0)
        "update block signing key");
  require_signature (address_of_key (active_key a)).

(** ** Builder functions: the market *)

(** The wallet's keys for an order: the key that owns it, the key of the account it
    belongs to, and that account. *)
Definition order_account (order : market_order)
    : eff building (wallet_record key_data * wallet_record key_data * wallet_record account_data) :=
  found ← wallet_reads (lookup_key (mo_owner order));
  owner_key_record ← lift (require found private_key_not_found);
  _ ← lift (throw_if (negb (has_private_key (wr_data owner_key_record))) private_key_not_found);
  found ← wallet_reads (lookup_key (kd_account_address (wr_data owner_key_record)));
  account_key_record ← lift (require found assert_exception);
  _ ← ensure (has_private_key (wr_data account_key_record));
  found ← wallet_reads (lookup_account (address_of_key (kd_public_key (wr_data account_key_record))));
  account ← lift (require found assert_exception);
  mret (owner_key_record, account_key_record, account).

(** [transaction_builder::cancel_market_order] *)
Definition cancel_market_order (order_id : Z) : eff building unit :=
  order ← lift (require (we_market_order env order_id) unknown_market_order);
  '(owner_key_record, account_key_record, account) ← order_account order;
  balance ← lift (get_balance order);
  _ ← lift (throw_if (amount balance =? 0) zero_amount);
  let owner := mo_owner order in
  let p := mo_price order in
  _ ← match mo_type order with
      | ask_order => on_trx (tx_ask (asset_opp balance) p owner)
      | bid_order => on_trx (tx_bid (asset_opp balance) p owner)
      | relative_ask_order => on_trx tx_relative_ask
      | relative_bid_order => on_trx tx_relative_bid
      | short_order => on_trx (tx_short_sell (asset_opp balance) p owner None)
      | _ => throw invalid_cancel
      end;
  let account_address := owner_address (wr_data account) in
  _ ← credit_balance account_address balance;
  _ ← set_order_key_once account_address (kd_public_key (wr_data owner_key_record));
  _ ← on_record set_td_market;
  _ ← add_entry (entry (Some (kd_public_key (wr_data owner_key_record)))
        (Some (kd_public_key (wr_data account_key_record))) balance ("cancel " +:+ we_small_id env order));
  require_signature owner.

(** What [submit_bid], [submit_ask], their relative forms and [submit_short] share
    once the cost is known. *)
Definition submit_order (from_account : account_data) (cost : asset)
    (place : Z -> signed_transaction -> signed_transaction) (memo : string) : eff building unit :=
  let account_address := owner_address from_account in
  order_key ← order_key_for_account account_address (ac_name (ad_account from_account));
  _ ← deduct_balance account_address cost;
  _ ← on_trx (place (address_of_key order_key));
  _ ← on_record set_td_market;
  _ ← add_entry (entry (Some (owner_key from_account)) (Some order_key) cost memo);
  require_signature (address_of_key order_key).

Definition submit_bid (from_account : account_data) (real_quantity : asset) (quote_price : price)
    : eff building unit :=
  _ ← validate_market (quote_asset_id quote_price) (base_asset_id quote_price);
  cost ← lift (asset_mul real_quantity quote_price);
  _ ← ensure (asset_id cost =? quote_asset_id quote_price);
  submit_order from_account cost (tx_bid cost quote_price)
    ("buy " +:+ we_asset_symbol env (base_asset_id quote_price) +:+ " @ " +:+ we_pretty_price env quote_price).

Definition submit_relative_bid (from_account : account_data) (real_quantity : asset) (quote_price : price)
    : eff building unit :=
  _ ← validate_market (quote_asset_id quote_price) (base_asset_id quote_price);
  cost ← lift (asset_mul real_quantity quote_price);
  _ ← ensure (asset_id cost =? quote_asset_id quote_price);
  submit_order from_account cost (fun _ => tx_relative_bid)
    ("relative buy " +:+ we_asset_symbol env (base_asset_id quote_price) +:+ " @ delta "
     +:+ we_pretty_price env quote_price).

Definition submit_ask (from_account : account_data) (cost : asset) (quote_price : price)
    : eff building unit :=
  _ ← validate_market (quote_asset_id quote_price) (base_asset_id quote_price);
  _ ← ensure (asset_id cost =? base_asset_id quote_price);
  submit_order from_account cost (tx_ask cost quote_price)
    ("sell " +:+ we_asset_symbol env (base_asset_id quote_price) +:+ " @ " +:+ we_pretty_price env quote_price).

Definition submit_relative_ask (from_account : account_data) (cost : asset) (quote_price : price)
    : eff building unit :=
  _ ← validate_market (quote_asset_id quote_price) (base_asset_id quote_price);
  _ ← ensure (asset_id cost =? base_asset_id quote_price);
  submit_order from_account cost (fun _ => tx_relative_ask)
    ("relative sell " +:+ we_asset_symbol env (base_asset_id quote_price) +:+ " @ delta "
     +:+ we_pretty_price env quote_price).

Definition submit_short (from_account : account_data) (short_collateral_amount : asset)
    (interest_rate : price) (price_limit : option price) : eff building unit :=
  _ ← validate_market (quote_asset_id interest_rate) (base_asset_id interest_rate);
  _ ← ensure (match price_limit with
              | None => true
              | Some l => (quote_asset_id interest_rate =? quote_asset_id l)
                          && (base_asset_id interest_rate =? base_asset_id l)
              end);
  let cost := short_collateral_amount in
  _ ← ensure (asset_id cost =? 0);
  submit_order from_account cost (fun owner => tx_short_sell cost interest_rate owner price_limit)
    ("short " +:+ we_asset_symbol env (quote_asset_id interest_rate) +:+ " @ "
     +:+ ratio_string (wrapu128 (ratio interest_rate * 100)) +:+ "% APR").

(** [transaction_builder::submit_cover] *)
Definition covers_of (owner : Z) (t : signed_transaction) : bool :=
  existsb (fun o => match o with
                    | Op_cover c => mk_owner (co_cover_index c) =? owner
                    | _ => false
                    end) (tx_operations t).

(** The balance with the interest it will owe when the transaction expires. *)
Definition owed_at_expiration (order : market_order) (balance : asset) (expiration_sec : Z) : result asset :=
  expiration ← require (mo_expiration order) assertion_abort;
  rate ← require (mo_interest_rate order) assertion_abort;
  let start := wrapu32 (expiration - BTS_BLOCKCHAIN_MAX_SHORT_PERIOD_SEC) in
  interest ← get_interest_owed balance rate
    (wrapu32 (wrapu32 (cv_now (we_chain env) + expiration_sec) - start));
  asset_add balance interest.

Definition get_transaction_expiration (w : wallet_db) : result Z :=
  _ ← fc_assert (is_open w); variant_as_int (get_property transaction_expiration_sec w).

(** The amount the account pays: not more than is owed, not more than it has. *)
Definition cover_payment (from_name : string) (cover_amount owed : asset) (w : wallet_db) : result asset :=
  account_balances ← get_account_balances from_name true w;
  balances ← require (account_balances !! from_name) assert_exception;
  available ← require (balances !! asset_id owed) assert_exception;
  let cover_amount := if asset_gtb cover_amount owed || (amount cover_amount =? 0) then owed else cover_amount in
  _ ← fc_assert (asset_leb cover_amount (mk_asset available (asset_id owed)));
  Ok cover_amount.

Definition submit_cover (from_account : account_data) (cover_amount : asset) (order_id : Z)
    : eff building unit :=
  order ← lift (require (we_market_order env order_id) unknown_market_order);
  '(owner_key_record, _, account) ← order_account order;
  let from_name := ac_name (ad_account from_account) in
  let from_address := owner_address from_account in
  let order_key := kd_public_key (wr_data owner_key_record) in
  _ ← ensure (String.eqb (ac_name (ad_account (wr_data account))) from_name);
  covered ← builder_reads (fun b => bool_decide (from_address ∈ tb_accounts_with_covers b));
  _ ← lift (throw_if covered double_cover);
  _ ← on_builder (fun b => set_tb_covers ({[ from_address ]} ∪ tb_accounts_with_covers b) b);
  _ ← lift (throw_if (existsb (covers_of (mo_owner order)) (we_pending_transactions env)) double_cover);
  _ ← set_order_key_once from_address order_key;
  principal ← lift (get_balance order);
  _ ← lift (throw_if (amount principal =? 0) zero_amount);
  _ ← ensure (asset_id principal =? asset_id cover_amount);
  expiration_sec ← wallet_reads get_transaction_expiration;
  owed ← lift (owed_at_expiration order principal expiration_sec);
  cover_amount ← wallet_reads (cover_payment from_name cover_amount owed);
  left ← lift (asset_sub owed cover_amount);
  _ ← (if amount left =? 0 then
         c ← lift (require (mo_collateral order) assertion_abort);
         let collateral := mk_asset c 0 in
         _ ← credit_balance from_address collateral;
         add_entry (entry (Some order_key) (Some (owner_key from_account)) collateral "cover proceeds")
       else mret tt);
  _ ← deduct_balance from_address cover_amount;
  _ ← on_trx (tx_cover cover_amount (mo_index order));
  _ ← on_record set_td_market;
  _ ← add_entry (entry (Some (owner_key from_account)) (Some order_key) cover_amount "payoff debt");
  require_signature (address_of_key order_key).

(** ** Paying the fee and levelling the balances *)

(** The order of a [std::map] keyed by account address and asset. *)
Definition pair_le (x y : (Z * Z) * Z) : Prop := x.1.1 < y.1.1 \/ x.1.1 = y.1.1 /\ x.1.2 <= y.1.2.
#[global] Instance pair_le_dec : RelDecision pair_le.
Proof. intros x y. unfold pair_le. apply _. Defined.
Definition outstanding_balances (b : builder) : list ((Z * Z) * Z) :=
  merge_sort pair_le (map_to_list (tb_outstanding b)).
Definition asset_le (x y : Z * Z) : Prop := x.1 <= y.1.
#[global] Instance asset_le_dec : RelDecision asset_le.
Proof. intros x y. unfold asset_le. apply _. Defined.
Definition by_asset (m : gmap Z Z) : list (Z * Z) := merge_sort asset_le (map_to_list m).

(** [all_positive_balances] *)
Definition all_positive_balances (b : builder) : gmap Z Z :=
  foldl (fun m e => if e.2 >? 0 then <[e.1.2 := wrap64 (default 0 (m !! e.1.2) + e.2)]> m else m)
    ∅ (outstanding_balances b).

(** The first asset that can pay, with the fee in it. *)
Fixpoint choose_fee (w : wallet_db) (available : list (Z * Z)) : result (option asset) :=
  match available with
  | [] => Ok None
  | (id, amt) :: available =>
      can ← asset_can_pay_fee id w;
      if (can : bool) then
        fee ← get_transaction_fee id w;
        if amt >=? amount fee then Ok (Some fee) else choose_fee w available
      else choose_fee w available
  end.

(** The loop of [pay_fee] over the balances of the fee's asset: a balance that does
    not cover what is left of the fee is taken whole, a negative one included. *)
Fixpoint charge_fee (required_id required : Z) (l : list ((Z * Z) * Z)) (m : gmap (Z * Z) Z)
    : gmap (Z * Z) Z * bool :=
  match l with
  | [] => (m, false)
  | (k, v) :: l =>
      if negb (k.2 =? required_id) then charge_fee required_id required l m
      else if required >? v then charge_fee required_id (wrap64 (required - v)) l (<[k := 0]> m)
      else (<[k := wrap64 (v - required)]> m, true)
  end.

(** [transaction_builder::withdraw_fee]: an account of the transaction that can pay
    from its balances. *)
Fixpoint affordable_fee (w : wallet_db) (balances : list (Z * Z)) : result (option asset) :=
  match balances with
  | [] => Ok None
  | (id, amt) :: balances =>
      fee ← get_transaction_fee id w;
      if negb (asset_id fee =? id) || asset_gtb fee (mk_asset amt id) then affordable_fee w balances
      else Ok (Some fee)
  end.
Fixpoint fee_payer (w : wallet_db) (balances : gmap string (gmap Z Z)) (l : list ((Z * Z) * Z))
    : result (option (Z * asset)) :=
  match l with
  | [] => Ok None
  | ((bag_holder, _), _) :: l =>
      account ← lookup_account bag_holder w;
      match account ≫= fun a => balances !! ac_name (ad_account (wr_data a)) with
      | None => fee_payer w balances l
      | Some account_balances =>
          fee ← affordable_fee w (by_asset account_balances);
          match fee with
          | Some fee => Ok (Some (bag_holder, fee))
          | None => fee_payer w balances l
          end
      end
  end.
Definition withdraw_fee : eff building bool :=
  payer ← reads (fun s =>
    balances ← get_account_balances EmptyString false (bg_wallet s);
    fee_payer (bg_wallet s) balances (outstanding_balances (bg_builder s)));
  match payer with
  | None => mret false
  | Some (bag_holder, fee) =>
      _ ← deduct_balance bag_holder fee;
      _ ← on_record (set_td_fee fee);
      mret true
  end.

(** [transaction_builder::pay_fee] *)
Definition pay_fee : eff building unit :=
  required_fee ← reads (fun s =>
    choose_fee (bg_wallet s) (by_asset (all_positive_balances (bg_builder s))));
  paid ← match required_fee with
         | Some fee =>
             _ ← on_record (set_td_fee fee);
             '(m, paid) ← builder_reads (fun b =>
               charge_fee (asset_id fee) (amount fee) (outstanding_balances b) (tb_outstanding b));
             _ ← on_builder (set_tb_outstanding m);
             mret paid
         | None => withdraw_fee
         end;
  if (paid : bool) then mret tt else throw fc_exception.

(** One balance of the loop of [finalize]. *)
Definition level_balance (slate_id : Z) (e : (Z * Z) * Z) : eff building unit :=
  let '((addr, id), amt) := e in
  found ← wallet_reads (lookup_account addr);
  account ← lift (require found assertion_abort);
  let account_name := ac_name (ad_account (wr_data account)) in
  order_key ← order_key_for_account addr account_name;
  if amt =? 0 then mret tt
  else if amt >? 0 then try_trx (tx_deposit (address_of_key order_key) (mk_asset amt id) slate_id)
  else withdraw_to_transaction (asset_opp (mk_asset amt id)) account_name.

(** [transaction_builder::finalize] *)
Definition set_tx_expiration (t : Z) (trx : signed_transaction) : signed_transaction :=
  mk_trx t (tx_delegate_slate_id trx) (tx_operations trx) (tx_signatures trx).
Definition finalize (slate : delegate_slate) (pays_fee : bool) : eff building unit :=
  trx ← builder_reads tb_trx;
  _ ← ensure (bool_decide (tx_operations trx <> []));
  let define := bool_decide (sl_supported_delegates slate <> [])
                && bool_decide (cv_slate (we_chain env) (slate_id slate) = None) in
  _ ← (if define then try_trx (tx_define_delegate_slate slate) else mret tt);
  let slate_id := if define then slate_id slate else 0 in
  _ ← (if pays_fee then pay_fee else mret tt);
  entries ← builder_reads outstanding_balances;
  _ ← eff_each (level_balance slate_id) entries;
  trx ← builder_reads tb_trx;
  _ ← (if tx_expiration trx =? 0 then
         secs ← wallet_reads get_transaction_expiration;
         on_trx (set_tx_expiration (wrapu32 (we_clock env + secs)))
       else mret tt);
  on_record (fun r => set_td_created (trx_id (td_trx r)) (we_clock env) r).

(** ** Signing *)

(** [transaction_builder::sign]: an address whose key the wallet does not have is
    passed over; [trx.sign] appends a signature. *)
Definition add_signature (sig : Z) (t : signed_transaction) : signed_transaction :=
  mk_trx (tx_expiration t) (tx_delegate_slate_id t) (tx_operations t) (tx_signatures t ++ [sig]).
Definition sign_for (chain_id addr : Z) : eff building unit :=
  ignoring (key ← wallet_reads (get_private_key addr);
            on_trx (fun t => add_signature (sign_digest key (trx_digest t chain_id)) t)).
Definition sign (chain_id : Z) : eff building unit :=
  addrs ← builder_reads (fun b => elements (tb_required_signatures b));
  eff_each (sign_for chain_id) addrs.

(** [is_signed] *)
Definition is_signed (b : builder) : bool :=
  Z.of_nat (size (tb_required_signatures b)) =? Z.of_nat (length (tx_signatures (tb_trx b))).
End builder.
