(* ===== verification/BuilderFacts.v ===== *)
(** * BuilderFacts: the books of a built transaction

    What a transaction's operations bring in and pay out of each asset
    ([trx_yield]) against what the builder has noted for its accounts
    ([outstanding_total]): the builder functions keep the two equal, paying the fee
    lowers the second by the fee, and [finalize] levels the second with withdrawals
    and deposits, so that a finished transaction brings in exactly the fee. *)
From S2P Require Import Prelude Config Fc Asset Records ChainInterface OrderBook MarketOps PriceText.
From S2P Require Import Eff WalletDb Builder.
From stdpp Require Import sorting.
#[local] Open Scope Z_scope.

Section books.
Context `{Crypto} `{WalletCrypto} `{FcNum} `{FcReal} `{BuilderCrypto}.
Context (env : wallet_env).
Implicit Types s : building.

(** [v] of the asset [id]. *)
Definition at_asset (id v : Z) : Z -> Z := fun a => if a =? id then v else 0.

(** What an operation brings to its transaction, of each asset: what it withdraws
    from a balance or a delegate's pay or issues, less what it deposits, burns or
    puts in an order or a collateral. *)
Definition op_yield (o : operation) : Z -> Z :=
  match o with
  | Op_withdraw w =>
      match cv_balance (we_pending env) (wo_balance_id w) with
      | Some r => at_asset (wc_asset_id (br_condition r)) (wo_amount w)
      | None => fun _ => 0
      end
  | Op_deposit d => at_asset (wc_asset_id (do_condition d)) (- do_amount d)
  | Op_bid b => at_asset (quote_asset_id (mk_order_price (bo_bid_index b))) (- bo_amount b)
  | Op_ask b => at_asset (base_asset_id (mk_order_price (ao_ask_index b))) (- ao_amount b)
  | Op_short b => at_asset (base_asset_id (mk_order_price (sh_short_index b))) (- sh_amount b)
  | Op_withdraw_pay w => at_asset 0 (wp_amount w)
  | Op_burn b => at_asset (asset_id (bu_amount b)) (- amount (bu_amount b))
  | Op_issue_asset i => at_asset (asset_id (ia_amount i)) (amount (ia_amount i))
  | Op_add_collateral c => at_asset (base_asset_id (mk_order_price (ad_cover_index c))) (- ad_amount c)
  | _ => fun _ => 0
  end.
Definition ops_yield (l : list operation) (a : Z) : Z := foldr (fun o acc => op_yield o a + acc) 0 l.
Definition trx_yield (s : building) (a : Z) : Z := ops_yield (tx_operations (tb_trx (bg_builder s))) a.

(** What the builder owes its accounts of an asset. *)
Definition outstanding_total (s : building) (a : Z) : Z :=
  map_ksum (fun k v => if k.2 =? a then v else 0) (tb_outstanding (bg_builder s)).

Lemma ops_yield_app l1 l2 a : ops_yield (l1 ++ l2) a = ops_yield l1 a + ops_yield l2 a.
Proof. unfold ops_yield. induction l1 as [|o l1 IH]; cbn; [done|]. rewrite IH. lia. Qed.

Lemma trx_yield_push o t a :
  ops_yield (tx_operations (push_op o t)) a = ops_yield (tx_operations t) a + op_yield o a.
Proof. cbn [push_op tx_operations]. rewrite ops_yield_app. cbn. lia. Qed.

(** [m], where it does not throw, brings [Y] to the transaction and adds [T] to what
    is outstanding. *)
Definition moves (Y T : Z -> Z) {A} (m : eff building A) : Prop :=
  forall s s' x, m s = (s', Ok x) ->
  forall a, trx_yield s' a ≡64 trx_yield s a + Y a /\
            outstanding_total s' a ≡64 outstanding_total s a + T a.

Definition nothing : Z -> Z := fun _ => 0.

Lemma moves_bind Y1 T1 Y2 T2 {A B} (m : eff building A) (k : A -> eff building B) :
  moves Y1 T1 m -> (forall x, moves Y2 T2 (k x)) ->
  moves (fun a => Y1 a + Y2 a) (fun a => T1 a + T2 a) (m ≫= k).
Proof.
  intros Hm Hk s s' x (s1 & y & Hx & Hy)%eff_bind_Ok a.
  destruct (Hm _ _ _ Hx a) as [Hy1 Ht1]. destruct (Hk _ _ _ _ Hy a) as [Hy2 Ht2].
  rewrite Hy2, Ht2, Hy1, Ht1. split; apply eq_eqm64; lia.
Qed.

Lemma moves_ext Y T Y' T' {A} (m : eff building A) :
  (forall a, Y' a ≡64 Y a) -> (forall a, T' a ≡64 T a) -> moves Y T m -> moves Y' T' m.
Proof. intros HY HT Hm s s' x Hr a. rewrite HY, HT. by apply (Hm s s' x). Qed.

(** A step that moves nothing, before one that does. *)
Lemma moves_then Y T {A B} (m : eff building A) (k : A -> eff building B) :
  moves nothing nothing m -> (forall s s1 x, m s = (s1, Ok x) -> moves Y T (k x)) -> moves Y T (m ≫= k).
Proof.
  intros Hm Hk s s' x (s1 & y & Hx & Hy)%eff_bind_Ok a.
  destruct (Hm _ _ _ Hx a) as [Hy1 Ht1]. destruct (Hk _ _ _ Hx _ _ _ Hy a) as [Hy2 Ht2].
  rewrite Hy2, Ht2, Hy1, Ht1. unfold nothing. split; apply eq_eqm64; lia.
Qed.

(** A step that moves nothing, after one that does. *)
Lemma moves_before Y T {A B} (m : eff building A) (k : A -> eff building B) :
  moves Y T m -> (forall x, moves nothing nothing (k x)) -> moves Y T (m ≫= k).
Proof.
  intros Hm Hk. eapply moves_ext; [| |exact (moves_bind _ _ _ _ m k Hm Hk)]; intros a;
    apply eq_eqm64; unfold nothing; lia.
Qed.

Lemma still_same {A} (m : eff building A) :
  (forall s s' x, m s = (s', Ok x) ->
     tx_operations (tb_trx (bg_builder s')) = tx_operations (tb_trx (bg_builder s)) /\
     tb_outstanding (bg_builder s') = tb_outstanding (bg_builder s)) ->
  moves nothing nothing m.
Proof.
  intros Hm s s' x Hr a. destruct (Hm _ _ _ Hr) as [Ho Ht].
  unfold trx_yield, outstanding_total, nothing. rewrite Ho, Ht. split; apply eq_eqm64; lia.
Qed.

Lemma moves_ret {A} (x : A) : moves nothing nothing (mret x).
Proof. apply still_same. intros s s' y Hr. by inv_eff. Qed.
Lemma moves_reads {A} (f : building -> result A) : moves nothing nothing (reads f).
Proof. apply still_same. intros s s' y Hr. by inv_eff. Qed.
Lemma moves_wallet_reads {A} (f : wallet_db -> result A) : moves nothing nothing (wallet_reads f).
Proof. apply moves_reads. Qed.
Lemma moves_builder_reads {A} (f : builder -> A) : moves nothing nothing (builder_reads f).
Proof. apply moves_reads. Qed.
Lemma moves_lift {A} (r : result A) : moves nothing nothing (lift r).
Proof. apply still_same. intros s s' y Hr. by inv_eff. Qed.
Lemma moves_ensure c : moves nothing nothing (ensure c).
Proof. apply moves_lift. Qed.
Lemma moves_throw {A} Y T e : moves Y T (throw e : eff building A).
Proof. intros s s' x Hr. discriminate Hr. Qed.
Lemma moves_on_wallet {A} (m : eff wallet_db A) : moves nothing nothing (on_wallet m).
Proof.
  apply still_same. intros s s' y. unfold on_wallet. destruct (m (bg_wallet s)) as [w r].
  by intros [= <- _].
Qed.

(** Changes of the builder that touch neither the operations nor the balances. *)
Lemma moves_on_builder f :
  (forall b, tx_operations (tb_trx (f b)) = tx_operations (tb_trx b)) ->
  (forall b, tb_outstanding (f b) = tb_outstanding b) -> moves nothing nothing (on_builder f).
Proof.
  intros Ho Ht. apply still_same. intros s s' y Hr. unfold on_builder in Hr. inv_eff. cbn. by rewrite Ho, Ht.
Qed.

Lemma moves_each_still {A} (f : A -> eff building unit) l :
  (forall x, moves nothing nothing (f x)) -> moves nothing nothing (eff_each f l).
Proof.
  intros Hf. unfold eff_each. induction l as [|x l IH]; cbn; [apply moves_ret|].
  apply moves_then; [apply Hf|]. intros ? ? [] ?. apply IH.
Qed.

(** ** Changes of the transaction and of a balance *)

Lemma moves_on_trx o : moves (op_yield o) nothing (on_trx (push_op o)).
Proof.
  intros s s' x Hr a. unfold on_trx, on_record, on_builder in Hr. inv_eff.
  unfold trx_yield, outstanding_total, nothing. cbn -[push_op]. rewrite trx_yield_push.
  split; apply eq_eqm64; unfold tb_trx; lia.
Qed.

Lemma moves_try_trx o f :
  (forall t t', f t = Ok t' -> t' = push_op o t) -> moves (op_yield o) nothing (try_trx f).
Proof.
  intros Hf s s' x Hr. unfold try_trx in Hr. apply eff_bind_Ok in Hr as (s1 & t & Hx & Hy). inv_eff.
  match goal with Hft : f _ = Ok _ |- _ => apply Hf in Hft; subst end.
  apply (moves_on_trx o s s' x). revert Hy. by unfold on_trx, on_record, on_builder, update.
Qed.

Lemma moves_change_balance account id delta :
  moves nothing (at_asset id delta) (change_balance account id delta).
Proof.
  intros s s' x Hr a. unfold change_balance, on_builder in Hr. inv_eff.
  unfold trx_yield, outstanding_total, nothing, at_asset. cbn. split; [apply eq_eqm64; by rewrite Z.add_0_r|].
  rewrite map_ksum_insert. cbn. rewrite (Z.eqb_sym a id). destruct (Z.eqb_spec id a) as [->|Hne].
  - destruct (tb_outstanding (bg_builder s) !! (account, a)) as [v|]; cbn.
    + rewrite Z.eqb_refl, wrap64_eqm. apply eq_eqm64. lia.
    + rewrite wrap64_eqm. apply eq_eqm64. lia.
  - destruct (tb_outstanding (bg_builder s) !! (account, id)) as [v|]; cbn.
    + rewrite (proj2 (Z.eqb_neq _ _) Hne). apply eq_eqm64. lia.
    + apply eq_eqm64. lia.
Qed.

Lemma moves_deduct_balance account amt :
  moves nothing (at_asset (asset_id amt) (- amount amt)) (deduct_balance account amt).
Proof. apply moves_then; [apply moves_lift|]. intros ? ? ? ?. apply moves_change_balance. Qed.
Lemma moves_credit_balance account amt :
  moves nothing (at_asset (asset_id amt) (amount amt)) (credit_balance account amt).
Proof. apply moves_then; [apply moves_lift|]. intros ? ? ? ?. apply moves_change_balance. Qed.

(** ** The builder functions *)

Lemma moves_set_order_key a k : moves nothing nothing (set_order_key a k).
Proof. by apply moves_on_builder. Qed.
Lemma moves_order_key a name : moves nothing nothing (order_key_for_account env a name).
Proof.
  apply moves_then; [apply moves_reads|]. intros ? ? k _. destruct (k =? null_key); [|apply moves_ret].
  apply moves_then; [apply moves_set_order_key|]. intros ? ? ? _.
  apply moves_then; [apply moves_on_wallet|]. intros ? ? ? _.
  apply moves_then; [apply moves_set_order_key|]. intros ? ? ? _. apply moves_ret.
Qed.
Lemma moves_set_order_key_once a k : moves nothing nothing (set_order_key_once a k).
Proof.
  apply moves_then; [apply moves_reads|]. intros ? ? [] _; [apply moves_ret|apply moves_set_order_key].
Qed.
Lemma moves_on_record f : (forall r, tx_operations (td_trx (f r)) = tx_operations (td_trx r)) ->
  moves nothing nothing (on_record f).
Proof. intros Hf. apply moves_on_builder; [intros b; apply Hf|done]. Qed.
Lemma moves_add_entry e : moves nothing nothing (add_entry e).
Proof. by apply moves_on_record. Qed.
Lemma moves_require_signature a : moves nothing nothing (require_signature a).
Proof. by apply moves_on_builder. Qed.

Lemma moves_define_slate slate : moves nothing nothing (try_trx (tx_define_delegate_slate slate)).
Proof.
  apply (moves_try_trx (Op_define_slate (mk_define_slate slate))). intros t t' Ht.
  unfold tx_define_delegate_slate in Ht. by repeat inv_ok_step.
Qed.
Lemma moves_select_slate slate id : moves nothing nothing (select_slate env slate id).
Proof.
  unfold select_slate. destruct (negb _); [apply moves_ret|].
  apply moves_then; [|intros ? ? ? _; apply moves_ret].
  destruct (_ && _); [apply moves_define_slate|apply moves_ret].
Qed.

Lemma moves_tx_deposit owner amt slate_id :
  moves (at_asset (asset_id amt) (- amount amt)) nothing (try_trx (tx_deposit owner amt slate_id)).
Proof.
  apply (moves_try_trx (Op_deposit (mk_deposit (amount amt)
    (signature_condition owner (asset_id amt) slate_id None)))).
  intros t t' Ht. unfold tx_deposit in Ht. by repeat inv_ok_step.
Qed.

Lemma moves_tx_deposit_to_account owner memo amt slate_id :
  moves (at_asset (asset_id amt) (- amount amt)) nothing (on_trx (tx_deposit_to_account owner memo amt slate_id)).
Proof.
  apply (moves_on_trx (Op_deposit (mk_deposit (amount amt)
    (signature_condition owner (asset_id amt) slate_id (Some memo))))).
Qed.

Create HintDb moves.
#[local] Hint Resolve moves_ret moves_reads moves_lift moves_wallet_reads moves_builder_reads moves_ensure moves_on_wallet moves_order_key
  moves_set_order_key_once moves_add_entry moves_require_signature moves_select_slate : moves.

(** Takes the steps that move nothing. *)
Ltac still :=
  repeat (apply moves_then;
          [solve [eauto with moves nocore|by apply moves_on_record|by apply moves_on_builder]
          |intros ? ? ? ?]);
  try solve [eauto with moves nocore|by apply moves_on_record|by apply moves_on_builder].

(** The transaction pays what the account is charged. *)
Lemma moves_pay Y T {A} (m : eff building A) {B} (k : A -> eff building B) D :
  moves Y nothing m -> (forall x, moves nothing T (k x)) ->
  (forall a, D a ≡64 Y a) -> (forall a, D a ≡64 T a) -> moves D D (m ≫= k).
Proof.
  intros Hm Hk HY HT. eapply moves_ext; [| |exact (moves_bind _ _ _ _ m k Hm Hk)]; intros a; cbn.
  - rewrite HY. apply eq_eqm64. unfold nothing. lia.
  - rewrite HT. apply eq_eqm64. unfold nothing. lia.
Qed.

Lemma moves_deposit_asset_to_address slate payer to_addr amt memo :
  let D := at_asset (asset_id amt) (- amount amt) in
  moves D D (deposit_asset_to_address env slate payer to_addr amt memo).
Proof.
  intros D. unfold deposit_asset_to_address. still.
  apply (moves_pay D D); [apply moves_tx_deposit| |done..]. intros ?.
  apply moves_before; [apply moves_deduct_balance|]. intros ?. apply moves_add_entry.
Qed.

Lemma moves_deposit_asset slate payer recipient amt memo memo_sender :
  let D := at_asset (asset_id amt) (- amount amt) in
  moves D D (deposit_asset env slate payer recipient amt memo memo_sender).
Proof.
  intros D. unfold deposit_asset. still. apply (moves_pay D D); [| |done..].
  - destruct (account_is_public recipient); still.
    + apply moves_before; [apply moves_tx_deposit|]. intros ?. apply moves_ret.
    + case_match.
      apply moves_before; [apply moves_tx_deposit_to_account|intros ?; apply moves_ret].
  - intros ?. apply moves_before; [apply moves_deduct_balance|]. intros ?. still.
Qed.

(** An order costs the account what it puts in the market. *)
Lemma moves_submit_order from_account cost (o : Z -> operation) memo :
  let D := at_asset (asset_id cost) (- amount cost) in
  (forall k a, op_yield (o k) a = D a) ->
  moves D D (submit_order env from_account cost (fun k => push_op (o k)) memo).
Proof.
  intros D HD. unfold submit_order. still.
  eapply moves_ext; [| |eapply moves_bind; [apply moves_deduct_balance|intros ?]].
  3:{ apply moves_before; [apply (moves_on_trx (o _))|]. intros ?. still. }
  - intros a. cbn beta. rewrite HD. apply eq_eqm64. unfold nothing. lia.
  - intros a. cbn beta. apply eq_eqm64. unfold nothing, D. lia.
Qed.

#[local] Opaque submit_order.

Lemma moves_submit_bid from_account quantity p :
  exists D, moves D D (submit_bid env from_account quantity p).
Proof.
  destruct (asset_mul quantity p) as [cost|e] eqn:Hc.
  - exists (at_asset (asset_id cost) (- amount cost)). unfold submit_bid. rewrite Hc. still.
    match goal with Hl : lift (Ok _) _ = _, He : ensure _ _ = _ |- _ =>
      apply lift_Ok in Hl as [_ [= ->]]; apply ensure_Ok in He as [_ He%Z.eqb_eq]; rename He into Hid end.
    apply (moves_submit_order _ _ (fun k => Op_bid (mk_bid _ (mk_market_key p k)))).
    intros k a. cbn. by rewrite Hid.
  - exists nothing. unfold submit_bid. rewrite Hc. still.
    match goal with Hl : lift (Err _) _ = _ |- _ => by apply lift_Ok in Hl as [_ ?] end.
Qed.

Lemma moves_submit_ask from_account cost p :
  let D := at_asset (asset_id cost) (- amount cost) in
  moves D D (submit_ask env from_account cost p).
Proof.
  intros D. unfold submit_ask. still.
  match goal with He : ensure _ _ = _ |- _ => apply ensure_Ok in He as [_ He%Z.eqb_eq]; rename He into Hid end.
  apply (moves_submit_order _ _ (fun k => Op_ask (mk_ask _ (mk_market_key p k)))).
  intros k a. cbn. by rewrite <- Hid.
Qed.

Lemma moves_submit_short from_account cost rate limit :
  let D := at_asset (asset_id cost) (- amount cost) in
  base_asset_id rate = 0 -> moves D D (submit_short env from_account cost rate limit).
Proof.
  intros D Hb. unfold submit_short. still.
  match goal with He : ensure (_ =? 0) _ = _ |- _ => apply ensure_Ok in He as [_ He%Z.eqb_eq]; rename He into Hid end.
  apply (moves_submit_order _ _ (fun k => Op_short (mk_short _ (mk_market_key rate k) limit))).
  intros k a. cbn. by rewrite Hb, Hid.
Qed.

Lemma moves_order_account o : moves nothing nothing (order_account o).
Proof. unfold order_account. still. Qed.
#[local] Hint Resolve moves_order_account : moves.
#[local] Opaque order_account.

(** A cancelled order returns to the account what it held. *)
Lemma moves_cancel_order from amt (o : operation) {B} (k : unit -> eff building B) :
  (forall a, op_yield o a ≡64 at_asset (asset_id amt) (amount amt) a) ->
  (forall x, moves nothing nothing (k x)) ->
  let D := at_asset (asset_id amt) (amount amt) in
  moves D D (_ ← on_trx (push_op o); x ← credit_balance from amt; k x).
Proof.
  intros Ho Hk D. apply (moves_pay (op_yield o) D); [apply moves_on_trx| |by intros a; rewrite Ho|done].
  intros ?. apply moves_before; [apply moves_credit_balance|done].
Qed.

Lemma moves_cancel_market_order order_id order :
  we_market_order env order_id = Some order ->
  mo_type order = bid_order \/ mo_type order = ask_order \/ mo_type order = short_order ->
  exists D, moves D D (cancel_market_order env order_id).
Proof.
  intros Ho Hty. unfold cancel_market_order. rewrite Ho. cbn [require].
  destruct (get_balance order) as [balance|e] eqn:Hb.
  - exists (at_asset (asset_id balance) (amount balance)).
    apply moves_then; [apply moves_lift|]. intros ? ? o Hl. apply lift_Ok in Hl as [_ [= <-]].
    apply moves_then; [apply moves_order_account|]. intros ? ? [[k1 k2] acct] _. cbn beta iota.
    apply moves_then; [apply moves_lift|]. intros ? ? b Hl.
    apply lift_Ok in Hl as [_ Hl]. rewrite Hb in Hl. injection Hl as <-.
    apply moves_then; [apply moves_lift|]. intros ? ? ? _.
    unfold get_balance in Hb.
    destruct Hty as [Hty|[Hty|Hty]]; rewrite Hty in *; injection Hb as <-;
      (apply moves_cancel_order; [|intros ?; still]); intros a; cbn; unfold at_asset;
      (destruct (_ =? _); [|done]); rewrite wrap64_eqm; apply eq_eqm64; lia.
  - unfold get_balance in Hb. by destruct Hty as [Hty|[Hty|Hty]]; rewrite Hty in Hb.
Qed.

Lemma moves_update_signing_key name delegate key :
  moves nothing nothing (update_signing_key env name delegate key).
Proof.
  unfold update_signing_key. still.
  apply moves_then; [apply (moves_on_trx (Op_update_signing_key _))|]. intros ? ? ? _.
  apply moves_then; [|intros ? ? ? _; still].
  eapply moves_ext; [| |apply moves_deduct_balance]; [done|].
  intros a. apply eq_eqm64. unfold at_asset, nothing. by destruct (_ =? _).
Qed.

(** ** The books *)

(** What the operations bring in is what is owed to the accounts. *)
Definition balanced (s : building) : Prop := forall a, trx_yield s a ≡64 outstanding_total s a.

(** The builder functions that change balances through the transaction alone, where
    they return.  (A multisig deposit is charged a fee besides, [multisig_charged_twice];
    a cover returns collateral the chain computes.) *)
Inductive builder_step (s s' : building) : Prop :=
| step_deposit_asset slate payer recipient amt memo memo_sender :
    deposit_asset env slate payer recipient amt memo memo_sender s = (s', Ok tt) -> builder_step s s'
| step_deposit_asset_to_address slate payer to_addr amt memo :
    deposit_asset_to_address env slate payer to_addr amt memo s = (s', Ok tt) -> builder_step s s'
| step_submit_bid from_account quantity p :
    submit_bid env from_account quantity p s = (s', Ok tt) -> builder_step s s'
| step_submit_ask from_account cost p :
    submit_ask env from_account cost p s = (s', Ok tt) -> builder_step s s'
| step_submit_short from_account cost rate limit :
    base_asset_id rate = 0 -> submit_short env from_account cost rate limit s = (s', Ok tt) ->
    builder_step s s'
| step_cancel_market_order order_id order :
    we_market_order env order_id = Some order ->
    mo_type order = bid_order \/ mo_type order = ask_order \/ mo_type order = short_order ->
    cancel_market_order env order_id s = (s', Ok tt) -> builder_step s s'
| step_update_signing_key name delegate key :
    update_signing_key env name delegate key s = (s', Ok tt) -> builder_step s s'.

Lemma moves_balanced D {A} (m : eff building A) s s' x :
  moves D D m -> m s = (s', Ok x) -> balanced s -> balanced s'.
Proof. intros Hm Hr Hb a. destruct (Hm s s' x Hr a) as [Hy Ht]. by rewrite Hy, Ht, (Hb a). Qed.

Lemma builder_step_balanced s s' : builder_step s s' -> balanced s -> balanced s'.
Proof.
  intros [].
  - by eapply moves_balanced; [apply moves_deposit_asset|].
  - by eapply moves_balanced; [apply moves_deposit_asset_to_address|].
  - destruct (moves_submit_bid from_account quantity p) as [D HD]. by eapply moves_balanced.
  - by eapply moves_balanced; [apply moves_submit_ask|].
  - by eapply moves_balanced; [apply moves_submit_short|].
  - destruct (moves_cancel_market_order order_id order) as [D HD]; [done..|]. by eapply moves_balanced.
  - by eapply moves_balanced; [apply moves_update_signing_key|].
Qed.

Lemma new_builder_balanced w : balanced (mk_building new_builder w).
Proof. intros a. apply eq_eqm64. unfold trx_yield, outstanding_total. cbn. by rewrite map_ksum_empty. Qed.

Lemma steps_balanced s s' : rtc builder_step s s' -> balanced s -> balanced s'.
Proof. induction 1 as [|s1 s2 s3 Hs _ IH]; [done|]. intros Hb. by apply IH, (builder_step_balanced s1). Qed.

(** ** Paying the fee *)

Lemma total_insert (m : gmap (Z * Z) Z) k v v' a :
  m !! k = Some v ->
  map_ksum (fun k v => if k.2 =? a then v else 0) (<[k := v']> m)
  = map_ksum (fun k v => if k.2 =? a then v else 0) m + (if k.2 =? a then v' - v else 0).
Proof. intros Hk. rewrite map_ksum_insert, Hk. cbn. destruct (k.2 =? a); lia. Qed.

(** The loop takes the fee from the balances of its asset, and nothing else. *)
Lemma charge_fee_total id required l m m' a :
  NoDup l.*1 -> (forall k v, (k, v) ∈ l -> m !! k = Some v) ->
  charge_fee id required l m = (m', true) ->
  map_ksum (fun k v => if k.2 =? a then v else 0) m'
  ≡64 map_ksum (fun k v => if k.2 =? a then v else 0) m + at_asset id (- required) a.
Proof.
  revert required m. induction l as [|[k v] l IH]; intros required m Hnd Hin; cbn [charge_fee]; [done|].
  apply NoDup_cons in Hnd as [Hk Hnd]. pose proof (Hin k v ltac:(left)) as Hv.
  destruct (Z.eqb_spec k.2 id) as [Hid|Hid]; cbn [negb].
  2:{ apply IH; [done|]. intros k0 v0 Hk0. apply Hin. by right. }
  destruct (Z.gtb_spec required v) as [Hgt|Hle].
  - intros Hr. apply IH in Hr; [|done|].
    + rewrite Hr, (total_insert _ _ v) by done. unfold at_asset. rewrite Hid, (Z.eqb_sym a id).
      destruct (id =? a); [|apply eq_eqm64; lia]. rewrite wrap64_eqm. apply eq_eqm64. lia.
    + intros k0 v0 Hk0. rewrite lookup_insert_ne; [apply Hin; by right|].
      intros ->. apply Hk. apply list_elem_of_fmap. by exists (k0, v0).
  - intros [= <-]. rewrite (total_insert _ _ v) by done. unfold at_asset. rewrite Hid, (Z.eqb_sym a id).
    destruct (id =? a); [|apply eq_eqm64; lia]. rewrite wrap64_eqm. apply eq_eqm64. lia.
Qed.

Lemma outstanding_elem b k v :
  (k, v) ∈ outstanding_balances b <-> tb_outstanding b !! k = Some v.
Proof. unfold outstanding_balances. by rewrite merge_sort_Permutation, elem_of_map_to_list. Qed.

Lemma outstanding_nodup b : NoDup (outstanding_balances b).*1.
Proof. unfold outstanding_balances. rewrite merge_sort_Permutation. apply NoDup_fst_map_to_list. Qed.

Lemma withdraw_fee_moves s s' :
  withdraw_fee env s = (s', Ok true) ->
  let fee := td_fee (tb_record (bg_builder s')) in
  tb_trx (bg_builder s') = tb_trx (bg_builder s) /\
  forall a, outstanding_total s' a ≡64 outstanding_total s a + at_asset (asset_id fee) (- amount fee) a.
Proof.
  cbv zeta. unfold withdraw_fee. intros Hr. apply eff_bind_Ok in Hr as (s1 & payer & Hp & Hr). inv_eff.
  destruct payer as [[bag fee]|]; [|discriminate Hr].
  apply eff_bind_Ok in Hr as (s2 & [] & Hd & Hr). unfold on_record, on_builder in Hr. inv_eff. split.
  - unfold deduct_balance, change_balance, on_builder in Hd. by inv_eff.
  - intros a. by destruct (moves_deduct_balance bag fee s s2 tt Hd a) as [_ Ht].
Qed.

Lemma pay_fee_moves s s' :
  pay_fee env s = (s', Ok tt) ->
  let fee := td_fee (tb_record (bg_builder s')) in
  tb_trx (bg_builder s') = tb_trx (bg_builder s) /\
  forall a, outstanding_total s' a ≡64 outstanding_total s a + at_asset (asset_id fee) (- amount fee) a.
Proof.
  cbv zeta. unfold pay_fee. intros Hr. apply eff_bind_Ok in Hr as (s1 & required & Hp & Hr).
  apply eff_reads_Ok in Hp as [-> Hp].
  apply eff_bind_Ok in Hr as (s2 & paid & Hpay & Hr). destruct paid; [|discriminate Hr].
  apply mret_Ok in Hr as [-> _]. destruct required as [fee|]; [|by apply withdraw_fee_moves].
  unfold on_record, on_builder, builder_reads in Hpay.
  apply eff_bind_Ok in Hpay as (s3 & [] & Hf & Hpay). apply update_Ok in Hf as ->.
  apply eff_bind_Ok in Hpay as (s4 & [m paid] & Hc & Hpay). apply eff_reads_Ok in Hc as [-> [= Hc]].
  apply eff_bind_Ok in Hpay as (s5 & [] & Hu & Hpay). apply update_Ok in Hu as ->.
  apply mret_Ok in Hpay as [-> ->]. split; [done|]. intros a.
  by apply (charge_fee_total _ _ _ _ _ a) in Hc;
    [|apply outstanding_nodup|intros k v; by rewrite outstanding_elem].
Qed.

(** ** Withdrawing *)

(** The pending state keeps balances under their ids. *)
Definition balances_keyed : Prop :=
  forall id r, cv_balance (we_pending env) id = Some r -> balance_id r = id.

(** A record of the pending state. *)
Definition pending_record (r : balance_record) : Prop :=
  cv_balance (we_pending env) (balance_id r) = Some r.

Lemma scan_balance_pending name include_empty mask w m r m' :
  balances_keyed -> map_Forall (fun _ l => Forall pending_record l) m ->
  scan_balance env name include_empty mask w m r = Ok m' ->
  map_Forall (fun _ l => Forall pending_record l) m'.
Proof.
  intros Hkey Hm Hr.
  assert (Hadd : forall n p, cv_balance (we_pending env) (balance_id r) = Some p ->
            map_Forall (fun _ l => Forall pending_record l) (<[n := default [] (m !! n) ++ [p]]> m)).
  { intros n p Hp. apply map_Forall_insert_2; [|done]. apply Forall_app. split.
    - destruct (m !! n) as [l|] eqn:Hn; cbn; [by apply (Hm n)|constructor].
    - constructor; [|constructor]. unfold pending_record. by rewrite (Hkey _ _ Hp). }
  unfold scan_balance in Hr.
  repeat first [progress inv_ok_step | case_match; simplify_eq/=; try done]; by apply Hadd.
Qed.

Lemma balance_records_pending name include_empty mask w m n l :
  balances_keyed -> get_account_balance_records env name include_empty mask w = Ok m ->
  m !! n = Some l -> Forall pending_record l.
Proof.
  intros Hkey Hr Hn. unfold get_account_balance_records in Hr. apply bind_Ok in Hr as (_ & _ & Hr).
  cut (map_Forall (fun _ l => Forall pending_record l) m); [intros Hm; by apply (Hm n)|].
  apply (fold_result_inv (fun m => map_Forall (fun _ l => Forall pending_record l) m) _) in Hr; [done| |].
  - intros m1 r m2 Hm1. by apply scan_balance_pending.
  - apply map_Forall_empty.
Qed.

(** What can be spent of a record is of the record's asset. *)
Lemma spendable_asset r now b :
  get_spendable_balance r now = Ok b -> amount b > 0 -> asset_id b = wc_asset_id (br_condition r).
Proof.
  unfold get_spendable_balance. intros Hr Hpos. repeat first [progress inv_ok_step|case_match; simplify_eq/=];
    try done; lia.
Qed.

(** [tx_withdraw] of [amt] from a pending record brings in [amt]. *)
Lemma moves_tx_withdraw r amt :
  pending_record r ->
  moves (at_asset (wc_asset_id (br_condition r)) amt) nothing (try_trx (tx_withdraw (balance_id r) amt)).
Proof.
  intros Hp. eapply moves_ext; [| |apply (moves_try_trx (Op_withdraw (mk_withdraw (balance_id r) amt [])))]; [|done|].
  - intros a. cbn. by rewrite Hp.
  - intros t t' Ht. unfold tx_withdraw in Ht. by repeat inv_ok_step.
Qed.

(** What a record contributes to a withdrawal of the asset [id]. *)
Definition spendable_of (id : Z) (r : balance_record) : Z :=
  match get_spendable_balance r (cv_now (we_pending env)) with
  | Ok b => if (amount b <=? 0) || negb (asset_id b =? id) then 0 else amount b
  | Err _ => 0
  end.
Definition withdrawal (rv : balance_record * Z) : operation :=
  Op_withdraw (mk_withdraw (balance_id rv.1) rv.2 []).
Definition total_of (l : list (balance_record * Z)) : Z := foldr (fun rv acc => rv.2 + acc) 0 l.

(** The withdrawals [ws] were appended, and nothing else changed but the required
    signatures. *)
Definition withdrew (ws : list (balance_record * Z)) (s s' : building) : Prop :=
  tx_operations (tb_trx (bg_builder s')) = tx_operations (tb_trx (bg_builder s)) ++ map withdrawal ws /\
  tb_outstanding (bg_builder s') = tb_outstanding (bg_builder s) /\
  td_fee (tb_record (bg_builder s')) = td_fee (tb_record (bg_builder s)).

Lemma withdrew_nil s : withdrew [] s s.
Proof. unfold withdrew. by rewrite app_nil_r. Qed.
Lemma withdrew_cons r v ws s s1 s2 :
  withdrew [(r, v)] s s1 -> withdrew ws s1 s2 -> withdrew ((r, v) :: ws) s s2.
Proof.
  intros (H1o & H1t & H1f) (H2o & H2t & H2f). unfold withdrew. rewrite H2o, H2t, H2f, H1o, H1t, H1f.
  cbn. by rewrite <- app_assoc.
Qed.

(** One withdrawal: the amount is positive, the owner signs. *)
Lemma withdraw_one {A} r v s s' (x : A) (k : eff building A) :
  (_ ← try_trx (tx_withdraw (balance_id r) v); owner ← lift (balance_owner r);
   _ ← require_signature owner; k) s = (s', Ok x) ->
  0 < v /\ exists s1, withdrew [(r, v)] s s1 /\ k s1 = (s', Ok x).
Proof.
  intros Hr. apply eff_bind_Ok in Hr as (s1 & [] & Ht & Hr). apply eff_bind_Ok in Hr as (s2 & o & Ho & Hr).
  apply lift_Ok in Ho as [-> Ho]. apply eff_bind_Ok in Hr as (s3 & [] & Hs & Hr).
  unfold require_signature, on_builder in Hs. apply update_Ok in Hs as ->.
  unfold try_trx, on_trx, on_record, on_builder in Ht. apply eff_bind_Ok in Ht as (s4 & t & Ht & Hu).
  apply eff_reads_Ok in Ht as [-> Ht]. apply update_Ok in Hu as ->.
  unfold tx_withdraw in Ht. repeat inv_ok_step. split; [lia|]. eexists. split; [|exact Hr]. done.
Qed.

Lemma withdraw_records_ok l rem s s' :
  in_int64 (amount rem) -> withdraw_records env l rem s = (s', Ok true) ->
  exists ws, withdrew ws s s' /\ total_of ws = amount rem /\ ws.*1 `sublist_of` l /\
    Forall (fun rv => 0 < rv.2 <= spendable_of (asset_id rem) rv.1) ws.
Proof.
  revert rem s. induction l as [|r l IH]; intros rem s Hrem; cbn [withdraw_records].
  { intros Hr. apply mret_Ok in Hr as [_ ?]. done. }
  intros Hr. apply eff_bind_Ok in Hr as (s1 & b & Hb & Hr). apply lift_Ok in Hb as [-> Hb].
  assert (Hsp : spendable_of (asset_id rem) r
    = if (amount b <=? 0) || negb (asset_id b =? asset_id rem) then 0 else amount b)
    by (unfold spendable_of; by rewrite Hb).
  destruct ((amount b <=? 0) || negb (asset_id b =? asset_id rem)) eqn:Hskip.
  { destruct (IH rem s Hrem Hr) as (ws & Hw & Ht & Hl & Hf). exists ws. split_and!; [done..| |done].
    by apply sublist_cons. }
  apply orb_false_iff in Hskip as [Hpos Hid]. apply Z.leb_gt in Hpos.
  destruct (Z.gtb_spec (amount rem) (amount b)) as [Hgt|Hle].
  - apply (withdraw_one r (amount b)) in Hr as (_ & s2 & Hw & Hr).
    apply eff_bind_Ok in Hr as (s3 & rem' & Hsub & Hr). apply lift_Ok in Hsub as [-> Hsub].
    unfold asset_sub in Hsub. repeat inv_ok_step.
    assert (Hx : wrap64 (amount rem - amount b) = amount rem - amount b).
    { apply wrap64_id. unfold in_int64, INT64_MIN, INT64_MAX in *. lia. }
    apply IH in Hr as (ws & Hw2 & Ht & Hl & Hf); cbn [amount asset_id] in *.
    2:{ rewrite Hx. unfold in_int64, INT64_MIN, INT64_MAX in *. lia. }
    exists ((r, amount b) :: ws). split_and!.
    + by eapply withdrew_cons.
    + change (total_of ((r, amount b) :: ws)) with (amount b + total_of ws). rewrite Ht, Hx. lia.
    + by apply sublist_skip.
    + constructor; [cbn; lia|done].
  - apply (withdraw_one r (amount rem)) in Hr as (Hp & s2 & Hw & Hr). apply mret_Ok in Hr as [-> _].
    exists [(r, amount rem)]. split_and!; [done|cbn; lia| |].
    + apply sublist_skip, sublist_nil_l.
    + constructor; [cbn; lia|constructor].
Qed.

(** What withdrawals of the records of an account bring in. *)
Lemma withdrew_yield id ws s s' :
  withdrew ws s s' -> Forall (fun rv => pending_record rv.1 /\ 0 < rv.2 <= spendable_of id rv.1) ws ->
  forall a, trx_yield s' a = trx_yield s a + at_asset id (total_of ws) a.
Proof.
  intros (Ho & _) Hf a. unfold trx_yield. rewrite Ho, ops_yield_app. f_equal. clear Ho.
  induction Hf as [|[r v] ws (Hp & Hv) Hf IH]; cbn -[op_yield].
  { unfold at_asset. by destruct (_ =? _). }
  unfold ops_yield in IH |- *. cbn -[op_yield]. rewrite IH. cbn in *. rewrite Hp.
  unfold spendable_of in Hv. destruct (get_spendable_balance r _) as [b|] eqn:Hb; [|lia].
  destruct ((amount b <=? 0) || negb (asset_id b =? id)) eqn:Hskip; [lia|].
  apply orb_false_iff in Hskip as [_ Hid]. apply negb_false_iff, Z.eqb_eq in Hid.
  rewrite <- (spendable_asset _ _ _ Hb) by lia. rewrite Hid. unfold at_asset, total_of. destruct (_ =? _); lia.
Qed.

Lemma withdraw_to_transaction_ok amt name s s' :
  balances_keyed -> in_int64 (amount amt) -> withdraw_to_transaction env amt name s = (s', Ok tt) ->
  exists ws, withdrew ws s s' /\ total_of ws = amount amt /\
    Forall (fun rv => pending_record rv.1 /\ 0 < rv.2 <= spendable_of (asset_id amt) rv.1) ws.
Proof.
  intros Hkey Hamt Hr. unfold withdraw_to_transaction, wallet_reads in Hr.
  apply eff_bind_Ok in Hr as (s1 & [] & He & Hr). apply ensure_Ok in He as [-> _].
  apply eff_bind_Ok in Hr as (s2 & m & Hm & Hr). apply eff_reads_Ok in Hm as [-> Hm].
  apply eff_bind_Ok in Hr as (s3 & l & Hl & Hr). apply lift_Ok in Hl as [-> Hl]. apply require_Ok in Hl.
  apply eff_bind_Ok in Hr as (s4 & paid & Hp & Hr). destruct paid; [|discriminate Hr].
  apply mret_Ok in Hr as [-> _]. apply withdraw_records_ok in Hp as (ws & Hw & Ht & Hsub & Hf); [|done].
  exists ws. split_and!; [done..|]. pose proof (balance_records_pending _ _ _ _ _ _ _ Hkey Hm Hl) as Hpend.
  apply Forall_forall. intros rv Hrv. split; [|exact (proj1 (Forall_forall _ _) Hf rv Hrv)].
  apply (proj1 (Forall_forall _ _) Hpend). eapply elem_of_sublist; [|exact Hsub].
  by apply list_elem_of_fmap_2.
Qed.

(** Withdrawing an amount for an account brings in that amount and charges nobody. *)
Lemma moves_withdraw_to_transaction amt name :
  balances_keyed -> in_int64 (amount amt) ->
  moves (at_asset (asset_id amt) (amount amt)) nothing (withdraw_to_transaction env amt name).
Proof.
  intros Hkey Hamt s s' [] Hr a. apply withdraw_to_transaction_ok in Hr as (ws & Hw & Ht & Hf); [|done..].
  rewrite (withdrew_yield _ _ _ _ Hw Hf a), Ht. split; [done|].
  destruct Hw as (_ & Ho & _). unfold outstanding_total, nothing. rewrite Ho, Z.add_0_r. done.
Qed.

(** ** Levelling the balances *)

(** Levelling a balance brings in what it owes, or pays out what it is owed. *)
Lemma moves_level_balance slate_id addr id amt :
  balances_keyed -> moves (at_asset id (- amt)) nothing (level_balance env slate_id ((addr, id), amt)).
Proof.
  intros Hkey. unfold level_balance. still.
  destruct (Z.eqb_spec amt 0) as [->|Hne].
  { eapply moves_ext; [| |apply moves_ret]; [|done]. intros a. unfold at_asset, nothing.
    by destruct (_ =? _). }
  destruct (Z.gtb_spec amt 0) as [Hgt|Hle].
  - apply (moves_tx_deposit _ (mk_asset amt id)).
  - eapply moves_ext; [| |apply moves_withdraw_to_transaction]; [|done|done|].
    + intros a. cbn. unfold at_asset. destruct (_ =? _); [|done]. by rewrite wrap64_eqm.
    + cbn. apply wrap64_range.
Qed.

(** What a list of balances holds of an asset. *)
Definition entries_total (l : list ((Z * Z) * Z)) (a : Z) : Z :=
  foldr (fun e acc => (if e.1.2 =? a then e.2 else 0) + acc) 0 l.

#[local] Instance entries_total_proper : Proper ((≡ₚ) ==> (=) ==> (=)) entries_total.
Proof.
  intros l1 l2 Hp a ? <-. unfold entries_total. induction Hp; cbn in *; [done|by rewrite IHHp|lia|congruence].
Qed.

Lemma outstanding_entries s a : entries_total (outstanding_balances (bg_builder s)) a = outstanding_total s a.
Proof.
  unfold outstanding_balances. rewrite merge_sort_Permutation. unfold outstanding_total, map_ksum, entries_total.
  rewrite map_fold_foldr. induction (map_to_list _) as [|[k v] l IH]; cbn; [done|by rewrite IH].
Qed.

Lemma moves_level_balances slate_id l :
  balances_keyed -> moves (fun a => - entries_total l a) nothing (eff_each (level_balance env slate_id) l).
Proof.
  intros Hkey. unfold eff_each. induction l as [|[[addr id] amt] l IH]; cbn [eff_fold].
  { apply moves_ret. }
  eapply moves_ext; [| |eapply moves_bind; [by apply moves_level_balance|intros []; exact IH]].
  - intros a. apply eq_eqm64. cbn. unfold at_asset, entries_total. rewrite (Z.eqb_sym a). destruct (id =? a); lia.
  - done.
Qed.

(** ** The fee is not touched after it is paid *)

Definition same_fee (s s' : building) : Prop :=
  td_fee (tb_record (bg_builder s')) = td_fee (tb_record (bg_builder s)).
#[local] Instance same_fee_refl : Reflexive same_fee.
Proof. done. Qed.
#[local] Instance same_fee_trans : Transitive same_fee.
Proof. intros s1 s2 s3. unfold same_fee. congruence. Qed.

Lemma keeps_fee_wallet {A} (m : eff wallet_db A) : keeps same_fee (on_wallet m).
Proof. intros s. unfold on_wallet. by destruct (m (bg_wallet s)). Qed.
Lemma keeps_fee_builder f :
  (forall b, td_fee (tb_record (f b)) = td_fee (tb_record b)) -> keeps same_fee (on_builder f).
Proof. intros Hf. apply (keeps_update same_fee). intros s. apply Hf. Qed.
Lemma keeps_fee_try_trx f : keeps same_fee (try_trx f).
Proof. apply (keeps_bind same_fee); [apply (keeps_reads same_fee)|]. intros t. by apply keeps_fee_builder. Qed.

#[local] Hint Extern 1 (keeps same_fee _) => first
  [ apply keeps_fee_wallet | apply keeps_fee_try_trx | by apply keeps_fee_builder
  | apply (keeps_ret same_fee) | apply (keeps_reads same_fee) | apply (keeps_lift same_fee) ] : keeps.

(** Goes through the steps of a program. *)
Ltac through :=
  repeat first [ solve [auto with keeps nocore] | apply (keeps_bind same_fee); [|intros ?] | case_match ].

Lemma keeps_fee_order_key a name : keeps same_fee (order_key_for_account env a name).
Proof. unfold order_key_for_account, set_order_key. through. Qed.
Lemma keeps_fee_withdraw_records l rem : keeps same_fee (withdraw_records env l rem).
Proof.
  revert rem. induction l as [|r l IH]; intros rem; cbn [withdraw_records]; [apply (keeps_ret same_fee)|].
  unfold require_signature. through; apply IH.
Qed.
Lemma keeps_fee_level_balance slate_id e : keeps same_fee (level_balance env slate_id e).
Proof.
  unfold level_balance, withdraw_to_transaction, wallet_reads, ensure.
  through; first [apply keeps_fee_order_key|apply keeps_fee_withdraw_records].
Qed.

(** The last steps of [finalize], after the fee is paid. *)
Definition settle_balances (slate_id : Z) : eff building unit :=
  entries ← builder_reads outstanding_balances;
  _ ← eff_each (level_balance env slate_id) entries;
  trx ← builder_reads tb_trx;
  _ ← (if tx_expiration trx =? 0 then
         secs ← wallet_reads get_transaction_expiration;
         on_trx (set_tx_expiration (wrapu32 (we_clock env + secs)))
       else mret tt);
  on_record (fun r => set_td_created (trx_id (td_trx r)) (we_clock env) r).

Lemma settled_books slate_id s s' :
  balances_keyed -> settle_balances slate_id s = (s', Ok tt) ->
  same_fee s s' /\ forall a, trx_yield s' a ≡64 trx_yield s a - outstanding_total s a.
Proof.
  intros Hkey Hr. unfold settle_balances in Hr. apply eff_bind_Ok in Hr as (s1 & l & Hl & Hr).
  apply eff_reads_Ok in Hl as [-> [= <-]]. apply eff_bind_Ok in Hr as (s1 & [] & Hlv & Hr). split.
  - pose proof (keeps_each same_fee (level_balance env slate_id)
      (outstanding_balances (bg_builder s)) (fun x _ => keeps_fee_level_balance slate_id x) s) as Hs. rewrite Hlv in Hs. cbn in Hs.
    etrans; [exact Hs|]. clear Hlv Hs.
    apply eff_bind_Ok in Hr as (s2 & trx & Ht & Hr). apply eff_reads_Ok in Ht as [-> [= <-]].
    apply eff_bind_Ok in Hr as (s3 & [] & He & Hr). unfold on_record, on_builder in Hr. inv_eff.
    destruct (_ =? _); unfold wallet_reads, on_trx, on_record, on_builder in He; by inv_eff.
  - intros a. destruct (moves_level_balances slate_id _ Hkey _ _ _ Hlv a) as [Hy _].
    cbv beta in Hy. rewrite outstanding_entries in Hy.
    assert (Hrest : moves nothing nothing (trx ← builder_reads tb_trx;
      _ ← (if tx_expiration trx =? 0 then
             secs ← wallet_reads get_transaction_expiration;
             on_trx (set_tx_expiration (wrapu32 (we_clock env + secs)))
           else mret tt);
      on_record (fun r => set_td_created (trx_id (td_trx r)) (we_clock env) r))).
    { still. apply moves_then; [destruct (_ =? _); still|intros ? ? ? ?; still]. }
    destruct (Hrest _ _ _ Hr a) as [Hy2 _]. rewrite Hy2, Hy. unfold nothing. apply eq_eqm64. lia.
Qed.

(** [finalize] brings in the fee and what was owed to the accounts beyond what the
    operations had brought in. *)
Lemma finalize_yield slate s s' :
  balances_keyed -> finalize env slate true s = (s', Ok tt) ->
  let fee := td_fee (tb_record (bg_builder s')) in
  forall a, trx_yield s' a
    ≡64 trx_yield s a - outstanding_total s a + at_asset (asset_id fee) (amount fee) a.
Proof.
  cbv zeta. intros Hkey Hr a.
  unfold finalize in Hr. apply eff_bind_Ok in Hr as (s1 & trx & Hl & Hr). apply eff_reads_Ok in Hl as [-> _].
  apply eff_bind_Ok in Hr as (s1 & [] & He & Hr). apply ensure_Ok in He as [-> _].
  set (define := bool_decide _ && _) in Hr.
  apply eff_bind_Ok in Hr as (s1 & [] & Hd & Hr). apply eff_bind_Ok in Hr as (s2 & [] & Hp & Hr).
  change (settle_balances (if define then slate_id slate else 0) s2 = (s', Ok tt)) in Hr.
  assert (Hstill : moves nothing nothing (if define then try_trx (tx_define_delegate_slate slate) else mret tt)).
  { destruct define; [apply moves_define_slate|apply moves_ret]. }
  destruct (Hstill _ _ _ Hd a) as [Hy1 Ht1].
  apply pay_fee_moves in Hp as [Htrx Hfee]. apply settled_books in Hr as [Hs Hy]; [|done].
  rewrite Hy, Hfee, Hs, Ht1. unfold trx_yield in Hy1 |- *. rewrite Htrx, Hy1.
  apply eq_eqm64. unfold nothing, at_asset. destruct (_ =? _); lia.
Qed.

(** C12: A transaction finalised after any sequence of transfers to accounts and to
    addresses, bids, asks, shorts against the base asset, cancellations of such orders
    and signing-key updates (not of deposits to multisig balances, covers and relative
    orders) brings in exactly its fee, and nothing of any other asset, modulo 2^64: what
    it withdraws, less what it deposits and puts in orders, is the fee noted in its
    record.  Where that difference and the fee fit an amount, it is exact: the
    withdrawals cover the deposits, the orders and the fee, in each asset. *)
Theorem finalize_books w slate s s' :
  balances_keyed -> rtc builder_step (mk_building new_builder w) s ->
  finalize env slate true s = (s', Ok tt) ->
  let fee := td_fee (tb_record (bg_builder s')) in
  forall a, trx_yield s' a ≡64 at_asset (asset_id fee) (amount fee) a /\
    (in_int64 (trx_yield s' a) -> in_int64 (amount fee) ->
     trx_yield s' a = at_asset (asset_id fee) (amount fee) a).
Proof.
  cbv zeta. intros Hkey Hsteps Hr a.
  assert (Hy : trx_yield s' a ≡64 at_asset (asset_id (td_fee (tb_record (bg_builder s'))))
                                    (amount (td_fee (tb_record (bg_builder s')))) a).
  { rewrite (finalize_yield _ _ _ Hkey Hr a), (steps_balanced _ _ Hsteps (new_builder_balanced w) a).
    apply eq_eqm64. lia. }
  split; [done|]. intros Hyield Hfee. apply eqm64_int64; [done| |done].
  unfold at_asset. destruct (_ =? _); [done|]. unfold in_int64, INT64_MIN, INT64_MAX. lia.
Qed.

Lemma moves_tx_deposit_multisig info amt id :
  moves (at_asset (asset_id amt) (- amount amt)) nothing (try_trx (tx_deposit_multisig info amt id)).
Proof.
  apply (moves_try_trx (Op_deposit (mk_deposit (amount amt) (mk_condition (asset_id amt) id
    (wd_multisig (ms_required info) (ms_owners info) None))))).
  intros t t' Ht. unfold tx_deposit_multisig in Ht. by repeat inv_ok_step.
Qed.

Lemma moves_deposit_to_multisig slate amt from_name m addrs w s' :
  deposit_asset_to_multisig env slate amt from_name m addrs (mk_building new_builder w) = (s', Ok tt) ->
  exists extra, get_transaction_fee env 0 w = Ok extra /\
    forall a, outstanding_total s' a ≡64 trx_yield s' a + at_asset (asset_id extra) (- amount extra) a.
Proof.
  intros Hr. unfold deposit_asset_to_multisig, wallet_reads in Hr.
  apply eff_bind_Ok in Hr as (s1 & [] & Hl & Hr). apply lift_Ok in Hl as [-> _].
  apply eff_bind_Ok in Hr as (s1 & found & Hl & Hr). apply eff_reads_Ok in Hl as [-> _].
  apply eff_bind_Ok in Hr as (s1 & extra & Hl & Hr). apply eff_reads_Ok in Hl as [-> Hfee].
  exists extra. split; [done|]. intros a.
  apply eff_bind_Ok in Hr as (s1 & payer & Hl & Hr). apply lift_Ok in Hl as [-> _].
  apply eff_bind_Ok in Hr as (s1 & id & Hsl & Hr).
  apply eff_bind_Ok in Hr as (s2 & [] & Hdep & Hr).
  apply eff_bind_Ok in Hr as (s3 & total & Hl & Hr). apply lift_Ok in Hl as [-> Hsum].
  apply eff_bind_Ok in Hr as (s3 & [] & Hded & Hr).
  destruct (moves_select_slate _ _ _ _ _ Hsl a) as [Hy1 Ht1].
  destruct (moves_tx_deposit_multisig _ _ _ _ _ _ Hdep a) as [Hy2 Ht2].
  destruct (moves_deduct_balance _ _ _ _ _ Hded a) as [Hy3 Ht3].
  destruct (moves_add_entry _ _ _ _ Hr a) as [Hy4 Ht4].
  rewrite Ht4, Ht3, Ht2, Ht1, Hy4, Hy3, Hy2, Hy1, (new_builder_balanced w a).
  unfold asset_add in Hsum. apply bind_Ok in Hsum as (_ & Hid%fc_assert_Ok%Z.eqb_eq & Hsum).
  apply bind_Ok in Hsum as (_ & _ & [= <-]). cbn. unfold at_asset, nothing. rewrite Hid.
  destruct (_ =? _); [rewrite wrap64_eqm|]; apply eq_eqm64; lia.
Qed.

(** A transaction that deposits to a multisig balance and is finalised takes the
    fee twice: besides the fee its record notes, it withdraws the default fee that
    [deposit_asset_to_multisig] charged, and deposits it nowhere. *)
Theorem multisig_charged_twice w slate slate' amt from_name m addrs s s' :
  balances_keyed ->
  deposit_asset_to_multisig env slate amt from_name m addrs (mk_building new_builder w) = (s, Ok tt) ->
  finalize env slate' true s = (s', Ok tt) ->
  exists extra, get_transaction_fee env 0 w = Ok extra /\
    let fee := td_fee (tb_record (bg_builder s')) in
    forall a, trx_yield s' a
      ≡64 at_asset (asset_id fee) (amount fee) a + at_asset (asset_id extra) (amount extra) a.
Proof.
  intros Hkey Hm Hr. apply moves_deposit_to_multisig in Hm as (extra & Hfee & Ht). exists extra.
  split; [done|]. cbv zeta. intros a. rewrite (finalize_yield _ _ _ Hkey Hr a), (Ht a).
  apply eq_eqm64. unfold at_asset. destruct (a =? asset_id extra); lia.
Qed.

(** ** When the funds suffice *)

(** A record whose spendable amount and owner can be read. *)
Definition readable (r : balance_record) : Prop :=
  (exists b, get_spendable_balance r (cv_now (we_pending env)) = Ok b) /\ (exists o, balance_owner r = Ok o).
Definition spendable_total (id : Z) (l : list balance_record) : Z :=
  foldr (fun r acc => spendable_of id r + acc) 0 l.

Lemma spendable_of_nonneg id r : 0 <= spendable_of id r.
Proof. unfold spendable_of. repeat case_match; lia. Qed.
Lemma spendable_total_nonneg id l : 0 <= spendable_total id l.
Proof. unfold spendable_total. induction l as [|r l IH]; cbn; [lia|]. pose proof (spendable_of_nonneg id r). lia. Qed.

Lemma lift_bind {A B} (a : A) (k : A -> eff building B) s : (lift (Ok a) ≫= k) s = k a s.
Proof. done. Qed.

(** A withdrawal of a positive amount does not fail. *)
Lemma withdraw_one_runs r v s o :
  0 < v -> balance_owner r = Ok o ->
  exists s1, forall A (k : eff building A), (_ ← try_trx (tx_withdraw (balance_id r) v); owner ← lift (balance_owner r);
              _ ← require_signature owner; k) s = k s1.
Proof.
  intros Hv Ho. unfold try_trx, tx_withdraw. rewrite (proj2 (Z.gtb_lt v 0) Hv), Ho. eexists. intros A k.
  cbv [mbind eff_mbind reads lift on_trx on_record on_builder update require_signature]. cbn. reflexivity.
Qed.

Lemma withdraw_records_total l rem s :
  Forall readable l -> 0 < amount rem <= INT64_MAX ->
  exists s', withdraw_records env l rem s = (s', Ok (amount rem <=? spendable_total (asset_id rem) l)).
Proof.
  intros Hl. revert rem s. induction Hl as [|r l [[b Hb] [o Ho]] Hl IH]; intros rem s Hrem.
  { exists s. cbn. by rewrite (proj2 (Z.leb_gt _ _)) by lia. }
  cbn [withdraw_records]. rewrite Hb, lift_bind.
  change (spendable_total (asset_id rem) (r :: l))
    with (spendable_of (asset_id rem) r + spendable_total (asset_id rem) l).
  pose proof (spendable_total_nonneg (asset_id rem) l) as Hnn.
  unfold spendable_of. rewrite Hb. destruct (_ || _) eqn:Hskip.
  { rewrite Z.add_0_l. by apply IH. }
  apply orb_false_iff in Hskip as [Hpos%Z.leb_gt Hid%negb_false_iff%Z.eqb_eq].
  destruct (Z.gtb_spec (amount rem) (amount b)) as [Hgt|Hle].
  - destruct (withdraw_one_runs r (amount b) s o) as [s1 ->]; [lia|done|].
    assert (Hsub : asset_sub rem b = Ok (mk_asset (amount rem - amount b) (asset_id rem))).
    { unfold asset_sub. rewrite Hid, Z.eqb_refl. cbn. unfold throw_if.
      destruct (_ || _) eqn:Hov.
      - unfold INT64_MAX, INT64_MIN in *. lia.
      - cbn. rewrite wrap64_id; [done|]. unfold in_int64, INT64_MAX, INT64_MIN in *. lia. }
    rewrite Hsub. destruct (IH (mk_asset (amount rem - amount b) (asset_id rem)) s1) as [s' Hs']; [cbn; lia|].
    exists s'. rewrite lift_bind, Hs'. cbn [amount asset_id]. do 2 f_equal.
    apply eq_true_iff_eq. rewrite !Z.leb_le. lia.
  - destruct (withdraw_one_runs r (amount rem) s o) as [s1 ->]; [lia|done|]. exists s1.
    rewrite (proj2 (Z.leb_le _ _)); [done|lia].
Qed.

(** Withdrawing an amount for an account succeeds exactly when the account's
    balances hold it.  Then withdrawals of the account's pending balances are
    appended, each of a positive amount the balance can spend, of distinct records in
    the order they are listed, together the amount; no account is charged and the fee
    is unchanged.  Otherwise it throws [insufficient_funds]. *)
Theorem withdraw_to_transaction_spec amt name s m l :
  name <> EmptyString -> 0 < amount amt <= INT64_MAX ->
  get_account_balance_records env name true signature_mask (bg_wallet s) = Ok m ->
  m !! name = Some l -> Forall readable l ->
  if amount amt <=? spendable_total (asset_id amt) l then
    exists s' ws, withdraw_to_transaction env amt name s = (s', Ok tt) /\ withdrew ws s s' /\
      total_of ws = amount amt /\ ws.*1 `sublist_of` l /\
      Forall (fun rv => 0 < rv.2 <= spendable_of (asset_id amt) rv.1) ws
  else exists s', withdraw_to_transaction env amt name s = (s', Err insufficient_funds).
Proof.
  intros Hname Hamt Hm Hl Hread. destruct (withdraw_records_total l amt s Hread Hamt) as [s' Hs'].
  assert (Hrun : withdraw_to_transaction env amt name s
                 = (s', if amount amt <=? spendable_total (asset_id amt) l
                        then Ok tt else Err insufficient_funds)).
  { unfold withdraw_to_transaction. rewrite (proj2 (String.eqb_neq name EmptyString) Hname).
    cbv [ensure wallet_reads mbind eff_mbind reads lift]. rewrite Hm. cbn. rewrite Hl. cbn. rewrite Hs'.
    by destruct (_ <=? _). }
  rewrite Hrun. destruct (_ <=? _).
  - apply withdraw_records_ok in Hs' as (ws & ?); [|unfold in_int64, INT64_MAX, INT64_MIN in *; lia].
    exists s', ws. done.
  - by exists s'.
Qed.
End books.
