(* ===== verification/WalletAccounts.v ===== *)
(** * WalletAccounts: the accounts and keys of a wallet (wallet/wallet.cpp)

    What the wallet does with the accounts and keys of its database ([wallet_db],
    WalletDb.v) as its users ask for it: creating, importing, renaming and removing
    them, approving delegates, enabling block production.

    The functions read the block chain and the wallet's password through the
    [wallet_env] of Builder.v.  [wallet::get_account] is a const member function
    and yet stores what the chain knows of the account.  [fc::variant( bool )] is
    the integer fc converts it to. *)
From S2P Require Import Prelude Config Fc Asset Records ChainInterface.
From S2P Require Import Eff WalletDb Builder.
From stdpp Require Import sorting.
#[local] Open Scope Z_scope.

(** [property_enum], continued *)
Definition version_prop : Z := 0.
Definition automatic_backups : Z := 3.
Definition transaction_scanning : Z := 4.
Definition last_unlocked_scanned_block_number : Z := 5.

(** [delegate_status_flags] *)
Definition any_delegate_status : Z := 0.
Definition enabled_delegate_status : Z := Z.shiftl 1 0.
Definition active_delegate_status : Z := Z.shiftl 1 1.
Definition disabled_delegate_status : Z := Z.shiftl 1 2.
Definition inactive_delegate_status : Z := Z.shiftl 1 3.

(** Assignments to members. *)
Definition set_ad_is_favorite (v : bool) (a : account_data) : account_data :=
  mk_account_data (ad_account a) (ad_is_my_account a) (ad_approved a) v
    (ad_block_production_enabled a) (ad_last_used_gen_sequence a) (ad_private_data a).
Definition set_ad_block_production (v : bool) (a : account_data) : account_data :=
  mk_account_data (ad_account a) (ad_is_my_account a) (ad_approved a) (ad_is_favorite a)
    v (ad_last_used_gen_sequence a) (ad_private_data a).
Definition set_ad_private_data (v : variant) (a : account_data) : account_data :=
  mk_account_data (ad_account a) (ad_is_my_account a) (ad_approved a) (ad_is_favorite a)
    (ad_block_production_enabled a) (ad_last_used_gen_sequence a) v.

Definition v_bool (b : bool) : variant := v_int (if b then 1 else 0).

Section accounts.
Context `{Crypto} `{WalletCrypto}.
Context (env : wallet_env).

Definition ad_name (a : account_data) : string := ac_name (ad_account a).
Definition chain_account (name : string) : option account_record := cv_account_by_name (we_chain env) name.

(** [FC_ASSERT( is_open() ); FC_ASSERT( is_unlocked() )] and
    [if( NOT is_open() ) ...; if( NOT is_unlocked() ) ...]: the password. *)
Definition ensure_unlocked : eff wallet_db Z :=
  _ ← ensure_open; lift (require (we_password env) assert_exception).
Definition throw_unless_unlocked : eff wallet_db Z :=
  _ ← reads (fun w => throw_if (negb (is_open w)) wallet_closed);
  lift (require (we_password env) wallet_locked).

(** [if( !_blockchain->is_valid_account_name( name ) ) FC_THROW_EXCEPTION( invalid_name, ... )] *)
Definition check_name (name : string) : result unit :=
  throw_if (negb (is_valid_account_name name)) invalid_name.

(** ** Properties *)

(** A setter, and a getter that returns [otherwise] where the property does not
    convert. *)
Definition put_property (id : Z) (v : variant) : eff wallet_db unit :=
  _ ← ensure_open; set_property id v.
Definition property_or (id otherwise : Z) (w : wallet_db) : result Z :=
  _ ← fc_assert (is_open w);
  Ok (match variant_as_int (get_property id w) with Ok v => v | Err _ => otherwise end).
Definition flag_or (id : Z) (otherwise : bool) (w : wallet_db) : result bool :=
  v ← property_or id (if otherwise then 1 else 0) w; Ok (negb (v =? 0)).

Definition set_version (v : Z) : eff wallet_db unit := put_property version_prop (v_int v).
Definition get_version (w : wallet_db) : result Z := property_or version_prop 0 w.
Definition set_automatic_backups (enabled : bool) : eff wallet_db unit :=
  put_property automatic_backups (v_bool enabled).
Definition get_automatic_backups : wallet_db -> result bool := flag_or automatic_backups true.
Definition set_transaction_scanning (enabled : bool) : eff wallet_db unit :=
  put_property transaction_scanning (v_bool enabled).
Definition set_last_scanned_block_number (block_num : Z) : eff wallet_db unit :=
  put_property last_unlocked_scanned_block_number (v_int block_num).
Definition get_last_scanned_block_number (w : wallet_db) : result Z :=
  property_or last_unlocked_scanned_block_number (cv_head_block_num (we_chain env)) w.

(** [wallet::set_transaction_expiration] *)
Definition set_transaction_expiration (secs : Z) : eff wallet_db unit :=
  _ ← ensure_open;
  _ ← lift (throw_if (secs >? BTS_BLOCKCHAIN_MAX_TRANSACTION_EXPIRATION_SEC) invalid_expiration_time);
  set_property transaction_expiration_sec (v_int secs).

(** [wallet::set_transaction_fee]; [variant_of_asset] is the conversion [we_as_asset]
    undoes. *)
Definition set_transaction_fee (variant_of_asset : asset -> variant) (fee : asset) : eff wallet_db unit :=
  _ ← ensure_open;
  _ ← lift (throw_if ((amount fee <? 0) || negb (asset_id fee =? 0)) invalid_fee);
  set_property default_transaction_priority_fee (variant_of_asset fee).

(** ** Lists of accounts *)

(** The accounts with a property, by name. *)
Definition name_le (a b : account_data) : Prop := String.leb (ad_name a) (ad_name b) = true.
#[global] Instance name_le_dec : RelDecision name_le.
Proof. intros a b. unfold name_le. apply _. Defined.
Definition accounts_where (p : account_data -> bool) (w : wallet_db) : list account_data :=
  merge_sort name_le (filter (fun a => p a = true) (wr_data <$> (map_to_list (wd_accounts w)).*2)).

Definition list_accounts : wallet_db -> list account_data := accounts_where (fun _ => true).
Definition list_my_accounts : wallet_db -> list account_data := accounts_where ad_is_my_account.
Definition list_favorite_accounts : wallet_db -> list account_data := accounts_where ad_is_favorite.
Definition list_unregistered_accounts : wallet_db -> list account_data :=
  accounts_where (fun a => ac_id (ad_account a) =? 0).

(** [wallet::get_transaction_scanning] *)
Definition get_transaction_scanning (w : wallet_db) : result bool :=
  _ ← fc_assert (is_open w);
  match list_my_accounts w with
  | [] => Ok false
  | _ => flag_or transaction_scanning true w
  end.

(** ** Which account a name is *)

(** [wallet_impl::is_valid_account] *)
Definition is_valid_account (name : string) (w : wallet_db) : result bool :=
  _ ← check_name name;
  local ← lookup_account_name name w;
  Ok (bool_decide (is_Some local) || bool_decide (is_Some (chain_account name))).

(** [wallet_impl::is_unique_account] *)
Definition is_unique_account (name : string) (w : wallet_db) : result bool :=
  match accounts_where (fun a => String.eqb (ad_name a) name) w with
  | _ :: _ :: _ => Ok false
  | [] => Ok true
  | [_] =>
      local ← lookup_account_name name w;
      Ok (match local, chain_account name with
          | Some l, Some r => ac_owner_key (ad_account (wr_data l)) =? ac_owner_key r
          | None, None => false
          | _, _ => true
          end)
  end.

(** [wallet::get_account] *)
Definition get_account (name : string) : eff wallet_db (wallet_record account_data) :=
  _ ← ensure_open;
  _ ← lift (check_name name);
  local ← reads (lookup_account_name name);
  _ ← lift (throw_if (bool_decide (local = None) && bool_decide (chain_account name = None)) unknown_account);
  local ← match chain_account name with
          | Some r => _ ← store_blockchain_account r; reads (lookup_account_name name)
          | None => mret local
          end;
  lift (require local assert_exception).

(** What [get_owner_public_key] and [get_active_public_key] share: the registered
    account, if there is one, and the local one otherwise. *)
Definition named_account (name : string) (w : wallet_db) : result account_record :=
  _ ← check_name name;
  unique ← is_unique_account name w;
  _ ← fc_assert unique;
  match chain_account name with
  | Some r => _ ← throw_if (account_is_retracted r) account_retracted; Ok r
  | None =>
      _ ← fc_assert (is_open w);
      local ← lookup_account_name name w;
      l ← require local assert_exception;
      Ok (ad_account (wr_data l))
  end.
Definition get_owner_public_key (name : string) (w : wallet_db) : result Z :=
  a ← named_account name w; Ok (ac_owner_key a).
Definition get_active_public_key (name : string) (w : wallet_db) : result Z :=
  a ← named_account name w; Ok (account_active_key a).

(** [wallet::get_active_private_key] *)
Definition get_active_private_key (name : string) (w : wallet_db) : result Z :=
  _ ← check_name name;
  _ ← fc_assert (is_open w);
  password ← require (we_password env) assert_exception;
  found ← lookup_account_name name w;
  account ← require found assert_exception;
  found ← lookup_key (account_active_address (ad_account (wr_data account))) w;
  key ← require found assert_exception;
  _ ← fc_assert (has_private_key (wr_data key));
  decrypt_private_key password (wr_data key).

(** [wallet::get_key_label]; [key_string] is the conversion of a key to text. *)
Definition get_key_label (key_string : Z -> string) (key : Z) (w : wallet_db) : result string :=
  if key =? null_key then Ok "ANONYMOUS"%string
  else
    account ← lookup_account (address_of_key key) w;
    match account, cv_account_by_address (we_chain env) (address_of_key key) with
    | Some a, _ => Ok (ad_name (wr_data a))
    | None, Some r => Ok (ac_name r)
    | None, None =>
        found ← lookup_key (address_of_key key) w;
        match found with
        | Some k =>
            match kd_memo (wr_data k) with
            | Some memo => Ok memo
            | None =>
                account ← lookup_account (kd_account_address (wr_data k)) w;
                Ok (from_option (fun a => ad_name (wr_data a)) (key_string key) account)
            end
        | None => Ok (key_string key)
        end
    end.

(** [wallet::is_receive_address] and [get_account_for_address] *)
Definition is_receive_address (addr : Z) (w : wallet_db) : result bool :=
  key ← lookup_key addr w; Ok (from_option (fun k => has_private_key (wr_data k)) false key).
Definition get_account_for_address (addr : Z) (w : wallet_db)
    : result (option (wallet_record account_data)) :=
  _ ← fc_assert (is_open w);
  key ← lookup_key addr w;
  match key with
  | Some k => lookup_account (kd_account_address (wr_data k)) w
  | None => Ok None
  end.

(** ** Adding and removing accounts *)

(** [wallet::create_account] *)
Definition create_account (account_name : string) (private_data : variant) : eff wallet_db Z :=
  _ ← lift (check_name account_name);
  password ← ensure_unlocked;
  before ← reads (fun w => Ok (length (list_my_accounts w)));
  current ← reads (lookup_account_name account_name);
  _ ← lift (throw_if (bool_decide (is_Some current)) invalid_name);
  _ ← lift (throw_if (bool_decide (is_Some (chain_account account_name))) invalid_name);
  key ← generate_new_account (we_clock env) password account_name private_data;
  _ ← (if bool_decide (before = 0%nat)
       then set_last_scanned_block_number (cv_head_block_num (we_chain env)) else mret tt);
  mret key.

(** A contact the wallet knows: what the chain has of it, and new private data. *)
Definition refresh_account (private_data : variant) (registered : option account_record)
    (a : account_data) : account_data :=
  let a := from_option (fun r => set_ad_account r a) a registered in
  if variant_is_null private_data then a else set_ad_private_data private_data a.

(** The record of a contact the chain does not know. *)
Definition contact_record (name : string) (key : Z) : result account_record :=
  let now := we_clock env in
  a ← account_set_active_key now key (mk_account 0 name v_null key ∅ 0 0 None None);
  Ok (set_ac_last_update now a).

(** [wallet::add_contact_account] *)
Definition wallet_add_contact_account (account_name : string) (key : Z) (private_data : variant)
    : eff wallet_db unit :=
  _ ← ensure_open;
  _ ← lift (check_name account_name);
  let registered := chain_account account_name in
  _ ← lift (throw_if (from_option (fun r => negb (ac_owner_key r =? key)) false registered) invalid_name);
  _ ← lift (throw_if (from_option account_is_retracted false registered) account_retracted);
  current ← reads (lookup_account_name account_name);
  match current with
  | Some r =>
      _ ← ensure (owner_address (wr_data r) =? address_of_key key);
      store_account (refresh_account private_data registered (wr_data r))
  | None =>
      by_key ← reads (lookup_account (address_of_key key));
      match by_key with
      | Some r =>
          _ ← lift (throw_if (negb (String.eqb (ad_name (wr_data r)) account_name)) duplicate_key);
          store_account (refresh_account private_data registered (wr_data r))
      | None =>
          r ← lift (match registered with Some r => Ok r | None => contact_record account_name key end);
          add_contact_account r private_data
      end
  end.

(** [wallet::account_set_favorite] and [set_account_approval]: both store a change of
    an account, and call themselves again once an unknown one has been added. *)
Fixpoint change_contact (depth : nat) (change : account_data -> account_data) (account_name : string)
    : eff wallet_db unit :=
  match depth with
  | O => throw stack_overflow
  | S depth =>
      _ ← ensure_open;
      judged ← reads (lookup_account_name account_name);
      match judged with
      | Some a => store_account (change (wr_data a))
      | None =>
          r ← lift (require (chain_account account_name) unknown_account);
          _ ← wallet_add_contact_account account_name (ac_owner_key r) v_null;
          change_contact depth change account_name
      end
  end.
Definition account_set_favorite (account_name : string) (is_favorite : bool) : eff wallet_db unit :=
  change_contact 2 (set_ad_is_favorite is_favorite) account_name.
Definition set_account_approval (account_name : string) (approval : Z) : eff wallet_db unit :=
  change_contact 2 (set_ad_approved approval) account_name.

(** [wallet::get_account_approval] *)
Definition get_account_approval (account_name : string) (w : wallet_db) : result Z :=
  _ ← fc_assert (is_open w);
  local ← lookup_account_name account_name w;
  _ ← throw_if (bool_decide (local = None) && bool_decide (chain_account account_name = None)) unknown_account;
  Ok (from_option (fun a => ad_approved (wr_data a)) 0 local).

(** [wallet::remove_contact_account]; [*oaccount] is not checked. *)
Definition wallet_remove_contact_account (account_name : string) : eff wallet_db unit :=
  valid ← reads (is_valid_account account_name);
  _ ← lift (throw_if (negb valid) unknown_account);
  unique ← reads (is_unique_account account_name);
  _ ← lift (throw_if (negb unique) duplicate_account_name);
  found ← reads (lookup_account_name account_name);
  account ← lift (require found assertion_abort);
  mine ← reads (fun w => Ok (db_has_private_key (owner_address (wr_data account)) w));
  _ ← lift (throw_if mine not_contact_account);
  remove_contact_account account_name.

(** [wallet::rename_account]: the first local account of that name that is not the
    registered one. *)
Definition account_to_rename (old_name : string) (w : wallet_db) : option account_data :=
  head (accounts_where (fun a => String.eqb (ad_name a) old_name &&
          from_option (fun r => negb (ac_owner_key r =? ac_owner_key (ad_account a))) true
            (chain_account old_name)) w).
Definition wallet_rename_account (old_account_name new_account_name : string) : eff wallet_db unit :=
  _ ← ensure_open;
  _ ← lift (check_name old_account_name);
  _ ← lift (check_name new_account_name);
  found ← reads (fun w => Ok (account_to_rename old_account_name w));
  account ← lift (require found (if bool_decide (is_Some (chain_account old_account_name))
                                 then key_already_registered else unknown_account));
  let old_key := ac_owner_key (ad_account account) in
  _ ← lift (throw_if (from_option (fun r => negb (String.eqb (ac_name r) new_account_name)) false
              (cv_account_by_address (we_chain env) (address_of_key old_key))) key_already_registered);
  _ ← lift (throw_if (bool_decide (is_Some (chain_account new_account_name))) duplicate_account_name);
  taken ← reads (lookup_account_name new_account_name);
  _ ← lift (throw_if (bool_decide (is_Some taken)) duplicate_account_name);
  rename_account old_key new_account_name.

(** ** Importing keys *)

(** [FC_ASSERT( *account_name == name )], where a name was given *)
Definition same_name (account_name : option string) (name : string) : eff wallet_db unit :=
  ensure (from_option (fun n => String.eqb n name) true account_name).

(** The account is found by its name, or added under the new key. *)
Definition import_named (password : Z) (name : string) (new_private_key : Z) (create_account : bool)
    : eff wallet_db Z :=
  let new_public_key := public_key_of new_private_key in
  found ← reads (lookup_account_name name);
  account ← match found with
            | Some a => mret a
            | None =>
                _ ← ensure create_account;
                _ ← wallet_add_contact_account name new_public_key v_null;
                found ← reads (lookup_account_name name);
                lift (require found assert_exception)
            end;
  _ ← import_key password (ad_name (wr_data account)) new_private_key true;
  mret new_public_key.

(** [wallet::import_private_key]; [account_record->name] is read where the key's
    account is not in the wallet. *)
Definition import_private_key (new_private_key : Z) (account_name : option string) (create_account : bool)
    : eff wallet_db Z :=
  password ← throw_unless_unlocked;
  let new_public_key := public_key_of new_private_key in
  let new_address := address_of_key new_public_key in
  match cv_account_by_address (we_chain env) new_address with
  | Some r =>
      _ ← same_name account_name (ac_name r);
      _ ← store_blockchain_account r;
      _ ← import_key password (ac_name r) new_private_key true;
      mret new_public_key
  | None =>
      local ← reads (lookup_account new_address);
      match local with
      | Some a =>
          _ ← same_name account_name (ad_name (wr_data a));
          _ ← import_key password (ad_name (wr_data a)) new_private_key true;
          mret new_public_key
      | None =>
          name ← lift (require account_name assert_exception);
          key_record ← reads (lookup_key new_address);
          match key_record with
          | Some k =>
              if has_private_key (wr_data k) then
                owner ← reads (lookup_account (kd_account_address (wr_data k)));
                _ ← match owner with
                    | Some a => ensure (String.eqb name (ad_name (wr_data a)))
                    | None => mret tt
                    end;
                a ← lift (require owner assertion_abort);
                _ ← import_key password (ad_name (wr_data a)) new_private_key true;
                mret new_public_key
              else import_named password name new_private_key create_account
          | None => import_named password name new_private_key create_account
          end
      end
  end.

(** [wallet::import_wif_private_key]; [wif_to_key] is the decoding of the text. *)
Definition import_wif_private_key (wif_to_key : string -> option Z) (wif_key : string)
    (account_name : option string) (create_account : bool) : eff wallet_db Z :=
  _ ← ensure_unlocked;
  key ← lift (require (wif_to_key wif_key) assert_exception);
  _ ← import_private_key key account_name create_account;
  mret (public_key_of key).

(** [wallet_impl::get_new_address] and [wallet::create_new_address]: the label is not
    used. *)
Definition get_new_address (account_name : string) : eff wallet_db Z :=
  key ← get_new_public_key env account_name;
  let addr := address_of_key key in
  found ← reads (lookup_key addr);
  k ← lift (require found assert_exception);
  _ ← store_key (wr_data k);
  mret addr.
Definition create_new_address (account_name : string) : eff wallet_db Z :=
  _ ← ensure_unlocked;
  receive ← reads (is_receive_account account_name);
  _ ← ensure receive;
  get_new_address account_name.

(** [wallet::update_account_private_data] *)
Definition update_account_private_data (account_name : string) (private_data : variant)
    : eff wallet_db unit :=
  _ ← get_account account_name;
  found ← reads (lookup_account_name account_name);
  a ← lift (require found assert_exception);
  store_account (set_ad_private_data private_data (wr_data a)).

(** ** Delegates *)

(** [wallet::get_my_delegates] *)
Definition has_status (status flag : Z) : bool := negb (Z.land status flag =? 0).
Definition delegate_matches (status : Z) (a : account_data) : result bool :=
  let enabled := ad_block_production_enabled a in
  if negb (account_is_delegate (ad_account a)) then Ok false
  else if has_status status enabled_delegate_status && negb enabled then Ok false
  else if has_status status disabled_delegate_status && enabled then Ok false
  else
    let active_matters := has_status status active_delegate_status
                          || has_status status inactive_delegate_status in
    active ← (if active_matters then is_active_delegate (we_chain env) (ac_id (ad_account a)) else Ok false);
    Ok (negb (has_status status active_delegate_status && negb active)
        && negb (has_status status inactive_delegate_status && active)).
Definition get_my_delegates (status : Z) (w : wallet_db) : result (list account_data) :=
  _ ← fc_assert (is_open w);
  fold_result (fun l a => ok ← delegate_matches status a; Ok (if (ok : bool) then l ++ [a] else l))
    [] (list_my_accounts w).

(** [wallet::set_delegate_block_production]: transactions are scanned only while no
    delegate is enabled. *)
Definition delegates_named (delegate_name : string) : eff wallet_db (list account_data) :=
  if String.eqb delegate_name "ALL" then reads (get_my_delegates any_delegate_status)
  else
    _ ← lift (check_name delegate_name);
    r ← get_account delegate_name;
    let a := ad_account (wr_data r) in
    _ ← ensure (account_is_delegate a);
    addr ← lift (account_signing_address a);
    key ← reads (lookup_key addr);
    _ ← ensure (from_option (fun k => has_private_key (wr_data k)) false key);
    mret [wr_data r].
Definition no_enabled_delegate (w : wallet_db) : result bool :=
  l ← get_my_delegates enabled_delegate_status w; Ok (bool_decide (l = [])).
Definition set_delegate_block_production (delegate_name : string) (enabled : bool) : eff wallet_db unit :=
  _ ← ensure_open;
  empty_before ← reads no_enabled_delegate;
  records ← delegates_named delegate_name;
  _ ← eff_each (fun a => store_account (set_ad_block_production enabled a)) records;
  empty_after ← reads no_enabled_delegate;
  if Bool.eqb empty_before empty_after then mret tt
  else set_transaction_scanning (negb empty_before).
End accounts.
