(* ===== verification/WalletAccountFacts.v ===== *)
(** * WalletAccountFacts: what the operations on accounts guarantee

    Every operation of WalletAccounts.v that does not remove a record keeps the
    records in order and the private keys of the wallet, an exception included
    ([account_operations_keep_keys]); an approval that was set is the one that is
    read back, also for an account the wallet did not know; an imported key can be
    used; only accounts that are not registered can be renamed. *)
From S2P Require Import Prelude Config Fc Asset Records ChainInterface.
From S2P Require Import Eff WalletDb WalletFacts WalletSafety WalletReopen Builder WalletAccounts.
From stdpp Require Import sorting.
#[local] Open Scope Z_scope.

Section facts.
Context `{Crypto} `{WalletCrypto} `{!NoCollision}.
Context (env : wallet_env) (password : Z).
Hypothesis unlocked : we_password env = Some password.
#[local] Set Default Proof Using "All".

(** ** Steps that only look *)

Lemma throw_if_err c e : e <> stack_overflow -> throw_if c e <> Err stack_overflow.
Proof. unfold throw_if. destruct c; congruence. Qed.
Lemma require_other_err {A} (o : option A) e : e <> stack_overflow -> require o e <> Err stack_overflow.
Proof. destruct o; cbn; congruence. Qed.
Lemma Ok_err {A} (a : A) : Ok a <> Err stack_overflow.
Proof. done. Qed.
Lemma fold_result_err {X A} (f : A -> X -> result A) l a :
  (forall a x, f a x <> Err stack_overflow) -> fold_result f a l <> Err stack_overflow.
Proof.
  intros Hf. revert a. induction l as [|x l IH]; intros a; cbn; [done|].
  destruct (f a x) as [a'|e] eqn:Hx; cbn; [apply IH|]. by rewrite <- Hx.
Qed.

Lemma check_name_err name : check_name name <> Err stack_overflow.
Proof. by apply throw_if_err. Qed.
Lemma is_unique_account_err name w : is_unique_account env name w <> Err stack_overflow.
Proof.
  unfold is_unique_account. destruct (accounts_where _ _) as [|? []]; [done| |done].
  apply bind_err; [apply lookup_account_name_err|done].
Qed.
Lemma is_valid_account_err name w : is_valid_account env name w <> Err stack_overflow.
Proof.
  unfold is_valid_account. apply bind_err; [apply check_name_err|intros ?].
  apply bind_err; [apply lookup_account_name_err|done].
Qed.
Lemma is_receive_account_err name w : is_receive_account name w <> Err stack_overflow.
Proof.
  unfold is_receive_account. apply bind_err; [apply assert_err|intros ?]. case_match; [done|].
  apply bind_err; [apply lookup_account_name_err|]. intros [r|]; [|done].
  apply bind_err; [apply lookup_key_err|done].
Qed.

Create HintDb no_recursion.
#[local] Hint Resolve Ok_err assert_err check_name_err is_unique_account_err is_valid_account_err
  is_receive_account_err lookup_account_err lookup_key_err lookup_account_name_err decrypt_err
  encrypt_err set_active_key_err : no_recursion.
#[local] Hint Extern 2 (throw_if _ _ <> _) => apply throw_if_err; discriminate : no_recursion.
#[local] Hint Extern 2 (require _ _ <> _) => apply require_other_err; repeat case_match; discriminate : no_recursion.
#[local] Hint Extern 2 (_ ≫= _ <> _) => apply bind_err; [|intros ?] : no_recursion.

(** Takes the steps that only look and check. *)
Ltac looks :=
  repeat lazymatch goal with
  | |- safe _ _ (ensure_open ≫= _) => apply safe_ensure_open
  | |- safe _ _ (ensure _ ≫= _) => apply safe_ensure; intros ?
  | |- safe _ _ (lift _ ≫= _) => apply safe_lift; [by eauto with no_recursion|intros ? ?]
  | |- safe _ _ (reads _ ≫= _) => apply safe_reads; [by eauto with no_recursion|intros ?]
  end.

(** ** The operations *)

Lemma safe_throw {A} P e : e <> stack_overflow -> safe password P (throw e : eff wallet_db A).
Proof. intros He w0 w [? ?]. done. Qed.
Lemma safe_lift_last {A} P (r : result A) : r <> Err stack_overflow -> safe password P (lift r).
Proof. intros Hr w0 w [? ?]. destruct r; cbn; [done|]. split; [congruence|done]. Qed.







Lemma contact_record_err name key : contact_record env name key <> Err stack_overflow.
Proof. unfold contact_record. apply bind_err; [apply set_active_key_err|done]. Qed.

Lemma safe_wallet_add_contact P name key v : safe password P (wallet_add_contact_account env name key v).
Proof.
  unfold wallet_add_contact_account. looks. case_match.
  - looks. apply safe_store_account.
  - looks. case_match; [looks; apply safe_store_account|].
    apply safe_lift; [destruct (chain_account env name); [done|apply contact_record_err]|intros ? _].
    apply safe_add_contact_account.
Qed.



Lemma safe_same_name P name n : safe password P (same_name name n).
Proof. apply safe_lift_last, assert_err. Qed.


(** ** Accounts that are found again *)

(** The account record found under [name] has [Q]. *)
Definition found (name : string) (Q : account_data -> Prop) (w : wallet_db) : Prop :=
  exists r, account_at (name_to_account w !! name) w = Some r /\ Q (wr_data r).

Lemma store_account_found P w0 a :
  triple (fun w => sound password w0 w /\ P w) (store_account a)
    (on_result (fun _ w => sound password w0 w /\ found (ad_name a) (fun d => same_account d a) w)
       (fine password w0)).
Proof.
  eapply triple_weaken; [| |apply (triple_store_account_found password w0 (fun w => sound password w0 w /\ P w) 1)].
  - done.
  - intros ? w (ar & Hs & (Ha & _ & Hn) & Hd). split; [done|]. exists ar. split; [|done].
    unfold ad_name. rewrite <- (same_account_record _ _ Hd), Hn. exact Ha.
  - by intros w [? _].
Qed.

(** What the chain returns for a name has that name. *)
Definition chain_names : Prop := forall name r, chain_account env name = Some r -> ac_name r = name.
Context (Hnames : chain_names).

Lemma refresh_name v o a name :
  ad_name a = name -> (forall r, o = Some r -> ac_name r = name) -> ad_name (refresh_account v o a) = name.
Proof.
  intros Ha Ho. unfold refresh_account, ad_name in *. destruct o as [r|]; cbn.
  - destruct (variant_is_null v); cbn; by apply Ho.
  - destruct (variant_is_null v); done.
Qed.

Lemma set_active_key_name t k r r' : account_set_active_key t k r = Ok r' -> ac_name r' = ac_name r.
Proof. unfold account_set_active_key. intros Hr. repeat first [progress inv_ok_step|case_match; simplify_eq/=]; done. Qed.

Lemma store_account_run a w w' :
  wallet_ok w -> store_account a w = (w', Ok tt) ->
  wallet_ok w' /\ found (ad_name a) (fun d => same_account d a) w'.
Proof.
  intros Hw Hr. pose proof (store_account_found (fun _ => True) w a w) as Ht.
  specialize (Ht ltac:(split; [split; [done|reflexivity]|done])). rewrite Hr in Ht.
  destruct Ht as [[? _] ?]. done.
Qed.

Lemma found_name name name' a w :
  found name (fun d => same_account d a) w -> ad_name a = name' -> found name (fun d => ad_name d = name') w.
Proof. intros (r & Hr & Hs) <-. exists r. split; [done|]. unfold ad_name. by rewrite (same_account_record _ _ Hs). Qed.

Lemma add_contact_run name key v w w' :
  wallet_ok w -> account_at (name_to_account w !! name) w = None ->
  wallet_add_contact_account env name key v w = (w', Ok tt) ->
  found name (fun d => ad_name d = name) w'.
Proof.
  intros Hw Hnone Hr. unfold wallet_add_contact_account, ensure_open in Hr. inv_eff.
  match goal with Hl : lookup_account_name _ _ = Ok ?o |- _ =>
    assert (o = None) as -> by (unfold lookup_account_name in Hl; repeat inv_ok_step; congruence) end.
  inv_eff. case_match.
  - inv_eff. match goal with Hd : throw_if _ duplicate_key = _ |- _ =>
      unfold throw_if in Hd; case_match eqn:Hn; [done|]; apply negb_false_iff, String.eqb_eq in Hn end.
    apply store_account_run in Hr as [_ Hf]; [|done].
    rewrite (refresh_name v (chain_account env name) (wr_data w0) name Hn (Hnames name)) in Hf.
    apply (found_name _ _ _ _ Hf), refresh_name; [done|apply Hnames].
  - inv_eff. match goal with Hr : match chain_account _ _ with _ => _ end = Ok ?r |- _ =>
      assert (ac_name r = name) as Hn end.
    { destruct (chain_account env name) as [r|] eqn:Hc; [simplify_eq; by apply Hnames|].
      unfold contact_record in *. repeat inv_ok_step. cbn.
      match goal with Hs : account_set_active_key _ _ _ = _ |- _ => by apply set_active_key_name in Hs end. }
    unfold add_contact_account, ensure_open in Hr. inv_eff.
    apply store_account_run in Hr as [_ Hf]; [|done]. rewrite <- Hn. by apply (found_name _ _ _ _ Hf).
Qed.

Lemma triple_run {A} E (P Q : wallet_db -> Prop) (m : eff wallet_db A) (Q' : A -> wallet_db -> Prop) :
  triple P m (on_result (fun _ => Q) E) ->
  (forall w w' a, P w -> m w = (w', Ok a) -> Q' a w') ->
  triple P m (on_result (fun a w => Q w /\ Q' a w) E).
Proof.
  intros Hm Hq w Hw. specialize (Hm w Hw). specialize (Hq w). destruct (m w) as [w' [a|e]]; [|done].
  split; [done|]. by apply Hq.
Qed.

(** A name the wallet knows needs one call, any other two. *)
Lemma safe_change_known P n change name :
  (forall w, P w -> is_open w = true -> found name (fun _ => True) w) ->
  safe password P (change_contact env (S n) change name).
Proof.
  intros HP. cbn [change_contact]. apply safe_ensure_open.
  apply safe_reads; [apply lookup_account_name_err|]. intros [r|]; [apply safe_store_account|].
  intros w0 w (_ & Hw & Hl). unfold lookup_account_name in Hl. apply bind_Ok in Hl as ([] & Ho%fc_assert_Ok & Hl).
  destruct (HP w Hw Ho) as (r & Hr & _). congruence.
Qed.

Lemma safe_change_contact P n change name : safe password P (change_contact env (S (S n)) change name).
Proof.
  change (change_contact env (S (S n)) change name) with
    (_ ← ensure_open; judged ← reads (lookup_account_name name);
     match judged with
     | Some a => store_account (change (wr_data a))
     | None => r ← lift (require (chain_account env name) unknown_account);
               _ ← wallet_add_contact_account env name (ac_owner_key r) v_null;
               change_contact env (S n) change name
     end : eff wallet_db unit).
  looks. case_match; [apply safe_store_account|]. subst.
  apply safe_lift; [by eauto with no_recursion|intros registered _]. intros w0. eapply triple_bind.
  - apply (triple_run _ _ (sound password w0) _ (fun _ => found name (fun d => ad_name d = name))).
    + apply safe_wallet_add_contact.
    + intros w w' [] [[Hw _] [_ Hl]] Hr. apply (add_contact_run name (ac_owner_key registered) v_null w); [done| |done].
      unfold lookup_account_name in Hl. by repeat inv_ok_step.
  - intros ?. apply safe_change_known. intros w (r & Hr & _) _. by exists r.
Qed.

(** What such a call stores is found under the name. *)
Lemma change_contact_run change name w w' n :
  (forall a, ad_account (change a) = ad_account a) ->
  wallet_ok w -> (forall r, account_at (name_to_account w !! name) w = Some r -> ad_name (wr_data r) = name) ->
  change_contact env n change name w = (w', Ok tt) ->
  found name (fun d => exists a, same_account d (change a)) w'.
Proof.
  intros Hch. revert w. induction n as [|n IH]; intros w Hw Hn Hr; [done|].
  cbn [change_contact] in Hr. unfold ensure_open in Hr. inv_eff. case_match; subst.
  - apply store_account_run in Hr as [_ Hf]; [|done].
    match goal with Hl : lookup_account_name _ _ = Ok (Some ?r) |- _ =>
      assert (ad_name (change (wr_data r)) = name) as Hname end.
    { unfold ad_name. rewrite Hch. apply Hn. unfold lookup_account_name in *. by repeat inv_ok_step. }
    rewrite Hname in Hf. destruct Hf as (r' & ? & ?). exists r'. eauto.
  - inv_eff. match goal with Ha : wallet_add_contact_account _ _ _ _ _ = (?w1, Ok ?u) |- _ =>
      rename w1 into w2; destruct u; rename Ha into Hadd end.
    apply (IH w2); [| |done].
    + by destruct (safe_run password (fun _ => True) _ w w2 (Ok tt) (safe_wallet_add_contact _ name _ v_null) I Hadd Hw).
    + apply add_contact_run in Hadd as (r' & Hr' & Hn'); [|done|].
      * intros r Hx. congruence.
      * unfold lookup_account_name in *. by repeat inv_ok_step.
Qed.





(** Block production: no status that depends on the active delegates is asked for. *)
Lemma get_my_delegates_err status w :
  has_status status active_delegate_status = false -> has_status status inactive_delegate_status = false ->
  get_my_delegates env status w <> Err stack_overflow.
Proof.
  intros Ha Hi. unfold get_my_delegates. apply bind_err; [apply assert_err|intros _].
  apply fold_result_err. intros l a. apply bind_err; [|done].
  unfold delegate_matches. rewrite Ha, Hi. repeat case_match; done.
Qed.
Lemma no_enabled_delegate_err w : no_enabled_delegate env w <> Err stack_overflow.
Proof. unfold no_enabled_delegate. apply bind_err; [by apply get_my_delegates_err|done]. Qed.
Lemma signing_address_err a : account_signing_address a <> Err stack_overflow.
Proof.
  unfold account_signing_address, account_signing_key. apply bind_err; [|done].
  apply bind_err; [apply require_err|intros d]. apply bind_err; [apply require_err|]. by intros [? ?].
Qed.
#[local] Hint Resolve no_enabled_delegate_err signing_address_err : no_recursion.





End facts.

Section theorems.
Context `{Crypto} `{WalletCrypto} `{!NoCollision}.
Context (env : wallet_env).
#[local] Set Default Proof Using "All".


(** [set_account_approval] and [account_set_favorite] call themselves once at most:
    an account the wallet does not know is known once it has been added. *)
Theorem approval_ends password w name v :
  we_password env = Some password -> chain_names env -> wallet_ok w ->
  (set_account_approval env name v w).2 <> Err stack_overflow.
Proof.
  intros Hpw Hnames Hw. destruct (set_account_approval env name v w) as [w' r] eqn:Hr.
  by destruct (safe_run password (fun _ => True) _ w w' r
    (safe_change_contact env password Hpw Hnames _ 0 _ name) I Hr Hw) as (_ & _ & ?).
Qed.

(** An approval that was set, for an account of the wallet or one it only knows from
    the chain, is the approval the account is found with. *)
Theorem approval_stored password w w' name v :
  we_password env = Some password -> chain_names env -> wallet_ok w ->
  (forall r, account_at (name_to_account w !! name) w = Some r -> ad_name (wr_data r) = name) ->
  set_account_approval env name v w = (w', Ok tt) ->
  exists r, account_at (name_to_account w' !! name) w' = Some r /\ ad_approved (wr_data r) = v /\
    (is_open w' = true -> get_account_approval env name w' = Ok v).
Proof.
  intros Hpw Hnames Hw Hn Hr.
  destruct (change_contact_run env password Hpw Hnames (set_ad_approved v) name w w' 2) as (r & Hf & a & Ha); [done..|].
  assert (ad_approved (wr_data r) = v) as Hv.
  { exact (f_equal ad_approved Ha). }
  exists r. split_and!; [done..|]. intros Ho. unfold get_account_approval, lookup_account_name. rewrite Ho, Hf.
  cbn. by rewrite Hv.
Qed.

(** After a private key has been imported, however its account was found, the wallet
    has a private key for its address that belongs to its public key. *)
Lemma import_key_found password name key move w w' :
  wallet_ok w -> import_key password name key move w = (w', Ok tt) ->
  exists r, wd_keys w' !! address_of_key (public_key_of key) = Some r /\ usable password (wr_data r).
Proof.
  intros Hw Hr. unfold import_key, ensure_open in Hr. inv_eff.
  match goal with He : encrypt_private_key _ _ _ = Ok ?k |- _ =>
    pose proof (encrypted_usable _ _ _ _ He); pose proof (proj1 (encrypted_public _ _ _ _ He)) as Hp end.
  match goal with Hm : match ?o with _ => _ end _ = (?w1, Ok _) |- _ =>
    assert (w1 = w) as -> by (repeat case_match; by inv_eff) end.
  apply (store_key_found password) in Hr as (_ & r & Hk & ?); [|done..]. unfold get_address in Hk. rewrite Hp in Hk.
  eauto.
Qed.

Definition imports password key (m : eff wallet_db Z) : Prop :=
  forall w w' k, wallet_ok w -> m w = (w', Ok k) ->
  k = public_key_of key /\
  exists r, wd_keys w' !! address_of_key (public_key_of key) = Some r /\ usable password (wr_data r).

Lemma imports_last password name key move :
  imports password key (_ ← import_key password name key move; mret (public_key_of key)).
Proof. intros w w' k Hw Hr. inv_eff. destruct x0. split; [done|]. by eapply import_key_found. Qed.

Lemma imports_after {A} password key (m : eff wallet_db A) (k : A -> eff wallet_db Z) :
  safe password (fun _ => True) m -> (forall a, imports password key (k a)) -> imports password key (m ≫= k).
Proof.
  intros Hm Hk w w' x Hw (w1 & a & Hx & Hy)%eff_bind_Ok.
  destruct (safe_run password _ m w w1 (Ok a) Hm I Hx Hw) as (Hw1 & _). by apply (Hk a w1).
Qed.
Lemma imports_reads {A} password key (f : wallet_db -> result A) (k : A -> eff wallet_db Z) :
  (forall a, imports password key (k a)) -> imports password key (reads f ≫= k).
Proof. intros Hk w w' x Hw Hr. inv_eff. by eapply Hk. Qed.
Lemma imports_lift {A} password key (r : result A) (k : A -> eff wallet_db Z) :
  (forall a, imports password key (k a)) -> imports password key (lift r ≫= k).
Proof. intros Hk w w' x Hw Hr. inv_eff. by eapply Hk. Qed.

Lemma imports_named password name key create :
  we_password env = Some password -> imports password key (import_named env password name key create).
Proof.
  intros Hpw. unfold import_named. apply imports_reads. intros o.
  apply imports_after; [|intros a; apply imports_last]. case_match; [apply safe_ret|].
  apply safe_ensure. intros _. apply safe_bind; [by eapply safe_wallet_add_contact|intros ?].
  apply safe_reads; [apply lookup_account_name_err|intros ?].
  apply (safe_lift_last env password Hpw), require_err.
Qed.

(** C23: A private key that [import_private_key] accepted, whether its account was
    found on the chain, in the wallet or by name, or created for it, is in the wallet
    afterwards, under the address of its public key and encrypted so that the
    password decrypts it. *)
Theorem imported_key_usable password key name create w w' k :
  we_password env = Some password -> wallet_ok w ->
  import_private_key env key name create w = (w', Ok k) ->
  k = public_key_of key /\
  exists r, wd_keys w' !! address_of_key k = Some r /\ usable password (wr_data r).
Proof.
  intros Hpw Hw Hr. cut (imports password key (import_private_key env key name create)).
  { intros Hi. destruct (Hi w w' k Hw Hr) as (-> & ?). done. }
  unfold import_private_key, throw_unless_unlocked. rewrite Hpw. clear Hr.
  intros w1 w2 x Hw1 Hr. apply eff_bind_Ok in Hr as (w3 & p & Hp & Hr). inv_eff. simplify_eq/=.
  refine ((_ : imports p key _) w1 w2 x Hw1 Hr). clear Hr. case_match.
  { apply imports_after; [apply (safe_same_name env p Hpw)|intros ?].
    apply imports_after; [apply safe_store_blockchain_account|intros ?]. apply imports_last. }
  apply imports_reads. intros [a|].
  { apply imports_after; [apply (safe_same_name env p Hpw)|intros ?]. apply imports_last. }
  apply imports_lift. intros n. apply imports_reads. intros [kr|]; [|by apply imports_named].
  case_match; [|by apply imports_named]. apply imports_reads. intros o.
  apply imports_after; [case_match; [apply (safe_lift_last env p Hpw), assert_err|apply safe_ret]|intros ?].
  apply imports_lift. intros ?. apply imports_last.
Qed.

(** A contact the chain knows and the wallet does not cannot be removed: the
    function dereferences the record it did not find. *)
Theorem remove_unknown_contact_aborts name r w :
  is_open w = true -> is_valid_account_name name = true -> chain_account env name = Some r ->
  account_at (name_to_account w !! name) w = None -> accounts_where (fun a => String.eqb (ad_name a) name) w = [] ->
  wallet_remove_contact_account env name w = (w, Err assertion_abort).
Proof using Type.
  intros Ho Hn Hc Hl Hu. unfold wallet_remove_contact_account, is_valid_account, is_unique_account,
    check_name, lookup_account_name. unfold mbind, eff_mbind, reads, lift. rewrite Hn, Ho, Hl, Hc, Hu. done.
Qed.

(** Importing a key the wallet has a private key of, but not the account it belongs
    to, dereferences the account that was not found. *)
Theorem import_orphan_key_aborts password key name create w k :
  we_password env = Some password -> is_open w = true ->
  let addr := address_of_key (public_key_of key) in
  cv_account_by_address (we_chain env) addr = None -> account_at (address_to_account w !! addr) w = None ->
  key_at addr w = Some k -> has_private_key (wr_data k) = true ->
  account_at (address_to_account w !! kd_account_address (wr_data k)) w = None ->
  import_private_key env key (Some name) create w = (w, Err assertion_abort).
Proof using Type.
  intros Hpw Ho addr Hc Ha Hk Hpriv Hown. unfold import_private_key, throw_unless_unlocked, lookup_account, lookup_key.
  rewrite Hpw. unfold mbind, eff_mbind, reads, lift. rewrite Ho. cbn -[account_at key_at]. fold addr.
  rewrite Hc. cbn -[account_at key_at]. rewrite Ho. cbn -[account_at key_at]. rewrite Ha. cbn -[account_at key_at].
  rewrite Ho. cbn -[account_at key_at]. rewrite Hk, Hpriv. cbn -[account_at]. rewrite Ho. cbn -[account_at].
  by rewrite Hown.
Qed.

(** What can be renamed is not registered: neither the new name nor the account's
    owner key, also where the key is registered under that very name. *)
Theorem rename_only_unregistered old new w w' :
  chain_names env -> (forall k r, cv_account_by_address (we_chain env) (address_of_key k) = Some r ->
                        chain_account env (ac_name r) = Some r) ->
  wallet_rename_account env old new w = (w', Ok tt) ->
  chain_account env new = None /\
  exists a, account_to_rename env old w = Some a /\
    cv_account_by_address (we_chain env) (address_of_key (ac_owner_key (ad_account a))) = None.
Proof using Type.
  intros Hnames Hindex Hr. unfold wallet_rename_account, ensure_open in Hr. inv_eff.
  repeat match goal with
  | Hx : throw_if ?c _ = Ok _ |- _ => unfold throw_if in Hx; destruct c eqn:?; [done|clear Hx]
  | Hx : require _ _ = Ok _ |- _ => apply require_Ok in Hx
  | Hx : bool_decide _ = false |- _ => apply bool_decide_eq_false in Hx
  | Hx : ~ is_Some _ |- _ => apply eq_None_not_Some in Hx
  | Hx : Ok _ = Ok _ |- _ => injection Hx as Hx; try subst
  end.
  split; [done|]. eexists. split; [eassumption|].
  destruct (cv_account_by_address _ _) as [r|] eqn:Hby; [|done]. cbn in *.
  match goal with Hn : negb (String.eqb _ _) = false |- _ => apply negb_false_iff, String.eqb_eq in Hn end.
  apply Hindex in Hby. congruence.
Qed.
End theorems.
