(* ===== verification/Doubles.v ===== *)
(** * Doubles: floating-point amounts (blockchain/asset.cpp, wallet/wallet.cpp)

    The wallet's functions take amounts and prices as [double]s.  A [double] is an
    IEEE 754 binary64 number, its operations those of the Standard Library's
    [SpecFloat] at precision 53 and exponent bound 1024, rounding to nearest even.
    The conversion of a value that does not fit the integer type is undefined in C++:
    [DoubleCast] is what the compiled code does then. *)
From S2P Require Import Prelude Config Fc Asset.
From Stdlib Require Import SpecFloat.
#[local] Open Scope Z_scope.

Notation double := spec_float (only parsing).

Definition double_mul : double -> double -> double := SFmul 53 1024.
Definition double_div : double -> double -> double := SFdiv 53 1024.
Definition double_sub : double -> double -> double := SFsub 53 1024.
Definition double_of_int (v : Z) : double := binary_normalize 53 1024 v 0 false.
Definition double_ltb : double -> double -> bool := SFltb.
Definition double_zero : double := S754_zero false.

(** The value rounded towards zero; infinities and NaN have none. *)
Definition double_trunc (d : double) : option Z :=
  match d with
  | S754_zero _ => Some 0
  | S754_finite s m e =>
      let v := Z.shiftl (Zpos m) e in
      Some (if s then - v else v)
  | S754_infinity _ | S754_nan => None
  end.

Class DoubleCast := {
  undefined_int64 : double -> Z;
  undefined_uint64 : double -> Z;
  undefined_int64_range d : in_int64 (undefined_int64 d)
}.

(** [int64_t( d )] and [uint64_t( d )] *)
Definition to_int64 `{DoubleCast} (d : double) : Z :=
  match double_trunc d with
  | Some v => if (INT64_MIN <=? v) && (v <=? INT64_MAX) then v else undefined_int64 d
  | None => undefined_int64 d
  end.
Definition to_uint64 `{DoubleCast} (d : double) : Z :=
  match double_trunc d with
  | Some v => if (0 <=? v) && (v <? 2^64) then v else undefined_uint64 d
  | None => undefined_uint64 d
  end.

(** x86-64 returns the smallest integer. *)
Definition x86_cast : DoubleCast := {|
  undefined_int64 _ := INT64_MIN;
  undefined_uint64 _ := 2^63;
  undefined_int64_range _ := ltac:(unfold in_int64, INT64_MIN, INT64_MAX; lia)
|}.

Section doubles.
Context `{DoubleCast}.

(** [share_type amount = real_amount * precision] *)
Definition to_shares (real_amount : double) (precision : Z) : Z :=
  to_int64 (double_mul real_amount (double_of_int precision)).

(** [price::price( double, asset_id_type, asset_id_type )] *)
Definition price_of_double (a : double) (q b : Z) : result price :=
  _ ← fc_assert (q >? b);
  let high_bits := to_uint64 a in
  let fract_part := double_sub a (double_of_int high_bits) in
  Ok (mk_price (wrapu128 (wrapu128 (high_bits * BTS_PRICE_PRECISION)
        + to_int64 (double_mul fract_part (double_of_int BTS_PRICE_PRECISION)))) b q).

Lemma to_int64_range d : in_int64 (to_int64 d).
Proof.
  unfold to_int64. destruct (double_trunc d) as [v|]; [|apply undefined_int64_range].
  destruct (Z.leb_spec INT64_MIN v); [|apply undefined_int64_range].
  destruct (Z.leb_spec v INT64_MAX); [|apply undefined_int64_range]. unfold in_int64. cbn. lia.
Qed.

Lemma to_shares_range d p : in_int64 (to_shares d p).
Proof. apply to_int64_range. Qed.

End doubles.

(** The nearest [double] of a fraction: [n / d]. *)
Definition double_of_ratio (n d : Z) : double := double_div (double_of_int n) (double_of_int d).

#[local] Existing Instance x86_cast.
(** Amounts are truncated, not rounded: of 0.00007 of an asset of precision 100,000,
    6 shares are sent, and of 0.29 of one of precision 100, 28. *)
Theorem shares_truncated :
  to_shares (double_of_ratio 7 100000) 100000 = 6 /\ to_shares (double_of_ratio 29 100) 100 = 28 /\
  to_shares (double_of_ratio 1 4) 100000 = 25000.
Proof. vm_compute. done. Qed.
