(* ===== verification/WalletTrx.v ===== *)
(** * WalletTrx: the transactions a wallet makes itself (wallet/wallet.cpp,
      blockchain/transaction.cpp)

    Besides those that only drive the transaction builder, the wallet's functions
    fill a local [signed_transaction] and a set of required signatures, withdraw what
    it costs from the balances of an account ([withdraw_to_transaction]), and return a
    record of it.  Here the local transaction, the signatures and the record are
    those of a fresh [builder] whose outstanding balances are not used.

    Amounts are [double]s (Doubles.v).  Arguments stand for what is drawn or computed
    outside: the slate [select_delegate_vote] drew, the chain's id, the conversions of
    [wallet_texts].  A [std::map] and an [unordered_map] argument is the list of its
    entries in the order the loop visits them. *)
From S2P Require Import Prelude Config Fc Asset Records ChainInterface OrderBook MarketOps AssetOps.
From S2P Require Import Eff WalletDb Builder WalletAccounts Doubles.
From Stdlib Require Import SpecFloat.
#[local] Open Scope Z_scope.


(** ** Appending operations, continued (transaction.cpp) *)

Definition tx_burn (quantity : asset) (for_or_against : Z) (message : string) (sig : option Z)
    (t : signed_transaction) : result signed_transaction :=
  _ ← fc_assert (String.eqb message EmptyString || (asset_id quantity =? 0));
  Ok (push_op (Op_burn (mk_burn quantity for_or_against message sig)) t).
Definition tx_register_account (name : string) (public_data : variant) (master active pay_rate : Z)
    (info : option (Z * list Z)) : signed_transaction -> signed_transaction :=
  push_op (Op_register_account (mk_register_account name public_data master active pay_rate info)).
Definition tx_create_asset (symbol name description : string) (data : variant)
    (issuer_id max_share_supply precision : Z) (t : signed_transaction) : result signed_transaction :=
  _ ← fc_assert (max_share_supply >? 0);
  _ ← fc_assert (max_share_supply <=? BTS_BLOCKCHAIN_MAX_SHARES);
  Ok (push_op (Op_create_asset (mk_create_asset symbol name description data issuer_id
                max_share_supply precision)) t).
Definition tx_issue (amt : asset) : signed_transaction -> signed_transaction :=
  push_op (Op_issue_asset (mk_issue_asset amt)).
Definition tx_add_collateral (collateral_amount : Z) (order_idx : market_index_key)
    : signed_transaction -> signed_transaction :=
  push_op (Op_add_collateral (mk_add_collateral collateral_amount order_idx)).
Definition tx_publish_feed (feed_id delegate_id : Z) (value : variant) : signed_transaction -> signed_transaction :=
  push_op (Op_update_feed (mk_update_feed (mk_feed_index feed_id delegate_id) value)).

(** Text, digests and JSON objects: fc's and the chain's conversions. [set_field] is an
    object (the empty one for a variant that is not an object) with a field set. *)
Record wallet_texts := mk_texts {
  wt_pretty_asset : asset -> string;
  wt_slate_string : Z -> string;
  wt_message_digest : string -> Z;
  wt_set_field : variant -> string -> variant -> variant;
  wt_client_version : string;
  wt_ugly_asset : string -> string -> result asset
}.

Definition set_td_extra (addrs : list Z) (r : transaction_data) : transaction_data :=
  mk_transaction_data (td_record_id r) (td_block_num r) (td_is_virtual r) (td_is_confirmed r)
    (td_is_market r) (td_trx r) (td_ledger_entries r) (td_fee r) (td_created_time r) (td_received_time r) addrs.

Section wallet_trx.
Context `{Crypto} `{WalletCrypto} `{FcNum} `{FcReal} `{BuilderCrypto} `{DoubleCast}.
Context (env : wallet_env) (texts : wallet_texts) (chain_id : Z).

(** ** What the functions share *)

(** A function with a transaction of its own. *)
Definition with_new_transaction {A} (m : eff building A) : eff wallet_db A := fun w =>
  let '(s, r) := m (mk_building new_builder w) in (bg_wallet s, r).

(** [trx.expiration = blockchain::now() + get_transaction_expiration()] *)
Definition set_expiration : eff building unit :=
  secs ← wallet_reads get_transaction_expiration;
  on_trx (set_tx_expiration (wrapu32 (we_clock env + secs))).

(** [wallet_impl::sign_transaction]: every required key must be there. *)
Definition sign_one (addr : Z) : eff building unit :=
  key ← wallet_reads (get_private_key env addr);
  on_trx (fun t => add_signature (sign_digest key (trx_digest t chain_id)) t).
Definition sign_transaction : eff building unit :=
  addrs ← builder_reads (fun b => elements (tb_required_signatures b));
  eff_each sign_one addrs.
Definition sign_if (sign : bool) : eff building unit := if sign then sign_transaction else mret tt.

(** The record: one ledger entry and the fee. *)
Definition make_record (e : ledger_entry) (fee : asset) : eff building unit :=
  _ ← add_entry e; on_record (set_td_fee fee).
Definition finish (e : ledger_entry) (fee : asset) (sign : bool) : eff building transaction_data :=
  _ ← make_record e fee;
  _ ← sign_if sign;
  builder_reads tb_record.

(** [trx.deposit_to_account( receiver, amount, from_key, memo, slate_id, memo_pub_key,
    my->get_new_private_key( account ), from_memo )] *)
Definition deposit_to_account (receiver : Z) (amt : asset) (from_key : Z) (memo : string) (slate_id : Z)
    (memo_pub_key : Z) (account_name : string) : eff building unit :=
  one_time_key ← on_wallet (get_new_private_key env account_name);
  let '(owner, data) := encrypt_memo_data one_time_key receiver from_key memo memo_pub_key in
  on_trx (tx_deposit_to_account owner data amt slate_id).

(** The asset a symbol names, with a check. *)
Definition known_asset (symbol : string) : result asset_record :=
  require (cv_asset_by_symbol (we_chain env) symbol) assert_exception.

(** A fee and an amount are withdrawn together where they are of one asset. *)
Definition withdraw_with_fee (amt fee : asset) (account_name : string) : eff building unit :=
  if asset_id fee =? asset_id amt then
    total ← lift (asset_add fee amt);
    withdraw_to_transaction env total account_name
  else
    _ ← withdraw_to_transaction env amt account_name;
    withdraw_to_transaction env fee account_name.

(** A delegate pays from its pay balance if that is more than the fee. *)
Definition pay_from_delegate (account : account_record) (fee : asset) : eff building unit :=
  try_trx (tx_withdraw_pay (ac_id account) (amount fee)).

(** ** Feeds *)

Definition feed_price (amount_per_xts : double) (quote base : asset_record) : result price :=
  price_of_double (double_div (double_mul amount_per_xts (double_of_int (as_precision quote)))
                     (double_of_int (as_precision base))) (as_id quote) (as_id base).
Definition feed_value (amount_per_xts : double) (p : price) : variant :=
  if double_ltb double_zero amount_per_xts then v_price p else v_null.

(** [wallet::publish_feeds]; the asset records are not checked. *)
Definition publish_one (account : account_record) (item : string * double) : eff building unit :=
  quote ← lift (require (cv_asset_by_symbol (we_chain env) item.1) assertion_abort);
  base ← lift (require (cv_asset_by_symbol (we_chain env) BTS_BLOCKCHAIN_SYMBOL) assertion_abort);
  p ← lift (feed_price item.2 quote base);
  on_trx (tx_publish_feed (as_id quote) (ac_id account) (feed_value item.2 p)).

(** What [publish_feeds] and [publish_price] do with the fee. *)
Definition pay_for_feed (account : account_record) (account_name : string) (fee : asset) : eff building unit :=
  balance ← lift (account_delegate_pay_balance account);
  _ ← (if amount fee <? balance then pay_from_delegate account fee
       else withdraw_to_transaction env fee account_name);
  require_signature (account_active_address account).

Definition publisher (account_name : string) : eff building unit :=
  _ ← on_wallet (ensure_unlocked env);
  receive ← wallet_reads (is_receive_account account_name);
  lift (throw_if (negb receive) unknown_receive_account).

Definition publish_feeds (account_name : string) (amount_per_xts : list (string * double)) (sign : bool)
    : eff building transaction_data :=
  _ ← publisher account_name;
  _ ← lift (throw_if (existsb (fun item => double_ltb item.2 double_zero) amount_per_xts) invalid_price);
  _ ← set_expiration;
  account ← lift (require (chain_account env account_name) assert_exception);
  payer ← wallet_reads (get_owner_public_key env account_name);
  _ ← eff_each (publish_one account) amount_per_xts;
  fee ← wallet_reads (get_transaction_fee env 0);
  _ ← pay_for_feed account account_name fee;
  finish (entry (Some payer) (Some payer) (mk_asset 0 0) "publish price feeds") fee sign.

(** [wallet::publish_price]: [force_settle] is set in a copy of the price that is not
    the one published. *)
Definition publish_price (account_name : string) (amount_per_xts : double) (symbol : string)
    (force_settle sign : bool) : eff building transaction_data :=
  _ ← publisher account_name;
  _ ← lift (throw_if (double_ltb amount_per_xts double_zero) invalid_price);
  _ ← set_expiration;
  account ← lift (require (chain_account env account_name) assert_exception);
  payer ← wallet_reads (get_owner_public_key env account_name);
  base ← lift (known_asset BTS_BLOCKCHAIN_SYMBOL);
  quote ← lift (known_asset symbol);
  p ← lift (feed_price amount_per_xts quote base);
  let quote_price_shares := (p, force_settle) in
  _ ← on_trx (tx_publish_feed (as_id quote) (ac_id account) (feed_value amount_per_xts quote_price_shares.1));
  fee ← wallet_reads (get_transaction_fee env 0);
  _ ← pay_for_feed account account_name fee;
  finish (entry (Some payer) (Some payer) (mk_asset 0 0) ("publish price " +:+ we_pretty_price env p)) fee sign.

(** [wallet::publish_feeds_multi_experimental]: each of the wallet's delegates, with a
    transaction of its own. *)
Definition publish_feeds_multi (amount_per_xts : list (string * double)) (sign : bool)
    : eff wallet_db (list (string * transaction_data)) :=
  accounts ← reads (fun w => Ok (list_my_accounts w));
  eff_fold (fun result a =>
    match chain_account env (ad_name a) with
    | Some r =>
        if account_is_retracted r || negb (account_is_delegate r) then mret result
        else
          tr ← with_new_transaction (publish_feeds (ad_name a) amount_per_xts sign);
          mret (result ++ [(ad_name a, tr)])
    | None => mret result
    end) [] accounts.

(** ** Public data: slates and versions *)

(** [wallet_impl::authorize_update] where the signatures are the transaction's. *)
Definition authorize (account : account_record) : eff building unit :=
  a ← wallet_reads (authorize_update env account false);
  match a with Some addr => require_signature addr | None => mret tt end.

(** What [publish_slate] and [publish_version] share: the field's name and value, and
    the memo. *)
Definition publish_data (account : account_record) (paying_account : string) (payer : Z)
    (field : string) (value : variant) (memo : string) (sign : bool) : eff building transaction_data :=
  _ ← on_trx (tx_update_account (ac_id account) (account_delegate_pay_rate account)
                (Some (wt_set_field texts (ac_public_data account) field value)) None);
  _ ← authorize account;
  fee ← wallet_reads (get_transaction_fee env 0);
  from_pay ← lift (if account_is_delegate account
                   then b ← account_delegate_pay_balance account; Ok (amount fee <? b) else Ok false);
  _ ← (if (from_pay : bool) then
         _ ← pay_from_delegate account fee;
         require_signature (account_active_address account)
       else withdraw_to_transaction env fee paying_account);
  finish (entry (Some payer) (Some payer) (mk_asset 0 0) memo) fee sign.

Definition paying_for (account_to_publish_under account_to_pay_with : string)
    : eff building (string * account_record * Z) :=
  _ ← on_wallet (ensure_unlocked env);
  let paying_account := if String.eqb account_to_pay_with EmptyString
                        then account_to_publish_under else account_to_pay_with in
  receive ← wallet_reads (is_receive_account paying_account);
  _ ← lift (throw_if (negb receive) unknown_receive_account);
  account ← lift (require (chain_account env account_to_publish_under) unknown_account);
  _ ← set_expiration;
  payer ← wallet_reads (get_owner_public_key env paying_account);
  mret (paying_account, account, payer).

(** [wallet::publish_slate] *)
Definition publish_slate (slate : delegate_slate) (account_to_publish_under account_to_pay_with : string)
    (sign : bool) : eff building transaction_data :=
  '(paying_account, account, payer) ← paying_for account_to_publish_under account_to_pay_with;
  slate_id ← select_slate env slate 0;
  _ ← lift (throw_if (slate_id =? 0) invalid_slate);
  publish_data account paying_account payer "slate_id" (v_int slate_id)
    ("publish slate " +:+ wt_slate_string texts slate_id) sign.

(** [wallet::publish_version] *)
Definition publish_version (account_to_publish_under account_to_pay_with : string) (sign : bool)
    : eff building transaction_data :=
  '(paying_account, account, payer) ← paying_for account_to_publish_under account_to_pay_with;
  let version := wt_client_version texts in
  publish_data account paying_account payer "version" (v_string version)
    ("publish version " +:+ version) sign.

(** ** Balances and pay *)

(** [wallet::collect_vested] *)
Definition vesting_mask : Z := Z.shiftl 1 2.
Definition collect_record (total : asset) (record : balance_record) : eff building asset :=
  balance ← lift (get_spendable_balance record (cv_now (we_pending env)));
  _ ← try_trx (tx_withdraw (balance_id record) (amount balance));
  owner ← lift (balance_owner record);
  _ ← require_signature owner;
  lift (asset_add total balance).
Definition collect_vested (account_name : string) (sign : bool) : eff building transaction_data :=
  _ ← on_wallet (throw_unless_unlocked env);
  found ← wallet_reads (lookup_account_name account_name);
  account ← lift (require found unknown_receive_account);
  let account := wr_data account in
  _ ← lift (throw_if (negb (ad_is_my_account account)) unknown_receive_account);
  balance_records ← wallet_reads (get_account_balance_records env account_name false vesting_mask);
  records ← lift (require (balance_records !! account_name) insufficient_funds);
  _ ← set_expiration;
  total ← eff_fold collect_record (mk_asset 0 0) records;
  fee ← wallet_reads (get_transaction_fee env 0);
  net ← lift (asset_sub total fee);
  let active := active_key account in
  key ← wallet_reads (get_private_key env (address_of_key active));
  _ ← deposit_to_account active net key EmptyString 0 active account_name;
  finish (entry (Some (owner_key account)) (Some (owner_key account)) net "collect vested") fee sign.

(** [wallet::withdraw_delegate_pay] *)
Definition withdraw_delegate_pay (slate : delegate_slate) (delegate_name : string) (real_amount : double)
    (withdraw_to_account_name : string) (sign : bool) : eff building transaction_data :=
  password ← on_wallet (ensure_unlocked env);
  receive ← wallet_reads (is_receive_account delegate_name);
  _ ← ensure receive;
  valid ← wallet_reads (is_valid_account env withdraw_to_account_name);
  _ ← ensure valid;
  asset_rec ← lift (require (cv_asset (we_chain env) 0) assertion_abort);
  let amount_to_withdraw := to_shares real_amount (as_precision asset_rec) in
  delegate ← lift (require (chain_account env delegate_name) assert_exception);
  info ← lift (require (ac_delegate_info delegate) assert_exception);
  fee ← wallet_reads (get_transaction_fee env 0);
  let total := wrap64 (amount_to_withdraw + amount fee) in
  _ ← ensure (ds_pay_balance info >=? total);
  _ ← set_expiration;
  found ← wallet_reads (lookup_key (account_active_address delegate));
  key ← lift (require found assert_exception);
  _ ← ensure (has_private_key (wr_data key));
  delegate_private_key ← lift (decrypt_private_key password (wr_data key));
  let delegate_public_key := public_key_of delegate_private_key in
  _ ← require_signature (address_of_key delegate_public_key);
  receiver ← wallet_reads (get_owner_public_key env withdraw_to_account_name);
  slate_id ← select_slate env slate 0;
  _ ← try_trx (tx_withdraw_pay (ac_id delegate) total);
  _ ← deposit_to_account receiver (mk_asset amount_to_withdraw 0) delegate_private_key "withdraw pay"
        slate_id delegate_public_key delegate_name;
  finish (entry (Some delegate_public_key) (Some receiver) (mk_asset amount_to_withdraw 0) "withdraw pay")
    fee sign.

(** ** Transfers and burning *)

(** The checks of [burn_asset] and [transfer_asset_to_address]: the amount, and the
    sender's active private key. *)
Definition sender_amount (real_amount : double) (symbol account_name : string)
    : eff building (asset * Z) :=
  _ ← on_wallet (ensure_unlocked env);
  _ ← ensure (bool_decide (is_Some (cv_asset_by_symbol (we_chain env) symbol)));
  receive ← wallet_reads (is_receive_account account_name);
  _ ← ensure receive;
  asset_rec ← lift (known_asset symbol);
  let precision := if as_precision asset_rec =? 0 then 1 else wrap64 (as_precision asset_rec) in
  sender ← wallet_reads (get_active_private_key env account_name);
  mret (mk_asset (to_shares real_amount precision) (as_id asset_rec), sender).

(** [wallet::burn_asset] *)
Definition burn_asset (real_amount : double) (symbol paying_account for_or_against to_account_name
    public_message : string) (anonymous sign : bool) : eff building transaction_data :=
  '(asset_to_transfer, sender) ← sender_amount real_amount symbol paying_account;
  _ ← set_expiration;
  fee ← wallet_reads (get_transaction_fee env (asset_id asset_to_transfer));
  _ ← withdraw_with_fee asset_to_transfer fee paying_account;
  let message_sig :=
    if anonymous then None
    else Some (sign_digest sender (if String.eqb public_message EmptyString then 0
                                   else wt_message_digest texts public_message)) in
  to_account ← lift (require (chain_account env to_account_name) assert_exception);
  _ ← lift (throw_if (account_is_retracted to_account) account_retracted);
  _ ← (if String.eqb for_or_against "against"
       then try_trx (tx_burn asset_to_transfer (- ac_id to_account) public_message message_sig)
       else _ ← ensure (String.eqb for_or_against "for");
            try_trx (tx_burn asset_to_transfer (ac_id to_account) public_message message_sig));
  _ ← on_record (set_td_extra [account_active_address to_account]);
  finish (entry (Some (public_key_of sender)) None asset_to_transfer
            (if String.eqb public_message EmptyString then "burn" else "burn: " +:+ public_message)) fee sign.

(** [wallet::transfer_asset_to_address]: signed a second time after the record was
    filled. *)
Definition transfer_asset_to_address (slate : delegate_slate) (real_amount : double)
    (symbol from_account_name : string) (to_address : Z) (memo : string) (sign : bool)
    : eff building transaction_data :=
  '(asset_to_transfer, sender) ← sender_amount real_amount symbol from_account_name;
  fee ← wallet_reads (get_transaction_fee env (asset_id asset_to_transfer));
  _ ← withdraw_with_fee asset_to_transfer fee from_account_name;
  slate_id ← select_slate env slate (asset_id asset_to_transfer);
  _ ← try_trx (tx_deposit to_address asset_to_transfer slate_id);
  _ ← set_expiration;
  _ ← on_record (set_td_extra [to_address]);
  record ← finish (entry (Some (public_key_of sender)) None asset_to_transfer memo) fee sign;
  _ ← sign_if sign;
  mret record.

(** [wallet::transfer_asset_to_many_address] *)
Definition transfer_to_one (asset_rec : asset_record) (from_account_name : string) (total : asset)
    (to : Z * double) : eff building asset :=
  let asset_to_transfer := mk_asset (to_shares to.2 (as_precision asset_rec)) (as_id asset_rec) in
  _ ← withdraw_to_transaction env asset_to_transfer from_account_name;
  total ← lift (asset_add total asset_to_transfer);
  _ ← try_trx (tx_deposit to.1 asset_to_transfer 0);
  mret total.
Definition transfer_asset_to_many_address (symbol from_account_name : string)
    (to_address_amounts : list (Z * double)) (memo : string) (sign : bool) : eff building transaction_data :=
  _ ← on_wallet (ensure_unlocked env);
  _ ← ensure (bool_decide (is_Some (cv_asset_by_symbol (we_chain env) symbol)));
  receive ← wallet_reads (is_receive_account from_account_name);
  _ ← ensure receive;
  _ ← ensure (bool_decide (to_address_amounts <> []));
  asset_rec ← lift (known_asset symbol);
  sender ← wallet_reads (get_active_private_key env from_account_name);
  _ ← set_expiration;
  fee ← wallet_reads (get_transaction_fee env 0);
  total ← eff_fold (transfer_to_one asset_rec from_account_name) (mk_asset 0 (as_id asset_rec))
            to_address_amounts;
  _ ← withdraw_to_transaction env fee from_account_name;
  _ ← on_record (set_td_extra to_address_amounts.*1);
  finish (entry (Some (public_key_of sender)) None total memo) fee sign.

(** ** Accounts *)

(** The search of [wallet::register_account] for a parent account whose key the
    wallet has: the address that has to sign. *)
Definition parent_key (parent : string) : eff building (option Z) :=
  r ← attempt (on_wallet (get_account env parent));
  match r with
  | Some r =>
      let a := ad_account (wr_data r) in
      if account_is_retracted a then mret None
      else
        active ← wallet_reads (fun w => Ok (db_has_private_key (account_active_address a) w));
        owner ← wallet_reads (fun w => Ok (db_has_private_key (account_owner_address a) w));
        mret (if (active : bool) then Some (account_active_address a)
              else if (owner : bool) then Some (account_owner_address a) else None)
  | None => mret None
  end.
Fixpoint find_parent_key (fuel : nat) (name : string) : eff building (option Z) :=
  match fuel, get_parent_account_name name with
  | S fuel, Some parent =>
      key ← parent_key parent;
      match key with
      | Some addr => mret (Some addr)
      | None => find_parent_key fuel parent
      end
  | _, _ => mret None
  end.
Definition authorize_child (name : string) : eff building unit :=
  match get_parent_account_name name with
  | None => mret tt
  | Some _ =>
      key ← find_parent_key (String.length name) name;
      addr ← lift (require key unauthorized_child_account);
      require_signature addr
  end.

(** [wallet::register_account]; [public] is [new_account_type == public_account]. *)
Definition register_account (account_to_register : string) (public_data : variant) (delegate_pay_rate : Z)
    (pay_with_account_name : string) (public sign : bool) : eff building transaction_data :=
  _ ← lift (check_name account_to_register);
  _ ← on_wallet (ensure_unlocked env);
  _ ← lift (throw_if (bool_decide (is_Some (chain_account env account_to_register))) duplicate_account_name);
  payer ← wallet_reads (get_owner_public_key env pay_with_account_name);
  account_public_key ← wallet_reads (get_owner_public_key env account_to_register);
  _ ← set_expiration;
  let meta_info := if public then Some (1, []) else None in
  let as_delegate := delegate_pay_rate <=? 100 in
  let pay_rate := if as_delegate then delegate_pay_rate else 255 in
  local ← attempt (on_wallet (get_account env account_to_register));
  let '(master, active) := match local with
                           | Some r => (owner_key (wr_data r), active_key (wr_data r))
                           | None => (account_public_key, account_public_key)
                           end in
  _ ← on_trx (tx_register_account account_to_register public_data master active pay_rate meta_info);
  _ ← authorize_child account_to_register;
  fee ← wallet_reads (get_transaction_fee env 0);
  fee ← lift (if as_delegate
              then r ← get_delegate_registration_fee (we_chain env) delegate_pay_rate;
                   asset_add fee (mk_asset r 0)
              else Ok fee);
  _ ← withdraw_to_transaction env fee pay_with_account_name;
  finish (entry (Some payer) (Some account_public_key) (mk_asset 0 0)
            ("register " +:+ account_to_register +:+ (if as_delegate then " as a delegate" else ""))) fee sign.

(** ** Assets *)

(** [wallet::create_asset] *)
Definition create_asset (symbol asset_name description : string) (data : variant)
    (issuer_account_name : string) (max_share_supply : double) (precision : Z)
    (market_issued sign : bool) : eff building transaction_data :=
  _ ← ensure (is_power_of_ten precision);
  _ ← on_wallet (ensure_unlocked env);
  valid ← lift (is_valid_symbol_name (we_chain env) symbol);
  _ ← ensure valid;
  _ ← ensure (bool_decide (cv_asset_by_symbol (we_chain env) symbol = None));
  _ ← set_expiration;
  fee ← wallet_reads (get_transaction_fee env 0);
  reg_fee ← lift (get_asset_registration_fee (we_chain env) (Z.of_nat (String.length symbol)));
  fee ← lift (asset_add fee (mk_asset reg_fee 0));
  _ ← lift (check_name issuer_account_name);
  from ← wallet_reads (get_owner_public_key env issuer_account_name);
  issuer ← lift (require (chain_account env issuer_account_name) account_not_registered);
  _ ← withdraw_to_transaction env fee issuer_account_name;
  _ ← require_signature (account_active_address issuer);
  _ ← ensure (double_ltb max_share_supply (double_of_int (BTS_BLOCKCHAIN_MAX_SHARES / precision)));
  _ ← try_trx (tx_create_asset symbol asset_name description data
                 (if market_issued then market_issuer_id else ac_id issuer)
                 (to_shares max_share_supply precision) precision);
  finish (entry (Some from) (Some from) (mk_asset 0 0)
            ("create " +:+ symbol +:+ " (" +:+ asset_name +:+ ")")) fee sign.

(** [wallet::issue_asset] *)
Definition issue_asset (amount_to_issue : double) (symbol to_account_name memo : string) (sign : bool)
    : eff building transaction_data :=
  _ ← lift (check_name to_account_name);
  password ← on_wallet (ensure_unlocked env);
  _ ← ensure (bool_decide (is_Some (cv_asset_by_symbol (we_chain env) symbol)));
  _ ← set_expiration;
  fee ← wallet_reads (get_transaction_fee env 0);
  asset_rec ← lift (known_asset symbol);
  issuer_account ← lift (require (cv_account (we_chain env) (as_issuer_account_id asset_rec)) assert_exception);
  let shares := mk_asset (to_shares amount_to_issue (as_precision asset_rec)) (as_id asset_rec) in
  _ ← withdraw_to_transaction env fee (ac_name issuer_account);
  _ ← on_trx (tx_issue shares);
  _ ← eff_each require_signature (elements (ms_owners (as_authority asset_rec)));
  receiver ← wallet_reads (get_owner_public_key env to_account_name);
  found ← wallet_reads (lookup_account_id (as_issuer_account_id asset_rec));
  issuer ← lift (require found assert_exception);
  found ← wallet_reads (lookup_key (owner_address (wr_data issuer)));
  key ← lift (require found assert_exception);
  _ ← ensure (has_private_key (wr_data key));
  sender ← lift (decrypt_private_key password (wr_data key));
  _ ← deposit_to_account receiver shares sender memo 0 (public_key_of sender) (ac_name issuer_account);
  finish (entry (Some (active_key (wr_data issuer))) (Some receiver) shares
            ("issue " +:+ wt_pretty_asset texts shares)) fee sign.

(** ** The market *)

(** [wallet::add_collateral]; [cover] is what [get_market_order( cover_id, cover_order )]
    returned. *)
Definition add_collateral (cover : option market_order) (from_account_name : string)
    (real_quantity : string) (sign : bool) : eff building transaction_data :=
  _ ← on_wallet (throw_unless_unlocked env);
  receive ← wallet_reads (is_receive_account from_account_name);
  _ ← lift (throw_if (negb receive) unknown_receive_account);
  order ← lift (require cover unknown_market_order);
  base ← lift (require (cv_asset (we_chain env) (base_asset_id (mk_order_price (mo_index order)))) assert_exception);
  collateral ← lift (wt_ugly_asset texts real_quantity (as_symbol base));
  _ ← lift (throw_if (amount collateral <=? 0) bad_collateral_amount);
  let owner := mo_owner order in
  key ← wallet_reads (lookup_key owner);
  _ ← ensure (from_option (fun k => has_private_key (wr_data k)) false key);
  from ← wallet_reads (get_owner_public_key env from_account_name);
  _ ← set_expiration;
  _ ← require_signature owner;
  _ ← on_trx (tx_add_collateral (amount collateral) (mo_index order));
  fee ← wallet_reads (get_transaction_fee env 0);
  total ← lift (asset_add collateral fee);
  _ ← withdraw_to_transaction env total from_account_name;
  _ ← on_record set_td_market;
  owner_private_key ← wallet_reads (get_private_key env owner);
  finish (entry (Some from) (Some (public_key_of owner_private_key)) collateral "add collateral to short") fee sign.

(** ** Functions that drive the builder *)

(** [builder->finalize(); if( sign ) return builder->sign(); return
    builder->transaction_record;] *)
Definition finalize_and_sign (slate : delegate_slate) (sign : bool) : eff building transaction_data :=
  _ ← finalize env slate true;
  _ ← (if sign then Builder.sign env chain_id else mret tt);
  builder_reads tb_record.

(** The account that is updated and the one that pays. *)
Definition updated_account (account_to_update pay_from_account : string)
    : eff building (account_data * option account_data) :=
  _ ← on_wallet (ensure_unlocked env);
  account ← on_wallet (get_account env account_to_update);
  payer ← (if String.eqb pay_from_account EmptyString then mret None
           else p ← on_wallet (get_account env pay_from_account); mret (Some (wr_data p)));
  mret (wr_data account, payer).

(** [wallet::update_registered_account] *)
Definition update_registered_account (slate : delegate_slate) (account_to_update pay_from_account : string)
    (public_data : option variant) (delegate_pay_rate : Z) (sign : bool) : eff building transaction_data :=
  '(account, payer) ← updated_account account_to_update pay_from_account;
  let pay := if delegate_pay_rate <=? 100 then Some delegate_pay_rate else None in
  _ ← update_account_registration env account public_data None pay payer;
  finalize_and_sign slate sign.

(** [wallet::update_active_key]; [wif_to_key] is the decoding of the text. *)
Definition update_active_key (slate : delegate_slate) (wif_to_key : string -> option Z)
    (account_to_update pay_from_account new_active_key : string) (sign : bool) : eff building transaction_data :=
  '(account, payer) ← updated_account account_to_update pay_from_account;
  new_public_key ←
    (if String.eqb new_active_key EmptyString then on_wallet (get_new_public_key env account_to_update)
     else key ← lift (require (wif_to_key new_active_key) assert_exception);
          on_wallet (import_private_key env key (Some account_to_update) false));
  _ ← update_account_registration env account None (Some new_public_key) None payer;
  finalize_and_sign slate sign.

(** [wallet::retract_account]: the new active key is the null key. *)
Definition retract_account (slate : delegate_slate) (account_to_retract pay_from_account : string)
    (sign : bool) : eff building transaction_data :=
  '(account, payer) ← updated_account account_to_retract pay_from_account;
  _ ← update_account_registration env account None (Some null_key) None payer;
  finalize_and_sign slate sign.

(** [wallet::cancel_market_orders] *)
Definition cancel_market_orders (slate : delegate_slate) (order_ids : list Z) (sign : bool)
    : eff building transaction_data :=
  _ ← on_wallet (throw_unless_unlocked env);
  _ ← eff_each (cancel_market_order env) order_ids;
  finalize_and_sign slate sign.

(** [wallet::cover_short] *)
Definition cover_short (slate : delegate_slate) (from_account_name real_quantity_usd quote_symbol : string)
    (cover_id : Z) (sign : bool) : eff building transaction_data :=
  _ ← on_wallet (throw_unless_unlocked env);
  account ← on_wallet (get_account env from_account_name);
  usd ← lift (wt_ugly_asset texts real_quantity_usd quote_symbol);
  _ ← submit_cover env (wr_data account) usd cover_id;
  finalize_and_sign slate sign.

(** [wallet::cache_transaction], once the chain has accepted the transaction. *)
Definition cache_transaction (record : transaction_data) : eff wallet_db transaction_data :=
  let record := set_td_created (trx_id (td_trx record)) (we_clock env) record in
  _ ← store_transaction record;
  mret record.
End wallet_trx.
