(* ===== verification/WalletTrxFacts.v ===== *)
(** * WalletTrxFacts: the wallet's transactions pay their fee

    What a transaction of the wallet withdraws or issues exceeds what it deposits,
    burns and puts up as collateral by exactly the fee the wallet records for it, of
    every asset ([wallet_transactions_pay_their_fee]); one that pays many addresses
    can withdraw more from a balance than there is ([many_addresses_overdraw]). *)
From S2P Require Import Prelude Config Fc Asset Records ChainInterface OrderBook MarketOps AssetOps.
From S2P Require Import Eff WalletDb WalletFacts Builder BuilderFacts WalletAccounts Doubles WalletTrx.
From Stdlib Require Import SpecFloat.
#[local] Open Scope Z_scope.

Section facts.
Context `{Crypto} `{WalletCrypto} `{FcNum} `{FcReal} `{BuilderCrypto} `{DoubleCast}.
Context (env : wallet_env) (texts : wallet_texts) (chain_id : Z).

(** The balances of the pending state are stored under their ids. *)
Context (Hkeyed : balances_keyed env).

(** The fees the wallet computes are [int64_t]s, and without another asset asked for
    they are of the base asset. *)
Definition fees_ok : Prop :=
  (forall id w f, get_transaction_fee env id w = Ok f -> in_int64 (amount f)) /\
  (forall w f, get_transaction_fee env 0 w = Ok f -> asset_id f = 0).
Context (Hfees : fees_ok).

(** An amount in the text of an asset's symbol is of that asset. *)
Definition ugly_assets_ok : Prop :=
  forall q id r a, cv_asset (we_chain env) id = Some r -> wt_ugly_asset texts q (as_symbol r) = Ok a ->
  asset_id a = id.
Context (Hugly : ugly_assets_ok).
#[local] Set Default Proof Using "All".

(** ** Records that balance *)

(** The record [m] returns, where the transaction so far has brought in [Y]: its
    transaction yields what the transaction did before, and the fee less [Y]. *)
Definition fee_of (r : transaction_data) : Z -> Z := at_asset (asset_id (td_fee r)) (amount (td_fee r)).
Definition due (Y : Z -> Z) (m : eff building transaction_data) : Prop :=
  forall s s' r, m s = (s', Ok r) ->
  forall a, ops_yield env (tx_operations (td_trx r)) a ≡64 trx_yield env s a + (fee_of r a - Y a).

Lemma due_step Y Y1 T1 {A} (m : eff building A) (k : A -> eff building transaction_data) :
  moves env Y1 T1 m -> (forall s s1 x, m s = (s1, Ok x) -> due (fun a => Y a + Y1 a) (k x)) ->
  due Y (m ≫= k).
Proof.
  intros Hm Hk s s' r (s1 & x & Hx & Hr)%eff_bind_Ok a.
  rewrite (Hk s s1 x Hx _ _ _ Hr a). destruct (Hm _ _ _ Hx a) as [-> _]. apply eq_eqm64. lia.
Qed.
Lemma due_still Y {A} (m : eff building A) (k : A -> eff building transaction_data) :
  moves env nothing nothing m -> (forall s s1 x, m s = (s1, Ok x) -> due Y (k x)) -> due Y (m ≫= k).
Proof.
  intros Hm Hk. eapply due_step; [exact Hm|]. intros s s1 x Hx s2 s3 r Hr a.
  rewrite (Hk s s1 x Hx _ _ _ Hr a). apply eq_eqm64. unfold nothing. lia.
Qed.
Lemma due_ext Y Y' m : (forall a, Y a ≡64 Y' a) -> due Y' m -> due Y m.
Proof. intros HY Hm s s' r Hr a. by rewrite (Hm s s' r Hr a), HY. Qed.

(** ** Steps that move nothing *)

Lemma moves_add_signature f :
  moves env nothing nothing (on_trx (fun t => add_signature (f t) t)).
Proof. by apply moves_on_record. Qed.
Lemma moves_set_expiration : moves env nothing nothing (set_expiration env).
Proof.
  unfold set_expiration. apply moves_then; [apply moves_wallet_reads|intros ? ? ? ?]. by apply moves_on_record.
Qed.
Lemma moves_sign_if sign : moves env nothing nothing (sign_if env chain_id sign).
Proof.
  unfold sign_if, sign_transaction. destruct sign; [|apply moves_ret].
  apply moves_then; [apply moves_builder_reads|intros ? ? ? ?]. apply moves_each_still. intros addr.
  unfold sign_one. apply moves_then; [apply moves_wallet_reads|intros ? ? ? ?]. apply moves_add_signature.
Qed.

(** [finish] returns the transaction it was given, but for the signatures. *)
Definition keeps_trx (s s' : building) : Prop :=
  tx_operations (tb_trx (bg_builder s')) = tx_operations (tb_trx (bg_builder s)) /\
  td_fee (tb_record (bg_builder s')) = td_fee (tb_record (bg_builder s)).
#[local] Instance keeps_trx_preorder : PreOrder keeps_trx.
Proof. split; [done|]. intros s1 s2 s3 [H1' H2'] [H3' H4']. split; congruence. Qed.

Lemma keeps_sign_if sign : keeps keeps_trx (sign_if env chain_id sign).
Proof.
  unfold sign_if, sign_transaction. destruct sign; [|apply (keeps_ret keeps_trx)].
  apply (keeps_bind keeps_trx); [apply (keeps_reads keeps_trx)|intros addrs].
  apply (keeps_each keeps_trx). intros addr _. unfold sign_one.
  apply (keeps_bind keeps_trx); [apply (keeps_reads keeps_trx)|intros key]. by apply (keeps_update keeps_trx).
Qed.

Lemma due_finish fee e sign : due (at_asset (asset_id fee) (amount fee)) (finish env chain_id e fee sign).
Proof.
  intros s s' r Hr a. unfold finish, make_record, add_entry, on_record, on_builder, builder_reads in Hr. inv_eff.
  match goal with Hs : sign_if _ _ _ ?s1 = (?s2, _) |- _ => pose proof (keeps_sign_if sign s1) as Hkept end.
  match goal with Hs : sign_if _ _ _ ?s1 = (?s2, _) |- _ => rewrite Hs in Hkept end. destruct Hkept as [Ho Hf]. cbn in Ho, Hf.
  simplify_eq/=. unfold fee_of, trx_yield, tb_trx in *. rewrite Ho. apply eq_eqm64. lia.
Qed.

(** ** What each step brings in *)

Lemma moves_withdraw_pay account amt :
  moves env (at_asset 0 amt) nothing (try_trx (tx_withdraw_pay account amt)).
Proof.
  apply (moves_try_trx env (Op_withdraw_pay (mk_withdraw_pay amt account))).
  intros t t' Ht. unfold tx_withdraw_pay in Ht. by repeat inv_ok_step.
Qed.

Lemma moves_deposit_to_account receiver amt from_key memo slate_id pub name :
  moves env (at_asset (asset_id amt) (- amount amt)) nothing
    (deposit_to_account env receiver amt from_key memo slate_id pub name).
Proof.
  unfold deposit_to_account. apply moves_then; [apply moves_on_wallet|intros ? ? key ?].
  destruct (encrypt_memo_data _ _ _ _ _) as [owner data]. apply moves_tx_deposit_to_account.
Qed.

Lemma moves_withdraw_with_fee amt fee name :
  in_int64 (amount amt) -> in_int64 (amount fee) ->
  moves env (fun a => at_asset (asset_id amt) (amount amt) a + at_asset (asset_id fee) (amount fee) a) nothing
    (withdraw_with_fee env amt fee name).
Proof.
  intros Hamt Hfee. unfold withdraw_with_fee. destruct (Z.eqb_spec (asset_id fee) (asset_id amt)) as [He|Hne].
  - apply moves_then; [apply moves_lift|]. intros ? ? t Ht. apply lift_Ok in Ht as [-> Ht].
    apply asset_add_Ok in Ht as [_ ->]. eapply moves_ext; [| |apply moves_withdraw_to_transaction]; [|done|done|].
    + intros a. cbn. unfold at_asset. rewrite He. destruct (_ =? _); [|done]. rewrite wrap64_eqm. apply eq_eqm64. lia.
    + apply wrap64_range.
  - eapply moves_ext; [| |apply moves_bind; [by apply moves_withdraw_to_transaction|]];
      [done| |intros ?; by apply moves_withdraw_to_transaction]. intros a. done.
Qed.

Lemma fee_range id w f : get_transaction_fee env id w = Ok f -> in_int64 (amount f).
Proof. apply Hfees. Qed.
Lemma fee_base w f : get_transaction_fee env 0 w = Ok f -> asset_id f = 0.
Proof. apply Hfees. Qed.

Lemma moves_publish_one account item : moves env nothing nothing (publish_one env account item).
Proof.
  unfold publish_one. do 3 (apply moves_then; [apply moves_lift|intros ? ? ? ?]).
  by apply (moves_on_trx env (Op_update_feed _)).
Qed.
Lemma moves_publisher name : moves env nothing nothing (publisher env name).
Proof.
  unfold publisher. apply moves_then; [apply moves_on_wallet|intros ? ? ? ?].
  apply moves_then; [apply moves_wallet_reads|intros ? ? ? ?]. apply moves_lift.
Qed.
Lemma moves_pay_for_feed account name fee :
  in_int64 (amount fee) -> asset_id fee = 0 ->
  moves env (at_asset (asset_id fee) (amount fee)) nothing (pay_for_feed env account name fee).
Proof.
  intros Hr Hb. unfold pay_for_feed, pay_from_delegate. apply moves_then; [apply moves_lift|intros ? ? b ?].
  apply moves_before; [|intros ?; apply moves_require_signature]. destruct (_ <? _).
  - rewrite Hb. apply moves_withdraw_pay.
  - by apply moves_withdraw_to_transaction.
Qed.

Create HintDb still.
#[local] Hint Resolve moves_ret moves_reads moves_lift moves_wallet_reads moves_builder_reads moves_ensure
  moves_on_wallet moves_add_entry moves_require_signature moves_select_slate moves_set_expiration
  moves_publisher moves_sign_if : still.

(** Takes the steps that move nothing, as far as the fee. *)
Ltac stills :=
  repeat (lazymatch goal with
          | |- due _ (wallet_reads (get_transaction_fee _ _) ≫= _) => fail
          | _ => idtac
          end;
          eapply due_still;
          [solve [eauto with still nocore|by apply moves_on_record|by apply moves_on_builder]
          |intros ? ? ? ?]).
(** Takes one that moves something. *)
Tactic Notation "brings" uconstr(l) := eapply due_step; [apply l|intros ? ? ? ?].
(** Ends with the record. *)
Ltac balances_out :=
  eapply due_ext; [|apply due_finish]; intros a; unfold nothing;
  cbn [op_yield ia_amount ad_amount ad_cover_index]; unfold at_asset; cbn [asset_id amount];
  repeat (case_match; try done); try (apply eq_eqm64; lia).

(** Reads a fee. *)
Ltac reads_fee fee Hf :=
  eapply due_still; [apply moves_wallet_reads|intros ? ? fee Hf];
  unfold wallet_reads in Hf; apply eff_reads_Ok in Hf as [-> Hf].

Lemma due_publish_feeds name items sign : due nothing (publish_feeds env chain_id name items sign).
Proof.
  unfold publish_feeds. stills.
  eapply due_still; [apply moves_each_still; intros ?; apply moves_publish_one|intros ? ? ? ?].
  reads_fee fee Hf. brings moves_pay_for_feed; [by eapply fee_range|by eapply fee_base|]. balances_out.
Qed.

Lemma due_publish_price name amt symbol force sign :
  due nothing (publish_price env chain_id name amt symbol force sign).
Proof.
  unfold publish_price. stills.
  eapply due_still; [by apply (moves_on_trx env (Op_update_feed _))|intros ? ? ? ?].
  reads_fee fee Hf. brings moves_pay_for_feed; [by eapply fee_range|by eapply fee_base|]. balances_out.
Qed.

Lemma moves_authorize account : moves env nothing nothing (authorize env account).
Proof.
  unfold authorize. apply moves_then; [apply moves_wallet_reads|intros ? ? o ?].
  destruct o; [apply moves_require_signature|apply moves_ret].
Qed.

Lemma due_publish_data account paying payer field value memo sign :
  due nothing (publish_data env texts chain_id account paying payer field value memo sign).
Proof.
  unfold publish_data.
  eapply due_still; [by apply (moves_on_trx env (Op_update_account _))|intros ? ? ? ?].
  eapply due_still; [apply moves_authorize|intros ? ? ? ?]. reads_fee fee Hf.
  eapply due_still; [apply moves_lift|intros ? ? from_pay _].
  eapply due_step with (Y1 := at_asset (asset_id fee) (amount fee)); [|intros ? ? ? ?; balances_out].
  destruct from_pay; [|apply moves_withdraw_to_transaction; [done|by eapply fee_range]].
  rewrite (fee_base _ _ Hf). apply moves_before; [apply moves_withdraw_pay|]. intros ?. apply moves_require_signature.
Qed.

Lemma moves_paying_for name payer : moves env nothing nothing (paying_for env name payer).
Proof.
  unfold paying_for.
  repeat (apply moves_then; [solve [eauto with still nocore]|intros ? ? ? ?]). apply moves_ret.
Qed.
Lemma due_publish_slate slate name payer sign : due nothing (publish_slate env texts chain_id slate name payer sign).
Proof.
  unfold publish_slate. eapply due_still; [apply moves_paying_for|intros ? ? [[? ?] ?] _]. stills.
  apply due_publish_data.
Qed.
Lemma due_publish_version name payer sign : due nothing (publish_version env texts chain_id name payer sign).
Proof.
  unfold publish_version. eapply due_still; [apply moves_paying_for|intros ? ? [[? ?] ?] _]. apply due_publish_data.
Qed.

Lemma due_withdraw_delegate_pay slate name amt to sign :
  due nothing (withdraw_delegate_pay env chain_id slate name amt to sign).
Proof.
  unfold withdraw_delegate_pay.
  stills. reads_fee fee Hf. stills.
  brings moves_withdraw_pay. brings moves_deposit_to_account. balances_out.
  - rewrite wrap64_eqm. apply eq_eqm64. lia.
  - pose proof (fee_base _ _ Hf). lia.
  - pose proof (fee_base _ _ Hf). lia.
Qed.

Lemma moves_sender_amount amt symbol name : moves env nothing nothing (sender_amount env amt symbol name).
Proof.
  unfold sender_amount.
  repeat (apply moves_then; [solve [eauto with still nocore]|intros ? ? ? ?]). apply moves_ret.
Qed.
Lemma sender_amount_range amt symbol name s s' r :
  sender_amount env amt symbol name s = (s', Ok r) -> in_int64 (amount r.1).
Proof. intros Hr. unfold sender_amount in Hr. inv_eff. apply to_shares_range. Qed.

Lemma moves_tx_burn amt id message sig :
  moves env (at_asset (asset_id amt) (- amount amt)) nothing (try_trx (tx_burn amt id message sig)).
Proof.
  apply (moves_try_trx env (Op_burn (mk_burn amt id message sig))).
  intros t t' Ht. unfold tx_burn in Ht. by repeat inv_ok_step.
Qed.

Lemma due_burn_asset amt symbol paying side to message anonymous sign :
  due nothing (burn_asset env texts chain_id amt symbol paying side to message anonymous sign).
Proof.
  unfold burn_asset. eapply due_still; [apply moves_sender_amount|intros ? ? [burnt sender] Hs].
  apply sender_amount_range in Hs. cbn in Hs. stills. reads_fee fee Hf.
  brings moves_withdraw_with_fee; [done|by eapply fee_range|]. stills.
  eapply due_step with (Y1 := at_asset (asset_id burnt) (- amount burnt)).
  - destruct (String.eqb side "against"); [apply moves_tx_burn|].
    apply moves_then; [apply moves_ensure|intros ? ? ? ?]. apply moves_tx_burn.
  - intros ? ? ? ?. stills. balances_out.
Qed.

(** What happens after the record was made does not reach it. *)
Lemma due_afterwards Y {A} (m : eff building transaction_data) (m' : eff building A) :
  due Y m -> due Y (r ← m; _ ← m'; mret r).
Proof. intros Hm s s' r Hr. inv_eff. by eapply Hm. Qed.

Lemma due_transfer slate amt symbol from to memo sign :
  due nothing (transfer_asset_to_address env chain_id slate amt symbol from to memo sign).
Proof.
  unfold transfer_asset_to_address. eapply due_still; [apply moves_sender_amount|intros ? ? [sent sender] Hs].
  apply sender_amount_range in Hs. cbn in Hs. reads_fee fee Hf.
  brings moves_withdraw_with_fee; [done|by eapply fee_range|]. stills.
  brings moves_tx_deposit. stills.
  apply due_afterwards. balances_out.
Qed.

Lemma moves_fold_still {X A} (f : A -> X -> eff building A) l :
  (forall x y, moves env nothing nothing (f x y)) -> forall x, moves env nothing nothing (eff_fold f x l).
Proof.
  intros Hf. induction l as [|y l IH]; intros x; cbn; [apply moves_ret|].
  apply moves_then; [apply Hf|]. intros ? ? ? ?. apply IH.
Qed.

Lemma moves_transfer_to_one rec from total to : moves env nothing nothing (transfer_to_one env rec from total to).
Proof.
  unfold transfer_to_one. set (amt := mk_asset _ _).
  eapply moves_ext with (Y := fun a => at_asset (asset_id amt) (amount amt) a + at_asset (asset_id amt) (- amount amt) a)
    (T := fun _ => 0 + 0); [intros a; unfold nothing, at_asset; case_match; apply eq_eqm64; lia|done|].
  apply (moves_bind env _ (fun _ => 0) _ (fun _ => 0)).
  - apply moves_withdraw_to_transaction; [done|apply to_shares_range].
  - intros ?. apply (moves_then env _ (fun _ => 0)); [apply moves_lift|intros ? ? ? ?].
    apply moves_before; [apply moves_tx_deposit|intros ?; apply moves_ret].
Qed.

Lemma due_transfer_many symbol from amounts memo sign :
  due nothing (transfer_asset_to_many_address env chain_id symbol from amounts memo sign).
Proof.
  unfold transfer_asset_to_many_address. stills. reads_fee fee Hf.
  eapply due_still; [apply moves_fold_still; intros ? ?; apply moves_transfer_to_one|intros ? ? ? ?].
  brings moves_withdraw_to_transaction; [done|by eapply fee_range|]. stills. balances_out.
Qed.

(** ** Vested balances *)

Lemma collect_record_run t r s s' t' :
  pending_record env r -> collect_record env t r s = (s', Ok t') ->
  asset_id t' = asset_id t /\
  forall a, trx_yield env s' a ≡64 trx_yield env s a + at_asset (asset_id t) (amount t' - amount t) a.
Proof.
  intros Hp Hr. unfold collect_record in Hr. apply eff_bind_Ok in Hr as (s1 & b & Hb & Hr).
  apply lift_Ok in Hb as [-> Hb]. apply eff_bind_Ok in Hr as (s2 & [] & Hw & Hr).
  assert (0 < amount b) as Hpos.
  { clear Hr. unfold try_trx in Hw. apply eff_bind_Ok in Hw as (s3 & x & Hx & _). apply eff_reads_Ok in Hx as [_ Hx].
    unfold tx_withdraw in Hx. repeat inv_ok_step. lia. }
  pose proof (moves_tx_withdraw env r (amount b) Hp s s2 tt Hw) as Hy. unfold require_signature, on_builder in Hr.
  apply eff_bind_Ok in Hr as (s3 & o & Ho & Hr). apply lift_Ok in Ho as [-> _].
  apply eff_bind_Ok in Hr as (s4 & [] & Hs & Hr). apply update_Ok in Hs as ->. apply lift_Ok in Hr as [-> Hadd].
  apply asset_add_Ok in Hadd as [Hid ->]. cbn. split; [done|]. intros a. destruct (Hy a) as [Hya _].
  change (trx_yield env s2 a ≡64 trx_yield env s a + at_asset (asset_id t) (wrap64 (amount t + amount b) - amount t) a).
  rewrite Hya, <- (spendable_asset _ _ _ Hb) by lia. rewrite Hid. unfold at_asset. destruct (_ =? _); [|done].
  rewrite wrap64_eqm. apply eq_eqm64. lia.
Qed.

Lemma collect_all_run l t s s' t' :
  Forall (pending_record env) l -> eff_fold (collect_record env) t l s = (s', Ok t') ->
  asset_id t' = asset_id t /\
  forall a, trx_yield env s' a ≡64 trx_yield env s a + at_asset (asset_id t) (amount t' - amount t) a.
Proof.
  intros Hl. revert t s. induction Hl as [|r l Hp _ IH]; intros t s Hr; cbn in Hr.
  - apply mret_Ok in Hr as [-> ->]. split; [done|]. intros a. unfold at_asset. destruct (_ =? _); apply eq_eqm64; lia.
  - apply eff_bind_Ok in Hr as (s1 & t1 & H1' & Hr). apply collect_record_run in H1' as [Hid Hy]; [|done].
    apply IH in Hr as [Hid' Hy']. split; [congruence|]. intros a. rewrite Hy', Hy, Hid. apply eq_eqm64.
    unfold at_asset. destruct (_ =? _); lia.
Qed.

(** A step whose yield depends on what it returns. *)
Lemma due_run Y {A} (Y1 : A -> Z -> Z) (m : eff building A) (k : A -> eff building transaction_data) :
  (forall s s1 x, m s = (s1, Ok x) -> (forall a, trx_yield env s1 a ≡64 trx_yield env s a + Y1 x a) /\
                                  due (fun a => Y a + Y1 x a) (k x)) ->
  due Y (m ≫= k).
Proof.
  intros Hm s s' r (s1 & x & Hx & Hr)%eff_bind_Ok a. destruct (Hm _ _ _ Hx) as [Hy Hk].
  rewrite (Hk _ _ _ Hr a), Hy. apply eq_eqm64. lia.
Qed.

Lemma due_collect_vested name sign : due nothing (collect_vested env chain_id name sign).
Proof.
  unfold collect_vested. do 4 (eapply due_still; [solve [eauto with still nocore]|intros ? ? ? ?]).
  eapply due_still; [apply moves_wallet_reads|intros ? ? m Hm].
  unfold wallet_reads in Hm. apply eff_reads_Ok in Hm as [-> Hm].
  eapply due_still; [apply moves_lift|intros ? ? records Hr]. apply lift_Ok in Hr as [-> Hr%require_Ok].
  pose proof (balance_records_pending _ _ _ _ _ _ _ _ Hkeyed Hm Hr) as Hpend. stills.
  apply (due_run _ (fun t => at_asset 0 (amount t))). intros ? ? total Ht.
  apply collect_all_run in Ht as [Hid Hy]; [|done]. cbn in Hid, Hy. split.
  { intros a. rewrite Hy. apply eq_eqm64. f_equal. unfold at_asset. destruct (_ =? _); lia. }
  reads_fee fee Hf. eapply due_still; [apply moves_lift|intros ? ? net Hn].
  apply lift_Ok in Hn as [-> [Hi ->]%asset_sub_Ok]. stills. brings moves_deposit_to_account.
  balances_out; try (rewrite wrap64_eqm; apply eq_eqm64; lia); lia.
Qed.

(** ** Accounts and assets *)

Lemma moves_attempt_wallet {A} (m : eff wallet_db A) : moves env nothing nothing (attempt (on_wallet m)).
Proof.
  apply still_same. intros s s' x Hr. unfold attempt, on_wallet in Hr.
  destruct (m (bg_wallet s)) as [w [y|e]]; [by simplify_eq|]. by destruct (uncaught e); simplify_eq.
Qed.

Lemma moves_find_parent_key fuel name : moves env nothing nothing (find_parent_key env fuel name).
Proof.
  revert name. induction fuel as [|fuel IH]; intros name; cbn; [apply moves_ret|].
  destruct (get_parent_account_name name) as [parent|]; [|apply moves_ret].
  apply moves_then; [|intros ? ? [addr|] _; [apply moves_ret|apply IH]]. unfold parent_key.
  apply moves_then; [apply moves_attempt_wallet|intros ? ? [r|] _; [|apply moves_ret]].
  destruct (account_is_retracted _); [apply moves_ret|].
  do 2 (apply moves_then; [apply moves_wallet_reads|intros ? ? ? ?]). apply moves_ret.
Qed.
Lemma moves_authorize_child name : moves env nothing nothing (authorize_child env name).
Proof.
  unfold authorize_child. destruct (get_parent_account_name name); [|apply moves_ret].
  apply moves_then; [apply moves_find_parent_key|intros ? ? ? ?].
  apply moves_then; [apply moves_lift|intros ? ? ? ?]. apply moves_require_signature.
Qed.

Lemma due_register_account name data rate payer public sign :
  due nothing (register_account env chain_id name data rate payer public sign).
Proof.
  unfold register_account. stills.
  eapply due_still; [apply moves_attempt_wallet|intros ? ? local _].
  destruct (match local with Some r => _ | None => _ end) as [master active].
  eapply due_still; [by apply (moves_on_trx env (Op_register_account _))|intros ? ? ? ?].
  eapply due_still; [apply moves_authorize_child|intros ? ? ? ?]. reads_fee fee Hf.
  eapply due_still; [apply moves_lift|intros ? ? total Ht]. apply lift_Ok in Ht as [-> Ht].
  brings moves_withdraw_to_transaction; [done| |balances_out].
  destruct (rate <=? 100); [|simplify_eq; by eapply fee_range].
  apply bind_Ok in Ht as (r & _ & Ht). apply asset_add_Ok in Ht as [_ ->]. apply wrap64_range.
Qed.

Lemma moves_tx_create_asset symbol name description data issuer supply precision :
  moves env nothing nothing (try_trx (tx_create_asset symbol name description data issuer supply precision)).
Proof.
  apply (moves_try_trx env (Op_create_asset (mk_create_asset symbol name description data issuer supply precision))).
  intros t t' Ht. unfold tx_create_asset in Ht. by repeat inv_ok_step.
Qed.

Lemma due_create_asset symbol name description data issuer supply precision market sign :
  due nothing (create_asset env chain_id symbol name description data issuer supply precision market sign).
Proof.
  unfold create_asset. stills. reads_fee fee Hf. eapply due_still; [apply moves_lift|intros ? ? reg _].
  eapply due_still; [apply moves_lift|intros ? ? total Ht]. apply lift_Ok in Ht as [-> [_ ->]%asset_add_Ok]. stills.
  brings moves_withdraw_to_transaction; [done|apply wrap64_range|]. stills.
  eapply due_still; [apply moves_tx_create_asset|intros ? ? ? ?]. balances_out.
Qed.

Lemma due_issue_asset amt symbol to memo sign : due nothing (issue_asset env texts chain_id amt symbol to memo sign).
Proof.
  unfold issue_asset. stills. reads_fee fee Hf. stills.
  brings moves_withdraw_to_transaction; [done|by eapply fee_range|].
  set (shares := mk_asset _ _). brings (moves_on_trx env (Op_issue_asset (mk_issue_asset shares))).
  eapply due_still; [apply moves_each_still; intros ?; apply moves_require_signature|intros ? ? ? ?]. stills.
  brings moves_deposit_to_account. balances_out.
Qed.

Lemma due_add_collateral cover name quantity sign :
  due nothing (add_collateral env texts chain_id cover name quantity sign).
Proof.
  unfold add_collateral. do 3 (eapply due_still; [solve [eauto with still nocore]|intros ? ? ? ?]).
  eapply due_still; [apply moves_lift|intros ? ? order _].
  eapply due_still; [apply moves_lift|intros ? ? base Hb]. apply lift_Ok in Hb as [-> Hb%require_Ok].
  eapply due_still; [apply moves_lift|intros ? ? collateral Hc]. apply lift_Ok in Hc as [-> Hc].
  pose proof (Hugly _ _ _ _ Hb Hc) as Hid. stills.
  brings (moves_on_trx env (Op_add_collateral (mk_add_collateral (amount collateral) (mo_index order)))).
  reads_fee fee Hf. eapply due_still; [apply moves_lift|intros ? ? total Ht].
  apply lift_Ok in Ht as [-> [Hi ->]%asset_add_Ok].
  brings moves_withdraw_to_transaction; [done|apply wrap64_range|]. stills.
  balances_out; try (rewrite wrap64_eqm; apply eq_eqm64; lia); lia.
Qed.

(** ** The theorem *)

(** The wallet's functions that fill a transaction of their own. *)
Inductive wallet_operation : eff building transaction_data -> Prop :=
| op_publish_feeds name items sign : wallet_operation (publish_feeds env chain_id name items sign)
| op_publish_price name amt symbol force sign :
    wallet_operation (publish_price env chain_id name amt symbol force sign)
| op_publish_slate slate name payer sign : wallet_operation (publish_slate env texts chain_id slate name payer sign)
| op_publish_version name payer sign : wallet_operation (publish_version env texts chain_id name payer sign)
| op_collect_vested name sign : wallet_operation (collect_vested env chain_id name sign)
| op_withdraw_delegate_pay slate name amt to sign :
    wallet_operation (withdraw_delegate_pay env chain_id slate name amt to sign)
| op_burn_asset amt symbol paying side to message anonymous sign :
    wallet_operation (burn_asset env texts chain_id amt symbol paying side to message anonymous sign)
| op_transfer slate amt symbol from to memo sign :
    wallet_operation (transfer_asset_to_address env chain_id slate amt symbol from to memo sign)
| op_transfer_many symbol from amounts memo sign :
    wallet_operation (transfer_asset_to_many_address env chain_id symbol from amounts memo sign)
| op_register_account name data rate payer public sign :
    wallet_operation (register_account env chain_id name data rate payer public sign)
| op_create_asset symbol name description data issuer supply precision market sign :
    wallet_operation (create_asset env chain_id symbol name description data issuer supply precision market sign)
| op_issue_asset amt symbol to memo sign : wallet_operation (issue_asset env texts chain_id amt symbol to memo sign)
| op_add_collateral cover name quantity sign :
    wallet_operation (add_collateral env texts chain_id cover name quantity sign).

(** C13: Every transaction one of these functions returns, signed or not, brings in
    (withdrawn from balances or a delegate's pay, or issued) exactly what it pays out
    (deposited, burned, put up as collateral) and the fee of its record, of every
    asset, modulo 2^64: nothing is lost and no fee is left out.  The fees are amounts of
    the base asset, and [to_ugly_asset] gives an amount of the asset whose symbol it is
    passed. *)
Theorem wallet_transactions_pay_their_fee m w w' r :
  wallet_operation m -> with_new_transaction m w = (w', Ok r) ->
  forall a, ops_yield env (tx_operations (td_trx r)) a ≡64 at_asset (asset_id (td_fee r)) (amount (td_fee r)) a.
Proof.
  intros Hop Hr a. unfold with_new_transaction in Hr.
  destruct (m (mk_building new_builder w)) as [s res] eqn:Hm. simplify_eq.
  cut (due nothing m); [intros Hd; rewrite (Hd _ _ _ Hm a); apply eq_eqm64; unfold nothing, fee_of; cbn; lia|].
  destruct Hop; eauto using due_publish_feeds, due_publish_price, due_publish_slate, due_publish_version,
    due_collect_vested, due_withdraw_delegate_pay, due_burn_asset, due_transfer, due_transfer_many,
    due_register_account, due_create_asset, due_issue_asset, due_add_collateral.
Qed.
End facts.

Section overdraw.
Context `{Crypto} `{WalletCrypto} `{FcNum} `{FcReal} `{BuilderCrypto}.
Context (env : wallet_env).

(** A run that succeeds with the withdrawals [ws] does so from any other state. *)
Definition repeatable {A} (ws : list (balance_record * Z)) (m : eff building A) (x : A) : Prop :=
  forall t, exists t', m t = (t', Ok x) /\ withdrew ws t t' /\ bg_wallet t' = bg_wallet t.

Lemma repeatable_bind {A B} ws1 ws2 (m : eff building A) (k : A -> eff building B) x y :
  repeatable ws1 m x -> repeatable ws2 (k x) y -> repeatable (ws1 ++ ws2) (m ≫= k) y.
Proof.
  intros Hm Hk t. destruct (Hm t) as (t1 & H1' & (Ho1 & Ht1 & Hf1) & Hw1).
  destruct (Hk t1) as (t2 & H2' & (Ho2 & Ht2 & Hf2) & Hw2). exists t2. split_and!.
  - apply eff_bind_Ok. eauto.
  - unfold withdrew. rewrite Ho2, Ho1, Ht2, Ht1, Hf2, Hf1, map_app, app_assoc. done.
  - congruence.
Qed.
Lemma repeatable_lift {A} (r : result A) x : r = Ok x -> repeatable [] (lift r) x.
Proof. intros -> t. exists t. split_and!; [done|apply withdrew_nil|done]. Qed.
Lemma repeatable_ret {A} (x : A) : repeatable [] (mret x) x.
Proof. intros t. exists t. split_and!; [done|apply withdrew_nil|done]. Qed.

Lemma repeatable_one r v o :
  0 < v -> balance_owner r = Ok o ->
  repeatable [(r, v)] (_ ← try_trx (tx_withdraw (balance_id r) v); owner ← lift (balance_owner r);
                       require_signature owner) tt.
Proof.
  intros Hv Ho t. eexists. unfold try_trx, tx_withdraw, mbind, eff_mbind, reads, lift.
  rewrite (proj2 (Z.gtb_lt v 0) Hv). cbn. rewrite Ho. cbn. done.
Qed.

(** The withdrawals a run of [withdraw_records] makes do not depend on the
    transaction. *)
Lemma withdraw_records_repeat l rem s s' paid :
  withdraw_records env l rem s = (s', Ok paid) ->
  exists ws, repeatable ws (withdraw_records env l rem) paid.
Proof.
  revert rem s. induction l as [|r l IH]; intros rem s Hr; cbn [withdraw_records] in *.
  { apply mret_Ok in Hr as [-> ->]. exists []. apply repeatable_ret. }
  apply eff_bind_Ok in Hr as (s1 & b & Hb & Hr). apply lift_Ok in Hb as [-> Hb].
  destruct ((amount b <=? 0) || negb (asset_id b =? asset_id rem)) eqn:Hskip.
  { destruct (IH _ _ Hr) as (ws & Hws). exists ([] ++ ws).
    apply (repeatable_bind [] ws _ _ b); [by apply repeatable_lift|]. by rewrite Hskip. }
  assert (Hone : forall v {A} (k : eff building A) s s' x,
    (_ ← try_trx (tx_withdraw (balance_id r) v); owner ← lift (balance_owner r); _ ← require_signature owner; k) s
      = (s', Ok x) ->
    (forall s1, k s1 = (s', Ok x) -> exists ws, repeatable ws k x) ->
    exists ws, repeatable ws (_ ← try_trx (tx_withdraw (balance_id r) v); owner ← lift (balance_owner r);
                              _ ← require_signature owner; k) x).
  { intros v A k t t' x Hrun Hk. pose proof Hrun as Hrun'. apply withdraw_one in Hrun as (Hv & t1 & _ & Hkr).
    destruct (Hk _ Hkr) as (ws & Hws). exists ((r, v) :: ws). intros u.
    apply eff_bind_Ok in Hrun' as (? & [] & _ & Hrun'). apply eff_bind_Ok in Hrun' as (? & o & Ho & _).
    apply lift_Ok in Ho as [_ Ho]. destruct (repeatable_one r v o Hv Ho u) as (u1 & Hu & Hw & Hsame).
    destruct (Hws u1) as (u2 & Hu2 & Hw2 & Hsame2). exists u2. split_and!; [|by eapply withdrew_cons|congruence].
    unfold mbind, eff_mbind in *. destruct (try_trx _ u) as [? [[]|]]; [|done]. unfold lift in *. rewrite Ho in *.
    unfold require_signature, on_builder, update in *. simplify_eq. done. }
  destruct (amount rem >? amount b) eqn:Hgt.
  - apply Hone in Hr as (ws & Hws).
    + exists ([] ++ ws). apply (repeatable_bind [] ws _ _ b); [by apply repeatable_lift|]. by rewrite Hskip, Hgt.
    + intros s2 Hk. apply eff_bind_Ok in Hk as (s3 & rem' & Hrem & Hk). apply lift_Ok in Hrem as [-> Hrem].
      destruct (IH _ _ Hk) as (ws & Hws). exists ([] ++ ws).
      apply (repeatable_bind [] ws _ _ rem'); [by apply repeatable_lift|done].
  - apply Hone in Hr as (ws & Hws).
    + exists ([] ++ ws). apply (repeatable_bind [] ws _ _ b); [by apply repeatable_lift|]. by rewrite Hskip, Hgt.
    + intros s2 Hk. apply mret_Ok in Hk as [_ <-]. exists []. apply repeatable_ret.
Qed.

(** Withdrawing for an account does not look at what the transaction already
    withdraws: repeated, as [transfer_asset_to_many_address] does for each address,
    it takes the same amounts from the same balances again. *)
Theorem withdrawal_repeats amt name s s1 :
  withdraw_to_transaction env amt name s = (s1, Ok tt) ->
  exists ws s2, withdrew ws s s1 /\ withdraw_to_transaction env amt name s1 = (s2, Ok tt) /\ withdrew ws s1 s2.
Proof.
  intros Hr. unfold withdraw_to_transaction, wallet_reads in *.
  apply eff_bind_Ok in Hr as (s2 & [] & He & Hr). apply ensure_Ok in He as [-> He].
  apply eff_bind_Ok in Hr as (s3 & m & Hm & Hr). apply eff_reads_Ok in Hm as [-> Hm].
  apply eff_bind_Ok in Hr as (s4 & l & Hl & Hr). apply lift_Ok in Hl as [-> Hl].
  apply eff_bind_Ok in Hr as (s5 & paid & Hp & Hr). destruct paid; [|done]. apply mret_Ok in Hr as [-> _].
  destruct (withdraw_records_repeat _ _ _ _ _ Hp) as (ws & Hws).
  destruct (Hws s) as (t & Ht & Hw & Hsame). rewrite Hp in Ht. simplify_eq.
  destruct (Hws t) as (t2 & Ht2 & Hw2 & _). exists ws, t2. split_and!; [done| |done].
  unfold mbind, eff_mbind, reads, ensure, lift. rewrite He. cbn [fc_assert negb throw_if]. rewrite Hsame, Hm, Hl, Ht2.
  done.
Qed.
End overdraw.
