(* ===== verification/WalletWitnesses.v ===== *)
(** * WalletWitnesses: a wallet at work

    The wallet of Alice ([WalletReopen.Sample]) on a chain where she has 1,000,000
    of the base asset and 9,000 USD and that knows the account of Bob, for the
    theorems of BuilderFacts.v, WalletAccountFacts.v and WalletTrxFacts.v. *)
From S2P Require Import Prelude Config Fc Asset Records ChainInterface PendingState ChainDatabase.
From S2P Require Import MarketOps OrderBook Eff WalletDb WalletFacts WalletSafety WalletReopen.
From S2P Require Import Builder BuilderFacts WalletAccounts WalletAccountFacts Doubles WalletTrx.
From S2P Require Import WalletTrxFacts.

(** ** Building transactions *)

#[local] Open Scope Z_scope.

#[local] Existing Instance Sample.sample_crypto.
#[local] Existing Instance Sample.sample_wallet_crypto.
#[local] Existing Instance ref_num.
#[local] Existing Instance ref_real.
#[local] Instance sample_builder_crypto : BuilderCrypto := {|
  encrypt_memo_data one_time to from _ _ := (one_time + to, from);
  sign_memo key _ := key;
  sign_digest key digest := key + digest
|}.

Definition now : Z := 1420000000.
Definition alice_balance (asset_id amt : Z) : balance_record :=
  mk_balance (mk_condition asset_id 0 (wd_signature 10031 None)) amt None None now now.

Definition alice_chain : chain_database :=
  set_db_balances (list_to_map (map (fun r => (balance_id r, r)) [alice_balance 0 1000000; alice_balance 22 9000]))
    (empty_db 10 now 1).

Definition env : wallet_env :=
  mk_env (db_view alice_chain) (db_view alice_chain) [alice_balance 0 1000000; alice_balance 22 9000]
    (fun _ => None) [] now (Some 9) (fun _ => None) (fun _ => "key"%string) (fun _ => "asset"%string)
    (fun _ => "price"%string) (fun _ => "order"%string).

Definition wallet : wallet_db := (set_property transaction_expiration_sec (v_int 3600) Sample.with_alice).1.
Definition alice : account_data :=
  match lookup_account_name "alice" wallet with Ok (Some r) => wr_data r | _ => null_account_data end.
Definition start : building := mk_building new_builder wallet.

Lemma keyed : balances_keyed env.
Proof.
  intros id r Hr. cbn in Hr. revert id r Hr.
  cut (map_Forall (fun id r => balance_id r = id) (db_balances alice_chain)).
  { intros Hm id r Hr. by apply (Hm id). }
  apply (bool_decide_unpack _). by vm_compute.
Qed.

(** Alice sends 10,000 and offers 20,000 for sale. *)
Definition usd_price : price := mk_price (2 * 10^18) 0 22.
Definition sent : building := (deposit_asset_to_address env (mk_slate []) alice 777 (mk_asset 10000 0) "rent" start).1.
Definition ordered : building := (submit_ask env alice (mk_asset 20000 0) usd_price sent).1.
Definition done_state : building := (finalize env (mk_slate []) true ordered).1.

(** The transaction withdraws 80,000: the fee is 50,000. *)
Lemma built :
  (map (fun a => trx_yield env done_state a) [0; 22], td_fee (tb_record (bg_builder done_state)),
   length (tx_operations (tb_trx (bg_builder done_state))))
  = ([50000; 0], mk_asset 50000 0, 3%nat).
Proof. vm_compute. reflexivity. Qed.

Lemma finalize_books_witness :
  finalize env (mk_slate []) true ordered = (done_state, Ok tt) /\
  trx_yield env done_state 0 = 50000 /\
  forall a, trx_yield env done_state a
    ≡64 at_asset (asset_id (td_fee (tb_record (bg_builder done_state))))
          (amount (td_fee (tb_record (bg_builder done_state)))) a.
Proof.
  split; [by vm_compute|].
  assert (Hb : forall a, trx_yield env done_state a
      ≡64 at_asset (asset_id (td_fee (tb_record (bg_builder done_state))))
            (amount (td_fee (tb_record (bg_builder done_state)))) a /\
      (in_int64 (trx_yield env done_state a) -> in_int64 (amount (td_fee (tb_record (bg_builder done_state)))) ->
       trx_yield env done_state a = at_asset (asset_id (td_fee (tb_record (bg_builder done_state))))
            (amount (td_fee (tb_record (bg_builder done_state)))) a)).
  2: { split; [|intros a; exact (proj1 (Hb a))]. etransitivity; [apply (proj2 (Hb 0))|];
         vm_compute; first [reflexivity|split; discriminate]. }
  apply (finalize_books env wallet (mk_slate []) ordered done_state).
  - exact keyed.
  - apply rtc_l with sent.
    { apply step_deposit_asset_to_address with (mk_slate []) alice 777 (mk_asset 10000 0) "rent"%string.
      by vm_compute. }
    apply rtc_once, (step_submit_ask env _ _ alice (mk_asset 20000 0) usd_price). by vm_compute.
  - by vm_compute.
Defined.

(** A deposit of 5,000 to a balance of two owners. *)
Definition shared : building :=
  (deposit_asset_to_multisig env (mk_slate []) (mk_asset 5000 0) "alice" 1 [888; 999] start).1.
Definition shared_done : building := (finalize env (mk_slate []) true shared).1.

Lemma multisig_charged_twice_witness :
  exists extra, get_transaction_fee env 0 wallet = Ok extra /\
    let fee := td_fee (tb_record (bg_builder shared_done)) in
    forall a, trx_yield env shared_done a
      ≡64 at_asset (asset_id fee) (amount fee) a + at_asset (asset_id extra) (amount extra) a.
Proof.
  apply (multisig_charged_twice env wallet (mk_slate []) (mk_slate []) (mk_asset 5000 0) "alice" 1 [888; 999]
           shared shared_done).
  - exact keyed.
  - by vm_compute.
  - by vm_compute.
Defined.

(** She can withdraw 7,000 of her USD. *)
Definition alice_records : gmap string (list balance_record) :=
  {[ "alice"%string := [alice_balance 0 1000000; alice_balance 22 9000] ]}.
Lemma withdraw_to_transaction_spec_witness :
  exists s' ws, withdraw_to_transaction env (mk_asset 7000 22) "alice" start = (s', Ok tt) /\
    withdrew ws start s' /\ total_of ws = 7000 /\ ws.*1 `sublist_of` [alice_balance 0 1000000; alice_balance 22 9000] /\
    Forall (fun rv => 0 < rv.2 <= spendable_of env 22 rv.1) ws.
Proof.
  apply (withdraw_to_transaction_spec env (mk_asset 7000 22) "alice" start alice_records
           [alice_balance 0 1000000; alice_balance 22 9000]).
  - done.
  - cbn. unfold INT64_MAX. lia.
  - by vm_compute.
  - by vm_compute.
  - repeat constructor; eexists; by vm_compute.
Defined.

(** ** Accounts and other transactions *)

#[local] Open Scope Z_scope.

#[local] Existing Instance Sample.sample_crypto.
#[local] Existing Instance Sample.sample_no_collision.
#[local] Existing Instance Sample.sample_wallet_crypto.
#[local] Existing Instance sample_builder_crypto.
#[local] Existing Instance ref_num.
#[local] Existing Instance ref_real.
#[local] Existing Instance x86_cast.

Definition base_asset : asset_record :=
  mk_asset_record 0 "BTS" "BitShares" EmptyString v_null 0 100000 now now 0 (10^15) 0 0 0 0 (mk_multisig 0 ∅) 0.
Definition wallet_chain : chain_database :=
  set_db_address_to_account {[ 4001 := 17 ]}
    (set_db_account_index {[ "bob"%string := 17 ]} (set_db_accounts {[ 17 := Sample.contact ]}
      (set_db_symbol_index {[ "BTS"%string := 0 ]} (set_db_assets {[ 0 := base_asset ]} alice_chain)))).
Definition wallet_here : wallet_env :=
  mk_env (db_view wallet_chain) (db_view wallet_chain) [alice_balance 0 1000000; alice_balance 22 9000]
    (fun _ => None) [] now (Some 9) (fun _ => None) (fun _ => "key"%string) (fun _ => "asset"%string)
    (fun _ => "price"%string) (fun _ => "order"%string).
Definition texts : wallet_texts :=
  mk_texts (fun _ => "amount"%string) (fun _ => "id"%string) (fun _ => 1) (fun _ _ v => v) "0.9.0"
    (fun _ _ => Ok (mk_asset 5 0)).

Lemma wallet_here_names : chain_names wallet_here.
Proof.
  intros name r Hr. cbn in Hr. unfold db_get_account_record_by_name in Hr.
  apply bind_Some in Hr as (id & Hid & Hr). cbn in Hid, Hr. apply lookup_singleton_Some in Hid as [<- <-].
  unfold db_get_account_record in Hr. cbn in Hr. rewrite lookup_singleton_eq in Hr. by simplify_eq.
Qed.

Lemma wallet_here_keyed : balances_keyed wallet_here.
Proof. exact keyed. Qed.

Lemma wallet_here_fees : fees_ok wallet_here.
Proof.
  assert (Hfee : forall id w f, get_transaction_fee wallet_here id w = Ok f -> f = mk_asset 50000 0).
  { intros id w f Hf. unfold get_transaction_fee in Hf. apply bind_Ok in Hf as (_ & _ & Hf).
    destruct (Z.eqb_spec id 0) as [->|Hne]; [by simplify_eq/=|].
    apply bind_Ok in Hf as (r & Hr%require_Ok & Hf). cbn in Hr. unfold db_get_asset_record in Hr. cbn in Hr.
    apply lookup_singleton_Some in Hr as [<- _]. done. }
  split; [intros id w f Hf%Hfee|intros w f Hf%Hfee]; subst; cbn; [unfold in_int64, INT64_MIN, INT64_MAX; lia|done].
Qed.

Lemma wallet_here_ugly : ugly_assets_ok wallet_here texts.
Proof.
  intros q id r a Hr Ha. cbn in Hr. unfold db_get_asset_record in Hr. cbn in Hr.
  apply lookup_singleton_Some in Hr as [<- _]. cbn in Ha. by simplify_eq.
Qed.

Lemma wallet_ok_here : wallet_ok wallet.
Proof.
  unfold wallet. destruct (set_property transaction_expiration_sec (v_int 3600) Sample.with_alice) as [w r] eqn:Hr.
  apply (safe_run 9 _ _ _ _ _ (safe_set_property 9 (fun _ => True) transaction_expiration_sec (v_int 3600) ltac:(done)) I Hr),
    Sample.with_alice_ok.
Qed.

(** She approves of Bob, whom only the chain knows, and imports a key for an account
    of hers that she names. *)
Definition approved : wallet_db := (set_account_approval wallet_here "bob" 1 wallet).1.
Definition imported : wallet_db := (import_private_key wallet_here 777 (Some "carol"%string) true approved).1.


Lemma approval_stored_witness :
  exists r, account_at (name_to_account approved !! "bob"%string) approved = Some r /\ ad_approved (wr_data r) = 1 /\
    (is_open approved = true -> get_account_approval wallet_here "bob" approved = Ok 1).
Proof.
  apply (approval_stored wallet_here 9 wallet approved "bob" 1); [done|exact wallet_here_names|exact wallet_ok_here| |by vm_compute].
  intros r Hr. vm_compute in Hr. discriminate Hr.
Defined.

Lemma imported_key_usable_witness :
  1555 = public_key_of 777 /\
  exists r, wd_keys imported !! address_of_key 1555 = Some r /\ usable 9 (wr_data r).
Proof.
  apply (imported_key_usable wallet_here 9 777 (Some "carol"%string) true approved imported 1555); [done| |by vm_compute].
  destruct (set_account_approval wallet_here "bob" 1 wallet) as [w r] eqn:Hr. unfold approved. rewrite Hr.
  by destruct (safe_run 9 (fun _ => True) _ wallet w r
    (safe_change_contact wallet_here 9 eq_refl wallet_here_names _ 0 _ "bob") I Hr wallet_ok_here).
Defined.

(** Alice sends 0.25 of her 10 to one address. *)
Definition quarter : SpecFloat.spec_float := double_of_ratio 1 4.
Definition transfer : eff building transaction_data :=
  transfer_asset_to_address wallet_here 7 (mk_slate []) quarter "BTS" "alice" 777 "rent" true.
Definition transferred : transaction_data :=
  match (with_new_transaction transfer wallet).2 with Ok r => r | Err _ => null_transaction_data end.
Definition after_transfer : wallet_db := (with_new_transaction transfer wallet).1.

Lemma wallet_transactions_pay_their_fee_witness :
  with_new_transaction transfer wallet = (after_transfer, Ok transferred) /\
  forall a, ops_yield wallet_here (tx_operations (td_trx transferred)) a ≡64
            at_asset (asset_id (td_fee transferred)) (amount (td_fee transferred)) a.
Proof.
  assert (Hr : with_new_transaction transfer wallet = (after_transfer, Ok transferred)) by (by vm_compute).
  split; [exact Hr|].
  apply (wallet_transactions_pay_their_fee wallet_here texts 7 wallet_here_keyed wallet_here_fees wallet_here_ugly
           transfer wallet after_transfer transferred); [apply op_transfer|exact Hr].
Defined.

Lemma withdrawal_repeats_witness :
  let s1 := (withdraw_to_transaction wallet_here (mk_asset 600000 0) "alice" start).1 in
  exists ws s2, withdrew ws start s1 /\
    withdraw_to_transaction wallet_here (mk_asset 600000 0) "alice" s1 = (s2, Ok tt) /\ withdrew ws s1 s2.
Proof.
  apply (withdrawal_repeats wallet_here (mk_asset 600000 0) "alice" start). by vm_compute.
Defined.

(** Sending 6 of her 10 to each of two addresses makes a transaction that withdraws 6
    from the one balance twice, and the fee from it a third time. *)
Definition withdrawals (r : transaction_data) : list (Z * Z) :=
  omap (fun o => match o with Op_withdraw w => Some (wo_balance_id w, wo_amount w) | _ => None end)
    (tx_operations (td_trx r)).
Lemma many_addresses_overdraw :
  (r ← (with_new_transaction (transfer_asset_to_many_address wallet_here 7 "BTS" "alice"
     [(777, double_of_int 6); (888, double_of_int 6)] "rent" true) wallet).2; Ok (withdrawals r))
  = Ok [(0, 600000); (0, 600000); (0, 50000)].
Proof. vm_compute. reflexivity. Qed.
