(* ===== verification/Addresses.v ===== *)
(** * Addresses: the textual and binary forms of addresses and keys
      (address.cpp, pts_address.cpp, types.cpp, extended_address.cpp,
      utilities/key_conversion.cpp)

    An address is the 20 bytes of a ripemd160; what a user sees of it, of a public
    key or of a private key is base58 of its bytes with a checksum.  Here keys and
    hashes are their bytes (a byte is a Z from 0 to 255), and fc's base58, hashes
    and elliptic-curve keys are the classes [TextCrypto] and [CurveCrypto], each
    with a concrete instance ([ref_text], [ref_curve]). *)
From S2P Require Import Prelude Config Eff Records Framing.
From Stdlib Require Ascii String.

(** ** Bytes in memory *)

(** The [n] bytes at [v.data() + off], the bytes of memory that follow the vector
    ([after], from its end) where they are not the vector's: nothing says what these
    are, so the functions that read them take them as an argument. *)
Definition bytes_read (after : nat -> Z) (off n : nat) (v : list Z) : list Z :=
  (fun i => default (after (i - length v)%nat) (v !! i)) <$> seq off n.

(** [memcpy( dst, src, n )] at the beginning of [dst], where both have the bytes. *)
Definition memcpy (n : nat) (src dst : list Z) : list Z := take n src ++ drop n dst.

(** [_hash[0]]: the first word of a hash. *)
Definition first_word (h : list Z) : Z := le32_value (take 4 h).

(** [std::string::substr( pos )] and [substr( 0, n )]. *)
Definition substr_from (pos : nat) (s : string) : string :=
  String.substring pos (String.length s - pos) s.
Definition substr_to (n : nat) (s : string) : string := String.substring 0 n s.

(** [try { b = m; } catch( ... ) {}] with [b] false before. *)
Definition true_if_returned (m : result bool) : result bool :=
  match m with
  | Err e => if uncaught e then Err e else Ok false
  | Ok b => Ok b
  end.

(** ** fc *)

(** base58 and the hashes.  Decoding throws at a character that is not of the
    alphabet. *)
Class TextCrypto := {
  to_base58 : list Z -> string;
  from_base58 : string -> result (list Z);
  ripemd160 : list Z -> list Z;
  sha256 : list Z -> list Z;
  sha512 : list Z -> list Z;

  from_to_base58 v : Forall byte_ok v -> from_base58 (to_base58 v) = Ok v;
  to_base58_nonempty v : Forall byte_ok v -> v <> [] -> to_base58 v <> String.EmptyString;
  ripemd160_length l : length (ripemd160 l) = 20%nat;
  sha256_length l : length (sha256 l) = 32%nat;
  sha512_length l : length (sha512 l) = 64%nat;
  ripemd160_bytes l : Forall byte_ok (ripemd160 l);
  sha256_bytes l : Forall byte_ok (sha256 l);
  sha512_bytes l : Forall byte_ok (sha512 l)
}.

(** Keys of the curve.  A private key is its secret of 32 bytes;
    [private_key_of_bytes] is [variant( bytes ).as<private_key>()].  A public key
    is compressed to 33 bytes and has an uncompressed form of 65; [key_add] is
    [public_key::add].  A public key is packed as its 33 bytes, an integer as its
    bytes in memory, a hash as its bytes; [pack_binary_key], [pack_condition] and the like are
    [fc::raw::pack], whose output [fc::raw::unpack] reads back. *)
Class CurveCrypto := {
  public_key : Type;
  private_key : Type;
  serialize : public_key -> list Z;
  serialize_ecc_point : public_key -> list Z;
  get_secret : private_key -> list Z;
  private_key_of_bytes : list Z -> result private_key;
  regenerate : list Z -> private_key;
  get_public_key : private_key -> public_key;
  generate_from_seed : list Z -> list Z -> private_key;
  key_add : public_key -> list Z -> result public_key;
  public_key_valid : public_key -> bool;
  pack_condition : withdraw_condition -> list Z;
  pack_binary_key : list Z * Z -> list Z;
  unpack_binary_key : list Z -> result (list Z * Z);
  pack_extended : public_key * list Z -> list Z;
  unpack_extended : list Z -> result ((public_key * list Z) * list Z);

  serialize_length k : length (serialize k) = 33%nat;
  serialize_bytes k : Forall byte_ok (serialize k);
  get_secret_length k : length (get_secret k) = 32%nat;
  get_secret_bytes k : Forall byte_ok (get_secret k);
  private_key_of_secret k : private_key_of_bytes (get_secret k) = Ok k;
  regenerate_secret k : regenerate (get_secret k) = k;
  (** The offset may be added to the secret or to the point. *)
  generate_from_seed_public secret offset :
    key_add (get_public_key (regenerate secret)) offset
    = Ok (get_public_key (generate_from_seed secret offset));
  unpack_pack_binary_key k : length k.1 = 33%nat -> 0 <= k.2 < 2^32 ->
    unpack_binary_key (pack_binary_key k) = Ok k;
  pack_binary_key_bytes k : Forall byte_ok k.1 -> Forall byte_ok (pack_binary_key k);
  pack_binary_key_nonempty k : pack_binary_key k <> [];
  pack_extended_length k : length k.2 = 32%nat -> length (pack_extended k) = 65%nat;
  pack_extended_bytes k : Forall byte_ok k.2 -> Forall byte_ok (pack_extended k);
  unpack_pack_extended k rest : length k.2 = 32%nat ->
    unpack_extended (pack_extended k ++ rest) = Ok (k, rest)
}.

(** ** address.cpp *)

Section address.
Context `{TextCrypto}.

(** The checks both [is_valid_v1] and [is_valid] make, for their own prefix: the
    bytes that follow it are read, then the checksum at offset 20. *)
Definition prefixed_bytes (prefix base58str : string) : result (list Z) :=
  let prefix_len := String.length prefix in
  _ ← fc_assert (prefix_len <? String.length base58str)%nat;
  _ ← fc_assert (String.eqb (substr_to prefix_len base58str) prefix);
  from_base58 (substr_from prefix_len base58str).

Definition is_valid_with (prefix base58str : string) (after : nat -> Z) : result bool :=
  v ← prefixed_bytes prefix base58str;
  _ ← fc_assert (4 <? length v)%nat;
  _ ← fc_assert (length v <=? 20 + 4)%nat;
  let checksum := ripemd160 (take (length v - 4) v) in
  let check := bytes_read after 20 4 v in
  _ ← fc_assert (bool_decide (check = take 4 checksum));
  Ok true.

Definition address_is_valid_v1 (base58str : string) (after : nat -> Z) : result bool :=
  is_valid_with "BTSX" base58str after.

(** [after k] is what follows the [k]th vector the reader decodes: [is_valid_v1]'s and
    [is_valid]'s own, then [is_valid_v1]'s again and the constructor's. *)
Definition address_is_valid (base58str : string) (after : nat -> nat -> Z) : result bool :=
  match address_is_valid_v1 base58str (after 0%nat) with
  | Ok b => Ok b
  | Err e =>
      if uncaught e then Err e else is_valid_with BTS_ADDRESS_PREFIX base58str (after 1%nat)
  end.

(** [ripemd160()] *)
Definition null_hash : list Z := repeat 0 20.

(** [std::min<size_t>( v.size()-4, sizeof( addr ) )]: the difference wraps. *)
Definition bytes_to_copy (size : nat) : nat :=
  if (size <? 4)%nat then 20 else Nat.min (size - 4) 20.

Definition address_of_string (base58str : string) (after : nat -> nat -> Z) : result (list Z) :=
  b ← address_is_valid base58str after;
  _ ← fc_assert b;
  v1 ← true_if_returned (address_is_valid_v1 base58str (after 2%nat));
  let prefix := if (v1 : bool) then "BTSX"%string else BTS_ADDRESS_PREFIX in
  v ← from_base58 (substr_from (String.length prefix) base58str);
  let n := bytes_to_copy (length v) in
  Ok (memcpy n (bytes_read (after 3%nat) 0 n v) null_hash).

Definition address_to_string (addr : list Z) : string :=
  (BTS_ADDRESS_PREFIX +:+ to_base58 (addr ++ take 4 (ripemd160 addr))).

(** The addresses of a condition, of a key (by its object, its data or its
    [public_key_type]) and of a [pts_address]. *)
Definition address_of_data (key_data : list Z) : list Z := ripemd160 (sha512 key_data).
Definition address_of_pts_address (ptsaddr : list Z) : list Z := ripemd160 ptsaddr.

Context `{CurveCrypto}.

Definition address_of_condition (c : withdraw_condition) : list Z :=
  ripemd160 (sha512 (pack_condition c)).
Definition address_of_public_key (pub : public_key) : list Z := ripemd160 (sha512 (serialize pub)).

(** ** pts_address.cpp *)

Definition pts_checksum (addr : list Z) : list Z := take 4 (sha256 (sha256 (take 21 addr))).

Definition pts_is_valid (addr : list Z) : bool :=
  bool_decide (take 4 (drop 21 addr) = pts_checksum addr).

(** [fresh]: what the array of 25 bytes holds before it is assigned. *)
Definition pts_of_string (fresh : list Z) (base58str : string) : result (list Z) :=
  v ← from_base58 base58str;
  let addr := memcpy (Nat.min (length v) 25) v fresh in
  if pts_is_valid addr then Ok addr else Err invalid_pts_address.

Definition pts_of_public_key (pub : public_key) (compressed : bool) (version : Z) : list Z :=
  let sha2 := if compressed then sha256 (serialize pub) else sha256 (serialize_ecc_point pub) in
  let rep := ripemd160 sha2 in
  let addr := version :: rep in
  addr ++ take 4 (sha256 (sha256 addr)).

Definition pts_to_string (addr : list Z) : string := to_base58 addr.

(** ** key_conversion.cpp *)

Definition key_to_wif (key : private_key) : string :=
  let data := 0x80 :: get_secret key in
  to_base58 (data ++ take 4 (sha256 (sha256 data))).

Definition wif_to_key (wif_key : string) : result (option private_key) :=
  wif_bytes ← from_base58 wif_key;
  if (length wif_bytes <? 5)%nat then Ok None
  else
    let data := take (length wif_bytes - 4) wif_bytes in
    key ← private_key_of_bytes (drop 1 data);
    let check := sha256 data in
    let check2 := sha256 check in
    let stored := drop (length wif_bytes - 4) wif_bytes in
    if bool_decide (take 4 check = stored) || bool_decide (take 4 check2 = stored)
    then Ok (Some key) else Ok None.

(** ** types.cpp: public_key_type *)

Definition key_checksum (key_data : list Z) : Z := first_word (ripemd160 key_data).

Definition unpack_checked (prefix base58str : string) : result (list Z) :=
  bin ← prefixed_bytes prefix base58str;
  bin_key ← unpack_binary_key bin;
  _ ← fc_assert (key_checksum bin_key.1 =? bin_key.2);
  Ok bin_key.1.

Definition key_is_valid_v1 (base58str : string) : result bool :=
  _ ← unpack_checked "BTSX" base58str;
  Ok true.

Definition public_key_of_string (base58str : string) : result (list Z) :=
  v1 ← true_if_returned (key_is_valid_v1 base58str);
  unpack_checked (if (v1 : bool) then "BTSX"%string else BTS_ADDRESS_PREFIX) base58str.

Definition public_key_to_string (key_data : list Z) : string :=
  (BTS_ADDRESS_PREFIX +:+ to_base58 (pack_binary_key (key_data, key_checksum key_data))).

(** ** extended_address.cpp *)

Record extended_public_key := mk_extended_public { pub_key : public_key; pub_chain_code : list Z }.
Record extended_private_key := mk_extended_private { priv_key : list Z; chain_code : list Z }.
Inductive derivation_type := public_derivation | private_derivation.

(** The two halves of the hash: the offset of the key and the new chain code. *)
Definition ikey_left (ikey : list Z) : list Z := take 32 ikey.
Definition ikey_right (ikey : list Z) : list Z := take 32 (drop 32 ikey).

(** [child]: the index is packed, 4 bytes of an integer or 32 of a hash. *)
Definition public_child (child_idx : list Z) (k : extended_public_key) : result extended_public_key :=
  let ikey := sha512 (serialize (pub_key k) ++ child_idx ++ pub_chain_code k) in
  child_pub ← key_add (pub_key k) (ikey_left ikey);
  Ok (mk_extended_public child_pub (ikey_right ikey)).

Definition extended_get_public_key (k : extended_private_key) : public_key :=
  get_public_key (regenerate (priv_key k)).

Definition private_child (child_idx : list Z) (derivation : derivation_type)
    (k : extended_private_key) : extended_private_key :=
  let packed :=
    match derivation with
    | public_derivation => serialize (extended_get_public_key k)
    | private_derivation => 0 :: priv_key k
    end in
  let ikey := sha512 (packed ++ child_idx ++ chain_code k) in
  mk_extended_private (get_secret (generate_from_seed (priv_key k) (ikey_left ikey))) (ikey_right ikey).

(** [child( uint32_t )] and [child( sha256 )]. *)
Definition public_child_number (c : Z) := public_child (le32 c).
Definition private_child_number (c : Z) := private_child (le32 c).

(** [extended_private_key( seed )]: the chain code is left as it is constructed. *)
Definition extended_of_seed (seed : list Z) : extended_private_key :=
  mk_extended_private (take 32 seed) (repeat 0 32).
Definition extended_of_private_key (key : private_key) : extended_private_key :=
  mk_extended_private (get_secret key) (repeat 0 32).

Definition to_extended_public_key (k : extended_private_key) : extended_public_key :=
  mk_extended_public (extended_get_public_key k) (chain_code k).
Definition to_private_key (k : extended_private_key) : private_key := regenerate (priv_key k).

(** [extended_address]: [size] is [sizeof( *this )], the size of the object and not
    of its packed form; [after] is what follows the packed bytes in memory. *)
Definition extended_pack (k : extended_public_key) : list Z :=
  pack_extended (pub_key k, pub_chain_code k).

Definition extended_checksum (size : nat) (data : list Z) (after : nat -> Z) : Z :=
  first_word (ripemd160 (bytes_read after 0 size data)).

Definition extended_to_string (size : nat) (k : extended_public_key) (after : nat -> Z) : string :=
  let data := extended_pack k in
  BTS_ADDRESS_PREFIX +:+ to_base58 (data ++ le32 (extended_checksum size data after)).

Definition extended_of_string (size : nat) (base58str : string) (after : nat -> Z)
    : result extended_public_key :=
  data ← prefixed_bytes BTS_ADDRESS_PREFIX base58str;
  _ ← fc_assert (Nat.eqb (length data) (33 + 32 + 4));
  '((pub, code), rest) ← unpack_extended data;
  let checksum := le32_value (take 4 rest) in
  _ ← fc_assert (checksum =? extended_checksum size data after);
  Ok (mk_extended_public pub code).

Definition extended_is_valid (k : extended_public_key) : bool := public_key_valid (pub_key k).

End address.
