(* ===== verification/AddressFacts.v ===== *)
(** * AddressFacts: what a text says of an address or a key

    An accepted text of an address carries the address and its checksum; the texts
    the code writes are read back; the keys derived on both sides of an extended
    key agree; and what happens to the texts whose readers compare bytes beyond those
    they decoded. *)
From S2P Require Import Prelude Config Eff Records Framing FramingFacts Addresses.
From Stdlib Require String.
From Stdlib Require Import Ascii.

(** ** Strings *)

Lemma string_app_cons c p t : String.String c p +:+ t = String.String c (p +:+ t).
Proof. done. Qed.

Lemma substring_prefix p t : String.substring 0 (String.length p) (p +:+ t) = p.
Proof. induction p as [|c p IH]; [by destruct t|]. rewrite string_app_cons. cbn. by rewrite IH. Qed.

Lemma substring_all t : String.substring 0 (String.length t) t = t.
Proof. induction t as [|c t IH]; cbn; [done|by rewrite IH]. Qed.

Lemma substring_after p t n : String.substring (String.length p) n (p +:+ t) = String.substring 0 n t.
Proof. induction p as [|c p IH]; [done|]. rewrite string_app_cons. cbn. apply IH. Qed.

Lemma substring_split n s : (n <= String.length s)%nat ->
  String.substring 0 n s +:+ String.substring n (String.length s - n) s = s.
Proof.
  revert n. induction s as [|c s IH]; intros [|n] Hn; cbn in *; try lia; try done.
  - by rewrite substring_all.
  - rewrite string_app_cons. by rewrite IH by lia.
Qed.

Lemma string_length_app p t : String.length (p +:+ t) = (String.length p + String.length t)%nat.
Proof. induction p as [|c p IH]; [done|]. rewrite string_app_cons. cbn. by rewrite IH. Qed.

Lemma substr_from_app p t : substr_from (String.length p) (p +:+ t) = t.
Proof.
  unfold substr_from. rewrite string_length_app, substring_after.
  replace (_ + _ - _)%nat with (String.length t) by lia.
  apply substring_all.
Qed.

Lemma string_app_inj p t t' : p +:+ t = p +:+ t' -> t = t'.
Proof. intros Heq. apply (f_equal (substr_from (String.length p))) in Heq. by rewrite !substr_from_app in Heq. Qed.

(** The text begins like that of a first-version address. *)
Definition starts_X (t : string) : bool :=
  match t with String.String c _ => Ascii.eqb c "X"%char | _ => false end.

(** ** Bytes *)

Lemma le32_value_bound l : Forall byte_ok l -> 0 <= le32_value l < 256 ^ Z.of_nat (length l).
Proof.
  induction 1 as [|b l Hb _ IH]; cbn [le32_value foldr length]; [lia|].
  unfold le32_value in IH. rewrite Nat2Z.inj_succ, Z.pow_succ_r by lia. unfold byte_ok in Hb. nia.
Qed.

Lemma first_word_bound h : Forall byte_ok h -> (4 <= length h)%nat -> 0 <= first_word h < 2^32.
Proof.
  intros Hh Hl. unfold first_word.
  pose proof (le32_value_bound (take 4 h) (Forall_take _ _ _ Hh)) as Hb.
  rewrite length_take, Nat.min_l in Hb by done. exact Hb.
Qed.

Lemma le32_bytes z : 0 <= z < 2^32 -> Forall byte_ok (le32 z).
Proof. intros. unfold le32. repeat constructor; apply Z.mod_pos_bound; lia. Qed.

Lemma length_bytes_read after off n v : length (bytes_read after off n v) = n.
Proof. unfold bytes_read. by rewrite length_fmap, length_seq. Qed.

Lemma lookup_bytes_read after off n v i : (i < n)%nat ->
  bytes_read after off n v !! i = Some (default (after (off + i - length v)%nat) (v !! (off + i)%nat)).
Proof. intros Hi. unfold bytes_read. by rewrite list_lookup_fmap, lookup_seq_lt. Qed.

(** Inside the vector, its bytes are read. *)
Lemma bytes_read_inside after off n v : (off + n <= length v)%nat ->
  bytes_read after off n v = take n (drop off v).
Proof.
  intros Hl. apply list_eq. intros i. destruct (decide (i < n)%nat) as [Hi|Hi].
  - rewrite lookup_bytes_read, lookup_take_lt, lookup_drop by done.
    destruct (v !! (off + i)%nat) eqn:Hx; [done|]. apply lookup_ge_None in Hx. lia.
  - rewrite !lookup_ge_None_2; [done|rewrite length_take; lia|rewrite length_bytes_read; lia].
Qed.

(** Outside it, any bytes may be. *)
Lemma bytes_read_beyond off n v c :
  (forall i, (i < n)%nat -> (off + i < length v)%nat -> v !! (off + i)%nat = c !! i) ->
  length c = n -> Forall byte_ok c ->
  exists after, (forall i, byte_ok (after i)) /\ bytes_read after off n v = c.
Proof.
  intros Hin Hc Hb. exists (fun j => default 0 (c !! (j + length v - off)%nat)). split.
  - intros j. destruct (c !! _) eqn:Hx; cbn; [|unfold byte_ok; lia]. rewrite Forall_lookup in Hb. eauto.
  - apply list_eq_same_length with n; [done|by rewrite length_bytes_read|].
    intros i x y Hi. rewrite lookup_bytes_read by done. intros [= <-] Hy.
    destruct (decide (off + i < length v)%nat) as [Hlt|Hge].
    + by rewrite Hin, Hy.
    + rewrite (lookup_ge_None_2 v) by lia. cbn.
      replace (off + i - length v + length v - off)%nat with i by lia. by rewrite Hy.
Qed.

Section facts.
Context `{TextCrypto}.

(** ** Prefixed texts *)

Lemma prefixed_app p t : t <> String.EmptyString -> prefixed_bytes p (p +:+ t) = from_base58 t.
Proof.
  intros Ht. unfold prefixed_bytes, substr_to.
  rewrite substring_prefix, string_length_app, String.eqb_refl, substr_from_app.
  replace (_ <? _)%nat with true; [done|].
  symmetry. apply Nat.ltb_lt. destruct t; [done|]. cbn. lia.
Qed.

Lemma prefixed_inv p s v : prefixed_bytes p s = Ok v ->
  exists t, s = p +:+ t /\ t <> String.EmptyString /\ from_base58 t = Ok v.
Proof.
  unfold prefixed_bytes. intros. inv_ok.
  match goal with h : (_ <? _)%nat = true |- _ => apply Nat.ltb_lt in h; rename h into Hlen end.
  match goal with h : String.eqb _ _ = true |- _ => apply String.eqb_eq in h; rename h into Hp end.
  assert (Hs : s = p +:+ substr_from (String.length p) s).
  { rewrite <- (substring_split (String.length p) s) at 1 by lia. unfold substr_to in Hp. by rewrite Hp. }
  eexists; split_and!; [exact Hs| |eassumption].
  intros Hn. rewrite Hn in Hs. apply (f_equal String.length) in Hs. rewrite string_length_app in Hs. cbn in Hs. lia.
Qed.

Lemma prefixed_v1_other t : starts_X t = false ->
  prefixed_bytes "BTSX" (BTS_ADDRESS_PREFIX +:+ t) = Err assert_exception.
Proof.
  intros Ht. unfold prefixed_bytes, substr_to. destruct t as [|c t]; [done|].
  assert (String.substring 0 4 (BTS_ADDRESS_PREFIX +:+ String.String c t) = "BTS" +:+ String.String c "") as Hs.
  { cbn. by destruct t. }
  change (String.length "BTSX") with 4%nat. rewrite Hs.
  assert (String.eqb ("BTS" +:+ String.String c "") "BTSX" = false) as ->.
  { apply String.eqb_neq. intros [= ->]. done. }
  by destruct (4 <? _)%nat.
Qed.

Lemma is_valid_v1_other t after : starts_X t = false ->
  address_is_valid_v1 (BTS_ADDRESS_PREFIX +:+ t) after = Err assert_exception.
Proof. intros Ht. unfold address_is_valid_v1, is_valid_with. by rewrite prefixed_v1_other. Qed.

(** ** Addresses *)

(** The checksum the last bytes of [v] are compared with. *)
Definition checksum_of (v : list Z) : list Z := take 4 (ripemd160 (take (length v - 4) v)).

Lemma length_checksum v : length (checksum_of v) = 4%nat.
Proof. unfold checksum_of. by rewrite length_take, ripemd160_length. Qed.
Lemma checksum_of_bytes v : Forall byte_ok (checksum_of v).
Proof. apply Forall_take, ripemd160_bytes. Qed.

(** What the checks decide, for the bytes of a text. *)
Lemma is_valid_with_run p t v after :
  t <> String.EmptyString -> from_base58 t = Ok v ->
  is_valid_with p (p +:+ t) after
  = if (4 <? length v)%nat && (length v <=? 24)%nat && bool_decide (bytes_read after 20 4 v = checksum_of v)
    then Ok true else Err assert_exception.
Proof.
  intros Hne Ht. unfold is_valid_with. rewrite prefixed_app, Ht by done. cbn [mbind result_bind].
  change (20 + 4)%nat with 24%nat. fold (checksum_of v).
  destruct (4 <? length v)%nat, (length v <=? 24)%nat; try done.
  cbn [fc_assert negb throw_if mbind result_bind andb]. by case_bool_decide.
Qed.

(** An address and its checksum. *)
Definition with_checksum (a : list Z) : list Z := a ++ take 4 (ripemd160 a).

Lemma length_with_checksum a : length a = 20%nat -> length (with_checksum a) = 24%nat.
Proof. intros Ha. unfold with_checksum. by rewrite length_app, length_take, ripemd160_length, Ha. Qed.

Lemma is_valid_with_text p t a after : t <> String.EmptyString -> length a = 20%nat ->
  from_base58 t = Ok (with_checksum a) -> is_valid_with p (p +:+ t) after = Ok true.
Proof.
  intros Hne Ha Ht. rewrite (is_valid_with_run p t _ after Hne Ht).
  pose proof (length_with_checksum a Ha) as Hl.
  assert (Hc : bytes_read after 20 4 (with_checksum a) = checksum_of (with_checksum a)).
  { rewrite bytes_read_inside by lia. unfold checksum_of. rewrite Hl. unfold with_checksum.
    rewrite drop_app_length' by done. rewrite (take_app_length' a) by done.
    by rewrite firstn_all2 by (rewrite length_take, ripemd160_length; lia). }
  rewrite Hl, Hc, bool_decide_eq_true_2 by done. done.
Qed.

Lemma is_valid_with_inv p s after b : is_valid_with p s after = Ok b ->
  b = true /\ exists t v, s = p +:+ t /\ t <> String.EmptyString /\ from_base58 t = Ok v /\
    ((4 < length v < 24)%nat \/ exists a, length a = 20%nat /\ v = with_checksum a).
Proof.
  intros Hr. assert (Hp : exists v, prefixed_bytes p s = Ok v).
  { unfold is_valid_with in Hr. apply bind_Ok in Hr as (v & Hv & _). eauto. }
  destruct Hp as (v & Hp). apply prefixed_inv in Hp as (t & -> & Hne & Ht).
  rewrite (is_valid_with_run p t v after Hne Ht) in Hr.
  destruct (Nat.ltb_spec 4 (length v)) as [H4|], (Nat.leb_spec (length v) 24) as [H24|]; try done.
  case_bool_decide as Hc; [|done]. injection Hr as <-. split; [done|]. exists t, v. split_and!; try done.
  destruct (decide (length v = 24)%nat) as [Hl|]; [|left; lia]. right. exists (take 20 v).
  split; [rewrite length_take; lia|]. rewrite bytes_read_inside in Hc by lia.
  unfold with_checksum. unfold checksum_of in Hc. rewrite Hl in Hc. cbn [Nat.sub] in Hc. rewrite <- Hc.
  rewrite (firstn_all2 (n := 4)) by (rewrite length_drop; lia). symmetry. apply take_drop.
Qed.

Lemma memcpy_all n src dst : length src = n -> length dst = n -> memcpy n src dst = src.
Proof. intros <- Hd. unfold memcpy. by rewrite take_ge, drop_ge, app_nil_r by lia. Qed.

(** The bytes the constructor copies. *)
Definition copied (v : list Z) (after : nat -> Z) : list Z :=
  let n := bytes_to_copy (length v) in memcpy n (bytes_read after 0 n v) null_hash.

Lemma length_copied v after : length (copied v after) = 20%nat.
Proof.
  unfold copied, memcpy, null_hash. rewrite length_app, length_take, length_bytes_read, length_drop, repeat_length.
  assert (bytes_to_copy (length v) <= 20)%nat; [|lia]. unfold bytes_to_copy. case_match; lia.
Qed.

Lemma copied_with_checksum a after : length a = 20%nat -> copied (with_checksum a) after = a.
Proof.
  intros Ha. pose proof (length_with_checksum a Ha) as Hl. unfold copied. rewrite Hl.
  change (bytes_to_copy 24) with 20%nat. rewrite bytes_read_inside by lia. rewrite drop_0.
  unfold with_checksum. rewrite take_app_length' by done. by apply memcpy_all.
Qed.

(** A shorter vector, padded with zeros. *)
Lemma copied_short v after : (4 <= length v <= 24)%nat ->
  copied v after = take (length v - 4) v ++ repeat 0 (24 - length v).
Proof.
  intros Hl. assert (Hn : bytes_to_copy (length v) = (length v - 4)%nat).
  { unfold bytes_to_copy. destruct (Nat.ltb_spec (length v) 4); lia. }
  unfold copied. rewrite Hn, bytes_read_inside, drop_0 by lia. unfold memcpy, null_hash.
  rewrite firstn_all2 by (rewrite length_take; lia). f_equal.
  replace 20%nat with ((length v - 4) + (24 - length v))%nat at 1 by lia.
  rewrite repeat_app, drop_app_length'; [done|by rewrite repeat_length].
Qed.

(** Reading [prefix] and a text: whether [is_valid_v1] accepted it the second time
    decides what is decoded. *)
Lemma address_of_string_run s after b v1 p t :
  address_is_valid s after = Ok b -> b = true -> true_if_returned (address_is_valid_v1 s (after 2%nat)) = Ok v1 ->
  p = (if (v1 : bool) then "BTSX"%string else BTS_ADDRESS_PREFIX) -> s = p +:+ t ->
  address_of_string s after = v ← from_base58 t; Ok (copied v (after 3%nat)).
Proof.
  intros Hb -> Hv1 Hp Hs. unfold address_of_string. rewrite Hb. cbn [fc_assert negb throw_if mbind result_bind].
  rewrite Hv1. cbn [mbind result_bind]. rewrite <- Hp, Hs, substr_from_app. done.
Qed.

(** C20: whatever the memory holds, a text that is read as an address gives 20 bytes,
    and these are what the text encodes: BTS or BTSX, then base58 of the address
    followed by its checksum.  The one exception is a text that decodes, after one of
    the two prefixes, to 5 to 23 bytes, whose checksum is read beyond them. *)
Theorem addresses_typed s after a :
  address_of_string s after = Ok a ->
  length a = 20%nat /\
  exists prefix t v, (prefix = BTS_ADDRESS_PREFIX \/ prefix = "BTSX"%string) /\ s = prefix +:+ t /\
    from_base58 t = Ok v /\ (v = a ++ take 4 (ripemd160 a) \/ (4 < length v < 24)%nat).
Proof.
  intros Hs. assert (Hr := Hs). unfold address_of_string in Hr.
  apply bind_Ok in Hr as (b & Hb & Hr). apply bind_Ok in Hr as ([] & _ & Hr).
  apply bind_Ok in Hr as (v1 & Hv1 & Hr). apply bind_Ok in Hr as (v & Hv & Hr). injection Hr as Ha.
  change (copied v (after 3%nat) = a) in Ha. split; [rewrite <- Ha; apply length_copied|].
  assert (Hsecond : v1 = true -> exists t v, s = "BTSX" +:+ t /\ t <> String.EmptyString /\ from_base58 t = Ok v /\
    ((4 < length v < 24)%nat \/ exists a, length a = 20%nat /\ v = with_checksum a)).
  { intros ->. unfold true_if_returned in Hv1.
    destruct (address_is_valid_v1 s (after 2%nat)) as [b2|e] eqn:E2; [|by destruct (uncaught e)].
    by apply is_valid_with_inv in E2 as [_ ?]. }
  assert (Hread : forall t a0, s = (if v1 then "BTSX" else BTS_ADDRESS_PREFIX) +:+ t -> length a0 = 20%nat ->
    from_base58 t = Ok (with_checksum a0) -> a = a0).
  { intros t a0 -> Ha0 Ht. rewrite substr_from_app, Ht in Hv. injection Hv as <-. rewrite <- Ha.
    by apply copied_with_checksum. }
  unfold address_is_valid in Hb. destruct (address_is_valid_v1 s (after 0%nat)) as [b0|e] eqn:E0.
  - apply is_valid_with_inv in E0 as [_ (t & v0 & -> & Hne & Ht & [Hl|(a0 & Ha0 & ->)])]; [by eauto 10|].
    assert (v1 = true) as ->.
    { unfold true_if_returned, address_is_valid_v1 in Hv1.
      rewrite (is_valid_with_text _ t a0 _ Hne Ha0 Ht) in Hv1. by injection Hv1. }
    rewrite (Hread t a0) by done. exists "BTSX"%string, t, (with_checksum a0). auto.
  - destruct (uncaught e) eqn:Hu; [done|]. apply is_valid_with_inv in Hb as [_ (t & v0 & Hst & Hne & Ht & Hor)].
    destruct Hor as [Hl|(a0 & Ha0 & ->)]; [by eauto 10|]. destruct v1.
    + destruct (Hsecond eq_refl) as (t' & v' & Hst' & Hne' & Ht' & [Hl|(a' & Ha' & ->)]); [by eauto 10|].
      unfold address_is_valid_v1 in E0. rewrite Hst', (is_valid_with_text _ t' a' _ Hne' Ha' Ht') in E0. done.
    + rewrite (Hread t a0) by done. exists BTS_ADDRESS_PREFIX, t, (with_checksum a0). auto.
Qed.

(** The text of an address, of which what follows BTSX is not accepted. *)
Lemma address_text_read a t after :
  length a = 20%nat -> t <> String.EmptyString -> from_base58 t = Ok (with_checksum a) ->
  (forall k, (k = 0 \/ k = 2)%nat ->
     address_is_valid_v1 (BTS_ADDRESS_PREFIX +:+ t) (after k) = Err assert_exception) ->
  address_of_string (BTS_ADDRESS_PREFIX +:+ t) after = Ok a.
Proof.
  intros Ha Hne Ht Hv1.
  erewrite (address_of_string_run _ after true false BTS_ADDRESS_PREFIX t); try done.
  - rewrite Ht. cbn. by rewrite copied_with_checksum.
  - unfold address_is_valid. rewrite Hv1 by auto. cbn [uncaught]. by eapply is_valid_with_text.
  - by rewrite Hv1 by auto.
Qed.

Lemma address_text a : length a = 20%nat -> Forall byte_ok a ->
  to_base58 (with_checksum a) <> String.EmptyString /\
  from_base58 (to_base58 (with_checksum a)) = Ok (with_checksum a).
Proof.
  intros Ha Hb. assert (Hbytes : Forall byte_ok (with_checksum a)).
  { apply Forall_app; split; [done|]. apply Forall_take, ripemd160_bytes. }
  split; [|by apply from_to_base58]. apply to_base58_nonempty; [done|]. by destruct a.
Qed.

(** C21: the text of an address is read back as the address, whatever the memory
    holds.  The reader first tries the old prefix BTSX, so the text after BTS must not
    begin with X. *)
Theorem address_roundtrip a after :
  length a = 20%nat -> Forall byte_ok a ->
  starts_X (to_base58 (a ++ take 4 (ripemd160 a))) = false ->
  address_of_string (address_to_string a) after = Ok a.
Proof.
  intros Ha Hb HX. destruct (address_text a Ha Hb) as [Hne Ht].
  apply address_text_read; [done..|]. intros k _. by apply is_valid_v1_other.
Qed.

(** ** Short texts *)

(** The last bytes of [v] that are there agree with its checksum. *)
Definition checksum_possible (v : list Z) : Prop :=
  forall i, (20 + i < length v)%nat -> v !! (20 + i)%nat = checksum_of v !! i.

Lemma short_possible p t v :
  t <> String.EmptyString -> from_base58 t = Ok v -> (4 < length v < 24)%nat ->
  (checksum_possible v ->
    (exists after, (forall i, byte_ok (after i)) /\ is_valid_with p (p +:+ t) after = Ok true) /\
    (exists after, (forall i, byte_ok (after i)) /\ is_valid_with p (p +:+ t) after = Err assert_exception)) /\
  (~ checksum_possible v -> forall after, is_valid_with p (p +:+ t) after = Err assert_exception).
Proof.
  intros Hne Ht Hl. assert (Hrun := fun after => is_valid_with_run p t v after Hne Ht).
  rewrite (proj2 (Nat.ltb_lt _ _)), (proj2 (Nat.leb_le _ _)) in Hrun by lia. cbn [andb] in Hrun.
  pose proof (length_checksum v) as Hc. pose proof (checksum_of_bytes v) as Hb. split.
  - intros Hp. split.
    + destruct (bytes_read_beyond 20 4 v (checksum_of v)) as (after & Ha & Hr); [by intros i _; apply Hp|done..|].
      exists after. split; [done|]. by rewrite Hrun, bool_decide_eq_true_2.
    + destruct (checksum_of v !! 3%nat) as [x|] eqn:Hx; [|apply lookup_ge_None in Hx; lia].
      rewrite Forall_lookup in Hb. specialize (Hb _ _ Hx). unfold byte_ok in Hb.
      exists (fun _ => (x + 1) mod 256). split; [intros _; apply Z.mod_pos_bound; lia|].
      rewrite Hrun, bool_decide_eq_false_2; [done|]. intros Heq.
      apply (f_equal (fun l => l !! 3%nat)) in Heq. rewrite Hx, lookup_bytes_read in Heq by lia.
      rewrite (lookup_ge_None_2 v) in Heq by lia. injection Heq as Heq.
      destruct (decide (x = 255)) as [->|]; [done|]. rewrite Z.mod_small in Heq; lia.
  - intros Hp after. rewrite Hrun, bool_decide_eq_false_2; [done|]. intros Heq. apply Hp. intros i Hi.
    rewrite <- Heq, lookup_bytes_read by lia. by destruct (lookup_lt_is_Some_2 v (20 + i)%nat Hi) as [x ->].
Qed.

(** Memory of the first and third vectors [m], of the second and fourth [m']. *)
Definition memories (m m' : nat -> Z) (k : nat) : nat -> Z :=
  match k with 0 | 2 => m | _ => m' end%nat.

(** The text is read as either result, depending on the memory. *)
Definition read_as_either (s : string) (r r' : result (list Z)) : Prop :=
  (exists after, (forall k i, byte_ok (after k i)) /\ address_of_string s after = r) /\
  (exists after, (forall k i, byte_ok (after k i)) /\ address_of_string s after = r').

Lemma memories_ok m m' k i : (forall i, byte_ok (m i)) -> (forall i, byte_ok (m' i)) -> byte_ok (memories m m' k i).
Proof. intros Hm Hm'. by destruct k as [|[|[|]]]; cbn. Qed.

(** A text [is_valid_v1] accepts, both times. *)
Lemma v1_text_read t v m m' :
  from_base58 t = Ok v -> (4 <= length v <= 24)%nat -> address_is_valid_v1 ("BTSX" +:+ t) m = Ok true ->
  address_of_string ("BTSX" +:+ t) (memories m m') = Ok (take (length v - 4) v ++ repeat 0 (24 - length v)).
Proof.
  intros Ht Hl Hv. erewrite (address_of_string_run _ _ true true "BTSX" t); try done.
  - rewrite Ht. cbn [mbind result_bind]. by rewrite copied_short.
  - unfold address_is_valid. cbn [memories]. by rewrite Hv.
  - cbn [memories]. by rewrite Hv.
Qed.

(** A text [is_valid_v1] refuses is read as [is_valid] decides. *)
Lemma bts_text_read t v after b :
  from_base58 t = Ok v -> (4 <= length v <= 24)%nat ->
  (forall k, address_is_valid_v1 (BTS_ADDRESS_PREFIX +:+ t) (after k) = Err assert_exception) ->
  is_valid_with BTS_ADDRESS_PREFIX (BTS_ADDRESS_PREFIX +:+ t) (after 1%nat) = b ->
  b = Ok true \/ b = Err assert_exception ->
  address_of_string (BTS_ADDRESS_PREFIX +:+ t) after
  = _ ← b; Ok (take (length v - 4) v ++ repeat 0 (24 - length v)).
Proof.
  intros Ht Hl Hv1 Hv Hb.
  assert (Hi : address_is_valid (BTS_ADDRESS_PREFIX +:+ t) after = b).
  { unfold address_is_valid. by rewrite Hv1. }
  destruct Hb as [-> | ->]; [|by unfold address_of_string; rewrite Hi].
  erewrite (address_of_string_run _ after true false BTS_ADDRESS_PREFIX t); try done; [|by rewrite Hv1].
  rewrite Ht. cbn [mbind result_bind]. by rewrite copied_short.
Qed.

(** C22: a text that decodes to 5 to 23 bytes has its checksum compared with bytes
    beyond them.  If those of the checksum's bytes that are in the text (none up to 20)
    are right, what follows in memory decides whether the text, which is no address, is
    taken for one; otherwise it is refused.  The same happens to the text of a proper
    address if it begins with BTSX and what follows decodes to 5 to 23 bytes, since the
    reader tries BTSX before BTS: memory decides whether it is read as that address or
    as another one. *)
Theorem short_text_overread t v :
  from_base58 t = Ok v -> t <> String.EmptyString -> (4 < length v < 24)%nat ->
  let other := take (length v - 4) v ++ repeat 0 (24 - length v) in
  (starts_X t = false ->
    (checksum_possible v ->
       read_as_either (BTS_ADDRESS_PREFIX +:+ t) (Ok other) (Err assert_exception)) /\
    (~ checksum_possible v ->
       forall after, address_of_string (BTS_ADDRESS_PREFIX +:+ t) after = Err assert_exception)) /\
  (forall a, length a = 20%nat -> Forall byte_ok a -> address_to_string a = "BTSX" +:+ t ->
    (checksum_possible v -> read_as_either (address_to_string a) (Ok other) (Ok a)) /\
    (~ checksum_possible v -> forall after, address_of_string (address_to_string a) after = Ok a)).
Proof.
  cbv zeta. intros Ht Hne Hl. destruct (short_possible BTS_ADDRESS_PREFIX t v Hne Ht Hl) as [Hbts Hbts'].
  destruct (short_possible "BTSX" t v Hne Ht Hl) as [Hx Hx']. split.
  - intros HX. assert (Hv1 := fun after => is_valid_v1_other t after HX). split.
    + intros [(m & Hm & Hr) (m' & Hm' & Hr')]%Hbts. split.
      * exists (fun _ => m). split; [by intros _|].
        rewrite (bts_text_read t v _ (Ok true) Ht); [done|lia|done|exact Hr|by left].
      * exists (fun _ => m'). split; [by intros _|].
        rewrite (bts_text_read t v _ (Err assert_exception) Ht); [done|lia|done|exact Hr'|by right].
    + intros Hp after.
      rewrite (bts_text_read t v _ (Err assert_exception) Ht); [done|lia|done|by apply Hbts'|by right].
  - intros a Ha Hb Htext. destruct (address_text a Ha Hb) as [Hne' Ht']. split.
    + intros [(m & Hm & Hr) (m' & Hm' & Hr')]%Hx. split.
      * exists (memories m m). split; [by intros; apply memories_ok|]. rewrite Htext. by apply v1_text_read; [|lia|].
      * exists (memories m' m'). split; [by intros; apply memories_ok|].
        apply address_text_read; [done..|]. intros k [-> | ->]; cbn [memories];
          fold (with_checksum a); change (address_is_valid_v1 (address_to_string a) m' = Err assert_exception);
          rewrite Htext; exact Hr'.
    + intros Hp after. apply address_text_read; [done..|]. intros k _.
      change (address_is_valid_v1 (address_to_string a) (after k) = Err assert_exception). rewrite Htext.
      by apply Hx'.
Qed.

(** ** Keys *)
Context `{CurveCrypto}.

(** A private key written for import is read back. *)
Theorem wif_roundtrip key : wif_to_key (key_to_wif key) = Ok (Some key).
Proof.
  unfold wif_to_key, key_to_wif. set (data := 0x80 :: get_secret key). set (chk := take 4 _).
  assert (Hc : length chk = 4%nat) by (unfold chk; by rewrite length_take, sha256_length).
  assert (Hd : length data = 33%nat) by (unfold data; cbn; by rewrite get_secret_length).
  rewrite from_to_base58; cbn [mbind result_bind].
  - rewrite length_app, Hc, Hd. cbn [Nat.add Nat.ltb Nat.leb Nat.sub].
    rewrite take_app_length', drop_app_length' by done.
    change (drop 1 data) with (get_secret key). rewrite private_key_of_secret. cbn [mbind result_bind].
    rewrite (bool_decide_eq_true_2 (chk = chk)) by done. by rewrite orb_true_r.
  - apply Forall_app; split; [constructor; [unfold byte_ok; lia|apply get_secret_bytes]|].
    apply Forall_take, sha256_bytes.
Qed.

(** The version byte of a private key's text is not looked at: the text of a
    pts address (25 bytes and the same checksum) is read as a private key, whose
    secret is the hash in the address. *)
Theorem pts_address_read_as_key pub compressed version key :
  0 <= version < 256 ->
  private_key_of_bytes (take 20 (drop 1 (pts_of_public_key pub compressed version))) = Ok key ->
  wif_to_key (pts_to_string (pts_of_public_key pub compressed version)) = Ok (Some key).
Proof.
  intros Hv. unfold wif_to_key, pts_to_string, pts_of_public_key.
  set (rep := ripemd160 _). set (chk := take 4 _).
  assert (Hc : length chk = 4%nat) by (unfold chk; by rewrite length_take, sha256_length).
  assert (Hr : length rep = 20%nat) by apply ripemd160_length.
  cbn [app drop]. rewrite drop_0, (take_app_length' rep) by done. intros Hk.
  change (version :: rep ++ chk) with ((version :: rep) ++ chk).
  rewrite from_to_base58; cbn [mbind result_bind].
  - rewrite length_app, Hc. cbn [length]. rewrite Hr. cbn [Nat.add Nat.ltb Nat.leb Nat.sub].
    rewrite take_app_length', drop_app_length' by (cbn; by rewrite Hr). cbn [drop]. rewrite drop_0, Hk.
    cbn [mbind result_bind]. rewrite (bool_decide_eq_true_2 (chk = chk)) by done. by rewrite orb_true_r.
  - apply Forall_app; split; [constructor; [done|apply ripemd160_bytes]|].
    apply Forall_take, sha256_bytes.
Qed.

(** The text of a public key is read back, unless it begins with X. *)
Theorem public_key_roundtrip key_data :
  length key_data = 33%nat -> Forall byte_ok key_data ->
  starts_X (to_base58 (pack_binary_key (key_data, key_checksum key_data))) = false ->
  public_key_of_string (public_key_to_string key_data) = Ok key_data.
Proof.
  intros Hl Hb HX. unfold public_key_of_string, public_key_to_string, key_is_valid_v1, unpack_checked.
  rewrite prefixed_v1_other by done. cbn [mbind result_bind true_if_returned uncaught].
  rewrite prefixed_app by (apply to_base58_nonempty; [by apply pack_binary_key_bytes|apply pack_binary_key_nonempty]).
  rewrite from_to_base58 by by apply pack_binary_key_bytes. cbn [mbind result_bind].
  rewrite unpack_pack_binary_key; [|done|].
  - cbn. by rewrite Z.eqb_refl.
  - apply first_word_bound; [apply ripemd160_bytes|by rewrite ripemd160_length; lia].
Qed.

(** A pts address is read back from its text. *)
Theorem pts_roundtrip fresh pub compressed version :
  length fresh = 25%nat -> 0 <= version < 256 ->
  pts_of_string fresh (pts_to_string (pts_of_public_key pub compressed version))
  = Ok (pts_of_public_key pub compressed version).
Proof.
  intros Hf Hv. unfold pts_of_string, pts_to_string, pts_of_public_key.
  set (addr := version :: _). set (chk := take 4 _).
  assert (Hc : length chk = 4%nat) by (unfold chk; by rewrite length_take, sha256_length).
  assert (Ha : length addr = 21%nat) by (cbn; by rewrite ripemd160_length).
  rewrite from_to_base58; cbn [mbind result_bind].
  - rewrite length_app, Hc, Ha. cbn [Nat.add Nat.min].
    rewrite memcpy_all by (rewrite ?length_app; lia).
    unfold pts_is_valid, pts_checksum. rewrite take_app_length', drop_app_length' by done.
    rewrite firstn_all2 by lia. by rewrite bool_decide_eq_true_2.
  - apply Forall_app; split; [constructor; [done|apply ripemd160_bytes]|].
    apply Forall_take, sha256_bytes.
Qed.

(** ** Extended keys *)

(** Whoever has only the extended public key derives the public keys of the
    children the owner of the private key derives publicly. *)
Theorem public_derivation_agrees idx k :
  public_child idx (to_extended_public_key k)
  = Ok (to_extended_public_key (private_child idx public_derivation k)).
Proof.
  unfold public_child, to_extended_public_key, private_child, extended_get_public_key. cbn.
  rewrite generate_from_seed_public. cbn. by rewrite regenerate_secret.
Qed.

(** An extended address is read back if the object is not larger than its 65 packed
    bytes, whatever the memory holds; if it is larger, the checksum in its text
    depends on what follows them. *)
Theorem extended_address_roundtrip size k :
  length (pub_chain_code k) = 32%nat -> Forall byte_ok (pub_chain_code k) ->
  ((size <= 65)%nat -> forall after after', extended_of_string size (extended_to_string size k after) after' = Ok k) /\
  ((65 < size)%nat -> forall rest, length rest = (size - 65)%nat -> exists after,
     extended_checksum size (extended_pack k) after = first_word (ripemd160 (extended_pack k ++ rest))).
Proof.
  intros Hl Hb. assert (Hp : length (extended_pack k) = 65%nat) by by apply pack_extended_length.
  split; intros Hs.
  - intros after after'. unfold extended_to_string, extended_of_string. set (w := extended_checksum _ _ _).
    assert (Hw : 0 <= w < 2^32).
    { apply first_word_bound; [apply ripemd160_bytes|by rewrite ripemd160_length; lia]. }
    assert (Hbytes : Forall byte_ok (extended_pack k ++ le32 w)).
    { apply Forall_app; split; [by apply pack_extended_bytes|by apply le32_bytes]. }
    rewrite prefixed_app.
    2:{ apply to_base58_nonempty; [done|]. intros Heq. apply (f_equal length) in Heq. by rewrite length_app, Hp in Heq. }
    rewrite from_to_base58 by done.
    cbn [mbind result_bind]. rewrite length_app, Hp. change (length (le32 w)) with 4%nat.
    cbn [Nat.add Nat.eqb fc_assert negb throw_if mbind result_bind].
    pose proof (unpack_pack_extended (pub_key k, pub_chain_code k) (le32 w) Hl) as Hu.
    fold (extended_pack k) in Hu. rewrite Hu. cbn [mbind result_bind].
    assert (Hsame : extended_checksum size (extended_pack k ++ le32 w) after' = w).
    { unfold w, extended_checksum. rewrite !bytes_read_inside, !drop_0 by (rewrite ?length_app; lia).
      by rewrite take_app_le by lia. }
    rewrite Hsame, (firstn_all2 (n := 4)) by done. rewrite le32_roundtrip, Z.eqb_refl by done. by destruct k.
  - intros rest Hr. exists (fun i => default 0 (rest !! i)). unfold extended_checksum. do 2 f_equal.
    apply list_eq_same_length with size; [rewrite length_app; lia|by rewrite length_bytes_read|].
    intros i x y Hi. rewrite lookup_bytes_read by done. intros [= <-]. cbn [Nat.add]. rewrite lookup_app.
    destruct (extended_pack k !! i); [by intros [= <-]|]. by intros ->.
Qed.

End facts.
