(* ===== verification/AddressWitnesses.v ===== *)
(** * AddressWitnesses: base58 and a small curve

    A concrete [TextCrypto] with base58 itself (numbers in base 58, a leading zero
    byte a leading 1) and digests that keep the first bytes, and a concrete
    [CurveCrypto] of 256 keys, on which the theorems of AddressFacts are applied. *)
From S2P Require Import Prelude Config Eff Records Framing FramingFacts Addresses AddressFacts.
From Stdlib Require String.
From Stdlib Require Import Ascii.
From Stdlib Require Strings.Byte.

(** ** Numbers in a base *)

Fixpoint digits_fuel (fuel : nat) (b n : Z) : list Z :=
  match fuel with
  | O => []
  | S fuel => if n =? 0 then [] else digits_fuel fuel b (n / b) ++ [n mod b]
  end.
Definition digits (b n : Z) : list Z := digits_fuel (S (Z.to_nat (Z.log2 n))) b n.
Definition value (b : Z) (l : list Z) : Z := foldl (fun acc d => acc * b + d) 0 l.

Fixpoint leading_zeros (l : list Z) : nat :=
  match l with 0 :: l => S (leading_zeros l) | _ => O end.

(** The digits of the same number in another base, with the same leading zeros. *)
Definition recode (b b' : Z) (l : list Z) : list Z :=
  repeat 0 (leading_zeros l) ++ digits b' (value b l).

Definition digit_ok (b d : Z) : Prop := 0 <= d < b.

Lemma Forall_snoc {A} (P : A -> Prop) l x : Forall P (l ++ [x]) -> Forall P l /\ P x.
Proof. intros [? Hx]%Forall_app. by inversion Hx. Qed.

Section base.
Variable b : Z.
Hypothesis Hb : 2 <= b.

Lemma digits_fuel_irrel f f' n : 0 <= n < 2 ^ Z.of_nat f -> 0 <= n < 2 ^ Z.of_nat f' ->
  digits_fuel f b n = digits_fuel f' b n.
Proof using Hb.
  revert f' n. induction f as [|f IH]; intros [|f'] n Hf Hf'; cbn [digits_fuel].
  - done.
  - by replace n with 0 by (cbn in Hf; lia).
  - by replace n with 0 by (cbn in Hf'; lia).
  - destruct (Z.eqb_spec n 0); [done|]. f_equal.
    rewrite Nat2Z.inj_succ, Z.pow_succ_r in Hf, Hf' by lia.
    assert (n / b <= n / 2) by (apply Z.div_le_compat_l; lia).
    assert (0 <= n / b) by (apply Z.div_pos; lia).
    assert (n / 2 < 2 ^ Z.of_nat f /\ n / 2 < 2 ^ Z.of_nat f') as [? ?] by (split; apply Z.div_lt_upper_bound; lia).
    apply IH; lia.
Qed.

Lemma digits_enough f n : 0 <= n < 2 ^ Z.of_nat f -> digits b n = digits_fuel f b n.
Proof using Hb.
  intros Hn. apply digits_fuel_irrel; [|done]. split; [lia|].
  destruct (Z.eq_dec n 0) as [->|]; [done|].
  pose proof (Z.log2_spec n ltac:(lia)). rewrite Nat2Z.inj_succ, Z2Nat.id by apply Z.log2_nonneg. lia.
Qed.

Lemma digits_0 : digits b 0 = [].
Proof. done. Qed.

Lemma digits_snoc n d : 0 <= n -> digit_ok b d -> n * b + d <> 0 ->
  digits b (n * b + d) = digits b n ++ [d].
Proof using Hb.
  intros Hn [Hd1 Hd2] Hne. set (f := S (Z.to_nat (Z.log2 (n * b + d)))).
  assert (Hlt : n * b + d < 2 ^ Z.of_nat f).
  { pose proof (Z.log2_spec (n * b + d) ltac:(nia)). unfold f.
    rewrite Nat2Z.inj_succ, Z2Nat.id by apply Z.log2_nonneg. lia. }
  rewrite (digits_enough (S f)) by (split; [nia|]; rewrite Nat2Z.inj_succ, Z.pow_succ_r; lia).
  rewrite (digits_enough f n) by nia. cbn [digits_fuel].
  destruct (Z.eqb_spec (n * b + d) 0); [done|].
  rewrite Z.div_add_l, Z.div_small, Z.add_0_r by lia.
  by rewrite Z.add_comm, Z.mod_add, Z.mod_small by lia.
Qed.

Lemma value_snoc l d : value b (l ++ [d]) = value b l * b + d.
Proof. unfold value. by rewrite foldl_app. Qed.

Lemma value_nonneg l : Forall (digit_ok b) l -> 0 <= value b l.
Proof using Hb.
  induction l as [|d l IH] using rev_ind; [done|]. rewrite value_snoc.
  intros [Hl Hd]%Forall_snoc. unfold digit_ok in Hd. specialize (IH Hl). nia.
Qed.

(** The number is zero only if all digits are. *)
Lemma value_zero l : Forall (digit_ok b) l -> value b l = 0 -> l = repeat 0 (length l).
Proof using Hb.
  induction l as [|d l IH] using rev_ind; [done|]. rewrite value_snoc, length_app.
  intros [Hl Hd]%Forall_snoc Hv. unfold digit_ok in Hd. pose proof (value_nonneg l Hl).
  assert (d = 0) as -> by nia. rewrite Nat.add_1_r. cbn [repeat]. rewrite repeat_cons. f_equal. apply IH; [done|nia].
Qed.

Lemma digits_value l : Forall (digit_ok b) l -> leading_zeros l = O -> digits b (value b l) = l.
Proof using Hb.
  induction l as [|d l IH] using rev_ind; [done|]. intros Hld Hz.
  pose proof Hld as [Hl Hd]%Forall_snoc.
  assert (Hz' : leading_zeros l = O) by (destruct l as [|[]]; done).
  rewrite value_snoc, digits_snoc; [by rewrite IH|by apply value_nonneg|done|].
  intros H0. rewrite <- value_snoc in H0. apply value_zero in H0; [|done].
  rewrite H0, length_app, Nat.add_1_r in Hz. done.
Qed.

Lemma digits_ok n : 0 <= n ->
  Forall (digit_ok b) (digits b n) /\ value b (digits b n) = n /\ leading_zeros (digits b n) = O.
Proof using Hb.
  intros Hn. unfold digits. set (f := S _).
  assert (Hf : n < 2 ^ Z.of_nat f).
  { destruct (Z.eq_dec n 0) as [->|]; [done|]. pose proof (Z.log2_spec n ltac:(lia)).
    unfold f. rewrite Nat2Z.inj_succ, Z2Nat.id by apply Z.log2_nonneg. lia. }
  clearbody f. revert n Hn Hf. induction f as [|f IH]; intros n Hn Hf; cbn [digits_fuel].
  { cbn in Hf. by replace n with 0 by lia. }
  destruct (Z.eqb_spec n 0) as [->|Hne]; [done|].
  rewrite Nat2Z.inj_succ, Z.pow_succ_r in Hf by lia.
  destruct (IH (n / b)) as (IH1 & IH2 & IH3).
  { apply Z.div_pos; lia. }
  { assert (n / b <= n / 2) by (apply Z.div_le_compat_l; lia).
    assert (n / 2 < 2 ^ Z.of_nat f) by (apply Z.div_lt_upper_bound; lia). lia. }
  repeat split.
  - apply Forall_app; split; [done|]. apply Forall_singleton, Z.mod_pos_bound. lia.
  - rewrite value_snoc, IH2. pose proof (Z.div_mod n b). lia.
  - destruct (digits_fuel f b (n / b)) as [|[] ?] eqn:E; [|done..].
    cbn in IH2. assert (n mod b = n) as ->.
    { pose proof (Z.div_mod n b). lia. }
    cbn. by destruct n.
Qed.
End base.

Lemma leading_zeros_split l : exists l', l = repeat 0 (leading_zeros l) ++ l' /\ leading_zeros l' = O.
Proof.
  induction l as [|[] l (l' & IH & Hz)]; [by exists []| |by eexists..].
  exists l'. cbn. by rewrite <- IH.
Qed.

Lemma leading_zeros_app n l : leading_zeros l = O -> leading_zeros (repeat 0 n ++ l) = n.
Proof. intros Hl. induction n as [|n IH]; cbn; [done|by rewrite IH]. Qed.

Lemma value_zeros b n l : value b (repeat 0 n ++ l) = value b l.
Proof. unfold value. rewrite foldl_app. f_equal. induction n as [|n IH]; cbn; [done|]. by rewrite Z.add_0_r. Qed.

Lemma recode_recode b b' l : 2 <= b -> 2 <= b' -> Forall (digit_ok b) l -> recode b' b (recode b b' l) = l.
Proof.
  intros Hb Hb' Hl. destruct (leading_zeros_split l) as (l' & Heq & Hz).
  assert (Hl' : Forall (digit_ok b) l') by (rewrite Heq in Hl; by apply Forall_app in Hl as [_ ?]).
  assert (Hv : value b l = value b l') by (rewrite Heq; apply value_zeros).
  destruct (digits_ok b' Hb' (value b l')) as (_ & Hd & Hdz); [by apply value_nonneg|].
  unfold recode. rewrite Hv, value_zeros, Hd, leading_zeros_app by done.
  rewrite digits_value by done. by rewrite <- Heq.
Qed.

(** ** The alphabet *)

Definition base58_alphabet : list ascii :=
  String.list_ascii_of_string "123456789ABCDEFGHJKLMNPQRSTUVWXYZabcdefghijkmnopqrstuvwxyz".
Definition base58_char (d : Z) : ascii := default "1"%char (base58_alphabet !! Z.to_nat d).
Definition base58_digit (c : ascii) : option Z :=
  Z.of_nat <$> (fst <$> list_find (fun x => x = c) base58_alphabet).

Lemma base58_digit_char d : digit_ok 58 d -> base58_digit (base58_char d) = Some d.
Proof.
  intros [? ?]. assert (Hall : Forall (fun n => base58_digit (base58_char (Z.of_nat n)) = Some (Z.of_nat n)) (seq 0 58)).
  { apply (bool_decide_eq_true_1 _). vm_compute. done. }
  rewrite Forall_forall in Hall. specialize (Hall (Z.to_nat d)).
  rewrite Z2Nat.id in Hall by done. apply Hall, elem_of_seq. lia.
Qed.

Definition ref_to_base58 (v : list Z) : string :=
  String.string_of_list_ascii (map base58_char (recode 256 58 v)).
Definition ref_from_base58 (s : string) : result (list Z) :=
  match mapM base58_digit (String.list_ascii_of_string s) with
  | Some l => Ok (recode 58 256 l)
  | None => Err fc_exception
  end.

Lemma ref_from_to_base58 v : Forall byte_ok v -> ref_from_base58 (ref_to_base58 v) = Ok v.
Proof.
  intros Hv. unfold ref_from_base58, ref_to_base58. rewrite String.list_ascii_of_string_of_list_ascii.
  replace (mapM _ _) with (Some (recode 256 58 v)); [by rewrite recode_recode|].
  symmetry. apply mapM_Some. rewrite <- (list_fmap_id (recode 256 58 v)) at 2.
  apply Forall2_fmap_l, Forall2_same_length_lookup_2; [by rewrite length_fmap|].
  rewrite list_fmap_id. intros i x y Hx Hy. rewrite Hx in Hy. injection Hy as <-.
  apply base58_digit_char.
  assert (Hr : Forall (digit_ok 58) (recode 256 58 v)).
  { unfold recode. apply Forall_app; split; [induction (leading_zeros v); constructor; [unfold digit_ok; lia|done]|].
    apply digits_ok; [lia|]. by apply value_nonneg. }
  rewrite Forall_lookup in Hr. by eapply Hr.
Qed.

(** ** The instances *)

(** The first bytes, and zeros where there are too few. *)
Definition digest (n : nat) (l : list Z) : list Z := take n (map (fun b => b mod 256) l ++ repeat 0 n).

Lemma digest_length n l : length (digest n l) = n.
Proof. unfold digest. rewrite length_take, length_app, repeat_length. lia. Qed.

Lemma digest_bytes n l : Forall byte_ok (digest n l).
Proof.
  apply Forall_take, Forall_app; split.
  - apply Forall_fmap, Forall_true. intros b. apply Z.mod_pos_bound. lia.
  - induction n; constructor; [unfold byte_ok; lia|done].
Qed.

#[export] Instance ref_text : TextCrypto.
Proof.
  refine {|
    to_base58 := ref_to_base58;
    from_base58 := ref_from_base58;
    ripemd160 := digest 20;
    sha256 := digest 32;
    sha512 := digest 64;
    from_to_base58 := ref_from_to_base58;
    ripemd160_length := digest_length 20;
    sha256_length := digest_length 32;
    sha512_length := digest_length 64;
    ripemd160_bytes := digest_bytes 20;
    sha256_bytes := digest_bytes 32;
    sha512_bytes := digest_bytes 64
  |}.
  intros v Hb Hv Hs. apply (f_equal String.list_ascii_of_string) in Hs. unfold ref_to_base58 in Hs.
  rewrite String.list_ascii_of_string_of_list_ascii in Hs. cbn in Hs. apply map_eq_nil in Hs.
  apply (f_equal (recode 58 256)) in Hs.
  by rewrite recode_recode in Hs.
Defined.

(** Keys are residues modulo 256; a secret is its first byte. *)
Definition byte_of (z : Z) : Init.Byte.byte := default Init.Byte.x00 (Byte.of_N (Z.to_N (z mod 256))).
Definition z_of_byte (b : Init.Byte.byte) : Z := Z.of_N (Byte.to_N b).
Definition first_byte (l : list Z) : Z := match l with b :: _ => b | [] => 0 end.

Lemma z_of_byte_ok b : byte_ok (z_of_byte b).
Proof. unfold byte_ok, z_of_byte. pose proof (Byte.to_N_bounded b). lia. Qed.

Lemma byte_of_z b : byte_of (z_of_byte b) = b.
Proof.
  unfold byte_of. pose proof (z_of_byte_ok b) as Hb. unfold byte_ok in Hb.
  rewrite Z.mod_small by lia. unfold z_of_byte. by rewrite N2Z.id, Byte.of_to_N.
Qed.

Lemma byte_of_add a b : byte_of (z_of_byte (byte_of a) + b) = byte_of (a + b).
Proof.
  unfold byte_of at 1 3. f_equal. f_equal. f_equal.
  assert (z_of_byte (byte_of a) = a mod 256) as ->; [|by rewrite Z.add_mod_idemp_l].
  pose proof (Z.mod_pos_bound a 256 ltac:(lia)).
  unfold z_of_byte, byte_of. destruct (Byte.of_N _) eqn:E; cbn.
  - apply Byte.to_of_N in E. rewrite E. lia.
  - apply Byte.of_N_None_iff in E. lia.
Qed.

Definition padded (n : nat) (b : Init.Byte.byte) : list Z := z_of_byte b :: repeat 0 n.
Lemma padded_bytes n b : Forall byte_ok (padded n b).
Proof.
  constructor; [apply z_of_byte_ok|]. induction n; constructor; [unfold byte_ok; lia|done].
Qed.

#[export] Instance ref_curve : CurveCrypto.
Proof.
  refine {|
    public_key := Init.Byte.byte;
    private_key := Init.Byte.byte;
    serialize := padded 32;
    serialize_ecc_point := padded 64;
    get_secret := padded 31;
    private_key_of_bytes l := Ok (byte_of (first_byte l));
    regenerate l := byte_of (first_byte l);
    get_public_key k := k;
    generate_from_seed s o := byte_of (first_byte s + first_byte o);
    key_add k o := Ok (byte_of (z_of_byte k + first_byte o));
    public_key_valid _ := true;
    pack_condition _ := [];
    pack_binary_key k := k.1 ++ le32 k.2;
    unpack_binary_key l := if (length l <? 37)%nat then Err fc_exception
                           else Ok (take 33 l, le32_value (take 4 (drop 33 l)));
    pack_extended k := padded 32 k.1 ++ k.2;
    unpack_extended l := if (length l <? 65)%nat then Err fc_exception
                         else Ok ((byte_of (first_byte l), take 32 (drop 33 l)), drop 65 l)
  |}.
  - done.
  - apply padded_bytes.
  - done.
  - apply padded_bytes.
  - intros k. cbn. by rewrite byte_of_z.
  - intros k. apply byte_of_z.
  - intros. by rewrite byte_of_add.
  - intros [d c] Hd Hc. cbn [fst snd] in *. rewrite length_app, Hd. change (length (le32 c)) with 4%nat. cbn [Nat.add Nat.ltb Nat.leb].
    rewrite take_app_length', drop_app_length' by done.
    change (take 4 (le32 c)) with (le32 c). by rewrite le32_roundtrip.
  - intros [d c] Hd. apply Forall_app; split; [done|]. unfold le32.
    repeat constructor; apply Z.mod_pos_bound; lia.
  - intros [[] c]; done.
  - intros [k c] Hc. cbn in *. by rewrite Hc.
  - intros [k c] Hc. apply Forall_app; split; [apply padded_bytes|done].
  - intros [k c] rest Hc. cbn in *.
    rewrite length_app, Hc. cbn. rewrite byte_of_z, !drop_0.
    rewrite (take_app_length' c), (drop_app_length' c) by done. done.
Defined.

(** ** Witnesses *)

Definition five : @public_key ref_curve := Init.Byte.x05.
Definition five_private : @private_key ref_curve := Init.Byte.x05.
Definition seven : @public_key ref_curve := Init.Byte.x07.
Definition sample_address : list Z := [1; 2; 3; 4; 5; 6; 7; 8; 9; 10; 11; 12; 13; 14; 15; 16; 17; 18; 19; 20].
Definition sample_data : list Z := digest 33 sample_address.

(** An address whose text begins with BTSX. *)
Definition unlucky_address : list Z :=
  [5; 196; 175; 212; 99; 251; 144; 243; 164; 110; 233; 0; 20; 61; 87; 102; 209; 126; 138; 72].
Definition unlucky_text : string := "VzzzzzzzzzzzzzzzzzzzzzzzzyWfo9D".
Definition unlucky_bytes : list Z :=
  match from_base58 unlucky_text with Ok v => v | Err _ => [] end.

(** Six bytes. *)
Definition short_bytes : list Z := [1; 2; 3; 4; 5; 6].

Lemma address_roundtrip_witness :
  address_of_string (address_to_string sample_address) (fun _ _ => 7) = Ok sample_address.
Proof.
  apply (address_roundtrip sample_address); [reflexivity| |vm_compute; reflexivity].
  repeat constructor; unfold byte_ok; lia.
Defined.

Lemma addresses_typed_witness :
  length sample_address = 20%nat /\
  exists prefix t v, (prefix = BTS_ADDRESS_PREFIX \/ prefix = "BTSX"%string) /\
    address_to_string sample_address = prefix +:+ t /\ from_base58 t = Ok v /\
    (v = sample_address ++ take 4 (ripemd160 sample_address) \/ (4 < length v < 24)%nat).
Proof.
  refine (addresses_typed (address_to_string sample_address) (fun _ _ => 7) sample_address _).
  vm_compute. reflexivity.
Defined.

(** Six bytes are an address or not, as the memory has it; the address whose text
    begins with BTSX is read back, its checksum being wrong at what follows BTSX. *)
Lemma short_text_overread_witness :
  read_as_either (BTS_ADDRESS_PREFIX +:+ to_base58 short_bytes)
    (Ok (1 :: 2 :: repeat 0 18)) (Err assert_exception) /\
  address_to_string unlucky_address = "BTSX" +:+ unlucky_text /\
  forall after, address_of_string (address_to_string unlucky_address) after = Ok unlucky_address.
Proof.
  destruct (short_text_overread (to_base58 short_bytes) short_bytes) as [Hs _];
    [vm_compute; reflexivity|discriminate|cbn; lia|].
  destruct (short_text_overread unlucky_text unlucky_bytes) as [_ Hl];
    [vm_compute; reflexivity|discriminate|vm_compute; lia|].
  assert (Ht : address_to_string unlucky_address = "BTSX" +:+ unlucky_text) by (vm_compute; reflexivity).
  split; [|split; [exact Ht|]].
  - apply Hs; [reflexivity|]. intros i Hi. cbn in Hi. lia.
  - apply (Hl unlucky_address); [reflexivity|repeat constructor; unfold byte_ok; lia|exact Ht|].
    intros Hp. specialize (Hp 0%nat). vm_compute in Hp. discriminate Hp. lia.
Defined.

Lemma pts_address_read_as_key_witness :
  wif_to_key (pts_to_string (pts_of_public_key five true 56)) = Ok (Some five_private).
Proof.
  apply (pts_address_read_as_key five true 56 five_private); [lia|vm_compute; reflexivity].
Defined.

Lemma public_key_roundtrip_witness :
  public_key_of_string (public_key_to_string sample_data) = Ok sample_data.
Proof.
  apply (public_key_roundtrip sample_data); [reflexivity|apply digest_bytes|vm_compute; reflexivity].
Defined.

Lemma pts_roundtrip_witness :
  pts_of_string (repeat 0 25) (pts_to_string (pts_of_public_key seven false 0))
  = Ok (pts_of_public_key seven false 0).
Proof. apply (pts_roundtrip (repeat 0 25) seven false 0); [reflexivity|lia]. Defined.

Lemma extended_address_roundtrip_witness :
  let k := mk_extended_public seven (digest 32 sample_address) in
  extended_of_string 65 (extended_to_string 65 k (fun _ => 1)) (fun _ => 2) = Ok k.
Proof.
  apply (extended_address_roundtrip 65 (mk_extended_public seven (digest 32 sample_address)));
    [reflexivity|apply digest_bytes|lia].
Defined.
