(* ===== verification/NodeState.v ===== *)
(** * NodeState: the peers of a node and what it keeps about them
      (net/peer_database.cpp, net/peer_connection.cpp, net/node.cpp)

    The database of peers a node has heard of, the cache of recent messages, the
    state of a connection and the state of the node: the lists its connections are
    in, the requests for blocks, the blocks received, the items to fetch and to
    advertise.  A connection object is found under its address; the client is the
    class [NodeDelegate]. *)
From stdpp Require Import sorting.
From S2P Require Import Prelude Config Eff.
Local Open Scope Z_scope.

(** The messages that close a connection say why. *)
Inductive closing_reason :=
| unrequested_message | unrequested_block | rejected_block | upgrade_needed (block_num : Z)
| implausible_block_count | missing_sync_item | fork_too_old | inactivity.
(** The exception kept in the records of peers for it. *)
Inductive closing_error :=
| told_reason (r : closing_reason) | rejected_because (e : error) | handshake_timeout.

(** ** The database of peers (peer_database.cpp)

    Records on disk under a number and in memory by their endpoint, in the order of
    when they were last seen. *)

Inductive disposition :=
| never_attempted_to_connect | last_connection_failed | last_connection_rejected
| last_connection_handshaking_failed | last_connection_succeeded.

Record potential_peer_record := mk_potential_peer {
  pp_endpoint : Z;
  pp_last_seen_time : Z;
  pp_disposition : disposition;
  pp_last_connection_attempt_time : Z;
  pp_successful_attempts : Z;
  pp_failed_attempts : Z;
  pp_last_error : option closing_error
}.
Definition new_potential_peer (endpoint : Z) : potential_peer_record :=
  mk_potential_peer endpoint 0 never_attempted_to_connect 0 0 0 None.
Definition set_pp_last_seen_time (t : Z) (r : potential_peer_record) : potential_peer_record :=
  mk_potential_peer (pp_endpoint r) t (pp_disposition r) (pp_last_connection_attempt_time r)
    (pp_successful_attempts r) (pp_failed_attempts r) (pp_last_error r).
Definition set_pp_disposition (d : disposition) (r : potential_peer_record) : potential_peer_record :=
  mk_potential_peer (pp_endpoint r) (pp_last_seen_time r) d (pp_last_connection_attempt_time r)
    (pp_successful_attempts r) (pp_failed_attempts r) (pp_last_error r).
Definition set_pp_last_error (e : option closing_error) (r : potential_peer_record) : potential_peer_record :=
  mk_potential_peer (pp_endpoint r) (pp_last_seen_time r) (pp_disposition r)
    (pp_last_connection_attempt_time r) (pp_successful_attempts r) (pp_failed_attempts r) e.

(** An entry and its key on disk. *)
Definition peer_entry : Type := Z * potential_peer_record.
Definition entry_endpoint (x : peer_entry) : Z := pp_endpoint x.2.
Definition entry_seen (x : peer_entry) : Z := pp_last_seen_time x.2.

(** [pd_set]: the entries from the least to the most recently seen. *)
Record peer_db := mk_peer_db {
  pd_leveldb : gmap Z potential_peer_record;
  pd_set : list peer_entry
}.

Definition MAXIMUM_PEERDB_SIZE : nat := 1000.

(** A place in the index by time: after those seen no later.  (A record that is changed
    in place may stay before others of the same time; nothing looks at that.) *)
Fixpoint insert_by_time (x : peer_entry) (l : list peer_entry) : list peer_entry :=
  match l with
  | [] => [x]
  | y :: l' => if entry_seen x <? entry_seen y then x :: l else y :: insert_by_time x l'
  end.

Definition find_endpoint (endpoint : Z) (l : list peer_entry) : option peer_entry :=
  snd <$> list_find (fun x => entry_endpoint x = endpoint) l.
Definition without_endpoint (endpoint : Z) (l : list peer_entry) : list peer_entry :=
  filter (fun x => entry_endpoint x <> endpoint) l.

(** [insert]: an endpoint is there once. *)
Definition insert_entry (x : peer_entry) (l : list peer_entry) : list peer_entry :=
  match find_endpoint (entry_endpoint x) l with Some _ => l | None => insert_by_time x l end.

(** The records on disk in the order of their keys. *)
Definition key_le (x y : peer_entry) : Prop := x.1 <= y.1.
#[global] Instance key_le_dec x y : Decision (key_le x y).
Proof. unfold key_le. apply _. Defined.
Definition disk_entries (m : gmap Z potential_peer_record) : list peer_entry := merge_sort key_le (map_to_list m).

(** [peer_database_impl::open]: what is read from disk, and cut to the first thousand
    of the index. *)
Definition load_entries (m : gmap Z potential_peer_record) : list peer_entry :=
  foldl (fun l x => insert_entry x l) [] (disk_entries m).
Definition open_peer_db (m : gmap Z potential_peer_record) : peer_db :=
  let l := load_entries m in
  if (MAXIMUM_PEERDB_SIZE <? length l)%nat
  then mk_peer_db (foldl (fun m x => delete x.1 m) m (drop MAXIMUM_PEERDB_SIZE l)) (take MAXIMUM_PEERDB_SIZE l)
  else mk_peer_db m l.

(** [clear], [erase] *)
Definition clear_peer_db (d : peer_db) : peer_db := mk_peer_db ∅ [].
Definition erase_peer (endpoint : Z) (d : peer_db) : peer_db :=
  match find_endpoint endpoint (pd_set d) with
  | Some x => mk_peer_db (delete x.1 (pd_leveldb d)) (without_endpoint endpoint (pd_set d))
  | None => d
  end.

(** The last key on disk; [fresh] is what the variable holds if there is none. *)
Definition last_key (fresh : Z) (m : gmap Z potential_peer_record) : Z :=
  match (map_to_list m).*1 with [] => fresh | k :: l => foldl Z.max k l end.

(** [peer_database_impl::update_entry] *)
Definition update_entry (fresh : Z) (r : potential_peer_record) (d : peer_db) : peer_db :=
  match find_endpoint (pp_endpoint r) (pd_set d) with
  | Some x =>
      mk_peer_db (<[x.1 := r]> (pd_leveldb d))
        (insert_by_time (x.1, r) (without_endpoint (pp_endpoint r) (pd_set d)))
  | None =>
      let k := wrapu32 (last_key fresh (pd_leveldb d) + 1) in
      mk_peer_db (<[k := r]> (pd_leveldb d)) (insert_entry (k, r) (pd_set d))
  end.

(** [lookup_entry_for_endpoint], [lookup_or_create_entry_for_endpoint], [get_all] *)
Definition lookup_peer (endpoint : Z) (d : peer_db) : option potential_peer_record :=
  snd <$> find_endpoint endpoint (pd_set d).
Definition lookup_or_create_peer (endpoint : Z) (d : peer_db) : potential_peer_record :=
  default (new_potential_peer endpoint) (lookup_peer endpoint d).
Definition get_all_peers (d : peer_db) : list potential_peer_record := (disk_entries (pd_leveldb d)).*2.
Definition peer_db_size (d : peer_db) : nat := length (pd_set d).

(** ** Items and messages *)

Record item_id := mk_item { item_type : Z; item_hash : Z }.
#[global] Instance item_id_eq_dec : EqDecision item_id.
Proof. solve_decision. Defined.
#[global] Program Instance item_id_countable : Countable item_id :=
  inj_countable' (fun i => (item_type i, item_hash i)) (fun p => mk_item p.1 p.2) _.
Next Obligation. by intros []. Qed.

Definition trx_item : Z := 1000.
Definition block_item : Z := 1001.
Definition BTS_BLOCKCHAIN_MAX_TRX_PER_SECOND : Z := 1.
Definition BTS_NET_PEER_DISCONNECT_TIMEOUT : Z := 20.
Definition BTS_NET_DEFAULT_MAX_CONNECTIONS : nat := 200.
Definition BTS_NET_MAX_INVENTORY_SIZE_IN_MINUTES : Z := 2.
Definition BTS_NET_MIN_BLOCK_IDS_TO_PREFETCH : nat := 10000.
Definition BTS_NET_MAX_BLOCKS_PER_PEER_DURING_SYNCING : nat := 100.
Definition BTS_NET_FUTURE_SYNC_BLOCKS_GRACE_PERIOD_SEC : Z := 60 * 60.
Definition BTS_NET_INSUFFICIENT_RELAY_FEE_PENALTY_SEC : Z := 15.
Definition MAXIMUM_NUMBER_OF_BLOCKS_TO_HANDLE_AT_ONE_TIME : nat := 200.
Definition MAXIMUM_NUMBER_OF_BLOCKS_TO_PREFETCH : nat := 10 * MAXIMUM_NUMBER_OF_BLOCKS_TO_HANDLE_AT_ONE_TIME.
Definition usec (s : Z) : Z := 1000000 * s.
Definition to_sec (t : Z) : Z := t / 1000000.

(** The messages of the client (blocks, transactions): their type, the hash of their
    bytes, and [as<trx_message>().trx.id()], which throws for another type. *)
Class NodeMessages := {
  payload : Type;
  payload_type : payload -> Z;
  payload_id : payload -> Z;
  trx_id_of : payload -> result Z
}.

(** A block message, with the message it is sent as. *)
Record block_message `{NodeMessages} := mk_block_message {
  bm_block_id : Z;
  bm_block_num : Z;
  bm_timestamp : Z;
  bm_message : payload
}.

Section node.
Context `{NM : NodeMessages}.

Inductive net_message :=
| item_ids_inventory_message (type : Z) (hashes : list Z)
| blockchain_item_ids_inventory_message (remaining type : Z) (hashes : list Z)
| fetch_blockchain_item_ids_message (type : Z) (synopsis : list Z)
| fetch_items_message (type : Z) (hashes : list Z)
| item_not_available_message (item : item_id)
| closing_connection_message (reason : closing_reason) (due_to_error : bool)
| current_time_request_message
| current_time_reply_message (request_received_time : Z)
| data_message (p : payload).

(** ** The message cache *)

Record message_propagation_data := mk_propagation {
  mp_received_time : Z;
  mp_validated_time : Z;
  mp_originating_peer : Z
}.
Record message_info := mk_message_info {
  mi_hash : Z;
  mi_body : payload;
  mi_block_clock : Z;
  mi_propagation : message_propagation_data;
  mi_contents_hash : Z
}.
Record message_cache := mk_cache { mc_messages : list message_info; mc_block_clock : Z }.
Definition cache_duration_in_blocks : Z := 2.

(** [blockchain_tied_message_cache::block_accepted] *)
Definition block_accepted (c : message_cache) : message_cache :=
  let clock := wrapu32 (mc_block_clock c + 1) in
  mk_cache
    (if clock >? cache_duration_in_blocks
     then filter (fun i => mi_block_clock i >= clock - cache_duration_in_blocks) (mc_messages c)
     else mc_messages c) clock.

Definition find_message (hash : Z) (c : message_cache) : option message_info :=
  snd <$> list_find (fun i => mi_hash i = hash) (mc_messages c).

(** [cache_message]: a message that is already there is kept as it is. *)
Definition cache_message (p : payload) (hash : Z) (data : message_propagation_data) (contents : Z)
    (c : message_cache) : message_cache :=
  match find_message hash c with
  | Some _ => c
  | None =>
      mk_cache (mc_messages c ++ [mk_message_info hash p (mc_block_clock c) data contents]) (mc_block_clock c)
  end.

(** [get_message], [get_message_propagation_data] *)
Definition get_message (hash : Z) (c : message_cache) : result payload :=
  i ← require (find_message hash c) key_not_found_exception;
  Ok (mi_body i).
Definition get_message_propagation_data (contents : Z) (c : message_cache) : result message_propagation_data :=
  if contents =? 0 then Err key_not_found_exception
  else
    i ← require (snd <$> list_find (fun i => mi_contents_hash i = contents) (mc_messages c)) key_not_found_exception;
    Ok (mi_propagation i).

(** ** Peers *)

(** The members of [peer_connection] the handlers use. *)
Record peer := mk_peer {
  pr_node_id : Z;  (* node_id *)
  pr_inbound : bool;  (* direction == inbound *)
  pr_endpoint : option Z;  (* get_endpoint_for_connecting() *)
  pr_remote_endpoint : option Z;  (* get_remote_endpoint() *)
  pr_ids_to_get : list Z;  (* ids_of_items_to_get *)
  pr_being_processed : gset Z;  (* ids_of_items_being_processed *)
  pr_unfetched : Z;  (* number_of_unfetched_item_ids *)
  pr_peer_needs : bool;  (* peer_needs_sync_items_from_us *)
  pr_we_need : bool;  (* we_need_sync_items_from_peer *)
  pr_ids_requested : option (item_id * Z);  (* item_ids_requested_from_peer *)
  pr_sync_requested : gmap item_id Z;  (* sync_items_requested_from_peer *)
  pr_last_number : Z;  (* last_block_number_delegate_has_seen *)
  pr_last_block : Z;  (* last_block_delegate_has_seen *)
  pr_last_time : Z;  (* last_block_time_delegate_has_seen *)
  pr_inhibit : bool;  (* inhibit_fetching_sync_blocks *)
  pr_advertised_to_us : gmap item_id Z;  (* inventory_peer_advertised_to_us *)
  pr_advertised_to_peer : gmap item_id Z;  (* inventory_advertised_to_peer *)
  pr_requested : gmap item_id Z;  (* items_requested_from_peer *)
  pr_trx_inhibited_until : Z;  (* transaction_fetching_inhibited_until *)
  pr_last_known_fork : Z;  (* last_known_fork_block_number *)
  pr_they_close : bool;  (* they_have_requested_close *)
  pr_we_close : bool;  (* we_have_requested_close *)
  pr_closed_time : Z;  (* connection_closed_time *)
  pr_closed_error : option closing_error;  (* connection_closed_error *)
  pr_closed : bool;  (* close_connection() was called *)
  pr_initiation_time : Z;  (* connection_initiation_time *)
  pr_terminated_time : Z;  (* connection_terminated_time *)
  pr_last_received : Z;  (* get_last_message_received_time() *)
  pr_last_sent : Z  (* get_last_message_sent_time() *)
}.

Definition set_pr_node_id (v : Z) (r : peer) : peer :=
  mk_peer v (pr_inbound r) (pr_endpoint r) (pr_remote_endpoint r) (pr_ids_to_get r)
    (pr_being_processed r) (pr_unfetched r) (pr_peer_needs r) (pr_we_need r) (pr_ids_requested r)
    (pr_sync_requested r) (pr_last_number r) (pr_last_block r) (pr_last_time r) (pr_inhibit r)
    (pr_advertised_to_us r) (pr_advertised_to_peer r) (pr_requested r) (pr_trx_inhibited_until r)
    (pr_last_known_fork r) (pr_they_close r) (pr_we_close r) (pr_closed_time r) (pr_closed_error r)
    (pr_closed r) (pr_initiation_time r) (pr_terminated_time r) (pr_last_received r)
    (pr_last_sent r).
Definition set_pr_inbound (v : bool) (r : peer) : peer :=
  mk_peer (pr_node_id r) v (pr_endpoint r) (pr_remote_endpoint r) (pr_ids_to_get r)
    (pr_being_processed r) (pr_unfetched r) (pr_peer_needs r) (pr_we_need r) (pr_ids_requested r)
    (pr_sync_requested r) (pr_last_number r) (pr_last_block r) (pr_last_time r) (pr_inhibit r)
    (pr_advertised_to_us r) (pr_advertised_to_peer r) (pr_requested r) (pr_trx_inhibited_until r)
    (pr_last_known_fork r) (pr_they_close r) (pr_we_close r) (pr_closed_time r) (pr_closed_error r)
    (pr_closed r) (pr_initiation_time r) (pr_terminated_time r) (pr_last_received r)
    (pr_last_sent r).
Definition set_pr_endpoint (v : option Z) (r : peer) : peer :=
  mk_peer (pr_node_id r) (pr_inbound r) v (pr_remote_endpoint r) (pr_ids_to_get r)
    (pr_being_processed r) (pr_unfetched r) (pr_peer_needs r) (pr_we_need r) (pr_ids_requested r)
    (pr_sync_requested r) (pr_last_number r) (pr_last_block r) (pr_last_time r) (pr_inhibit r)
    (pr_advertised_to_us r) (pr_advertised_to_peer r) (pr_requested r) (pr_trx_inhibited_until r)
    (pr_last_known_fork r) (pr_they_close r) (pr_we_close r) (pr_closed_time r) (pr_closed_error r)
    (pr_closed r) (pr_initiation_time r) (pr_terminated_time r) (pr_last_received r)
    (pr_last_sent r).
Definition set_pr_remote_endpoint (v : option Z) (r : peer) : peer :=
  mk_peer (pr_node_id r) (pr_inbound r) (pr_endpoint r) v (pr_ids_to_get r) (pr_being_processed r)
    (pr_unfetched r) (pr_peer_needs r) (pr_we_need r) (pr_ids_requested r) (pr_sync_requested r)
    (pr_last_number r) (pr_last_block r) (pr_last_time r) (pr_inhibit r) (pr_advertised_to_us r)
    (pr_advertised_to_peer r) (pr_requested r) (pr_trx_inhibited_until r) (pr_last_known_fork r)
    (pr_they_close r) (pr_we_close r) (pr_closed_time r) (pr_closed_error r) (pr_closed r)
    (pr_initiation_time r) (pr_terminated_time r) (pr_last_received r) (pr_last_sent r).
Definition set_pr_ids_to_get (v : list Z) (r : peer) : peer :=
  mk_peer (pr_node_id r) (pr_inbound r) (pr_endpoint r) (pr_remote_endpoint r) v
    (pr_being_processed r) (pr_unfetched r) (pr_peer_needs r) (pr_we_need r) (pr_ids_requested r)
    (pr_sync_requested r) (pr_last_number r) (pr_last_block r) (pr_last_time r) (pr_inhibit r)
    (pr_advertised_to_us r) (pr_advertised_to_peer r) (pr_requested r) (pr_trx_inhibited_until r)
    (pr_last_known_fork r) (pr_they_close r) (pr_we_close r) (pr_closed_time r) (pr_closed_error r)
    (pr_closed r) (pr_initiation_time r) (pr_terminated_time r) (pr_last_received r)
    (pr_last_sent r).
Definition set_pr_being_processed (v : gset Z) (r : peer) : peer :=
  mk_peer (pr_node_id r) (pr_inbound r) (pr_endpoint r) (pr_remote_endpoint r) (pr_ids_to_get r) v
    (pr_unfetched r) (pr_peer_needs r) (pr_we_need r) (pr_ids_requested r) (pr_sync_requested r)
    (pr_last_number r) (pr_last_block r) (pr_last_time r) (pr_inhibit r) (pr_advertised_to_us r)
    (pr_advertised_to_peer r) (pr_requested r) (pr_trx_inhibited_until r) (pr_last_known_fork r)
    (pr_they_close r) (pr_we_close r) (pr_closed_time r) (pr_closed_error r) (pr_closed r)
    (pr_initiation_time r) (pr_terminated_time r) (pr_last_received r) (pr_last_sent r).
Definition set_pr_unfetched (v : Z) (r : peer) : peer :=
  mk_peer (pr_node_id r) (pr_inbound r) (pr_endpoint r) (pr_remote_endpoint r) (pr_ids_to_get r)
    (pr_being_processed r) v (pr_peer_needs r) (pr_we_need r) (pr_ids_requested r)
    (pr_sync_requested r) (pr_last_number r) (pr_last_block r) (pr_last_time r) (pr_inhibit r)
    (pr_advertised_to_us r) (pr_advertised_to_peer r) (pr_requested r) (pr_trx_inhibited_until r)
    (pr_last_known_fork r) (pr_they_close r) (pr_we_close r) (pr_closed_time r) (pr_closed_error r)
    (pr_closed r) (pr_initiation_time r) (pr_terminated_time r) (pr_last_received r)
    (pr_last_sent r).
Definition set_pr_peer_needs (v : bool) (r : peer) : peer :=
  mk_peer (pr_node_id r) (pr_inbound r) (pr_endpoint r) (pr_remote_endpoint r) (pr_ids_to_get r)
    (pr_being_processed r) (pr_unfetched r) v (pr_we_need r) (pr_ids_requested r)
    (pr_sync_requested r) (pr_last_number r) (pr_last_block r) (pr_last_time r) (pr_inhibit r)
    (pr_advertised_to_us r) (pr_advertised_to_peer r) (pr_requested r) (pr_trx_inhibited_until r)
    (pr_last_known_fork r) (pr_they_close r) (pr_we_close r) (pr_closed_time r) (pr_closed_error r)
    (pr_closed r) (pr_initiation_time r) (pr_terminated_time r) (pr_last_received r)
    (pr_last_sent r).
Definition set_pr_we_need (v : bool) (r : peer) : peer :=
  mk_peer (pr_node_id r) (pr_inbound r) (pr_endpoint r) (pr_remote_endpoint r) (pr_ids_to_get r)
    (pr_being_processed r) (pr_unfetched r) (pr_peer_needs r) v (pr_ids_requested r)
    (pr_sync_requested r) (pr_last_number r) (pr_last_block r) (pr_last_time r) (pr_inhibit r)
    (pr_advertised_to_us r) (pr_advertised_to_peer r) (pr_requested r) (pr_trx_inhibited_until r)
    (pr_last_known_fork r) (pr_they_close r) (pr_we_close r) (pr_closed_time r) (pr_closed_error r)
    (pr_closed r) (pr_initiation_time r) (pr_terminated_time r) (pr_last_received r)
    (pr_last_sent r).
Definition set_pr_ids_requested (v : option (item_id * Z)) (r : peer) : peer :=
  mk_peer (pr_node_id r) (pr_inbound r) (pr_endpoint r) (pr_remote_endpoint r) (pr_ids_to_get r)
    (pr_being_processed r) (pr_unfetched r) (pr_peer_needs r) (pr_we_need r) v (pr_sync_requested r)
    (pr_last_number r) (pr_last_block r) (pr_last_time r) (pr_inhibit r) (pr_advertised_to_us r)
    (pr_advertised_to_peer r) (pr_requested r) (pr_trx_inhibited_until r) (pr_last_known_fork r)
    (pr_they_close r) (pr_we_close r) (pr_closed_time r) (pr_closed_error r) (pr_closed r)
    (pr_initiation_time r) (pr_terminated_time r) (pr_last_received r) (pr_last_sent r).
Definition set_pr_sync_requested (v : gmap item_id Z) (r : peer) : peer :=
  mk_peer (pr_node_id r) (pr_inbound r) (pr_endpoint r) (pr_remote_endpoint r) (pr_ids_to_get r)
    (pr_being_processed r) (pr_unfetched r) (pr_peer_needs r) (pr_we_need r) (pr_ids_requested r) v
    (pr_last_number r) (pr_last_block r) (pr_last_time r) (pr_inhibit r) (pr_advertised_to_us r)
    (pr_advertised_to_peer r) (pr_requested r) (pr_trx_inhibited_until r) (pr_last_known_fork r)
    (pr_they_close r) (pr_we_close r) (pr_closed_time r) (pr_closed_error r) (pr_closed r)
    (pr_initiation_time r) (pr_terminated_time r) (pr_last_received r) (pr_last_sent r).
Definition set_pr_last_number (v : Z) (r : peer) : peer :=
  mk_peer (pr_node_id r) (pr_inbound r) (pr_endpoint r) (pr_remote_endpoint r) (pr_ids_to_get r)
    (pr_being_processed r) (pr_unfetched r) (pr_peer_needs r) (pr_we_need r) (pr_ids_requested r)
    (pr_sync_requested r) v (pr_last_block r) (pr_last_time r) (pr_inhibit r)
    (pr_advertised_to_us r) (pr_advertised_to_peer r) (pr_requested r) (pr_trx_inhibited_until r)
    (pr_last_known_fork r) (pr_they_close r) (pr_we_close r) (pr_closed_time r) (pr_closed_error r)
    (pr_closed r) (pr_initiation_time r) (pr_terminated_time r) (pr_last_received r)
    (pr_last_sent r).
Definition set_pr_last_block (v : Z) (r : peer) : peer :=
  mk_peer (pr_node_id r) (pr_inbound r) (pr_endpoint r) (pr_remote_endpoint r) (pr_ids_to_get r)
    (pr_being_processed r) (pr_unfetched r) (pr_peer_needs r) (pr_we_need r) (pr_ids_requested r)
    (pr_sync_requested r) (pr_last_number r) v (pr_last_time r) (pr_inhibit r)
    (pr_advertised_to_us r) (pr_advertised_to_peer r) (pr_requested r) (pr_trx_inhibited_until r)
    (pr_last_known_fork r) (pr_they_close r) (pr_we_close r) (pr_closed_time r) (pr_closed_error r)
    (pr_closed r) (pr_initiation_time r) (pr_terminated_time r) (pr_last_received r)
    (pr_last_sent r).
Definition set_pr_last_time (v : Z) (r : peer) : peer :=
  mk_peer (pr_node_id r) (pr_inbound r) (pr_endpoint r) (pr_remote_endpoint r) (pr_ids_to_get r)
    (pr_being_processed r) (pr_unfetched r) (pr_peer_needs r) (pr_we_need r) (pr_ids_requested r)
    (pr_sync_requested r) (pr_last_number r) (pr_last_block r) v (pr_inhibit r)
    (pr_advertised_to_us r) (pr_advertised_to_peer r) (pr_requested r) (pr_trx_inhibited_until r)
    (pr_last_known_fork r) (pr_they_close r) (pr_we_close r) (pr_closed_time r) (pr_closed_error r)
    (pr_closed r) (pr_initiation_time r) (pr_terminated_time r) (pr_last_received r)
    (pr_last_sent r).
Definition set_pr_inhibit (v : bool) (r : peer) : peer :=
  mk_peer (pr_node_id r) (pr_inbound r) (pr_endpoint r) (pr_remote_endpoint r) (pr_ids_to_get r)
    (pr_being_processed r) (pr_unfetched r) (pr_peer_needs r) (pr_we_need r) (pr_ids_requested r)
    (pr_sync_requested r) (pr_last_number r) (pr_last_block r) (pr_last_time r) v
    (pr_advertised_to_us r) (pr_advertised_to_peer r) (pr_requested r) (pr_trx_inhibited_until r)
    (pr_last_known_fork r) (pr_they_close r) (pr_we_close r) (pr_closed_time r) (pr_closed_error r)
    (pr_closed r) (pr_initiation_time r) (pr_terminated_time r) (pr_last_received r)
    (pr_last_sent r).
Definition set_pr_advertised_to_us (v : gmap item_id Z) (r : peer) : peer :=
  mk_peer (pr_node_id r) (pr_inbound r) (pr_endpoint r) (pr_remote_endpoint r) (pr_ids_to_get r)
    (pr_being_processed r) (pr_unfetched r) (pr_peer_needs r) (pr_we_need r) (pr_ids_requested r)
    (pr_sync_requested r) (pr_last_number r) (pr_last_block r) (pr_last_time r) (pr_inhibit r) v
    (pr_advertised_to_peer r) (pr_requested r) (pr_trx_inhibited_until r) (pr_last_known_fork r)
    (pr_they_close r) (pr_we_close r) (pr_closed_time r) (pr_closed_error r) (pr_closed r)
    (pr_initiation_time r) (pr_terminated_time r) (pr_last_received r) (pr_last_sent r).
Definition set_pr_advertised_to_peer (v : gmap item_id Z) (r : peer) : peer :=
  mk_peer (pr_node_id r) (pr_inbound r) (pr_endpoint r) (pr_remote_endpoint r) (pr_ids_to_get r)
    (pr_being_processed r) (pr_unfetched r) (pr_peer_needs r) (pr_we_need r) (pr_ids_requested r)
    (pr_sync_requested r) (pr_last_number r) (pr_last_block r) (pr_last_time r) (pr_inhibit r)
    (pr_advertised_to_us r) v (pr_requested r) (pr_trx_inhibited_until r) (pr_last_known_fork r)
    (pr_they_close r) (pr_we_close r) (pr_closed_time r) (pr_closed_error r) (pr_closed r)
    (pr_initiation_time r) (pr_terminated_time r) (pr_last_received r) (pr_last_sent r).
Definition set_pr_requested (v : gmap item_id Z) (r : peer) : peer :=
  mk_peer (pr_node_id r) (pr_inbound r) (pr_endpoint r) (pr_remote_endpoint r) (pr_ids_to_get r)
    (pr_being_processed r) (pr_unfetched r) (pr_peer_needs r) (pr_we_need r) (pr_ids_requested r)
    (pr_sync_requested r) (pr_last_number r) (pr_last_block r) (pr_last_time r) (pr_inhibit r)
    (pr_advertised_to_us r) (pr_advertised_to_peer r) v (pr_trx_inhibited_until r)
    (pr_last_known_fork r) (pr_they_close r) (pr_we_close r) (pr_closed_time r) (pr_closed_error r)
    (pr_closed r) (pr_initiation_time r) (pr_terminated_time r) (pr_last_received r)
    (pr_last_sent r).
Definition set_pr_trx_inhibited_until (v : Z) (r : peer) : peer :=
  mk_peer (pr_node_id r) (pr_inbound r) (pr_endpoint r) (pr_remote_endpoint r) (pr_ids_to_get r)
    (pr_being_processed r) (pr_unfetched r) (pr_peer_needs r) (pr_we_need r) (pr_ids_requested r)
    (pr_sync_requested r) (pr_last_number r) (pr_last_block r) (pr_last_time r) (pr_inhibit r)
    (pr_advertised_to_us r) (pr_advertised_to_peer r) (pr_requested r) v (pr_last_known_fork r)
    (pr_they_close r) (pr_we_close r) (pr_closed_time r) (pr_closed_error r) (pr_closed r)
    (pr_initiation_time r) (pr_terminated_time r) (pr_last_received r) (pr_last_sent r).
Definition set_pr_last_known_fork (v : Z) (r : peer) : peer :=
  mk_peer (pr_node_id r) (pr_inbound r) (pr_endpoint r) (pr_remote_endpoint r) (pr_ids_to_get r)
    (pr_being_processed r) (pr_unfetched r) (pr_peer_needs r) (pr_we_need r) (pr_ids_requested r)
    (pr_sync_requested r) (pr_last_number r) (pr_last_block r) (pr_last_time r) (pr_inhibit r)
    (pr_advertised_to_us r) (pr_advertised_to_peer r) (pr_requested r) (pr_trx_inhibited_until r) v
    (pr_they_close r) (pr_we_close r) (pr_closed_time r) (pr_closed_error r) (pr_closed r)
    (pr_initiation_time r) (pr_terminated_time r) (pr_last_received r) (pr_last_sent r).
Definition set_pr_they_close (v : bool) (r : peer) : peer :=
  mk_peer (pr_node_id r) (pr_inbound r) (pr_endpoint r) (pr_remote_endpoint r) (pr_ids_to_get r)
    (pr_being_processed r) (pr_unfetched r) (pr_peer_needs r) (pr_we_need r) (pr_ids_requested r)
    (pr_sync_requested r) (pr_last_number r) (pr_last_block r) (pr_last_time r) (pr_inhibit r)
    (pr_advertised_to_us r) (pr_advertised_to_peer r) (pr_requested r) (pr_trx_inhibited_until r)
    (pr_last_known_fork r) v (pr_we_close r) (pr_closed_time r) (pr_closed_error r) (pr_closed r)
    (pr_initiation_time r) (pr_terminated_time r) (pr_last_received r) (pr_last_sent r).
Definition set_pr_we_close (v : bool) (r : peer) : peer :=
  mk_peer (pr_node_id r) (pr_inbound r) (pr_endpoint r) (pr_remote_endpoint r) (pr_ids_to_get r)
    (pr_being_processed r) (pr_unfetched r) (pr_peer_needs r) (pr_we_need r) (pr_ids_requested r)
    (pr_sync_requested r) (pr_last_number r) (pr_last_block r) (pr_last_time r) (pr_inhibit r)
    (pr_advertised_to_us r) (pr_advertised_to_peer r) (pr_requested r) (pr_trx_inhibited_until r)
    (pr_last_known_fork r) (pr_they_close r) v (pr_closed_time r) (pr_closed_error r) (pr_closed r)
    (pr_initiation_time r) (pr_terminated_time r) (pr_last_received r) (pr_last_sent r).
Definition set_pr_closed_time (v : Z) (r : peer) : peer :=
  mk_peer (pr_node_id r) (pr_inbound r) (pr_endpoint r) (pr_remote_endpoint r) (pr_ids_to_get r)
    (pr_being_processed r) (pr_unfetched r) (pr_peer_needs r) (pr_we_need r) (pr_ids_requested r)
    (pr_sync_requested r) (pr_last_number r) (pr_last_block r) (pr_last_time r) (pr_inhibit r)
    (pr_advertised_to_us r) (pr_advertised_to_peer r) (pr_requested r) (pr_trx_inhibited_until r)
    (pr_last_known_fork r) (pr_they_close r) (pr_we_close r) v (pr_closed_error r) (pr_closed r)
    (pr_initiation_time r) (pr_terminated_time r) (pr_last_received r) (pr_last_sent r).
Definition set_pr_closed_error (v : option closing_error) (r : peer) : peer :=
  mk_peer (pr_node_id r) (pr_inbound r) (pr_endpoint r) (pr_remote_endpoint r) (pr_ids_to_get r)
    (pr_being_processed r) (pr_unfetched r) (pr_peer_needs r) (pr_we_need r) (pr_ids_requested r)
    (pr_sync_requested r) (pr_last_number r) (pr_last_block r) (pr_last_time r) (pr_inhibit r)
    (pr_advertised_to_us r) (pr_advertised_to_peer r) (pr_requested r) (pr_trx_inhibited_until r)
    (pr_last_known_fork r) (pr_they_close r) (pr_we_close r) (pr_closed_time r) v (pr_closed r)
    (pr_initiation_time r) (pr_terminated_time r) (pr_last_received r) (pr_last_sent r).
Definition set_pr_closed (v : bool) (r : peer) : peer :=
  mk_peer (pr_node_id r) (pr_inbound r) (pr_endpoint r) (pr_remote_endpoint r) (pr_ids_to_get r)
    (pr_being_processed r) (pr_unfetched r) (pr_peer_needs r) (pr_we_need r) (pr_ids_requested r)
    (pr_sync_requested r) (pr_last_number r) (pr_last_block r) (pr_last_time r) (pr_inhibit r)
    (pr_advertised_to_us r) (pr_advertised_to_peer r) (pr_requested r) (pr_trx_inhibited_until r)
    (pr_last_known_fork r) (pr_they_close r) (pr_we_close r) (pr_closed_time r) (pr_closed_error r)
    v (pr_initiation_time r) (pr_terminated_time r) (pr_last_received r) (pr_last_sent r).
Definition set_pr_initiation_time (v : Z) (r : peer) : peer :=
  mk_peer (pr_node_id r) (pr_inbound r) (pr_endpoint r) (pr_remote_endpoint r) (pr_ids_to_get r)
    (pr_being_processed r) (pr_unfetched r) (pr_peer_needs r) (pr_we_need r) (pr_ids_requested r)
    (pr_sync_requested r) (pr_last_number r) (pr_last_block r) (pr_last_time r) (pr_inhibit r)
    (pr_advertised_to_us r) (pr_advertised_to_peer r) (pr_requested r) (pr_trx_inhibited_until r)
    (pr_last_known_fork r) (pr_they_close r) (pr_we_close r) (pr_closed_time r) (pr_closed_error r)
    (pr_closed r) v (pr_terminated_time r) (pr_last_received r) (pr_last_sent r).
Definition set_pr_terminated_time (v : Z) (r : peer) : peer :=
  mk_peer (pr_node_id r) (pr_inbound r) (pr_endpoint r) (pr_remote_endpoint r) (pr_ids_to_get r)
    (pr_being_processed r) (pr_unfetched r) (pr_peer_needs r) (pr_we_need r) (pr_ids_requested r)
    (pr_sync_requested r) (pr_last_number r) (pr_last_block r) (pr_last_time r) (pr_inhibit r)
    (pr_advertised_to_us r) (pr_advertised_to_peer r) (pr_requested r) (pr_trx_inhibited_until r)
    (pr_last_known_fork r) (pr_they_close r) (pr_we_close r) (pr_closed_time r) (pr_closed_error r)
    (pr_closed r) (pr_initiation_time r) v (pr_last_received r) (pr_last_sent r).
Definition set_pr_last_received (v : Z) (r : peer) : peer :=
  mk_peer (pr_node_id r) (pr_inbound r) (pr_endpoint r) (pr_remote_endpoint r) (pr_ids_to_get r)
    (pr_being_processed r) (pr_unfetched r) (pr_peer_needs r) (pr_we_need r) (pr_ids_requested r)
    (pr_sync_requested r) (pr_last_number r) (pr_last_block r) (pr_last_time r) (pr_inhibit r)
    (pr_advertised_to_us r) (pr_advertised_to_peer r) (pr_requested r) (pr_trx_inhibited_until r)
    (pr_last_known_fork r) (pr_they_close r) (pr_we_close r) (pr_closed_time r) (pr_closed_error r)
    (pr_closed r) (pr_initiation_time r) (pr_terminated_time r) v (pr_last_sent r).
Definition set_pr_last_sent (v : Z) (r : peer) : peer :=
  mk_peer (pr_node_id r) (pr_inbound r) (pr_endpoint r) (pr_remote_endpoint r) (pr_ids_to_get r)
    (pr_being_processed r) (pr_unfetched r) (pr_peer_needs r) (pr_we_need r) (pr_ids_requested r)
    (pr_sync_requested r) (pr_last_number r) (pr_last_block r) (pr_last_time r) (pr_inhibit r)
    (pr_advertised_to_us r) (pr_advertised_to_peer r) (pr_requested r) (pr_trx_inhibited_until r)
    (pr_last_known_fork r) (pr_they_close r) (pr_we_close r) (pr_closed_time r) (pr_closed_error r)
    (pr_closed r) (pr_initiation_time r) (pr_terminated_time r) (pr_last_received r) v.

(** [busy], [idle], [is_transaction_fetching_inhibited] *)
Definition busy (p : peer) : bool :=
  bool_decide (pr_requested p <> ∅) || bool_decide (pr_sync_requested p <> ∅)
  || bool_decide (pr_ids_requested p <> None).
Definition idle (p : peer) : bool := negb (busy p).
Definition is_transaction_fetching_inhibited (now : Z) (p : peer) : bool := pr_trx_inhibited_until p >? now.

(** [clear_old_inventory] *)
Definition clear_old_inventory (now : Z) (p : peer) : peer :=
  let oldest := to_sec (now - usec (60 * BTS_NET_MAX_INVENTORY_SIZE_IN_MINUTES)) in
  let keep := filter (fun it : item_id * Z => it.2 >= oldest) in
  set_pr_advertised_to_us (keep (pr_advertised_to_us p))
    (set_pr_advertised_to_peer (keep (pr_advertised_to_peer p)) p).

Definition max_inventory_trxs : Z :=
  BTS_NET_MAX_INVENTORY_SIZE_IN_MINUTES * BTS_BLOCKCHAIN_MAX_TRX_PER_SECOND * 60.
Definition is_inventory_full_for_transactions (p : peer) : bool :=
  Z.of_nat (size (pr_advertised_to_us p)) >? max_inventory_trxs.
Definition is_inventory_full (p : peer) : bool :=
  Z.of_nat (size (pr_advertised_to_us p))
  >? max_inventory_trxs + (BTS_NET_MAX_INVENTORY_SIZE_IN_MINUTES + 1) * 60 / BTS_BLOCKCHAIN_BLOCK_INTERVAL_SEC.

(** ** Items to fetch *)

(** [prioritized_item_id::operator <]: blocks before transactions, then in the order
    of the sequence numbers, which wrap. *)
Definition prioritized_ltb (a b : item_id * Z) : bool :=
  if negb (item_type a.1 =? item_type b.1) then item_type a.1 >? item_type b.1
  else wrap32 (b.2 - a.2) >? 0.
Fixpoint insert_by_priority (x : item_id * Z) (l : list (item_id * Z)) : list (item_id * Z) :=
  match l with
  | [] => [x]
  | y :: l' => if prioritized_ltb x y then x :: l else y :: insert_by_priority x l'
  end.
(** [_items_to_fetch.insert]: an item is there once, and so is a place in the order. *)
Definition insert_item (x : item_id * Z) (l : list (item_id * Z)) : bool * list (item_id * Z) :=
  if bool_decide (x.1 ∈ l.*1) || existsb (fun y => negb (prioritized_ltb x y) && negb (prioritized_ltb y x)) l
  then (false, l) else (true, insert_by_priority x l).

(** ** The client *)

(** What the node asks of its delegate ([node_delegate]): queries, and the handling
    of a message, which changes the delegate and may throw; and
    [as<block_message>()], which throws for a message of another type. *)
Class NodeDelegate (D : Type) := {
  dg_has_item : D -> item_id -> result bool;
  dg_get_item : D -> item_id -> result payload;
  dg_get_item_ids : D -> Z -> list Z -> result (list Z * Z);
  dg_get_blockchain_synopsis : D -> Z -> Z -> Z -> result (list Z);
  dg_handle_message : D -> payload -> bool -> D * result unit;
  dg_sync_status : D -> Z -> Z -> D;
  dg_error_encountered : D -> closing_reason -> D;
  dg_connection_count_changed : D -> Z -> D;
  dg_get_block_number : D -> Z -> result Z;
  dg_get_block_time : D -> Z -> result Z;
  dg_get_blockchain_now : D -> Z;
  as_block_message : payload -> result block_message
}.

(** ** The state of a node *)

Context {D : Type} `{ND : !NodeDelegate D}.

(** The limits [set_advanced_node_parameters] changes. *)
Record node_limits := mk_limits {
  li_blocks_to_handle : nat;  (* _maximum_number_of_blocks_to_handle_at_one_time *)
  li_blocks_to_prefetch : nat;  (* _maximum_number_of_sync_blocks_to_prefetch *)
  li_blocks_per_peer : nat;  (* _maximum_blocks_per_peer_during_syncing *)
  li_inactivity_timeout : Z  (* _peer_inactivity_timeout *)
}.

(** The members of [node_impl]: the connection objects by address and the lists they
    are in; the requests for blocks ([_active_sync_requests]), the blocks received and
    not yet looked at, those waiting for an earlier one, those the client is handling;
    the items to fetch, what is to be advertised; and the flags the loops wait for. *)
Record node := mk_node {
  nd_delegate : D;
  nd_peers : gmap Z peer;
  nd_handshaking : gset Z;
  nd_active : gset Z;
  nd_closing : gset Z;
  nd_terminating : gset Z;
  nd_sync_requests : gmap Z Z;
  nd_new_received : list block_message;
  nd_received : list block_message;
  nd_in_progress : list block_message;
  nd_suspend_fetching : bool;
  nd_items_to_fetch : list (item_id * Z);
  nd_sequence : Z;
  nd_new_inventory : gset item_id;
  nd_recent_blocks : list Z;
  nd_sync_item_type : Z;
  nd_unfetched_items : Z;
  nd_hard_forks : list Z;
  nd_cache : message_cache;
  nd_peer_db : peer_db;
  nd_outbox : list (Z * net_message);
  nd_fetch_updated : bool;
  nd_sync_fetch_updated : bool;
  nd_backlog_scheduled : bool;
  nd_last_reported : Z;
  nd_limits : node_limits
}.

Definition set_nd_delegate (v : D) (r : node) : node :=
  mk_node v (nd_peers r) (nd_handshaking r) (nd_active r) (nd_closing r) (nd_terminating r)
    (nd_sync_requests r) (nd_new_received r) (nd_received r) (nd_in_progress r)
    (nd_suspend_fetching r) (nd_items_to_fetch r) (nd_sequence r) (nd_new_inventory r)
    (nd_recent_blocks r) (nd_sync_item_type r) (nd_unfetched_items r) (nd_hard_forks r) (nd_cache r)
    (nd_peer_db r) (nd_outbox r) (nd_fetch_updated r) (nd_sync_fetch_updated r)
    (nd_backlog_scheduled r) (nd_last_reported r) (nd_limits r).
Definition set_nd_peers (v : gmap Z peer) (r : node) : node :=
  mk_node (nd_delegate r) v (nd_handshaking r) (nd_active r) (nd_closing r) (nd_terminating r)
    (nd_sync_requests r) (nd_new_received r) (nd_received r) (nd_in_progress r)
    (nd_suspend_fetching r) (nd_items_to_fetch r) (nd_sequence r) (nd_new_inventory r)
    (nd_recent_blocks r) (nd_sync_item_type r) (nd_unfetched_items r) (nd_hard_forks r) (nd_cache r)
    (nd_peer_db r) (nd_outbox r) (nd_fetch_updated r) (nd_sync_fetch_updated r)
    (nd_backlog_scheduled r) (nd_last_reported r) (nd_limits r).
Definition set_nd_handshaking (v : gset Z) (r : node) : node :=
  mk_node (nd_delegate r) (nd_peers r) v (nd_active r) (nd_closing r) (nd_terminating r)
    (nd_sync_requests r) (nd_new_received r) (nd_received r) (nd_in_progress r)
    (nd_suspend_fetching r) (nd_items_to_fetch r) (nd_sequence r) (nd_new_inventory r)
    (nd_recent_blocks r) (nd_sync_item_type r) (nd_unfetched_items r) (nd_hard_forks r) (nd_cache r)
    (nd_peer_db r) (nd_outbox r) (nd_fetch_updated r) (nd_sync_fetch_updated r)
    (nd_backlog_scheduled r) (nd_last_reported r) (nd_limits r).
Definition set_nd_active (v : gset Z) (r : node) : node :=
  mk_node (nd_delegate r) (nd_peers r) (nd_handshaking r) v (nd_closing r) (nd_terminating r)
    (nd_sync_requests r) (nd_new_received r) (nd_received r) (nd_in_progress r)
    (nd_suspend_fetching r) (nd_items_to_fetch r) (nd_sequence r) (nd_new_inventory r)
    (nd_recent_blocks r) (nd_sync_item_type r) (nd_unfetched_items r) (nd_hard_forks r) (nd_cache r)
    (nd_peer_db r) (nd_outbox r) (nd_fetch_updated r) (nd_sync_fetch_updated r)
    (nd_backlog_scheduled r) (nd_last_reported r) (nd_limits r).
Definition set_nd_closing (v : gset Z) (r : node) : node :=
  mk_node (nd_delegate r) (nd_peers r) (nd_handshaking r) (nd_active r) v (nd_terminating r)
    (nd_sync_requests r) (nd_new_received r) (nd_received r) (nd_in_progress r)
    (nd_suspend_fetching r) (nd_items_to_fetch r) (nd_sequence r) (nd_new_inventory r)
    (nd_recent_blocks r) (nd_sync_item_type r) (nd_unfetched_items r) (nd_hard_forks r) (nd_cache r)
    (nd_peer_db r) (nd_outbox r) (nd_fetch_updated r) (nd_sync_fetch_updated r)
    (nd_backlog_scheduled r) (nd_last_reported r) (nd_limits r).
Definition set_nd_terminating (v : gset Z) (r : node) : node :=
  mk_node (nd_delegate r) (nd_peers r) (nd_handshaking r) (nd_active r) (nd_closing r) v
    (nd_sync_requests r) (nd_new_received r) (nd_received r) (nd_in_progress r)
    (nd_suspend_fetching r) (nd_items_to_fetch r) (nd_sequence r) (nd_new_inventory r)
    (nd_recent_blocks r) (nd_sync_item_type r) (nd_unfetched_items r) (nd_hard_forks r) (nd_cache r)
    (nd_peer_db r) (nd_outbox r) (nd_fetch_updated r) (nd_sync_fetch_updated r)
    (nd_backlog_scheduled r) (nd_last_reported r) (nd_limits r).
Definition set_nd_sync_requests (v : gmap Z Z) (r : node) : node :=
  mk_node (nd_delegate r) (nd_peers r) (nd_handshaking r) (nd_active r) (nd_closing r)
    (nd_terminating r) v (nd_new_received r) (nd_received r) (nd_in_progress r)
    (nd_suspend_fetching r) (nd_items_to_fetch r) (nd_sequence r) (nd_new_inventory r)
    (nd_recent_blocks r) (nd_sync_item_type r) (nd_unfetched_items r) (nd_hard_forks r) (nd_cache r)
    (nd_peer_db r) (nd_outbox r) (nd_fetch_updated r) (nd_sync_fetch_updated r)
    (nd_backlog_scheduled r) (nd_last_reported r) (nd_limits r).
Definition set_nd_new_received (v : list block_message) (r : node) : node :=
  mk_node (nd_delegate r) (nd_peers r) (nd_handshaking r) (nd_active r) (nd_closing r)
    (nd_terminating r) (nd_sync_requests r) v (nd_received r) (nd_in_progress r)
    (nd_suspend_fetching r) (nd_items_to_fetch r) (nd_sequence r) (nd_new_inventory r)
    (nd_recent_blocks r) (nd_sync_item_type r) (nd_unfetched_items r) (nd_hard_forks r) (nd_cache r)
    (nd_peer_db r) (nd_outbox r) (nd_fetch_updated r) (nd_sync_fetch_updated r)
    (nd_backlog_scheduled r) (nd_last_reported r) (nd_limits r).
Definition set_nd_received (v : list block_message) (r : node) : node :=
  mk_node (nd_delegate r) (nd_peers r) (nd_handshaking r) (nd_active r) (nd_closing r)
    (nd_terminating r) (nd_sync_requests r) (nd_new_received r) v (nd_in_progress r)
    (nd_suspend_fetching r) (nd_items_to_fetch r) (nd_sequence r) (nd_new_inventory r)
    (nd_recent_blocks r) (nd_sync_item_type r) (nd_unfetched_items r) (nd_hard_forks r) (nd_cache r)
    (nd_peer_db r) (nd_outbox r) (nd_fetch_updated r) (nd_sync_fetch_updated r)
    (nd_backlog_scheduled r) (nd_last_reported r) (nd_limits r).
Definition set_nd_in_progress (v : list block_message) (r : node) : node :=
  mk_node (nd_delegate r) (nd_peers r) (nd_handshaking r) (nd_active r) (nd_closing r)
    (nd_terminating r) (nd_sync_requests r) (nd_new_received r) (nd_received r) v
    (nd_suspend_fetching r) (nd_items_to_fetch r) (nd_sequence r) (nd_new_inventory r)
    (nd_recent_blocks r) (nd_sync_item_type r) (nd_unfetched_items r) (nd_hard_forks r) (nd_cache r)
    (nd_peer_db r) (nd_outbox r) (nd_fetch_updated r) (nd_sync_fetch_updated r)
    (nd_backlog_scheduled r) (nd_last_reported r) (nd_limits r).
Definition set_nd_suspend_fetching (v : bool) (r : node) : node :=
  mk_node (nd_delegate r) (nd_peers r) (nd_handshaking r) (nd_active r) (nd_closing r)
    (nd_terminating r) (nd_sync_requests r) (nd_new_received r) (nd_received r) (nd_in_progress r) v
    (nd_items_to_fetch r) (nd_sequence r) (nd_new_inventory r) (nd_recent_blocks r)
    (nd_sync_item_type r) (nd_unfetched_items r) (nd_hard_forks r) (nd_cache r) (nd_peer_db r)
    (nd_outbox r) (nd_fetch_updated r) (nd_sync_fetch_updated r) (nd_backlog_scheduled r)
    (nd_last_reported r) (nd_limits r).
Definition set_nd_items_to_fetch (v : list (item_id * Z)) (r : node) : node :=
  mk_node (nd_delegate r) (nd_peers r) (nd_handshaking r) (nd_active r) (nd_closing r)
    (nd_terminating r) (nd_sync_requests r) (nd_new_received r) (nd_received r) (nd_in_progress r)
    (nd_suspend_fetching r) v (nd_sequence r) (nd_new_inventory r) (nd_recent_blocks r)
    (nd_sync_item_type r) (nd_unfetched_items r) (nd_hard_forks r) (nd_cache r) (nd_peer_db r)
    (nd_outbox r) (nd_fetch_updated r) (nd_sync_fetch_updated r) (nd_backlog_scheduled r)
    (nd_last_reported r) (nd_limits r).
Definition set_nd_sequence (v : Z) (r : node) : node :=
  mk_node (nd_delegate r) (nd_peers r) (nd_handshaking r) (nd_active r) (nd_closing r)
    (nd_terminating r) (nd_sync_requests r) (nd_new_received r) (nd_received r) (nd_in_progress r)
    (nd_suspend_fetching r) (nd_items_to_fetch r) v (nd_new_inventory r) (nd_recent_blocks r)
    (nd_sync_item_type r) (nd_unfetched_items r) (nd_hard_forks r) (nd_cache r) (nd_peer_db r)
    (nd_outbox r) (nd_fetch_updated r) (nd_sync_fetch_updated r) (nd_backlog_scheduled r)
    (nd_last_reported r) (nd_limits r).
Definition set_nd_new_inventory (v : gset item_id) (r : node) : node :=
  mk_node (nd_delegate r) (nd_peers r) (nd_handshaking r) (nd_active r) (nd_closing r)
    (nd_terminating r) (nd_sync_requests r) (nd_new_received r) (nd_received r) (nd_in_progress r)
    (nd_suspend_fetching r) (nd_items_to_fetch r) (nd_sequence r) v (nd_recent_blocks r)
    (nd_sync_item_type r) (nd_unfetched_items r) (nd_hard_forks r) (nd_cache r) (nd_peer_db r)
    (nd_outbox r) (nd_fetch_updated r) (nd_sync_fetch_updated r) (nd_backlog_scheduled r)
    (nd_last_reported r) (nd_limits r).
Definition set_nd_recent_blocks (v : list Z) (r : node) : node :=
  mk_node (nd_delegate r) (nd_peers r) (nd_handshaking r) (nd_active r) (nd_closing r)
    (nd_terminating r) (nd_sync_requests r) (nd_new_received r) (nd_received r) (nd_in_progress r)
    (nd_suspend_fetching r) (nd_items_to_fetch r) (nd_sequence r) (nd_new_inventory r) v
    (nd_sync_item_type r) (nd_unfetched_items r) (nd_hard_forks r) (nd_cache r) (nd_peer_db r)
    (nd_outbox r) (nd_fetch_updated r) (nd_sync_fetch_updated r) (nd_backlog_scheduled r)
    (nd_last_reported r) (nd_limits r).
Definition set_nd_sync_item_type (v : Z) (r : node) : node :=
  mk_node (nd_delegate r) (nd_peers r) (nd_handshaking r) (nd_active r) (nd_closing r)
    (nd_terminating r) (nd_sync_requests r) (nd_new_received r) (nd_received r) (nd_in_progress r)
    (nd_suspend_fetching r) (nd_items_to_fetch r) (nd_sequence r) (nd_new_inventory r)
    (nd_recent_blocks r) v (nd_unfetched_items r) (nd_hard_forks r) (nd_cache r) (nd_peer_db r)
    (nd_outbox r) (nd_fetch_updated r) (nd_sync_fetch_updated r) (nd_backlog_scheduled r)
    (nd_last_reported r) (nd_limits r).
Definition set_nd_unfetched_items (v : Z) (r : node) : node :=
  mk_node (nd_delegate r) (nd_peers r) (nd_handshaking r) (nd_active r) (nd_closing r)
    (nd_terminating r) (nd_sync_requests r) (nd_new_received r) (nd_received r) (nd_in_progress r)
    (nd_suspend_fetching r) (nd_items_to_fetch r) (nd_sequence r) (nd_new_inventory r)
    (nd_recent_blocks r) (nd_sync_item_type r) v (nd_hard_forks r) (nd_cache r) (nd_peer_db r)
    (nd_outbox r) (nd_fetch_updated r) (nd_sync_fetch_updated r) (nd_backlog_scheduled r)
    (nd_last_reported r) (nd_limits r).
Definition set_nd_hard_forks (v : list Z) (r : node) : node :=
  mk_node (nd_delegate r) (nd_peers r) (nd_handshaking r) (nd_active r) (nd_closing r)
    (nd_terminating r) (nd_sync_requests r) (nd_new_received r) (nd_received r) (nd_in_progress r)
    (nd_suspend_fetching r) (nd_items_to_fetch r) (nd_sequence r) (nd_new_inventory r)
    (nd_recent_blocks r) (nd_sync_item_type r) (nd_unfetched_items r) v (nd_cache r) (nd_peer_db r)
    (nd_outbox r) (nd_fetch_updated r) (nd_sync_fetch_updated r) (nd_backlog_scheduled r)
    (nd_last_reported r) (nd_limits r).
Definition set_nd_cache (v : message_cache) (r : node) : node :=
  mk_node (nd_delegate r) (nd_peers r) (nd_handshaking r) (nd_active r) (nd_closing r)
    (nd_terminating r) (nd_sync_requests r) (nd_new_received r) (nd_received r) (nd_in_progress r)
    (nd_suspend_fetching r) (nd_items_to_fetch r) (nd_sequence r) (nd_new_inventory r)
    (nd_recent_blocks r) (nd_sync_item_type r) (nd_unfetched_items r) (nd_hard_forks r) v
    (nd_peer_db r) (nd_outbox r) (nd_fetch_updated r) (nd_sync_fetch_updated r)
    (nd_backlog_scheduled r) (nd_last_reported r) (nd_limits r).
Definition set_nd_peer_db (v : peer_db) (r : node) : node :=
  mk_node (nd_delegate r) (nd_peers r) (nd_handshaking r) (nd_active r) (nd_closing r)
    (nd_terminating r) (nd_sync_requests r) (nd_new_received r) (nd_received r) (nd_in_progress r)
    (nd_suspend_fetching r) (nd_items_to_fetch r) (nd_sequence r) (nd_new_inventory r)
    (nd_recent_blocks r) (nd_sync_item_type r) (nd_unfetched_items r) (nd_hard_forks r) (nd_cache r)
    v (nd_outbox r) (nd_fetch_updated r) (nd_sync_fetch_updated r) (nd_backlog_scheduled r)
    (nd_last_reported r) (nd_limits r).
Definition set_nd_outbox (v : list (Z * net_message)) (r : node) : node :=
  mk_node (nd_delegate r) (nd_peers r) (nd_handshaking r) (nd_active r) (nd_closing r)
    (nd_terminating r) (nd_sync_requests r) (nd_new_received r) (nd_received r) (nd_in_progress r)
    (nd_suspend_fetching r) (nd_items_to_fetch r) (nd_sequence r) (nd_new_inventory r)
    (nd_recent_blocks r) (nd_sync_item_type r) (nd_unfetched_items r) (nd_hard_forks r) (nd_cache r)
    (nd_peer_db r) v (nd_fetch_updated r) (nd_sync_fetch_updated r) (nd_backlog_scheduled r)
    (nd_last_reported r) (nd_limits r).
Definition set_nd_fetch_updated (v : bool) (r : node) : node :=
  mk_node (nd_delegate r) (nd_peers r) (nd_handshaking r) (nd_active r) (nd_closing r)
    (nd_terminating r) (nd_sync_requests r) (nd_new_received r) (nd_received r) (nd_in_progress r)
    (nd_suspend_fetching r) (nd_items_to_fetch r) (nd_sequence r) (nd_new_inventory r)
    (nd_recent_blocks r) (nd_sync_item_type r) (nd_unfetched_items r) (nd_hard_forks r) (nd_cache r)
    (nd_peer_db r) (nd_outbox r) v (nd_sync_fetch_updated r) (nd_backlog_scheduled r)
    (nd_last_reported r) (nd_limits r).
Definition set_nd_sync_fetch_updated (v : bool) (r : node) : node :=
  mk_node (nd_delegate r) (nd_peers r) (nd_handshaking r) (nd_active r) (nd_closing r)
    (nd_terminating r) (nd_sync_requests r) (nd_new_received r) (nd_received r) (nd_in_progress r)
    (nd_suspend_fetching r) (nd_items_to_fetch r) (nd_sequence r) (nd_new_inventory r)
    (nd_recent_blocks r) (nd_sync_item_type r) (nd_unfetched_items r) (nd_hard_forks r) (nd_cache r)
    (nd_peer_db r) (nd_outbox r) (nd_fetch_updated r) v (nd_backlog_scheduled r)
    (nd_last_reported r) (nd_limits r).
Definition set_nd_backlog_scheduled (v : bool) (r : node) : node :=
  mk_node (nd_delegate r) (nd_peers r) (nd_handshaking r) (nd_active r) (nd_closing r)
    (nd_terminating r) (nd_sync_requests r) (nd_new_received r) (nd_received r) (nd_in_progress r)
    (nd_suspend_fetching r) (nd_items_to_fetch r) (nd_sequence r) (nd_new_inventory r)
    (nd_recent_blocks r) (nd_sync_item_type r) (nd_unfetched_items r) (nd_hard_forks r) (nd_cache r)
    (nd_peer_db r) (nd_outbox r) (nd_fetch_updated r) (nd_sync_fetch_updated r) v
    (nd_last_reported r) (nd_limits r).
Definition set_nd_last_reported (v : Z) (r : node) : node :=
  mk_node (nd_delegate r) (nd_peers r) (nd_handshaking r) (nd_active r) (nd_closing r)
    (nd_terminating r) (nd_sync_requests r) (nd_new_received r) (nd_received r) (nd_in_progress r)
    (nd_suspend_fetching r) (nd_items_to_fetch r) (nd_sequence r) (nd_new_inventory r)
    (nd_recent_blocks r) (nd_sync_item_type r) (nd_unfetched_items r) (nd_hard_forks r) (nd_cache r)
    (nd_peer_db r) (nd_outbox r) (nd_fetch_updated r) (nd_sync_fetch_updated r)
    (nd_backlog_scheduled r) v (nd_limits r).
Definition set_nd_limits (v : node_limits) (r : node) : node :=
  mk_node (nd_delegate r) (nd_peers r) (nd_handshaking r) (nd_active r) (nd_closing r)
    (nd_terminating r) (nd_sync_requests r) (nd_new_received r) (nd_received r) (nd_in_progress r)
    (nd_suspend_fetching r) (nd_items_to_fetch r) (nd_sequence r) (nd_new_inventory r)
    (nd_recent_blocks r) (nd_sync_item_type r) (nd_unfetched_items r) (nd_hard_forks r) (nd_cache r)
    (nd_peer_db r) (nd_outbox r) (nd_fetch_updated r) (nd_sync_fetch_updated r)
    (nd_backlog_scheduled r) (nd_last_reported r) v.

(** [peer->f = v] *)
Definition upd_peer (a : Z) (f : peer -> peer) (s : node) : node := set_nd_peers (alter f a (nd_peers s)) s.

End node.
