(* ===== verification/Node.v ===== *)
(** * Node: inventories and synchronisation with peers (net/node.cpp)

    What a node asks of its peers, offers them and does with what they send: the
    exchange of inventories, the synchronisation of blocks, the handling of blocks
    and other messages and the closing of connections.  A handler runs as one step:
    the fibers of the code give way only where they call the client.  A message is
    sent by adding it to the outbox; [now] is [fc::time_point::now()] in
    microseconds, and [fresh] what a local variable that is never assigned holds. *)
From stdpp Require Import sorting.
From S2P Require Import Prelude Config Fc Asset Records Blocks Forks Chain Eff Client NodeState.
Local Open Scope Z_scope.

Section node.
Context {NM : NodeMessages} {D : Type} {ND : NodeDelegate D} (fresh : Z).
Local Abbreviation node := (@node NM D).

(** ** Peers *)

Definition get_peer (a : Z) : eff node peer := reads (fun s => require (nd_peers s !! a) memory_fault).
Definition on_peer (a : Z) (f : peer -> peer) : eff node unit := update (upd_peer a f).
Definition active_peers (s : node) : list (Z * peer) :=
  omap (fun a => pair a <$> nd_peers s !! a) (elements (nd_active s)).
(** [for( peer : _active_connections ) f( peer )] *)
Definition for_active (f : Z -> peer -> eff node unit) : eff node unit :=
  l ← reads (fun s => Ok (elements (nd_active s)));
  eff_each (fun a => p ← get_peer a; f a p) l.

Definition enqueue_message (a : Z) (m : net_message) : eff node unit :=
  update (fun s => set_nd_outbox (nd_outbox s ++ [(a, m)]) s).
(** [close_connection]: the time is set only if it has been set before. *)
Definition close_connection (now : Z) (p : peer) : peer :=
  set_pr_closed true
    (if pr_terminated_time p =? 0 then p else set_pr_terminated_time now p).

Definition trigger_fetch_sync_items_loop : eff node unit := update (set_nd_sync_fetch_updated true).
Definition trigger_fetch_items_loop : eff node unit := update (set_nd_fetch_updated true).
Definition trigger_process_backlog_of_sync_blocks : eff node unit := update (set_nd_backlog_scheduled true).

Definition tell_delegate (f : D -> D) : eff node unit := update (fun s => set_nd_delegate (f (nd_delegate s)) s).
Definition delegate_handles (p : payload) (sync_mode : bool) : eff node unit := fun s =>
  let '(d, r) := dg_handle_message (nd_delegate s) p sync_mode in (set_nd_delegate d s, r).
Definition delegate_has (i : item_id) : eff node bool := reads (fun s => dg_has_item (nd_delegate s) i).
Definition ask_delegate {A} (f : D -> result A) : eff node A := reads (fun s => f (nd_delegate s)).

(** [move_peer_to_active_list], [move_peer_to_closing_list],
    [move_peer_to_terminating_list] *)
Definition move_peer_to_active_list (a : Z) (s : node) : node :=
  set_nd_active ({[ a ]} ∪ nd_active s) (set_nd_handshaking (nd_handshaking s ∖ {[ a ]})
    (set_nd_closing (nd_closing s ∖ {[ a ]}) (set_nd_terminating (nd_terminating s ∖ {[ a ]}) s))).
Definition move_peer_to_closing_list (a : Z) (s : node) : node :=
  set_nd_active (nd_active s ∖ {[ a ]}) (set_nd_handshaking (nd_handshaking s ∖ {[ a ]})
    (set_nd_closing ({[ a ]} ∪ nd_closing s) (set_nd_terminating (nd_terminating s ∖ {[ a ]}) s))).
Definition move_peer_to_terminating_list (a : Z) (s : node) : node :=
  set_nd_active (nd_active s ∖ {[ a ]}) (set_nd_handshaking (nd_handshaking s ∖ {[ a ]})
    (set_nd_closing (nd_closing s ∖ {[ a ]}) (set_nd_terminating ({[ a ]} ∪ nd_terminating s) s))).

(** A record of the database of peers, if there is one, is changed by [f]. *)
Definition update_known_peer (endpoint : Z) (f : potential_peer_record -> potential_peer_record)
    : eff node unit :=
  update (fun s =>
    match lookup_peer endpoint (nd_peer_db s) with
    | Some r => set_nd_peer_db (update_entry fresh (f r) (nd_peer_db s)) s
    | None => s
    end).

(** [disconnect_from_peer] *)
Definition disconnect_from_peer (now : Z) (a : Z) (reason : closing_reason) (caused_by_error : bool)
    (e : option closing_error) : eff node unit :=
  _ ← update (move_peer_to_closing_list a);
  p ← get_peer a;
  _ ← (if pr_they_close p then on_peer a (close_connection now)
       else
         _ ← (match pr_endpoint p with
              | Some endpoint =>
                  update_known_peer endpoint (fun r =>
                    set_pp_last_error (Some (default (told_reason reason) e)) (set_pp_last_seen_time (to_sec now) r))
              | None => mret tt
              end);
         _ ← on_peer a (fun p => set_pr_closed_time now (set_pr_we_close true p));
         enqueue_message a (closing_connection_message reason caused_by_error));
  if caused_by_error then tell_delegate (fun d => dg_error_encountered d reason) else mret tt.

(** ** Broadcasting *)

(** [_most_recent_blocks_accepted.push_back]: a ring of the last two hundred. *)
Definition push_recent_block (id : Z) (l : list Z) : list Z :=
  drop (length l + 1 - BTS_NET_DEFAULT_MAX_CONNECTIONS) (l ++ [id]).
Definition note_accepted (id : Z) : eff node unit :=
  update (fun s => set_nd_recent_blocks (push_recent_block id (nd_recent_blocks s)) s).

(** [broadcast] *)
Definition broadcast (item_to_broadcast : payload) (propagation_data : message_propagation_data) : eff node unit :=
  hash_of_message_contents ←
    (if payload_type item_to_broadcast =? block_item then
       b ← lift (as_block_message item_to_broadcast);
       _ ← note_accepted (bm_block_id b);
       mret (bm_block_id b)
     else if payload_type item_to_broadcast =? trx_item then lift (trx_id_of item_to_broadcast)
     else mret 0);
  let hash := payload_id item_to_broadcast in
  _ ← update (fun s =>
        set_nd_cache (cache_message item_to_broadcast hash propagation_data hash_of_message_contents (nd_cache s)) s);
  update (fun s => set_nd_new_inventory ({[ mk_item (payload_type item_to_broadcast) hash ]} ∪ nd_new_inventory s) s).

(** [sync_from] *)
Definition sync_from (current_head_block : item_id) (hard_fork_block_numbers : list Z) (s : node) : node :=
  set_nd_recent_blocks [item_hash current_head_block] (set_nd_sync_item_type (item_type current_head_block)
    (set_nd_hard_forks hard_fork_block_numbers s)).

(** [is_hard_fork_block], [get_next_known_hard_fork_block_number]: the numbers are in
    order. *)
Definition is_hard_fork_block (block_number : Z) (s : node) : bool := bool_decide (block_number ∈ nd_hard_forks s).
Definition get_next_known_hard_fork_block_number (block_number : Z) (s : node) : Z :=
  default 0 (snd <$> list_find (fun n => n > block_number) (nd_hard_forks s)).
(** A peer that does not know a fork up to this block. *)
Definition is_outdated (block_num : Z) (p : peer) (s : node) : bool :=
  negb (pr_last_known_fork p =? 0) &&
  (let next := get_next_known_hard_fork_block_number (pr_last_known_fork p) s in
   negb (next =? 0) && (next <=? block_num)).

(** ** Asking a peer for its blocks *)

(** The [do ... while] loop of [create_blockchain_synopsis_for_peer], which adds ids of
    the peer's list after the reference point. *)
Fixpoint peer_synopsis_loop (fuel : nat) (ids : list Z) (reference true_high low : Z) : result (list Z) :=
  match fuel with
  | O => Err assertion_abort
  | S fuel =>
      item ← (if low >? reference
              then x ← require (ids !! Z.to_nat (wrapu32 (low - reference - 1))) memory_fault; Ok [x]
              else Ok []);
      let low := next_low true_high low in
      if low <=? true_high
      then rest ← peer_synopsis_loop fuel ids reference true_high low; Ok (item ++ rest)
      else Ok item
  end.

(** [create_blockchain_synopsis_for_peer] *)
Definition create_blockchain_synopsis_for_peer (p : peer) : eff node (list Z) :=
  let reference_point := pr_last_block p in
  let reference_point_block_num := pr_last_number p in
  let ids := pr_ids_to_get p in
  let number_of_blocks_after_reference_point := wrapu32 (Z.of_nat (length ids)) in
  synopsis ← reads (fun s => dg_get_blockchain_synopsis (nd_delegate s) (nd_sync_item_type s) reference_point
                               number_of_blocks_after_reference_point);
  _ ← lift (if (reference_point =? 0) || bool_decide (synopsis <> []) then Ok tt else Err assertion_abort);
  if number_of_blocks_after_reference_point =? 0 then mret synopsis
  else
    let true_high := wrapu32 (reference_point_block_num + number_of_blocks_after_reference_point) in
    rest ← lift (peer_synopsis_loop (S (Z.to_nat true_high)) ids reference_point_block_num true_high 1);
    let synopsis := synopsis ++ rest in
    _ ← lift (if bool_decide (last synopsis = last ids) then Ok tt else Err assertion_abort);
    mret synopsis.

(** [fetch_next_batch_of_item_ids_from_peer], which no caller asks to reset the
    peer's fork tracking data. *)
Definition fetch_next_batch_of_item_ids_from_peer (now a : Z) : eff node unit :=
  p ← get_peer a;
  blockchain_synopsis ← create_blockchain_synopsis_for_peer p;
  let last_item_seen := default 0 (last blockchain_synopsis) in
  type ← reads (fun s => Ok (nd_sync_item_type s));
  _ ← on_peer a (set_pr_ids_requested (Some (mk_item type last_item_seen, now)));
  enqueue_message a (fetch_blockchain_item_ids_message type blockchain_synopsis).

(** [start_synchronizing_with_peer], [start_synchronizing], [new_peer_just_added] *)
Definition start_synchronizing_with_peer (now a : Z) : eff node unit :=
  _ ← on_peer a (fun p => set_pr_last_number 0 (set_pr_last_block 0 (set_pr_we_need true
        (set_pr_unfetched 0 (set_pr_ids_to_get [] p)))));
  time ← ask_delegate (fun d => dg_get_block_time d 0);
  _ ← on_peer a (fun p => set_pr_inhibit false (set_pr_last_time time p));
  fetch_next_batch_of_item_ids_from_peer now a.
Definition start_synchronizing (now : Z) : eff node unit :=
  for_active (fun a _ => start_synchronizing_with_peer now a).

Definition report_connections : eff node unit :=
  n ← reads (fun s => Ok (Z.of_nat (size (nd_active s))));
  reported ← reads (fun s => Ok (nd_last_reported s));
  if n =? reported then mret tt
  else
    _ ← update (set_nd_last_reported (wrapu32 n));
    tell_delegate (fun d => dg_connection_count_changed d (wrapu32 n)).
Definition new_peer_just_added (now a : Z) : eff node unit :=
  _ ← enqueue_message a current_time_request_message;
  _ ← start_synchronizing_with_peer now a;
  report_connections.

(** [on_fetch_blockchain_item_ids_message]: another round of synchronisation if the
    client does not know the peer's last block. *)
Definition resync_if_unknown (now a type : Z) (synopsis : list Z) : eff node unit :=
  match last synopsis with
  | Some peers_last_item_seen =>
      known ← delegate_has (mk_item type peers_last_item_seen);
      if known : bool then mret tt else start_synchronizing_with_peer now a
  | None => mret tt
  end.
Definition on_fetch_blockchain_item_ids_message (now a : Z) (type : Z) (synopsis : list Z) : eff node unit :=
  answer ← ask_delegate (fun d => dg_get_item_ids d type synopsis);
  let '(available, remaining) := answer in
  p ← get_peer a;
  let same_last := bool_decide (synopsis <> []) && bool_decide (length available = 1%nat)
                   && bool_decide (last available = last synopsis) in
  let in_sync := bool_decide (available = []) || same_last in
  let disconnect_from_inhibited_peer := bool_decide (available <> []) && same_last && pr_inhibit p in
  _ ← on_peer a (set_pr_peer_needs (negb in_sync));
  _ ← (if pr_we_need p then mret tt else resync_if_unknown now a type synopsis);
  _ ← enqueue_message a (blockchain_item_ids_inventory_message remaining type available);
  if disconnect_from_inhibited_peer then disconnect_from_peer now a fork_too_old false None
  else
    handshaking ← reads (fun s => Ok (bool_decide (a ∈ nd_handshaking s)));
    if pr_inbound p && handshaking then
      _ ← (match pr_endpoint p with
           | Some endpoint =>
               update (fun s : node =>
                 let r := lookup_or_create_peer endpoint (nd_peer_db s) in
                 set_nd_peer_db (update_entry fresh (set_pp_disposition last_connection_succeeded r) (nd_peer_db s)) s)
           | None => mret tt
           end);
      _ ← update (move_peer_to_active_list a);
      new_peer_just_added now a
    else mret tt.

(** ** The answer: ids of blocks *)

(** [calculate_unsynced_block_count_from_all_peers] *)
Definition calculate_unsynced_block_count_from_all_peers (s : node) : Z :=
  foldl (fun m x => Z.max m (wrapu32 (wrapu32 (Z.of_nat (length (pr_ids_to_get x.2))) + pr_unfetched x.2)))
    0 (active_peers s).

(** The [while] loop that drops the ids of blocks the client has. *)
Fixpoint pop_known_items (a type : Z) (item_hashes_received : list Z) : eff node (list Z) :=
  match item_hashes_received with
  | [] => mret []
  | h :: l =>
      known ← delegate_has (mk_item type h);
      if known : bool then
        _ ← lift (if h =? 0 then Err assertion_abort else Ok tt);
        _ ← on_peer a (fun p => set_pr_last_number (wrapu32 (pr_last_number p + 1)) (set_pr_last_block h p));
        time ← ask_delegate (fun d => dg_get_block_time d h);
        _ ← on_peer a (set_pr_last_time time);
        pop_known_items a type l
      else mret item_hashes_received
  end.

(** The items of the list up to the last one that is [h]. *)
Fixpoint pop_back_until (h : Z) (rev_ids : list Z) : list Z :=
  match rev_ids with
  | [] => []
  | x :: l => if x =? h then rev_ids else pop_back_until h l
  end.

(** What is left to append of the ids a peer sent: without those the client has if the
    peer's list is empty, and joined to the end of the list if it is not. *)
Definition trim_received_items (a type : Z) (received : list Z) : eff node (list Z) :=
  p ← get_peer a;
  match received with
  | [] => mret []
  | front :: rest =>
      if bool_decide (pr_ids_to_get p = []) then
        is_first_item_for_other_peer ← reads (fun s =>
          Ok (existsb (fun x => negb (x.1 =? a) && bool_decide (head (pr_ids_to_get x.2) = Some front)) (active_peers s)));
        if is_first_item_for_other_peer : bool then mret received else pop_known_items a type received
      else
        let left := reverse (pop_back_until front (reverse (pr_ids_to_get p))) in
        _ ← on_peer a (set_pr_ids_to_get left);
        if bool_decide (left = []) then
          sync_type ← reads (fun s => Ok (nd_sync_item_type s));
          known ← delegate_has (mk_item sync_type front);
          _ ← lift (if known : bool then Ok tt else Err assertion_abort);
          _ ← on_peer a (set_pr_last_block front);
          num ← ask_delegate (fun d => dg_get_block_number d front);
          _ ← on_peer a (set_pr_last_number num);
          time ← ask_delegate (fun d => dg_get_block_time d front);
          _ ← on_peer a (set_pr_last_time time);
          mret rest
        else
          _ ← on_peer a (set_pr_ids_to_get (take (length left - 1) left));
          mret received
  end.

(** What comes after the list: more ids, or the blocks. *)
Definition after_item_ids (now a type total_remaining_item_count : Z) : eff node unit :=
  new_number ← reads (fun s => Ok (calculate_unsynced_block_count_from_all_peers s));
  old_number ← reads (fun s => Ok (nd_unfetched_items s));
  _ ← (if new_number =? old_number then mret tt else tell_delegate (fun d => dg_sync_status d type new_number));
  _ ← update (set_nd_unfetched_items new_number);
  p ← get_peer a;
  if negb (total_remaining_item_count =? 0) then
    if (BTS_NET_MIN_BLOCK_IDS_TO_PREFETCH <? length (pr_ids_to_get p))%nat then trigger_fetch_sync_items_loop
    else fetch_next_batch_of_item_ids_from_peer now a
  else if bool_decide (pr_ids_to_get p <> []) then trigger_fetch_sync_items_loop
  else fetch_next_batch_of_item_ids_from_peer now a.

(** [on_blockchain_item_ids_inventory_message] *)
Definition on_blockchain_item_ids_inventory_message (now a : Z) (total_remaining_item_count type : Z)
    (item_hashes_available : list Z) : eff node unit :=
  p ← get_peer a;
  if bool_decide (pr_ids_requested p = None) then mret tt
  else
    _ ← on_peer a (set_pr_ids_requested None);
    seen_last ← (if negb (total_remaining_item_count =? 0) then mret false
                 else match item_hashes_available with
                      | [] => mret true
                      | [h] => delegate_has (mk_item type h)
                      | _ => mret false
                      end);
    if seen_last && bool_decide (pr_ids_to_get p = [])
       && (pr_unfetched p =? 0)
    then
      _ ← on_peer a (set_pr_we_need false);
      new_number ← reads (fun s => Ok (calculate_unsynced_block_count_from_all_peers s));
      _ ← update (set_nd_unfetched_items new_number);
      if new_number =? 0 then tell_delegate (fun d => dg_sync_status d type 0) else mret tt
    else
      _ ← on_peer a (set_pr_unfetched total_remaining_item_count);
      received ← trim_received_items a type item_hashes_available;
      p ← get_peer a;
      _ ← lift (match head received, last (pr_ids_to_get p) with
                | Some x, Some y => if x =? y then Err assertion_abort else Ok tt
                | _, _ => Ok tt
                end);
      _ ← on_peer a (fun p => set_pr_unfetched total_remaining_item_count
                                (set_pr_ids_to_get (pr_ids_to_get p ++ received) p));
      chain_now ← reads (fun s => Ok (dg_get_blockchain_now (nd_delegate s)));
      let minimum_time_of_last_offered_block :=
        wrapu32 (pr_last_time p + wrapu32 (total_remaining_item_count * BTS_BLOCKCHAIN_BLOCK_INTERVAL_SEC)) in
      if minimum_time_of_last_offered_block >? chain_now + BTS_NET_FUTURE_SYNC_BLOCKS_GRACE_PERIOD_SEC
      then disconnect_from_peer now a implausible_block_count true (Some (told_reason implausible_block_count))
      else after_item_ids now a type total_remaining_item_count.

(** ** Requests for items *)

(** One item of [on_fetch_items_message]: from the cache, else from the client. *)
Definition find_item (type hash : Z) (s : node) : result (net_message * option payload) :=
  match get_message hash (nd_cache s) with
  | Ok p => Ok (data_message p, if type =? block_item then Some p else None)
  | Err _ =>
      match dg_get_item (nd_delegate s) (mk_item type hash) with
      | Ok p => Ok (data_message p, if type =? block_item then Some p else None)
      | Err key_not_found_exception => Ok (item_not_available_message (mk_item type hash), None)
      | Err e => Err e
      end
  end.

(** [on_fetch_items_message] *)
Definition on_fetch_items_message (a type : Z) (items_to_fetch : list Z) : eff node unit :=
  replies ← reads (fun s => mapM (fun h => find_item type h s) items_to_fetch);
  _ ← (match last (omap snd replies) with
       | Some last_block_message_sent =>
           b ← lift (as_block_message last_block_message_sent);
           _ ← on_peer a (set_pr_last_block (bm_block_id b));
           num ← ask_delegate (fun d => dg_get_block_number d (bm_block_id b));
           _ ← on_peer a (set_pr_last_number num);
           time ← ask_delegate (fun d => dg_get_block_time d (bm_block_id b));
           on_peer a (set_pr_last_time time)
       | None => mret tt
       end);
  eff_each (fun r : net_message * option payload => enqueue_message a r.1) replies.

(** [is_item_in_any_peers_inventory] *)
Definition is_item_in_any_peers_inventory (i : item_id) (s : node) : bool :=
  existsb (fun x => bool_decide (is_Some (pr_advertised_to_us x.2 !! i))) (active_peers s).

(** [_items_to_fetch.insert(prioritized_item_id(i, _items_to_fetch_sequence_counter++))] *)
Definition want_item (i : item_id) : eff node bool := fun s =>
  let '(inserted, l) := insert_item (i, nd_sequence s) (nd_items_to_fetch s) in
  (set_nd_sequence (wrapu32 (nd_sequence s + 1)) (set_nd_items_to_fetch l s), Ok inserted).
Definition want_offered_item (i : item_id) : eff node unit :=
  offered ← reads (fun s => Ok (is_item_in_any_peers_inventory i s));
  if offered : bool then _ ← want_item i; mret tt else mret tt.

(** [on_item_not_available_message] *)
Definition on_item_not_available_message (now a : Z) (i : item_id) : eff node unit :=
  p ← get_peer a;
  if bool_decide (is_Some (pr_requested p !! i)) then
    _ ← on_peer a (fun p => set_pr_advertised_to_us (delete i (pr_advertised_to_us p))
                              (set_pr_requested (delete i (pr_requested p)) p));
    _ ← want_offered_item i;
    trigger_fetch_items_loop
  else if bool_decide (is_Some (pr_sync_requested p !! i)) then
    _ ← on_peer a (fun p => set_pr_sync_requested (delete i (pr_sync_requested p)) p);
    _ ← (if pr_peer_needs p then on_peer a (set_pr_inhibit true)
         else disconnect_from_peer now a missing_sync_item true (Some (told_reason missing_sync_item)));
    trigger_fetch_sync_items_loop
  else mret tt.

(** One item of [on_item_ids_inventory_message]; the loop ends when the inventory is
    full, [false]. *)
Definition note_advertised (now a : Z) (go_on : bool) (i : item_id) : eff node bool :=
  if negb go_on then mret false
  else
    let offered_by_us x := bool_decide (is_Some (pr_advertised_to_peer (x : Z * peer).2 !! i)) in
    l ← reads (fun s => Ok (active_peers s));
    let we_advertised := existsb offered_by_us l in
    let we_requested := existsb (fun x => bool_decide (is_Some (pr_requested (x : Z * peer).2 !! i))) l in
    if we_advertised then mret true
    else
      p ← get_peer a;
      if ((item_type i =? trx_item) && is_inventory_full_for_transactions p) || is_inventory_full p
      then mret false
      else
        _ ← on_peer a (fun p => if bool_decide (is_Some (pr_advertised_to_us p !! i)) then p
              else set_pr_advertised_to_us (<[i := to_sec now]> (pr_advertised_to_us p)) p);
        if we_requested then mret true
        else
          inserted ← want_item i;
          _ ← (if inserted : bool then trigger_fetch_items_loop else mret tt);
          mret true.

(** [on_item_ids_inventory_message] *)
Definition on_item_ids_inventory_message (now a type : Z) (item_hashes_available : list Z) : eff node unit :=
  _ ← on_peer a (clear_old_inventory now);
  _ ← eff_fold (note_advertised now a) true (map (mk_item type) item_hashes_available);
  mret tt.

(** [on_closing_connection_message] *)
Definition on_closing_connection_message (now a : Z) (reason : closing_reason) (due_to_error : bool) : eff node unit :=
  _ ← on_peer a (set_pr_they_close true);
  _ ← (if due_to_error then tell_delegate (fun d => dg_error_encountered d reason) else mret tt);
  p ← get_peer a;
  if pr_we_close p then on_peer a (close_connection now) else mret tt.

(** [schedule_peer_for_deletion]: the connection is in no list any more. *)
Definition schedule_peer_for_deletion (a : Z) : eff node unit :=
  _ ← reads (fun s =>
        if bool_decide (a ∈ nd_handshaking s ∪ nd_active s ∪ nd_closing s ∪ nd_terminating s)
        then Err assertion_abort else Ok tt);
  update (fun s => set_nd_peers (delete a (nd_peers s)) s).

(** What [on_connection_closed] does to the lists of connections and to the records
    of peers; the endpoint of an active peer is used without looking whether there is
    one. *)
Definition forget_connection (now a : Z) : eff node unit :=
  p ← get_peer a;
  _ ← (match pr_closed_error p, pr_endpoint p with
       | Some e, Some endpoint => update_known_peer endpoint (set_pp_last_error (Some e))
       | _, _ => mret tt
       end);
  _ ← update (fun s => set_nd_closing (nd_closing s ∖ {[ a ]}) (set_nd_handshaking (nd_handshaking s ∖ {[ a ]})
        (set_nd_terminating (nd_terminating s ∖ {[ a ]}) s)));
  was_active ← reads (fun s => Ok (bool_decide (a ∈ nd_active s)));
  if negb was_active then mret tt
  else
    _ ← update (fun s => set_nd_active (nd_active s ∖ {[ a ]}) s);
    match pr_remote_endpoint p with
    | Some _ =>
        endpoint ← lift (require (pr_endpoint p) assertion_abort);
        update_known_peer endpoint (set_pp_last_seen_time (to_sec now))
    | None => mret tt
    end.

(** Requests the peer has not answered are to be made of another peer. *)
Definition reschedule_requests (p : peer) : eff node unit :=
  _ ← (if bool_decide (pr_sync_requested p = ∅) then mret tt
       else
         _ ← update (fun s => set_nd_sync_requests
               (foldr (fun i m => delete (item_hash i) m) (nd_sync_requests s) (map_to_list (pr_sync_requested p)).*1) s);
         trigger_fetch_sync_items_loop);
  if bool_decide (pr_requested p = ∅) then mret tt
  else
    _ ← eff_each want_offered_item (map_to_list (pr_requested p)).*1;
    trigger_fetch_items_loop.

(** [on_connection_closed] *)
Definition on_connection_closed (now a : Z) : eff node unit :=
  _ ← forget_connection now a;
  _ ← report_connections;
  p ← get_peer a;
  _ ← reschedule_requests p;
  schedule_peer_for_deletion a.

(** ** Blocks received during synchronisation *)

(** [have_already_received_sync_item] *)
Definition have_already_received_sync_item (h : Z) (s : node) : bool :=
  existsb (fun b => bm_block_id b =? h) (nd_received s) || existsb (fun b => bm_block_id b =? h) (nd_new_received s).

(** What the client makes of a block. *)
Inductive sync_outcome := client_accepted | client_cannot_switch | client_rejected (e : error).
Definition push_sync_block (b : block_message) : eff node sync_outcome := fun s =>
  match delegate_handles (bm_message b) true s with
  | (s, Ok _) => (set_nd_recent_blocks (push_recent_block (bm_block_id b) (nd_recent_blocks s)) s, Ok client_accepted)
  | (s, Err net_block_older_than_undo_history) => (s, Ok client_cannot_switch)
  | (s, Err e) => if uncaught e then (s, Err e) else (s, Ok (client_rejected e))
  end.

(** The lists [send_sync_block_to_node_delegate] builds up and then works off. *)
Record sync_duties := mk_duties {
  du_disconnect : list (Z * (closing_reason * closing_error));
  du_newly_empty : list Z;
  du_sync_to : list Z
}.
Definition duties_disconnect (a : Z) (r : closing_reason) (e : closing_error) (d : sync_duties) : sync_duties :=
  mk_duties (du_disconnect d ++ [(a, (r, e))]) (du_newly_empty d) (du_sync_to d).
Definition duties_newly_empty (a : Z) (d : sync_duties) : sync_duties :=
  mk_duties (du_disconnect d) (du_newly_empty d ++ [a]) (du_sync_to d).
Definition duties_sync_to (a : Z) (d : sync_duties) : sync_duties :=
  mk_duties (du_disconnect d) (du_newly_empty d) (du_sync_to d ++ [a]).

(** A peer after the client has accepted the block. *)
Definition after_accepted (b : block_message) (is_fork_block : bool) (d : sync_duties) (a : Z) : eff node sync_duties :=
  p ← get_peer a;
  outdated ← reads (fun s => Ok (is_fork_block && is_outdated (bm_block_num b) p s));
  if outdated : bool then
    mret (duties_disconnect a (upgrade_needed (bm_block_num b)) (told_reason (upgrade_needed (bm_block_num b))) d)
  else if bool_decide (pr_ids_to_get p = []) && bool_decide (pr_being_processed p = ∅) then
    mret (if negb (pr_peer_needs p) && negb (pr_we_need p) then duties_sync_to a d else d)
  else if bool_decide (bm_block_id b ∈ pr_being_processed p) then
    let left := pr_being_processed p ∖ {[ bm_block_id b ]} in
    _ ← on_peer a (fun p => set_pr_being_processed left (set_pr_last_time (bm_timestamp b)
          (set_pr_last_number (bm_block_num b) (set_pr_last_block (bm_block_id b) p))));
    mret (if bool_decide (pr_ids_to_get p = []) && (pr_unfetched p =? 0) && bool_decide (left = ∅)
          then duties_newly_empty a d else d)
  else mret d.

(** A peer after the client has rejected it. *)
Definition after_rejected (b : block_message) (outcome : sync_outcome) (d : sync_duties) (a : Z) : eff node sync_duties :=
  p ← get_peer a;
  if bool_decide (bm_block_id b ∈ pr_being_processed p) then
    match outcome with
    | client_rejected e => mret (duties_disconnect a rejected_block (rejected_because e) d)
    | _ => _ ← on_peer a (set_pr_inhibit true); mret d
    end
  else mret d.

Definition do_duties (now : Z) (d : sync_duties) : eff node unit :=
  _ ← eff_each (fun x : Z * (closing_reason * closing_error) =>
        disconnect_from_peer now x.1 x.2.1 true (Some x.2.2)) (du_disconnect d);
  _ ← eff_each (fetch_next_batch_of_item_ids_from_peer now) (du_newly_empty d);
  eff_each (start_synchronizing_with_peer now) (du_sync_to d).

(** [send_sync_block_to_node_delegate]; the task is over when it returns. *)
Definition send_sync_block_to_node_delegate (now : Z) (b : block_message) : eff node unit :=
  outcome ← push_sync_block b;
  l ← reads (fun s => Ok (elements (nd_active s)));
  let none := mk_duties [] [] [] in
  d ← (match outcome with
       | client_accepted =>
           _ ← update (fun s => set_nd_unfetched_items (wrapu32 (nd_unfetched_items s - 1)) s);
           is_fork_block ← reads (fun s => Ok (is_hard_fork_block (bm_block_num b) s));
           eff_fold (after_accepted b is_fork_block) none l
       | _ => eff_fold (after_rejected b outcome) none l
       end);
  _ ← do_duties now d;
  trigger_process_backlog_of_sync_blocks.

(** The task of the [i]-th block the client is handling runs, to its end or to an
    exception nobody catches. *)
Definition run_handle_call (now : Z) (i : nat) : eff node unit :=
  b ← reads (fun s => require (nd_in_progress s !! i) key_not_found_exception);
  _ ← update (fun s => set_nd_in_progress (delete i (nd_in_progress s)) s);
  send_sync_block_to_node_delegate now b.

(** The first block of the backlog that some peer's list begins with. *)
Definition is_next_of (b : block_message) (p : peer) : bool := bool_decide (head (pr_ids_to_get p) = Some (bm_block_id b)).
Definition potential_first_block (b : block_message) (s : node) : bool :=
  existsb (fun x => is_next_of b x.2) (active_peers s).
(** The peers' lists without it. *)
Definition begin_processing (b : block_message) : eff node unit :=
  for_active (fun a p =>
    if is_next_of b p
    then on_peer a (fun p => set_pr_being_processed ({[ bm_block_id b ]} ∪ pr_being_processed p)
                               (set_pr_ids_to_get (tail (pr_ids_to_get p)) p))
    else mret tt).

(** A turn of the [do ... while] loop: [true] if a block was given to the client. *)
Definition backlog_turn : eff node bool :=
  _ ← update (fun s => set_nd_new_received [] (set_nd_received (reverse (nd_new_received s) ++ nd_received s) s));
  found ← reads (fun s => Ok (list_find (fun b => potential_first_block b s = true) (nd_received s)));
  match found with
  | None => mret false
  | Some (i, b) =>
      _ ← begin_processing b;
      recent ← reads (fun s => Ok (bool_decide (bm_block_id b ∈ nd_recent_blocks s)));
      if recent : bool then mret false
      else
        _ ← update (fun s => set_nd_in_progress (nd_in_progress s ++ [b]) (set_nd_received (delete i (nd_received s)) s));
        mret true
  end.
Definition too_many_in_progress (s : node) : bool :=
  (li_blocks_to_handle (nd_limits s) <=? length (nd_in_progress s))%nat.
Fixpoint backlog_loop (fuel : nat) : eff node unit :=
  match fuel with
  | O => throw assertion_abort
  | S fuel =>
      block_processed_this_iteration ← backlog_turn;
      full ← reads (fun s => Ok (too_many_in_progress s));
      if full : bool then
        update (fun s =>
          if (li_blocks_to_prefetch (nd_limits s) <=? length (nd_received s))%nat
          then set_nd_suspend_fetching true s else s)
      else if block_processed_this_iteration : bool then backlog_loop fuel else mret tt
  end.

(** [process_backlog_of_sync_blocks]: a turn that goes on takes a block off the
    backlog, so a turn more than there are blocks is enough ([backlog_ends]). *)
Definition process_backlog_of_sync_blocks : eff node unit :=
  _ ← update (set_nd_backlog_scheduled false);
  full ← reads (fun s => Ok (too_many_in_progress s));
  if full : bool then mret tt
  else
    _ ← update (set_nd_suspend_fetching false);
    fuel ← reads (fun s => Ok (S (length (nd_received s) + length (nd_new_received s))));
    _ ← backlog_loop fuel;
    suspended ← reads (fun s => Ok (nd_suspend_fetching s));
    if suspended : bool then mret tt else trigger_fetch_sync_items_loop.

(** [process_block_during_sync] *)
Definition process_block_during_sync (b : block_message) : eff node unit :=
  _ ← update (fun s => set_nd_new_received (b :: nd_new_received s) s);
  trigger_process_backlog_of_sync_blocks.

(** ** Blocks and other messages in normal operation *)

(** [try { m } catch( fc::exception e ) { h }] *)
Definition catching {A} (m : eff node A) (h : error -> eff node A) : eff node A := fun s =>
  match m s with
  | (s, Err e) => if uncaught e then (s, Err e) else h e s
  | r => r
  end.

(** The block is pushed, unless it has been accepted before, and offered to the other
    peers; returned are the peers to disconnect. *)
Definition accept_block (now a : Z) (b : block_message) (message_hash : Z)
    : eff node (list Z * (closing_reason * closing_error)) :=
  recent ← reads (fun s => Ok (bool_decide (bm_block_id b ∈ nd_recent_blocks s)));
  validated_time ← (if recent : bool then mret 0
                    else
                      _ ← delegate_handles (bm_message b) false;
                      _ ← note_accepted (bm_block_id b);
                      mret now);
  let i := mk_item block_item message_hash in
  _ ← for_active (fun x p =>
        on_peer x (fun p => clear_old_inventory now
          (if bool_decide (is_Some (pr_advertised_to_us p !! i))
           then set_pr_last_time (bm_timestamp b) (set_pr_last_number (bm_block_num b) (set_pr_last_block (bm_block_id b) p))
           else p)));
  p ← get_peer a;
  _ ← broadcast (bm_message b) (mk_propagation now validated_time (pr_node_id p));
  _ ← update (fun s => set_nd_cache (block_accepted (nd_cache s)) s);
  reads (fun s =>
    Ok (if is_hard_fork_block (bm_block_num b) s
        then (filter (fun x => is_outdated (bm_block_num b) x.2 s = true) (active_peers s)).*1 else [],
        (upgrade_needed (bm_block_num b), told_reason (upgrade_needed (bm_block_num b))))).

(** [process_block_during_normal_operation] *)
Definition process_block_during_normal_operation (now a : Z) (b : block_message) (message_hash : Z) : eff node unit :=
  out ← catching (accept_block now a b message_hash) (fun e =>
          reads (fun s => Ok ((filter (fun x => is_next_of b x.2 = true) (active_peers s)).*1,
                              (rejected_block, rejected_because e))));
  eff_each (fun x => disconnect_from_peer now x out.2.1 true (Some out.2.2)) out.1.

(** [process_block_message] *)
Definition process_block_message (now a : Z) (m : payload) (message_hash : Z) : eff node unit :=
  b ← lift (as_block_message m);
  p ← get_peer a;
  let i := mk_item block_item message_hash in
  let sync_i := mk_item block_item (bm_block_id b) in
  if bool_decide (is_Some (pr_requested p !! i)) then
    _ ← on_peer a (fun p => set_pr_requested (delete i (pr_requested p)) p);
    _ ← process_block_during_normal_operation now a b message_hash;
    p ← get_peer a;
    if idle p then trigger_fetch_items_loop else mret tt
  else if bool_decide (is_Some (pr_sync_requested p !! sync_i)) then
    _ ← on_peer a (fun p => set_pr_sync_requested (delete sync_i (pr_sync_requested p)) p);
    _ ← update (fun s => set_nd_sync_requests (delete (bm_block_id b) (nd_sync_requests s)) s);
    _ ← process_block_during_sync b;
    p ← get_peer a;
    if negb (idle p) then mret tt
    else if (pr_unfetched p >? 0) && (length (pr_ids_to_get p) <? BTS_NET_MIN_BLOCK_IDS_TO_PREFETCH)%nat
    then fetch_next_batch_of_item_ids_from_peer now a
    else trigger_fetch_sync_items_loop
  else disconnect_from_peer now a unrequested_block true (Some (told_reason unrequested_block)).

(** [process_ordinary_message] *)
Definition process_ordinary_message (now a : Z) (m : payload) (message_hash : Z) : eff node unit :=
  p ← get_peer a;
  let i := mk_item (payload_type m) message_hash in
  if bool_decide (pr_requested p !! i = None) then
    disconnect_from_peer now a unrequested_message true (Some (told_reason unrequested_message))
  else
    _ ← on_peer a (fun p => set_pr_requested (delete i (pr_requested p)) p);
    p ← get_peer a;
    _ ← (if idle p then trigger_fetch_items_loop else mret tt);
    accepted ← catching (_ ← delegate_handles m false; mret true) (fun e =>
      match e with
      | net_insufficient_relay_fee =>
          _ ← lift (if payload_type m =? trx_item then Ok tt else Err assertion_abort);
          _ ← on_peer a (set_pr_trx_inhibited_until (now + usec BTS_NET_INSUFFICIENT_RELAY_FEE_PENALTY_SEC));
          mret false
      | _ => mret false
      end);
    if accepted : bool then broadcast m (mk_propagation now now (pr_node_id p)) else mret tt.

(** ** The loops *)

(** The ids of a peer's list that are neither on hand nor asked for, up to the limit. *)
Fixpoint choose_items (limit : nat) (unwanted : Z -> bool) (chosen : gset Z) (mine ids : list Z) : list Z * gset Z :=
  match ids with
  | [] => (mine, chosen)
  | h :: ids =>
      if unwanted h || bool_decide (h ∈ chosen) then choose_items limit unwanted chosen mine ids
      else
        let mine := mine ++ [h] in
        let chosen := {[ h ]} ∪ chosen in
        if (limit <=? length mine)%nat then (mine, chosen) else choose_items limit unwanted chosen mine ids
  end.

(** What an iteration of [fetch_sync_items_loop] will request. *)
Definition can_fetch_from (p : peer) : bool := pr_we_need p && idle p && negb (pr_inhibit p).
Definition unwanted_sync_item (s : node) (h : Z) : bool :=
  have_already_received_sync_item h s || bool_decide (is_Some (nd_sync_requests s !! h)).
Definition schedule_peer_requests (s : node) (acc : list (Z * list Z) * gset Z) (x : Z * peer)
    : list (Z * list Z) * gset Z :=
  if can_fetch_from x.2 then
    let '(mine, chosen) :=
      choose_items (li_blocks_per_peer (nd_limits s)) (unwanted_sync_item s) acc.2 [] (pr_ids_to_get x.2) in
    (if bool_decide (mine = []) then acc.1 else acc.1 ++ [(x.1, mine)], chosen)
  else acc.
Definition sync_item_requests_to_send (s : node) : list (Z * list Z) :=
  (foldl (schedule_peer_requests s) ([], ∅) (active_peers s)).1.

(** [request_sync_items_from_peer] *)
Definition request_sync_item (now a h : Z) : eff node unit :=
  _ ← update (fun s => set_nd_sync_requests
        (if bool_decide (is_Some (nd_sync_requests s !! h)) then nd_sync_requests s else <[h := now]> (nd_sync_requests s)) s);
  on_peer a (fun p => set_pr_sync_requested
    (if bool_decide (is_Some (pr_sync_requested p !! mk_item block_item h)) then pr_sync_requested p
     else <[mk_item block_item h := now]> (pr_sync_requested p)) p).
Definition request_sync_items_from_peer (now a : Z) (items_to_request : list Z) : eff node unit :=
  _ ← eff_each (request_sync_item now a) items_to_request;
  enqueue_message a (fetch_items_message block_item items_to_request).

(** An iteration of [fetch_sync_items_loop]. *)
Definition fetch_sync_items (now : Z) : eff node unit :=
  _ ← update (set_nd_sync_fetch_updated false);
  suspended ← reads (fun s => Ok (nd_suspend_fetching s));
  if suspended : bool then mret tt
  else
    l ← reads (fun s => Ok (sync_item_requests_to_send s));
    eff_each (fun x : Z * list Z => request_sync_items_from_peer now x.1 x.2) l.

(** Whether an item is asked of a peer: the peer is idle and offered it, and is not
    blocked for transactions. *)
Definition fetchable_from (now : Z) (i : item_id) (p : peer) : bool :=
  idle p && bool_decide (is_Some (pr_advertised_to_us p !! i))
  && negb (is_transaction_fetching_inhibited now p && (item_type i =? trx_item)).

(** An item of an iteration of [fetch_items_loop]: it is asked of the first peer it can
    be asked of. *)
Definition fetch_item (now : Z) (sent : list (Z * item_id)) (x : item_id * Z) : eff node (list (Z * item_id)) :=
  found ← reads (fun s => Ok (list_find (fun y : Z * peer => fetchable_from now x.1 y.2 = true) (active_peers s)));
  match found with
  | None => mret sent
  | Some (_, (a, _)) =>
      _ ← on_peer a (fun p => if bool_decide (is_Some (pr_requested p !! x.1)) then p
            else set_pr_requested (<[x.1 := now]> (pr_requested p)) p);
      _ ← update (fun s => set_nd_items_to_fetch (filter (fun y => y.1 <> x.1) (nd_items_to_fetch s)) s);
      mret ((a, x.1) :: sent)
  end.
(** An iteration of [fetch_items_loop]. *)
Definition fetch_items (now : Z) : eff node unit :=
  _ ← update (set_nd_fetch_updated false);
  l ← reads (fun s => Ok (nd_items_to_fetch s));
  fetch_messages_to_send ← eff_fold (fetch_item now) [] l;
  eff_each (fun x : Z * item_id => enqueue_message x.1 (fetch_items_message (item_type x.2) [item_hash x.2])) fetch_messages_to_send.

(** The messages that offer the items of [fresh_items], one for each type. *)
Definition inventory_messages (a : Z) (fresh_items : list item_id) : list (Z * net_message) :=
  let types := merge_sort Z.le (remove_dups (map item_type fresh_items)) in
  map (fun t => (a, item_ids_inventory_message t (map item_hash (filter (fun i => item_type i = t) fresh_items)))) types.
Definition advertise_to_peer (now : Z) (inventory : list item_id) (sent : list (Z * net_message)) (a : Z)
    : eff node (list (Z * net_message)) :=
  p ← get_peer a;
  let fresh_items := filter (fun i => pr_advertised_to_peer p !! i = None /\ pr_advertised_to_us p !! i = None) inventory in
  let out := if pr_peer_needs p then [] else inventory_messages a fresh_items in
  _ ← (if pr_peer_needs p then mret tt
       else on_peer a (fun p => set_pr_advertised_to_peer
              (foldr (fun i m => <[i := to_sec now]> m) (pr_advertised_to_peer p) fresh_items) p));
  _ ← on_peer a (clear_old_inventory now);
  mret (sent ++ out).
(** An iteration of [advertise_inventory_loop]. *)
Definition advertise_inventory (now : Z) : eff node unit :=
  inventory_to_advertise ← reads (fun s => Ok (elements (nd_new_inventory s)));
  _ ← update (set_nd_new_inventory ∅);
  l ← reads (fun s => Ok (elements (nd_active s)));
  inventory_messages_to_send ← eff_fold (advertise_to_peer now inventory_to_advertise) [] l;
  eff_each (fun x : Z * net_message => enqueue_message x.1 x.2) inventory_messages_to_send.

(** ** Connections that have gone quiet *)

Definition active_disconnect_timeout : Z := Z.max (5 * BTS_BLOCKCHAIN_BLOCK_INTERVAL_SEC / 2) 30.
Definition active_send_keepalive_timeout : Z := Z.max (active_disconnect_timeout / 2) 11.
Definition active_ignored_request_timeout : Z := Z.max (BTS_BLOCKCHAIN_BLOCK_INTERVAL_SEC / 4) 10.
Definition failed_terminate_timeout_seconds : Z := 120.
Definition before (now timeout t : Z) : bool := t <? now - usec timeout.

(** An active peer that has not answered a request in time. *)
Definition has_old_request (now : Z) (m : gmap item_id Z) : bool :=
  existsb (fun x : item_id * Z => before now active_ignored_request_timeout x.2) (map_to_list m).
Definition ignored_a_request (now : Z) (p : peer) : bool :=
  has_old_request now (pr_sync_requested p)
  || match pr_ids_requested p with
     | Some (_, t) => before now active_ignored_request_timeout t
     | None => false
     end
  || has_old_request now (pr_requested p).

(** What is to be done with a connection of each list. *)
Inductive verdict := leave_it | gently | forcibly | keep_alive.
Definition judge_handshaking (now timeout : Z) (p : peer) : verdict :=
  if before now timeout (pr_initiation_time p) && before now timeout (pr_last_received p)
     && before now timeout (pr_last_sent p)
  then forcibly else leave_it.
Definition judge_active (now : Z) (p : peer) : verdict :=
  let silent t := before now t (pr_initiation_time p) && before now t (pr_last_received p) in
  if silent active_disconnect_timeout then gently
  else if ignored_a_request now p then forcibly
  else if silent active_send_keepalive_timeout then keep_alive else leave_it.
Definition judge_closing (now : Z) (p : peer) : verdict :=
  if before now BTS_NET_PEER_DISCONNECT_TIMEOUT (pr_closed_time p) then forcibly else leave_it.
Definition failed_to_terminate (now : Z) (p : peer) : bool :=
  negb (pr_terminated_time p =? 0) && before now failed_terminate_timeout_seconds (pr_terminated_time p).

(** The peers of a list with this verdict. *)
Definition judged (l : gset Z) (f : peer -> bool) (s : node) : list Z :=
  filter (fun a => match nd_peers s !! a with Some p => f p | None => false end = true) (elements l).
Definition is_gently (v : verdict) : bool := match v with gently => true | _ => false end.
Definition is_forcibly (v : verdict) : bool := match v with forcibly => true | _ => false end.
Definition is_keep_alive (v : verdict) : bool := match v with keep_alive => true | _ => false end.

(** [terminate_inactive_connections_loop] *)
Definition terminate_inactive_connections (now : Z) : eff node unit :=
  timeout ← reads (fun s => Ok (li_inactivity_timeout (nd_limits s)));
  handshakes ← reads (fun s => Ok (judged (nd_handshaking s) (fun p => is_forcibly (judge_handshaking now timeout p)) s));
  _ ← eff_each (fun a => on_peer a (set_pr_closed_error (Some handshake_timeout))) handshakes;
  to_close ← reads (fun s => Ok (judged (nd_active s) (fun p => is_gently (judge_active now p)) s));
  forced ← reads (fun s => Ok (handshakes ++ judged (nd_active s) (fun p => is_forcibly (judge_active now p)) s
                               ++ judged (nd_closing s) (fun p => is_forcibly (judge_closing now p)) s));
  alive ← reads (fun s => Ok (judged (nd_active s) (fun p => is_keep_alive (judge_active now p)) s));
  to_terminate ← reads (fun s => Ok (judged (nd_terminating s) (failed_to_terminate now) s));
  _ ← eff_each (fun a => disconnect_from_peer now a inactivity false (Some (told_reason inactivity))) to_close;
  _ ← eff_each (fun a => _ ← update (move_peer_to_terminating_list a); on_peer a (close_connection now)) forced;
  _ ← eff_each (fun a => enqueue_message a current_time_request_message) alive;
  eff_each (fun a =>
    _ ← reads (fun s => if bool_decide (a ∈ nd_terminating s) then Ok tt else Err assertion_abort);
    _ ← update (fun s => set_nd_terminating (nd_terminating s ∖ {[ a ]}) s);
    schedule_peer_for_deletion a) to_terminate.

(** ** What can happen to a node *)

(** [on_current_time_request_message] *)
Definition on_current_time_request_message (now a : Z) : eff node unit :=
  enqueue_message a (current_time_reply_message now).

(** [on_message]: the handlers by the type of the message; the answer to a time request
    only changes statistics, and unknown messages of the network itself are ignored. *)
Definition is_core_type (type : Z) : bool := (5000 <=? type) && (type <=? 5099).
Definition on_message (now a : Z) (m : net_message) : eff node unit :=
  match m with
  | item_ids_inventory_message type hashes => on_item_ids_inventory_message now a type hashes
  | blockchain_item_ids_inventory_message remaining type hashes =>
      on_blockchain_item_ids_inventory_message now a remaining type hashes
  | fetch_blockchain_item_ids_message type synopsis => on_fetch_blockchain_item_ids_message now a type synopsis
  | fetch_items_message type hashes => on_fetch_items_message a type hashes
  | item_not_available_message i => on_item_not_available_message now a i
  | closing_connection_message reason due_to_error => on_closing_connection_message now a reason due_to_error
  | current_time_request_message => on_current_time_request_message now a
  | current_time_reply_message _ => mret tt
  | data_message p =>
      if payload_type p =? block_item then process_block_message now a p (payload_id p)
      else if is_core_type (payload_type p) then mret tt
      else process_ordinary_message now a p (payload_id p)
  end.

(** A new connection has asked for nothing yet. *)
Definition new_connection (a : Z) (p : peer) : eff node unit :=
  update (fun s =>
    match nd_peers s !! a with
    | Some _ => s
    | None => set_nd_handshaking ({[ a ]} ∪ nd_handshaking s)
                (set_nd_peers (<[a := set_pr_sync_requested ∅ (set_pr_requested ∅ p)]> (nd_peers s)) s)
    end).

Inductive event :=
| connected (a : Z) (p : peer)
| accepted_by (a : Z)
| received (a : Z) (m : net_message)
| closed (a : Z)
| handled (i : nat)
| backlog_task | fetch_sync_items_task | fetch_items_task | advertise_task | inactivity_task
| sent_by_client (p : payload) (propagation_data : message_propagation_data)
| synced_from (head : item_id) (forks : list Z)
| told_to_sync.

Definition happens (now : Z) (e : event) : eff node unit :=
  match e with
  | connected a p => new_connection a p
  | accepted_by a => _ ← update (move_peer_to_active_list a); new_peer_just_added now a
  | received a m => on_message now a m
  | closed a => on_connection_closed now a
  | handled i => run_handle_call now i
  | backlog_task => process_backlog_of_sync_blocks
  | fetch_sync_items_task => fetch_sync_items now
  | fetch_items_task => fetch_items now
  | advertise_task => advertise_inventory now
  | inactivity_task => terminate_inactive_connections now
  | sent_by_client p propagation_data => broadcast p propagation_data
  | synced_from head forks => update (sync_from head forks)
  | told_to_sync => start_synchronizing now
  end.

(** A history of the node: an exception ends a handler, not the node. *)
Fixpoint run_events (l : list (Z * event)) (s : node) : node :=
  match l with
  | [] => s
  | (now, e) :: l => run_events l (happens now e s).1
  end.

End node.

(** ** The client as the delegate of the node *)

Section client.
Context `{Crypto} `{BlockHash} `{FcNum} `{FcReal} `{MarketEngine}.
(** The hash of the bytes of a message. *)
Context (message_hash : client_message -> Z).

#[local] Instance client_messages : NodeMessages := {|
  payload := client_message;
  payload_type m :=
    match m with trx_message _ => trx_item | Client.block_message _ _ => block_item | other_message t => t end;
  payload_id := message_hash;
  trx_id_of m := match m with trx_message t => Ok (trx_id t) | _ => Err assert_exception end
|}.

(** [client_impl] at a moment: its own notices of errors and of the number of
    connections go to the user. *)
#[local] Instance client_delegate (t : moment) : NodeDelegate client := {|
  dg_has_item k i := has_item (item_type i) (item_hash i) (cl_chain k);
  dg_get_item k i := get_item (item_type i) (item_hash i) (cl_pending_trxs k) (cl_chain k);
  dg_get_item_ids k type synopsis := get_item_ids type synopsis 2000 (cl_chain k);
  dg_get_blockchain_synopsis k type reference_point n := get_blockchain_synopsis type reference_point n (cl_chain k);
  dg_handle_message k m sync_mode := let '(k, r) := handle_message t m sync_mode k in (k, _ ← r; Ok tt);
  dg_sync_status k _ item_count := sync_status t item_count k;
  dg_error_encountered k _ := k;
  dg_connection_count_changed k _ := k;
  dg_get_block_number k id := get_block_number id (cl_chain k);
  dg_get_block_time k id := get_block_time id (cl_chain k);
  dg_get_blockchain_now _ := mo_clock t;
  as_block_message m :=
    match m with
    | Client.block_message b id => Ok (mk_block_message _ id (fb_block_num b) (fb_timestamp b) m)
    | _ => Err assert_exception
    end
|}.
End client.
