(* ===== verification/NodeFacts.v ===== *)
(** * NodeFacts: requests for blocks and the delivery of messages

    [requests_ok] is the invariant of the requests for blocks: a block that is asked
    of a peer is noted as asked for, and it is asked of one peer only.  Every event
    keeps it, whether or not its handler throws.  A block that is noted but asked of
    nobody is lost for the synchronisation: no event changes that. *)
From stdpp Require Import sorting.
From S2P Require Import Prelude Config Fc Asset Records PendingState ChainDatabase Blocks Production Forks.
From S2P Require Import Chain ChainOps ChainFacts SwitchFacts MainChain Eff Client SyncFacts NodeState Node.
Local Open Scope Z_scope.

Section requests.
Context {NM : NodeMessages} {D : Type} {ND : NodeDelegate D} (fresh : Z).
Local Abbreviation node := (@node NM D).
Implicit Types s : node.

(** ** The invariant *)

Definition requests_of (s : node) : gmap Z (gmap item_id Z) := pr_sync_requested <$> nd_peers s.
Definition asked_of (s : node) (h a : Z) : Prop :=
  exists m, requests_of s !! a = Some m /\ is_Some (m !! mk_item block_item h).

Record requests_ok (s : node) : Prop := {
  ro_noted a m i : requests_of s !! a = Some m -> is_Some (m !! i) ->
    item_type i = block_item /\ is_Some (nd_sync_requests s !! item_hash i);
  ro_once a a' m m' i : requests_of s !! a = Some m -> requests_of s !! a' = Some m' ->
    is_Some (m !! i) -> is_Some (m' !! i) -> a = a'
}.

(** A block that is noted as asked for, and asked of nobody. *)
Definition lost (h : Z) (s : node) : Prop := is_Some (nd_sync_requests s !! h) /\ forall a, ~ asked_of s h a.

(** Steps that only drop requests of peers. *)
Definition no_new_requests (s s' : node) : Prop :=
  nd_sync_requests s' = nd_sync_requests s /\
  forall a m', requests_of s' !! a = Some m' ->
    m' = ∅ \/ exists m, requests_of s !! a = Some m /\ m' ⊆ m.
#[global] Instance no_new_requests_refl : Reflexive no_new_requests.
Proof. intros s. split; eauto. Qed.
#[global] Instance no_new_requests_trans : Transitive no_new_requests.
Proof.
  intros s1 s2 s3 [E1 H1] [E2 H2]. split; [congruence|]. intros a m Hm.
  destruct (H2 a m Hm) as [->|(m2 & Hm2 & Hs)]; [by left|].
  destruct (H1 a m2 Hm2) as [->|(m1 & Hm1 & Hs1)].
  - left. apply (anti_symm (⊆)); [done|apply map_empty_subseteq].
  - right. exists m1. split; [done|]. by etrans.
Qed.

(** The steps that keep the invariant and find no lost block again. *)
Definition requests_step (s s' : node) : Prop :=
  requests_ok s -> requests_ok s' /\ forall h, lost h s -> lost h s'.
#[global] Instance requests_step_refl : Reflexive requests_step.
Proof. intros s H. auto. Qed.
#[global] Instance requests_step_trans : Transitive requests_step.
Proof.
  intros s1 s2 s3 H1 H2 H. destruct (H1 H) as [Ho Hl]. destruct (H2 Ho) as [Ho' Hl']. split; [done|]. auto.
Qed.

Lemma no_new_requests_step s s' : no_new_requests s s' -> requests_step s s'.
Proof.
  intros [E Hr] Ho.
  assert (Hb : forall a m' i, requests_of s' !! a = Some m' -> is_Some (m' !! i) ->
            exists m, requests_of s !! a = Some m /\ is_Some (m !! i)).
  { intros a m' i Hm Hi. destruct (Hr a m' Hm) as [->|(m & Hm1 & Hs)].
    - rewrite lookup_empty in Hi. by destruct Hi.
    - exists m. split; [done|]. destruct Hi as [t Ht]. exists t. by eapply lookup_weaken. }
  split; [split|].
  - intros a m i Hm Hi. destruct (Hb a m i Hm Hi) as (m0 & Hm0 & Hi0).
    rewrite E. exact (ro_noted s Ho a m0 i Hm0 Hi0).
  - intros a a' m m' i Hm Hm' Hi Hi'.
    destruct (Hb a m i Hm Hi) as (m0 & Hm0 & Hi0). destruct (Hb a' m' i Hm' Hi') as (m1 & Hm1 & Hi1).
    exact (ro_once s Ho a a' m0 m1 i Hm0 Hm1 Hi0 Hi1).
  - intros h [Hn Ha]. split; [by rewrite E|]. intros a (m & Hm & Hi).
    destruct (Hb a m _ Hm Hi) as (m0 & Hm0 & Hi0). apply (Ha a). by exists m0.
Qed.

(** ** Handlers that ask for no block *)

Lemma no_new_update (f : node -> node) :
  (forall s, nd_sync_requests (f s) = nd_sync_requests s) -> (forall s, nd_peers (f s) = nd_peers s) ->
  keeps no_new_requests (update f).
Proof.
  intros E Hp s. cbn. split; [apply E|]. intros a m Hm. right. exists m. split; [|done].
  unfold requests_of in *. by rewrite Hp in Hm.
Qed.

Lemma no_new_on_peer a f : (forall p, pr_sync_requested (f p) ⊆ pr_sync_requested p) ->
  keeps no_new_requests (on_peer a f).
Proof.
  intros Hf s. split; [done|]. intros a' m Hm. right. unfold requests_of in *. cbn in Hm.
  rewrite lookup_fmap in Hm. rewrite lookup_fmap.
  destruct (decide (a' = a)) as [->|Hne].
  - rewrite lookup_alter_eq in Hm. destruct (nd_peers s !! a) as [p|]; [|done]. cbn in *. simplify_eq. eauto.
  - rewrite lookup_alter_ne in Hm by done. eauto.
Qed.

(** Reads, sends and the like leave the requests as they are. *)
Ltac frame_step :=
  match goal with
  | |- keeps _ (_ ≫= _) => apply (keeps_bind _); [|intros ?]
  | |- keeps _ (eff_each _ _) => apply (keeps_each _); intros ? _
  | |- keeps _ (eff_fold _ _ _) => apply (keeps_fold _); intros ? ? _
  | |- keeps _ (for_active _) => unfold for_active
  | |- keeps _ (match ?x with _ => _ end) => destruct x
  | |- keeps _ (on_peer _ _) => 
      apply no_new_on_peer; intros ?; unfold close_connection, clear_old_inventory; repeat case_match;
      (done || apply delete_subseteq)
  | |- keeps _ (update _) => apply no_new_update; intros ?; repeat case_match; reflexivity
  | |- _ => solve [auto with keeps typeclass_instances]
  end.
Ltac frame := intros; cbv zeta; repeat frame_step.

Lemma get_peer_frame a : keeps no_new_requests (get_peer a).
Proof. unfold get_peer. frame. Qed.
Lemma enqueue_message_frame a m : keeps no_new_requests (enqueue_message a m).
Proof. unfold enqueue_message. frame. Qed.
Lemma ask_delegate_frame {A} (f : D -> result A) : keeps no_new_requests (ask_delegate f).
Proof. unfold ask_delegate. frame. Qed.
Lemma delegate_has_frame i : keeps no_new_requests (delegate_has i).
Proof. unfold delegate_has. frame. Qed.
Lemma tell_delegate_frame f : keeps no_new_requests (tell_delegate f).
Proof. unfold tell_delegate. frame. Qed.
Lemma delegate_handles_frame p b : keeps no_new_requests (delegate_handles p b).
Proof. intros s. unfold delegate_handles. destruct (dg_handle_message _ _ _). cbn. split; eauto. Qed.
Lemma want_item_frame i : keeps no_new_requests (want_item i).
Proof. intros s. unfold want_item. destruct (insert_item _ _). cbn. split; eauto. Qed.
#[local] Hint Resolve get_peer_frame enqueue_message_frame ask_delegate_frame delegate_has_frame
  tell_delegate_frame delegate_handles_frame want_item_frame : keeps.

Lemma update_known_peer_frame endpoint f : keeps no_new_requests (update_known_peer fresh endpoint f).
Proof. unfold update_known_peer. frame. Qed.
#[local] Hint Resolve update_known_peer_frame : keeps.
Lemma disconnect_frame now a r c e : keeps no_new_requests (disconnect_from_peer fresh now a r c e).
Proof. unfold disconnect_from_peer. frame. Qed.
Lemma broadcast_frame p d : keeps no_new_requests (broadcast p d).
Proof. unfold broadcast, note_accepted. frame. Qed.
Lemma synopsis_frame p : keeps no_new_requests (create_blockchain_synopsis_for_peer p).
Proof. unfold create_blockchain_synopsis_for_peer. frame. Qed.
#[local] Hint Resolve disconnect_frame broadcast_frame synopsis_frame : keeps.
Lemma fetch_ids_frame now a : keeps no_new_requests (fetch_next_batch_of_item_ids_from_peer now a).
Proof. unfold fetch_next_batch_of_item_ids_from_peer. frame. Qed.
#[local] Hint Resolve fetch_ids_frame : keeps.
Lemma start_sync_frame now a : keeps no_new_requests (start_synchronizing_with_peer now a).
Proof. unfold start_synchronizing_with_peer. frame. Qed.
Lemma report_frame : keeps no_new_requests report_connections.
Proof. unfold report_connections. frame. Qed.
#[local] Hint Resolve start_sync_frame report_frame : keeps.
Lemma new_peer_frame now a : keeps no_new_requests (new_peer_just_added now a).
Proof. unfold new_peer_just_added. frame. Qed.
#[local] Hint Resolve new_peer_frame : keeps.
Lemma on_fetch_ids_frame now a t l : keeps no_new_requests (on_fetch_blockchain_item_ids_message fresh now a t l).
Proof. unfold on_fetch_blockchain_item_ids_message, resync_if_unknown. frame. Qed.
Lemma pop_known_frame a t l : keeps no_new_requests (pop_known_items a t l).
Proof. induction l; cbn [pop_known_items]; frame. Qed.
#[local] Hint Resolve pop_known_frame on_fetch_ids_frame : keeps.
Lemma on_ids_frame now a n t l :
  keeps no_new_requests (on_blockchain_item_ids_inventory_message fresh now a n t l).
Proof.
  unfold on_blockchain_item_ids_inventory_message, trim_received_items, after_item_ids,
    trigger_fetch_sync_items_loop. frame.
Qed.
Lemma on_fetch_items_frame a t l : keeps no_new_requests (on_fetch_items_message a t l).
Proof. unfold on_fetch_items_message. frame. Qed.
Lemma want_offered_frame i : keeps no_new_requests (want_offered_item i).
Proof. unfold want_offered_item. frame. Qed.
#[local] Hint Resolve on_ids_frame on_fetch_items_frame want_offered_frame : keeps.
Lemma on_not_available_frame now a i : keeps no_new_requests (on_item_not_available_message fresh now a i).
Proof.
  unfold on_item_not_available_message, trigger_fetch_items_loop, trigger_fetch_sync_items_loop. frame.
Qed.
Lemma on_inventory_frame now a t l : keeps no_new_requests (on_item_ids_inventory_message now a t l).
Proof. unfold on_item_ids_inventory_message, note_advertised, trigger_fetch_items_loop. frame. Qed.
Lemma on_closing_frame now a r e : keeps no_new_requests (on_closing_connection_message now a r e).
Proof. unfold on_closing_connection_message. frame. Qed.
Lemma forget_frame now a : keeps no_new_requests (forget_connection fresh now a).
Proof. unfold forget_connection. frame. Qed.
Lemma push_sync_block_frame b : keeps no_new_requests (push_sync_block b).
Proof.
  intros s. unfold push_sync_block. pose proof (delegate_handles_frame (bm_message b) true s) as H.
  destruct (delegate_handles _ _ s) as [s' [u|e]]; cbn in *; [destruct H; by split|].
  by repeat case_match.
Qed.
#[local] Hint Resolve on_not_available_frame on_inventory_frame on_closing_frame forget_frame
  push_sync_block_frame : keeps.

Lemma do_duties_frame now d : keeps no_new_requests (do_duties fresh now d).
Proof. unfold do_duties. frame. Qed.
Lemma after_accepted_frame b f d a : keeps no_new_requests (after_accepted b f d a).
Proof. unfold after_accepted. frame. Qed.
Lemma after_rejected_frame b o d a : keeps no_new_requests (after_rejected b o d a).
Proof. unfold after_rejected. frame. Qed.
#[local] Hint Resolve do_duties_frame after_accepted_frame after_rejected_frame : keeps.
Lemma run_handle_call_frame now i : keeps no_new_requests (run_handle_call fresh now i).
Proof.
  unfold run_handle_call, send_sync_block_to_node_delegate, trigger_process_backlog_of_sync_blocks. frame.
Qed.
Lemma backlog_turn_frame : keeps no_new_requests backlog_turn.
Proof. unfold backlog_turn, begin_processing. frame. Qed.
#[local] Hint Resolve run_handle_call_frame backlog_turn_frame : keeps.
Lemma backlog_loop_frame n : keeps no_new_requests (backlog_loop n).
Proof. induction n; cbn [backlog_loop]; unfold throw; frame. Qed.
#[local] Hint Resolve backlog_loop_frame : keeps.
Lemma backlog_frame : keeps no_new_requests process_backlog_of_sync_blocks.
Proof. unfold process_backlog_of_sync_blocks, trigger_fetch_sync_items_loop. frame. Qed.

Lemma catching_frame {A} (m : eff node A) h :
  keeps no_new_requests m -> (forall e, keeps no_new_requests (h e)) -> keeps no_new_requests (catching m h).
Proof.
  intros Hm Hh s. unfold catching. specialize (Hm s). destruct (m s) as [s' [a|e]]; cbn in *; [done|].
  destruct (uncaught e); [done|]. etrans; [exact Hm|apply Hh].
Qed.
Lemma accept_block_frame now a b h : keeps no_new_requests (accept_block now a b h).
Proof. unfold accept_block, note_accepted. frame. Qed.
Lemma normal_operation_frame now a b h :
  keeps no_new_requests (process_block_during_normal_operation fresh now a b h).
Proof.
  unfold process_block_during_normal_operation. apply (keeps_bind _); [|frame].
  apply catching_frame; [apply accept_block_frame|frame].
Qed.
Lemma ordinary_frame now a p h : keeps no_new_requests (process_ordinary_message fresh now a p h).
Proof.
  unfold process_ordinary_message, trigger_fetch_items_loop.
  repeat (apply catching_frame || frame_step || intros ?).
Qed.
Lemma fetch_items_frame now : keeps no_new_requests (fetch_items now).
Proof. unfold fetch_items, fetch_item. frame. Qed.
Lemma advertise_frame now : keeps no_new_requests (advertise_inventory now).
Proof. unfold advertise_inventory, advertise_to_peer. frame. Qed.
Lemma deletion_frame a : keeps no_new_requests (schedule_peer_for_deletion a).
Proof.
  unfold schedule_peer_for_deletion. frame. intros s. cbn. split; [done|]. intros a' m Hm. right.
  unfold requests_of in *. cbn in Hm. rewrite fmap_delete in Hm. apply lookup_delete_Some in Hm as [_ Hm]. eauto.
Qed.
#[local] Hint Resolve deletion_frame : keeps.
Lemma inactivity_frame now : keeps no_new_requests (terminate_inactive_connections fresh now).
Proof. unfold terminate_inactive_connections. frame. Qed.
Lemma connected_frame a p : keeps no_new_requests (new_connection a p).
Proof.
  intros s. unfold new_connection. cbn. destruct (nd_peers s !! a) eqn:Ha; [reflexivity|].
  split; [done|]. intros a' m Hm. unfold requests_of in *. cbn in Hm. rewrite fmap_insert in Hm.
  apply lookup_insert_Some in Hm as [[-> <-]|[_ Hm]]; [by left|eauto].
Qed.
#[local] Hint Resolve backlog_frame normal_operation_frame ordinary_frame fetch_items_frame advertise_frame
  inactivity_frame connected_frame : keeps.

(** ** Requests that are answered or given up *)

Lemma erased_lookup (hs : list Z) (m : gmap Z Z) h : h ∉ hs -> foldr delete m hs !! h = m !! h.
Proof.
  induction hs as [|x hs IH]; cbn; [done|]. intros [Hne Hn]%not_elem_of_cons.
  rewrite lookup_delete_ne by congruence. auto.
Qed.

(** Blocks that were asked of [a] are asked of it no more, and are no longer noted. *)
Lemma erase_step s s' a (hs : list Z) :
  nd_sync_requests s' = foldr delete (nd_sync_requests s) hs ->
  (forall h, h ∈ hs -> asked_of s h a) ->
  (forall a' m', requests_of s' !! a' = Some m' -> m' = ∅ \/ exists m, requests_of s !! a' = Some m /\ m' ⊆ m) ->
  (forall h, h ∈ hs -> ~ asked_of s' h a) ->
  requests_step s s'.
Proof.
  intros E Hasked Hr Hgone Ho.
  assert (Hb : forall b m' i, requests_of s' !! b = Some m' -> is_Some (m' !! i) ->
            exists m, requests_of s !! b = Some m /\ is_Some (m !! i)).
  { intros b m' i Hm Hi. destruct (Hr b m' Hm) as [->|(m & Hm1 & Hs)].
    - rewrite lookup_empty in Hi. by destruct Hi.
    - exists m. split; [done|]. destruct Hi as [t Ht]. exists t. by eapply lookup_weaken. }
  split; [split|].
  - intros b m i Hm Hi. destruct (Hb b m i Hm Hi) as (m0 & Hm0 & Hi0).
    destruct (ro_noted s Ho b m0 i Hm0 Hi0) as [Ht Hn]. split; [done|]. rewrite E.
    destruct (decide (item_hash i ∈ hs)) as [Hin|Hout]; [|by rewrite erased_lookup].
    exfalso. assert (Ei : i = mk_item block_item (item_hash i)) by (destruct i; cbn in *; by subst).
    destruct (Hasked _ Hin) as (m1 & Hm1 & Hi1). rewrite <- Ei in Hi1.
    assert (b = a) as -> by exact (ro_once s Ho b a m0 m1 i Hm0 Hm1 Hi0 Hi1).
    apply (Hgone _ Hin). exists m. split; [done|]. by rewrite <- Ei.
  - intros b b' m m' i Hm Hm' Hi Hi'.
    destruct (Hb b m i Hm Hi) as (m0 & Hm0 & Hi0). destruct (Hb b' m' i Hm' Hi') as (m1 & Hm1 & Hi1).
    exact (ro_once s Ho b b' m0 m1 i Hm0 Hm1 Hi0 Hi1).
  - intros h [Hn Ha]. split.
    + rewrite E, erased_lookup; [done|]. intros Hin. exact (Ha a (Hasked h Hin)).
    + intros b (m & Hm & Hi). destruct (Hb b m _ Hm Hi) as (m0 & Hm0 & Hi0). apply (Ha b). by exists m0.
Qed.

Lemma frame_keeps_step {A} (m : eff node A) : keeps no_new_requests m -> keeps requests_step m.
Proof. intros Hm s. apply no_new_requests_step, Hm. Qed.

(** The two deletions of [process_block_message]. *)
Lemma answered_step s a h p :
  nd_peers s !! a = Some p -> is_Some (pr_sync_requested p !! mk_item block_item h) ->
  requests_step s
    (set_nd_sync_requests (delete h (nd_sync_requests s))
      (upd_peer a (fun p => set_pr_sync_requested (delete (mk_item block_item h) (pr_sync_requested p)) p) s)).
Proof.
  intros Hp Hi. apply (erase_step _ _ a [h]); [done| | |].
  - intros h' ->%list_elem_of_singleton. exists (pr_sync_requested p). unfold requests_of.
    by rewrite lookup_fmap, Hp.
  - intros a' m' Hm. right.
    destruct (decide (a' = a)) as [->|Hne]; unfold requests_of in *; cbn in Hm; rewrite lookup_fmap in *.
    + rewrite lookup_alter_eq, Hp in Hm. rewrite Hp. cbn in *. simplify_eq.
      eexists. split; [done|]. apply delete_subseteq.
    + rewrite lookup_alter_ne in Hm by done. eauto.
  - intros h' ->%list_elem_of_singleton (m & Hm & Hs). unfold requests_of in Hm. cbn in Hm.
    rewrite lookup_fmap, lookup_alter_eq, Hp in Hm. cbn in Hm. simplify_eq. rewrite lookup_delete_eq in Hs.
    by destruct Hs.
Qed.

Lemma get_peer_run a s :
  (exists p, nd_peers s !! a = Some p /\ get_peer a s = (s, Ok p)) \/ get_peer a s = (s, Err memory_fault).
Proof. unfold get_peer, reads. destruct (nd_peers s !! a) as [p|]; cbn; eauto. Qed.

Lemma process_block_message_step now a m h : keeps requests_step (process_block_message fresh now a m h).
Proof.
  unfold process_block_message. apply (keeps_bind _); [by apply frame_keeps_step; frame|]. intros b s.
  unfold mbind at 1, eff_mbind at 1.
  destruct (get_peer_run a s) as [(p & Hp & E)|E]; rewrite E; [|done]. cbv zeta.
  case_bool_decide as H1; [apply frame_keeps_step; unfold trigger_fetch_items_loop; frame|].
  case_bool_decide as H2; [|apply frame_keeps_step; frame].
  unfold mbind at 1, eff_mbind at 1, on_peer at 1, update at 1.
  unfold mbind at 1, eff_mbind at 1, update at 1.
  etrans; [exact (answered_step s a _ p Hp H2)|]. apply frame_keeps_step.
  unfold process_block_during_sync, trigger_process_backlog_of_sync_blocks, trigger_fetch_sync_items_loop. frame.
Qed.

(** A connection that has been closed is in no list, and stays out. *)
Definition lists_of (s : node) : gset Z := nd_handshaking s ∪ nd_active s ∪ nd_closing s ∪ nd_terminating s.
Definition same_lists (s s' : node) : Prop := lists_of s' = lists_of s.
#[local] Instance same_lists_refl : Reflexive same_lists.
Proof. done. Qed.
#[local] Instance same_lists_trans : Transitive same_lists.
Proof. unfold same_lists. congruence. Qed.

Lemma want_offered_run i s :
  exists s', want_offered_item i s = (s', Ok tt) /\ same_lists s s'.
Proof.
  unfold want_offered_item, mbind, eff_mbind, reads. destruct (is_item_in_any_peers_inventory i s); [|by eexists].
  unfold want_item. destruct (insert_item _ _). by eexists.
Qed.
Lemma want_all_run l s : exists s', eff_each want_offered_item l s = (s', Ok tt) /\ same_lists s s'.
Proof.
  revert s. induction l as [|i l IH]; intros s; [by eexists|].
  destruct (want_offered_run i s) as (s1 & E1 & L1). destruct (IH s1) as (s2 & E2 & L2).
  exists s2. split; [|by etrans]. unfold eff_each in *. cbn. unfold mbind, eff_mbind. by rewrite E1.
Qed.
Lemma report_lists : keeps same_lists report_connections.
Proof.
  intros s. unfold report_connections, tell_delegate, mbind, eff_mbind, reads, update, mret, eff_mret.
  by destruct (Z.of_nat (size (nd_active s)) =? nd_last_reported s).
Qed.
Lemma update_known_peer_lists e f : keeps same_lists (update_known_peer fresh e f).
Proof. intros s. unfold update_known_peer, update. cbn. by case_match. Qed.

Lemma forget_leaves_lists now a s s' u : forget_connection fresh now a s = (s', Ok u) -> a ∉ lists_of s'.
Proof.
  unfold forget_connection. intros H. inv_eff. simplify_eq. cbn in H.
  case_bool_decide as Ha; cbn in H; [|inv_eff; unfold lists_of; cbn; set_solver].
  assert (L : lists_of s' = lists_of (set_nd_active (nd_active x1 ∖ {[a]})
                (set_nd_closing (nd_closing x1 ∖ {[a]}) (set_nd_handshaking (nd_handshaking x1 ∖ {[a]})
                  (set_nd_terminating (nd_terminating x1 ∖ {[a]}) x1))))).
  { inv_eff. destruct (pr_remote_endpoint x0); inv_eff; [|done].
    match goal with
    | H : update_known_peer fresh ?e ?f ?st = _ |- _ =>
        pose proof (update_known_peer_lists e f st) as L; rewrite H in L; exact L
    end. }
  rewrite L. unfold lists_of. cbn. set_solver.
Qed.

Lemma foldr_delete_hashes (l : list item_id) (m : gmap Z Z) :
  foldr (fun i m => delete (item_hash i) m) m l = foldr delete m (map item_hash l).
Proof. induction l as [|i l IH]; cbn; [done|]. by rewrite IH. Qed.

(** The rest of [on_connection_closed], after the lists have been left. *)
Lemma reschedule_step s s4 a p :
  requests_ok s -> nd_peers s !! a = Some p ->
  no_new_requests (set_nd_sync_requests (foldr delete (nd_sync_requests s)
    (map item_hash (map_to_list (pr_sync_requested p)).*1)) s) s4 ->
  requests_step s (set_nd_peers (delete a (nd_peers s4)) s4).
Proof.
  intros Ho Hp [E Hr].
  assert (Hd : requests_of (set_nd_peers (delete a (nd_peers s4)) s4) = delete a (requests_of s4))
    by (unfold requests_of; cbn; apply fmap_delete).
  apply (erase_step _ _ a (map item_hash (map_to_list (pr_sync_requested p)).*1)); [exact E| | |].
  - intros h (i & -> & Hi)%list_elem_of_fmap. apply list_elem_of_fmap in Hi as ([i' t] & -> & Hi).
    apply elem_of_map_to_list in Hi. exists (pr_sync_requested p). cbn.
    assert (Hm : requests_of s !! a = Some (pr_sync_requested p))
      by (unfold requests_of; by rewrite lookup_fmap, Hp).
    split; [done|]. destruct (ro_noted s Ho a _ i' Hm ltac:(by eexists)) as [Ht _].
    destruct i'; cbn in *; subst. by eexists.
  - intros a' m'. rewrite Hd. intros [_ Hm]%lookup_delete_Some. exact (Hr a' m' Hm).
  - intros h _ (m & Hm & _). by rewrite Hd, lookup_delete_eq in Hm.
Qed.

Lemma deletion_run a s : a ∉ lists_of s ->
  schedule_peer_for_deletion a s = (set_nd_peers (delete a (nd_peers s)) s, Ok tt).
Proof.
  intros Ha. unfold schedule_peer_for_deletion, mbind, eff_mbind, reads, update.
  by rewrite bool_decide_eq_false_2.
Qed.

Lemma reschedule_run p s : exists s',
  reschedule_requests p s = (s', Ok tt) /\ same_lists s s' /\
  no_new_requests (set_nd_sync_requests (foldr delete (nd_sync_requests s)
    (map item_hash (map_to_list (pr_sync_requested p)).*1)) s) s'.
Proof.
  set (s2 := set_nd_sync_requests _ s).
  assert (H1 : exists s3, (if bool_decide (pr_sync_requested p = ∅) then mret tt
       else _ ← update (fun s => set_nd_sync_requests
               (foldr (fun i m => delete (item_hash i) m) (nd_sync_requests s) (map_to_list (pr_sync_requested p)).*1) s);
         trigger_fetch_sync_items_loop) s = (s3, Ok tt) /\ same_lists s s3 /\ no_new_requests s2 s3).
  { case_bool_decide as He.
    - exists s. split_and!; [done..|]. unfold s2. rewrite He, map_to_list_empty. cbn. split; [done|eauto].
    - eexists. split; [reflexivity|]. split; [done|]. split; [|eauto].
      cbn. apply foldr_delete_hashes. }
  destruct H1 as (s3 & E3 & L3 & F3). unfold reschedule_requests, mbind at 1, eff_mbind at 1. rewrite E3.
  clear E3. case_bool_decide.
  - by exists s3.
  - destruct (want_all_run (map_to_list (pr_requested p)).*1 s3) as (s4 & E4 & L4).
    unfold mbind, eff_mbind. rewrite E4. eexists. split; [reflexivity|]. split; [exact (transitivity L3 L4)|].
    etrans; [exact F3|]. etrans; [|apply (no_new_update (set_nd_fetch_updated true)); done].
    change s4 with (s4, Ok tt : result unit).1. rewrite <- E4. apply (keeps_each no_new_requests).
    intros i _. apply want_offered_frame.
Qed.

Lemma on_connection_closed_step now a : keeps requests_step (on_connection_closed fresh now a).
Proof.
  intros s. unfold on_connection_closed, mbind at 1, eff_mbind at 1.
  pose proof (forget_frame now a s) as F1. pose proof (forget_leaves_lists now a s) as L1.
  destruct (forget_connection fresh now a s) as [s1 [u|e]]; cbn [fst] in F1; [|by apply no_new_requests_step].
  specialize (L1 s1 u eq_refl). unfold mbind at 1, eff_mbind at 1.
  pose proof (report_frame s1) as F2. pose proof (report_lists s1) as L2.
  destruct (report_connections s1) as [s2 [u2|e]]; cbn [fst] in F2, L2;
    [|apply no_new_requests_step; exact (transitivity F1 F2)].
  etrans; [apply no_new_requests_step; exact (transitivity F1 F2)|]. unfold mbind at 1, eff_mbind at 1.
  destruct (get_peer_run a s2) as [(p & Hp & E)|E]; rewrite E; [|reflexivity].
  destruct (reschedule_run p s2) as (s4 & E4 & L4 & F4). unfold mbind, eff_mbind. rewrite E4.
  rewrite deletion_run by (rewrite L4, L2; exact L1). intros Ho.
  exact (reschedule_step s2 s4 a p Ho Hp F4 Ho).
Qed.

(** ** Requests that are made *)

(** What is chosen of a peer's list is new, wanted and chosen once. *)
Lemma choose_items_spec limit unwanted chosen mine ids :
  exists new, choose_items limit unwanted chosen mine ids = (mine ++ new, list_to_set new ∪ chosen) /\
    NoDup new /\ forall h, h ∈ new -> h ∉ chosen /\ unwanted h = false /\ h ∈ ids.
Proof.
  revert chosen mine. induction ids as [|h ids IH]; intros chosen mine; cbn.
  { exists []. rewrite app_nil_r. split_and!; [f_equal; set_solver|constructor|set_solver]. }
  destruct (unwanted h) eqn:Hu; cbn.
  { destruct (IH chosen mine) as (new & E & Hn & Hw). exists new. split_and!; [done..|].
    intros x Hx. destruct (Hw x Hx) as (? & ? & ?). split_and!; [done..|by right]. }
  case_bool_decide as Hc; cbn.
  { destruct (IH chosen mine) as (new & E & Hn & Hw). exists new. split_and!; [done..|].
    intros x Hx. destruct (Hw x Hx) as (? & ? & ?). split_and!; [done..|by right]. }
  destruct (limit <=? length (mine ++ [h]))%nat.
  { exists [h]. split_and!; [f_equal; set_solver|apply NoDup_singleton|].
    intros x ->%list_elem_of_singleton. split_and!; [done..|left]. }
  destruct (IH ({[ h ]} ∪ chosen) (mine ++ [h])) as (new & E & Hn & Hw). exists (h :: new). split_and!.
  - rewrite E, <- app_assoc. cbn. f_equal. set_solver.
  - constructor; [|done]. intros Hx. destruct (Hw h Hx). set_solver.
  - intros x [->|Hx]%elem_of_cons; [split_and!; [done..|left]|].
    destruct (Hw x Hx) as (? & ? & ?). split_and!; [set_solver|done|by right].
Qed.

Record scheduled (s : node) (acc : list (Z * list Z) * gset Z) : Prop := {
  sc_once : NoDup (concat acc.1.*2);
  sc_chosen h : h ∈ concat acc.1.*2 <-> h ∈ acc.2;
  sc_wanted h : h ∈ concat acc.1.*2 -> unwanted_sync_item s h = false
}.

Lemma schedule_peer_requests_spec s acc x :
  scheduled s acc -> scheduled s (schedule_peer_requests s acc x) /\ acc.2 ⊆ (schedule_peer_requests s acc x).2.
Proof.
  intros Hs. unfold schedule_peer_requests. destruct (can_fetch_from x.2); [|done].
  destruct (choose_items_spec (li_blocks_per_peer (nd_limits s)) (unwanted_sync_item s) acc.2 [] (pr_ids_to_get x.2))
    as (new & E & Hn & Hw). rewrite E. cbn. split; [|set_solver].
  assert (Hc : concat (if bool_decide (new = []) then acc.1 else acc.1 ++ [(x.1, new)]).*2 = concat acc.1.*2 ++ new).
  { case_bool_decide as He; [by rewrite He, app_nil_r|]. rewrite fmap_app, concat_app. cbn. by rewrite app_nil_r. }
  split; cbn; rewrite Hc.
  - apply NoDup_app. split_and!; [apply Hs| |done]. intros h Hh Hx.
    destruct (Hw h Hx) as [Hnc _]. apply Hnc. by apply (sc_chosen _ _ Hs).
  - intros h. rewrite elem_of_app, (sc_chosen _ _ Hs). set_solver.
  - intros h [Hh|Hh]%elem_of_app; [by apply (sc_wanted _ _ Hs)|by apply Hw].
Qed.

Lemma schedule_all_spec s l acc :
  scheduled s acc -> scheduled s (foldl (schedule_peer_requests s) acc l) /\
  acc.2 ⊆ (foldl (schedule_peer_requests s) acc l).2.
Proof.
  revert acc. induction l as [|x l IH]; intros acc Hs; cbn; [done|].
  destruct (schedule_peer_requests_spec s acc x Hs) as [Hs1 Hc1]. destruct (IH _ Hs1) as [Hs2 Hc2].
  split; [done|set_solver].
Qed.
Lemma schedule_start s : scheduled s ([], ∅).
Proof. split; cbn; [constructor|set_solver|set_solver]. Qed.

(** One request: the block was not noted before. *)
Definition requested (now a h : Z) (s : node) : node := (request_sync_item now a h s).1.
Lemma request_run now a h s : request_sync_item now a h s = (requested now a h s, Ok tt).
Proof. done. Qed.

Lemma requested_noted now a h s : nd_sync_requests s !! h = None ->
  nd_sync_requests (requested now a h s) = <[h := now]> (nd_sync_requests s).
Proof.
  intros Hn. change (nd_sync_requests (requested now a h s)) with
    (if bool_decide (is_Some (nd_sync_requests s !! h)) then nd_sync_requests s else <[h := now]> (nd_sync_requests s)).
  rewrite bool_decide_eq_false_2; [done|]. rewrite Hn. by intros [? ?].
Qed.

Lemma requested_peers now a h s :
  nd_peers (requested now a h s) =
  alter (fun p => set_pr_sync_requested
    (if bool_decide (is_Some (pr_sync_requested p !! mk_item block_item h)) then pr_sync_requested p
     else <[mk_item block_item h := now]> (pr_sync_requested p)) p) a (nd_peers s).
Proof. reflexivity. Qed.
Lemma requested_of now a h s b m : requests_of (requested now a h s) !! b = Some m ->
  exists m0, requests_of s !! b = Some m0 /\
    forall i, is_Some (m !! i) -> is_Some (m0 !! i) \/ (b = a /\ i = mk_item block_item h).
Proof.
  unfold requests_of. rewrite !lookup_fmap, requested_peers. destruct (decide (b = a)) as [->|Hne].
  - rewrite lookup_alter_eq. destruct (nd_peers s !! a) as [p|]; cbn; [|done]. intros [= <-].
    eexists. split; [done|]. intros i. case_bool_decide; [by left|].
    destruct (decide (i = mk_item block_item h)) as [->|Hi]; [by right|]. rewrite lookup_insert_ne by done. by left.
  - rewrite lookup_alter_ne by done. intros Hm. eexists. split; [done|]. by left.
Qed.

Lemma requested_step now a h s : nd_sync_requests s !! h = None -> requests_step s (requested now a h s).
Proof.
  intros Hn Ho. pose proof (requested_noted now a h s Hn) as E.
  assert (Hfree : forall b m, requests_of s !! b = Some m -> ~ is_Some (m !! mk_item block_item h)).
  { intros b m Hm Hi. destruct (ro_noted s Ho b m _ Hm Hi) as [_ [t Ht]]. cbn in Ht. congruence. }
  split; [split|].
  - intros b m i Hm Hi. destruct (requested_of _ _ _ _ _ _ Hm) as (m0 & Hm0 & Hd). rewrite E.
    destruct (Hd i Hi) as [Hi0|[_ ->]]; [|split; [done|]; cbn; rewrite lookup_insert_eq; by eexists].
    destruct (ro_noted s Ho b m0 i Hm0 Hi0) as [Ht Hs]. split; [done|]. rewrite lookup_insert_ne; [done|].
    intros Eh. rewrite <- Eh in Hs. destruct Hs as [? Hs]. congruence.
  - intros b b' m m' i Hm Hm' Hi Hi'.
    destruct (requested_of _ _ _ _ _ _ Hm) as (m0 & Hm0 & Hd). destruct (requested_of _ _ _ _ _ _ Hm') as (m1 & Hm1 & Hd').
    destruct (Hd i Hi) as [Hi0|[-> Ei]], (Hd' i Hi') as [Hi1|[-> Ei']].
    + exact (ro_once s Ho b b' m0 m1 i Hm0 Hm1 Hi0 Hi1).
    + rewrite Ei' in Hi0. by destruct (Hfree _ _ Hm0).
    + rewrite Ei in Hi1. by destruct (Hfree _ _ Hm1).
    + done.
  - intros h' [Hs Ha]. assert (h' <> h) by (intros ->; destruct Hs; congruence). split.
    + rewrite E, lookup_insert_ne by done. done.
    + intros b (m & Hm & Hi). destruct (requested_of _ _ _ _ _ _ Hm) as (m0 & Hm0 & Hd).
      destruct (Hd _ Hi) as [Hi0|[_ [=]]]; [|done]. apply (Ha b). by exists m0.
Qed.

Lemma request_items now a hs rest s :
  NoDup (hs ++ rest) -> (forall h, h ∈ hs ++ rest -> nd_sync_requests s !! h = None) ->
  exists s', eff_each (request_sync_item now a) hs s = (s', Ok tt) /\ requests_step s s' /\
    (forall h, h ∈ rest -> nd_sync_requests s' !! h = None) /\
    (forall h, h ∈ hs \/ is_Some (nd_sync_requests s !! h) -> is_Some (nd_sync_requests s' !! h)).
Proof.
  revert s. induction hs as [|h hs IH]; intros s Hd Hn.
  { exists s. split_and!; [done|reflexivity|done|]. intros h [Hh|Hh]; [by apply elem_of_nil in Hh|done]. }
  cbn in Hd. apply NoDup_cons in Hd as [Hh Hd]. pose proof (Hn h ltac:(left)) as Hfree.
  pose proof (requested_noted now a h s Hfree) as E.
  destruct (IH (requested now a h s) Hd) as (s' & E' & Hs' & Hr & Hy).
  { intros x Hx. rewrite E, lookup_insert_ne by (intros <-; done). apply Hn. by right. }
  exists s'. split_and!; [|etrans; [by apply requested_step|exact Hs']|done|].
  - unfold eff_each in *. cbn [eff_fold]. unfold mbind, eff_mbind. by rewrite request_run.
  - intros x Hx. apply Hy. rewrite E. destruct (decide (x = h)) as [->|Hne].
    + right. rewrite lookup_insert_eq. by eexists.
    + rewrite lookup_insert_ne by done. destruct Hx as [[->|Hx]%elem_of_cons|Hx]; auto. done.
Qed.

Lemma request_all now l s :
  NoDup (concat l.*2) -> (forall h, h ∈ concat l.*2 -> nd_sync_requests s !! h = None) ->
  exists s', eff_each (fun x : Z * list Z => request_sync_items_from_peer now x.1 x.2) l s = (s', Ok tt) /\
    requests_step s s' /\
    forall h, h ∈ concat l.*2 \/ is_Some (nd_sync_requests s !! h) -> is_Some (nd_sync_requests s' !! h).
Proof.
  revert s. induction l as [|[a hs] l IH]; intros s Hd Hn.
  { exists s. split_and!; [done|reflexivity|]. intros h [Hh|Hh]; [by apply elem_of_nil in Hh|done]. }
  cbn in Hd, Hn. destruct (request_items now a hs (concat l.*2) s Hd Hn) as (s1 & E1 & Hs1 & Hr1 & Hy1).
  set (s2 := set_nd_outbox (nd_outbox s1 ++ [(a, fetch_items_message block_item hs)]) s1).
  destruct (IH s2) as (s3 & E3 & Hs3 & Hy3); [by apply NoDup_app in Hd as (_ & _ & ?)|exact Hr1|].
  exists s3. split_and!.
  - unfold eff_each in *. cbn [eff_fold]. unfold mbind at 1, eff_mbind at 1, request_sync_items_from_peer at 1.
    unfold mbind at 1, eff_mbind at 1. cbn [fst snd] in *. unfold eff_each in E1. unfold eff_each. rewrite E1. exact E3.
  - etrans; [exact Hs1|]. etrans; [|exact Hs3]. apply no_new_requests_step. split; [done|eauto].
  - intros h Hh. apply Hy3. cbn in Hh. rewrite elem_of_app in Hh.
    destruct Hh as [[Hh|Hh]|Hh]; [right; apply Hy1; by left|by left|right; apply Hy1; by right].
Qed.

Lemma fetch_sync_items_run now s : nd_suspend_fetching s = false -> exists s',
  fetch_sync_items now s = (s', Ok tt) /\ requests_step s s' /\
  forall h, h ∈ concat (sync_item_requests_to_send s).*2 \/ is_Some (nd_sync_requests s !! h) ->
    is_Some (nd_sync_requests s' !! h).
Proof.
  intros Hs. destruct (schedule_all_spec s (active_peers s) _ (schedule_start s)) as [Hsc _].
  destruct (request_all now (sync_item_requests_to_send s) (set_nd_sync_fetch_updated false s)) as (s' & E & Hst & Hy).
  - apply (sc_once _ _ Hsc).
  - intros h Hh. apply (sc_wanted _ _ Hsc) in Hh. unfold unwanted_sync_item in Hh.
    apply orb_false_iff in Hh as [_ Hh]. apply bool_decide_eq_false, eq_None_not_Some in Hh. exact Hh.
  - exists s'. split_and!; [|etrans; [|exact Hst]; apply no_new_requests_step; split; [done|eauto]|exact Hy].
    unfold fetch_sync_items, mbind, eff_mbind, update, reads. cbn [fst snd].
    change (nd_suspend_fetching (set_nd_sync_fetch_updated false s)) with (nd_suspend_fetching s). rewrite Hs. exact E.
Qed.

Lemma fetch_sync_items_step now : keeps requests_step (fetch_sync_items now).
Proof.
  intros s. destruct (nd_suspend_fetching s) eqn:Hs.
  - unfold fetch_sync_items, mbind, eff_mbind, update, reads.
    change (nd_suspend_fetching (set_nd_sync_fetch_updated false s)) with (nd_suspend_fetching s). rewrite Hs.
    apply no_new_requests_step. split; [done|]. cbn. eauto.
  - destruct (fetch_sync_items_run now s Hs) as (s' & -> & Hst & _). exact Hst.
Qed.

(** ** The theorems *)

Lemma happens_step now e : keeps requests_step (happens fresh now e).
Proof.
  destruct e; cbn [happens];
    [..|apply frame_keeps_step; unfold start_synchronizing; frame].
  all: try (apply frame_keeps_step; frame; fail).
  - destruct m; cbn [on_message]; try (apply frame_keeps_step; unfold on_current_time_request_message; frame; fail).
    case_match; [apply process_block_message_step|]. case_match; apply frame_keeps_step; frame.
  - apply on_connection_closed_step.
  - apply fetch_sync_items_step.
Qed.

Lemma run_events_step l s : requests_step s (run_events fresh l s).
Proof.
  revert s. induction l as [|[now e] l IH]; intros s; cbn; [reflexivity|].
  etrans; [apply happens_step|apply IH].
Qed.

(** C25: Whatever happens to a node, no block is asked of two peers at a time during
    synchronisation, and every block asked of a peer is noted as asked for. *)
Theorem block_requested_once l s h a a' :
  requests_ok s -> let s' := run_events fresh l s in
  asked_of s' h a -> asked_of s' h a' -> a = a' /\ is_Some (nd_sync_requests s' !! h).
Proof.
  intros Ho s' (m & Hm & Hi) (m' & Hm' & Hi'). destruct (run_events_step l s Ho) as [Ho' _].
  split; [exact (ro_once _ Ho' a a' m m' _ Hm Hm' Hi Hi')|]. by destruct (ro_noted _ Ho' a m _ Hm Hi).
Qed.

(** C26: A block that a peer says it does not have, after it was asked for it during
    synchronisation, is never asked of any peer by the synchronisation again, because it
    stays noted as asked for.  (Under the id of its message it may still be fetched if a
    peer advertises it.) *)
Theorem unavailable_block_is_lost now l s a p h a' :
  requests_ok s -> nd_peers s !! a = Some p ->
  pr_requested p !! mk_item block_item h = None -> is_Some (pr_sync_requested p !! mk_item block_item h) ->
  let s1 := (on_item_not_available_message fresh now a (mk_item block_item h) s).1 in
  ~ asked_of (run_events fresh l s1) h a' /\ is_Some (nd_sync_requests (run_events fresh l s1) !! h).
Proof.
  intros Ho Hp Hr Hi s1.
  set (drop := fun p => set_pr_sync_requested (delete (mk_item block_item h) (pr_sync_requested p)) p).
  destruct (no_new_requests_step _ _ (no_new_on_peer a drop ltac:(intros ?; apply delete_subseteq) s) Ho) as [Hod _].
  assert (F : no_new_requests (upd_peer a drop s) s1).
  { unfold s1, on_item_not_available_message, mbind at 1, eff_mbind at 1.
    unfold get_peer at 1, reads at 1. rewrite Hp. cbn [require].
    rewrite bool_decide_eq_false_2 by (rewrite Hr; by intros [? ?]). rewrite bool_decide_eq_true_2 by done.
    unfold mbind at 1, eff_mbind at 1, on_peer at 1, update at 1.
    enough (keeps no_new_requests (_ ← (if pr_peer_needs p then on_peer a (set_pr_inhibit true)
       else disconnect_from_peer fresh now a missing_sync_item true (Some (told_reason missing_sync_item)));
       trigger_fetch_sync_items_loop)) as K by exact (K (upd_peer a drop s)).
    unfold trigger_fetch_sync_items_loop. frame. }
  assert (Hl : lost h (upd_peer a drop s)).
  { assert (Hm : requests_of s !! a = Some (pr_sync_requested p)) by (unfold requests_of; by rewrite lookup_fmap, Hp).
    split; [by destruct (ro_noted s Ho a _ _ Hm Hi)|]. intros b (m & Hb & Hs). unfold requests_of in Hb. cbn in Hb.
    rewrite lookup_fmap in Hb. destruct (decide (b = a)) as [->|Hne].
    - rewrite lookup_alter_eq, Hp in Hb. cbn in Hb. simplify_eq. rewrite lookup_delete_eq in Hs. by destruct Hs.
    - rewrite lookup_alter_ne, <- lookup_fmap in Hb by done.
      apply Hne. exact (ro_once s Ho b a m _ _ Hb Hm Hs Hi). }
  destruct (no_new_requests_step _ _ F Hod) as [Ho1 Hl1].
  destruct (run_events_step l s1 Ho1) as [_ Hk]. destruct (Hk h (Hl1 h Hl)) as [Hs Hn]. split; [apply Hn|done].
Qed.

Lemma choose_first limit unwanted chosen mine ids i h :
  list_find (fun h => unwanted h = false) ids = Some (i, h) -> h ∈ (choose_items limit unwanted chosen mine ids).2.
Proof.
  revert i. induction ids as [|x ids IH]; intros i; [done|]. intros Hf. cbn in Hf.
  destruct (unwanted x) eqn:Hu; cbn [choose_items]; rewrite Hu; cbn [orb].
  - destruct (decide _) as [E|_]; [done|]. apply fmap_Some in Hf as ([j y] & Hf & [= -> ->]). exact (IH j Hf).
  - destruct (decide _) as [_|E]; [|done]. simplify_eq. case_bool_decide as Hc.
    + destruct (choose_items_spec limit unwanted chosen mine ids) as (new & -> & _). set_solver.
    + destruct (limit <=? length (mine ++ [h]))%nat; [cbn; set_solver|].
      destruct (choose_items_spec limit unwanted ({[ h ]} ∪ chosen) (mine ++ [h]) ids) as (new & -> & _). set_solver.
Qed.

(** ** What is asked of whom *)

(** The requests that are scheduled go to peers that offered the blocks and can be
    asked. *)
Definition scheduled_from (s : node) (l : list (Z * peer)) (r : list (Z * list Z)) : Prop :=
  forall b hs, (b, hs) ∈ r ->
    exists q, (b, q) ∈ l /\ can_fetch_from q = true /\ forall h, h ∈ hs -> h ∈ pr_ids_to_get q.

Lemma requests_scheduled_from s : scheduled_from s (active_peers s) (sync_item_requests_to_send s).
Proof.
  unfold sync_item_requests_to_send. induction (active_peers s) as [|x l IH] using rev_ind.
  { intros b hs Hb. by apply elem_of_nil in Hb. }
  rewrite foldl_app. cbn [foldl]. set (acc := foldl _ _ l) in *.
  assert (Hmore : scheduled_from s (l ++ [x]) acc.1).
  { intros b hs (q & Hq & ?)%IH. exists q. split; [by apply elem_of_app; left|done]. }
  unfold schedule_peer_requests. destruct (can_fetch_from x.2) eqn:Hc; [|done].
  destruct (choose_items_spec (li_blocks_per_peer (nd_limits s)) (unwanted_sync_item s) acc.2 [] (pr_ids_to_get x.2))
    as (new & E & _ & Hw). rewrite E. cbn [app fst]. case_bool_decide; [done|].
  intros b hs [Hb|Hb]%elem_of_app; [by apply Hmore|]. apply list_elem_of_singleton in Hb. simplify_eq.
  exists x.2. split_and!; [apply elem_of_app; right; destruct x; left|done|]. intros h Hh. by apply (Hw h).
Qed.

Lemma active_peer_known s b q : (b, q) ∈ active_peers s -> is_Some (nd_peers s !! b).
Proof.
  intros (x & _ & Hx)%list_elem_of_omap. apply fmap_Some in Hx as (p & Hp & [= -> ->]). eauto.
Qed.

(** Peers stay known and what was asked of them stays asked. *)
Definition asks_more (s s' : node) : Prop :=
  (forall b, is_Some (nd_peers s !! b) -> is_Some (nd_peers s' !! b)) /\
  forall h b, asked_of s h b -> asked_of s' h b.
#[local] Instance asks_more_preorder : PreOrder asks_more.
Proof. split; [by intros s|]. intros s1 s2 s3 [? ?] [? ?]. split; auto. Qed.

Lemma asked_of_peer s h b :
  asked_of s h b <-> exists p, nd_peers s !! b = Some p /\ is_Some (pr_sync_requested p !! mk_item block_item h).
Proof.
  unfold asked_of, requests_of. setoid_rewrite lookup_fmap. split.
  - intros (m & (p & Hp & ->)%fmap_Some & Hi). eauto.
  - intros (p & Hp & Hi). rewrite Hp. cbn. eauto.
Qed.

Lemma requested_asks now a h s :
  asks_more s (requested now a h s) /\ (is_Some (nd_peers s !! a) -> asked_of (requested now a h s) h a).
Proof.
  unfold asks_more. setoid_rewrite asked_of_peer. rewrite requested_peers.
  split; [split|].
  - intros b Hb. destruct (decide (a = b)) as [->|Hne]; [|by rewrite lookup_alter_ne].
    rewrite lookup_alter_eq. by apply fmap_is_Some.
  - intros h' b (p & Hp & Hi). destruct (decide (a = b)) as [->|Hne]; [|rewrite lookup_alter_ne by done; eauto].
    rewrite lookup_alter_eq, Hp. cbn. eexists. split; [done|]. cbn. case_bool_decide; [done|].
    rewrite lookup_insert. case_decide; [by eexists|done].
  - intros [p Hp]. rewrite lookup_alter_eq, Hp. cbn. eexists. split; [done|]. cbn.
    case_bool_decide; [done|]. rewrite lookup_insert_eq. by eexists.
Qed.

Lemma request_items_asks now a hs s s' :
  eff_each (request_sync_item now a) hs s = (s', Ok tt) ->
  asks_more s s' /\ nd_outbox s' = nd_outbox s /\
  (is_Some (nd_peers s !! a) -> forall h, h ∈ hs -> asked_of s' h a).
Proof.
  revert s. induction hs as [|h hs IH]; intros s.
  { intros [= <-]. split_and!; [reflexivity|done|]. intros _ h Hh. by apply elem_of_nil in Hh. }
  unfold eff_each in *. cbn [eff_fold]. unfold mbind, eff_mbind. rewrite request_run. intros Hr.
  destruct (requested_asks now a h s) as [Hm Ha]. destruct (IH _ Hr) as (Hm' & Ho & Ha').
  split_and!; [by etrans|exact Ho|]. intros Hp x [->|Hx]%elem_of_cons; [by apply Hm', Ha|].
  apply Ha'; [by apply Hm|done].
Qed.

(** The message that asks a peer for blocks. *)
Definition sync_request (x : Z * list Z) : Z * net_message := (x.1, fetch_items_message block_item x.2).

Lemma request_all_asks now l s s' :
  eff_each (fun x : Z * list Z => request_sync_items_from_peer now x.1 x.2) l s = (s', Ok tt) ->
  asks_more s s' /\ nd_outbox s' = nd_outbox s ++ (sync_request <$> l) /\
  forall b hs, (b, hs) ∈ l -> is_Some (nd_peers s !! b) -> forall h, h ∈ hs -> asked_of s' h b.
Proof.
  revert s. induction l as [|[a hs] l IH]; intros s.
  { intros [= <-]. split_and!; [reflexivity|by rewrite app_nil_r|]. intros b hs Hb. by apply elem_of_nil in Hb. }
  unfold eff_each in *. cbn [eff_fold fst snd]. intros (s1 & [] & H1 & H2)%eff_bind_Ok.
  unfold request_sync_items_from_peer in H1. apply eff_bind_Ok in H1 as (s0 & [] & H0 & H1). injection H1 as <-.
  destruct (request_items_asks _ _ _ _ _ H0) as (Hm0 & Ho0 & Ha0). apply IH in H2 as (Hm2 & Ho2 & Ha2).
  assert (Hm1 : asks_more s0 (set_nd_outbox (nd_outbox s0 ++ [(a, fetch_items_message block_item hs)]) s0)) by done.
  split_and!; [do 2 (etrans; [eassumption|]); done| |].
  - rewrite Ho2. cbn. by rewrite Ho0, <- app_assoc.
  - intros b hs' [[= -> ->]|Hin]%elem_of_cons Hp h Hh; [by apply Hm2, Hm1, Ha0|].
    eapply Ha2; [done| |done]. by apply Hm1, Hm0.
Qed.

(** C27: An iteration of the loop that fetches blocks, unless fetching is suspended,
    does not throw, and asks for the next block wanted of every peer that is idle, has
    blocks for the node and is not inhibited: the block is noted as asked for and as
    asked of a peer, this one or another that offered it and can be asked, and the
    message that asks this peer for it is sent, with no messages but such requests. *)
Theorem next_block_requested now s a p i h :
  nd_suspend_fetching s = false -> (a, p) ∈ active_peers s -> can_fetch_from p = true ->
  list_find (fun h => unwanted_sync_item s h = false) (pr_ids_to_get p) = Some (i, h) ->
  exists s' b q hs, fetch_sync_items now s = (s', Ok tt) /\ is_Some (nd_sync_requests s' !! h) /\
    (b, q) ∈ active_peers s /\ can_fetch_from q = true /\ h ∈ pr_ids_to_get q /\ asked_of s' h b /\
    h ∈ hs /\ (b, fetch_items_message block_item hs) ∈ nd_outbox s' /\
    nd_outbox s' = nd_outbox s ++ (sync_request <$> sync_item_requests_to_send s).
Proof.
  intros Hs Hp Hc Hf. destruct (fetch_sync_items_run now s Hs) as (s' & E & _ & Hy).
  assert (Hin : h ∈ concat (sync_item_requests_to_send s).*2).
  { unfold sync_item_requests_to_send. apply list_elem_of_split in Hp as (l1 & l2 & ->).
    rewrite foldl_app. cbn [foldl].
    destruct (schedule_all_spec s l1 _ (schedule_start s)) as [H1 _].
    set (acc := foldl _ ([], ∅) l1) in *.
    destruct (schedule_peer_requests_spec s acc (a, p) H1) as [H2 _].
    destruct (schedule_all_spec s l2 _ H2) as [H3 Hsub]. apply (sc_chosen _ _ H3). apply Hsub.
    unfold schedule_peer_requests. cbn [snd fst]. rewrite Hc.
    pose proof (choose_first (li_blocks_per_peer (nd_limits s)) _ acc.2 [] _ i h Hf) as Hh.
    by destruct (choose_items _ _ _ _ _). }
  assert (Hr := E). unfold fetch_sync_items, mbind, eff_mbind, update, reads in Hr.
  change (nd_suspend_fetching (set_nd_sync_fetch_updated false s)) with (nd_suspend_fetching s) in Hr.
  rewrite Hs in Hr. apply request_all_asks in Hr as (_ & Ho & Ha).
  assert (Hx := Hin). apply list_elem_of_In, in_concat in Hx as (hs & Hhs & Hh).
  apply list_elem_of_In, list_elem_of_fmap in Hhs as ([b hs'] & -> & Hb). apply list_elem_of_In in Hh. cbn in Hh.
  destruct (requests_scheduled_from s b hs' Hb) as (q & Hq & Hcq & Hoff).
  exists s', b, q, hs'. split_and!; [done|apply Hy; by left|done|done|by apply Hoff| |done| |exact Ho].
  - eapply Ha; [exact Hb| |done]. by eapply active_peer_known.
  - rewrite Ho. apply elem_of_app. right. apply list_elem_of_fmap. by exists (b, hs').
Qed.
End requests.

(** ** The message cache *)

Section cache.
Context {NM : NodeMessages}.
Implicit Types c : message_cache.

Lemma find_message_Some h c i : find_message h c = Some i -> i ∈ mc_messages c /\ mi_hash i = h.
Proof.
  unfold find_message. intros ([j i'] & Hf & ->)%fmap_Some. apply list_find_Some in Hf as (Hl & Hh & _).
  split; [by eapply list_elem_of_lookup_2|done].
Qed.
Lemma find_message_None h c : find_message h c = None <-> forall i, i ∈ mc_messages c -> mi_hash i <> h.
Proof.
  unfold find_message. rewrite fmap_None, list_find_None, Forall_forall. done.
Qed.

(** The entry a message has in the cache, and no other of its hash. *)
Definition only_entry (i : message_info) (c : message_cache) : Prop :=
  i ∈ mc_messages c /\ forall j, j ∈ mc_messages c -> mi_hash j = mi_hash i -> j = i.
Lemma only_entry_served i c : only_entry i c -> get_message (mi_hash i) c = Ok (mi_body i).
Proof.
  intros [Hi Hu]. unfold get_message. destruct (find_message (mi_hash i) c) as [j|] eqn:Hf.
  - apply find_message_Some in Hf as [Hj Hh]. by rewrite (Hu j Hj Hh).
  - by destruct (proj1 (find_message_None _ _) Hf i Hi).
Qed.

Lemma clock_after n c : mc_block_clock (Nat.iter n block_accepted c) = 
  match n with O => mc_block_clock c | S m => wrapu32 (mc_block_clock (Nat.iter m block_accepted c) + 1) end.
Proof. by destruct n. Qed.
Lemma clock_runs n c : 0 <= mc_block_clock c -> mc_block_clock c + Z.of_nat n < 2^32 ->
  mc_block_clock (Nat.iter n block_accepted c) = mc_block_clock c + Z.of_nat n.
Proof.
  intros H0. induction n as [|n IH]; intros Hn; [cbn; lia|]. rewrite clock_after, IH, wrapu32_id by lia. lia.
Qed.

Lemma block_accepted_entries i c :
  0 <= mc_block_clock c < 2^32 - 1 ->
  i ∈ mc_messages (block_accepted c) <->
  i ∈ mc_messages c /\ (2 < mc_block_clock c + 1 -> mc_block_clock c - 1 <= mi_block_clock i).
Proof.
  intros Hc. unfold block_accepted, cache_duration_in_blocks. rewrite wrapu32_id by lia. cbn.
  destruct (mc_block_clock c + 1 >? 2) eqn:Hg; cbn.
  - rewrite list_elem_of_filter. split; [intros [? ?]; split; [done|lia]|intros [? ?]; split; [lia|done]].
  - split; [intros ?; split; [done|lia]|by intros [? _]].
Qed.

(** A message is served from the cache until two blocks have been accepted after
    it was put there, and no longer after the third. *)
Theorem cached_for_two_blocks p hash data contents c n :
  find_message hash c = None -> 0 <= mc_block_clock c -> mc_block_clock c + Z.of_nat n < 2^32 ->
  get_message hash (Nat.iter n block_accepted (cache_message p hash data contents c)) =
  if (n <=? 2)%nat then Ok p else Err key_not_found_exception.
Proof.
  intros Hnew H0 Hn.
  set (i := mk_message_info hash p (mc_block_clock c) data contents).
  set (c1 := cache_message p hash data contents c).
  assert (E1 : c1 = mk_cache (mc_messages c ++ [i]) (mc_block_clock c)) by (unfold c1, cache_message; by rewrite Hnew).
  assert (Hu : forall j, j ∈ mc_messages c1 -> mi_hash j = hash -> j = i).
  { intros j. rewrite E1. cbn. intros [Hj| ->%list_elem_of_singleton]%elem_of_app Hh; [|done].
    by destruct (proj1 (find_message_None _ _) Hnew j Hj). }
  assert (Hk : forall m, (m <= n)%nat -> mc_block_clock (Nat.iter m block_accepted c1) = mc_block_clock c + Z.of_nat m).
  { intros m Hm. rewrite clock_runs; rewrite E1; cbn; lia. }
  assert (Hsub : forall m j, (m <= n)%nat -> j ∈ mc_messages (Nat.iter m block_accepted c1) -> j ∈ mc_messages c1).
  { induction m as [|m IH]; intros j Hm; [done|]. rewrite Nat.iter_succ. specialize (Hk m ltac:(lia)).
    rewrite block_accepted_entries by lia. intros [Hj _]. apply IH; [lia|done]. }
  assert (Hin : forall m, (m <= n)%nat -> i ∈ mc_messages (Nat.iter m block_accepted c1) <-> (m <= 2)%nat).
  { induction m as [|m IH]; intros Hm; [split; [lia|]; intros _; cbn; rewrite E1; set_solver|].
    rewrite Nat.iter_succ. pose proof (Hk m ltac:(lia)). rewrite block_accepted_entries, IH by lia. cbn. lia. }
  destruct (Nat.leb_spec n 2).
  - apply (only_entry_served i). split; [by apply Hin|]. intros j Hj. apply Hu. by apply (Hsub n).
  - unfold get_message. rewrite (proj2 (find_message_None hash _)); [done|]. intros j Hj Hh.
    pose proof (Hu j (Hsub n j ltac:(lia) Hj) Hh) as ->. apply Hin in Hj; lia.
Qed.
End cache.

(** ** The synopsis of a peer's blocks *)

Lemma next_low_last high low : 1 <= low <= high -> high < 2^31 -> high < next_low high low -> low = high.
Proof.
  intros Hl Hh. rewrite next_low_eq by done. intros Hn.
  pose proof (Z.div_mod (high - low + 2) 2 ltac:(lia)). pose proof (Z.mod_pos_bound (high - low + 2) 2 ltac:(lia)). lia.
Qed.

Lemma peer_synopsis_spec ids reference high fuel low :
  0 <= reference -> ids <> [] -> high = reference + Z.of_nat (length ids) -> high < 2^31 ->
  1 <= low <= high -> high - low < Z.of_nat fuel ->
  exists rest, peer_synopsis_loop fuel ids reference high low = Ok rest /\ last rest = last ids.
Proof.
  intros H0 Hne Hhigh Hb. revert low. induction fuel as [|fuel IH]; intros low Hl Hf; [lia|].
  cbn [peer_synopsis_loop].
  assert (Hi : exists item, (if low >? reference
      then x ← require (ids !! Z.to_nat (wrapu32 (low - reference - 1))) memory_fault; Ok [x] else Ok []) = Ok item /\
      (low = high -> last item = last ids)).
  { destruct (low >? reference) eqn:Hg.
    - rewrite wrapu32_id by lia.
      destruct (lookup_lt_is_Some_2 ids (Z.to_nat (low - reference - 1))) as [x Hx]; [lia|].
      rewrite Hx. exists [x]. split; [done|]. intros ->. rewrite (last_lookup ids). cbn. rewrite <- Hx. f_equal. lia.
    - exists []. split; [done|]. intros ->. assert (length ids <> 0%nat) by (by destruct ids). lia. }
  destruct Hi as (item & -> & Hlast). cbn -[peer_synopsis_loop].
  pose proof (next_low_grows high low Hl Hb). destruct (Z.leb_spec (next_low high low) high).
  - destruct (IH (next_low high low)) as (rest & -> & Hr); [lia|lia|]. exists (item ++ rest). split; [done|].
    rewrite last_app, Hr. destruct (last ids) eqn:El; [done|]. by apply last_None in El.
  - exists item. split; [done|]. apply Hlast. by apply (next_low_last high).
Qed.

Section sync.
Context {NM : NodeMessages} {D : Type} {ND : NodeDelegate D} (fresh : Z).
Local Abbreviation node := (@node NM D).
Implicit Types s : node.

(** The synopsis made for a peer whose list of blocks is not empty reads the list
    within its bounds and ends with the last of it, so both assertions hold. *)
Theorem synopsis_covers_list p s synopsis :
  pr_ids_to_get p <> [] -> 0 <= pr_last_number p ->
  pr_last_number p + Z.of_nat (length (pr_ids_to_get p)) < 2^31 ->
  dg_get_blockchain_synopsis (nd_delegate s) (nd_sync_item_type s) (pr_last_block p)
    (Z.of_nat (length (pr_ids_to_get p))) = Ok synopsis ->
  pr_last_block p = 0 \/ synopsis <> [] ->
  exists rest, create_blockchain_synopsis_for_peer p s = (s, Ok (synopsis ++ rest)) /\
    last (synopsis ++ rest) = last (pr_ids_to_get p).
Proof.
  intros Hne H0 Hb Hd Hs. assert (Hlen : (0 < length (pr_ids_to_get p))%nat) by (destruct (pr_ids_to_get p); cbn; [done|lia]).
  destruct (peer_synopsis_spec (pr_ids_to_get p) (pr_last_number p) (pr_last_number p + Z.of_nat (length (pr_ids_to_get p)))
              (S (Z.to_nat (pr_last_number p + Z.of_nat (length (pr_ids_to_get p))))) 1)
    as (rest & Hr & Hl); [done|done|done|done|lia|lia|].
  assert (Hlast : last (synopsis ++ rest) = last (pr_ids_to_get p)).
  { rewrite last_app, Hl. destruct (last (pr_ids_to_get p)) eqn:El; [done|]. by apply last_None in El. }
  exists rest. split; [|done]. unfold create_blockchain_synopsis_for_peer, mbind, eff_mbind, reads, lift.
  rewrite !wrapu32_id by lia. rewrite Hd.
  replace ((pr_last_block p =? 0) || bool_decide (synopsis <> [])) with true.
  2: { symmetry. apply orb_true_iff. destruct Hs as [->|Hs]; [by left|right; by apply bool_decide_eq_true]. }
  rewrite (proj2 (Z.eqb_neq _ _)) by lia. rewrite Hr. by rewrite bool_decide_eq_true_2.
Qed.

(** ** The backlog *)

Definition peers_known (s : node) : Prop := forall a, a ∈ nd_active s -> is_Some (nd_peers s !! a).
(** What giving a block to the client leaves alone, the lists of the peers apart. *)
Definition backlog_same (s s' : node) : Prop :=
  nd_active s' = nd_active s /\ nd_received s' = nd_received s /\ nd_new_received s' = nd_new_received s /\
  nd_in_progress s' = nd_in_progress s /\ nd_recent_blocks s' = nd_recent_blocks s /\ nd_limits s' = nd_limits s /\
  dom (nd_peers s') = dom (nd_peers s).

Lemma begin_processing_run b s : peers_known s ->
  exists s', begin_processing b s = (s', Ok tt) /\ backlog_same s s'.
Proof.
  intros Hk. unfold begin_processing, for_active, mbind at 1, eff_mbind at 1, reads at 1.
  assert (Hl : forall a, a ∈ elements (nd_active s) -> a ∈ dom (nd_peers s)).
  { intros a Ha%elem_of_elements. apply elem_of_dom. exact (Hk a Ha). }
  clear Hk. revert Hl. generalize (elements (nd_active s)) as l.
  intros l. revert s. induction l as [|a l IH]; intros s Hl; [by eexists|].
  pose proof (Hl a ltac:(left)) as Hp. apply elem_of_dom in Hp as [p Hp].
  set (f := fun p => set_pr_being_processed ({[ bm_block_id b ]} ∪ pr_being_processed p)
                       (set_pr_ids_to_get (tail (pr_ids_to_get p)) p)).
  set (s1 := if is_next_of b p then upd_peer a f s else s).
  assert (B1 : backlog_same s s1).
  { unfold s1. destruct (is_next_of b p); [|by repeat split].
    split_and!; try reflexivity. cbn. apply dom_alter_L. }
  destruct (IH s1) as (s' & E & B).
  { destruct B1 as (_ & _ & _ & _ & _ & _ & ->). intros x Hx. apply Hl. by right. }
  exists s'. split.
  - unfold eff_each in *. cbn [eff_fold]. unfold mbind at 1, eff_mbind at 1, mbind at 1, eff_mbind at 1, get_peer at 1, reads at 1.
    rewrite Hp. cbn [require]. rewrite <- E. unfold s1. by destruct (is_next_of b p).
  - destruct B1 as (?&?&?&?&?&?&?), B as (?&?&?&?&?&?&?). unfold backlog_same. by split_and!; etrans.
Qed.

(** How a turn of the loop ends. *)
Lemma backlog_turn_run s : peers_known s -> exists s' processed,
  backlog_turn s = (s', Ok processed) /\ peers_known s' /\ nd_new_received s' = [] /\ nd_limits s' = nd_limits s /\
  if processed : bool then
    S (length (nd_received s')) = (length (nd_received s) + length (nd_new_received s))%nat /\
    length (nd_in_progress s') = S (length (nd_in_progress s))
  else
    nd_in_progress s' = nd_in_progress s /\
    ((exists b, b ∈ nd_received s' /\ bm_block_id b ∈ nd_recent_blocks s') \/
     forall b, b ∈ nd_received s' -> potential_first_block b s' = false).
Proof.
  intros Hk. unfold backlog_turn, mbind at 1, eff_mbind at 1, update at 1.
  set (s1 := set_nd_new_received [] (set_nd_received (reverse (nd_new_received s) ++ nd_received s) s)).
  assert (Hk1 : peers_known s1) by exact Hk.
  unfold mbind at 1, eff_mbind at 1, reads at 1.
  destruct (list_find (fun b => potential_first_block b s1 = true) (nd_received s1)) as [[i b]|] eqn:Hf.
  2: { exists s1, false. split_and!; try reflexivity; [exact Hk1|]. right. intros b Hb.
       apply list_find_None in Hf. rewrite Forall_forall in Hf. specialize (Hf b Hb). by destruct (potential_first_block b s1). }
  apply list_find_Some in Hf as (Hi & _ & _).
  destruct (begin_processing_run b s1 Hk1) as (s2 & E2 & (Ha & Hr & Hn & Hp & Hre & Hli & Hd)).
  unfold mbind at 1, eff_mbind at 1. rewrite E2. unfold mbind at 1, eff_mbind at 1, reads at 1.
  assert (Hk2 : peers_known s2).
  { intros a. rewrite Ha. intros Hx%Hk1. apply elem_of_dom. rewrite Hd. by apply elem_of_dom. }
  case_bool_decide as Hb.
  - exists s2, false. split_and!; [done|done|done|done|done|]. left. exists b. split; [|done].
    rewrite Hr. by eapply list_elem_of_lookup_2.
  - eexists _, true. split; [reflexivity|]. split_and!; [exact Hk2|exact Hn|exact Hli| |].
    + cbn. rewrite Hr. rewrite length_delete by (by eexists). unfold s1. cbn. rewrite length_app, length_reverse.
      apply lookup_lt_Some in Hi. cbn in Hi. rewrite length_app, length_reverse in Hi. lia.
    + cbn. rewrite Hp, length_app. cbn. unfold s1. cbn. lia.
Qed.

(** What is left when the loop ends. *)
Definition backlog_done (s : node) : Prop :=
  too_many_in_progress s = true \/
  nd_new_received s = [] /\
  ((exists b, b ∈ nd_received s /\ bm_block_id b ∈ nd_recent_blocks s) \/
   forall b, b ∈ nd_received s -> potential_first_block b s = false).

Lemma backlog_ends fuel s : peers_known s ->
  (length (nd_received s) + length (nd_new_received s) < fuel)%nat -> too_many_in_progress s = false ->
  exists s', backlog_loop fuel s = (s', Ok tt) /\ backlog_done s' /\
    nd_limits s' = nd_limits s /\ (length (nd_in_progress s') <= li_blocks_to_handle (nd_limits s))%nat.
Proof.
  revert s. induction fuel as [|fuel IH]; intros s Hk Hf Hm; [lia|]. cbn [backlog_loop].
  unfold too_many_in_progress in Hm. apply Nat.leb_gt in Hm.
  destruct (backlog_turn_run s Hk) as (s1 & processed & E & Hk1 & Hn1 & Hli & Hp).
  unfold mbind at 1, eff_mbind at 1. rewrite E. unfold mbind at 1, eff_mbind at 1, reads at 1.
  assert (Hle : (length (nd_in_progress s1) <= li_blocks_to_handle (nd_limits s))%nat).
  { destruct processed; [lia|]. destruct Hp as [-> _]. lia. }
  destruct (too_many_in_progress s1) eqn:Hfull.
  - eexists. split; [reflexivity|].
    destruct (li_blocks_to_prefetch (nd_limits s1) <=? length (nd_received s1))%nat;
      (split; [by left|split; [done|done]]).
  - destruct processed.
    + destruct Hp as [Hr Hp]. destruct (IH s1 Hk1) as (s' & E' & Hd & Hli' & Hle'); [rewrite Hn1; cbn; lia|done|].
      exists s'. rewrite Hli', Hli in *. done.
    + exists s1. split_and!; [done| |done|done]. right. split; [done|]. apply Hp.
Qed.

(** C28: Processing the backlog of blocks ends, never has the client handle more blocks
    at a time than the limit, and leaves no block behind that is next for a peer unless
    the limit is reached or a block on hand had been accepted before. *)
Theorem backlog_drained s : peers_known s -> exists s',
  process_backlog_of_sync_blocks s = (s', Ok tt) /\ backlog_done s' /\
  ((length (nd_in_progress s) <= li_blocks_to_handle (nd_limits s))%nat ->
   (length (nd_in_progress s') <= li_blocks_to_handle (nd_limits s'))%nat).
Proof.
  intros Hk. unfold process_backlog_of_sync_blocks, mbind at 1, eff_mbind at 1, update at 1.
  unfold mbind at 1, eff_mbind at 1, reads at 1.
  change (too_many_in_progress (set_nd_backlog_scheduled false s)) with (too_many_in_progress s).
  destruct (too_many_in_progress s) eqn:Hm; [eexists; split; [reflexivity|]; split; [by left|done]|].
  set (s1 := set_nd_suspend_fetching false (set_nd_backlog_scheduled false s)).
  destruct (backlog_ends (S (length (nd_received s1) + length (nd_new_received s1))) s1) as (s' & E & Hd & Hli & Hle);
    [exact Hk|lia|exact Hm|].
  unfold mbind at 1, eff_mbind at 1, update at 1. fold s1. unfold mbind at 1, eff_mbind at 1, reads at 1.
  unfold mbind at 1, eff_mbind at 1. rewrite E. unfold mbind at 1, eff_mbind at 1, reads at 1.
  destruct (nd_suspend_fetching s'); (eexists; split; [reflexivity|]; split; [exact Hd|]; intros _; cbn; by rewrite Hli).
Qed.

(** ** Messages nobody asked for *)

Lemma disconnect_run now a r c e s p : nd_peers s !! a = Some p -> exists s',
  disconnect_from_peer fresh now a r c e s = (s', Ok tt) /\ a ∈ nd_closing s' /\ a ∉ nd_active s' /\
  nd_delegate s' = (if c then dg_error_encountered (nd_delegate s) r else nd_delegate s) /\
  nd_new_received s' = nd_new_received s /\ nd_received s' = nd_received s /\ nd_cache s' = nd_cache s /\
  nd_new_inventory s' = nd_new_inventory s.
Proof.
  intros Hp. unfold disconnect_from_peer, mbind at 1, eff_mbind at 1, update at 1.
  unfold mbind at 1, eff_mbind at 1, get_peer, reads at 1. change (nd_peers (move_peer_to_closing_list a s)) with (nd_peers s).
  rewrite Hp. cbn [require]. unfold update_known_peer, on_peer, enqueue_message, tell_delegate, mbind, eff_mbind, update.
  destruct (pr_they_close p); [|destruct (pr_endpoint p) as [x|]]; [| |];
    try change (nd_peer_db (move_peer_to_closing_list a s)) with (nd_peer_db s);
    try destruct (lookup_peer x (nd_peer_db s)); destruct c;
    (eexists; split; [reflexivity|]; cbn; split_and!; [set_solver|set_solver|reflexivity..]).
Qed.

(** A message that was not asked of the peer that sends it is not given to the
    client, kept or offered to others, and the peer is disconnected. *)
Theorem unrequested_message_is_dropped now a m s p :
  nd_peers s !! a = Some p -> is_core_type (payload_type m) = false ->
  pr_requested p !! mk_item (payload_type m) (payload_id m) = None ->
  (payload_type m = block_item -> exists b, as_block_message m = Ok b /\
     pr_sync_requested p !! mk_item block_item (bm_block_id b) = None) ->
  exists s' reason, on_message fresh now a (data_message m) s = (s', Ok tt) /\
    nd_delegate s' = dg_error_encountered (nd_delegate s) reason /\
    nd_new_received s' = nd_new_received s /\ nd_received s' = nd_received s /\ nd_cache s' = nd_cache s /\
    nd_new_inventory s' = nd_new_inventory s /\ a ∈ nd_closing s' /\ a ∉ nd_active s'.
Proof.
  intros Hp Hcore Hr Hb. cbn [on_message]. destruct (Z.eqb_spec (payload_type m) block_item) as [Ht|Ht].
  - destruct (Hb Ht) as (b & Eb & Hs). rewrite Ht in Hr.
    unfold process_block_message, mbind at 1, eff_mbind at 1, lift at 1. rewrite Eb.
    unfold mbind at 1, eff_mbind at 1, get_peer at 1, reads at 1. rewrite Hp. cbn [require]. cbv zeta.
    rewrite !bool_decide_eq_false_2 by (rewrite ?Hr, ?Hs; by intros [? ?]).
    destruct (disconnect_run now a unrequested_block true (Some (told_reason unrequested_block)) s p Hp)
      as (s' & E & ? & ? & ? & ? & ? & ? & ?). by exists s', unrequested_block.
  - rewrite Hcore. unfold process_ordinary_message, mbind at 1, eff_mbind at 1, get_peer at 1, reads at 1. rewrite Hp. cbn [require].
    cbv zeta. rewrite bool_decide_eq_true_2 by done.
    destruct (disconnect_run now a unrequested_message true (Some (told_reason unrequested_message)) s p Hp)
      as (s' & E & ? & ? & ? & ? & ? & ? & ?). by exists s', unrequested_message.
Qed.
End sync.

(** ** The database of peers *)

Definition seen_le (x y : peer_entry) : Prop := entry_seen x <= entry_seen y.
#[local] Instance seen_le_dec x y : Decision (seen_le x y).
Proof. unfold seen_le. apply _. Defined.

(** The records in memory are in order, one for each endpoint, and those on disk. *)
Record peer_db_ok (d : peer_db) : Prop := {
  pd_sorted : StronglySorted seen_le (pd_set d);
  pd_endpoints : NoDup (map entry_endpoint (pd_set d));
  pd_disk k r : pd_leveldb d !! k = Some r <-> (k, r) ∈ pd_set d
}.

Lemma insert_by_time_perm x l : insert_by_time x l ≡ₚ x :: l.
Proof.
  induction l as [|y l IH]; cbn; [done|]. destruct (entry_seen x <? entry_seen y); [done|].
  rewrite IH. apply Permutation_swap.
Qed.
Lemma insert_by_time_sorted x l : StronglySorted seen_le l -> StronglySorted seen_le (insert_by_time x l).
Proof.
  induction 1 as [|y l Hl IH Hy]; cbn; [by repeat constructor|].
  destruct (Z.ltb_spec (entry_seen x) (entry_seen y)).
  - constructor; [by constructor|]. constructor; [unfold seen_le; lia|].
    eapply Forall_impl; [exact Hy|]. unfold seen_le. intros z ?. lia.
  - constructor; [done|]. rewrite insert_by_time_perm. constructor; [unfold seen_le; lia|done].
Qed.

Lemma find_endpoint_None e l : find_endpoint e l = None <-> e ∉ map entry_endpoint l.
Proof.
  unfold find_endpoint. rewrite fmap_None, list_find_None, Forall_forall, list_elem_of_fmap. naive_solver.
Qed.
Lemma find_endpoint_Some e l x : find_endpoint e l = Some x -> x ∈ l /\ entry_endpoint x = e.
Proof.
  unfold find_endpoint. intros ([i y] & Hf & ->)%fmap_Some. apply list_find_Some in Hf as (Hl & He & _).
  split; [by eapply list_elem_of_lookup_2|done].
Qed.
Lemma without_endpoint_sorted e l : StronglySorted seen_le l -> StronglySorted seen_le (without_endpoint e l).
Proof.
  induction 1 as [|y l Hl IH Hy]; unfold without_endpoint in *; [constructor|]. rewrite filter_cons.
  destruct (decide _); [|done]. constructor; [done|]. rewrite Forall_forall in *. intros z [_ Hz]%list_elem_of_filter. auto.
Qed.
Lemma without_endpoint_endpoints e l :
  NoDup (map entry_endpoint l) -> NoDup (map entry_endpoint (without_endpoint e l)).
Proof.
  unfold without_endpoint. induction l as [|y l IH]; [done|]. cbn [map]. intros [Hy H]%NoDup_cons. rewrite filter_cons.
  destruct (decide _); [|by apply IH]. constructor; [|by apply IH]. intros (z & Ez & [_ Hz]%list_elem_of_filter)%list_elem_of_fmap.
  apply Hy. apply list_elem_of_fmap. by exists z.
Qed.

Lemma endpoints_unique l (x y : peer_entry) :
  NoDup (map entry_endpoint l) -> x ∈ l -> y ∈ l -> entry_endpoint x = entry_endpoint y -> x = y.
Proof.
  induction l as [|z l IH]; [by intros _ ?%elem_of_nil|]. cbn. intros [Hz Hn]%NoDup_cons Hx Hy E.
  apply elem_of_cons in Hx as [->|Hx], Hy as [->|Hy]; [done| | |by apply IH].
  - destruct Hz. apply list_elem_of_fmap. by exists y.
  - destruct Hz. apply list_elem_of_fmap. by exists x.
Qed.

Lemma max_key_above (l : list Z) k x : x ∈ k :: l -> x <= foldl Z.max k l.
Proof.
  revert k x. induction l as [|y l IH]; intros k x; cbn; [intros ->%list_elem_of_singleton; lia|].
  intros [->|[->|Hx]%elem_of_cons]%elem_of_cons.
  - etrans; [|apply (IH (Z.max k y) (Z.max k y)); left]. lia.
  - etrans; [|apply (IH (Z.max k y) (Z.max k y)); left]. lia.
  - apply IH. by right.
Qed.
Lemma new_key_free fresh (m : gmap Z potential_peer_record) :
  (m <> ∅ -> 0 <= last_key fresh m < 2^32 - 1) -> m !! wrapu32 (last_key fresh m + 1) = None.
Proof.
  intros Hk. destruct (decide (m = ∅)) as [->|Hne]; [apply lookup_empty|]. specialize (Hk Hne).
  rewrite wrapu32_id by lia. apply eq_None_not_Some. intros [r Hr].
  assert (Hin : last_key fresh m + 1 ∈ (map_to_list m).*1).
  { apply list_elem_of_fmap. exists (last_key fresh m + 1, r). split; [done|]. by apply elem_of_map_to_list. }
  revert Hin. unfold last_key. destruct (map_to_list m).*1 as [|k l]; [by intros ?%elem_of_nil|].
  intros Hin%max_key_above. lia.
Qed.

Lemma lookup_peer_iff e d r : NoDup (map entry_endpoint (pd_set d)) ->
  lookup_peer e d = Some r <-> exists k, (k, r) ∈ pd_set d /\ pp_endpoint r = e.
Proof.
  intros Hn. unfold lookup_peer. destruct (find_endpoint e (pd_set d)) as [x|] eqn:Hf; cbn.
  - apply find_endpoint_Some in Hf as [Hx He]. split.
    + intros [= <-]. exists x.1. by destruct x.
    + intros (k & Hk & Hr). by rewrite (endpoints_unique _ x (k, r) Hn Hx Hk ltac:(by rewrite He)).
  - split; [done|]. intros (k & Hk & Hr). apply find_endpoint_None in Hf. destruct Hf.
    apply list_elem_of_fmap. exists (k, r). by split.
Qed.

(** The entries after [update_entry]: the new one under its key, and those of other
    endpoints. *)
Lemma update_entry_entries fresh r d :
  peer_db_ok d -> (pd_leveldb d <> ∅ -> 0 <= last_key fresh (pd_leveldb d) < 2^32 - 1) ->
  exists k l, pd_leveldb (update_entry fresh r d) = <[k := r]> (pd_leveldb d) /\
    pd_set (update_entry fresh r d) = insert_by_time (k, r) l /\
    StronglySorted seen_le l /\ NoDup (map entry_endpoint l) /\
    (forall x, x ∈ l <-> x ∈ pd_set d /\ entry_endpoint x <> pp_endpoint r) /\
    forall x, x ∈ pd_set d -> entry_endpoint x = pp_endpoint r <-> x.1 = k.
Proof.
  intros Ho Hk. unfold update_entry. destruct (find_endpoint (pp_endpoint r) (pd_set d)) as [x|] eqn:Hf.
  - pose proof (find_endpoint_Some _ _ _ Hf) as [Hx He].
    exists x.1, (without_endpoint (pp_endpoint r) (pd_set d)). split_and!; [done|done| | | |].
    + apply without_endpoint_sorted, Ho.
    + apply without_endpoint_endpoints, Ho.
    + intros y. unfold without_endpoint. rewrite list_elem_of_filter. tauto.
    + intros y Hy. split; [intros Ey; by rewrite (endpoints_unique _ y x (pd_endpoints d Ho) Hy Hx ltac:(by rewrite He))|].
      intros Ey. destruct x as [k r0], y as [k' r1]. apply (pd_disk d Ho) in Hx, Hy. unfold entry_endpoint in *. cbn in *. congruence.
  - exists (wrapu32 (last_key fresh (pd_leveldb d) + 1)), (pd_set d). cbn. unfold insert_entry, entry_endpoint. cbn.
    rewrite Hf. split_and!; [done|done|apply Ho|apply Ho| |].
    + intros x. split; [|by intros [? _]]. intros Hx. split; [done|]. intros He. apply find_endpoint_None in Hf.
      apply Hf, list_elem_of_fmap. by exists x.
    + intros [k r'] Hx. cbn. split.
      * intros He. apply find_endpoint_None in Hf. destruct Hf. apply list_elem_of_fmap. by exists (k, r').
      * intros ->. apply (pd_disk d Ho) in Hx. by rewrite new_key_free in Hx.
Qed.

(** Storing a record of a peer keeps the database in order and the disk the same as
    the memory, and the record is what is found under its endpoint afterwards, the
    records of other endpoints being what they were. *)
Theorem update_entry_spec fresh r d :
  peer_db_ok d -> (pd_leveldb d <> ∅ -> 0 <= last_key fresh (pd_leveldb d) < 2^32 - 1) ->
  let d' := update_entry fresh r d in
  peer_db_ok d' /\ lookup_peer (pp_endpoint r) d' = Some r /\
  forall e, e <> pp_endpoint r -> lookup_peer e d' = lookup_peer e d.
Proof.
  intros Ho Hk d'. destruct (update_entry_entries fresh r d Ho Hk) as (k & l & El & Es & Hs & Hn & Hl & Hkey).
  fold d' in El, Es.
  assert (Hin : forall x, x ∈ pd_set d' <-> x = (k, r) \/ x ∈ pd_set d /\ entry_endpoint x <> pp_endpoint r).
  { intros x. rewrite Es, insert_by_time_perm, elem_of_cons. by rewrite Hl. }
  assert (Hnd : NoDup (map entry_endpoint (pd_set d'))).
  { rewrite Es, insert_by_time_perm. cbn. constructor; [|done]. intros (x & Ex & [_ Hx]%Hl)%list_elem_of_fmap. done. }
  split_and!.
  - split; [rewrite Es; by apply insert_by_time_sorted|done|]. intros k' r'. rewrite El, Hin.
    destruct (decide (k' = k)) as [->|Hne].
    + rewrite lookup_insert_eq. split; [intros [= ->]; by left|]. intros [[= ->]|[Hr He]]; [done|].
      destruct He. by apply (Hkey _ Hr).
    + rewrite lookup_insert_ne by done. rewrite (pd_disk d Ho). split; [|by intros [[=]|[? _]]].
      intros Hr. right. split; [done|]. intros He. by apply (Hkey _ Hr) in He.
  - apply lookup_peer_iff; [done|]. exists k. split; [|done]. apply Hin. by left.
  - intros e He. apply option_eq. intros r'. rewrite (lookup_peer_iff e d' r' Hnd), (lookup_peer_iff e d r' (pd_endpoints d Ho)).
    split; intros (k' & Hr & Er); exists k'; (split; [|done]).
    + apply Hin in Hr as [[= -> ->]|[? _]]; [by destruct He|done].
    + apply Hin. right. split; [done|]. unfold entry_endpoint. cbn. congruence.
Qed.

(** Loading keeps the index in order. *)
Lemma load_entries_sorted m : StronglySorted seen_le (load_entries m).
Proof.
  unfold load_entries. assert (H : StronglySorted seen_le []) by constructor. revert H.
  generalize (@nil peer_entry) as l. induction (disk_entries m) as [|x xs IH]; intros l Hl; cbn; [done|].
  apply IH. unfold insert_entry. case_match; [done|]. by apply insert_by_time_sorted.
Qed.

Lemma sorted_app_le l1 l2 x y :
  StronglySorted seen_le (l1 ++ l2) -> x ∈ l1 -> y ∈ l2 -> seen_le x y.
Proof.
  induction l1 as [|z l1 IH]; [by intros _ ?%elem_of_nil|]. cbn. intros H%StronglySorted_inv. destruct H as [Hs Hz].
  intros [->|Hx]%elem_of_cons Hy; [|by apply IH]. rewrite Forall_forall in Hz. apply Hz, elem_of_app. by right.
Qed.

(** Opening a database of more than a thousand records keeps a thousand, and of those
    the ones that have been seen the longest ago: what is dropped has been seen no
    earlier than anything kept. *)
Theorem open_drops_recent_peers m x y :
  (MAXIMUM_PEERDB_SIZE < length (load_entries m))%nat ->
  x ∈ pd_set (open_peer_db m) -> y ∈ load_entries m -> y ∉ pd_set (open_peer_db m) ->
  entry_seen x <= entry_seen y /\ length (pd_set (open_peer_db m)) = MAXIMUM_PEERDB_SIZE.
Proof.
  intros Hlen. unfold open_peer_db. rewrite (proj2 (Nat.ltb_lt _ _) Hlen). cbn [pd_set]. intros Hx Hy Hn.
  rewrite length_take, Nat.min_l by lia. split; [|done].
  pose proof (load_entries_sorted m) as Hs. rewrite <- (take_drop MAXIMUM_PEERDB_SIZE (load_entries m)) in Hs, Hy.
  apply elem_of_app in Hy as [?|Hy]; [done|]. exact (sorted_app_le _ _ x y Hs Hx Hy).
Qed.

(** ** The node, its client and the chain *)

Section client.
Context `{Crypto} `{BlockHash} `{FcNum} `{FcReal} `{!MarketEngine}.
Context (message_hash : client_message -> Z) (t : moment) (fresh : Z).
#[local] Existing Instance client_messages.
#[local] Existing Instance client_delegate.
Local Abbreviation node := (@node (client_messages message_hash) client).
#[local] Instance this_client : @NodeDelegate (client_messages message_hash) client := client_delegate message_hash t.
Implicit Types s : node.

(** What follows the handling of a block leaves the client alone. *)
Definition same_client (s s' : node) : Prop :=
  nd_delegate s' = nd_delegate s /\ nd_recent_blocks s' = nd_recent_blocks s.
#[local] Instance same_client_refl : Reflexive same_client.
Proof. done. Qed.
#[local] Instance same_client_trans : Transitive same_client.
Proof. intros s1 s2 s3 [] []. split; congruence. Qed.
Lemma same_client_update (f : node -> node) : (forall s, same_client s (f s)) -> keeps same_client (update f).
Proof. intros Hf s. apply Hf. Qed.

Ltac client_step :=
  match goal with
  | |- keeps _ (_ ≫= _) => apply (keeps_bind _); [|intros ?]
  | |- keeps _ (eff_each _ _) => apply (keeps_each _); intros ? _
  | |- keeps _ (eff_fold _ _ _) => apply (keeps_fold _); intros ? ? _
  | |- keeps _ (match ?x with _ => _ end) => destruct x
  | |- keeps _ (update _) => apply same_client_update; intros ?; repeat case_match; split; reflexivity
  | |- _ => solve [auto with keeps typeclass_instances]
  end.
Ltac client_frame := intros; cbv zeta; repeat client_step.

Lemma fetch_ids_client now a : keeps same_client (fetch_next_batch_of_item_ids_from_peer now a).
Proof.
  unfold fetch_next_batch_of_item_ids_from_peer, create_blockchain_synopsis_for_peer, get_peer, on_peer, enqueue_message.
  client_frame.
Qed.
Lemma start_sync_client now a : keeps same_client (start_synchronizing_with_peer now a).
Proof.
  unfold start_synchronizing_with_peer, on_peer, ask_delegate. client_frame. apply fetch_ids_client.
Qed.
Lemma disconnect_client now a r c e : keeps same_client (disconnect_from_peer fresh now a r c e).
Proof. unfold disconnect_from_peer, get_peer, on_peer, update_known_peer, enqueue_message, tell_delegate. client_frame. Qed.
#[local] Hint Resolve fetch_ids_client start_sync_client disconnect_client : keeps.

Lemma elem_of_push_recent_block id l : id ∈ push_recent_block id l.
Proof.
  unfold push_recent_block, BTS_NET_DEFAULT_MAX_CONNECTIONS. rewrite drop_app_le by lia. apply elem_of_app. right. left.
Qed.

(** The message of a block. *)
Definition message_of_block (b : full_block) : @block_message (client_messages message_hash) :=
  mk_block_message (client_messages message_hash) (fb_id b) (fb_block_num b) (fb_timestamp b) (Client.block_message b (fb_id b)).

(** C24: When the client handles a block fetched by the synchronisation, which follows
    the head of its chain, is new and passes its evaluation, the block becomes the head
    and is noted as accepted, whatever the node then does with its peers.  (A client
    told to simulate a disconnected network refuses every message.) *)
Theorem synced_block_becomes_head now i b s f seed c1 :
  nd_in_progress s !! i = Some (message_of_block b) ->
  cl_simulate_disconnect (nd_delegate s) = false -> next_block b (cl_chain (nd_delegate s)) f ->
  get_current_random_seed (ch_db (cl_chain (nd_delegate s))) = Ok seed ->
  extend_chain (mo_clock t) b
    (set_ch_blocks (with_block (mo_clock t) seed b f (ch_blocks (cl_chain (nd_delegate s)))) (cl_chain (nd_delegate s)))
    = (c1, Ok tt) ->
  let s' := (run_handle_call fresh now i s).1 in
  ch_head_id (cl_chain (nd_delegate s')) = fb_id b /\
  is_included_block (fb_id b) (cl_chain (nd_delegate s')) = true /\ fb_id b ∈ nd_recent_blocks s'.
Proof.
  intros Hi Hd Hn Hs He s'.
  destruct (handle_next_block t b true (nd_delegate s) f seed c1 Hd Hn Hs He) as (k' & Hh & Hhead & _ & Hin & _).
  set (s1 := set_nd_in_progress (delete i (nd_in_progress s)) s).
  set (s2 := set_nd_recent_blocks (push_recent_block (fb_id b) (nd_recent_blocks s)) (set_nd_delegate k' s1)).
  assert (Hc : same_client s2 s').
  { unfold s', run_handle_call, mbind at 1, eff_mbind at 1, reads at 1. rewrite Hi. cbn [require].
    unfold mbind at 1, eff_mbind at 1, update at 1. fold s1.
    unfold send_sync_block_to_node_delegate, mbind at 1, eff_mbind at 1.
    assert (Hp : push_sync_block (message_of_block b) s1 = (s2, Ok client_accepted)).
    { unfold push_sync_block, delegate_handles. cbn [dg_handle_message this_client client_delegate].
      change (nd_delegate s1) with (nd_delegate s). cbn [bm_message message_of_block]. rewrite Hh. reflexivity. }
    rewrite Hp. apply (fun K : keeps same_client _ => K s2).
    unfold do_duties, after_accepted, get_peer, on_peer, trigger_process_backlog_of_sync_blocks. client_frame. }
  destruct Hc as [Ed Er]. rewrite Ed, Er. split_and!; [exact Hhead|exact Hin|]. apply elem_of_push_recent_block.
Qed.
End client.
