(* ===== verification/NodeWitnesses.v ===== *)
(** * NodeWitnesses: a node with two peers

    A node with a client that keeps the ids of the blocks it is given synchronises
    with two peers that offer the same blocks, for the theorems of NodeFacts.v. *)
From S2P Require Import Prelude Config Fc Asset Records ChainInterface PendingState ChainDatabase Samples.
From S2P Require Import Blocks Production Forks Chain ChainOps SwitchFacts ChainWitnesses.
From S2P Require Import Eff Client SyncFacts SyncWitnesses NodeState Node NodeFacts.
Local Open Scope Z_scope.

Inductive toy_payload := toy_block (id num time : Z) | toy_trx (id : Z).
#[local] Instance toy_messages : NodeMessages := {|
  payload := toy_payload;
  payload_type p := match p with toy_block _ _ _ => block_item | toy_trx _ => trx_item end;
  payload_id p := match p with toy_block id _ _ => 500 + id | toy_trx id => id end;
  trx_id_of p := match p with toy_block _ _ _ => Err assert_exception | toy_trx id => Ok id end
|}.
#[local] Instance toy_delegate : NodeDelegate (list Z) := {|
  dg_has_item d i := Ok (bool_decide (item_hash i ∈ d));
  dg_get_item _ _ := Err key_not_found_exception;
  dg_get_item_ids _ _ _ := Ok ([], 0);
  dg_get_blockchain_synopsis _ _ _ _ := Ok [1];
  dg_handle_message d p _ := match p with toy_block id _ _ => (d ++ [id], Ok tt) | toy_trx _ => (d, Ok tt) end;
  dg_sync_status d _ _ := d;
  dg_error_encountered d _ := d;
  dg_connection_count_changed d _ := d;
  dg_get_block_number _ _ := Ok 0;
  dg_get_block_time _ _ := Ok 0;
  dg_get_blockchain_now _ := 1000;
  as_block_message p :=
    match p with toy_block id num time => Ok (mk_block_message _ id num time p) | toy_trx _ => Err assert_exception end
|}.

Local Abbreviation node := (@node toy_messages (list Z)).

Definition fresh_peer (endpoint : Z) : peer :=
  mk_peer endpoint true (Some endpoint) (Some endpoint) [] ∅ 0 false false None ∅ 0 0 0 false ∅ ∅ ∅ 0 0
    false false 0 None false 0 0 0 0.
Definition first_node : node :=
  mk_node [1] ∅ ∅ ∅ ∅ ∅ ∅ [] [] [] false [] 0 ∅ [1] block_item 0 [] (mk_cache [] 0) (mk_peer_db ∅ []) [] false false
    false 0
    (mk_limits MAXIMUM_NUMBER_OF_BLOCKS_TO_HANDLE_AT_ONE_TIME MAXIMUM_NUMBER_OF_BLOCKS_TO_PREFETCH
       BTS_NET_MAX_BLOCKS_PER_PEER_DURING_SYNCING 5).

Lemma first_node_ok : requests_ok first_node.
Proof. split; intros *; unfold requests_of; cbn; by rewrite fmap_empty, lookup_empty. Qed.

(** Both peers offer the blocks 11, 12 and 13. *)
Definition offers : list (Z * event) :=
  [ (1, connected 1 (fresh_peer 61)); (2, connected 2 (fresh_peer 62)); (3, accepted_by 1); (4, accepted_by 2);
    (5, received 1 (blockchain_item_ids_inventory_message 0 block_item [11; 12; 13]));
    (6, received 2 (blockchain_item_ids_inventory_message 0 block_item [11; 12; 13])) ].
Definition offered : node := run_events 0 offers first_node.
Definition asking : node := run_events 0 (offers ++ [(7, fetch_sync_items_task)]) first_node.


Lemma asking_eq : run_events 0 (offers ++ [(7, fetch_sync_items_task)]) first_node = asking.
Proof. unfold asking. reflexivity. Qed.
Lemma lookup_run {A} (x : option A) (f : A -> bool) :
  match x with Some a => f a | None => false end = true -> exists a, x = Some a /\ f a = true.
Proof. destruct x; [eauto|done]. Qed.
Lemma asked_decide (s : node) h a :
  match requests_of s !! a with Some m => bool_decide (is_Some (m !! mk_item block_item h)) | None => false end = true ->
  asked_of s h a.
Proof. intros (m & Hm & Hi%bool_decide_eq_true)%lookup_run. by exists m. Qed.

(** Only one of the peers is asked. *)
Lemma block_requested_once_witness :
  asked_of asking 11 2 /\ forall a, asked_of asking 11 a -> a = 2 /\ is_Some (nd_sync_requests asking !! 11).
Proof.
  assert (H2 : asked_of asking 11 2) by (apply asked_decide; vm_compute; reflexivity).
  split; [exact H2|]. intros a Ha.
  pose proof (block_requested_once 0 (offers ++ [(7, fetch_sync_items_task)]) first_node 11 a 2 first_node_ok) as T.
  cbv zeta in T. rewrite asking_eq in T. exact (T Ha H2).
Defined.

(** The peer that was asked does not have the block. *)
Lemma asking_ok : requests_ok asking.
Proof.
  rewrite <- asking_eq.
  exact (proj1 (run_events_step 0 (offers ++ [(7, fetch_sync_items_task)]) first_node first_node_ok)).
Qed.
Definition reported : node := (on_item_not_available_message 0 8 2 (mk_item block_item 11) asking).1.
Lemma unavailable_block_is_lost_witness :
  is_Some (nd_sync_requests (run_events 0 [(9, closed 2); (10, fetch_sync_items_task)] reported) !! 11) /\
  forall a, ~ asked_of (run_events 0 [(9, closed 2); (10, fetch_sync_items_task)] reported) 11 a.
Proof.
  destruct (lookup_run (nd_peers asking !! 2) (fun p =>
    bool_decide (pr_requested p !! mk_item block_item 11 = None)
    && bool_decide (is_Some (pr_sync_requested p !! mk_item block_item 11)))) as (p & Hp & Hb);
    [vm_compute; reflexivity|].
  apply andb_true_iff in Hb as [Hr%bool_decide_eq_true Hs%bool_decide_eq_true].
  pose proof (fun a => unavailable_block_is_lost 0 8 [(9, closed 2); (10, fetch_sync_items_task)] asking 2 p 11 a
    asking_ok Hp Hr Hs) as T.
  split; [exact (proj2 (T 1))|]. intros a. exact (proj1 (T a)).
Defined.

(** The next block of the first peer is asked for. *)
Definition first_offerer : peer := default (fresh_peer 0) (nd_peers offered !! 1).
Lemma first_offerer_active : (1, first_offerer) ∈ active_peers offered.
Proof.
  apply list_elem_of_omap. exists 1. split.
  - apply elem_of_elements, (bool_decide_unpack _). vm_compute. exact I.
  - unfold first_offerer. destruct (lookup_run (nd_peers offered !! 1) (fun _ => true)) as (p & -> & _);
      [vm_compute; reflexivity|done].
Qed.
Lemma next_block_requested_witness :
  exists s' b hs, fetch_sync_items 7 offered = (s', Ok tt) /\ is_Some (nd_sync_requests s' !! 11) /\
    asked_of s' 11 b /\ 11 ∈ hs /\ (b, fetch_items_message block_item hs) ∈ nd_outbox s'.
Proof.
  destruct (next_block_requested 7 offered 1 first_offerer 0 11) as (s' & b & q & hs & E & Hs & _ & _ & _ & Ha & Hh & Ho & _);
    [vm_compute; reflexivity|exact first_offerer_active|vm_compute; reflexivity|vm_compute; reflexivity|].
  exists s', b, hs. split_and!; assumption.
Defined.

(** Block 12 arrives before block 11; then both are given to the client. *)
Definition arrived : node :=
  run_events 0 [ (8, received 2 (data_message (toy_block 12 2 20))); (9, received 2 (data_message (toy_block 11 1 10))) ] asking.
Lemma known_decide (s : node) :
  forallb (fun a => bool_decide (is_Some (nd_peers s !! a))) (elements (nd_active s)) = true -> peers_known s.
Proof.
  intros H a Ha%elem_of_elements. rewrite forallb_forall in H. apply list_elem_of_In in Ha.
  by apply H, bool_decide_eq_true in Ha.
Qed.
Lemma backlog_drained_witness : exists s',
  process_backlog_of_sync_blocks arrived = (s', Ok tt) /\ map bm_block_id (nd_in_progress s') = [11; 12] /\
  backlog_done s'.
Proof.
  destruct (backlog_drained arrived) as (s' & E & Hd & _); [apply known_decide; vm_compute; reflexivity|].
  exists s'. split_and!; [exact E| |exact Hd].
  assert (Hm : map bm_block_id (nd_in_progress (process_backlog_of_sync_blocks arrived).1) = [11; 12])
    by (vm_compute; reflexivity).
  rewrite E in Hm. exact Hm.
Defined.

(** Peer 1 sends a transaction nobody asked it for. *)
Lemma unrequested_message_is_dropped_witness :
  exists s' reason, on_message 0 10 1 (data_message (toy_trx 77)) asking = (s', Ok tt) /\
    nd_delegate s' = dg_error_encountered (nd_delegate asking) reason /\ 1 ∈ nd_closing s' /\ 1 ∉ nd_active s'.
Proof.
  destruct (lookup_run (nd_peers asking !! 1) (fun p =>
    bool_decide (pr_requested p !! mk_item trx_item 77 = None))) as (p & Hp & Hr%bool_decide_eq_true);
    [vm_compute; reflexivity|].
  destruct (unrequested_message_is_dropped (NM := toy_messages) 0 10 1 (toy_trx 77) asking p Hp eq_refl Hr) as
    (s' & reason & E & Hd & _ & _ & _ & _ & Hc & Ha); [by intros [=]|].
  exists s', reason. split; [exact E|]. split; [exact Hd|]. split; [exact Hc|exact Ha].
Defined.

(** A transaction is served while two blocks go by. *)
Lemma cached_for_two_blocks_witness :
  let c := cache_message (toy_trx 77) 77 (mk_propagation 1 1 0) 77 (mk_cache [] 5) in
  get_message 77 (Nat.iter 2 block_accepted c) = Ok (toy_trx 77) /\
  get_message 77 (Nat.iter 3 block_accepted c) = Err key_not_found_exception.
Proof.
  intros c. split.
  - apply (cached_for_two_blocks (NM := toy_messages) (toy_trx 77) 77 (mk_propagation 1 1 0) 77 (mk_cache [] 5) 2); [reflexivity|cbn; lia..].
  - apply (cached_for_two_blocks (NM := toy_messages) (toy_trx 77) 77 (mk_propagation 1 1 0) 77 (mk_cache [] 5) 3); [reflexivity|cbn; lia..].
Defined.

(** A list of three blocks after block 5. *)
Definition listing_peer : peer :=
  set_pr_ids_to_get [11; 12; 13] (set_pr_last_number 5 (set_pr_last_block 1 (fresh_peer 61))).
Lemma synopsis_covers_list_witness : exists rest,
  create_blockchain_synopsis_for_peer listing_peer first_node = (first_node, Ok ([1] ++ rest)) /\
  last ([1] ++ rest) = Some 13.
Proof.
  destruct (synopsis_covers_list listing_peer first_node [1]) as (rest & E & Hl);
    [done|cbn; lia|cbn; lia|reflexivity|by right|].
  exists rest. split; [exact E|exact Hl].
Defined.

(** A record of a second peer. *)
Definition one_peer_db : peer_db :=
  mk_peer_db {[ 4 := set_pp_last_seen_time 30 (new_potential_peer 61) ]} [(4, set_pp_last_seen_time 30 (new_potential_peer 61))].
Lemma update_entry_spec_witness :
  let d' := update_entry 0 (new_potential_peer 62) one_peer_db in
  peer_db_ok d' /\ lookup_peer 62 d' = Some (new_potential_peer 62) /\ lookup_peer 61 d' = lookup_peer 61 one_peer_db.
Proof.
  destruct (update_entry_spec 0 (new_potential_peer 62) one_peer_db) as (Ho & Hl & Hf).
  - split; [by repeat constructor|by repeat constructor; set_solver|]. intros k r. unfold one_peer_db. cbn.
    rewrite lookup_singleton_Some, list_elem_of_singleton. split; [by intros [<- <-]|by intros [= -> ->]].
  - intros _. vm_compute. split; [discriminate|reflexivity].
  - split; [exact Ho|]. split; [exact Hl|]. by apply Hf.
Defined.

(** The node over the client and chain of SyncWitnesses.v, with the next block in
    progress. *)
Definition sample_hash (m : client_message) : Z :=
  match m with trx_message t => trx_id t | Client.block_message _ id => id + 1 | other_message t => t end.
Definition sample_node : @NodeState.node (client_messages sample_hash) client :=
  mk_node sample_client ∅ ∅ ∅ ∅ ∅ ∅ [] [] [message_of_block sample_hash sample_next] false [] 0 ∅ [] block_item 0 []
    (mk_cache [] 0) (mk_peer_db ∅ []) [] false false false 0 (mk_limits 200 2000 100 5).
Lemma synced_block_becomes_head_witness :
  let s' := (@run_handle_call (client_messages sample_hash) client (client_delegate sample_hash sample_moment)
               0 8 0 sample_node).1 in
  ch_head_id (cl_chain (nd_delegate s')) = fb_id sample_next /\ fb_id sample_next ∈ nd_recent_blocks s'.
Proof.
  destruct (synced_block_becomes_head sample_hash sample_moment 0 8 0 sample_next sample_node genesis_fork 5 extended_chain
    eq_refl eq_refl sample_is_next eq_refl extended_run) as (Hh & _ & Hr).
  intros s'. split; [exact Hh|exact Hr].
Defined.
